(* ===== verification/_CoqProject ===== *)
-Q . S2P
Prelude.v
Links.v
DiskSched.v
KTypes.v
KSched.v
KSchedFacts.v
KIpc.v
KSenda.v
KCall.v
KSys.v
KIpcFacts.v
KIpcSend.v
KDemo.v
KSchedProps.v
KIpcProps.v
KIpcRecv.v
KSysProps.v
SchedServer.v
SchedKernel.v
SchedServerProps.v
Psem.v
PsemProps.v
SemQueue.v
Tll.v
TllProps.v
TllSystem.v
Timers.v
TimersProps.v
Ds.v
DsFacts.v
DsProps.v
Flock.v
FlockProps.v
FlockSystem.v
Sysv.v
SysvFacts.v
SysvSem.v
SysvCalls.v
SysvSystem.v
SysvDemo.v
SysvProps.v
BufCache.v
Cache.v
CacheView.v
CacheFlush.v
CacheStore.v
CacheProps.v
CacheGet.v
CacheLaws.v
CacheDemo.v
CacheSystem.v
Mfs.v
MfsFile.v
MfsBits.v
MfsZones.v
MfsTree.v
MfsMap.v
MfsTrunc.v
MfsDemo.v
MfsProps.v
Shell.v
ShellProps.v
