(* ===== verification/Prelude.v ===== *)
(** * Verification of the operating-systems coursework repository

    The repository holds four assignments. The first is a small shell, the second
    MINIX 3.3 with a lottery scheduler added to its kernel, the third a second
    copy of MINIX whose process manager got semaphores, with the library that
    uses them, the fourth a comparison of disk-scheduling algorithms. This
    development models the parts that carry logic of their own, proves what
    makes them correct, and records where the code does not do what it means to.

    ** Files

    Every file names the functions of the source after the source; the C
    file is given in the header of each.

    - [Prelude]: faults, the state monad with faults [M], total correctness [wp]
      with its rules, arrays, machine integers, flag words; [Links]: singly linked lists.
    - [DiskSched] (program_assignment_4/disk_scheduling.c): the seven algorithms
      on arrays of requests.
    - The kernel (program_assignment_2/src/minix/kernel). [KTypes] is its data:
      the process table, the privilege structures, the run queues, endpoints and
      messages. [KSched] (proc.c, proc.h) has the run queues, the runtime flags and the
      choice of the next process by priority or by lottery. [KIpc] and [KSenda]
      (proc.c) have synchronous messages, notifications and
      asynchronous messages; [KCall] (proc.c) the receiving side, the entry
      point of the trap and the return to user mode; [KSys] (system.c, system/) the kernel calls
      on processes. [KSchedFacts], [KIpcFacts], [KIpcSend] and [KIpcRecv] are their
      theory; [KDemo] is a concrete kernel; the properties are in
      [KSchedProps], [KIpcProps], [KIpcRecv] and [KSysProps].
    - [SchedServer] (servers/sched) is the scheduler in user space, written against
      an interface to the kernel, the class [SchedKernel] with its laws;
      [SchedKernel] (the file) implements the interface with the kernel calls of
      [KSys]; the properties are in [SchedServerProps].
    - [Psem] and [PsemProps] (program_assignment_3/PA3/minix/servers/pm/psem.c): the
      semaphores of the process manager, over a heap; [SemQueue]
      (program_assignment_3/PA3/sem.c): the library with the circular queue in shared memory.
    - [Tll], [TllProps], [TllSystem] (servers/vfs/tll.c): the three-level lock of
      the file system server and the worker threads that share it.
    - [Flock], [FlockProps], [FlockSystem] (servers/vfs/lock.c): the record locks of
      fcntl, and the processes that use them.
    - [Timers], [TimersProps] (lib/libtimers, lib/libsys/timers.c, kernel/clock.c):
      the queue of watchdog timers, for services and for the kernel.
    - [Ds], [DsFacts], [DsProps] (servers/ds): the data store.
    - [Sysv] (servers/ipc/sem.c, shm.c, utility.c, main.c): the server of System V
      semaphores and shared memory, with its queues of waiting processes and its
      main loop. [SysvFacts] has one semaphore and the walks over the table,
      [SysvSem] the invariant of the server and the calls on semaphores against a view of the table,
      [SysvCalls] the other calls, [SysvSystem] an observer's books over rounds of
      the main loop, [SysvProps] the properties, and [SysvDemo] a concrete server.
    - The MINIX file system. [Cache] (lib/libminixfs/cache.c) is the buffer cache
      with its hash chains, its list of unused buffers and its sorted transfers;
      [CacheView] to [CacheGet] are its theory, [CacheSystem] its properties for
      runs of operations, [CacheDemo] a concrete cache over a concrete disk.
      [BufCache] is the interface between the cache and a file system:
      the class [BufCache] of operations and its laws [BufCacheLaws], which
      [CacheLaws] proves of the cache. [Mfs] (fs/mfs/super.c, cache.c, misc.c) has the superblock,
      the two bit maps and the zones, [MfsFile] (fs/mfs/read.c, write.c, link.c) the
      zone trees of files with their indirect blocks and truncation, both written
      against the interface; [MfsBits] to [MfsTrunc] are their theory, [MfsProps]
      the properties and [MfsDemo] a concrete file system on the cache.
    - [Shell], [ShellProps] (program_assignment_1): the shell.

    ** How the code is modelled

    C that goes wrong is a value of [fault]: a failed assertion, a panic, a null or dangling pointer, an
    index outside an array, an indeterminate value, signed overflow, a division by zero.
    A function of the source is a computation [M S A] over the state [S] it works on, or a
    function to [result]. A statement [wp m Q s] says that [m] run from [s] has no
    fault and ends in [Q]; error codes are ordinary results. Machine integers are [Z] with their
    wrap-around or overflow written out, flag words are [Z] with bit operations,
    pointers into tables are indices, heap pointers are keys of a [gmap], and queues
    stay the linked structures of the code: theorems relate them to lists. What
    the source calls but does not define (hardware, user memory, kernel calls made
    by a server, [malloc], [rand], regular expressions, watchdog functions) is
    a class or an argument, with the documented laws that a theorem needs.

    ** What the theorems show

    - Kernel scheduling: on every change of runtime flags the run queues hold
      exactly the runnable processes, each on the queue of its priority, and the
      ticket total is the sum over the runnable ones ([RTS_SET_preserves],
      [RTS_UNSET_preserves]); the lottery picks a process with a probability given by its
      tickets ([lottery_fair], [pick_proc_lottery]); where
      the lottery reads an indeterminate pointer and the ticket
      arithmetic is wrong ([ProcessSetPriority_total] and the lemma [pick_proc_lottery_uninit]).
    - Message passing: what a send, a receive and a notification do in every case,
      and that the wait-for graph of blocked processes stays free of cycles
      ([mini_send_contract], [mini_receive_contract], [mini_notify_contract],
      [do_sync_ipc_permission]; that clearing a process leaves a stale link is a lemma of [KIpcProps]).
    - Kernel calls: fork with its tickets ([do_fork_contract]).
    - The user-space scheduler keeps its table and the kernel's queues in order on every
      message ([sched_server_safe]), and takes every process back to its best priority ([balance_converges]).
    - The semaphores of the process manager refine counting semaphores ([psem_counting]); the
      circular queue of the library is a queue until it is full ([full_queue_never_empties]).
    - The three-level lock: exclusion and absence of assertion failures in every interleaving ([tll_safe]),
      service of everyone who waits ([tll_drains]).
    - The record locks: what each request adds, removes and refuses ([lock_op_contract]),
      and exclusion in every run ([flock_exclusion]).
    - Timers: sorted queues and exactly the due watchdogs in order
      ([timer_service]).
    - The data store: no fault on any request and tables in order
      ([ds_server_safe]), retrieval of what was published ([ds_publish_retrieve]); the dangling
      buffer after a failed overwrite is a lemma of [DsProps].
    - The System V server serves any message without a fault and keeps counters, queues
      and tables in agreement ([ipc_server_safe]); a request on semaphores does what
      an abstract view of the table says, wake-ups included ([semop_contract]); over
      whole runs the values balance with the answers and exactly the unanswered
      requests are queued ([sem_books_balance]); segments are destroyed when they are
      marked and unused ([shm_destroy_contract]). These hold as long as memory lasts and nobody
      waits for zero, because a wait for zero makes the server crash later
      ([zero_wait_crashes]).
    - The disk algorithms serve every request and move the head as far as a
      closed form says ([optimal_minimal_iff]; those on the others are
      lemmas of [DiskSched]).
    - The buffer cache: every run of operations keeps it well formed
      ([cache_runs_well_formed]), a block that is asked for comes with its last contents
      ([get_block_contract], [block_survives]), and a flush puts them on the disk
      ([flush_durable]). The blocks whose contents are certain are a view [V] of
      the cache and the disk; a block that a failed transfer may have damaged
      is set aside.
    - The file system: bits and zones are allocated lowest first and freed
      exactly ([alloc_free_zone]); the zone tree of a file is a map
      from positions to zones, read by [read_map] ([read_map_reference]), changed
      at one position by [write_map] ([write_map_contract], [write_read_map]), and cut by
      truncation, which gives every zone back ([truncate_contract],
      [truncate_durable]).
    - The shell splits lines into words, records and executes commands, and fails after the
      fortieth command ([anaCommand_words], [shell_round], [shell_stops]).

    ** Bounds and fuel

    Loops over linked structures take fuel. The process table has 261 slots (5
    tasks, 256 processes) and the idle process is outside it: [queue_fuel] (263)
    is enough for a walk over a queue without repetitions, [deadlock_fuel] (262)
    for a path of waiting processes. The walks over worker threads are
    bounded by [NR_WTHREADS] (9), those over timers by the number of timers in
    memory plus one ([timer_fuel]). Theorems about loops whose length depends on the input (expiry
    of timers, the rounds of the shell, the retries of the scheduler, waiting
    processes) state how much fuel is enough, or what happens for every amount. The walks of the
    cache are bounded by its number of buffers, the exits that the System V server
    asks VM for by the number that VM has to report, the search in a bit map by the words and blocks it has.
    Running out of fuel is a fault, so a total statement excludes it.

    ** Configuration

    The kernel is built as in the repository for one cpu: no SMP, no watchdog, no
    profiling, no sanity checks, assertions on. [int] has 32 bits, [clock_t] is an
    unsigned 32-bit integer, as are [size_t] and [vir_bytes] on i386.

    ** Not modelled

    Code that moves bytes between machines rather than deciding anything (drivers, boot code,
    the architecture directories, SMP, profiling), the servers other than
    those above, the file systems other than the maps and the cache of MFS, the libraries other
    than these, and the
    commands and tests of MINIX; third-party code in the tree (lwIP and others). Of the
    second copy of MINIX, in program_assignment_3, only what was added to its process manager.
    Output with [printf] is left out, or an event where it is what a program is for.
    Parts of modelled components that are left out are named in the headers of their files. *)

From Stdlib Require Export ZArith Lia.
From stdpp Require Export base decidable option list_numbers gmap numbers.
From stdpp Require Export list.
Export ListNotations.


#[global] Set Default Goal Selector "!".
#[global] Open Scope Z_scope.

(** ** Faults: the ways a C execution goes wrong *)

Inductive fault :=
| AssertFail      (* a failed assert() *)
| Panic           (* a call of panic() *)
| NullDeref       (* dereference of a null or dangling pointer *)
| OutOfBounds     (* an access outside an array object *)
| Uninit          (* use of an indeterminate value *)
| SignedOverflow  (* int arithmetic out of range *)
| DivByZero       (* division or remainder by zero *)
| OutOfFuel.      (* the bound of a modelled loop was exhausted *)

#[global] Instance fault_eq_dec : EqDecision fault.
Proof. solve_decision. Defined.

(** Result of a C computation without state. *)
Inductive result (A : Type) :=
| Ok (a : A)
| Err (f : fault).
Arguments Ok {A} _.
Arguments Err {A} _.

#[global] Instance result_ret : MRet result := fun _ a => Ok a.
#[global] Instance result_bind : MBind result :=
  fun _ _ f m => match m with Ok a => f a | Err e => Err e end.

(** Computations over a state [S]; a fault discards the state. *)
Definition M (S A : Type) : Type := S -> result (A * S).

#[global] Instance M_ret {S} : MRet (M S) := fun _ a s => Ok (a, s).
#[global] Instance M_bind {S} : MBind (M S) :=
  fun _ _ f m s => match m s with Ok (a, s') => f a s' | Err e => Err e end.

Definition fail {S A} (e : fault) : M S A := fun _ => Err e.
Definition gets {S A} (f : S -> A) : M S A := fun s => Ok (f s, s).
Definition modify {S} (f : S -> S) : M S unit := fun s => Ok (tt, f s).
Definition lift {S A} (r : result A) : M S A :=
  fun s => match r with Ok a => Ok (a, s) | Err e => Err e end.
Definition c_assert {S} (b : bool) : M S unit :=
  fun s => if b then Ok (tt, s) else Err AssertFail.
Definition skip {S} : M S unit := mret tt.
Definition when {S} (b : bool) (m : M S unit) : M S unit := if b then m else skip.

(** Dereference: a null (or dangling) pointer faults. *)
Definition deref {S A} (o : option A) : M S A :=
  fun s => match o with Some a => Ok (a, s) | None => Err NullDeref end.

(** ** Array accesses by a C index *)

Definition aget {A} (l : list A) (i : Z) : result A :=
  if decide (0 <= i) then
    match l !! Z.to_nat i with Some a => Ok a | None => Err OutOfBounds end
  else Err OutOfBounds.

Definition aset {A} (l : list A) (i : Z) (x : A) : result (list A) :=
  if decide (0 <= i < Z.of_nat (length l)) then Ok (<[Z.to_nat i := x]> l)
  else Err OutOfBounds.

(** ** Machine integers *)

Definition INT_MAX : Z := 2147483647.
Definition INT_MIN : Z := -2147483648.

(** Signed arithmetic is undefined on overflow. *)
Definition int_ok (z : Z) : result Z :=
  if decide (INT_MIN <= z <= INT_MAX) then Ok z else Err SignedOverflow.
Definition iadd (a b : Z) : result Z := int_ok (a + b).
Definition isub (a b : Z) : result Z := int_ok (a - b).
Definition iabs (a : Z) : result Z := int_ok (Z.abs a).

(** The remainder truncates towards zero. *)
Definition irem (a b : Z) : result Z := if b =? 0 then Err DivByZero else Ok (Z.rem a b).

(** Unsigned arithmetic wraps. *)
Definition u32 (z : Z) : Z := z `mod` 4294967296.
Definition u16 (z : Z) : Z := z `mod` 65536.
(** Conversion to a 32-bit signed integer (two's complement). *)
Definition i32 (z : Z) : Z := (z + 2147483648) `mod` 4294967296 - 2147483648.

(** ** Flag words *)

(** All the bits of [f] are set in [w]. *)
Definition isset (w f : Z) : bool := Z.land w f =? f.
(** Some bit of [f] is set in [w] (the C test [w & f]). *)
Definition anyset (w f : Z) : bool := negb (Z.land w f =? 0).
Definition setf (w f : Z) : Z := Z.lor w f.
Definition clearf (w f : Z) : Z := Z.ldiff w f.

(** ** Loops *)

(** [for (i = lo; i < lo + n; i++) body] *)
Fixpoint for_up {A} (n : nat) (i : Z) (body : Z -> A -> result A) (a : A) : result A :=
  match n with
  | O => Ok a
  | S n' => a' ← body i a; for_up n' (i + 1) body a'
  end.

(** A loop whose body says whether to go on ([inl]) or to stop ([inr]). *)
Fixpoint loop {A B} (fuel : nat) (body : A -> result (A + B)) (a : A) : result B :=
  match fuel with
  | O => Err OutOfFuel
  | S fuel' =>
      r ← body a;
      match r with inl a' => loop fuel' body a' | inr b => Ok b end
  end.

(** Sequential iteration over a list in a state monad. *)
Fixpoint foreach {S A} (l : list A) (body : A -> M S unit) : M S unit :=
  match l with
  | [] => skip
  | x :: l' => body x;; foreach l' body
  end.

(** ** Total correctness *)

(** [wp m Q s]: run from [s], [m] faults nowhere and ends in [Q]. *)
Definition wp {S A} (m : M S A) (Q : A -> S -> Prop) (s : S) : Prop :=
  match m s with Ok (a, s') => Q a s' | Err _ => False end.

Section wp_rules.
Context {S : Type}.
Implicit Types s : S.

Lemma wp_ret {A} (a : A) (Q : A -> S -> Prop) s : Q a s -> wp (mret a) Q s.
Proof. done. Qed.

Lemma wp_bind {A B} (m : M S A) (f : A -> M S B) (Q : B -> S -> Prop) s :
  wp m (fun a => wp (f a) Q) s -> wp (m ≫= f) Q s.
Proof. unfold wp, mbind, M_bind. destruct (m s) as [[a s']|]; done. Qed.

Lemma wp_bind_inv {A B} (m : M S A) (f : A -> M S B) (Q : B -> S -> Prop) s :
  wp (m ≫= f) Q s -> wp m (fun a => wp (f a) Q) s.
Proof. unfold wp, mbind, M_bind. destruct (m s) as [[a s']|]; done. Qed.

Lemma wp_gets {A} (f : S -> A) (Q : A -> S -> Prop) s : Q (f s) s -> wp (gets f) Q s.
Proof. done. Qed.

Lemma wp_modify (f : S -> S) (Q : unit -> S -> Prop) s : Q tt (f s) -> wp (modify f) Q s.
Proof. done. Qed.

Lemma wp_assert b (Q : unit -> S -> Prop) s : b = true -> Q tt s -> wp (c_assert b) Q s.
Proof. intros ->. done. Qed.

Lemma wp_deref {A} (o : option A) a (Q : A -> S -> Prop) s :
  o = Some a -> Q a s -> wp (deref o) Q s.
Proof. intros ->. done. Qed.

Lemma wp_lift {A} (r : result A) a (Q : A -> S -> Prop) s :
  r = Ok a -> Q a s -> wp (lift r) Q s.
Proof. intros ->. done. Qed.

Lemma wp_when (b : bool) m (Q : unit -> S -> Prop) s :
  (b = true -> wp m Q s) -> (b = false -> Q tt s) -> wp (when b m) Q s.
Proof. destruct b; unfold when; intros H1 H2; [by apply H1 | by apply H2]. Qed.

Lemma wp_mono {A} (m : M S A) (P Q : A -> S -> Prop) s :
  wp m P s -> (forall a s', P a s' -> Q a s') -> wp m Q s.
Proof. unfold wp. destruct (m s) as [[a s']|]; auto. Qed.

Lemma wp_elim {A} (m : M S A) (Q : A -> S -> Prop) s :
  wp m Q s -> exists a s', m s = Ok (a, s') /\ Q a s'.
Proof. unfold wp. destruct (m s) as [[a s']|]; [eauto | done]. Qed.

Lemma wp_intro {A} (m : M S A) (Q : A -> S -> Prop) s a s' :
  m s = Ok (a, s') -> Q a s' -> wp m Q s.
Proof. unfold wp. intros ->. done. Qed.

Lemma bind_ok {A B} (m : M S A) (f : A -> M S B) s a s' :
  m s = Ok (a, s') -> (m ≫= f) s = f a s'.
Proof. unfold mbind, M_bind. by intros ->. Qed.

Lemma ok_pair_inj {A} (a a' : A) s s' : Ok (a, s) = Ok (a', s') -> a = a' /\ s = s'.
Proof. by intros [= -> ->]. Qed.

(** A continuation that faults after a computation that does not. *)
Lemma err_bind {A B} (m : M S A) (f : A -> M S B) e s :
  wp m (fun a s' => f a s' = Err e) s -> (m ≫= f) s = Err e.
Proof. unfold wp, mbind, M_bind. by destruct (m s) as [[a s']|]. Qed.

Lemma lift_bind {A B} (r : result A) (f : A -> M S B) a s : r = Ok a -> (lift r ≫= f) s = f a s.
Proof. by intros ->. Qed.

Lemma lift_bind_err {A B} (r : result A) (f : A -> M S B) e s : r = Err e -> (lift r ≫= f) s = Err e.
Proof. by intros ->. Qed.

(** A computation that faults at once. *)
Lemma err_bind_err {A B} (m : M S A) (f : A -> M S B) e s : m s = Err e -> (m ≫= f) s = Err e.
Proof. unfold mbind, M_bind. by intros ->. Qed.

(** Iteration keeps an invariant that the body keeps. *)
Lemma wp_foreach {A} (I : S -> Prop) (l : list A) (body : A -> M S unit) s :
  I s ->
  (forall x s, x ∈ l -> I s -> wp (body x) (fun _ => I) s) ->
  wp (foreach l body) (fun _ => I) s.
Proof.
  revert s. induction l as [|x l IH]; intros s HI Hb; [done|].
  simpl. apply wp_bind. eapply wp_mono.
  - apply Hb; [left | done].
  - intros [] s' HI'. apply IH; [done|]. intros y s'' Hy. apply Hb. by right.
Qed.

(** Iteration over indices, with an invariant on the index. *)
Lemma wp_foreach_seq (I : nat -> S -> Prop) (k n : nat) (body : nat -> M S unit) s :
  I k s ->
  (forall i s, (k <= i < k + n)%nat -> I i s -> wp (body i) (fun _ => I (i + 1)%nat) s) ->
  wp (foreach (seq k n) body) (fun _ => I (k + n)%nat) s.
Proof.
  revert k s. induction n as [|n IH]; intros k s HI Hb; [by rewrite Nat.add_0_r|].
  simpl. apply wp_bind. eapply wp_mono; [apply Hb; [lia|done]|].
  intros [] s' HI'. replace (k + Datatypes.S n)%nat with (k + 1 + n)%nat by lia.
  replace (Datatypes.S k) with (k + 1)%nat by lia. apply IH; [done|]. intros i s'' Hi. apply Hb. lia.
Qed.
End wp_rules.

(** ** Facts about the array accesses *)

Lemma aget_Ok {A} (l : list A) (i : Z) (a : A) :
  aget l i = Ok a <-> 0 <= i /\ l !! Z.to_nat i = Some a.
Proof.
  unfold aget. case_decide; [|split; [done | lia]].
  destruct (l !! Z.to_nat i); naive_solver.
Qed.

Lemma aget_nat {A} (l : list A) (n : nat) (a : A) :
  l !! n = Some a -> aget l (Z.of_nat n) = Ok a.
Proof. intros H. apply aget_Ok. rewrite Nat2Z.id. split; [lia | done]. Qed.

Lemma aset_nat {A} (l : list A) (n : nat) (x : A) :
  (n < length l)%nat -> aset l (Z.of_nat n) x = Ok (<[n := x]> l).
Proof. intros H. unfold aset. rewrite decide_True by lia. by rewrite Nat2Z.id. Qed.

Lemma int_ok_in z : INT_MIN <= z <= INT_MAX -> int_ok z = Ok z.
Proof. intros H. unfold int_ok. by rewrite decide_True. Qed.

Lemma int_ok_inv z v : int_ok z = Ok v -> v = z /\ INT_MIN <= z <= INT_MAX.
Proof. unfold int_ok. case_decide; naive_solver. Qed.

Lemma i32_small z : INT_MIN <= z <= INT_MAX -> i32 z = z.
Proof. unfold INT_MIN, INT_MAX, i32. intros H. rewrite Z.mod_small; lia. Qed.

(** A counted loop keeps an invariant on the counter and the state. *)
Lemma for_up_inv {A} (I : Z -> A -> Prop) n i body (a : A) :
  I i a ->
  (forall j a, i <= j < i + Z.of_nat n -> I j a -> exists a', body j a = Ok a' /\ I (j + 1) a') ->
  exists a', for_up n i body a = Ok a' /\ I (i + Z.of_nat n) a'.
Proof.
  revert i a. induction n as [|n IH]; intros i a HI Hb.
  { exists a. by rewrite Z.add_0_r. }
  destruct (Hb i a ltac:(lia) HI) as (a1 & E & HI1).
  destruct (IH (i + 1) a1 HI1) as (a' & E' & HI').
  { intros j b Hj. apply Hb. lia. }
  exists a'. split; [cbn; by rewrite E|].
  by replace (i + Z.of_nat (S n)) with (i + 1 + Z.of_nat n) by lia.
Qed.

(** ** Filters that keep everything or nothing *)

Section filters.
Context {A : Type} (P : A -> Prop) `{!forall x, Decision (P x)}.

Lemma list_filter_all l : Forall P l -> filter P l = l.
Proof. induction 1; [done|]. rewrite filter_cons_True by done. by f_equal. Qed.

Lemma list_filter_none l : Forall (fun x => ~ P x) l -> filter P l = [].
Proof. induction 1; [done|]. by rewrite filter_cons_False by done. Qed.
End filters.

Lemma list_filter_iff' {A} (P Q : A -> Prop) `{!forall x, Decision (P x), !forall x, Decision (Q x)} (l : list A) :
  (forall x, x ∈ l -> P x <-> Q x) -> filter P l = filter Q l.
Proof.
  induction l as [|x l IH]; intros HPQ; [done|].
  assert (filter P l = filter Q l) as E by (apply IH; intros y Hy; apply HPQ; by right).
  destruct (decide (P x)) as [Hx|Hx].
  - rewrite !filter_cons_True; [by rewrite E | apply HPQ; [left|done] | done].
  - rewrite !filter_cons_False; [done | | done]. rewrite <- HPQ; [done|left].
Qed.

(** The domain of a map with the same value everywhere. *)
Lemma lookup_list_to_map_is_Some {A} (a : A) (l : list Z) p :
  is_Some ((list_to_map (map (fun x => (x, a)) l) : gmap Z A) !! p) <-> p ∈ l.
Proof.
  induction l as [|x l IH]; simpl.
  - rewrite lookup_empty. split; [by intros [? ?] | by intros ?%elem_of_nil].
  - rewrite elem_of_cons. destruct (decide (x = p)) as [->|Hne].
    + rewrite lookup_insert_eq. split; [by left | by eexists].
    + rewrite lookup_insert_ne, IH by done. split; [by right|]. intros [->|?]; done.
Qed.

(** ** Flag algebra: reduce to [Z.testbit] *)

Create HintDb bits.
#[export] Hint Rewrite Z.land_spec Z.lor_spec Z.ldiff_spec Z.bits_0 Z.lxor_spec : bits.

Lemma setf_0_l f : setf 0 f = f.
Proof. apply Z.lor_0_l. Qed.

Lemma isset_setf w f : isset (setf w f) f = true.
Proof.
  unfold isset, setf. apply Z.eqb_eq. apply Z.bits_inj'. intros n _.
  autorewrite with bits. by destruct (Z.testbit w n), (Z.testbit f n).
Qed.

Lemma clearf_setf w f : clearf (setf w f) f = clearf w f.
Proof.
  unfold clearf, setf. apply Z.bits_inj'. intros n _.
  autorewrite with bits. by destruct (Z.testbit w n), (Z.testbit f n).
Qed.

Lemma isset_clearf w f : f <> 0 -> isset (clearf w f) f = false.
Proof.
  intros Hf. unfold isset, clearf. apply Z.eqb_neq. intros E. apply Hf.
  apply Z.bits_inj'. intros n _.
  apply (f_equal (fun z => Z.testbit z n)) in E. revert E.
  autorewrite with bits. by destruct (Z.testbit w n), (Z.testbit f n).
Qed.

Lemma clearf_setf_0 w f g : clearf (setf w f) g = 0 -> clearf w g = 0.
Proof.
  unfold clearf, setf. intros E. apply Z.bits_inj'. intros n _.
  apply (f_equal (fun z => Z.testbit z n)) in E. revert E.
  autorewrite with bits. by destruct (Z.testbit w n), (Z.testbit f n), (Z.testbit g n).
Qed.

Lemma isset_clearf_disjoint w f g : Z.land f g = 0 -> isset (clearf w g) f = isset w f.
Proof.
  intros Hfg. unfold isset, clearf. f_equal. apply Z.bits_inj'. intros n _.
  apply (f_equal (fun z => Z.testbit z n)) in Hfg. revert Hfg.
  autorewrite with bits. by destruct (Z.testbit w n), (Z.testbit f n), (Z.testbit g n).
Qed.

Lemma isset_setf_disjoint w f g : Z.land f g = 0 -> isset (setf w g) f = isset w f.
Proof.
  intros Hfg. unfold isset, setf. f_equal. apply Z.bits_inj'. intros n _.
  apply (f_equal (fun z => Z.testbit z n)) in Hfg. revert Hfg.
  autorewrite with bits. by destruct (Z.testbit w n), (Z.testbit f n), (Z.testbit g n).
Qed.

(** The mask of one bit. *)
Lemma land_bit w f n : 0 <= n -> f = Z.shiftl 1 n -> Z.land w f = if Z.testbit w n then f else 0.
Proof.
  intros Hn ->. rewrite Z.shiftl_1_l. apply Z.bits_inj'. intros k Hk.
  rewrite Z.land_spec, Z.pow2_bits_eqb by done. destruct (Z.eqb_spec n k) as [->|Hne].
  - destruct (Z.testbit w k) eqn:E; rewrite ?Z.pow2_bits_true, ?Z.bits_0 by done; done.
  - rewrite andb_false_r. destruct (Z.testbit w n); [by rewrite Z.pow2_bits_false|by rewrite Z.bits_0].
Qed.

(** For a mask of one bit the two tests agree. *)
Lemma anyset_isset (w f n : Z) : 0 <= n -> f = Z.shiftl 1 n -> anyset w f = isset w f.
Proof.
  intros Hn E. unfold anyset, isset. rewrite !(land_bit w f n) by done. subst f.
  rewrite Z.shiftl_1_l. pose proof (Z.pow_pos_nonneg 2 n ltac:(lia) Hn).
  destruct (Z.testbit w n).
  - rewrite Z.eqb_refl. rewrite (proj2 (Z.eqb_neq _ _)) by lia. done.
  - rewrite (proj2 (Z.eqb_neq 0 (2 ^ n))) by lia. done.
Qed.

Lemma isset_setf_mono w f g : isset w g = true -> isset (setf w f) g = true.
Proof.
  unfold isset, setf. rewrite !Z.eqb_eq. intros E. apply Z.bits_inj'. intros n _.
  apply (f_equal (fun z => Z.testbit z n)) in E. revert E.
  autorewrite with bits. by destruct (Z.testbit w n), (Z.testbit f n), (Z.testbit g n).
Qed.

Lemma isset_setf_false w f g : isset (setf w f) g = false -> isset w g = false.
Proof. intros E. destruct (isset w g) eqn:E'; [|done]. by rewrite isset_setf_mono in E. Qed.

Lemma setf_nonzero_l w f : w <> 0 -> setf w f <> 0.
Proof. unfold setf. intros Hw E. by apply Z.lor_eq_0_iff in E as [? _]. Qed.

Lemma setf_nonzero w f : f <> 0 -> setf w f <> 0.
Proof. unfold setf. intros Hf E. by apply Z.lor_eq_0_iff in E as [_ ?]. Qed.

(** Setting a flag disjoint from [g] survives clearing [g]. *)
Lemma clearf_setf_other w f g : f <> 0 -> Z.land f g = 0 -> clearf (setf w f) g <> 0.
Proof.
  unfold clearf, setf. intros Hf Hfg E. apply Hf. apply Z.bits_inj'. intros n _.
  apply (f_equal (fun z => Z.testbit z n)) in E, Hfg. revert E Hfg.
  autorewrite with bits. by destruct (Z.testbit w n), (Z.testbit f n), (Z.testbit g n).
Qed.

Lemma clearf_0 f : clearf 0 f = 0.
Proof. apply Z.ldiff_0_l. Qed.

(** ** Tactics *)

(** Expose the C sequencing in a goal about a [result]. *)
Ltac rsimpl := cbn [mbind mret result_bind result_ret].
Tactic Notation "rsimpl" "in" hyp(H) := cbn [mbind mret result_bind result_ret] in H.

(** One step of symbolic execution of a goal [wp m Q s]. *)
Ltac wp_step :=
  lazymatch goal with
  | |- wp (_ ≫= _) _ _ => apply wp_bind
  | |- wp (mret _) _ _ => apply wp_ret
  | |- wp skip _ _ => apply wp_ret
  | |- wp (gets _) _ _ => apply wp_gets
  | |- wp (modify _) _ _ => apply wp_modify
  | |- wp (c_assert _) _ _ => apply wp_assert
  | |- wp (deref _) _ _ => eapply wp_deref
  | |- wp (lift _) _ _ => eapply wp_lift
  end; cbv beta.
Ltac wp_steps := repeat wp_step.
