(* ===== verification/Links.v ===== *)
(** * Singly linked lists

    Lists whose next pointers are given by a partial function on the nodes: the
    queues of the three-level lock and of the timer library, the chains of the buffer cache. *)

From S2P Require Import Prelude.
#[local] Open Scope Z_scope.

(** From the pointer [h], the nodes of [l] follow, each allocated. *)
Fixpoint chain {A} (nx : A -> option (option A)) (h : option A) (l : list A) : Prop :=
  match l with
  | [] => h = None
  | x :: l' => h = Some x /\ exists n, nx x = Some n /\ chain nx n l'
  end.

Section chain.
Context {A : Type} `{EqDecision A}.
Implicit Types nx : A -> option (option A).

Lemma chain_head nx h l : chain nx h l -> h = head l.
Proof. destruct l; [done|]. by intros [-> _]. Qed.

Lemma chain_cons nx h x l : chain nx h (x :: l) -> exists n, nx x = Some n /\ chain nx n l.
Proof. by intros [_ ?]. Qed.

Lemma chain_ext nx nx' h l : (forall x, x ∈ l -> nx' x = nx x) -> chain nx h l -> chain nx' h l.
Proof.
  revert h. induction l as [|x l IH]; intros h He; [done|]. intros (-> & n & Hx & Hl).
  split; [done|]. exists n. split; [by rewrite He by left|]. apply IH; [|done].
  intros y Hy. apply He. by right.
Qed.

Lemma chain_lookup nx h l x : chain nx h l -> x ∈ l -> is_Some (nx x).
Proof.
  revert h. induction l as [|y l IH]; intros h; [by intros _ ?%elem_of_nil|].
  intros (_ & n & Hy & Hl) [->|Hx]%elem_of_cons; [by eexists|by eapply IH].
Qed.

Lemma chain_suffix nx h l1 l2 : chain nx h (l1 ++ l2) -> chain nx (head l2) l2.
Proof.
  revert h. induction l1 as [|x l1 IH]; intros h; simpl.
  - intros Hc. by rewrite <- (chain_head _ _ _ Hc).
  - intros (_ & n & _ & Hc). by eapply IH.
Qed.

(** The node before a suffix points to its head. *)
Lemma chain_app nx h l1 x l2 : chain nx h (l1 ++ x :: l2) -> nx x = Some (head l2).
Proof.
  revert h. induction l1 as [|y l1 IH]; intros h.
  - intros (_ & n & Hx & Hl). by rewrite Hx, <- (chain_head _ _ _ Hl).
  - intros (_ & n & _ & Hl). by eapply IH.
Qed.

(** The pointer after [l1] is redirected, from the head or from its last node. *)
Lemma chain_splice nx nx' h l1 l2 m :
  chain nx h (l1 ++ l2) -> NoDup l1 ->
  (forall x, x ∈ l1 -> nx' x = if bool_decide (last l1 = Some x) then Some (head m) else nx x) ->
  chain nx' (head m) m ->
  chain nx' (if bool_decide (l1 = []) then head m else h) (l1 ++ m).
Proof.
  revert h. induction l1 as [|x l1 IH]; intros h Hc Hnd Hx Hm; [done|].
  apply NoDup_cons in Hnd as [Hni Hnd]. destruct Hc as (-> & n & Hn & Hc).
  rewrite bool_decide_eq_false_2 by done. split; [done|].
  specialize (Hx x ltac:(left)) as Hx1. destruct l1 as [|y l1].
  - rewrite bool_decide_eq_true_2 in Hx1 by done. by exists (head m).
  - rewrite bool_decide_eq_false_2 in Hx1.
    2:{ intros E. apply Hni. rewrite last_cons_cons in E. by apply last_Some_elem_of. }
    exists n. split; [congruence|]. specialize (IH n Hc Hnd).
    rewrite bool_decide_eq_false_2 in IH by done. apply IH; [|done].
    intros z Hz. rewrite Hx by by right. by rewrite last_cons_cons.
Qed.

(** A node joins the end. *)
Lemma chain_snoc nx nx' h l y x :
  chain nx h l -> NoDup l -> last l = Some y ->
  nx' y = Some (Some x) -> nx' x = Some None -> (forall z, z ∈ l -> z <> y -> nx' z = nx z) ->
  chain nx' h (l ++ [x]).
Proof.
  intros Hc Hnd Hy Hy' Hx' Hz.
  replace h with (if bool_decide (l = []) then head [x] else h)
    by (by rewrite bool_decide_eq_false_2 by by intros ->).
  apply (chain_splice nx nx' h l []); [by rewrite app_nil_r|done| |].
  - intros z Hin. rewrite Hy. case_bool_decide as E; [by injection E as <-|]. apply Hz; [done|]. by intros ->.
  - split; [done|]. by exists None.
Qed.
End chain.
