(* ===== verification/DiskSched.v ===== *)
(** * Disk-scheduling algorithms (program_assignment_4/disk_scheduling.c)

    One definition per function of the file. Arrays are lists accessed through
    [aget]/[aset], so an index outside the array object is a fault; [int]
    arithmetic goes through [isub]/[iabs]/[iadd], so an overflow is a fault.
    [rand()] is an argument. Each algorithm is related to [path_len], the
    length of the head's path over the order in which it serves requests. *)

From S2P Require Import Prelude.
From stdpp Require Import sorting.
#[local] Open Scope Z_scope.

Definition CYLINDERS : Z := 5000.
Definition REQUESTS : nat := 1000.
Arguments REQUESTS : simpl never.

(** ** The program *)

(** [requests[i] = rand() % CYLINDERS]; [rand i] is the i-th result of rand(). *)
Definition generate_requests (rand : Z -> Z) (requests : list Z) : result (list Z) :=
  for_up REQUESTS 0 (fun i reqs => aset reqs i (Z.rem (rand i) CYLINDERS)) requests.

Definition cmp (a b : Z) : Z := i32 (a - b).

(** qsort() with [cmp] over the first [nmemb] elements of [base]. *)
Fixpoint qsort_insert (x : Z) (l : list Z) : list Z :=
  match l with
  | [] => [x]
  | y :: l' => if cmp x y <=? 0 then x :: y :: l' else y :: qsort_insert x l'
  end.
Definition qsort_all (l : list Z) : list Z := foldr qsort_insert [] l.
Definition qsort (base : list Z) (nmemb : nat) : result (list Z) :=
  if decide (nmemb <= length base)%nat
  then Ok (qsort_all (take nmemb base) ++ drop nmemb base)
  else Err OutOfBounds.

(** [total_movement += abs(a - b); current_position = target] *)
Definition head_move (total a b target : Z) : result (Z * Z) :=
  d ← isub a b; m ← iabs d; t ← iadd total m; mret (t, target).

Definition fcfs (requests : list Z) (initial_position : Z) : result Z :=
  st ← for_up REQUESTS 0
         (fun i '(total, cur) => r ← aget requests i; head_move total r cur r)
         (0, initial_position);
  mret (fst st).

(** The body of the inner loop of [sstf] at index [j]. *)
Definition sstf_consider (requests served : list Z) (cur j : Z) (c : Z * Z)
  : result (Z * Z) :=
  let '(closest_index, closest_distance) := c in
  sv ← aget served j;
  if negb (sv =? 1) then
    r ← aget requests j;
    d ← isub r cur;
    distance ← iabs d;
    if distance <? closest_distance then mret (j, distance)
    else mret (closest_index, closest_distance)
  else mret (closest_index, closest_distance).

(** The inner loop: the closest request not served yet. *)
Definition sstf_closest (requests served : list Z) (cur : Z) : result (Z * Z) :=
  for_up REQUESTS 0 (sstf_consider requests served cur) (-1, CYLINDERS + 1).

Definition sstf_step (requests : list Z) (_ : Z) (st : Z * Z * list Z)
  : result (Z * Z * list Z) :=
  let '(total, cur, served) := st in
  c ← sstf_closest requests served cur;
  let '(closest_index, closest_distance) := c in
  if negb (closest_index =? -1) then
    total' ← iadd total closest_distance;
    cur' ← aget requests closest_index;
    served' ← aset served closest_index 1;
    mret (total', cur', served')
  else mret (total, cur, served).

Definition sstf (requests : list Z) (initial_position : Z) : result Z :=
  st ← for_up REQUESTS 0 (sstf_step requests)
         (0, initial_position, replicate REQUESTS 0);
  mret (fst (fst st)).

(** [while (current > sorted[start] && start != REQUESTS - 1) start++] *)
Definition find_start_capped (sorted : list Z) (cur : Z) : result Z :=
  loop (S REQUESTS)
    (fun start =>
       x ← aget sorted start;
       if (x <? cur) && negb (start =? Z.of_nat REQUESTS - 1)
       then mret (inl (start + 1)) else mret (inr start))
    0.

(** [while (start < n && sorted[start] < current) start++] *)
Definition find_start (n : nat) (sorted : list Z) (cur : Z) : result Z :=
  loop (S n)
    (fun start =>
       if start <? Z.of_nat n then
         x ← aget sorted start;
         if x <? cur then mret (inl (start + 1)) else mret (inr start)
       else mret (inr start))
    0.

(** [for (i = start; i < n && served[i] != 1; i++)] of [scan] and [look] *)
Definition sweep_right (n : nat) (sorted : list Z) (start : Z)
    (st : Z * Z * list Z) : result (Z * Z * list Z) :=
  loop (S n)
    (fun '(i, (total, cur, served)) =>
       if i <? Z.of_nat n then
         sv ← aget served i;
         if negb (sv =? 1) then
           x ← aget sorted i;
           tc ← head_move total cur x x;
           served' ← aset served i 1;
           mret (inl (i + 1, (fst tc, snd tc, served')))
         else mret (inr (total, cur, served))
       else mret (inr (total, cur, served)))
    (start, st).

(** [for (i = start - 1; i >= 0 && served[i] != 1; i--)] *)
Definition sweep_left (n : nat) (sorted : list Z) (start : Z)
    (st : Z * Z * list Z) : result (Z * Z * list Z) :=
  loop (S n)
    (fun '(i, (total, cur, served)) =>
       if 0 <=? i then
         sv ← aget served i;
         if negb (sv =? 1) then
           x ← aget sorted i;
           tc ← head_move total cur x x;
           served' ← aset served i 1;
           mret (inl (i - 1, (fst tc, snd tc, served')))
         else mret (inr (total, cur, served))
       else mret (inr (total, cur, served)))
    (start - 1, st).

Definition scan (requests : list Z) (initial_position : Z) : result Z :=
  let sorted_requests := take REQUESTS requests ++ [CYLINDERS - 1] in
  sorted ← qsort sorted_requests (REQUESTS + 1)%nat;
  start ← find_start_capped sorted initial_position;
  st ← sweep_right (REQUESTS + 1)%nat sorted start
         (0, initial_position, replicate (REQUESTS + 1)%nat 0);
  st' ← sweep_left (REQUESTS + 1)%nat sorted start st;
  mret (fst (fst st')).

(** The [for (i = lo; i < hi; i++)] loops of [cscan], [clook] and [optimal]. *)
Definition serve_range (sorted : list Z) (lo : Z) (n : nat) (st : Z * Z) : result (Z * Z) :=
  for_up n lo (fun i '(total, cur) => x ← aget sorted i; head_move total x cur x) st.

Definition cscan (requests : list Z) (initial_position : Z) : result Z :=
  let sorted_requests := take REQUESTS requests ++ [CYLINDERS - 1; 0] in
  sorted ← qsort sorted_requests (REQUESTS + 2)%nat;
  start ← find_start (REQUESTS + 2)%nat sorted initial_position;
  st ← serve_range sorted start (REQUESTS + 2 - Z.to_nat start)%nat (0, initial_position);
  if 0 <? start then
    total ← iadd (fst st) (CYLINDERS - 1);
    st' ← serve_range sorted 0 (Z.to_nat start) (total, 0);
    mret (fst st')
  else mret (fst st).

(** [look] sorts [REQUESTS + 1] elements of an array of [REQUESTS]. *)
Definition look (requests : list Z) (initial_position : Z) : result Z :=
  let sorted_requests := take REQUESTS requests in
  sorted ← qsort sorted_requests (REQUESTS + 1)%nat;
  start ← find_start_capped sorted initial_position;
  st ← sweep_right REQUESTS sorted start
         (0, initial_position, replicate (REQUESTS + 1)%nat 0);
  st' ← sweep_left REQUESTS sorted start st;
  mret (fst (fst st')).

Definition clook (requests : list Z) (initial_position : Z) : result Z :=
  sorted ← qsort (take REQUESTS requests) REQUESTS;
  start ← find_start REQUESTS sorted initial_position;
  st ← serve_range sorted start (REQUESTS - Z.to_nat start)%nat (0, initial_position);
  st' ← serve_range sorted 0 (Z.to_nat start) st;
  mret (fst st').

Definition optimal (requests : list Z) (initial_position : Z) : result Z :=
  request_list ← qsort (take REQUESTS requests) REQUESTS;
  st ← serve_range request_list 0 REQUESTS (0, initial_position);
  mret (fst st).

(** ** Specification vocabulary *)

Definition cyl (x : Z) : Prop := 0 <= x < CYLINDERS.

(** Distance travelled by the head over a service order. *)
Fixpoint path_len (cur : Z) (l : list Z) : Z :=
  match l with [] => 0 | x :: l' => Z.abs (x - cur) + path_len x l' end.

(** [greedy cur pending order]: each request served is a closest pending one. *)
Inductive greedy : Z -> list Z -> list Z -> Prop :=
| greedy_nil cur : greedy cur [] []
| greedy_cons cur pending r pending' order :
    pending ≡ₚ r :: pending' ->
    Forall (fun x => Z.abs (r - cur) <= Z.abs (x - cur)) pending ->
    greedy r pending' order ->
    greedy cur pending (r :: order).

Definition is_min (lo : Z) (l : list Z) : Prop := lo ∈ l /\ Forall (fun x => lo <= x) l.
Definition is_max (hi : Z) (l : list Z) : Prop := hi ∈ l /\ Forall (fun x => x <= hi) l.

(** The requests not marked in [served]. *)
Fixpoint pending (served requests : list Z) : list Z :=
  match served, requests with
  | sv :: s', r :: r' => if negb (sv =? 1) then r :: pending s' r' else pending s' r'
  | _, _ => []
  end.

(** A state of [main]: the array holds [REQUESTS] cylinders. *)
Definition valid_requests (requests : list Z) : Prop :=
  length requests = REQUESTS /\ Forall cyl requests.

(** ** Paths *)

Fixpoint last_pos (cur : Z) (l : list Z) : Z :=
  match l with [] => cur | x :: l' => last_pos x l' end.

Lemma path_len_nonneg cur l : 0 <= path_len cur l.
Proof. revert cur. induction l as [|x l IH]; intros cur; simpl; [lia|]. pose proof (IH x). lia. Qed.

Lemma path_len_app cur l1 l2 :
  path_len cur (l1 ++ l2) = path_len cur l1 + path_len (last_pos cur l1) l2.
Proof. revert cur. induction l1 as [|x l1 IH]; intros cur; simpl; [lia|]. rewrite IH. lia. Qed.

Lemma last_pos_app cur l1 l2 : last_pos cur (l1 ++ l2) = last_pos (last_pos cur l1) l2.
Proof. revert cur. induction l1 as [|x l1 IH]; intros cur; simpl; auto. Qed.

Lemma last_pos_cyl cur l : cyl cur -> Forall cyl l -> cyl (last_pos cur l).
Proof. revert cur. induction l; intros cur ? Hl; [done|]. inversion Hl; subst. simpl; auto. Qed.

Lemma path_len_bound cur l :
  cyl cur -> Forall cyl l -> path_len cur l <= CYLINDERS * Z.of_nat (length l).
Proof.
  revert cur. induction l as [|x l IH]; intros cur Hc Hl; simpl; [lia|].
  inversion Hl as [|? ? Hx Hl']; subst. pose proof (IH x Hx Hl').
  unfold cyl in *. unfold CYLINDERS in *. lia.
Qed.

(** Sweeping upwards costs the difference of the end points. *)
Lemma path_len_up cur l :
  StronglySorted Z.le l -> Forall (fun x => cur <= x) l ->
  path_len cur l = last_pos cur l - cur.
Proof.
  revert cur. induction l as [|x l IH]; intros cur Hs Hc; simpl; [lia|].
  inversion Hs as [|? ? Hs' Hx]; inversion Hc; subst. rewrite IH by done. lia.
Qed.

(** Sweeping a sorted block downwards ends at its least element. *)
Lemma path_len_down cur l :
  StronglySorted Z.le l -> Forall (fun x => x <= cur) l ->
  path_len cur (rev l) = cur - last_pos cur (rev l) /\
  (forall lo, is_min lo l -> last_pos cur (rev l) = lo).
Proof.
  intros Hs Hc. revert cur Hc. induction l as [|x l IH]; intros cur Hc; simpl.
  { split; [lia|]. intros lo [Hlo _]. by apply elem_of_nil in Hlo. }
  inversion Hs as [|? ? Hs' Hx]; inversion Hc as [|? ? Hxc Hc']; subst.
  destruct (IH Hs' cur Hc') as [IH1 IH2].
  rewrite path_len_app, last_pos_app. simpl.
  assert (x <= last_pos cur (rev l)) as Hle.
  { destruct l as [|y l']; [simpl; lia|].
    rewrite (IH2 y).
    - inversion Hx; subst; lia.
    - split; [left|]. inversion Hs' as [|? ? ? Hy]; subst. by constructor. }
  split; [rewrite IH1; lia|].
  intros lo [Hlo Hall]. inversion Hall; subst.
  apply elem_of_cons in Hlo as [->|Hlo]; [done|].
  rewrite Forall_forall in Hx. pose proof (Hx lo Hlo). lia.
Qed.

Lemma last_pos_max cur l hi :
  StronglySorted Z.le l -> is_max hi l -> last_pos cur l = hi.
Proof.
  revert cur. induction l as [|x l IH]; intros cur Hs [Hin Hall].
  { by apply elem_of_nil in Hin. }
  inversion Hs as [|? ? Hs' Hx]; inversion Hall as [|? ? Hxh Hall']; subst. simpl.
  destruct l as [|y l'].
  { apply elem_of_cons in Hin as [->|Hin]; [done | by apply elem_of_nil in Hin]. }
  apply IH; [done|]. split; [|done].
  apply elem_of_cons in Hin as [->|Hin]; [|done].
  inversion Hx; inversion Hall'; subst. assert (y = x) as -> by lia. left.
Qed.

(** ** The sort *)

Lemma cmp_le x y : cyl x -> cyl y -> (cmp x y <=? 0) = true <-> x <= y.
Proof.
  unfold cyl, CYLINDERS, cmp. intros Hx Hy. rewrite i32_small by (unfold INT_MIN, INT_MAX; lia).
  rewrite Z.leb_le. lia.
Qed.

Lemma qsort_insert_perm x l : qsort_insert x l ≡ₚ x :: l.
Proof.
  induction l as [|y l IH]; simpl; [done|]. destruct (cmp x y <=? 0); [done|].
  rewrite IH. constructor.
Qed.

Lemma qsort_all_perm l : qsort_all l ≡ₚ l.
Proof. induction l as [|x l IH]; simpl; [done|]. by rewrite qsort_insert_perm, IH. Qed.

Lemma qsort_insert_sorted x l :
  cyl x -> Forall cyl l -> StronglySorted Z.le l -> StronglySorted Z.le (qsort_insert x l).
Proof.
  intros Hx. induction l as [|y l IH]; intros Hl Hs; simpl.
  { repeat constructor. }
  inversion Hl as [|? ? Hy Hl']; inversion Hs as [|? ? Hs' Hyl]; subst.
  destruct (cmp x y <=? 0) eqn:E.
  - apply cmp_le in E; [|done..]. constructor; [done|]. constructor; [done|].
    eapply Forall_impl; [exact Hyl|]. simpl. intros; lia.
  - assert (y <= x) as Hyx.
    { assert (~ x <= y) as H; [|lia]. rewrite <- cmp_le by done. by rewrite E. }
    constructor; [auto|]. rewrite qsort_insert_perm. by constructor.
Qed.

Lemma qsort_all_sorted l : Forall cyl l -> StronglySorted Z.le (qsort_all l).
Proof.
  induction l as [|x l IH]; intros Hl; simpl; [constructor|]. inversion Hl; subst.
  apply qsort_insert_sorted; auto. by rewrite qsort_all_perm.
Qed.

Lemma qsort_full l : qsort l (length l) = Ok (qsort_all l).
Proof. unfold qsort. rewrite decide_True by lia. by rewrite firstn_all, drop_all, app_nil_r. Qed.

Lemma sorted_split c l :
  StronglySorted Z.le l ->
  exists lows highs, l = lows ++ highs /\ Forall (fun x => x < c) lows /\
    Forall (fun x => c <= x) highs.
Proof.
  induction l as [|x l IH]; intros Hs; [exists [], []; auto|].
  inversion Hs as [|? ? Hs' Hx]; subst. destruct (decide (x < c)) as [Hlt|Hge].
  - destruct (IH Hs') as (lo & hi & -> & ? & ?). exists (x :: lo), hi. split; [done|]. auto.
  - exists [], (x :: l). split; [done|]. split; [done|]. constructor; [lia|].
    eapply Forall_impl; [exact Hx|]. simpl. intros; lia.
Qed.

(** ** The loops *)

Lemma head_move_ok total a b target :
  cyl a -> cyl b -> 0 <= total -> total + Z.abs (a - b) <= INT_MAX ->
  head_move total a b target = Ok (total + Z.abs (a - b), target).
Proof.
  unfold cyl, CYLINDERS, head_move, isub, iabs, iadd. intros Ha Hb Ht Hm.
  rewrite int_ok_in by (unfold INT_MIN, INT_MAX in *; lia). rsimpl.
  rewrite int_ok_in by (unfold INT_MIN, INT_MAX in *; lia). rsimpl.
  by rewrite int_ok_in by (unfold INT_MIN, INT_MAX in *; lia).
Qed.

Lemma aget_mid {A} (pre : list A) x post :
  aget (pre ++ x :: post) (Z.of_nat (length pre)) = Ok x.
Proof. apply aget_nat. by rewrite list_lookup_middle. Qed.

Lemma serve_range_path pre mid post total cur :
  cyl cur -> Forall cyl mid -> 0 <= total -> total + path_len cur mid <= INT_MAX ->
  serve_range (pre ++ mid ++ post) (Z.of_nat (length pre)) (length mid) (total, cur)
  = Ok (total + path_len cur mid, last_pos cur mid).
Proof.
  unfold serve_range. revert pre total cur.
  induction mid as [|x mid IH]; intros pre total cur Hc Hm Ht Hb; simpl.
  { by rewrite Z.add_0_r. }
  inversion Hm as [|? ? Hx Hm']; subst. simpl in Hb. pose proof (path_len_nonneg x mid).
  rewrite aget_mid. rsimpl. rewrite head_move_ok by (done || lia). rsimpl.
  replace (pre ++ x :: mid ++ post) with ((pre ++ [x]) ++ mid ++ post) by by rewrite <- app_assoc.
  replace (Z.of_nat (length pre) + 1) with (Z.of_nat (length (pre ++ [x])))
    by (rewrite length_app; simpl; lia).
  rewrite IH by (done || lia). f_equal. f_equal. lia.
Qed.

Lemma serve_range_end pre mid total cur :
  cyl cur -> Forall cyl mid -> 0 <= total -> total + path_len cur mid <= INT_MAX ->
  serve_range (pre ++ mid) (Z.of_nat (length pre)) (length mid) (total, cur)
  = Ok (total + path_len cur mid, last_pos cur mid).
Proof. intros. rewrite <- (app_nil_r mid) at 1. by apply serve_range_path. Qed.

Lemma serve_range_begin mid post total cur :
  cyl cur -> Forall cyl mid -> 0 <= total -> total + path_len cur mid <= INT_MAX ->
  serve_range (mid ++ post) 0 (length mid) (total, cur)
  = Ok (total + path_len cur mid, last_pos cur mid).
Proof. intros. by apply (serve_range_path []). Qed.

Lemma find_start_split n lows highs cur :
  Forall (fun x => x < cur) lows -> Forall (fun x => cur <= x) highs ->
  n = (length lows + length highs)%nat ->
  find_start n (lows ++ highs) cur = Ok (Z.of_nat (length lows)).
Proof.
  intros Hl Hh Hn. unfold find_start.
  cut (forall lows' fuel, (exists done_, lows = done_ ++ lows' /\ (length lows' < fuel)%nat) ->
    loop fuel (fun start =>
       if start <? Z.of_nat n then
         x ← aget (lows ++ highs) start;
         if x <? cur then mret (inl (start + 1)) else mret (inr start)
       else mret (inr start)) (Z.of_nat (length lows - length lows'))
    = Ok (Z.of_nat (length lows))).
  { intros H. specialize (H lows (S n)). rewrite Nat.sub_diag in H. apply H.
    exists []. split; [done|]. lia. }
  intros lows'. induction lows' as [|x l' IH]; intros fuel (d & Hd & Hf).
  - destruct fuel as [|fuel]; [simpl in Hf; lia|]. simpl. rewrite Nat.sub_0_r.
    destruct highs as [|y highs].
    { rewrite (proj2 (Z.ltb_ge _ _)) by (simpl in *; lia). done. }
    rewrite (proj2 (Z.ltb_lt _ _)) by (simpl in *; lia). rewrite aget_mid. rsimpl.
    inversion Hh; subst. by rewrite (proj2 (Z.ltb_ge _ _)) by lia.
  - destruct fuel as [|fuel]; [simpl in Hf; lia|]. subst lows. simpl in *.
    rewrite length_app in *. simpl in *.
    replace (length d + S (length l') - S (length l'))%nat with (length d) by lia.
    rewrite (proj2 (Z.ltb_lt _ _)) by lia. rewrite <- app_assoc. simpl. rewrite aget_mid. rsimpl.
    apply Forall_app in Hl as [_ Hl]. inversion Hl; subst.
    rewrite (proj2 (Z.ltb_lt _ _)) by lia. rsimpl.
    specialize (IH fuel). rewrite <- app_assoc in IH. simpl in IH.
    replace (Z.of_nat (length d) + 1)
      with (Z.of_nat (length d + S (length l') - length l')) by lia.
    apply IH. exists (d ++ [x]). rewrite <- app_assoc. split; [done | lia].
Qed.

(** [find_start_capped] stops at the first element not below [cur] ... *)
Lemma find_start_capped_split lows highs cur :
  Forall (fun x => x < cur) lows -> Forall (fun x => cur <= x) highs ->
  highs <> [] -> (length lows < REQUESTS)%nat ->
  find_start_capped (lows ++ highs) cur = Ok (Z.of_nat (length lows)).
Proof.
  intros Hl Hh Hne Hn. unfold find_start_capped.
  cut (forall lows' fuel, (exists d, lows = d ++ lows' /\ (length lows' < fuel)%nat) ->
    loop fuel (fun start =>
       x ← aget (lows ++ highs) start;
       if (x <? cur) && negb (start =? Z.of_nat REQUESTS - 1)
       then mret (inl (start + 1)) else mret (inr start))
      (Z.of_nat (length lows - length lows')) = Ok (Z.of_nat (length lows))).
  { intros H. specialize (H lows (S REQUESTS)). rewrite Nat.sub_diag in H. apply H.
    exists []. split; [done|]. lia. }
  intros lows'. induction lows' as [|x l' IH]; intros fuel (d & Hd & Hf);
    (destruct fuel as [|fuel]; [simpl in Hf; lia|]).
  - simpl. rewrite Nat.sub_0_r. destruct highs as [|y highs]; [done|].
    rewrite aget_mid. rsimpl. inversion Hh; subst.
    by rewrite (proj2 (Z.ltb_ge _ _)) by lia.
  - subst lows. simpl in *. rewrite length_app in *. simpl in *.
    replace (length d + S (length l') - S (length l'))%nat with (length d) by lia.
    rewrite <- app_assoc. simpl. rewrite aget_mid. rsimpl.
    apply Forall_app in Hl as [_ Hl]. inversion Hl; subst.
    rewrite (proj2 (Z.ltb_lt _ _)) by lia.
    rewrite (proj2 (Z.eqb_neq _ _)) by lia. rsimpl.
    specialize (IH fuel). rewrite <- app_assoc in IH. simpl in IH.
    replace (Z.of_nat (length d) + 1)
      with (Z.of_nat (length d + S (length l') - length l')) by lia.
    apply IH. exists (d ++ [x]). rewrite <- app_assoc. split; [done | lia].
Qed.

(** ... but never goes past index [REQUESTS - 1]. *)
Lemma find_start_capped_full lows x post cur :
  Forall (fun x => x < cur) lows -> (length lows + 1 = REQUESTS)%nat ->
  find_start_capped (lows ++ x :: post) cur = Ok (Z.of_nat REQUESTS - 1).
Proof.
  intros Hl Hn. unfold find_start_capped.
  cut (forall lows' fuel, (exists d, lows = d ++ lows' /\ (length lows' < fuel)%nat) ->
    loop fuel (fun start =>
       y ← aget (lows ++ x :: post) start;
       if (y <? cur) && negb (start =? Z.of_nat REQUESTS - 1)
       then mret (inl (start + 1)) else mret (inr start))
      (Z.of_nat (length lows - length lows')) = Ok (Z.of_nat REQUESTS - 1)).
  { intros H. specialize (H lows (S REQUESTS)). rewrite Nat.sub_diag in H. apply H.
    exists []. split; [done|]. lia. }
  intros lows'. induction lows' as [|y l' IH]; intros fuel (d & Hd & Hf);
    (destruct fuel as [|fuel]; [simpl in Hf; lia|]).
  - simpl. rewrite Nat.sub_0_r, aget_mid. rsimpl.
    replace (Z.of_nat (length lows)) with (Z.of_nat REQUESTS - 1) by lia.
    by rewrite Z.eqb_refl, andb_false_r.
  - subst lows. simpl in *. rewrite length_app in *. simpl in *.
    replace (length d + S (length l') - S (length l'))%nat with (length d) by lia.
    rewrite <- app_assoc. simpl. rewrite aget_mid. rsimpl.
    apply Forall_app in Hl as [_ Hl]. inversion Hl; subst.
    rewrite (proj2 (Z.ltb_lt _ _)) by lia.
    rewrite (proj2 (Z.eqb_neq _ _)) by lia. rsimpl.
    specialize (IH fuel). rewrite <- app_assoc in IH. simpl in IH.
    replace (Z.of_nat (length d) + 1)
      with (Z.of_nat (length d + S (length l') - length l')) by lia.
    apply IH. exists (d ++ [y]). rewrite <- app_assoc. split; [done | lia].
Qed.

Lemma sweep_right_path n pre mid total cur served :
  n = (length pre + length mid)%nat ->
  cyl cur -> Forall cyl mid -> 0 <= total -> total + path_len cur mid <= INT_MAX ->
  (n <= length served)%nat ->
  (forall k, (length pre <= k < n)%nat -> served !! k = Some 0) ->
  exists served',
    sweep_right n (pre ++ mid) (Z.of_nat (length pre)) (total, cur, served)
    = Ok (total + path_len cur mid, last_pos cur mid, served') /\
    length served' = length served /\
    (forall k, (k < length pre)%nat -> served' !! k = served !! k).
Proof.
  unfold sweep_right. intros Hn. assert (length mid < S n)%nat as Hf by lia.
  revert Hf. generalize (S n). intros fuel. revert fuel pre total cur served Hn.
  induction mid as [|x mid IH]; intros fuel pre total cur served Hn Hf Hc Hm Ht Hb Hlen Hz;
    (destruct fuel as [|fuel]; [simpl in Hf; lia|]); simpl in *.
  - exists served. rewrite (proj2 (Z.ltb_ge _ _)) by lia. rewrite Z.add_0_r. by split_and!.
  - inversion Hm as [|? ? Hx Hm']; subst. pose proof (path_len_nonneg x mid).
    rewrite (proj2 (Z.ltb_lt _ _)) by lia.
    rewrite (aget_nat served _ 0) by (apply Hz; lia). rsimpl. simpl.
    rewrite aget_mid. rsimpl. rewrite head_move_ok by (done || lia). rsimpl.
    rewrite aset_nat by lia. rsimpl. cbn [fst snd].
    destruct (IH fuel (pre ++ [x]) (total + Z.abs (cur - x)) x
                (<[length pre := 1]> served)) as (s' & E & Hl' & Hs');
      try done; rewrite ?length_insert, ?length_app; simpl; try lia.
    { intros k Hk. rewrite list_lookup_insert_ne by lia. apply Hz. lia. }
    exists s'. rewrite length_app in *. simpl in *.
    rewrite <- app_assoc in E. simpl in E.
    replace (Z.of_nat (length pre + 1)) with (Z.of_nat (length pre) + 1) in E by lia.
    rewrite E. rewrite Hl', length_insert. split_and!; [|done|].
    + f_equal. f_equal. f_equal. lia.
    + intros k Hk. rewrite Hs' by lia. by rewrite list_lookup_insert_ne by lia.
Qed.

Lemma sweep_left_path n pre post total cur served :
  cyl cur -> Forall cyl pre -> 0 <= total -> total + path_len cur (rev pre) <= INT_MAX ->
  (length pre < S n)%nat -> (length pre <= length served)%nat ->
  (forall k, (k < length pre)%nat -> served !! k = Some 0) ->
  exists served',
    sweep_left n (pre ++ post) (Z.of_nat (length pre)) (total, cur, served)
    = Ok (total + path_len cur (rev pre), last_pos cur (rev pre), served').
Proof.
  unfold sweep_left. generalize (S n). clear n. intros fuel.
  revert fuel post total cur served.
  induction pre as [|x pre IH] using rev_ind;
    intros fuel post total cur served Hc Hm Ht Hb Hf Hlen Hz;
    (destruct fuel as [|fuel]; [simpl in Hf; lia|]); simpl in *.
  - exists served. by rewrite Z.add_0_r.
  - rewrite length_app in *. simpl in *. rewrite rev_app_distr in *. simpl in *.
    apply Forall_app in Hm as [Hm Hx]. inversion Hx as [|? ? Hx' _]; subst.
    pose proof (path_len_nonneg x (rev pre)).
    rewrite (proj2 (Z.leb_le _ _)) by lia.
    replace (Z.of_nat (length pre + 1) - 1) with (Z.of_nat (length pre)) by lia.
    rewrite (aget_nat served _ 0) by (apply Hz; lia). rsimpl. simpl.
    rewrite <- app_assoc. simpl. rewrite aget_mid. rsimpl.
    rewrite head_move_ok by (done || lia). rsimpl. rewrite aset_nat by lia. rsimpl. cbn [fst snd].
    destruct (IH fuel (x :: post) (total + Z.abs (cur - x)) x
                (<[length pre := 1]> served)) as (s' & E);
      try done; rewrite ?length_insert; try lia.
    { intros k Hk. rewrite list_lookup_insert_ne by lia. apply Hz. lia. }
    exists s'. rewrite E. f_equal. f_equal. f_equal. lia.
Qed.

(** ** SSTF *)

Lemma pending_elem served requests x :
  x ∈ pending served requests <->
  exists k sv, served !! k = Some sv /\ sv <> 1 /\ requests !! k = Some x.
Proof.
  revert requests. induction served as [|sv served IH]; intros [|r requests]; simpl;
    try (split; [intros H; by apply elem_of_nil in H | intros ([|?] & ? & ? & ? & ?); done]).
  assert (x ∈ pending served requests <->
    exists k sv', (sv :: served) !! S k = Some sv' /\ sv' <> 1 /\
                  (r :: requests) !! S k = Some x) as HS by apply IH.
  destruct (Z.eqb_spec sv 1) as [->|Hsv]; simpl.
  - rewrite HS. split.
    + intros (k & sv' & H). by exists (S k), sv'.
    + intros ([|k] & sv' & H); [simpl in H; naive_solver | by exists k, sv'].
  - rewrite elem_of_cons, HS. split.
    + intros [->|(k & sv' & H)]; [by exists 0%nat, sv | by exists (S k), sv'].
    + intros ([|k] & sv' & H); [left; simpl in H; naive_solver | right; by exists k, sv'].
Qed.

Lemma pending_serve served requests k sv x :
  served !! k = Some sv -> sv <> 1 -> requests !! k = Some x ->
  pending served requests ≡ₚ x :: pending (<[k := 1]> served) requests.
Proof.
  revert requests k. induction served as [|sv0 served IH]; intros [|r requests] [|k]; simpl;
    try done.
  - intros [= ->] Hsv [= ->]. by rewrite (proj2 (Z.eqb_neq _ _) Hsv).
  - intros Hk Hsv Hx. destruct (negb (sv0 =? 1)); rewrite (IH _ k Hk Hsv Hx); [constructor | done].
Qed.

Lemma pending_all requests : pending (replicate (length requests) 0) requests = requests.
Proof. induction requests; simpl; congruence. Qed.

Definition closest_inv (requests served : list Z) (cur j : Z) (st : Z * Z) : Prop :=
  let '(ci, cd) := st in
  (forall k sv x, Z.of_nat k < j -> served !! k = Some sv -> sv <> 1 ->
     requests !! k = Some x -> cd <= Z.abs (x - cur)) /\
  (ci = -1 /\ cd = CYLINDERS + 1 \/
   exists k sv x, ci = Z.of_nat k /\ served !! k = Some sv /\ sv <> 1 /\
     requests !! k = Some x /\ cd = Z.abs (x - cur)).

Lemma sstf_closest_ok requests served cur :
  length requests = REQUESTS -> length served = REQUESTS ->
  Forall cyl requests -> cyl cur -> pending served requests <> [] ->
  exists k sv r,
    sstf_closest requests served cur = Ok (Z.of_nat k, Z.abs (r - cur)) /\
    served !! k = Some sv /\ sv <> 1 /\ requests !! k = Some r /\
    Forall (fun x => Z.abs (r - cur) <= Z.abs (x - cur)) (pending served requests).
Proof.
  intros Hr Hs Hcyl Hcur Hne. unfold sstf_closest.
  destruct (for_up_inv (closest_inv requests served cur) REQUESTS 0
              (sstf_consider requests served cur) (-1, CYLINDERS + 1))
    as ([ci cd] & E & Hall & HI).
  - split; [intros; lia | by left].
  - intros j [ci cd] Hj [Hall HI]. unfold sstf_consider.
    destruct (lookup_lt_is_Some_2 served (Z.to_nat j)) as [sv Hsv]; [lia|].
    destruct (lookup_lt_is_Some_2 requests (Z.to_nat j)) as [x Hx]; [lia|].
    assert (cyl x) as Hxc by (rewrite Forall_lookup in Hcyl; eauto).
    rewrite (proj2 (aget_Ok served j sv)) by (split; [lia | done]). rsimpl.
    assert (forall k sv' x', Z.of_nat k < j + 1 -> served !! k = Some sv' -> sv' <> 1 ->
      requests !! k = Some x' -> k = Z.to_nat j /\ sv' = sv /\ x' = x \/ cd <= Z.abs (x' - cur)) as Hsplit.
    { intros k sv' x' Hk Hsv' Hne' Hx'. destruct (decide (k = Z.to_nat j)) as [->|].
      - left. simplify_eq. done.
      - right. apply (Hall k sv' x'); [lia | done..]. }
    destruct (Z.eqb_spec sv 1) as [->|Hsv1]; simpl.
    { exists (ci, cd). split; [done|]. split; [|done].
      intros k sv' x' Hk Hsv' Hne' Hx'. destruct (Hsplit k sv' x' Hk Hsv' Hne' Hx'); naive_solver. }
    rewrite (proj2 (aget_Ok requests j x)) by (split; [lia | done]). rsimpl.
    unfold isub, iabs. unfold cyl, CYLINDERS in Hxc, Hcur.
    rewrite int_ok_in by (unfold INT_MIN, INT_MAX; lia). rsimpl.
    rewrite int_ok_in by (unfold INT_MIN, INT_MAX; lia). rsimpl.
    destruct (Z.ltb_spec (Z.abs (x - cur)) cd).
    + exists (j, Z.abs (x - cur)). split; [done|]. split.
      * intros k sv' x' Hk Hsv' Hne' Hx'.
        destruct (Hsplit k sv' x' Hk Hsv' Hne' Hx') as [(-> & -> & ->)|]; lia.
      * right. exists (Z.to_nat j), sv, x. split_and!; [lia | done..].
    + exists (ci, cd). split; [done|]. split; [|done].
      intros k sv' x' Hk Hsv' Hne' Hx'.
      destruct (Hsplit k sv' x' Hk Hsv' Hne' Hx') as [(-> & -> & ->)|]; lia.
  - rewrite E.
    assert (forall x, x ∈ pending served requests -> cd <= Z.abs (x - cur)) as Hmin.
    { intros x (k & sv & Hk & Hsv & Hx)%pending_elem. apply (Hall k sv x); [|done..].
      apply lookup_lt_Some in Hx. lia. }
    destruct HI as [[-> ->]|(k & sv & x & -> & Hk & Hsv & Hx & ->)].
    + destruct (pending served requests) as [|x p] eqn:Ep; [done|].
      specialize (Hmin x ltac:(left)).
      assert (cyl x) as Hxc.
      { assert (x ∈ pending served requests) as (k & sv & _ & _ & Hx)%pending_elem
          by (rewrite Ep; left). rewrite Forall_lookup in Hcyl; eauto. }
      unfold cyl, CYLINDERS in *. lia.
    + exists k, sv, x. split_and!; [done..|]. by apply Forall_forall.
Qed.

Lemma sstf_loop requests m :
  length requests = REQUESTS -> Forall cyl requests ->
  forall i total cur served,
    length served = REQUESTS -> length (pending served requests) = m ->
    cyl cur -> 0 <= total -> total + CYLINDERS * Z.of_nat m <= INT_MAX ->
    exists order served' cur',
      for_up m i (sstf_step requests) (total, cur, served)
      = Ok (total + path_len cur order, cur', served') /\
      greedy cur (pending served requests) order.
Proof.
  intros Hr Hcyl. induction m as [|m IH]; intros i total cur served Hs Hm Hc Ht Hb.
  { exists [], served, cur. apply nil_length_inv in Hm. rewrite Hm. cbn.
    rewrite Z.add_0_r. split; [done | constructor]. }
  destruct (sstf_closest_ok requests served cur) as (k & sv & r & E & Hk & Hsv & Hx & Hmin);
    [done..| intros Hp; by rewrite Hp in Hm |].
  assert (cyl r) as Hrc by (rewrite Forall_lookup in Hcyl; eauto).
  pose proof (pending_serve _ _ _ _ _ Hk Hsv Hx) as Hperm.
  assert (Z.abs (r - cur) <= CYLINDERS) by (unfold cyl in *; unfold CYLINDERS in *; lia).
  destruct (IH (i + 1) (total + Z.abs (r - cur)) r (<[k := 1]> served))
    as (order & s' & c' & E' & Hg).
  { by rewrite length_insert. }
  { apply Permutation_length in Hperm. simpl in Hperm. lia. }
  { done. }
  { lia. }
  { lia. }
  exists (r :: order), s', c'. split; [|by econstructor].
  assert (sstf_step requests i (total, cur, served)
          = Ok (total + Z.abs (r - cur), r, <[k := 1]> served)) as Estep.
  { unfold sstf_step. rewrite E. rsimpl.
    rewrite (proj2 (Z.eqb_neq _ _)) by lia. cbn [negb]. unfold iadd.
    rewrite int_ok_in by (unfold INT_MIN, CYLINDERS in *; lia). rsimpl.
    rewrite (aget_nat requests k r Hx). rsimpl.
    by rewrite aset_nat by (apply lookup_lt_Some in Hk; lia). }
  cbn [for_up]. rewrite Estep. rsimpl. rewrite E'. cbn [path_len]. by rewrite Z.add_assoc.
Qed.

(** ** The algorithms *)

Section algorithms.
Context (requests : list Z) (initial_position : Z).
Hypothesis Hvalid : valid_requests requests.
Hypothesis Hinit : cyl initial_position.

(** No total of the program overflows. *)
Lemma path_len_int l n :
  Forall cyl l -> length l = n -> (n <= REQUESTS + 2)%nat ->
  path_len initial_position l <= INT_MAX.
Proof using Hinit.
  intros Hl Hlen Hn. pose proof (path_len_bound initial_position l Hinit Hl) as Hb.
  unfold INT_MAX, CYLINDERS, REQUESTS in *. lia.
Qed.

Lemma valid_take : take REQUESTS requests = requests.
Proof using Hvalid. destruct Hvalid as [<- _]. apply firstn_all. Qed.

(** The sorted array of [l], split at the initial position. *)
Lemma qsort_split l n :
  Forall cyl l -> length l = n ->
  exists lows highs, qsort l n = Ok (lows ++ highs) /\ l ≡ₚ lows ++ highs /\
    StronglySorted Z.le (lows ++ highs) /\ Forall cyl lows /\ Forall cyl highs /\
    Forall (fun x => x < initial_position) lows /\
    Forall (fun x => initial_position <= x) highs /\
    n = (length lows + length highs)%nat.
Proof using Type.
  intros Hl <-. pose proof (qsort_all_sorted l Hl) as Hs.
  pose proof (qsort_all_perm l) as Hp.
  destruct (sorted_split initial_position _ Hs) as (lows & highs & E & Hlo & Hhi).
  assert (Forall cyl (lows ++ highs)) as Hc by (by rewrite <- E, Hp).
  exists lows, highs. rewrite qsort_full. rewrite E in *. apply Forall_app in Hc as [].
  split_and!; try done. by rewrite <- length_app, Hp.
Qed.
End algorithms.

Lemma StronglySorted_app_inv (l1 l2 : list Z) :
  StronglySorted Z.le (l1 ++ l2) -> StronglySorted Z.le l1 /\ StronglySorted Z.le l2 /\
  (forall x y, x ∈ l1 -> y ∈ l2 -> x <= y).
Proof.
  induction l1 as [|a l1 IH]; simpl; intros Hs.
  { split_and!; [constructor | done|]. intros x y Hx. by apply elem_of_nil in Hx. }
  inversion Hs as [|? ? Hs' Ha]; subst. destruct (IH Hs') as (H1 & H2 & H3).
  apply Forall_app in Ha as [Ha1 Ha2]. rewrite Forall_forall in Ha2.
  split_and!; [by constructor | done|]. intros x y [->|Hx]%elem_of_cons Hy; auto.
Qed.

Lemma clook_run requests init lows highs :
  valid_requests requests -> cyl init ->
  qsort requests REQUESTS = Ok (lows ++ highs) ->
  Forall cyl lows -> Forall cyl highs ->
  Forall (fun x => x < init) lows -> Forall (fun x => init <= x) highs ->
  REQUESTS = (length lows + length highs)%nat ->
  clook requests init = Ok (path_len init (highs ++ lows)).
Proof.
  intros Hv Hi E Hcl Hch Hl Hh Hn. unfold clook. rewrite valid_take, E by done. rsimpl.
  rewrite (find_start_split REQUESTS) by done. rsimpl. rewrite Nat2Z.id.
  assert (path_len init (highs ++ lows) <= INT_MAX) as Hb.
  { eapply path_len_int; [done | by apply Forall_app | reflexivity |].
    rewrite length_app. lia. }
  rewrite path_len_app in *. pose proof (path_len_nonneg (last_pos init highs) lows).
  pose proof (path_len_nonneg init highs).
  replace (REQUESTS - length lows)%nat with (length highs) by lia.
  rewrite serve_range_end by (done || lia). rsimpl.
  rewrite serve_range_begin; [done | by apply last_pos_cyl | done | lia | lia].
Qed.

(** The sequence served by C-SCAN goes through cylinder 0 between its sweeps. *)
Lemma cscan_run requests init lows highs :
  valid_requests requests -> cyl init ->
  qsort (requests ++ [CYLINDERS - 1; 0]) (REQUESTS + 2) = Ok (lows ++ highs) ->
  is_max (CYLINDERS - 1) highs -> (lows = [] \/ is_min 0 lows) ->
  StronglySorted Z.le (lows ++ highs) ->
  Forall cyl lows -> Forall cyl highs ->
  Forall (fun x => x < init) lows -> Forall (fun x => init <= x) highs ->
  (REQUESTS + 2 = length lows + length highs)%nat ->
  cscan requests init = Ok (path_len init (highs ++ lows)).
Proof.
  intros Hv Hi E Hmax Hmin Hs Hcl Hch Hl Hh Hn.
  apply StronglySorted_app_inv in Hs as (Hsl & Hsh & _).
  unfold cscan. rewrite valid_take, E by done. rsimpl.
  rewrite (find_start_split (REQUESTS + 2)) by done. rsimpl. rewrite Nat2Z.id.
  assert (path_len init (highs ++ lows) <= INT_MAX) as Hb.
  { eapply path_len_int; [done | by apply Forall_app | reflexivity |].
    rewrite length_app. lia. }
  rewrite path_len_app in *. rewrite (last_pos_max init highs (CYLINDERS - 1)) in * by done.
  pose proof (path_len_nonneg (CYLINDERS - 1) lows). pose proof (path_len_nonneg init highs).
  replace (REQUESTS + 2 - length lows)%nat with (length highs) by lia.
  rewrite serve_range_end by (done || lia). rsimpl. cbn [fst].
  destruct lows as [|x lows].
  { cbn [length path_len]. by rewrite Z.add_0_r. }
  destruct Hmin as [Hmin|Hmin]; [done|].
  assert (x = 0) as ->.
  { inversion Hsl as [|? ? _ Hx]; subst. inversion Hcl as [|? ? Hxc _]; subst.
    destruct Hmin as [[->|Hin]%elem_of_cons _]; [done|].
    rewrite Forall_forall in Hx. specialize (Hx _ Hin). unfold cyl in Hxc. lia. }
  rewrite (proj2 (Z.ltb_lt _ _)) by (simpl; lia).
  cbn [path_len] in *. unfold iadd. pose proof (path_len_nonneg 0 lows).
  rewrite int_ok_in by (unfold INT_MIN, INT_MAX, CYLINDERS in *; lia). rsimpl.
  rewrite serve_range_begin; [|done|done|unfold CYLINDERS in *; lia|unfold CYLINDERS in *; cbn [path_len]; lia].
  rsimpl. cbn [fst path_len]. f_equal. unfold CYLINDERS. lia.
Qed.

Lemma served_zero (n k : nat) : (k < n)%nat -> replicate n 0 !! k = Some 0.
Proof. intros. by apply lookup_replicate_2. Qed.

(** One scan over a sorted array that starts at index [length lows]. *)
Lemma sweeps_run n m init lows highs :
  n = (length lows + length highs)%nat -> (n <= m)%nat -> (m <= REQUESTS + 2)%nat ->
  cyl init -> Forall cyl lows -> Forall cyl highs ->
  (st ← sweep_right n (lows ++ highs) (Z.of_nat (length lows)) (0, init, replicate m 0);
   st' ← sweep_left n (lows ++ highs) (Z.of_nat (length lows)) st;
   mret (fst (fst st'))) = Ok (path_len init (highs ++ rev lows)).
Proof.
  intros Hn Hm Hm' Hi Hcl Hch.
  assert (Forall cyl (rev lows)) as Hcr by (by apply Forall_rev).
  assert (path_len init (highs ++ rev lows) <= INT_MAX) as Hb.
  { eapply path_len_int; [done | by apply Forall_app | reflexivity |].
    rewrite length_app, length_rev. lia. }
  rewrite path_len_app in *. pose proof (path_len_nonneg (last_pos init highs) (rev lows)).
  pose proof (path_len_nonneg init highs).
  destruct (sweep_right_path n lows highs 0 init (replicate m 0)) as (s' & E & Hl & Hs);
    try done; rewrite ?length_replicate; try lia.
  { intros k Hk. apply served_zero. lia. }
  rewrite E. rsimpl. rewrite length_replicate in Hl.
  destruct (sweep_left_path n lows highs (0 + path_len init highs) (last_pos init highs) s')
    as (s'' & E'); try done; try lia.
  { by apply last_pos_cyl. }
  { intros k Hk. rewrite Hs by lia. apply served_zero. lia. }
  rewrite E'. done.
Qed.

Lemma is_min_perm lo l l' : l ≡ₚ l' -> is_min lo l -> is_min lo l'.
Proof. unfold is_min. intros Hp [H1 H2]. by rewrite <- Hp. Qed.

Lemma is_max_perm hi l l' : l ≡ₚ l' -> is_max hi l -> is_max hi l'.
Proof. unfold is_max. intros Hp [H1 H2]. by rewrite <- Hp. Qed.

Lemma is_max_snoc l x hi : StronglySorted Z.le (l ++ [x]) -> is_max hi (l ++ [x]) -> x = hi.
Proof.
  intros Hs Hm. pose proof (last_pos_max 0 _ _ Hs Hm) as E.
  rewrite last_pos_app in E. done.
Qed.

(** The array sorted by [scan]: the sentinel cylinder is among the high ones. *)
Lemma scan_split requests init :
  valid_requests requests -> cyl init ->
  exists lows highs highs',
    qsort (requests ++ [CYLINDERS - 1]) (REQUESTS + 1) = Ok (lows ++ highs) /\
    StronglySorted Z.le (lows ++ highs) /\ is_max (CYLINDERS - 1) highs /\
    highs ≡ₚ (CYLINDERS - 1) :: highs' /\ requests ≡ₚ lows ++ highs' /\
    Forall cyl lows /\ Forall cyl highs /\
    Forall (fun x => x < init) lows /\ Forall (fun x => init <= x) highs.
Proof.
  intros [Hn Hc] Hi.
  destruct (qsort_split init (requests ++ [CYLINDERS - 1]) (REQUESTS + 1))
    as (lows & highs & E & Hp & Hs & Hcl & Hch & Hl & Hh & Hlen).
  { apply Forall_app. split; [done|]. repeat constructor; unfold CYLINDERS; lia. }
  { rewrite length_app, Hn. done. }
  assert (CYLINDERS - 1 ∈ highs) as Hin.
  { assert (CYLINDERS - 1 ∈ lows ++ highs) as [H|H]%elem_of_app; [| |done].
    - rewrite <- Hp. apply elem_of_app. right. left.
    - rewrite Forall_forall in Hl. specialize (Hl _ H). unfold cyl in Hi. lia. }
  apply elem_of_Permutation in Hin as Hin'; destruct Hin' as (highs' & Hp').
  exists lows, highs, highs'. split_and!; try done.
  - split; [done|]. eapply Forall_impl; [exact Hch|]. unfold cyl. intros; lia.
  - rewrite Hp' in Hp. apply (Permutation_cons_inv (a := CYLINDERS - 1)).
    rewrite Permutation_middle, <- Hp. rewrite Permutation_app_comm. done.
Qed.

(** Sweeping up over [highs] to the last cylinder and down over [lows]. *)
Lemma up_down_len init lows highs :
  StronglySorted Z.le lows -> StronglySorted Z.le highs -> Forall cyl lows ->
  is_max (CYLINDERS - 1) highs -> Forall (fun x => init <= x) highs ->
  path_len init (highs ++ rev lows)
  = (CYLINDERS - 1 - init) + (CYLINDERS - 1 - last_pos (CYLINDERS - 1) (rev lows)).
Proof.
  intros Hsl Hsh Hcl Hmax Hh. rewrite path_len_app, path_len_up by done.
  rewrite (last_pos_max _ _ (CYLINDERS - 1)) by done.
  destruct (path_len_down (CYLINDERS - 1) lows Hsl) as [-> _]; [|done].
  eapply Forall_impl; [exact Hcl|]. unfold cyl. intros; lia.
Qed.

Lemma down_min lows lo :
  StronglySorted Z.le lows -> Forall cyl lows -> is_min lo lows ->
  last_pos (CYLINDERS - 1) (rev lows) = lo.
Proof.
  intros Hs Hc Hm. apply (path_len_down (CYLINDERS - 1) lows Hs); [|done].
  eapply Forall_impl; [exact Hc|]. unfold cyl. intros; lia.
Qed.

(** The low end of the sweep down, when some request may lie above the head. *)
Lemma down_to_lo init lows highs lo :
  StronglySorted Z.le lows -> Forall cyl lows -> Forall (fun x => x < init) lows ->
  Forall (fun x => init <= x) highs -> is_min lo (lows ++ highs) ->
  CYLINDERS - 1 - last_pos (CYLINDERS - 1) (rev lows)
  = if lo <? init then CYLINDERS - 1 - lo else 0.
Proof.
  intros Hs Hc Hl Hh [Hin Hall]. rewrite Forall_forall in Hl, Hh.
  destruct (Z.ltb_spec lo init).
  - rewrite (down_min lows lo); [done..|]. apply Forall_app in Hall as [Hall _].
    split; [|done]. apply elem_of_app in Hin as [?|Hin]; [done|].
    specialize (Hh _ Hin). lia.
  - destruct lows as [|x lows]; [simpl; lia|]. exfalso.
    inversion Hall; subst. specialize (Hl x ltac:(left)). lia.
Qed.

(** When every request lies below the head, the scan starts one index early. *)
Lemma scan_back lows highs init lo hi :
  length highs = 1%nat -> length lows = REQUESTS -> StronglySorted Z.le (lows ++ highs) ->
  is_max (CYLINDERS - 1) highs -> is_min lo lows -> is_max hi lows ->
  cyl init -> Forall cyl lows -> Forall cyl highs -> Forall (fun x => x < init) lows ->
  find_start_capped (lows ++ highs) init = Ok (Z.of_nat REQUESTS - 1) /\
  (st ← sweep_right (REQUESTS + 1)%nat (lows ++ highs) (Z.of_nat REQUESTS - 1)
         (0, init, replicate (REQUESTS + 1)%nat 0);
   st' ← sweep_left (REQUESTS + 1)%nat (lows ++ highs) (Z.of_nat REQUESTS - 1) st;
   mret (fst (fst st')))
  = Ok ((init - hi) + (CYLINDERS - 1 - hi) + (CYLINDERS - 1 - lo)).
Proof.
  intros Hlh Hll Hs Hm Hmin Hmax Hi Hcl Hch Hl.
  destruct highs as [|y [|]]; [done| |done].
  apply (is_max_snoc []) in Hm as ->; [|repeat constructor].
  destruct lows as [|x lows _] using rev_ind; [done|].
  apply StronglySorted_app_inv in Hs as (Hs & _ & Hle).
  apply (is_max_snoc lows) in Hmax as Hx; [subst x | done].
  rewrite length_app in Hll. simpl in Hll. rewrite <- app_assoc. cbn [app].
  apply Forall_app in Hl as [Hl Hhi]. apply Forall_app in Hcl as [Hcl Hch2].
  inversion Hhi as [|? ? Hlt _]; inversion Hch2 as [|? ? Hchi _]; subst.
  split; [by apply find_start_capped_full|].
  replace (Z.of_nat REQUESTS - 1) with (Z.of_nat (length lows)) by lia.
  rewrite (sweeps_run _ _ init lows [hi; CYLINDERS - 1]);
    [|cbn [length]; lia | lia | lia | done | done | by constructor].
  cbn [app path_len].
  apply StronglySorted_app_inv in Hs as (Hs & _ & Hle').
  destruct (path_len_down (CYLINDERS - 1) lows Hs) as [-> _].
  { eapply Forall_impl; [exact Hcl|]. unfold cyl. intros; lia. }
  rewrite (down_min lows lo); [|done|done|].
  { unfold cyl in *. f_equal. lia. }
  destruct Hmin as [[Hin|Hin]%elem_of_app Hall]; apply Forall_app in Hall as [Hall _];
    split; try done.
  apply list_elem_of_singleton in Hin as ->.
  destruct lows as [|z lows]; [unfold REQUESTS in Hll; simpl in Hll; lia|].
  inversion Hall; subst. specialize (Hle' z hi ltac:(left) ltac:(left)).
  assert (z = hi) as -> by lia. left.
Qed.

Lemma filter_split init (l lows highs : list Z) :
  l ≡ₚ lows ++ highs -> Forall (fun x => x < init) lows -> Forall (fun x => init <= x) highs ->
  lows ≡ₚ filter (fun x => x < init) l.
Proof.
  intros -> Hl Hh. rewrite filter_app, (list_filter_all _ lows), (list_filter_none _ highs) by
    (done || (eapply Forall_impl; [exact Hh|]; simpl; intros; lia)).
  by rewrite app_nil_r.
Qed.

(** Any path through two cylinders covers the distance between them. *)
Lemma path_len_reach cur l x : x ∈ l -> Z.abs (x - cur) <= path_len cur l.
Proof.
  revert cur. induction l as [|y l IH]; intros cur; [by intros ?%elem_of_nil|].
  intros [->|Hx]%elem_of_cons; simpl.
  - pose proof (path_len_nonneg y l). lia.
  - pose proof (IH y Hx). lia.
Qed.

Lemma path_len_extremes cur l lo hi :
  lo ∈ l -> hi ∈ l ->
  Z.min (Z.abs (lo - cur)) (Z.abs (hi - cur)) + Z.abs (hi - lo) <= path_len cur l.
Proof.
  revert cur. induction l as [|y l IH]; intros cur; [by intros ?%elem_of_nil|].
  pose proof (path_len_nonneg y l).
  intros [->|Hlo]%elem_of_cons [->|Hhi]%elem_of_cons; simpl.
  - lia.
  - pose proof (path_len_reach y l hi Hhi). lia.
  - pose proof (path_len_reach y l lo Hlo). lia.
  - pose proof (IH y Hlo Hhi). lia.
Qed.

Lemma sorted_up_len init l lo hi :
  StronglySorted Z.le l -> is_min lo l -> is_max hi l ->
  path_len init l = Z.abs (lo - init) + (hi - lo).
Proof.
  intros Hs [Hin Hmin] Hmax. destruct l as [|x l]; [by apply elem_of_nil in Hin|].
  inversion Hs as [|? ? Hs' Hx]; inversion Hmin; subst.
  assert (x = lo) as ->.
  { apply elem_of_cons in Hin as [->|Hin]; [done|].
    rewrite Forall_forall in Hx. specialize (Hx _ Hin). lia. }
  pose proof (last_pos_max init _ _ Hs Hmax) as E. simpl in *.
  rewrite path_len_up, E; done.
Qed.

Lemma sorted_down_len init l lo hi :
  StronglySorted Z.le l -> is_min lo l -> is_max hi l ->
  path_len init (rev l) = Z.abs (hi - init) + (hi - lo).
Proof.
  intros Hs Hmin Hmax.
  destruct (path_len_down hi l Hs (proj2 Hmax)) as [E1 E2]. rewrite (E2 lo Hmin) in E1.
  destruct l as [|x l _] using rev_ind; [by destruct Hmin as [?%elem_of_nil _]|].
  apply is_max_snoc in Hmax as ->; [|done].
  rewrite rev_app_distr in *. simpl in *. lia.
Qed.

Lemma generate_requests_valid rand requests :
  length requests = REQUESTS -> (forall i, 0 <= rand i) ->
  exists requests', generate_requests rand requests = Ok requests' /\
    valid_requests requests'.
Proof.
  intros Hn Hr. unfold generate_requests.
  destruct (for_up_inv (fun j l => length l = REQUESTS /\
              forall k x, Z.of_nat k < j -> l !! k = Some x -> cyl x)
              REQUESTS 0 (fun i reqs => aset reqs i (Z.rem (rand i) CYLINDERS)) requests)
    as (l & E & Hl & Hc).
  - split; [done|]. intros; lia.
  - intros j l Hj [Hl Hc]. exists (<[Z.to_nat j := Z.rem (rand j) CYLINDERS]> l).
    replace j with (Z.of_nat (Z.to_nat j)) at 1 by lia. rewrite aset_nat by lia.
    rewrite length_insert. replace (Z.of_nat (Z.to_nat j)) with j by lia.
    split_and!; [done..|]. intros k x Hk.
    destruct (decide (k = Z.to_nat j)) as [->|Hne].
    + rewrite list_lookup_insert_eq by lia. intros [= <-]. unfold cyl.
      apply Z.rem_bound_pos; [done | unfold CYLINDERS; lia].
    + rewrite list_lookup_insert_ne by done. apply Hc. lia.
  - exists l. split; [done|]. split; [done|]. apply Forall_lookup. intros k x Hx.
    apply (Hc k); [|done]. apply lookup_lt_Some in Hx. lia.
Qed.

(** The two sentinels of [cscan] at the ends of the split array. *)
Lemma cscan_ends requests init lows highs top :
  Forall cyl requests -> cyl init -> requests ++ [CYLINDERS - 1; 0] ≡ₚ lows ++ highs ->
  Forall cyl lows -> Forall cyl highs ->
  Forall (fun x => x < init) lows -> Forall (fun x => init <= x) highs ->
  is_max top (0 :: filter (fun x => x < init) requests) ->
  is_max (CYLINDERS - 1) highs /\
  (if 0 <? init then is_min 0 lows /\ is_max top lows else lows = []).
Proof.
  intros Hc Hi Hp Hcl Hch Hl Hh Htop. split; [split|].
  - assert (CYLINDERS - 1 ∈ lows ++ highs) as [H|H]%elem_of_app; [| |done].
    + rewrite <- Hp. apply elem_of_app. right. left.
    + rewrite Forall_forall in Hl. specialize (Hl _ H). unfold cyl in Hi. lia.
  - eapply Forall_impl; [exact Hch|]. unfold cyl. intros; lia.
  - pose proof (filter_split init _ _ _ Hp Hl Hh) as Hf.
    destruct (Z.ltb_spec 0 init).
    + assert (lows ≡ₚ 0 :: filter (fun x => x < init) requests) as Hp0.
      { rewrite Hf, filter_app, filter_cons_False, filter_cons_True, Permutation_app_comm;
          [done | lia | unfold cyl in Hi; lia]. }
      split; [|by eapply is_max_perm]. split; [rewrite Hp0; left|].
      eapply Forall_impl; [exact Hcl|]. unfold cyl. intros; lia.
    + destruct lows as [|x lows]; [done|]. inversion Hl; inversion Hcl; subst.
      unfold cyl in *. lia.
Qed.

(** ** Properties *)

(** FCFS. The head serves the requests in the order of the array: the
    result is the length of that path, without overflow. *)
Theorem fcfs_path requests init :
  valid_requests requests -> cyl init ->
  fcfs requests init = Ok (path_len init requests).
Proof.
  intros [Hn Hc] Hi. pose proof (path_len_int _ Hi _ _ Hc Hn ltac:(lia)) as Hb.
  pose proof (serve_range_begin requests [] 0 init Hi Hc ltac:(lia) ltac:(lia)) as E.
  rewrite app_nil_r, Hn in E. unfold fcfs. unfold serve_range in E. rewrite E. done.
Qed.

(** SSTF. The requests are served in an order in which each one is a closest
    pending request from the position of the head, every request is served
    exactly once, and the result is the length of that path. *)
Theorem sstf_greedy requests init :
  valid_requests requests -> cyl init ->
  exists order, greedy init requests order /\
    sstf requests init = Ok (path_len init order).
Proof.
  intros [Hn Hc] Hi.
  destruct (sstf_loop requests REQUESTS Hn Hc 0 0 init (replicate REQUESTS 0))
    as (order & s' & c' & E & Hg).
  - apply length_replicate.
  - by rewrite <- Hn, pending_all.
  - done.
  - lia.
  - unfold CYLINDERS, REQUESTS, INT_MAX. lia.
  - exists order. rewrite <- Hn in Hg at 1. rewrite pending_all in Hg. split; [done|].
    unfold sstf. rewrite E. done.
Qed.

(** (SCAN). With [lo] and [hi] the extreme requests: when some request is at or
    above the head, the head sweeps up to the last cylinder and, if a request
    lies below its start, down to the lowest one. When every request lies below
    the head, the cap on the start index makes it first go down to the highest
    request, then up to the last cylinder, then down again. *)
Theorem scan_movement requests init lo hi :
  valid_requests requests -> cyl init -> is_min lo requests -> is_max hi requests ->
  scan requests init =
    Ok (if init <=? hi
        then (CYLINDERS - 1 - init) + (if lo <? init then CYLINDERS - 1 - lo else 0)
        else (init - hi) + (CYLINDERS - 1 - hi) + (CYLINDERS - 1 - lo)).
Proof.
  intros Hv Hi Hmin Hmax.
  destruct (scan_split requests init Hv Hi)
    as (lows & highs & highs' & E & Hs & Hm & Hp' & Hp & Hcl & Hch & Hl & Hh).
  assert (REQUESTS = length lows + length highs')%nat as Hlen
    by (rewrite <- length_app, <- Hp; symmetry; apply Hv).
  assert (length highs = S (length highs')) as Hlh by by rewrite Hp'.
  pose proof (is_min_perm _ _ _ Hp Hmin) as Hmin'.
  pose proof (is_max_perm _ _ _ Hp Hmax) as Hmax'.
  unfold scan. rewrite valid_take, E by done. rsimpl.
  destruct highs' as [|h highs'].
  - rewrite app_nil_r in *. destruct (scan_back lows highs init lo hi) as [E1 E2]; try done.
    { simpl in Hlen. lia. }
    rewrite E1. rsimpl. rewrite E2. f_equal.
    rewrite (proj2 (Z.leb_gt _ _)); [lia|].
    destruct Hmax' as [Hin _]. rewrite Forall_forall in Hl. auto.
  - cbn [length] in *. rewrite find_start_capped_split; [|done|done| |lia].
    2:{ by destruct highs. }
    rsimpl. rewrite sweeps_run by (done || lia).
    apply StronglySorted_app_inv in Hs as (Hsl & Hsh & _).
    rewrite up_down_len by done. f_equal.
    assert (Forall (fun x => init <= x) (h :: highs')) as Hh'.
    { rewrite Hp' in Hh. by inversion Hh. }
    rewrite (proj2 (Z.leb_le _ _)).
    2:{ destruct Hmax' as [_ Hf]. apply Forall_app in Hf as [_ Hf].
        inversion Hf; inversion Hh'; subst. lia. }
    f_equal. apply (down_to_lo init lows (h :: highs')); done.
Qed.

(** C-SCAN. From a head above cylinder 0 the head sweeps up to the last
    cylinder, flies back to cylinder 0 (the full stroke is counted) and sweeps up
    to the highest request below its start; from cylinder 0 it sweeps up once. *)
Theorem cscan_movement requests init top :
  valid_requests requests -> cyl init ->
  is_max top (0 :: filter (fun x => x < init) requests) ->
  cscan requests init =
    Ok ((CYLINDERS - 1 - init) + (if 0 <? init then (CYLINDERS - 1) + top else 0)).
Proof.
  intros Hv Hi Htop. destruct Hv as [Hn Hc].
  destruct (qsort_split init (requests ++ [CYLINDERS - 1; 0]) (REQUESTS + 2))
    as (lows & highs & E & Hp & Hs & Hcl & Hch & Hl & Hh & Hlen).
  { apply Forall_app. split; [done|]. repeat constructor; unfold CYLINDERS; lia. }
  { rewrite length_app, Hn. done. }
  destruct (cscan_ends requests init lows highs top) as (Hmax & Hlow); [done..|].
  rewrite (cscan_run requests init lows highs); try done.
  2:{ destruct (Z.ltb_spec 0 init); [right; apply Hlow | left; apply Hlow]. }
  f_equal. apply StronglySorted_app_inv in Hs as (Hsl & Hsh & _).
  rewrite path_len_app, path_len_up, (last_pos_max _ _ _ Hsh Hmax) by done.
  destruct (0 <? init).
  - destruct Hlow as [Hmin Htop']. rewrite (sorted_up_len _ lows 0 top) by done.
    unfold CYLINDERS. lia.
  - rewrite Hlow. simpl. lia.
Qed.

(** C-LOOK. The array is split by the head's position; the head serves the
    requests at or above it upwards, then the ones below it upwards, and the
    result is the length of that path. *)
Theorem clook_path requests init :
  valid_requests requests -> cyl init ->
  exists lows highs,
    lows ≡ₚ filter (fun x => x < init) requests /\
    highs ≡ₚ filter (fun x => ~ x < init) requests /\
    StronglySorted Z.le (lows ++ highs) /\
    clook requests init = Ok (path_len init (highs ++ lows)).
Proof.
  intros [Hn Hc] Hi.
  destruct (qsort_split init requests REQUESTS)
    as (lows & highs & E & Hp & Hs & Hcl & Hch & Hl & Hh & Hlen); [done..|].
  exists lows, highs. split_and!; [by eapply filter_split | | done |].
  - rewrite Hp, filter_app, (list_filter_none _ lows), (list_filter_all _ highs); [done|..].
    + eapply Forall_impl; [exact Hh|]. simpl. intros; lia.
    + eapply Forall_impl; [exact Hl|]. simpl. intros; lia.
  - by apply clook_run.
Qed.

(** C36 (Optimal). The result is the length of the upward sweep over the sorted
    requests, and it is minimal over all service orders exactly when the head is
    at least as close to the lowest request as to the highest one. *)
Theorem optimal_minimal_iff requests init lo hi :
  valid_requests requests -> cyl init -> is_min lo requests -> is_max hi requests ->
  optimal requests init = Ok (Z.abs (lo - init) + (hi - lo)) /\
  ((forall order, order ≡ₚ requests ->
      Z.abs (lo - init) + (hi - lo) <= path_len init order)
   <-> Z.abs (lo - init) <= Z.abs (hi - init)).
Proof.
  intros [Hn Hc] Hi Hmin Hmax. pose proof (qsort_all_perm requests) as Hp.
  pose proof (is_min_perm _ _ _ (symmetry Hp) Hmin) as Hmin'.
  pose proof (is_max_perm _ _ _ (symmetry Hp) Hmax) as Hmax'.
  pose proof (qsort_all_sorted requests Hc) as Hs.
  pose proof (sorted_up_len init _ lo hi Hs Hmin' Hmax') as Hup. split.
  - unfold optimal. rewrite valid_take by done. rewrite <- Hn at 1. rewrite qsort_full. rsimpl.
    assert (length (qsort_all requests) = REQUESTS) as Hl by by rewrite Hp.
    assert (Forall cyl (qsort_all requests)) as Hc' by by rewrite Hp.
    pose proof (path_len_int _ Hi _ _ Hc' Hl ltac:(lia)) as Hb.
    pose proof (serve_range_begin _ [] 0 init Hi Hc' ltac:(lia) ltac:(lia)) as E.
    rewrite app_nil_r, Hl in E. rewrite E. rsimpl. by rewrite <- Hup.
  - split.
    + intros Hall. specialize (Hall (rev (qsort_all requests))).
      rewrite (sorted_down_len _ _ lo hi), <- Permutation_rev in Hall by done.
      specialize (Hall Hp). lia.
    + intros Hle order Ho. destruct Hmin as [Hlo Hlo'], Hmax as [Hhi _].
      rewrite Forall_forall in Hlo'. specialize (Hlo' _ Hhi).
      rewrite <- Ho in Hlo, Hhi. pose proof (path_len_extremes init order lo hi Hlo Hhi). lia.
Qed.

(** LOOK. On every input [look] sorts one element past the end of its
    array: it has no defined result. *)
Theorem look_out_of_bounds requests init :
  valid_requests requests -> look requests init = Err OutOfBounds.
Proof.
  intros [Hn Hc]. unfold look, qsort.
  rewrite valid_take by done. rewrite decide_False; [done|]. rewrite Hn. lia.
Qed.

(** ** Witnesses: the theorems at a concrete array of requests *)

#[global] Instance cyl_dec x : Decision (cyl x).
Proof. unfold cyl. apply _. Defined.

Definition demo_requests : list Z := map (fun i => (i * 37) mod CYLINDERS) (seqZ 0 1000).

Lemma demo_valid : valid_requests demo_requests.
Proof. split; [done|]. apply (bool_decide_unpack _). vm_compute. exact I. Qed.

Lemma demo_init : cyl 143.
Proof. done. Qed.

Lemma demo_min : is_min 0 demo_requests.
Proof. split; apply (bool_decide_unpack _); vm_compute; exact I. Qed.

Lemma demo_max : is_max 4995 demo_requests.
Proof. split; apply (bool_decide_unpack _); vm_compute; exact I. Qed.

Lemma fcfs_path_witness : fcfs demo_requests 143 = Ok 71588.
Proof. rewrite (fcfs_path demo_requests 143 demo_valid); [by vm_compute | done]. Defined.

Lemma sstf_greedy_witness :
  exists order, greedy 143 demo_requests order /\
    sstf demo_requests 143 = Ok (path_len 143 order).
Proof. by apply (sstf_greedy demo_requests 143 demo_valid). Defined.

Lemma sevens_valid : valid_requests (replicate REQUESTS 7).
Proof. split; [apply length_replicate|]. by apply Forall_replicate. Qed.

Lemma sevens_min : is_min 7 (replicate REQUESTS 7).
Proof. split; [by apply elem_of_replicate | by apply Forall_replicate]. Qed.

Lemma sevens_max : is_max 7 (replicate REQUESTS 7).
Proof. split; [by apply elem_of_replicate | by apply Forall_replicate]. Qed.

Lemma last_cyl : cyl 4999.
Proof. done. Qed.

Lemma cscan_movement_witness : cscan demo_requests 143 = Ok 9993.
Proof.
  rewrite (cscan_movement demo_requests 143 138 demo_valid); [done | done |].
  split; apply (bool_decide_unpack _); vm_compute; exact I.
Defined.

Lemma clook_path_witness :
  exists lows highs,
    lows ≡ₚ filter (fun x => x < 143) demo_requests /\
    highs ≡ₚ filter (fun x => ~ x < 143) demo_requests /\
    StronglySorted Z.le (lows ++ highs) /\
    clook demo_requests 143 = Ok (path_len 143 (highs ++ lows)).
Proof. by apply (clook_path demo_requests 143 demo_valid). Defined.

Lemma optimal_minimal_iff_witness :
  optimal demo_requests 143 = Ok 5138 /\
  forall order, order ≡ₚ demo_requests -> 5138 <= path_len 143 order.
Proof.
  destruct (optimal_minimal_iff demo_requests 143 0 4995 demo_valid demo_init demo_min demo_max)
    as [E [_ H]]. split; [exact E|]. intros order Ho. by apply (H ltac:(done) order).
Defined.

Lemma look_out_of_bounds_witness : look demo_requests 143 = Err OutOfBounds.
Proof. exact (look_out_of_bounds demo_requests 143 demo_valid). Defined.
