(* ===== verification/KTypes.v ===== *)
(** * Kernel data (kernel/proc.h, kernel/priv.h, kernel/ipc.h, minix/com.h)

    The process and privilege tables, the run queues and the state of the
    kernel of program_assignment_2. A pointer to a process table slot is the
    slot's number ([NULL] is [None]); the idle process of the cpu, which is not
    in the table, has the number [IDLE_SLOT]. A pointer to a privilege structure
    is its index; [idle_priv] has the index [IDLE_PRIV]. The hardware and the
    environment (time stamp counter, clock, [random()]) are the class [KEnv]. *)

From S2P Require Import Prelude.
From Stdlib Require Import String.
From stdpp Require Import strings.
#[local] Open Scope Z_scope.

(** ** Constants *)

Definition NR_TASKS : Z := 5.
Definition NR_PROCS : Z := 256.
Definition NR_SYS_PROCS : Z := 64.
Definition NR_SCHED_QUEUES : Z := 16.
Definition MAX_USER_Q : Z := 0.
Definition MIN_USER_Q : Z := NR_SCHED_QUEUES - 1.
Definition MAX_NR_TASKS : Z := 1023.
Definition NR_STATIC_PRIV_IDS : Z := 16.   (* NR_BOOT_PROCS *)
Definition USER_PRIV_ID : Z := 15.         (* static_priv_id(INIT_PROC_NR) *)
Definition NULL_PRIV_ID : Z := -1.

(** Process numbers of the kernel tasks. *)
Definition ASYNCM : Z := -5.
Definition IDLE : Z := -4.
Definition SYSTEM : Z := -2.
Definition KERNEL : Z := -1.
Definition RS_PROC_NR : Z := 2.
Definition PM_PROC_NR : Z := 0.
Definition SCHED_PROC_NR : Z := 4.
Definition HARDWARE : Z := KERNEL.

(** The slots of [proc[]], and the one of the idle process. *)
Definition slots : list Z := seqZ (- NR_TASKS) 261.
Definition IDLE_SLOT : Z := 100000.
Definition IDLE_PRIV : Z := 100000.

(** Endpoints: generation and slot. *)
Definition _ENDPOINT_GENERATION_SHIFT : Z := 15.
Definition _ENDPOINT_GENERATION_SIZE : Z := 32768.
Definition _ENDPOINT_MAX_GENERATION : Z := INT_MAX / _ENDPOINT_GENERATION_SIZE - 1.
Definition _ENDPOINT_SLOT_TOP : Z := _ENDPOINT_GENERATION_SIZE - MAX_NR_TASKS.
Definition ANY : Z := _ENDPOINT_SLOT_TOP - 1.
Definition NONE : Z := _ENDPOINT_SLOT_TOP - 2.
Definition SELF : Z := _ENDPOINT_SLOT_TOP - 3.
Definition _ENDPOINT (g p : Z) : Z := Z.shiftl g _ENDPOINT_GENERATION_SHIFT + p.
Definition _ENDPOINT_G (e : Z) : Z := Z.shiftr (e + MAX_NR_TASKS) _ENDPOINT_GENERATION_SHIFT.
Definition _ENDPOINT_P (e : Z) : Z :=
  Z.land (e + MAX_NR_TASKS) (_ENDPOINT_GENERATION_SIZE - 1) - MAX_NR_TASKS.

(** Runtime flags. *)
Definition RTS_SLOT_FREE : Z := 0x01.
Definition RTS_PROC_STOP : Z := 0x02.
Definition RTS_SENDING : Z := 0x04.
Definition RTS_RECEIVING : Z := 0x08.
Definition RTS_SIGNALED : Z := 0x10.
Definition RTS_SIG_PENDING : Z := 0x20.
Definition RTS_P_STOP : Z := 0x40.
Definition RTS_NO_PRIV : Z := 0x80.
Definition RTS_NO_ENDPOINT : Z := 0x100.
Definition RTS_VMINHIBIT : Z := 0x200.
Definition RTS_PREEMPTED : Z := 0x4000.
Definition RTS_NO_QUANTUM : Z := 0x8000.

(** Misc flags. *)
Definition MF_REPLY_PEND : Z := 0x001.
Definition MF_VIRT_TIMER : Z := 0x002.
Definition MF_PROF_TIMER : Z := 0x004.
Definition MF_KCALL_RESUME : Z := 0x008.
Definition MF_DELIVERMSG : Z := 0x040.
Definition MF_SIG_DELAY : Z := 0x080.
Definition MF_SC_ACTIVE : Z := 0x100.
Definition MF_SC_DEFER : Z := 0x200.
Definition MF_SC_TRACE : Z := 0x400.
Definition MF_SENDING_FROM_KERNEL : Z := 0x2000.
Definition MF_CONTEXT_SET : Z := 0x4000.
Definition MF_SPROF_SEEN : Z := 0x8000.
Definition MF_STEP : Z := 0x40000.

(** Privilege flags. *)
Definition PREEMPTIBLE : Z := 0x002.
Definition BILLABLE : Z := 0x004.
Definition SYS_PROC : Z := 0x010.
Definition IDL_F : Z := Z.lor SYS_PROC BILLABLE.

(** IPC calls, their flags and status codes. *)
Definition SEND : Z := 1.
Definition RECEIVE : Z := 2.
Definition SENDREC : Z := 3.
Definition NOTIFY : Z := 4.
Definition SENDNB : Z := 5.
Definition MINIX_KERNINFO : Z := 6.
Definition SENDA : Z := 16.
Definition NON_BLOCKING : Z := 0x0080.
Definition FROM_KERNEL : Z := 0x0100.
Definition IPC_FLG_MSG_FROM_KERNEL : Z := 1.
Definition IPC_STATUS_CALL_TO (call : Z) : Z := Z.land call 0x3F.
Definition IPC_STATUS_FLAGS (flgs : Z) : Z := Z.shiftl flgs 16.
Definition NOTIFY_MESSAGE : Z := 0x1000.
Definition SCHEDULING_NO_QUANTUM : Z := 0xF01.

(** Flags of the entries of an asynchronous message table. *)
Definition AMF_VALID : Z := 1.
Definition AMF_DONE : Z := 2.
Definition AMF_NOTIFY : Z := 4.
Definition AMF_NOREPLY : Z := 8.
Definition AMF_NOTIFY_ERR : Z := 16.

Definition PMAGIC : Z := 0xC0FFEE1.
Definition STACK_GUARD : Z := 0xDEADBEEF.

(** The codes the kernel returns; [Raw n] is a plain number. *)
Inductive ecode :=
| OK | EPERM | ENOENT | ESRCH | EFAULT | EBUSY | EINVAL | ENOSPC | EDOM | EAGAIN
| EFBIG | EROFS | ENFILE | ENOTDIR | ENOTEMPTY | EACCES | EIO
| EDEADSRCDST | ECALLDENIED | ETRAPDENIED | EBADCALL | ELOCKED | ENOTREADY
| EBADCPU | EBADEPT | EDEADEPT | ENOSYS | SUSPEND | ENOMEM | EEXIST | EBADF | ENOLCK
| E2BIG | EINTR | EIDRM | ERANGE | ECHILD | Raw (n : Z).

#[global] Instance ecode_eq_dec : EqDecision ecode.
Proof. solve_decision. Defined.

(** ** Messages *)

Inductive payload :=
| PUser (words : list Z)                            (* opaque to the kernel *)
| PNotify (timestamp interrupts sigset : Z)         (* m_notify *)
| PNoQuantum (acnt_queue acnt_deqs acnt_ipc_sync acnt_ipc_async acnt_preempt
              acnt_cpu acnt_cpu_load : Z).          (* m_krn_lsys_schedule *)

Record message := mk_message { m_source : Z; m_type : Z; m_payload : payload }.
Definition set_m_source (e : Z) (m : message) : message :=
  mk_message e (m_type m) (m_payload m).

(** struct asynmsg *)
Record asynmsg := mk_asynmsg {
  am_flags : Z; am_dst : Z; am_result : ecode; am_msg : message }.

(** Tactic of the setters: replace one field in the eta expansion of a record. *)
Ltac record_set f v r e :=
  let t := eval unfold e in (e r) in
  let t' := eval cbv beta in t in
  let p := eval pattern (f r) in t' in
  match p with
  | ?g _ => let u := eval cbv beta in (g v) in exact u
  end.

(** ** struct proc *)

Record proc := mk_proc {
  p_nr : Z;  (* number of this process *)
  p_priv : option Z;  (* system privileges structure: its index, None for NULL *)
  p_rts_flags : Z;  (* process is runnable only if zero *)
  p_misc_flags : Z;  (* flags that do not suspend the process *)
  p_priority : Z;  (* current process priority *)
  p_cpu_time_left : Z;  (* time left to use the cpu *)
  p_quantum_size_ms : Z;  (* assigned time quantum in ms *)
  p_scheduler : option Z;  (* who should get out of quantum msg *)
  p_tickets : Z;  (* lottery tickets held *)
  a_enter_queue : Z;  (* p_accounting *)
  a_time_in_queue : Z;
  a_dequeues : Z;
  a_ipc_sync : Z;
  a_ipc_async : Z;
  a_preempted : Z;
  p_user_time : Z;
  p_sys_time : Z;
  p_virt_left : Z;
  p_prof_left : Z;
  p_cycles : Z;
  p_kcall_cycles : Z;
  p_kipc_cycles : Z;
  p_nextready : option Z;  (* next ready process *)
  p_caller_q : option Z;  (* head of list of procs wishing to send *)
  p_q_link : option Z;  (* next proc wishing to send *)
  p_getfrom_e : Z;  (* from whom does process want to receive? *)
  p_sendto_e : Z;  (* to whom does process want to send? *)
  p_pending : Z;  (* pending kernel signals *)
  p_name : string;  (* name of the process *)
  p_endpoint : Z;  (* endpoint number, generation-aware *)
  p_sendmsg : message;  (* message from this process if SENDING *)
  p_delivermsg : message;  (* message for this process if MF_DELIVERMSG *)
  p_delivermsg_vir : Z;  (* address this proc wants message at *)
  p_magic : Z;
  p_defer : Z * Z * Z;  (* do_ipc() arguments still to be executed *)
  p_signal_received : Z;
  p_schedules : Z;
  p_retreg : Z;  (* p_reg.retreg *)
  p_ipc_status : Z;  (* p_reg.IPC_STATUS_REG *)
}.

Definition eta_proc (r : proc) : proc :=
  mk_proc (p_nr r) (p_priv r) (p_rts_flags r) (p_misc_flags r) (p_priority r) (p_cpu_time_left r) (p_quantum_size_ms r) (p_scheduler r) (p_tickets r) (a_enter_queue r) (a_time_in_queue r) (a_dequeues r) (a_ipc_sync r) (a_ipc_async r) (a_preempted r) (p_user_time r) (p_sys_time r) (p_virt_left r) (p_prof_left r) (p_cycles r) (p_kcall_cycles r) (p_kipc_cycles r) (p_nextready r) (p_caller_q r) (p_q_link r) (p_getfrom_e r) (p_sendto_e r) (p_pending r) (p_name r) (p_endpoint r) (p_sendmsg r) (p_delivermsg r) (p_delivermsg_vir r) (p_magic r) (p_defer r) (p_signal_received r) (p_schedules r) (p_retreg r) (p_ipc_status r).
Definition set_p_nr (v : Z) (r : proc) : proc := ltac:(record_set p_nr v r (eta_proc)).
Definition set_p_priv (v : option Z) (r : proc) : proc := ltac:(record_set p_priv v r (eta_proc)).
Definition set_p_rts_flags (v : Z) (r : proc) : proc := ltac:(record_set p_rts_flags v r (eta_proc)).
Definition set_p_misc_flags (v : Z) (r : proc) : proc := ltac:(record_set p_misc_flags v r (eta_proc)).
Definition set_p_priority (v : Z) (r : proc) : proc := ltac:(record_set p_priority v r (eta_proc)).
Definition set_p_cpu_time_left (v : Z) (r : proc) : proc := ltac:(record_set p_cpu_time_left v r (eta_proc)).
Definition set_p_quantum_size_ms (v : Z) (r : proc) : proc := ltac:(record_set p_quantum_size_ms v r (eta_proc)).
Definition set_p_scheduler (v : option Z) (r : proc) : proc := ltac:(record_set p_scheduler v r (eta_proc)).
Definition set_p_tickets (v : Z) (r : proc) : proc := ltac:(record_set p_tickets v r (eta_proc)).
Definition set_a_enter_queue (v : Z) (r : proc) : proc := ltac:(record_set a_enter_queue v r (eta_proc)).
Definition set_a_time_in_queue (v : Z) (r : proc) : proc := ltac:(record_set a_time_in_queue v r (eta_proc)).
Definition set_a_dequeues (v : Z) (r : proc) : proc := ltac:(record_set a_dequeues v r (eta_proc)).
Definition set_a_ipc_sync (v : Z) (r : proc) : proc := ltac:(record_set a_ipc_sync v r (eta_proc)).
Definition set_a_ipc_async (v : Z) (r : proc) : proc := ltac:(record_set a_ipc_async v r (eta_proc)).
Definition set_a_preempted (v : Z) (r : proc) : proc := ltac:(record_set a_preempted v r (eta_proc)).
Definition set_p_user_time (v : Z) (r : proc) : proc := ltac:(record_set p_user_time v r (eta_proc)).
Definition set_p_sys_time (v : Z) (r : proc) : proc := ltac:(record_set p_sys_time v r (eta_proc)).
Definition set_p_virt_left (v : Z) (r : proc) : proc := ltac:(record_set p_virt_left v r (eta_proc)).
Definition set_p_prof_left (v : Z) (r : proc) : proc := ltac:(record_set p_prof_left v r (eta_proc)).
Definition set_p_cycles (v : Z) (r : proc) : proc := ltac:(record_set p_cycles v r (eta_proc)).
Definition set_p_kcall_cycles (v : Z) (r : proc) : proc := ltac:(record_set p_kcall_cycles v r (eta_proc)).
Definition set_p_kipc_cycles (v : Z) (r : proc) : proc := ltac:(record_set p_kipc_cycles v r (eta_proc)).
Definition set_p_nextready (v : option Z) (r : proc) : proc := ltac:(record_set p_nextready v r (eta_proc)).
Definition set_p_caller_q (v : option Z) (r : proc) : proc := ltac:(record_set p_caller_q v r (eta_proc)).
Definition set_p_q_link (v : option Z) (r : proc) : proc := ltac:(record_set p_q_link v r (eta_proc)).
Definition set_p_getfrom_e (v : Z) (r : proc) : proc := ltac:(record_set p_getfrom_e v r (eta_proc)).
Definition set_p_sendto_e (v : Z) (r : proc) : proc := ltac:(record_set p_sendto_e v r (eta_proc)).
Definition set_p_pending (v : Z) (r : proc) : proc := ltac:(record_set p_pending v r (eta_proc)).
Definition set_p_name (v : string) (r : proc) : proc := ltac:(record_set p_name v r (eta_proc)).
Definition set_p_endpoint (v : Z) (r : proc) : proc := ltac:(record_set p_endpoint v r (eta_proc)).
Definition set_p_sendmsg (v : message) (r : proc) : proc := ltac:(record_set p_sendmsg v r (eta_proc)).
Definition set_p_delivermsg (v : message) (r : proc) : proc := ltac:(record_set p_delivermsg v r (eta_proc)).
Definition set_p_delivermsg_vir (v : Z) (r : proc) : proc := ltac:(record_set p_delivermsg_vir v r (eta_proc)).
Definition set_p_magic (v : Z) (r : proc) : proc := ltac:(record_set p_magic v r (eta_proc)).
Definition set_p_defer (v : Z * Z * Z) (r : proc) : proc := ltac:(record_set p_defer v r (eta_proc)).
Definition set_p_signal_received (v : Z) (r : proc) : proc := ltac:(record_set p_signal_received v r (eta_proc)).
Definition set_p_schedules (v : Z) (r : proc) : proc := ltac:(record_set p_schedules v r (eta_proc)).
Definition set_p_retreg (v : Z) (r : proc) : proc := ltac:(record_set p_retreg v r (eta_proc)).
Definition set_p_ipc_status (v : Z) (r : proc) : proc := ltac:(record_set p_ipc_status v r (eta_proc)).

(** ** struct priv *)

Record priv := mk_priv {
  s_proc_nr : Z;  (* number of associated process, or NONE *)
  s_id : Z;  (* index of this system structure *)
  s_flags : Z;  (* PREEMPTIBLE, BILLABLE, ... *)
  s_asyntab : Z;  (* addr. of table in process' address space *)
  s_asynsize : Z;  (* number of elements in table *)
  s_trap_mask : Z;  (* allowed system call traps *)
  s_ipc_to : Z;  (* allowed destination processes *)
  s_sig_mgr : Z;  (* signal manager *)
  s_bak_sig_mgr : Z;  (* backup signal manager *)
  s_notify_pending : Z;  (* pending notifications *)
  s_asyn_pending : Z;  (* pending asyn messages *)
  s_int_pending : Z;  (* pending hardware interrupts *)
  s_sig_pending : Z;  (* pending signals *)
  s_stack_guard : Z;  (* *s_stack_guard *)
  s_diag_sig : bool;  (* send a SIGKMESS when diagnostics arrive? *)
}.

Definition eta_priv (r : priv) : priv :=
  mk_priv (s_proc_nr r) (s_id r) (s_flags r) (s_asyntab r) (s_asynsize r) (s_trap_mask r) (s_ipc_to r) (s_sig_mgr r) (s_bak_sig_mgr r) (s_notify_pending r) (s_asyn_pending r) (s_int_pending r) (s_sig_pending r) (s_stack_guard r) (s_diag_sig r).
Definition set_s_proc_nr (v : Z) (r : priv) : priv := ltac:(record_set s_proc_nr v r (eta_priv)).
Definition set_s_id (v : Z) (r : priv) : priv := ltac:(record_set s_id v r (eta_priv)).
Definition set_s_flags (v : Z) (r : priv) : priv := ltac:(record_set s_flags v r (eta_priv)).
Definition set_s_asyntab (v : Z) (r : priv) : priv := ltac:(record_set s_asyntab v r (eta_priv)).
Definition set_s_asynsize (v : Z) (r : priv) : priv := ltac:(record_set s_asynsize v r (eta_priv)).
Definition set_s_trap_mask (v : Z) (r : priv) : priv := ltac:(record_set s_trap_mask v r (eta_priv)).
Definition set_s_ipc_to (v : Z) (r : priv) : priv := ltac:(record_set s_ipc_to v r (eta_priv)).
Definition set_s_sig_mgr (v : Z) (r : priv) : priv := ltac:(record_set s_sig_mgr v r (eta_priv)).
Definition set_s_bak_sig_mgr (v : Z) (r : priv) : priv := ltac:(record_set s_bak_sig_mgr v r (eta_priv)).
Definition set_s_notify_pending (v : Z) (r : priv) : priv := ltac:(record_set s_notify_pending v r (eta_priv)).
Definition set_s_asyn_pending (v : Z) (r : priv) : priv := ltac:(record_set s_asyn_pending v r (eta_priv)).
Definition set_s_int_pending (v : Z) (r : priv) : priv := ltac:(record_set s_int_pending v r (eta_priv)).
Definition set_s_sig_pending (v : Z) (r : priv) : priv := ltac:(record_set s_sig_pending v r (eta_priv)).
Definition set_s_stack_guard (v : Z) (r : priv) : priv := ltac:(record_set s_stack_guard v r (eta_priv)).
Definition set_s_diag_sig (v : bool) (r : priv) : priv := ltac:(record_set s_diag_sig v r (eta_priv)).

(** ** The state of the kernel *)

Record kstate := mk_kstate {
  procs : gmap Z proc;  (* the process table and the idle process *)
  privs : gmap Z priv;  (* the privilege table and idle_priv *)
  run_q_head : gmap Z Z;  (* run queue heads; an absent entry is NULL *)
  run_q_tail : gmap Z Z;  (* run queue tails *)
  proc_ptr : Z;  (* currently running process *)
  bill_ptr : option Z;  (* process to bill for clock ticks *)
  kbill_ipc : option Z;  (* process that invoked ipc *)
  total_tickets : Z;  (* tickets of all the processes in the scheduling queues *)
  style : Z;  (* scheduling algorithm *)
  tsc_reads : nat;  (* time stamp counter reads so far *)
  mono_reads : nat;  (* clock reads so far *)
  random_calls : nat;  (* calls of random() so far *)
  umem : gmap Z message;  (* messages readable at user addresses *)
  utab : gmap (Z * Z) asynmsg;  (* mapped async tables: endpoint and entry address *)
}.

Definition eta_kstate (r : kstate) : kstate :=
  mk_kstate (procs r) (privs r) (run_q_head r) (run_q_tail r) (proc_ptr r) (bill_ptr r) (kbill_ipc r) (total_tickets r) (style r) (tsc_reads r) (mono_reads r) (random_calls r) (umem r) (utab r).
Definition set_procs (v : gmap Z proc) (r : kstate) : kstate := ltac:(record_set procs v r (eta_kstate)).
Definition set_privs (v : gmap Z priv) (r : kstate) : kstate := ltac:(record_set privs v r (eta_kstate)).
Definition set_run_q_head (v : gmap Z Z) (r : kstate) : kstate := ltac:(record_set run_q_head v r (eta_kstate)).
Definition set_run_q_tail (v : gmap Z Z) (r : kstate) : kstate := ltac:(record_set run_q_tail v r (eta_kstate)).
Definition set_proc_ptr (v : Z) (r : kstate) : kstate := ltac:(record_set proc_ptr v r (eta_kstate)).
Definition set_bill_ptr (v : option Z) (r : kstate) : kstate := ltac:(record_set bill_ptr v r (eta_kstate)).
Definition set_kbill_ipc (v : option Z) (r : kstate) : kstate := ltac:(record_set kbill_ipc v r (eta_kstate)).
Definition set_total_tickets (v : Z) (r : kstate) : kstate := ltac:(record_set total_tickets v r (eta_kstate)).
Definition set_style (v : Z) (r : kstate) : kstate := ltac:(record_set style v r (eta_kstate)).
Definition set_tsc_reads (v : nat) (r : kstate) : kstate := ltac:(record_set tsc_reads v r (eta_kstate)).
Definition set_mono_reads (v : nat) (r : kstate) : kstate := ltac:(record_set mono_reads v r (eta_kstate)).
Definition set_random_calls (v : nat) (r : kstate) : kstate := ltac:(record_set random_calls v r (eta_kstate)).
Definition set_umem (v : gmap Z message) (r : kstate) : kstate := ltac:(record_set umem v r (eta_kstate)).
Definition set_utab (v : gmap (Z * Z) asynmsg) (r : kstate) : kstate := ltac:(record_set utab v r (eta_kstate)).

(** ** The environment of the kernel *)

Class KEnv := {
  read_tsc_64 : nat -> Z;          (* n-th value of the time stamp counter *)
  get_monotonic_n : nat -> Z;      (* n-th value of the clock *)
  random_n : nat -> Z;             (* n-th result of random() *)
  ms_2_cpu_time : Z -> Z;
  cpu_time_2_ms : Z -> Z;
  cpu_load : Z;
  sigs_is_lethal : Z -> bool;      (* SIGS_IS_LETHAL *)
  SIGKSIG : Z; SIGKSIGSM : Z; SIGSNDELAY : Z; SIGKMESS : Z; SIGTRAP : Z;
  sizeof_asynmsg : Z;
}.

(** ** Access to the state *)

Notation K := (M kstate).

(** [*p] for a process pointer. *)
Definition getp (p : Z) : K proc := ps ← gets procs; deref (ps !! p).

Definition updp (p : Z) (f : proc -> proc) : K unit :=
  pr ← getp p; modify (fun s => set_procs (<[p := f pr]> (procs s)) s).

(** [priv(p)] *)
Definition priv_ptr (p : Z) : K Z := pr ← getp p; deref (p_priv pr).
Definition get_privs (i : Z) : K priv := ps ← gets privs; deref (ps !! i).
Definition getpriv (p : Z) : K priv := i ← priv_ptr p; get_privs i.
Definition upd_privs (i : Z) (f : priv -> priv) : K unit :=
  pr ← get_privs i; modify (fun s => set_privs (<[i := f pr]> (privs s)) s).
Definition updpriv (p : Z) (f : priv -> priv) : K unit := i ← priv_ptr p; upd_privs i f.

(** ** Predicates and macros of proc.h, priv.h, ipc.h *)

Definition proc_is_runnable (pr : proc) : bool := p_rts_flags pr =? 0.
Definition proc_is_preempted (pr : proc) : bool := anyset (p_rts_flags pr) RTS_PREEMPTED.
Definition proc_ptr_ok (pr : proc) : bool := p_magic pr =? PMAGIC.
Definition RTS_ISSET (pr : proc) (f : Z) : bool := isset (p_rts_flags pr) f.
Definition iskerneln (n : Z) : bool := n <? 0.
Definition isokprocn (n : Z) : bool := (0 <=? n + NR_TASKS) && (n + NR_TASKS <? NR_PROCS + NR_TASKS).
Definition isemptyp (pr : proc) : bool := p_rts_flags pr =? RTS_SLOT_FREE.

(** The process is scheduled by the kernel's default policy. *)
Definition proc_kernel_scheduler (p : Z) (pr : proc) : bool :=
  bool_decide (p_scheduler pr = None) || bool_decide (p_scheduler pr = Some p).

(** On which process is a certain process blocked? *)
Definition P_BLOCKEDON (pr : proc) : Z :=
  if anyset (p_rts_flags pr) RTS_SENDING then p_sendto_e pr
  else if anyset (p_rts_flags pr) RTS_RECEIVING then p_getfrom_e pr
  else NONE.

Definition WILLRECEIVE (target : proc) (source_ep : Z) : bool :=
  RTS_ISSET target RTS_RECEIVING && negb (RTS_ISSET target RTS_SENDING) &&
  ((p_getfrom_e target =? ANY) || (p_getfrom_e target =? source_ep)).

(** Bit maps over privilege ids. *)
Definition BITCHUNK_BITS : Z := 32.
Definition get_sys_bit (map bit : Z) : bool := Z.testbit map bit.
Definition get_sys_bits (map bit : Z) : Z :=
  Z.land (Z.shiftr map (bit / BITCHUNK_BITS * BITCHUNK_BITS)) (Z.ones BITCHUNK_BITS).
Definition set_sys_bit (map bit : Z) : Z := Z.setbit map bit.
Definition unset_sys_bit (map bit : Z) : Z := Z.clearbit map bit.

Definition id_to_nr (id : Z) : K Z := pv ← get_privs id; mret (s_proc_nr pv).
Definition nr_to_id (nr : Z) : K Z := pv ← getpriv nr; mret (s_id pv).
Definition may_send_to (rp nr : Z) : K bool :=
  pv ← getpriv rp; id ← nr_to_id nr; mret (get_sys_bit (s_ipc_to pv) id).

(** Status codes are set only outside of a SENDREC. *)
Definition ipc_status_add (m : Z) (pr : proc) : proc :=
  if negb (anyset (p_misc_flags pr) MF_REPLY_PEND)
  then set_p_ipc_status (Z.lor (p_ipc_status pr) m) pr else pr.
Definition IPC_STATUS_ADD_CALL (p call : Z) : K unit :=
  updp p (ipc_status_add (IPC_STATUS_CALL_TO call)).
Definition IPC_STATUS_ADD_FLAGS (p flags : Z) : K unit :=
  updp p (ipc_status_add (IPC_STATUS_FLAGS flags)).
Definition IPC_STATUS_CLEAR (p : Z) : K unit := updp p (set_p_ipc_status 0).

(** [p->p_misc_flags |= f] and [p->p_misc_flags &= ~f] *)
Definition mf_set (p f : Z) : K unit :=
  updp p (fun pr => set_p_misc_flags (setf (p_misc_flags pr) f) pr).
Definition mf_unset (p f : Z) : K unit :=
  updp p (fun pr => set_p_misc_flags (clearf (p_misc_flags pr) f) pr).

Section environment.
Context `{KEnv}.
Definition read_tsc : K Z :=
  n ← gets tsc_reads; modify (set_tsc_reads (S n));; mret (read_tsc_64 n).
Definition get_monotonic : K Z :=
  n ← gets mono_reads; modify (set_mono_reads (S n));; mret (get_monotonic_n n).
Definition random : K Z :=
  n ← gets random_calls; modify (set_random_calls (S n));; mret (random_n n).
End environment.

(** ** Symbolic execution of the accesses *)

Section wp_access.
Implicit Types s : kstate.

Lemma wp_getp p pr (Q : proc -> kstate -> Prop) s :
  procs s !! p = Some pr -> Q pr s -> wp (getp p) Q s.
Proof. intros E HQ. unfold getp. wp_steps; done. Qed.

Lemma wp_updp p f pr (Q : unit -> kstate -> Prop) s :
  procs s !! p = Some pr -> Q tt (set_procs (<[p := f pr]> (procs s)) s) ->
  wp (updp p f) Q s.
Proof. intros E HQ. unfold updp. apply wp_bind. eapply wp_getp; [done|]. by apply wp_modify. Qed.

Lemma wp_get_privs i pv (Q : priv -> kstate -> Prop) s :
  privs s !! i = Some pv -> Q pv s -> wp (get_privs i) Q s.
Proof. intros E HQ. unfold get_privs. wp_steps; done. Qed.

Lemma wp_getpriv p pr i pv (Q : priv -> kstate -> Prop) s :
  procs s !! p = Some pr -> p_priv pr = Some i -> privs s !! i = Some pv -> Q pv s ->
  wp (getpriv p) Q s.
Proof.
  intros E Ei Epv HQ. unfold getpriv, priv_ptr. wp_steps. eapply wp_getp; [done|].
  wp_steps; [done|]. by eapply wp_get_privs.
Qed.

Lemma wp_upd_privs i f pv (Q : unit -> kstate -> Prop) s :
  privs s !! i = Some pv -> Q tt (set_privs (<[i := f pv]> (privs s)) s) ->
  wp (upd_privs i f) Q s.
Proof. intros E HQ. unfold upd_privs. apply wp_bind. eapply wp_get_privs; [done|]. by apply wp_modify. Qed.

Lemma wp_updpriv p pr i pv f (Q : unit -> kstate -> Prop) s :
  procs s !! p = Some pr -> p_priv pr = Some i -> privs s !! i = Some pv ->
  Q tt (set_privs (<[i := f pv]> (privs s)) s) -> wp (updpriv p f) Q s.
Proof.
  intros E Ei Epv HQ. unfold updpriv, priv_ptr. wp_steps. eapply wp_getp; [done|].
  wp_steps; [done|]. by eapply wp_upd_privs.
Qed.
(** A loop over distinct slots that updates each of them. *)
Lemma wp_foreach_updp l (f : Z -> proc -> proc) s (Q : unit -> kstate -> Prop) :
  NoDup l -> (forall p, p ∈ l -> is_Some (procs s !! p)) ->
  (forall m, (forall p, p ∈ l -> m !! p = f p <$> procs s !! p) ->
             (forall p, p ∉ l -> m !! p = procs s !! p) -> Q tt (set_procs m s)) ->
  wp (foreach l (fun p => updp p (f p))) Q s.
Proof.
  intros Hnd. revert s. induction Hnd as [|x l Hx Hnd IH]; intros s Hs HQ.
  { cbn [foreach]. apply wp_ret. replace s with (set_procs (procs s) s) by by destruct s.
    apply HQ; [|done]. intros p Hp. by apply elem_of_nil in Hp. }
  cbn [foreach]. destruct (Hs x ltac:(left)) as [prx Hprx].
  apply wp_bind. eapply wp_updp; [done|]. apply IH.
  - intros p Hp. simpl. rewrite lookup_insert_ne by (by intros ->). apply Hs. by right.
  - intros m H1 H2. simpl in *. apply HQ.
    + intros p [->|Hp]%elem_of_cons.
      * rewrite H2, lookup_insert_eq, Hprx by done. done.
      * rewrite H1, lookup_insert_ne by (done || by intros ->). done.
    + intros p [Hp1 Hp2]%not_elem_of_cons. rewrite H2, lookup_insert_ne by done. done.
Qed.

Lemma wp_foreach_upd_privs l (f : Z -> priv -> priv) s (Q : unit -> kstate -> Prop) :
  NoDup l -> (forall p, p ∈ l -> is_Some (privs s !! p)) ->
  (forall m, (forall p, p ∈ l -> m !! p = f p <$> privs s !! p) ->
             (forall p, p ∉ l -> m !! p = privs s !! p) -> Q tt (set_privs m s)) ->
  wp (foreach l (fun p => upd_privs p (f p))) Q s.
Proof.
  intros Hnd. revert s. induction Hnd as [|x l Hx Hnd IH]; intros s Hs HQ.
  { cbn [foreach]. apply wp_ret. replace s with (set_privs (privs s) s) by by destruct s.
    apply HQ; [|done]. intros p Hp. by apply elem_of_nil in Hp. }
  cbn [foreach]. destruct (Hs x ltac:(left)) as [prx Hprx].
  apply wp_bind. eapply wp_upd_privs; [done|]. apply IH.
  - intros p Hp. simpl. rewrite lookup_insert_ne by (by intros ->). apply Hs. by right.
  - intros m H1 H2. simpl in *. apply HQ.
    + intros p [->|Hp]%elem_of_cons.
      * rewrite H2, lookup_insert_eq, Hprx by done. done.
      * rewrite H1, lookup_insert_ne by (done || by intros ->). done.
    + intros p [Hp1 Hp2]%not_elem_of_cons. rewrite H2, lookup_insert_ne by done. done.
Qed.
End wp_access.

Section wp_env.
Context `{KEnv}.
Lemma wp_read_tsc (Q : Z -> kstate -> Prop) s :
  Q (read_tsc_64 (tsc_reads s)) (set_tsc_reads (S (tsc_reads s)) s) -> wp read_tsc Q s.
Proof. intros HQ. unfold read_tsc. wp_steps. done. Qed.

Lemma wp_random (Q : Z -> kstate -> Prop) s :
  Q (random_n (random_calls s)) (set_random_calls (S (random_calls s)) s) -> wp random Q s.
Proof. intros HQ. unfold random. wp_steps. done. Qed.
End wp_env.
