(* ===== verification/KSched.v ===== *)
(** * Kernel scheduling: run queues, lottery and runtime flags (kernel/proc.c)

    [enqueue], [enqueue_head], [dequeue] on the linked run queues, the macros
    [RTS_SET], [RTS_UNSET], [RTS_SETFLAGS] that keep runtime flags and queues
    in step, [pick_proc] with its priority and lottery branches,
    [ProcessSetPriority], the process table's initialisation and the endpoint
    lookup. The configuration is that of the repository: one cpu, sanity
    checks off, assertions on. *)

From S2P Require Import Prelude KTypes.
From Stdlib Require Import String Ascii.
From stdpp Require Import strings.
#[local] Open Scope Z_scope.

Section ksched.
Context `{KEnv}.

(** ** The run queues *)

(** [rdy_head[q]] with the array's bounds. *)
Definition chk_q (q : Z) : K unit :=
  if (0 <=? q) && (q <? NR_SCHED_QUEUES) then skip else fail OutOfBounds.
Definition rdy_head (q : Z) : K (option Z) := chk_q q;; gets (fun s => run_q_head s !! q).
Definition rdy_tail (q : Z) : K (option Z) := chk_q q;; gets (fun s => run_q_tail s !! q).
Definition set_rdy_head (q : Z) (p : option Z) : K unit :=
  chk_q q;;
  modify (fun s => set_run_q_head (partial_alter (fun _ => p) q (run_q_head s)) s).
Definition set_rdy_tail (q : Z) (p : option Z) : K unit :=
  chk_q q;;
  modify (fun s => set_run_q_tail (partial_alter (fun _ => p) q (run_q_tail s)) s).

(** The location [xpp] points to: a queue head or a [p_nextready] field. *)
Definition read_xpp (q : Z) (prev : option Z) : K (option Z) :=
  match prev with
  | None => rdy_head q
  | Some p => pr ← getp p; mret (p_nextready pr)
  end.
Definition write_xpp (q : Z) (prev v : option Z) : K unit :=
  match prev with
  | None => set_rdy_head q v
  | Some p => updp p (set_p_nextready v)
  end.

(** The search loop of [dequeue]; [prev] is [prev_xp]. *)
Fixpoint dequeue_loop (fuel : nat) (q rp : Z) (prev : option Z) : K unit :=
  match fuel with
  | O => fail OutOfFuel
  | S fuel' =>
      x ← read_xpp q prev;
      match x with
      | None => skip
      | Some x =>
          if x =? rp then
            pr ← getp x;
            write_xpp q prev (p_nextready pr);;
            tail ← rdy_tail q;
            if bool_decide (tail = Some rp) then set_rdy_tail q prev else skip
          else dequeue_loop fuel' q rp (Some x)
      end
  end.

(** At most every process of the table is on a queue. *)
Definition queue_fuel : nat := 263.
Arguments queue_fuel : simpl never.

Definition dequeue (rp : Z) : K unit :=
  pr ← getp rp;
  let q := p_priority pr in
  c_assert (proc_ptr_ok pr);;
  c_assert (negb (proc_is_runnable pr));;
  when (iskerneln rp) (pv ← getpriv rp; c_assert (s_stack_guard pv =? STACK_GUARD));;
  dequeue_loop queue_fuel q rp None;;
  (* process accounting for scheduling *)
  updp rp (fun pr => set_a_dequeues (u32 (a_dequeues pr + 1)) pr);;
  pr ← getp rp;
  when (negb (a_enter_queue pr =? 0))
    (tsc ← read_tsc;
     let tsc_delta := tsc - a_enter_queue pr in
     updp rp (fun pr => set_a_time_in_queue (a_time_in_queue pr + tsc_delta) pr);;
     updp rp (set_a_enter_queue 0));;
  (* lottery scheduling *)
  t ← gets total_tickets;
  t' ← lift (isub t (p_tickets pr));
  modify (set_total_tickets t').

(** RTS_SET: set flags and dequeue if the process was runnable. *)
Definition RTS_SET (rp f : Z) : K unit :=
  pr ← getp rp;
  let rts := p_rts_flags pr in
  updp rp (set_p_rts_flags (setf rts f));;
  pr' ← getp rp;
  if (rts =? 0) && negb (proc_is_runnable pr') then dequeue rp else skip.

(** Add [rp] to the tail of queue [q] ... *)
Definition append_ready (q rp : Z) : K unit :=
  h ← rdy_head q;
  match h with
  | None =>
      set_rdy_head q (Some rp);; set_rdy_tail q (Some rp);;
      updp rp (set_p_nextready None)
  | Some _ =>
      tl ← rdy_tail q;
      tl ← deref tl;
      updp tl (set_p_nextready (Some rp));;
      set_rdy_tail q (Some rp);;
      updp rp (set_p_nextready None)
  end.

(** ... or to its head. *)
Definition push_ready (q rp : Z) : K unit :=
  h ← rdy_head q;
  match h with
  | None =>
      set_rdy_head q (Some rp);; set_rdy_tail q (Some rp);;
      updp rp (set_p_nextready None)
  | Some _ =>
      updp rp (set_p_nextready h);;
      set_rdy_head q (Some rp)
  end.

Definition enqueue (rp : Z) : K unit :=
  pr ← getp rp;
  let q := p_priority pr in
  c_assert (proc_is_runnable pr);;
  c_assert (0 <=? q);;
  append_ready q rp;;
  (* a process of higher priority than the current one preempts it *)
  p ← gets proc_ptr;
  ppr ← getp p;
  pr ← getp rp;
  (if p_priority pr <? p_priority ppr then
     pv ← getpriv p;
     when (anyset (s_flags pv) PREEMPTIBLE) (RTS_SET p RTS_PREEMPTED)
   else skip);;
  (* make note of when this process was added to queue *)
  tsc ← read_tsc;
  updp p (set_a_enter_queue tsc);;
  (* lottery scheduling *)
  t ← gets total_tickets;
  pr ← getp rp;
  t' ← lift (iadd t (p_tickets pr));
  modify (set_total_tickets t').

(** Put a preempted process back at the front of its queue. *)
Definition enqueue_head (rp : Z) : K unit :=
  pr ← getp rp;
  let q := p_priority pr in
  c_assert (proc_ptr_ok pr);;
  c_assert (proc_is_runnable pr);;
  c_assert (negb (p_cpu_time_left pr =? 0));;
  c_assert (0 <=? q);;
  push_ready q rp;;
  tsc ← read_tsc;
  p ← gets proc_ptr;
  updp p (set_a_enter_queue tsc);;
  updp rp (fun pr => set_a_preempted (u32 (a_preempted pr + 1))
                       (set_a_dequeues (u32 (a_dequeues pr - 1)) pr));;
  t ← gets total_tickets;
  pr ← getp rp;
  t' ← lift (iadd t (p_tickets pr));
  modify (set_total_tickets t').

(** RTS_UNSET: clear flags and enqueue if the process became runnable. *)
Definition RTS_UNSET (rp f : Z) : K unit :=
  pr ← getp rp;
  let rts := p_rts_flags pr in
  updp rp (set_p_rts_flags (clearf rts f));;
  pr' ← getp rp;
  if negb (rts =? 0) && proc_is_runnable pr' then enqueue rp else skip.

(** RTS_SETFLAGS: set flags to this value. *)
Definition RTS_SETFLAGS (rp f : Z) : K unit :=
  pr ← getp rp;
  when (proc_is_runnable pr && negb (f =? 0)) (dequeue rp);;
  updp rp (set_p_rts_flags f).

(** ** Lottery tickets *)

Definition ProcessSetPriority (rp n : Z) : K unit :=
  pr ← getp rp;
  let tickets := p_tickets pr in
  if 0 <? n then
    sum ← lift (iadd n tickets);
    if (20 <? sum) || (tickets =? 20) then updp rp (set_p_tickets 20)
    else
      updp rp (set_p_tickets (tickets + n));;
      t ← gets total_tickets;
      t' ← lift (iadd t n);
      modify (set_total_tickets t')
  else
    sum ← lift (iadd tickets n);
    if (sum <? 0) || (tickets =? 0) then updp rp (set_p_tickets 0)
    else
      updp rp (set_p_tickets (tickets + n));;
      t ← gets total_tickets;
      t' ← lift (iadd t n);
      modify (set_total_tickets t').

(** ** Choosing a process *)

(** The chosen process, billed when it is billable. *)
Definition picked (rp : Z) : K (option Z) :=
  pr ← getp rp;
  c_assert (proc_is_runnable pr);;
  pv ← getpriv rp;
  when (anyset (s_flags pv) BILLABLE) (modify (set_bill_ptr (Some rp)));;
  mret (Some rp).

(** style 0: the head of the first queue that is not empty. *)
Fixpoint pick_standard (n : nat) (q : Z) : K (option Z) :=
  match n with
  | O => mret None
  | S n' =>
      rp ← rdy_head q;
      match rp with
      | None => pick_standard n' (q + 1)
      | Some rp => picked rp
      end
  end.

(** The inner loop of the lottery: [rp] walks one queue. *)
Fixpoint lottery_queue (fuel : nat) (chosen sum : Z) (rp : option Z) : K (Z + Z) :=
  match fuel with
  | O => fail OutOfFuel
  | S fuel' =>
      match rp with
      | None => mret (inl sum)
      | Some rp =>
          pr ← getp rp;
          sum' ← lift (iadd sum (p_tickets pr));
          if chosen <=? sum' then mret (inr rp)
          else lottery_queue fuel' chosen sum' (p_nextready pr)
      end
  end.

(** The outer loop of the lottery over the queues. *)
Fixpoint lottery_queues (n : nat) (chosen sum q : Z) : K (option Z) :=
  match n with
  | O => mret None
  | S n' =>
      h ← rdy_head q;
      r ← lottery_queue queue_fuel chosen sum h;
      match r with
      | inl sum' => lottery_queues n' chosen sum' (q + 1)
      | inr rp => picked rp
      end
  end.

(** The local variable [rdy_head] of [pick_proc]: the standard branch assigns
    it; the lottery branch reads it without an assignment. *)
Inductive rdy_head_var := RdyIndeterminate | RdyLocalRunq.

Definition pick_proc (rdy : rdy_head_var) : K (option Z) :=
  st ← gets style;
  if st =? 0 then pick_standard (Z.to_nat NR_SCHED_QUEUES) 0
  else
    total ← gets total_tickets;
    if total <=? 0 then mret None
    else
      r ← random;
      let chosen_ticket := Z.rem r total + 1 in
      match rdy with
      | RdyIndeterminate => fail Uninit
      | RdyLocalRunq => lottery_queues (Z.to_nat NR_SCHED_QUEUES) chosen_ticket 0 0
      end.

(** ** Endpoints *)

Definition isokendpt_f (e : Z) (fatalflag : bool) : K (bool * Z) :=
  let p := _ENDPOINT_P e in
  ok ← (if isokprocn p then
          pr ← getp p; mret (negb (isemptyp pr) && (p_endpoint pr =? e))
        else mret false);
  if negb ok && fatalflag then fail Panic else mret (ok, p).
Definition isokendpt (e : Z) : K (bool * Z) := isokendpt_f e false.
Definition okendpt (e : Z) : K Z := r ← isokendpt_f e true; mret (snd r).

Definition endpoint_lookup (e : Z) : K (option Z) :=
  r ← isokendpt e;
  mret (let '(ok, n) := (r : bool * Z) in if ok then Some n else None).

(** ** Scheduling accounting *)

Definition reset_proc_accounting (p : Z) : K unit :=
  updp p (fun pr =>
    set_a_enter_queue 0 (set_a_time_in_queue 0 (set_a_dequeues 0
      (set_a_ipc_async 0 (set_a_ipc_sync 0 (set_a_preempted 0 pr)))))).

(** ** Initialisation *)

(** The digits written by [set_idle_name]. *)
Fixpoint idle_digits (cs : list Z) (n : Z) (p_z : bool) : list Z :=
  match cs with
  | [] => []
  | c :: cs' =>
      let digit := n / c in
      let n' := n - digit * c in
      if p_z || negb (digit =? 0) || (c =? 1)
      then digit :: idle_digits cs' n' true
      else idle_digits cs' n' p_z
  end.
Definition set_idle_name (n : Z) : string :=
  let n := if 999 <? n then 999 else n in
  String.append "idle"
    (string_of_list_ascii (map (fun d => ascii_of_nat (Z.to_nat (48 + d)))
                               (idle_digits [100; 10; 1] n false))).

Definition init_proc_slot (i : Z) (rp : proc) : proc :=
  set_p_rts_flags RTS_SLOT_FREE (set_p_magic PMAGIC (set_p_nr i
    (set_p_endpoint (_ENDPOINT 0 i) (set_p_scheduler None (set_p_priority 0
      (set_p_quantum_size_ms 0 (set_p_tickets 5 rp))))))).

Definition init_priv_slot (i : Z) (sp : priv) : priv :=
  set_s_proc_nr NONE (set_s_id i (set_s_sig_mgr NONE (set_s_bak_sig_mgr NONE sp))).

Definition proc_init : K unit :=
  foreach slots (fun i => updp i (init_proc_slot i));;
  foreach (seqZ 0 NR_SYS_PROCS) (fun i => upd_privs i (init_priv_slot i));;
  upd_privs IDLE_PRIV (set_s_flags IDL_F);;
  updp IDLE_SLOT (fun ip =>
    set_p_name (set_idle_name 0) (set_p_rts_flags (setf (p_rts_flags ip) RTS_PROC_STOP)
      (set_p_priv (Some IDLE_PRIV) (set_p_endpoint IDLE ip)))).

End ksched.
