(* ===== verification/KSchedFacts.v ===== *)
(** * The scheduling invariant and its preservation

    The linked run queues are related to lists of processes ([seg]); the
    invariant [sched_inv] says that every runnable process is on the queue of
    its priority and nothing else is, and that [total_tickets] is the sum of the
    tickets of the runnable processes. *)

From S2P Require Import Prelude KTypes KSched.
#[local] Open Scope Z_scope.

(** ** Linked lists through [p_nextready] *)

Definition nx (m : gmap Z proc) (p : Z) : option (option Z) := p_nextready <$> m !! p.

(** From pointer [h], the cells [l], ending at pointer [e]. *)
Fixpoint seg (m : gmap Z proc) (h : option Z) (l : list Z) (e : option Z) : Prop :=
  match l with
  | [] => h = e
  | p :: l' => h = Some p /\ exists n, nx m p = Some n /\ seg m n l' e
  end.

Lemma seg_app m h l1 l2 e :
  seg m h (l1 ++ l2) e <-> exists h', seg m h l1 h' /\ seg m h' l2 e.
Proof.
  revert h. induction l1 as [|p l1 IH]; intros h; simpl; [naive_solver|].
  setoid_rewrite IH. naive_solver.
Qed.

Lemma seg_frame m m' h l e :
  (forall p, p ∈ l -> nx m' p = nx m p) -> seg m h l e -> seg m' h l e.
Proof.
  revert h. induction l as [|p l IH]; intros h Hf; simpl; [done|].
  intros (-> & n & Hn & Hs). split; [done|]. exists n. rewrite Hf by left.
  split; [done|]. apply IH; [|done]. intros x Hx. apply Hf. by right.
Qed.

Lemma seg_snoc m h l p e :
  seg m h (l ++ [p]) e <-> seg m h l (Some p) /\ nx m p = Some e.
Proof. rewrite seg_app. simpl. naive_solver. Qed.

Lemma nx_insert m p pr : nx (<[p := pr]> m) p = Some (p_nextready pr).
Proof. unfold nx. by rewrite lookup_insert_eq. Qed.

Lemma nx_insert_ne m p p' pr : p <> p' -> nx (<[p := pr]> m) p' = nx m p'.
Proof. intros. unfold nx. by rewrite lookup_insert_ne. Qed.

(** Updating a field other than [p_nextready]. *)
Lemma nx_insert_same m p pr pr' p' :
  m !! p = Some pr -> p_nextready pr' = p_nextready pr -> nx (<[p := pr']> m) p' = nx m p'.
Proof.
  intros Hp Hn. destruct (decide (p = p')) as [<-|]; [|by apply nx_insert_ne].
  rewrite nx_insert. unfold nx. rewrite Hp. simpl. by f_equal.
Qed.

(** ** What scheduling may change *)

(** A process up to its queue link, its accounting and the preemption bit. *)
Definition ev (pr : proc) : proc :=
  set_p_rts_flags (clearf (p_rts_flags pr) RTS_PREEMPTED)
    (set_p_nextready None (set_a_dequeues 0 (set_a_enter_queue 0
      (set_a_time_in_queue 0 (set_a_preempted 0 pr))))).

(** A kernel state up to the scheduling data. *)
Definition view (s : kstate) : kstate :=
  set_procs (ev <$> procs s) (set_run_q_head ∅ (set_run_q_tail ∅
    (set_total_tickets 0 (set_tsc_reads 0%nat s)))).

Lemma view_procs s p : procs (view s) !! p = ev <$> procs s !! p.
Proof. simpl. by rewrite lookup_fmap. Qed.

(** Two states with the same view have corresponding processes. *)
Lemma view_lookup s s' p pr :
  view s' = view s -> procs s !! p = Some pr ->
  exists pr', procs s' !! p = Some pr' /\ ev pr' = ev pr.
Proof.
  intros E Hp. pose proof (view_procs s p) as H1. pose proof (view_procs s' p) as H2.
  rewrite E, H1, Hp in H2. simpl in H2.
  destruct (procs s' !! p) as [pr'|]; [|done].
  exists pr'. split; [done|]. simpl in H2. congruence.
Qed.

Lemma view_set_procs m s : view (set_procs m s) = set_procs (ev <$> m) (view s).
Proof. done. Qed.

Lemma procs_view s : procs (view s) = ev <$> procs s.
Proof. done. Qed.

Lemma set_procs_id s : set_procs (procs s) s = s.
Proof. by destruct s. Qed.

Lemma view_update s p pr pr' :
  procs s !! p = Some pr -> ev pr' = ev pr ->
  view (set_procs (<[p := pr']> (procs s)) s) = view s.
Proof.
  intros Hp He. rewrite view_set_procs, fmap_insert, He, insert_id.
  - apply (set_procs_id (view s)).
  - by rewrite lookup_fmap, Hp.
Qed.

Lemma view_insert s s' p pr pr' :
  view s' = view s -> ev pr' = ev pr ->
  view (set_procs (<[p := pr']> (procs s')) s') = view (set_procs (<[p := pr]> (procs s)) s).
Proof.
  intros E He. rewrite !view_set_procs, !fmap_insert, He, <- !procs_view. by rewrite E.
Qed.

(** ** The invariant *)

Definition runnable (pr : proc) : Prop := p_rts_flags pr = 0.

(** The tickets a process contributes to the lottery. *)
Definition weight (m : gmap Z proc) (p : Z) : Z :=
  match m !! p with
  | Some pr => if proc_is_runnable pr then p_tickets pr else 0
  | None => 0
  end.
Definition zsum (l : list Z) : Z := foldr Z.add 0 l.
Arguments zsum : simpl never.
Definition tsum (m : gmap Z proc) : Z := zsum (weight m <$> slots).

(** [priv(p)] is valid, with the stack guard of a kernel task intact. *)
Definition has_priv (s : kstate) (p : Z) (pr : proc) : Prop :=
  exists i pv, p_priv pr = Some i /\ privs s !! i = Some pv /\
    (iskerneln p = true -> s_stack_guard pv = STACK_GUARD).

(** What holds of each entry of the table at all times. *)
Record proc_ok (s : kstate) (p : Z) (pr : proc) : Prop := {
  po_magic : p ∈ slots -> p_magic pr = PMAGIC;
  po_slot : clearf (p_rts_flags pr) RTS_PREEMPTED = 0 -> p ∈ slots;
  po_prio : 0 <= p_priority pr < NR_SCHED_QUEUES;
  po_tickets : 0 <= p_tickets pr <= 20;
  po_priv : RTS_ISSET pr RTS_SLOT_FREE = false -> has_priv s p pr;
}.

(** The list [l] is what queue [q] holds. *)
Definition queue_wf (s : kstate) (q : Z) (l : list Z) : Prop :=
  seg (procs s) (run_q_head s !! q) l None /\
  (l <> [] -> run_q_tail s !! q = last l) /\ NoDup l.

(** The queues hold [Q]; every member is a process of its priority. *)
Record queues (s : kstate) (Q : Z -> list Z) : Prop := {
  qs_wf : forall q, 0 <= q < NR_SCHED_QUEUES -> queue_wf s q (Q q);
  qs_prio : forall q p, p ∈ Q q -> p ∈ slots /\
              exists pr, procs s !! p = Some pr /\ p_priority pr = q;
}.

(** The static part of the invariant. *)
Record table_ok (s : kstate) : Prop := {
  to_slots : forall p, p ∈ slots -> is_Some (procs s !! p);
  to_proc : forall p pr, procs s !! p = Some pr -> proc_ok s p pr;
  to_cur : exists pr, procs s !! proc_ptr s = Some pr /\ has_priv s (proc_ptr s) pr;
}.

(** [p] is runnable at priority [q]. *)
Definition ready_at (s : kstate) (p q : Z) : Prop :=
  exists pr, procs s !! p = Some pr /\ runnable pr /\ p_priority pr = q.

Definition queued_runnable (s : kstate) (Q : Z -> list Z) : Prop :=
  forall q p, p ∈ Q q <-> ready_at s p q.

(** [k] tickets are queued but not counted yet. *)
Definition sched_invQ (s : kstate) (Q : Z -> list Z) (k : Z) : Prop :=
  table_ok s /\ total_tickets s + k = tsum (procs s) /\ queues s Q /\ queued_runnable s Q.

Definition sched_inv (s : kstate) : Prop := exists Q, sched_invQ s Q 0.

(** The queues without the processes that are not runnable. *)
Definition runnable_at (s : kstate) (p : Z) : bool :=
  match procs s !! p with Some pr => proc_is_runnable pr | None => false end.
Definition qfilter (s : kstate) (Q : Z -> list Z) (q : Z) : list Z :=
  filter (fun p => runnable_at s p = true) (Q q).

(** ** Tickets *)

Lemma zsum_cons x l : zsum (x :: l) = x + zsum l.
Proof. done. Qed.

Lemma zsum_app l1 l2 : zsum (l1 ++ l2) = zsum l1 + zsum l2.
Proof. unfold zsum. induction l1 as [|x l1 IH]; simpl; [done|]. rewrite IH. lia. Qed.

Lemma zsum_ext (f g : Z -> Z) l : (forall x, x ∈ l -> f x = g x) -> zsum (f <$> l) = zsum (g <$> l).
Proof.
  intros Hf. f_equal. induction l as [|x l IH]; [done|]. rewrite !fmap_cons.
  rewrite Hf by left. rewrite IH; [done|]. intros y Hy. apply Hf. by right.
Qed.

(** Changing one summand of a sum without duplicates. *)
Lemma zsum_change (f g : Z -> Z) l p :
  NoDup l -> p ∈ l -> (forall x, x ∈ l -> x <> p -> g x = f x) ->
  zsum (g <$> l) = zsum (f <$> l) - f p + g p.
Proof.
  intros Hnd. revert p. induction Hnd as [|x l Hx Hnd IH]; intros p Hp Hfg.
  { by apply elem_of_nil in Hp. }
  rewrite !fmap_cons, !zsum_cons. apply elem_of_cons in Hp as [->|Hp].
  - rewrite (zsum_ext g f l); [lia|].
    intros y Hy. apply Hfg; [by right|]. intros ->. done.
  - rewrite (IH p Hp).
    + rewrite (Hfg x); [lia | left |]. intros ->. done.
    + intros y Hy. apply Hfg. by right.
Qed.

Lemma zsum_bound (f : Z -> Z) l b :
  (forall x, x ∈ l -> 0 <= f x <= b) -> 0 <= zsum (f <$> l) <= b * Z.of_nat (length l).
Proof.
  induction l as [|x l IH]; intros Hf; [unfold zsum; simpl; lia|]. rewrite fmap_cons, zsum_cons. cbn [length].
  pose proof (Hf x ltac:(left)). destruct IH as [IH1 IH2].
  { intros y Hy. apply Hf. by right. }
  lia.
Qed.

Lemma slots_NoDup : NoDup slots.
Proof. apply NoDup_seqZ. Qed.

Lemma weight_frame m m' p :
  (forall pr, m !! p = Some pr -> exists pr', m' !! p = Some pr' /\
     p_rts_flags pr' = p_rts_flags pr /\ p_tickets pr' = p_tickets pr) ->
  is_Some (m !! p) -> weight m' p = weight m p.
Proof.
  intros Hf [pr Hp]. destruct (Hf pr Hp) as (pr' & Hp' & E1 & E2).
  unfold weight, proc_is_runnable. by rewrite Hp, Hp', E1, E2.
Qed.

(** A change that keeps the flags and tickets keeps the sum. *)
Lemma tsum_insert_same m p pr pr' :
  m !! p = Some pr -> p_rts_flags pr' = p_rts_flags pr -> p_tickets pr' = p_tickets pr ->
  tsum (<[p := pr']> m) = tsum m.
Proof.
  intros Hp E1 E2. apply zsum_ext. intros x _. unfold weight.
  destruct (decide (x = p)) as [->|].
  - rewrite lookup_insert_eq, Hp. unfold proc_is_runnable. by rewrite E1, E2.
  - by rewrite lookup_insert_ne.
Qed.

Lemma tsum_insert m p pr pr' :
  p ∈ slots -> m !! p = Some pr ->
  tsum (<[p := pr']> m) = tsum m - weight m p
    + (if proc_is_runnable pr' then p_tickets pr' else 0).
Proof.
  intros Hs Hp. unfold tsum. rewrite (zsum_change (weight m) (weight (<[p := pr']> m)) slots p).
  - f_equal. unfold weight. by rewrite lookup_insert_eq.
  - apply slots_NoDup.
  - done.
  - intros x _ Hx. unfold weight. by rewrite lookup_insert_ne.
Qed.

(** No sum of tickets of the table overflows. *)
Lemma tsum_bound s : table_ok s -> 0 <= tsum (procs s) <= 5220.
Proof.
  intros Ht. pose proof (zsum_bound (weight (procs s)) slots 20) as Hb.
  unfold tsum. destruct Hb as [? Hb].
  - intros x _. unfold weight. destruct (procs s !! x) as [pr|] eqn:E; [|lia].
    pose proof (po_tickets _ _ _ (to_proc _ Ht _ _ E)). destruct (proc_is_runnable pr); lia.
  - split; [done|]. etransitivity; [exact Hb|]. unfold slots. rewrite length_seqZ. lia.
Qed.

(** ** Operations that change only links *)

Record links_only (s s' : kstate) (q : Z) (l : list Z) : Prop := {
  lo_view : view s' = view s;
  lo_total : total_tickets s' = total_tickets s;
  lo_flags : forall p pr, procs s !! p = Some pr -> exists pr',
    procs s' !! p = Some pr' /\ p_rts_flags pr' = p_rts_flags pr;
  lo_nx : forall p, p ∉ l -> nx (procs s') p = nx (procs s) p;
  lo_head : forall q', q' <> q -> run_q_head s' !! q' = run_q_head s !! q';
  lo_tail : forall q', q' <> q -> run_q_tail s' !! q' = run_q_tail s !! q';
}.

Lemma links_refl s q l : links_only s s q l.
Proof. split; eauto. Qed.

Lemma links_trans s1 s2 s3 q l :
  links_only s1 s2 q l -> links_only s2 s3 q l -> links_only s1 s3 q l.
Proof.
  intros [V1 T1 P1 N1 H1 L1] [V2 T2 P2 N2 H2 L2]. split; try congruence.
  - intros p pr Hp. destruct (P1 p pr Hp) as (pr2 & Hp2 & E2).
    destruct (P2 p pr2 Hp2) as (pr3 & Hp3 & E3). exists pr3. split; [done|congruence].
  - intros p Hp. rewrite N2, N1; done.
  - intros q' Hq. rewrite H2, H1; done.
  - intros q' Hq. rewrite L2, L1; done.
Qed.

Lemma links_upd s q l p pr pr' :
  procs s !! p = Some pr -> ev pr' = ev pr -> p_rts_flags pr' = p_rts_flags pr ->
  p ∈ l \/ p_nextready pr' = p_nextready pr ->
  links_only s (set_procs (<[p := pr']> (procs s)) s) q l.
Proof.
  intros Hp He Hfl Hl. split; try done.
  - by eapply view_update.
  - intros p' pr1 Hp'. simpl. destruct (decide (p = p')) as [<-|].
    + rewrite lookup_insert_eq. simplify_eq. eauto.
    + rewrite lookup_insert_ne by done. eauto.
  - intros p' Hp'. simpl. destruct Hl as [Hl|Hl].
    + rewrite nx_insert_ne; [done|]. intros ->. done.
    + by eapply nx_insert_same.
Qed.

Lemma links_set_head s q l v :
  links_only s (set_run_q_head (partial_alter (fun _ => v) q (run_q_head s)) s) q l.
Proof.
  split; try done; simpl; [eauto|]. intros q' Hq'. by rewrite lookup_partial_alter_ne.
Qed.

Lemma links_set_tail s q l v :
  links_only s (set_run_q_tail (partial_alter (fun _ => v) q (run_q_tail s)) s) q l.
Proof.
  split; try done; simpl; [eauto|]. intros q' Hq'. by rewrite lookup_partial_alter_ne.
Qed.

Section runq.
Context (q : Z) (Hq : 0 <= q < NR_SCHED_QUEUES).

Lemma wp_chk_q (Q : unit -> kstate -> Prop) s : Q tt s -> wp (chk_q q) Q s.
Proof using Hq.
  intros HQ. unfold chk_q. rewrite (proj2 (Z.leb_le _ _)), (proj2 (Z.ltb_lt _ _)) by lia. done.
Qed.

Lemma wp_rdy_head (Q : option Z -> kstate -> Prop) s :
  Q (run_q_head s !! q) s -> wp (rdy_head q) Q s.
Proof using Hq. intros HQ. unfold rdy_head. wp_steps. apply wp_chk_q. by wp_steps. Qed.

Lemma wp_rdy_tail (Q : option Z -> kstate -> Prop) s :
  Q (run_q_tail s !! q) s -> wp (rdy_tail q) Q s.
Proof using Hq. intros HQ. unfold rdy_tail. wp_steps. apply wp_chk_q. by wp_steps. Qed.

Lemma wp_set_rdy_head v (Q : unit -> kstate -> Prop) s :
  Q tt (set_run_q_head (partial_alter (fun _ => v) q (run_q_head s)) s) ->
  wp (set_rdy_head q v) Q s.
Proof using Hq. intros HQ. unfold set_rdy_head. wp_steps. apply wp_chk_q. by wp_steps. Qed.

Lemma wp_set_rdy_tail v (Q : unit -> kstate -> Prop) s :
  Q tt (set_run_q_tail (partial_alter (fun _ => v) q (run_q_tail s)) s) ->
  wp (set_rdy_tail q v) Q s.
Proof using Hq. intros HQ. unfold set_rdy_tail. wp_steps. apply wp_chk_q. by wp_steps. Qed.

(** Reading and writing through [xpp] after the cells [pre]. *)
Lemma wp_read_xpp s pre h (Q : option Z -> kstate -> Prop) :
  seg (procs s) (run_q_head s !! q) pre h -> Q h s -> wp (read_xpp q (last pre)) Q s.
Proof using Hq.
  intros Hs HQ. destruct pre as [|p pre _] using rev_ind; simpl.
  { apply wp_rdy_head. simpl in Hs. by rewrite Hs. }
  rewrite last_snoc. simpl. apply seg_snoc in Hs as [_ Hn]. unfold nx in Hn.
  destruct (procs s !! p) as [pr|] eqn:E; [|done]. simpl in Hn.
  apply wp_bind. eapply wp_getp; [done|]. apply wp_ret. by injection Hn as ->.
Qed.

Lemma wp_write_xpp s pre h v (Q : unit -> kstate -> Prop) :
  seg (procs s) (run_q_head s !! q) pre h -> NoDup pre ->
  (forall s', links_only s s' q pre -> run_q_tail s' = run_q_tail s ->
     seg (procs s') (run_q_head s' !! q) pre v -> Q tt s') ->
  wp (write_xpp q (last pre) v) Q s.
Proof using Hq.
  intros Hs Hnd HQ. destruct pre as [|p pre _] using rev_ind.
  { simpl. apply wp_set_rdy_head. apply HQ; [apply links_set_head | done |].
    simpl. by rewrite lookup_partial_alter_eq. }
  rewrite last_snoc. apply seg_snoc in Hs as [Hs Hn]. apply NoDup_app in Hnd as (_ & Hd & _).
  assert (p ∉ pre) as Hp. { intros Hp. apply (Hd p Hp). left. }
  unfold nx in Hn. destruct (procs s !! p) as [pr|] eqn:E; [|done].
  simpl. eapply wp_updp; [done|]. apply HQ.
  - eapply links_upd; [done..|]. left. apply elem_of_app. right. left.
  - done.
  - simpl. apply seg_snoc. rewrite nx_insert. split; [|done].
    eapply seg_frame; [|exact Hs]. intros x Hx. rewrite nx_insert_ne; [done|]. by intros ->.
Qed.
End runq.

(** ** dequeue's search loop removes the process from its queue *)

Lemma filter_ne_notin (l : list Z) p : p ∉ l -> filter (fun x => x <> p) l = l.
Proof. intros Hp. apply list_filter_all. apply Forall_forall. intros x Hx ->. done. Qed.

Lemma filter_ne_head p (l : list Z) :
  NoDup (p :: l) -> filter (fun x => x <> p) (p :: l) = l.
Proof.
  intros Hnd. inversion Hnd; subst. rewrite filter_cons_False by (intros H'; by destruct H').
  by apply filter_ne_notin.
Qed.

Lemma last_app_cons (pre : list Z) x l : last (pre ++ x :: l) = last (x :: l).
Proof. induction pre as [|y pre IH]; [done|]. simpl. rewrite <- IH. by destruct pre. Qed.

Lemma last_elem (l : list Z) x : last l = Some x -> x ∈ l.
Proof.
  destruct l as [|y l _] using rev_ind; [done|]. rewrite last_snoc. intros [= ->].
  apply elem_of_app. right. left.
Qed.

Lemma dequeue_loop_ok q rp l :
  0 <= q < NR_SCHED_QUEUES ->
  forall pre fuel s, rp ∉ pre -> queue_wf s q (pre ++ l) -> (length l < fuel)%nat ->
  wp (dequeue_loop fuel q rp (last pre))
     (fun _ s' => links_only s s' q (pre ++ l) /\
                  queue_wf s' q (pre ++ filter (fun x => x <> rp) l)) s.
Proof.
  intros Hq. induction l as [|x l IH]; intros pre fuel s Hpre Hwf Hf;
    (destruct fuel as [|fuel]; [simpl in Hf; lia|]);
    destruct Hwf as (Hs & Ht & Hnd); simpl; apply wp_bind;
    apply seg_app in Hs as (h & Hs1 & Hs2); eapply (wp_read_xpp q Hq); try done.
  - simpl in Hs2. subst h. apply wp_ret. split; [apply links_refl|].
    rewrite filter_nil. split_and!; [by rewrite app_nil_r | done | done].
  - destruct Hs2 as (-> & n & Hn & Hs2).
    assert (queue_wf s q ((pre ++ [x]) ++ l)) as Hwf'.
    { rewrite <- app_assoc. split_and!; [|done|done].
      apply seg_app. exists (Some x). split; [done|]. simpl. eauto. }
    destruct (Z.eqb_spec x rp) as [->|Hx].
    + unfold nx in Hn. destruct (procs s !! rp) as [pr|] eqn:E; [|done].
      injection Hn as Hn. apply wp_bind. eapply wp_getp; [done|].
      apply NoDup_app in Hnd as (Hnd1 & Hd & Hnd2).
      rewrite filter_ne_head by done. inversion Hnd2 as [|? ? Hrp Hnd3]; subst.
      apply wp_bind. eapply (wp_write_xpp q Hq); [done..|]. intros s1 Hl1 Et Hs1'.
      assert (links_only s s1 q (pre ++ rp :: l)) as Hl1'.
      { destruct Hl1. split; try done. intros p Hp. apply lo_nx0. set_solver. }
      assert (seg (procs s1) (p_nextready pr) l None) as Hs2'.
      { eapply seg_frame; [|exact Hs2]. intros y Hy. apply (lo_nx _ _ _ _ Hl1).
        intros Hy'. apply (Hd y Hy'). by right. }
      assert (NoDup (pre ++ l)) as Hnd'.
      { apply NoDup_app. split_and!; [done| |done]. intros y Hy Hy'. apply (Hd y Hy). by right. }
      assert (seg (procs s1) (run_q_head s1 !! q) (pre ++ l) None) as Hseg
        by (apply seg_app; eauto).
      specialize (Ht ltac:(by destruct pre)).
      apply wp_bind. apply (wp_rdy_tail q Hq). rewrite Et, Ht, last_app_cons.
      case_bool_decide as Eb.
      * assert (l = []) as ->.
        { destruct l as [|y l]; [done|]. exfalso. apply Hrp. by apply last_elem. }
        apply (wp_set_rdy_tail q Hq). rewrite app_nil_r in *. split.
        -- eapply links_trans; [exact Hl1' | apply links_set_tail].
        -- split_and!; [done| |done]. intros _. simpl. by rewrite lookup_partial_alter_eq.
      * apply wp_ret. split; [done|]. split_and!; [done| |done]. intros _.
        rewrite Et, Ht, last_app_cons. destruct l as [|y l]; [done|]. by rewrite last_app_cons.
    + rewrite filter_cons_True by done. replace (Some x) with (last (pre ++ [x])) by apply last_snoc.
      eapply wp_mono; [apply (IH (pre ++ [x])); [|done|simpl in Hf; lia]|].
      { intros [?|?%list_elem_of_singleton]%elem_of_app; [done | by subst]. }
      intros [] s'. rewrite <- !app_assoc. done.
Qed.

(** ** What follows from an unchanged view *)

Lemma view_privs s s' : view s' = view s -> privs s' = privs s.
Proof. intros E. change (privs (view s') = privs (view s)). by rewrite E. Qed.

Lemma view_cur s s' : view s' = view s -> proc_ptr s' = proc_ptr s.
Proof. intros E. change (proc_ptr (view s') = proc_ptr (view s)). by rewrite E. Qed.

Lemma isset_ev pr pr' f :
  ev pr' = ev pr -> Z.land f RTS_PREEMPTED = 0 -> RTS_ISSET pr' f = RTS_ISSET pr f.
Proof.
  intros Ee Hf. pose proof (f_equal p_rts_flags Ee) as E. simpl in E.
  unfold RTS_ISSET. rewrite <- (isset_clearf_disjoint _ f RTS_PREEMPTED), E by done.
  by apply isset_clearf_disjoint.
Qed.

Lemma has_priv_ev s s' p pr pr' :
  privs s' = privs s -> ev pr' = ev pr -> has_priv s p pr -> has_priv s' p pr'.
Proof.
  intros Ep Ee (i & pv & H1 & H2 & H3). pose proof (f_equal p_priv Ee) as E. simpl in E.
  exists i, pv. rewrite E, Ep. done.
Qed.

Lemma proc_ok_ev s s' p pr pr' :
  privs s' = privs s -> ev pr' = ev pr -> proc_ok s p pr -> proc_ok s' p pr'.
Proof.
  intros Ep Ee [H1 H2 H3 H4 H5].
  pose proof (f_equal p_magic Ee) as E1. pose proof (f_equal p_rts_flags Ee) as E2.
  pose proof (f_equal p_priority Ee) as E3. pose proof (f_equal p_tickets Ee) as E4.
  pose proof (f_equal p_priv Ee) as E5. simpl in *.
  split; unfold has_priv; rewrite ?Ep, ?E1, ?E3, ?E4, ?E5; try done.
  - by rewrite E2.
  - rewrite (isset_ev pr pr') by done. exact H5.
Qed.

Lemma table_ok_view s s' : view s' = view s -> table_ok s -> table_ok s'.
Proof.
  intros E [H1 H2 H3]. split.
  - intros p Hp. destruct (H1 p Hp) as [pr Hpr].
    destruct (view_lookup s s' p pr E Hpr) as (pr' & -> & _). eauto.
  - intros p pr' Hp. destruct (view_lookup s' s p pr' (symmetry E) Hp) as (pr & Hpr & Ee).
    eapply proc_ok_ev; [|symmetry; exact Ee|by apply H2]. by apply view_privs.
  - rewrite (view_cur s s' E). destruct H3 as (pr & Hpr & Hpv).
    destruct (view_lookup s s' _ pr E Hpr) as (pr' & Hpr' & Ee). exists pr'. split; [done|].
    eapply has_priv_ev; [|done..]. by apply view_privs.
Qed.

(** Same flags: same runnable processes, hence the same sum of tickets. *)
Definition same_flags (s s' : kstate) : Prop :=
  forall p pr, procs s !! p = Some pr -> exists pr',
    procs s' !! p = Some pr' /\ p_rts_flags pr' = p_rts_flags pr.

Lemma same_flags_view s s' p pr :
  view s' = view s -> same_flags s s' -> procs s !! p = Some pr ->
  exists pr', procs s' !! p = Some pr' /\ p_rts_flags pr' = p_rts_flags pr /\ ev pr' = ev pr.
Proof.
  intros E Hf Hp. destruct (Hf p pr Hp) as (pr' & Hp' & Ef).
  destruct (view_lookup s s' p pr E Hp) as (pr2 & Hp2 & Ee).
  assert (pr2 = pr') as -> by congruence. by exists pr'.
Qed.

Lemma tsum_same s s' :
  table_ok s -> view s' = view s -> same_flags s s' -> tsum (procs s') = tsum (procs s).
Proof.
  intros Ht E Hf. apply zsum_ext. intros p Hp.
  apply weight_frame; [|by apply Ht]. intros pr Hpr.
  destruct (same_flags_view s s' p pr E Hf Hpr) as (pr' & Hp' & Ef & Ee).
  exists pr'. split_and!; [done..|]. exact (f_equal p_tickets Ee).
Qed.

Lemma view_prio s s' p pr :
  view s' = view s -> procs s !! p = Some pr ->
  exists pr', procs s' !! p = Some pr' /\ p_priority pr' = p_priority pr.
Proof.
  intros E Hp. destruct (view_lookup s s' p pr E Hp) as (pr' & Hp' & Ee).
  exists pr'. split; [done|]. exact (f_equal p_priority Ee).
Qed.

(** ** Replacing one queue *)

Definition upd_q (Q : Z -> list Z) (q : Z) (l : list Z) (q' : Z) : list Z :=
  if decide (q' = q) then l else Q q'.

Definition prio_is (s : kstate) (q p : Z) : Prop :=
  exists pr, procs s !! p = Some pr /\ p_priority pr = q.

Lemma queues_update s s' Q q l l' :
  queues s Q -> links_only s s' q l -> Forall (prio_is s q) l ->
  queue_wf s' q l' -> (forall p, p ∈ l' -> p ∈ slots /\ prio_is s q p) ->
  queues s' (upd_q Q q l').
Proof.
  intros [Hwf Hpr] Hlo Hl Hwf' Hl'. split; unfold upd_q.
  - intros q' Hq'. destruct (decide (q' = q)) as [->|Hne]; [done|].
    destruct (Hwf q' Hq') as (Hs & Ht & Hnd). split_and!; [| |done].
    + rewrite (lo_head _ _ _ _ Hlo) by done. eapply seg_frame; [|exact Hs].
      intros p Hp. apply (lo_nx _ _ _ _ Hlo). intros Hp'.
      rewrite Forall_forall in Hl. destruct (Hl p Hp') as (pr & E1 & E2).
      destruct (Hpr q' p Hp) as (_ & pr' & E3 & E4). simplify_eq.
    + intros Hne'. rewrite (lo_tail _ _ _ _ Hlo) by done. auto.
  - intros q' p Hp. assert (p ∈ slots /\ prio_is s q' p) as [Hsl (pr & E1 & E2)].
    { destruct (decide (q' = q)) as [->|]; [by apply Hl' | by apply Hpr]. }
    split; [done|]. destruct (view_prio s s' p pr (lo_view _ _ _ _ Hlo) E1) as (pr' & ? & ?).
    exists pr'. split; [done|congruence].
Qed.

Lemma queue_length s Q q :
  queues s Q -> (length (Q q) <= 261)%nat \/ ~ NoDup (Q q).
Proof.
  intros [_ Hpr]. destruct (decide (NoDup (Q q))) as [Hnd|]; [left|by right].
  replace 261%nat with (length slots) by done. apply submseteq_length.
  apply NoDup_submseteq; [done|]. intros p Hp. by apply (Hpr q).
Qed.

(** ** Steps that leave the scheduling data alone (accounting) *)

Record quiet (s s' : kstate) : Prop := {
  qu_view : view s' = view s;
  qu_flags : same_flags s s';
  qu_total : total_tickets s' = total_tickets s;
  qu_nx : forall p, nx (procs s') p = nx (procs s) p;
  qu_head : run_q_head s' = run_q_head s;
  qu_tail : run_q_tail s' = run_q_tail s;
}.

Lemma same_flags_refl s : same_flags s s.
Proof. intros p pr. eauto. Qed.

Lemma same_flags_trans s1 s2 s3 : same_flags s1 s2 -> same_flags s2 s3 -> same_flags s1 s3.
Proof.
  intros F1 F2 p pr Hp. destruct (F1 p pr Hp) as (pr2 & Hp2 & E2).
  destruct (F2 p pr2 Hp2) as (pr3 & Hp3 & E3). exists pr3. split; [done|congruence].
Qed.

Lemma quiet_refl s : quiet s s.
Proof. split; try done. apply same_flags_refl. Qed.

Lemma quiet_trans s1 s2 s3 : quiet s1 s2 -> quiet s2 s3 -> quiet s1 s3.
Proof.
  intros [V1 F1 T1 N1 H1 L1] [V2 F2 T2 N2 H2 L2]. split; try congruence.
  by eapply same_flags_trans.
Qed.

Lemma quiet_upd s p pr pr' :
  procs s !! p = Some pr -> ev pr' = ev pr -> p_rts_flags pr' = p_rts_flags pr ->
  p_nextready pr' = p_nextready pr -> quiet s (set_procs (<[p := pr']> (procs s)) s).
Proof.
  intros Hp He Hf Hn.
  destruct (links_upd s 0 [] p pr pr' Hp He Hf (or_intror Hn)) as [V T F N _ _].
  split; try done. intros x. apply N. apply not_elem_of_nil.
Qed.

Lemma quiet_tsc s n : quiet s (set_tsc_reads n s).
Proof. split; try done. intros p pr. simpl. eauto. Qed.

Lemma queues_quiet s s' Q : quiet s s' -> queues s Q -> queues s' Q.
Proof.
  intros [V F T N H1 L1] [Hwf Hpr]. split.
  - intros q Hq. destruct (Hwf q Hq) as (Hs & Ht & Hnd). unfold queue_wf. rewrite H1, L1.
    split_and!; [|done|done]. eapply seg_frame; [|exact Hs]. intros; apply N.
  - intros q p Hp. destruct (Hpr q p Hp) as (Hsl & pr & E1 & E2). split; [done|].
    destruct (view_prio s s' p pr V E1) as (pr' & ? & ?). exists pr'. split; [done|congruence].
Qed.

(** Everything of a state but the tickets' total. *)
Lemma queues_total s Q t : queues s Q -> queues (set_total_tickets t s) Q.
Proof. intros [H1 H2]. by split. Qed.

(** The effect of a scheduling operation other than on flags. *)
Record sched_step (s s' : kstate) (Q' : Z -> list Z) (d : Z) : Prop := {
  ss_view : view s' = view s;
  ss_flags : same_flags s s';
  ss_queues : queues s' Q';
  ss_total : total_tickets s' = total_tickets s + d;
}.

Lemma wp_quiet_upd p f pr s0 s (Q : unit -> kstate -> Prop) :
  procs s !! p = Some pr -> quiet s0 s ->
  (forall r, ev (f r) = ev r /\ p_rts_flags (f r) = p_rts_flags r /\
             p_nextready (f r) = p_nextready r) ->
  (forall s' , quiet s0 s' -> procs s' !! p = Some (f pr) -> Q tt s') ->
  wp (updp p f) Q s.
Proof.
  intros Hp Hq Hf HQ. eapply wp_updp; [done|]. destruct (Hf pr) as (E1 & E2 & E3). apply HQ.
  - eapply quiet_trans; [exact Hq|]. by eapply quiet_upd.
  - simpl. by rewrite lookup_insert_eq.
Qed.

Section with_env.
Context `{KEnv}.

Lemma dequeue_ok s Q rp pr :
  table_ok s -> queues s Q -> procs s !! rp = Some pr -> p_rts_flags pr <> 0 ->
  rp ∈ slots -> has_priv s rp pr -> -10000 <= total_tickets s <= 10000 ->
  wp (dequeue rp) (fun _ s' =>
    sched_step s s' (upd_q Q (p_priority pr) (filter (fun x => x <> rp) (Q (p_priority pr))))
      (- p_tickets pr)) s.
Proof.
  intros Ht HQ Hp Hrun Hsl (i & pv & Ei & Epv & Hg) Htot.
  destruct (to_proc _ Ht _ _ Hp) as [Hm _ Hprio Htk _].
  set (q := p_priority pr) in *. unfold dequeue. apply wp_bind. eapply wp_getp; [done|].
  apply wp_bind, wp_assert; [unfold proc_ptr_ok; by rewrite Hm|].
  apply wp_bind, wp_assert; [unfold proc_is_runnable; by rewrite (proj2 (Z.eqb_neq _ _))|].
  apply wp_bind.
  assert (wp (when (iskerneln rp) (pv ← getpriv rp; c_assert (s_stack_guard pv =? STACK_GUARD)))
            (fun _ s' => s' = s) s) as Hguard.
  { apply wp_when; [|done]. intros Hk. apply wp_bind. eapply wp_getpriv; [done..|].
    apply wp_assert; [|done]. rewrite Hg by done. apply Z.eqb_refl. }
  eapply wp_mono; [exact Hguard|]. intros [] s0 ->. clear Hguard.
  apply wp_bind. eapply wp_mono.
  { apply (dequeue_loop_ok q rp (Q q) Hprio [] _ s); [apply not_elem_of_nil | by apply HQ |].
    destruct (queue_length s Q q HQ) as [Hl|Hnd]; [unfold queue_fuel; lia|].
    exfalso. apply Hnd. by apply HQ. }
  simpl. intros [] s1 [Hlo Hwf].
  assert (queues s1 (upd_q Q q (filter (fun x => x <> rp) (Q q)))) as HQ1.
  { eapply queues_update; [done..| | done|].
    - apply Forall_forall. intros p Hin. by apply HQ.
    - intros p [_ Hin]%list_elem_of_filter. by apply HQ. }
  destruct (same_flags_view s s1 rp pr (lo_view _ _ _ _ Hlo) (lo_flags _ _ _ _ Hlo) Hp)
    as (pr1 & Hp1 & Ef1 & Ee1).
  pose proof (f_equal p_tickets Ee1) as Etk. simpl in Etk.
  apply wp_bind. eapply (wp_quiet_upd _ _ _ s1); [done | apply quiet_refl | done |].
  intros s2 Hq2 Hp2. apply wp_bind. eapply wp_getp; [done|]. apply wp_bind.
  apply wp_mono with (P := fun _ s' => quiet s1 s' /\ exists pr', procs s' !! rp = Some pr').
  { apply wp_when; [|eauto]. intros _. apply wp_bind, wp_read_tsc.
    apply wp_bind. eapply (wp_quiet_upd _ _ _ s1); [done | | done |].
    { eapply quiet_trans; [done | apply quiet_tsc]. }
    intros s3 Hq3 Hp3. eapply (wp_quiet_upd _ _ _ s1); [done..|]. intros s4 Hq4 Hp4. eauto. }
  intros [] s3 [Hq3 _]. wp_steps.
  { unfold isub. rewrite int_ok_in; [done|].
    rewrite (qu_total _ _ Hq3), (lo_total _ _ _ _ Hlo). unfold INT_MIN, INT_MAX.
    simpl. lia. }
  split.
  - change (view s3 = view s). rewrite (qu_view _ _ Hq3). exact (lo_view _ _ _ _ Hlo).
  - eapply same_flags_trans; [exact (lo_flags _ _ _ _ Hlo) | exact (qu_flags _ _ Hq3)].
  - apply queues_total. by eapply queues_quiet.
  - simpl. rewrite (qu_total _ _ Hq3), (lo_total _ _ _ _ Hlo). simpl. lia.
Qed.
End with_env.

(** ** Adding a process to a queue *)

Lemma links_incl s s' q l l' :
  (forall p, p ∈ l -> p ∈ l') -> links_only s s' q l -> links_only s s' q l'.
Proof. intros Hl [V T F N H1 L1]. split; try done. intros p Hp. apply N. auto. Qed.

Section add.
Context (q : Z) (Hq : 0 <= q < NR_SCHED_QUEUES).

(** A new queue with [rp] alone. *)
Lemma new_queue_ok s rp pr :
  procs s !! rp = Some pr ->
  wp (set_rdy_head q (Some rp);; set_rdy_tail q (Some rp);; updp rp (set_p_nextready None))
     (fun _ s' => links_only s s' q [rp] /\ queue_wf s' q [rp]) s.
Proof using Hq.
  intros Hp. apply wp_bind, (wp_set_rdy_head q Hq), wp_bind, (wp_set_rdy_tail q Hq).
  eapply wp_updp; [done|]. split.
  - eapply links_trans; [apply links_set_head|]. eapply links_trans; [apply links_set_tail|].
    eapply links_upd; [done..|]. left. left.
  - split_and!; simpl.
    + rewrite lookup_partial_alter_eq. split; [done|]. exists None. by rewrite nx_insert.
    + intros _. by rewrite lookup_partial_alter_eq.
    + apply NoDup_singleton.
Qed.

Lemma append_ready_ok s rp pr l :
  queue_wf s q l -> procs s !! rp = Some pr -> rp ∉ l ->
  (forall p, p ∈ l -> is_Some (procs s !! p)) ->
  wp (append_ready q rp)
     (fun _ s' => links_only s s' q (l ++ [rp]) /\ queue_wf s' q (l ++ [rp])) s.
Proof using Hq.
  intros (Hs & Ht & Hnd) Hp Hrp Hl. unfold append_ready.
  apply wp_bind, (wp_rdy_head q Hq).
  destruct l as [|x l _] using rev_ind; [simpl in Hs; rewrite Hs; by eapply new_queue_ok|].
  assert (exists h, run_q_head s !! q = Some h) as [h ->].
  { destruct l; simpl in Hs; destruct Hs as [-> _]; eauto. }
  apply wp_bind, (wp_rdy_tail q Hq). rewrite Ht by (by destruct l). rewrite last_snoc.
  apply wp_bind. eapply wp_deref; [done|].
  destruct (Hl x) as [prx Hx]; [apply elem_of_app; right; left|].
  apply wp_bind. eapply wp_updp; [done|]. apply wp_bind, (wp_set_rdy_tail q Hq).
  assert (x <> rp) as Hne. { intros ->. apply Hrp. apply elem_of_app. right. left. }
  eapply wp_updp; [simpl; by rewrite lookup_insert_ne|]. simpl. split.
  - eapply links_trans; [|eapply links_trans; [apply (links_set_tail _ q _ (Some rp))|]].
    + apply (links_upd s q _ x prx (set_p_nextready (Some rp) prx)); [done..|].
      left. rewrite <- app_assoc. apply elem_of_app. right. left.
    + set (s2 := set_run_q_tail _ _).
      apply (links_upd s2 q _ rp pr (set_p_nextready None pr)); [|done..|].
      { simpl. by rewrite lookup_insert_ne. }
      left. apply elem_of_app. right. left.
  - split_and!; simpl.
    + apply seg_snoc in Hs as [Hs _]. apply seg_snoc. rewrite nx_insert. split; [|done].
      apply seg_snoc. rewrite nx_insert_ne, nx_insert by done. split; [|done].
      eapply seg_frame; [|exact Hs]. intros y Hy.
      apply NoDup_app in Hnd as (_ & Hd & _). rewrite !nx_insert_ne; [done|..].
      * intros ->. apply (Hd y Hy). left.
      * intros ->. apply Hrp. apply elem_of_app. by left.
    + intros _. by rewrite lookup_partial_alter_eq, last_snoc.
    + apply NoDup_app. split_and!; [done| |apply NoDup_singleton].
      intros y Hy ->%list_elem_of_singleton. done.
Qed.

Lemma push_ready_ok s rp pr l :
  queue_wf s q l -> procs s !! rp = Some pr -> rp ∉ l ->
  wp (push_ready q rp)
     (fun _ s' => links_only s s' q (rp :: l) /\ queue_wf s' q (rp :: l)) s.
Proof using Hq.
  intros (Hs & Ht & Hnd) Hp Hrp. unfold push_ready.
  apply wp_bind, (wp_rdy_head q Hq).
  destruct l as [|x l]; [simpl in Hs; rewrite Hs; by eapply new_queue_ok|].
  destruct Hs as [Hh Hs]. rewrite Hh. apply wp_bind. eapply wp_updp; [done|].
  apply (wp_set_rdy_head q Hq). split.
  - eapply links_trans; [|apply links_set_head]. eapply links_upd; [done..|]. left. left.
  - split_and!; simpl.
    + rewrite lookup_partial_alter_eq. split; [done|]. exists (Some x). rewrite nx_insert.
      split; [done|]. apply (seg_frame (procs s) _ (Some x) (x :: l)); [|by split].
      intros y Hy. rewrite nx_insert_ne; [done|]. by intros ->.
    + intros _. rewrite Ht by done. done.
    + by constructor.
Qed.
End add.

(** ** Changing flags *)

(** The state after a change of the flags of [p]. *)
Definition with_flags (s : kstate) (p : Z) (pr : proc) (fl : Z) : kstate :=
  set_procs (<[p := set_p_rts_flags fl pr]> (procs s)) s.

Lemma has_priv_runnable s p pr :
  table_ok s -> procs s !! p = Some pr -> p_rts_flags pr = 0 -> has_priv s p pr.
Proof. intros Ht Hp E. apply (po_priv _ _ _ (to_proc _ Ht _ _ Hp)). unfold RTS_ISSET. by rewrite E. Qed.

Lemma table_ok_flags s p pr fl :
  table_ok s -> procs s !! p = Some pr ->
  (clearf fl RTS_PREEMPTED = 0 -> p ∈ slots) ->
  (isset fl RTS_SLOT_FREE = false -> has_priv s p pr) -> table_ok (with_flags s p pr fl).
Proof.
  intros [H1 H2 H3] Hp Hsl Hpv. split; simpl.
  - intros x Hx. apply lookup_insert_is_Some'. right. auto.
  - intros x prx. destruct (decide (p = x)) as [<-|].
    + rewrite lookup_insert_eq. intros [= <-]. destruct (H2 p pr Hp). by split.
    + rewrite lookup_insert_ne by done. intros Hx. destruct (H2 x prx Hx). by split.
  - destruct H3 as (prc & Hc & Hcp). destruct (decide (p = proc_ptr s)) as [E|].
    + rewrite <- E, lookup_insert_eq. rewrite <- E, Hp in Hc. injection Hc as <-.
      rewrite <- E in Hcp. eexists. split; [done|]. exact Hcp.
    + rewrite lookup_insert_ne by done. exists prc. by split.
Qed.

Lemma queues_flags s Q p pr fl :
  queues s Q -> procs s !! p = Some pr -> queues (with_flags s p pr fl) Q.
Proof.
  intros [Hwf Hpr] Hp. split.
  - intros q Hq. destruct (Hwf q Hq) as (Hs & Ht & Hnd). split_and!; [|done..].
    eapply seg_frame; [|exact Hs]. intros x _. by eapply nx_insert_same.
  - intros q x Hx. destruct (Hpr q x Hx) as (Hsl & prx & E1 & E2). split; [done|].
    simpl. destruct (decide (p = x)) as [<-|].
    + simplify_eq. rewrite lookup_insert_eq. eauto.
    + rewrite lookup_insert_ne by done. eauto.
Qed.

Lemma ready_at_same s s' x q :
  view s' = view s -> same_flags s s' -> ready_at s' x q <-> ready_at s x q.
Proof.
  intros V F. split.
  - intros (pr' & Hp' & Hr & Hq).
    destruct (view_lookup s' s x pr' (symmetry V) Hp') as (pr & Hp & Ee).
    destruct (F x pr Hp) as (pr2 & Hp2 & Ef).
    assert (pr2 = pr') as -> by congruence. exists pr. unfold runnable in *.
    pose proof (f_equal p_priority Ee) as Ep. simpl in Ep. split_and!; [done|congruence..].
  - intros (pr & Hp & Hr & <-). destruct (same_flags_view s s' x pr V F Hp) as (pr' & Hp' & Ef & Ee).
    exists pr'. unfold runnable in *. split_and!; [done|congruence|].
    exact (f_equal p_priority Ee).
Qed.

Lemma ready_at_flags s p pr fl x q :
  procs s !! p = Some pr ->
  ready_at (with_flags s p pr fl) x q <->
  (if decide (x = p) then fl = 0 /\ p_priority pr = q else ready_at s x q).
Proof.
  intros Hp. unfold ready_at, runnable. simpl. destruct (decide (x = p)) as [->|].
  - rewrite lookup_insert_eq. split; [intros (? & [= <-] & ? & ?); done|].
    intros [? ?]. eexists. split; [done|]. done.
  - by rewrite lookup_insert_ne.
Qed.

Lemma ready_runnable s x q : ready_at s x q -> runnable_at s x = true.
Proof. intros (pr & Hp & Hr & _). unfold runnable_at. rewrite Hp. by apply Z.eqb_eq. Qed.

(** With exactly the runnable processes queued, the queues are [qfilter]ed. *)
Lemma qfilter_id s Q q : queued_runnable s Q -> qfilter s Q q = Q q.
Proof.
  intros Hr. apply list_filter_all. apply Forall_forall. intros x Hx.
  apply Hr in Hx. by eapply ready_runnable.
Qed.

Lemma qfilter_remove s Q q p :
  (forall x, x ∈ Q q -> runnable_at s x = true <-> x <> p) ->
  filter (fun x => x <> p) (Q q) = qfilter s Q q.
Proof. intros Hx. apply list_filter_iff'. intros x Hin. by rewrite Hx. Qed.

Section with_env2.
Context `{KEnv}.

Lemma total_range s Q k :
  sched_invQ s Q k -> 0 <= k <= 100 -> -10000 <= total_tickets s <= 10000.
Proof. intros (Ht & Htot & _) Hk. pose proof (tsum_bound s Ht). lia. Qed.

(** A change of flags that does not change whether [p] is runnable. *)
Lemma flags_no_transition s Q k p pr fl :
  sched_invQ s Q k -> procs s !! p = Some pr ->
  (clearf fl RTS_PREEMPTED = 0 -> p ∈ slots) ->
  (isset fl RTS_SLOT_FREE = false -> has_priv s p pr) -> (fl = 0 <-> p_rts_flags pr = 0) ->
  sched_invQ (with_flags s p pr fl) Q k.
Proof.
  intros (Ht & Htot & HQ & Hr) Hp Hsl Hpv Hfl. split_and!.
  - by apply table_ok_flags.
  - change (total_tickets s + k = tsum (<[p := set_p_rts_flags fl pr]> (procs s))).
    rewrite Htot. apply zsum_ext. intros x _. unfold weight, proc_is_runnable.
    destruct (decide (x = p)) as [->|]; [|by rewrite lookup_insert_ne].
    rewrite lookup_insert_eq, Hp. cbn [p_rts_flags p_tickets set_p_rts_flags].
    destruct (Z.eqb_spec fl 0), (Z.eqb_spec (p_rts_flags pr) 0); tauto.
  - by apply queues_flags.
  - intros q x. rewrite (Hr q x), ready_at_flags by done.
    destruct (decide (x = p)) as [->|]; [|done]. unfold ready_at, runnable. naive_solver.
Qed.

(** A process whose flags were set and who left its queue. *)
Lemma flags_dequeued s s' Q k p pr fl :
  sched_invQ s Q k -> procs s !! p = Some pr -> p_rts_flags pr = 0 -> fl <> 0 ->
  let s0 := with_flags s p pr fl in
  table_ok s0 ->
  sched_step s0 s' (upd_q Q (p_priority pr) (filter (fun x => x <> p) (Q (p_priority pr))))
    (- p_tickets pr) ->
  exists Q', sched_invQ s' Q' k /\ forall q, Q' q = qfilter s' Q q.
Proof.
  intros (Ht & Htot & HQ & Hr) Hp E0 Hfl s0 Ht0 [V F HQ' Htot'].
  assert (p ∈ slots) as Hsl.
  { apply (po_slot _ _ _ (to_proc _ Ht _ _ Hp)). by rewrite E0. }
  assert (forall q x, ready_at s' x q <-> x <> p /\ ready_at s x q) as Hready.
  { intros q x. rewrite (ready_at_same s0 s') by done. unfold s0. rewrite ready_at_flags by done.
    destruct (decide (x = p)); naive_solver. }
  eexists. split; [split_and!|].
  - by eapply table_ok_view.
  - rewrite Htot', (tsum_same s0 s') by done. unfold s0, with_flags. simpl.
    rewrite (tsum_insert _ p pr) by done. unfold weight. rewrite Hp. unfold proc_is_runnable.
    cbn [p_rts_flags set_p_rts_flags]. rewrite E0, (proj2 (Z.eqb_neq fl 0)) by done. simpl. lia.
  - exact HQ'.
  - intros q x. rewrite Hready. unfold upd_q. destruct (decide (q = p_priority pr)) as [->|Hne].
    + by rewrite list_elem_of_filter, (Hr _ x).
    + rewrite (Hr _ x). split; [|tauto]. intros Hx. split; [|done]. intros ->.
      destruct Hx as (pr2 & ? & _ & ?). congruence.
  - assert (forall q x, x ∈ Q q -> runnable_at s' x = true <-> x <> p) as Hrun.
    { intros q x Hx%Hr. split.
      - intros Hra ->. unfold runnable_at in Hra. destruct (procs s' !! p) as [pr'|] eqn:E; [|done].
        assert (ready_at s' p (p_priority pr')) as [? _]%Hready; [|done].
        exists pr'. split_and!; [done| |done]. by apply Z.eqb_eq.
      - intros Hne. eapply ready_runnable. apply Hready. eauto. }
    intros q. unfold upd_q. destruct (decide (q = p_priority pr)) as [->|Hne].
    + by apply qfilter_remove, Hrun.
    + symmetry. apply list_filter_all, Forall_forall. intros x Hx. apply (Hrun q x Hx). intros ->.
      apply Hr in Hx as (pr2 & ? & _ & ?). congruence.
Qed.

(** RTS_SET keeps the invariant: a process that stops being runnable leaves its
    queue and takes its tickets along. *)
Lemma RTS_SET_ok s Q k p pr f :
  sched_invQ s Q k -> 0 <= k <= 100 -> procs s !! p = Some pr ->
  let s0 := with_flags s p pr (setf (p_rts_flags pr) f) in
  wp (RTS_SET p f) (fun _ s' =>
    view s' = view s0 /\ same_flags s0 s' /\
    exists Q', sched_invQ s' Q' k /\ forall q, Q' q = qfilter s' Q q) s.
Proof.
  intros Hinv Hk Hp s0. pose proof (total_range _ _ _ Hinv Hk) as Hrange.
  pose proof Hinv as (Ht & _ & HQ & Hr).
  assert (clearf (setf (p_rts_flags pr) f) RTS_PREEMPTED = 0 -> p ∈ slots) as Hsl.
  { intros Hc. apply (po_slot _ _ _ (to_proc _ Ht _ _ Hp)). by eapply clearf_setf_0. }
  assert (isset (setf (p_rts_flags pr) f) RTS_SLOT_FREE = false -> has_priv s p pr) as Hpv.
  { intros Hc. apply (po_priv _ _ _ (to_proc _ Ht _ _ Hp)). by eapply isset_setf_false. }
  assert (procs s0 !! p = Some (set_p_rts_flags (setf (p_rts_flags pr) f) pr)) as Hp0
    by apply lookup_insert_eq.
  unfold RTS_SET. apply wp_bind. eapply wp_getp; [done|]. apply wp_bind.
  eapply wp_updp; [done|]. fold (with_flags s p pr (setf (p_rts_flags pr) f)). fold s0.
  apply wp_bind. eapply wp_getp; [done|]. unfold proc_is_runnable. cbn [p_rts_flags set_p_rts_flags].
  destruct (Z.eqb_spec (p_rts_flags pr) 0) as [E0|E0];
    [destruct (Z.eqb_spec (setf (p_rts_flags pr) f) 0) as [E1|E1]|].
  2:{ assert (table_ok s0) as Ht0 by by apply table_ok_flags.
      eapply wp_mono; [eapply (dequeue_ok s0 Q p); [done | by apply queues_flags | done | done | | | done]|].
      { apply (po_slot _ _ _ (to_proc _ Ht _ _ Hp)). by rewrite E0. }
      { exact (has_priv_runnable s p pr Ht Hp E0). }
      intros [] s' Hst. split_and!; [apply Hst | apply (ss_flags _ _ _ _ Hst) |].
      by eapply flags_dequeued. }
  all: apply wp_ret; split_and!; [done | apply same_flags_refl |]; exists Q; split;
    [apply flags_no_transition; [done..|] | intros q; symmetry; apply qfilter_id].
  1,3: pose proof (setf_nonzero_l (p_rts_flags pr) f); tauto.
  all: apply (flags_no_transition s Q k p pr); [done..|].
  all: pose proof (setf_nonzero_l (p_rts_flags pr) f); tauto.
Qed.
End with_env2.

(** ** Enqueueing *)

(** [rp] is runnable but on no queue yet. *)
Definition enq_pre (s : kstate) (Q : Z -> list Z) (rp : Z) (pr : proc) : Prop :=
  table_ok s /\ total_tickets s + p_tickets pr = tsum (procs s) /\ queues s Q /\
  procs s !! rp = Some pr /\ runnable pr /\
  (forall q x, x ∈ Q q <-> x <> rp /\ ready_at s x q).

Lemma added_ok s s1 Q rp pr l l' :
  let q := p_priority pr in
  enq_pre s Q rp pr -> links_only s s1 q l -> queue_wf s1 q l' ->
  l' ≡ₚ rp :: Q q -> l ≡ₚ rp :: Q q ->
  sched_invQ s1 (upd_q Q q l') (p_tickets pr).
Proof.
  intros q (Ht & Htot & HQ & Hp & Hrun & Hr) Hlo Hwf Hl' Hl.
  assert (rp ∈ slots) as Hsl.
  { apply (po_slot _ _ _ (to_proc _ Ht _ _ Hp)). by rewrite Hrun. }
  assert (forall x, x ∈ rp :: Q q -> x ∈ slots /\ prio_is s q x) as Hmem.
  { intros x [->|Hx]%elem_of_cons; [|by apply HQ]. split; [done|]. by exists pr. }
  split_and!.
  - eapply table_ok_view; [apply Hlo|done].
  - rewrite (lo_total _ _ _ _ Hlo), (tsum_same s s1); [done..| |].
    + apply Hlo.
    + exact (lo_flags _ _ _ _ Hlo).
  - eapply queues_update; [done..| |done|].
    + rewrite Hl. apply Forall_forall. intros x Hx. by apply Hmem.
    + intros x. rewrite Hl'. apply Hmem.
  - intros q' x. rewrite (ready_at_same s s1); [|apply Hlo|exact (lo_flags _ _ _ _ Hlo)].
    unfold upd_q. destruct (decide (q' = q)) as [->|Hne].
    + rewrite Hl', elem_of_cons, Hr. split; [|destruct (decide (x = rp)); tauto].
      intros [->|[_ ?]]; [|done]. by exists pr.
    + rewrite Hr. split; [tauto|]. intros Hx. split; [|done]. intros ->.
      destruct Hx as (pr2 & ? & _ & ?). unfold q in *. congruence.
Qed.

Lemma sched_invQ_quiet s s' Q k : quiet s s' -> sched_invQ s Q k -> sched_invQ s' Q k.
Proof.
  intros Hq (Ht & Htot & HQ & Hr). split_and!.
  - eapply table_ok_view; [apply Hq | done].
  - rewrite (qu_total _ _ Hq), (tsum_same s s'); [done..|apply Hq|exact (qu_flags _ _ Hq)].
  - by eapply queues_quiet.
  - intros q x. rewrite (ready_at_same s s'); [done|apply Hq|exact (qu_flags _ _ Hq)].
Qed.

(** The invariant depends on the scheduling fields only. *)
Lemma sched_invQ_fields s s' Q k :
  procs s' = procs s -> privs s' = privs s -> run_q_head s' = run_q_head s ->
  run_q_tail s' = run_q_tail s -> total_tickets s' = total_tickets s ->
  proc_ptr s' = proc_ptr s -> sched_invQ s Q k -> sched_invQ s' Q k.
Proof.
  intros E1 E2 E3 E4 E5 E6 ([T1 T2 T3] & Htot & [Q1 Q2] & Hr).
  assert (forall p pr, has_priv s p pr -> has_priv s' p pr) as Hpv.
  { unfold has_priv. by rewrite E2. }
  split_and!.
  - split; rewrite ?E1, ?E6; [done| |naive_solver].
    intros p pr Hp. destruct (T2 p pr Hp). split; auto.
  - by rewrite E1, E5.
  - split; unfold queue_wf; rewrite ?E1, ?E3, ?E4; done.
  - intros q p. unfold ready_at. rewrite E1. apply Hr.
Qed.

(** Counting the tickets at the end of an enqueue. *)
Lemma sched_invQ_count s Q k :
  sched_invQ s Q k -> sched_invQ (set_total_tickets (total_tickets s + k) s) Q 0.
Proof.
  intros (Ht & Htot & HQ & Hr). split_and!.
  - by eapply table_ok_view; [|exact Ht].
  - simpl. lia.
  - by apply queues_total.
  - exact Hr.
Qed.

Lemma qfilter_same s s' Q q :
  (forall x, runnable_at s' x = runnable_at s x) -> qfilter s' Q q = qfilter s Q q.
Proof. intros E. apply list_filter_iff'. intros x _. by rewrite E. Qed.

Lemma runnable_at_flags s s' x :
  view s' = view s -> same_flags s s' -> runnable_at s' x = runnable_at s x.
Proof.
  intros V F. unfold runnable_at. destruct (procs s !! x) as [pr|] eqn:E.
  - destruct (F x pr E) as (pr' & -> & Ef). unfold proc_is_runnable. by rewrite Ef.
  - destruct (procs s' !! x) as [pr'|] eqn:E'; [|done].
    destruct (view_lookup s' s x pr' (symmetry V) E') as (pr & ? & _). congruence.
Qed.

Section with_env3.
Context `{KEnv}.

(** The end of [enqueue]: accounting of the current process and the tickets. *)
Lemma enqueue_tail_ok s Q rp k :
  sched_invQ s Q k -> 0 <= k <= 100 ->
  (exists pr, procs s !! rp = Some pr /\ p_tickets pr = k) ->
  wp (tsc ← read_tsc; updp (proc_ptr s) (set_a_enter_queue tsc);;
      t ← gets total_tickets; pr ← getp rp; t' ← lift (iadd t (p_tickets pr));
      modify (set_total_tickets t'))
     (fun _ s' => view s' = view s /\ sched_invQ s' Q 0 /\ same_flags s s') s.
Proof.
  intros Hinv Hk (pr & Hp & Ek). pose proof (total_range _ _ _ Hinv Hk) as Hrange.
  apply wp_bind, wp_read_tsc. apply wp_bind.
  destruct (to_cur _ (proj1 Hinv)) as (ppr & Hppr & _).
  eapply (wp_quiet_upd _ _ _ s); [exact Hppr | apply quiet_tsc | done |].
  intros s1 Hq Hp1. apply wp_bind, wp_gets.
  destruct (same_flags_view s s1 rp pr (qu_view _ _ Hq) (qu_flags _ _ Hq) Hp) as (pr1 & Hp2 & _ & Ee).
  pose proof (f_equal p_tickets Ee) as Etk. simpl in Etk.
  apply wp_bind. eapply wp_getp; [done|]. apply wp_bind. eapply wp_lift.
  { unfold iadd. apply int_ok_in. rewrite (qu_total _ _ Hq). unfold INT_MIN, INT_MAX. lia. }
  apply wp_modify. split_and!.
  - change (view s1 = view s). apply Hq.
  - rewrite Etk, Ek. apply sched_invQ_count. by eapply sched_invQ_quiet.
  - exact (qu_flags _ _ Hq).
Qed.

Lemma preempt_ok s Q k p ppr (b : bool) :
  sched_invQ s Q k -> 0 <= k <= 100 -> procs s !! p = Some ppr -> has_priv s p ppr ->
  wp (if b then pv ← getpriv p; when (anyset (s_flags pv) PREEMPTIBLE) (RTS_SET p RTS_PREEMPTED)
      else skip)
     (fun _ s' => view s' = view s /\
        exists Q', sched_invQ s' Q' k /\ forall q, Q' q = qfilter s' Q q) s.
Proof.
  intros Hinv Hk Hp (i & pv & Ei & Epv & _).
  assert (view s = view s /\ exists Q', sched_invQ s Q' k /\ forall q, Q' q = qfilter s Q q) as Hid.
  { split; [done|]. exists Q. split; [done|]. intros q. symmetry. by apply qfilter_id, Hinv. }
  destruct b; [|by apply wp_ret].
  apply wp_bind. eapply wp_getpriv; [done..|]. apply wp_when; [|done]. intros _.
  eapply wp_mono; [by eapply RTS_SET_ok|]. intros [] s' (V & _ & HQ'). split; [|done].
  rewrite V. apply (view_update s p ppr); [done|].
  unfold ev. simpl. by rewrite clearf_setf.
Qed.

Lemma enqueue_ok s Q rp pr :
  enq_pre s Q rp pr ->
  wp (enqueue rp) (fun _ s' => view s' = view s /\
    exists Q', sched_invQ s' Q' 0 /\
      forall q, Q' q = qfilter s' (upd_q Q (p_priority pr) (Q (p_priority pr) ++ [rp])) q) s.
Proof.
  intros Hpre. pose proof Hpre as (Ht & Htot & HQ & Hp & Hrun & Hr).
  destruct (to_proc _ Ht _ _ Hp) as [Hm _ Hprio Htk _]. set (q := p_priority pr) in *.
  unfold enqueue. apply wp_bind. eapply wp_getp; [done|].
  apply wp_bind, wp_assert; [by apply Z.eqb_eq|].
  apply wp_bind, wp_assert; [apply Z.leb_le; lia|].
  apply wp_bind. eapply wp_mono.
  { apply (append_ready_ok q Hprio s rp pr (Q q)); [by apply HQ | done | |].
    - intros Hin. by apply Hr in Hin as [? _].
    - intros x Hx. apply Ht. by apply (qs_prio _ _ HQ q). }
  intros [] s1 [Hlo Hwf].
  assert (sched_invQ s1 (upd_q Q q (Q q ++ [rp])) (p_tickets pr)) as Hinv1.
  { eapply added_ok; [done..| |]; by rewrite Permutation_app_comm. }
  assert (exists pr1, procs s1 !! rp = Some pr1 /\ p_tickets pr1 = p_tickets pr) as (pr1 & Hp1 & Etk1).
  { destruct (view_lookup s s1 rp pr (lo_view _ _ _ _ Hlo) Hp) as (pr1 & ? & Ee).
    exists pr1. split; [done|]. exact (f_equal p_tickets Ee). }
  apply wp_bind, wp_gets. destruct (to_cur _ (proj1 Hinv1)) as (ppr & Hppr & Hcpv).
  apply wp_bind. eapply wp_getp; [exact Hppr|]. apply wp_bind. eapply wp_getp; [exact Hp1|].
  apply wp_bind. eapply wp_mono.
  { apply (preempt_ok s1 (upd_q Q q (Q q ++ [rp])) (p_tickets pr) (proc_ptr s1) ppr
             (p_priority pr1 <? p_priority ppr)); [done | lia | done | done]. }
  intros [] s2 (V2 & Q2 & Hinv2 & HQ2).
  rewrite <- (view_cur s1 s2 V2). eapply wp_mono.
  { apply (enqueue_tail_ok s2 Q2 rp (p_tickets pr)); [done | lia |].
    destruct (view_lookup s1 s2 rp pr1 V2 Hp1) as (pr2 & ? & Ee).
    exists pr2. split; [done|]. rewrite <- Etk1. exact (f_equal p_tickets Ee). }
  intros [] s3 (V3 & Hinv3 & F3). split.
  - rewrite V3, V2. apply Hlo.
  - exists Q2. split; [done|]. intros q'. rewrite HQ2. symmetry. apply qfilter_same.
    intros x. by apply runnable_at_flags.
Qed.
End with_env3.

(** A process whose last flag was cleared is ready to be queued. *)
Lemma flags_enq_pre s Q p pr :
  sched_invQ s Q 0 -> procs s !! p = Some pr -> p ∈ slots -> has_priv s p pr ->
  p_rts_flags pr <> 0 ->
  enq_pre (with_flags s p pr 0) Q p (set_p_rts_flags 0 pr).
Proof.
  intros (Ht & Htot & HQ & Hr) Hp Hsl Hpv Hfl. split_and!.
  - by apply table_ok_flags.
  - unfold with_flags. simpl. rewrite (tsum_insert _ p pr) by done. unfold weight. rewrite Hp.
    unfold proc_is_runnable. rewrite (proj2 (Z.eqb_neq _ 0)) by done. simpl. lia.
  - by apply queues_flags.
  - apply lookup_insert_eq.
  - done.
  - intros q x. rewrite (Hr q x), ready_at_flags by done.
    destruct (decide (x = p)) as [->|]; [|tauto].
    split; [|tauto]. intros (pr2 & ? & ? & ?). unfold runnable in *. congruence.
Qed.

(** The queues once [p] has been appended, when [b] says that it is. *)
Definition appended (b : bool) (Q : Z -> list Z) (p : Z) (pr : proc) : Z -> list Z :=
  if b then upd_q Q (p_priority pr) (Q (p_priority pr) ++ [p]) else Q.
Definition unblocked (pr : proc) (f : Z) : bool :=
  negb (p_rts_flags pr =? 0) && (clearf (p_rts_flags pr) f =? 0).

Section with_env4.
Context `{KEnv}.

(** RTS_UNSET keeps the invariant: a process that becomes runnable joins the
    tail of its queue. *)
Lemma RTS_UNSET_ok s Q p pr f :
  sched_invQ s Q 0 -> p ∈ slots -> procs s !! p = Some pr -> has_priv s p pr ->
  let s0 := with_flags s p pr (clearf (p_rts_flags pr) f) in
  wp (RTS_UNSET p f) (fun _ s' =>
    view s' = view s0 /\
    exists Q', sched_invQ s' Q' 0 /\
      forall q, Q' q = qfilter s' (appended (unblocked pr f) Q p pr) q) s.
Proof.
  intros Hinv Hsl Hp Hpv s0. pose proof Hinv as (Ht & _ & HQ & Hr).
  assert (procs s0 !! p = Some (set_p_rts_flags (clearf (p_rts_flags pr) f) pr)) as Hp0
    by apply lookup_insert_eq.
  unfold RTS_UNSET. apply wp_bind. eapply wp_getp; [done|]. apply wp_bind.
  eapply wp_updp; [done|]. fold (with_flags s p pr (clearf (p_rts_flags pr) f)). fold s0.
  apply wp_bind. eapply wp_getp; [done|]. unfold proc_is_runnable. cbn [p_rts_flags set_p_rts_flags].
  fold (unblocked pr f). destruct (unblocked pr f) eqn:Eb; unfold appended.
  - apply andb_true_iff in Eb as [E0%negb_true_iff%Z.eqb_neq E1%Z.eqb_eq].
    unfold s0. rewrite E1. eapply wp_mono; [by eapply enqueue_ok, flags_enq_pre|]. done.
  - apply wp_ret. split; [done|]. exists Q. split.
    + apply flags_no_transition; [done..|]. unfold unblocked in Eb.
      destruct (Z.eqb_spec (p_rts_flags pr) 0) as [E|E]; simpl in Eb.
      * rewrite E, clearf_0. done.
      * apply Z.eqb_neq in Eb. tauto.
    + intros q. symmetry. apply (qfilter_id s0 Q q).
      apply (flags_no_transition s Q 0 p pr); [done..|]. unfold unblocked in Eb.
      destruct (Z.eqb_spec (p_rts_flags pr) 0) as [E|E]; simpl in Eb.
      * rewrite E, clearf_0. done.
      * apply Z.eqb_neq in Eb. tauto.
Qed.

Lemma enqueue_head_ok s Q rp pr :
  enq_pre s Q rp pr -> p_cpu_time_left pr <> 0 ->
  wp (enqueue_head rp) (fun _ s' => view s' = view s /\
    exists Q', sched_invQ s' Q' 0 /\
      forall q, Q' q = upd_q Q (p_priority pr) (rp :: Q (p_priority pr)) q) s.
Proof.
  intros Hpre Hleft. pose proof Hpre as (Ht & Htot & HQ & Hp & Hrun & Hr).
  destruct (to_proc _ Ht _ _ Hp) as [Hm Hsl Hprio Htk _]. set (q := p_priority pr) in *.
  rewrite Hrun in Hsl. specialize (Hm (Hsl eq_refl)).
  unfold enqueue_head. apply wp_bind. eapply wp_getp; [done|].
  apply wp_bind, wp_assert; [unfold proc_ptr_ok; by rewrite Hm|].
  apply wp_bind, wp_assert; [by apply Z.eqb_eq|].
  apply wp_bind, wp_assert; [by rewrite (proj2 (Z.eqb_neq _ _))|].
  apply wp_bind, wp_assert; [apply Z.leb_le; lia|].
  apply wp_bind. eapply wp_mono.
  { apply (push_ready_ok q Hprio s rp pr (Q q)); [by apply HQ | done |].
    intros Hin. by apply Hr in Hin as [? _]. }
  intros [] s1 [Hlo Hwf].
  assert (sched_invQ s1 (upd_q Q q (rp :: Q q)) (p_tickets pr)) as Hinv1 by by eapply added_ok.
  pose proof (total_range _ _ _ Hinv1 ltac:(lia)) as Hrange.
  destruct (to_cur _ (proj1 Hinv1)) as (ppr & Hppr & _).
  destruct (view_lookup s s1 rp pr (lo_view _ _ _ _ Hlo) Hp) as (pr1 & Hp1 & Ee1).
  apply wp_bind, wp_read_tsc, wp_bind, wp_gets, wp_bind.
  eapply (wp_quiet_upd _ _ _ s1); [exact Hppr | apply quiet_tsc | done |]. intros s2 Hq2 _.
  destruct (view_lookup s1 s2 rp pr1 (qu_view _ _ Hq2) Hp1) as (pr2 & Hp2 & Ee2).
  apply wp_bind. eapply (wp_quiet_upd _ _ _ s1); [done..|]. intros s3 Hq3 Hp3.
  apply wp_bind, wp_gets, wp_bind. eapply wp_getp; [exact Hp3|]. apply wp_bind.
  assert (p_tickets pr2 = p_tickets pr) as Etk.
  { rewrite Ee1 in Ee2. exact (f_equal p_tickets Ee2). }
  eapply wp_lift.
  { unfold iadd. apply int_ok_in. rewrite (qu_total _ _ Hq3). cbn [p_tickets set_a_preempted set_a_dequeues].
    unfold INT_MIN, INT_MAX. lia. }
  apply wp_modify. split.
  - change (view s3 = view s). rewrite (qu_view _ _ Hq3). apply Hlo.
  - eexists. split; [|done]. cbn [p_tickets set_a_preempted set_a_dequeues]. rewrite Etk.
    apply sched_invQ_count. by eapply sched_invQ_quiet.
Qed.
End with_env4.
