(* ===== verification/KIpc.v ===== *)
(** * Synchronous message passing (kernel/proc.c) and kernel signals (kernel/system.c)

    [deadlock], [has_pending], [mini_send], [mini_notify] on the process table
    and the queues of callers linked through [p_q_link]; [send_sig],
    [cause_sig] and [sig_delay_done], which the message code calls. *)

From S2P Require Import Prelude KTypes KSched.
#[local] Open Scope Z_scope.

(** A message buffer: an address of the caller, or a message of the kernel. *)
Inductive msg_ptr := UserMsg (addr : Z) | KernelMsg (m : message).

Section kipc.
Context `{KEnv}.

(** ** Deadlock detection *)

(** More links than processes: the C code would overrun [processes]. *)
Definition deadlock_fuel : nat := 262.
Arguments deadlock_fuel : simpl never.

Fixpoint deadlock_loop (fuel : nat) (function cp_endpoint src_dst_e group_size : Z) : K Z :=
  match fuel with
  | O => fail OutOfFuel
  | S fuel' =>
      if src_dst_e =? ANY then mret 0
      else
        slot ← okendpt src_dst_e;
        xp ← getp slot;
        c_assert (proc_ptr_ok xp);;
        c_assert (negb (RTS_ISSET xp RTS_SLOT_FREE));;
        let group_size := group_size + 1 in
        let e := P_BLOCKEDON xp in
        if e =? NONE then mret 0
        else if e =? cp_endpoint then
          if (group_size =? 2) &&
             anyset (Z.lxor (p_rts_flags xp) (Z.shiftl function 2)) RTS_SENDING
          then mret 0
          else mret group_size
        else deadlock_loop fuel' function cp_endpoint e group_size
  end.

Definition deadlock (function cp src_dst_e : Z) : K Z :=
  pr ← getp cp; deadlock_loop deadlock_fuel function (p_endpoint pr) src_dst_e 1.

(** ** Pending bit maps *)

(** [while (!get_sys_bit(map, src_id)) src_id++] *)
Fixpoint search_bits (fuel : nat) (map src_id : Z) : result Z :=
  match fuel with
  | O => Err OutOfFuel
  | S fuel' =>
      if get_sys_bit map src_id then Ok src_id else search_bits fuel' map (src_id + 1)
  end.

(** [for (src_id = 0; src_id < NR_SYS_PROCS; src_id += BITCHUNK_BITS)] *)
Fixpoint search_chunks (n : nat) (map src_id : Z) : result Z :=
  match n with
  | O => Ok src_id
  | S n' =>
      if src_id <? NR_SYS_PROCS then
        if negb (get_sys_bits map src_id =? 0)
        then search_bits (Z.to_nat BITCHUNK_BITS) map src_id
        else search_chunks n' map (src_id + BITCHUNK_BITS)
      else Ok src_id
  end.

Definition has_pending (map src_p : Z) : K Z :=
  if negb (src_p =? ANY) then
    src_id ← nr_to_id src_p;
    mret (if get_sys_bit map src_id then src_id else NULL_PRIV_ID)
  else
    src_id ← lift (search_chunks 3 map 0);
    mret (if src_id <? NR_SYS_PROCS then src_id else NULL_PRIV_ID).

Definition has_pending_notify (caller src_p : Z) : K Z :=
  pv ← getpriv caller; has_pending (s_notify_pending pv) src_p.
Definition has_pending_asend (caller src_p : Z) : K Z :=
  pv ← getpriv caller; has_pending (s_asyn_pending pv) src_p.
Definition unset_notify_pending (caller src_p : Z) : K unit :=
  updpriv caller (fun pv => set_s_notify_pending (unset_sys_bit (s_notify_pending pv) src_p) pv).

(** ** Notifications *)

Definition BuildNotifyMessage (src dst_ptr : Z) : K message :=
  timestamp ← get_monotonic;
  if src =? HARDWARE then
    pv ← getpriv dst_ptr;
    updpriv dst_ptr (set_s_int_pending 0);;
    mret (mk_message 0 NOTIFY_MESSAGE (PNotify timestamp (s_int_pending pv) 0))
  else if src =? SYSTEM then
    pv ← getpriv dst_ptr;
    updpriv dst_ptr (set_s_sig_pending 0);;
    mret (mk_message 0 NOTIFY_MESSAGE (PNotify timestamp 0 (s_sig_pending pv)))
  else mret (mk_message 0 NOTIFY_MESSAGE (PNotify timestamp 0 0)).

Definition mini_notify (caller_ptr dst_e : Z) : K ecode :=
  r ← isokendpt dst_e;
  let '(ok, dst_p) := (r : bool * Z) in
  if negb ok then mret EDEADSRCDST
  else
    dst ← getp dst_p;
    caller ← getp caller_ptr;
    if WILLRECEIVE dst (p_endpoint caller) && negb (anyset (p_misc_flags dst) MF_REPLY_PEND)
    then
      c_assert (negb (anyset (p_misc_flags dst) MF_DELIVERMSG));;
      m ← BuildNotifyMessage (p_nr caller) dst_p;
      updp dst_p (set_p_delivermsg (set_m_source (p_endpoint caller) m));;
      mf_set dst_p MF_DELIVERMSG;;
      IPC_STATUS_ADD_CALL dst_p NOTIFY;;
      RTS_UNSET dst_p RTS_RECEIVING;;
      mret OK
    else
      pv ← getpriv caller_ptr;
      let src_id := s_id pv in
      updpriv dst_p (fun pv => set_s_notify_pending (set_sys_bit (s_notify_pending pv) src_id) pv);;
      mret OK.

(** ** Sending *)

(** Fetch the message to send: from user space, where the copy can fail, or
    from the kernel. *)
Definition fetch_msg (m_ptr : msg_ptr) (flags : Z) : K (option message) :=
  if negb (anyset flags FROM_KERNEL) then
    match m_ptr with
    | UserMsg a => gets (fun s => umem s !! a)
    | KernelMsg _ => fail NullDeref
    end
  else
    match m_ptr with
    | KernelMsg m => mret (Some m)
    | UserMsg _ => fail NullDeref
    end.

(** The walk of [xpp] from [&dst_ptr->p_caller_q] along the [p_q_link] fields to
    the end of the queue, and the access through it. *)
Definition read_qpp (dst : Z) (prev : option Z) : K (option Z) :=
  match prev with
  | None => pr ← getp dst; mret (p_caller_q pr)
  | Some p => pr ← getp p; mret (p_q_link pr)
  end.
Definition write_qpp (dst : Z) (prev v : option Z) : K unit :=
  match prev with
  | None => updp dst (set_p_caller_q v)
  | Some p => updp p (set_p_q_link v)
  end.
Fixpoint append_caller (fuel : nat) (dst : Z) (prev : option Z) (rp : Z) : K unit :=
  match fuel with
  | O => fail OutOfFuel
  | S fuel' =>
      x ← read_qpp dst prev;
      match x with
      | Some x => append_caller fuel' dst (Some x) rp
      | None => write_qpp dst prev (Some rp)
      end
  end.

(** The destination waits for this message: deliver it. *)
Definition send_deliver (caller_ptr dst_p : Z) (m_ptr : msg_ptr) (flags : Z) : K ecode :=
  dst ← getp dst_p;
  caller ← getp caller_ptr;
  c_assert (negb (anyset (p_misc_flags dst) MF_DELIVERMSG));;
  m ← fetch_msg m_ptr flags;
  match m with
  | None => mret EFAULT
  | Some m =>
      updp dst_p (set_p_delivermsg m);;
      when (anyset flags FROM_KERNEL) (IPC_STATUS_ADD_FLAGS dst_p IPC_FLG_MSG_FROM_KERNEL);;
      updp dst_p (fun d => set_p_delivermsg (set_m_source (p_endpoint caller) (p_delivermsg d)) d);;
      mf_set dst_p MF_DELIVERMSG;;
      (let call := if anyset (p_misc_flags caller) MF_REPLY_PEND then SENDREC
                   else if anyset flags NON_BLOCKING then SENDNB else SEND in
       IPC_STATUS_ADD_CALL dst_p call);;
      mf_unset dst_p MF_REPLY_PEND;;
      RTS_UNSET dst_p RTS_RECEIVING;;
      mret OK
  end.

(** The destination is not waiting: block the caller on its queue. *)
Definition send_block (caller_ptr dst_p dst_e : Z) (m_ptr : msg_ptr) (flags : Z) : K ecode :=
  m ← fetch_msg m_ptr flags;
  match m with
  | None => mret EFAULT
  | Some m =>
      updp caller_ptr (set_p_sendmsg m);;
      when (anyset flags FROM_KERNEL) (mf_set caller_ptr MF_SENDING_FROM_KERNEL);;
      RTS_SET caller_ptr RTS_SENDING;;
      updp caller_ptr (set_p_sendto_e dst_e);;
      caller ← getp caller_ptr;
      c_assert (bool_decide (p_q_link caller = None));;
      append_caller queue_fuel dst_p None caller_ptr;;
      mret OK
  end.

Definition mini_send (caller_ptr dst_e : Z) (m_ptr : msg_ptr) (flags : Z) : K ecode :=
  let dst_p := _ENDPOINT_P dst_e in
  dst ← getp dst_p;
  if RTS_ISSET dst RTS_NO_ENDPOINT then mret EDEADSRCDST
  else
    caller ← getp caller_ptr;
    if WILLRECEIVE dst (p_endpoint caller) then send_deliver caller_ptr dst_p m_ptr flags
    else if anyset flags NON_BLOCKING then mret ENOTREADY
    else
      group ← deadlock SEND caller_ptr dst_e;
      if negb (group =? 0) then mret ELOCKED
      else send_block caller_ptr dst_p dst_e m_ptr flags.

(** ** Kernel signals *)

Definition increase_proc_signals (p : Z) : K unit :=
  updp p (fun pr => set_p_signal_received (p_signal_received pr + 1) pr).

Definition sigaddset (set sig : Z) : Z := Z.setbit set sig.
Definition sigismember (set sig : Z) : bool := Z.testbit set sig.

Definition send_sig (ep sig_nr : Z) : K ecode :=
  r ← isokendpt ep;
  let '(ok, proc_nr) := (r : bool * Z) in
  if negb ok then mret EINVAL
  else
    rp ← getp proc_nr;
    if isemptyp rp then mret EINVAL
    else
      match p_priv rp with
      | None => mret ENOENT
      | Some i =>
          upd_privs i (fun pv => set_s_sig_pending (sigaddset (s_sig_pending pv) sig_nr) pv);;
          increase_proc_signals proc_nr;;
          rp ← getp proc_nr;
          mini_notify SYSTEM (p_endpoint rp);;
          mret OK
      end.

(** The recursive call is made once, with the backup signal manager. *)
Fixpoint cause_sig_rec (depth : nat) (proc_nr sig_nr : Z) : K unit :=
  rp ← getp proc_nr;
  pv ← getpriv proc_nr;
  let sig_mgr := if s_sig_mgr pv =? SELF then p_endpoint rp else s_sig_mgr pv in
  if p_endpoint rp =? sig_mgr then
    if sigs_is_lethal sig_nr then
      let bak := s_bak_sig_mgr pv in
      r ← (if negb (bak =? NONE) then isokendpt bak else mret (false, 0));
      let '(ok, mgr_nr) := (r : bool * Z) in
      if ok then
        updpriv proc_nr (set_s_sig_mgr bak);;
        updpriv proc_nr (set_s_bak_sig_mgr NONE);;
        RTS_UNSET mgr_nr RTS_NO_PRIV;;
        match depth with
        | O => fail OutOfFuel
        | S depth' => cause_sig_rec depth' proc_nr sig_nr
        end
      else fail Panic
    else
      updpriv proc_nr (fun pv => set_s_sig_pending (sigaddset (s_sig_pending pv) sig_nr) pv);;
      r ← send_sig (p_endpoint rp) SIGKSIGSM;
      if bool_decide (r = OK) then skip else fail Panic
  else
    when (negb (sigismember (p_pending rp) sig_nr))
      (updp proc_nr (fun pr => set_p_pending (sigaddset (p_pending pr) sig_nr) pr);;
       increase_proc_signals proc_nr;;
       when (negb (RTS_ISSET rp RTS_SIGNALED))
         (RTS_SET proc_nr (Z.lor RTS_SIGNALED RTS_SIG_PENDING);;
          r ← send_sig sig_mgr SIGKSIG;
          if bool_decide (r = OK) then skip else fail Panic)).
Definition cause_sig (proc_nr sig_nr : Z) : K unit := cause_sig_rec 1 proc_nr sig_nr.

Definition sig_delay_done (rp : Z) : K unit :=
  mf_unset rp MF_SIG_DELAY;;
  pr ← getp rp;
  cause_sig (p_nr pr) SIGSNDELAY.

(** Signal every process that wants to hear of diagnostics. *)
Definition send_diag_sig : K unit :=
  foreach (seqZ 0 NR_SYS_PROCS) (fun i =>
    pv ← get_privs i;
    when (negb (s_proc_nr pv =? NONE) && s_diag_sig pv)
      (pr ← getp (s_proc_nr pv);
       send_sig (p_endpoint pr) SIGKMESS;;
       skip)).

End kipc.
