(* ===== verification/KSenda.v ===== *)
(** * Asynchronous messages (kernel/proc.c)

    [try_deliver_senda], [mini_senda], [try_async], [try_one] and
    [cancel_async]: messages queued in a table in the sender's memory. An entry
    of a table is read and written with [data_copy], which fails when the address
    is not mapped ([utab]). *)

From S2P Require Import Prelude KTypes KSched KIpc.
#[local] Open Scope Z_scope.

Section ksenda.
Context `{KEnv}.

(** A_RETR and A_INSRT: copy entry [i] of the table of [ep] from and to its memory. *)
Definition A_RETR (ep table_v i : Z) : K (option asynmsg) :=
  gets (fun s => utab s !! (ep, table_v + i * sizeof_asynmsg)).
Definition A_INSRT (ep table_v i : Z) (e : asynmsg) : K bool :=
  t ← gets utab;
  match t !! (ep, table_v + i * sizeof_asynmsg) with
  | Some _ => modify (set_utab (<[(ep, table_v + i * sizeof_asynmsg) := e]> t));; mret true
  | None => mret false
  end.

(** [flags] has bits other than the valid ones. *)
Definition amf_invalid (flags : Z) : bool :=
  negb (clearf flags (Z.lor AMF_VALID (Z.lor AMF_DONE (Z.lor AMF_NOTIFY
          (Z.lor AMF_NOREPLY AMF_NOTIFY_ERR)))) =? 0).

(** The notification due when an entry is finished with result [r]. *)
Definition amf_notify (flags : Z) (r : ecode) (do_notify : bool) : bool :=
  if anyset flags AMF_NOTIFY then true
  else if negb (bool_decide (r = OK)) && anyset flags AMF_NOTIFY_ERR then true
  else do_notify.

Definition TABLE_NONE : Z := u32 (-1).
Definition max_table : Z := 16 * (NR_TASKS + NR_PROCS).

(** ** Sending a table *)

(** The checks on the destination: the process, or the error to report. *)
Definition senda_dst (caller_ptr dst : Z) : K (Z + ecode) :=
  r ← isokendpt dst;
  let '(ok, dst_p) := (r : bool * Z) in
  if negb ok then mret (inr EDEADSRCDST)
  else if iskerneln dst_p then mret (inr ECALLDENIED)
  else
    may ← may_send_to caller_ptr dst_p;
    if negb may then mret (inr ECALLDENIED)
    else
      d ← getp dst_p;
      mret (if RTS_ISSET d RTS_NO_ENDPOINT then inr EDEADSRCDST else inl dst_p).

(** One entry of the table; the flags [done], [do_notify] are threaded. *)
Definition senda_entry (caller_ptr table_v i : Z) (st : bool * bool) : K (bool * bool) :=
  let '(done_, do_notify) := st in
  caller ← getp caller_ptr;
  e ← A_RETR (p_endpoint caller) table_v i;
  match e with
  | None => mret (done_, do_notify)
  | Some tabent =>
      let flags := am_flags tabent in
      if flags =? 0 then mret (done_, do_notify)
      else if amf_invalid flags then mret (done_, do_notify)
      else if negb (anyset flags AMF_VALID) then mret (done_, do_notify)
      else if anyset flags AMF_DONE then mret (done_, do_notify)
      else
        d ← senda_dst caller_ptr (am_dst tabent);
        let store (r : ecode) : K (bool * bool) :=
          A_INSRT (p_endpoint caller) table_v i
            (mk_asynmsg (setf flags AMF_DONE) (am_dst tabent) r (am_msg tabent));;
          mret (done_, amf_notify flags r do_notify) in
        match d with
        | inr r => store r
        | inl dst_p =>
            dst ← getp dst_p;
            if WILLRECEIVE dst (p_endpoint caller) &&
               (negb (anyset flags AMF_NOREPLY) || negb (anyset (p_misc_flags dst) MF_REPLY_PEND))
            then
              updp dst_p (set_p_delivermsg (set_m_source (p_endpoint caller) (am_msg tabent)));;
              mf_set dst_p MF_DELIVERMSG;;
              IPC_STATUS_ADD_CALL dst_p SENDA;;
              RTS_UNSET dst_p RTS_RECEIVING;;
              store OK
            else
              pv ← getpriv caller_ptr;
              let id := s_id pv in
              updpriv dst_p (fun pv => set_s_asyn_pending (set_sys_bit (s_asyn_pending pv) id) pv);;
              mret (false, do_notify)
        end
  end.

(** [for (i = 0; i < size; i++)] over the entries. *)
Fixpoint senda_loop (n : nat) (caller_ptr table_v i : Z) (st : bool * bool) : K (bool * bool) :=
  match n with
  | O => mret st
  | S n' =>
      st' ← senda_entry caller_ptr table_v i st;
      senda_loop n' caller_ptr table_v (i + 1) st'
  end.

Definition try_deliver_senda (caller_ptr table_v size : Z) : K ecode :=
  updpriv caller_ptr (fun pv => set_s_asynsize 0 (set_s_asyntab TABLE_NONE pv));;
  if size =? 0 then mret OK
  else if max_table <? size then mret EDOM
  else
    st ← senda_loop (Z.to_nat size) caller_ptr table_v 0 (true, false);
    let '(done_, do_notify) := (st : bool * bool) in
    when do_notify
      (caller ← getp caller_ptr; mini_notify ASYNCM (p_endpoint caller);; skip);;
    when (negb done_)
      (updpriv caller_ptr (fun pv => set_s_asynsize size (set_s_asyntab table_v pv)));;
    mret OK.

Definition mini_senda (caller_ptr table size : Z) : K ecode :=
  pv ← getpriv caller_ptr;
  if negb (anyset (s_flags pv) SYS_PROC) then mret EPERM
  else try_deliver_senda caller_ptr table size.

(** ** Receiving from a table *)

(** What the scan of [try_one] does at an entry. *)
Inductive scan_step :=
| ScanNext (done_ : bool)                          (* continue *)
| ScanStop (r : ecode) (do_notify : bool)          (* store_result; break *)
| ScanFault.                                       (* asyn_error *)

Definition try_one_entry (src_ptr dst_ptr table_v i : Z) (done_ : bool) : K scan_step :=
  src ← getp src_ptr;
  dst ← getp dst_ptr;
  e ← A_RETR (p_endpoint src) table_v i;
  match e with
  | None => mret ScanFault
  | Some tabent =>
      let flags := am_flags tabent in
      let store (r : ecode) : K scan_step :=
        ok ← A_INSRT (p_endpoint src) table_v i
          (mk_asynmsg (setf flags AMF_DONE) (am_dst tabent) r (am_msg tabent));
        mret (if ok : bool then ScanStop r (amf_notify flags r false) else ScanFault) in
      if flags =? 0 then mret (ScanNext done_)
      else if amf_invalid flags || negb (anyset flags AMF_VALID) then store EINVAL
      else if anyset flags AMF_DONE then mret (ScanNext done_)
      else if negb (am_dst tabent =? p_endpoint dst) then mret (ScanNext false)
      else if anyset flags AMF_NOREPLY && anyset (p_misc_flags dst) MF_REPLY_PEND
      then mret (ScanNext false)
      else
        updp dst_ptr (set_p_delivermsg (set_m_source (p_endpoint src) (am_msg tabent)));;
        mf_set dst_ptr MF_DELIVERMSG;;
        store OK
  end.

(** The scan: the result code, [done] and [do_notify], or [None] on a fault. *)
Fixpoint try_one_loop (n : nat) (src_ptr dst_ptr table_v i : Z) (done_ : bool)
  : K (option (ecode * bool * bool)) :=
  match n with
  | O => mret (Some (EAGAIN, done_, false))
  | S n' =>
      st ← try_one_entry src_ptr dst_ptr table_v i done_;
      match st with
      | ScanNext done' => try_one_loop n' src_ptr dst_ptr table_v (i + 1) done'
      | ScanStop r do_notify => mret (Some (r, false, do_notify))
      | ScanFault => mret None
      end
  end.

Definition try_one (src_ptr dst_ptr : Z) : K ecode :=
  privp ← getpriv src_ptr;
  if negb (anyset (s_flags privp) SYS_PROC) then mret EPERM
  else
    let size := s_asynsize privp in
    let table_v := s_asyntab privp in
    updpriv dst_ptr (fun pv => set_s_asyn_pending (unset_sys_bit (s_asyn_pending pv) (s_id privp)) pv);;
    if size =? 0 then mret EAGAIN
    else
      dst ← getp dst_ptr;
      may ← may_send_to src_ptr (p_nr dst);
      if negb may then mret ECALLDENIED
      else
        o ← try_one_loop (Z.to_nat size) src_ptr dst_ptr table_v 0 true;
        match (o : option (ecode * bool * bool)) with
        | None => mret EFAULT
        | Some (r, done_, do_notify) =>
            when do_notify
              (src ← getp src_ptr; mini_notify ASYNCM (p_endpoint src);; skip);;
            (if done_ then
               updpriv src_ptr (fun pv => set_s_asynsize 0 (set_s_asyntab TABLE_NONE pv))
             else
               updpriv dst_ptr (fun pv =>
                 set_s_asyn_pending (set_sys_bit (s_asyn_pending pv) (s_id privp)) pv));;
            mret r
        end.

(** Try all privilege structures. *)
Fixpoint try_async_loop (n : nat) (caller_ptr i : Z) : K ecode :=
  match n with
  | O => mret ESRCH
  | S n' =>
      privp ← get_privs i;
      if s_proc_nr privp =? NONE then try_async_loop n' caller_ptr (i + 1)
      else
        pv ← getpriv caller_ptr;
        if negb (get_sys_bit (s_asyn_pending pv) (s_id privp))
        then try_async_loop n' caller_ptr (i + 1)
        else
          caller ← getp caller_ptr;
          c_assert (negb (anyset (p_misc_flags caller) MF_DELIVERMSG));;
          r ← try_one (s_proc_nr privp) caller_ptr;
          if bool_decide (r = OK) then mret r
          else try_async_loop n' caller_ptr (i + 1)
  end.
Definition try_async (caller_ptr : Z) : K ecode :=
  try_async_loop (Z.to_nat NR_SYS_PROCS) caller_ptr 0.

(** ** Cancelling messages to a dead process *)

Fixpoint cancel_loop (n : nat) (src_ptr dst_ptr table_v i : Z) (st : bool * bool)
  : K (option (bool * bool)) :=
  match n with
  | O => mret (Some st)
  | S n' =>
      let '(done_, do_notify) := st in
      src ← getp src_ptr;
      dst ← getp dst_ptr;
      e ← A_RETR (p_endpoint src) table_v i;
      match e with
      | None => mret None
      | Some tabent =>
          let flags := am_flags tabent in
          let next st := cancel_loop n' src_ptr dst_ptr table_v (i + 1) st in
          if flags =? 0 then next st
          else
            let bad := amf_invalid flags || negb (anyset flags AMF_VALID) in
            if negb bad && anyset flags AMF_DONE then next st
            else if negb (am_dst tabent =? p_endpoint dst) then next (false, do_notify)
            else
              let r := if bad then EINVAL else EDEADSRCDST in
              ok ← A_INSRT (p_endpoint src) table_v i
                (mk_asynmsg (setf flags AMF_DONE) (am_dst tabent) r (am_msg tabent));
              if negb ok then mret None else next (done_, amf_notify flags r do_notify)
      end
  end.

Definition cancel_async (src_ptr dst_ptr : Z) : K ecode :=
  privp ← getpriv src_ptr;
  if negb (anyset (s_flags privp) SYS_PROC) then mret EPERM
  else
    let size := s_asynsize privp in
    let table_v := s_asyntab privp in
    updpriv src_ptr (fun pv => set_s_asynsize 0 (set_s_asyntab TABLE_NONE pv));;
    updpriv dst_ptr (fun pv => set_s_asyn_pending (unset_sys_bit (s_asyn_pending pv) (s_id privp)) pv);;
    if size =? 0 then mret EAGAIN
    else
      dst ← getp dst_ptr;
      may ← may_send_to src_ptr (p_nr dst);
      if negb may then mret ECALLDENIED
      else
        o ← cancel_loop (Z.to_nat size) src_ptr dst_ptr table_v 0 (true, false);
        match (o : option (bool * bool)) with
        | None => mret OK
        | Some (done_, do_notify) =>
            when do_notify
              (src ← getp src_ptr; mini_notify ASYNCM (p_endpoint src);; skip);;
            when (negb done_)
              (updpriv src_ptr (fun pv => set_s_asynsize size (set_s_asyntab table_v pv)));;
            mret OK
        end.

End ksenda.
