(* ===== verification/KCall.v ===== *)
(** * The IPC entry point and the return to user mode (kernel/proc.c)

    [mini_receive], [do_sync_ipc] and [do_ipc]; [notify_scheduler],
    [proc_no_time], [idle] and [switch_to_user]. *)

From S2P Require Import Prelude KTypes KSched KIpc KSenda.
#[local] Open Scope Z_scope.

Section kcall.
Context `{KEnv}.

(** ** Receiving *)

(** The search of the caller queue; [prev] is the process [xpp] points into. *)
Fixpoint receive_queue (fuel : nat) (caller_ptr src_e src_p : Z) (prev : option Z) : K bool :=
  match fuel with
  | O => fail OutOfFuel
  | S fuel' =>
      x ← read_qpp caller_ptr prev;
      match x with
      | None => mret false
      | Some sender =>
          sp ← getp sender;
          if (src_e =? ANY) || (src_p =? p_nr sp) then
            caller ← getp caller_ptr;
            c_assert (negb (RTS_ISSET sp RTS_SLOT_FREE));;
            c_assert (negb (RTS_ISSET sp RTS_NO_ENDPOINT));;
            c_assert (negb (anyset (p_misc_flags caller) MF_DELIVERMSG));;
            updp caller_ptr (set_p_delivermsg (set_m_source (p_endpoint sp) (p_sendmsg sp)));;
            mf_set caller_ptr MF_DELIVERMSG;;
            RTS_UNSET sender RTS_SENDING;;
            IPC_STATUS_ADD_CALL caller_ptr
              (if anyset (p_misc_flags sp) MF_REPLY_PEND then SENDREC else SEND);;
            when (anyset (p_misc_flags sp) MF_SENDING_FROM_KERNEL)
              (IPC_STATUS_ADD_FLAGS caller_ptr IPC_FLG_MSG_FROM_KERNEL;;
               mf_unset sender MF_SENDING_FROM_KERNEL);;
            when (anyset (p_misc_flags sp) MF_SIG_DELAY) (sig_delay_done sender);;
            sp ← getp sender;
            write_qpp caller_ptr prev (p_q_link sp);;
            updp sender (set_p_q_link None);;
            mret true
          else receive_queue fuel' caller_ptr src_e src_p (Some sender)
      end
  end.

(** A pending notification from the wanted source, delivered. *)
Definition receive_notify (caller_ptr src_e src_p : Z) : K bool :=
  caller ← getp caller_ptr;
  if anyset (p_misc_flags caller) MF_REPLY_PEND then mret false
  else
    src_id ← has_pending_notify caller_ptr src_p;
    if src_id =? NULL_PRIV_ID then mret false
    else
      src_proc_nr ← id_to_nr src_id;
      c_assert (negb (src_proc_nr =? NONE));;
      unset_notify_pending caller_ptr src_id;;
      src ← getp src_proc_nr;
      let hisep := p_endpoint src in
      c_assert (negb (anyset (p_misc_flags caller) MF_DELIVERMSG));;
      c_assert ((src_e =? ANY) || (hisep =? src_e));;
      m ← BuildNotifyMessage src_proc_nr caller_ptr;
      updp caller_ptr (set_p_delivermsg (set_m_source hisep m));;
      mf_set caller_ptr MF_DELIVERMSG;;
      IPC_STATUS_ADD_CALL caller_ptr NOTIFY;;
      mret true.

(** A pending asynchronous message, delivered. *)
Definition receive_async (caller_ptr src_p : Z) : K bool :=
  id ← has_pending_asend caller_ptr src_p;
  if id =? NULL_PRIV_ID then mret false
  else
    r ← (if negb (src_p =? ANY) then try_one src_p caller_ptr else try_async caller_ptr);
    if bool_decide (r = OK)
    then IPC_STATUS_ADD_CALL caller_ptr SENDA;; mret true
    else mret false.

(** Notifications first, then asynchronous messages, then blocked senders. *)
Definition receive_available (caller_ptr src_e src_p : Z) : K bool :=
  caller ← getp caller_ptr;
  if RTS_ISSET caller RTS_SENDING then mret false
  else
    n ← receive_notify caller_ptr src_e src_p;
    if n : bool then mret true
    else
      a ← receive_async caller_ptr src_p;
      if a : bool then mret true
      else receive_queue queue_fuel caller_ptr src_e src_p None.

Definition mini_receive (caller_ptr src_e m_buff_usr flags : Z) : K ecode :=
  caller ← getp caller_ptr;
  c_assert (negb (anyset (p_misc_flags caller) MF_DELIVERMSG));;
  updp caller_ptr (set_p_delivermsg_vir m_buff_usr);;
  src ← (if src_e =? ANY then mret (inl ANY)
         else
           src_p ← okendpt src_e;
           sp ← getp src_p;
           mret (if RTS_ISSET sp RTS_NO_ENDPOINT then inr EDEADSRCDST else inl src_p));
  match (src : Z + ecode) with
  | inr e => mret e
  | inl src_p =>
      got ← receive_available caller_ptr src_e src_p;
      if got : bool then
        mf_unset caller_ptr MF_REPLY_PEND;; mret OK
      else if negb (anyset flags NON_BLOCKING) then
        group ← deadlock RECEIVE caller_ptr src_e;
        if negb (group =? 0) then mret ELOCKED
        else
          updp caller_ptr (set_p_getfrom_e src_e);;
          RTS_SET caller_ptr RTS_RECEIVING;;
          mret OK
      else mret ENOTREADY
  end.

(** ** The synchronous calls *)

(** The calls main.c gives a name to. *)
Definition ipc_call_named (call_nr : Z) : bool :=
  bool_decide (call_nr ∈ [SEND; RECEIVE; SENDREC; NOTIFY; SENDNB; SENDA]).

(** The checks of [do_sync_ipc]: the slot of the other party, or the error. *)
Definition sync_ipc_check (caller_ptr call_nr src_dst_e : Z) : K (Z + ecode) :=
  if (call_nr <? 0) || (SENDA <? call_nr) || (32 <=? call_nr) || negb (ipc_call_named call_nr)
  then mret (inr ETRAPDENIED)
  else
    r ← (if src_dst_e =? ANY then
           mret (if negb (call_nr =? RECEIVE) then inr EINVAL else inl src_dst_e)
         else
           k ← isokendpt src_dst_e;
           let '(ok, src_dst_p) := (k : bool * Z) in
           if negb ok then mret (inr EDEADSRCDST)
           else if negb (call_nr =? RECEIVE) then
             may ← may_send_to caller_ptr src_dst_p;
             mret (if negb may then inr ECALLDENIED else inl src_dst_p)
           else mret (inl src_dst_p));
    match (r : Z + ecode) with
    | inr e => mret (inr e)
    | inl src_dst_p =>
        pv ← getpriv caller_ptr;
        mret (if negb (Z.testbit (s_trap_mask pv) call_nr) then inr ETRAPDENIED
              else if negb (call_nr =? SENDREC) && negb (call_nr =? RECEIVE) &&
                      iskerneln src_dst_p then inr ETRAPDENIED
              else inl src_dst_p)
    end.

Definition do_sync_ipc (caller_ptr call_nr src_dst_e m_ptr : Z) : K ecode :=
  c_assert (negb (call_nr =? SENDA));;
  r ← sync_ipc_check caller_ptr call_nr src_dst_e;
  match (r : Z + ecode) with
  | inr e => mret e
  | inl _ =>
      if call_nr =? SENDREC then
        mf_set caller_ptr MF_REPLY_PEND;;
        result ← mini_send caller_ptr src_dst_e (UserMsg m_ptr) 0;
        if negb (bool_decide (result = OK)) then mret result
        else mini_receive caller_ptr src_dst_e m_ptr 0
      else if call_nr =? SEND then mini_send caller_ptr src_dst_e (UserMsg m_ptr) 0
      else if call_nr =? RECEIVE then
        mf_unset caller_ptr MF_REPLY_PEND;;
        IPC_STATUS_CLEAR caller_ptr;;
        mini_receive caller_ptr src_dst_e m_ptr 0
      else if call_nr =? NOTIFY then mini_notify caller_ptr src_dst_e
      else if call_nr =? SENDNB then mini_send caller_ptr src_dst_e (UserMsg m_ptr) NON_BLOCKING
      else mret EBADCALL
  end.

(** The system call entry; [minix_kerninfo_user] is a variable of the kernel. *)
Definition do_ipc (minix_kerninfo_user r1 r2 r3 : Z) : K ecode :=
  caller_ptr ← gets proc_ptr;
  let call_nr := i32 r1 in
  caller ← getp caller_ptr;
  c_assert (negb (RTS_ISSET caller RTS_SLOT_FREE));;
  modify (set_kbill_ipc (Some caller_ptr));;
  if anyset (p_misc_flags caller) (Z.lor MF_SC_TRACE MF_SC_DEFER) &&
     (Z.land (p_misc_flags caller) (Z.lor MF_SC_TRACE MF_SC_DEFER) =? MF_SC_TRACE)
  then
    mf_unset caller_ptr MF_SC_TRACE;;
    mf_set caller_ptr MF_SC_DEFER;;
    updp caller_ptr (set_p_defer (r1, r2, r3));;
    cause_sig (p_nr caller) SIGTRAP;;
    caller ← getp caller_ptr;
    mret (Raw (p_retreg caller))
  else
    when (anyset (p_misc_flags caller) (Z.lor MF_SC_TRACE MF_SC_DEFER))
      (mf_unset caller_ptr MF_SC_DEFER;;
       c_assert (negb (anyset (p_misc_flags caller) MF_SC_ACTIVE));;
       mf_set caller_ptr MF_SC_ACTIVE);;
    if anyset (p_misc_flags caller) MF_DELIVERMSG then fail Panic
    else if bool_decide (call_nr ∈ [SENDREC; SEND; RECEIVE; NOTIFY; SENDNB]) then
      updp caller_ptr (fun pr => set_a_ipc_sync (u32 (a_ipc_sync pr + 1)) pr);;
      do_sync_ipc caller_ptr call_nr (i32 r2) r3
    else if call_nr =? SENDA then
      let msg_size := u32 r2 in
      updp caller_ptr (fun pr => set_a_ipc_async (u32 (a_ipc_async pr + 1)) pr);;
      if max_table <? msg_size then mret EDOM
      else mini_senda caller_ptr r3 msg_size
    else if call_nr =? MINIX_KERNINFO then
      if minix_kerninfo_user =? 0 then mret EBADCALL
      else updp caller_ptr (set_p_ipc_status minix_kerninfo_user);; mret OK
    else mret EBADCALL.

(** ** Out of quantum *)

Definition notify_scheduler (p : Z) : K unit :=
  pr ← getp p;
  c_assert (negb (proc_kernel_scheduler p pr));;
  RTS_SET p RTS_NO_QUANTUM;;
  pr ← getp p;
  let m_no_quantum := mk_message (p_endpoint pr) SCHEDULING_NO_QUANTUM
    (PNoQuantum (cpu_time_2_ms (a_time_in_queue pr)) (a_dequeues pr) (a_ipc_sync pr)
                (a_ipc_async pr) (a_preempted pr) 0 cpu_load) in
  reset_proc_accounting p;;
  sched ← deref (p_scheduler pr);
  spr ← getp sched;
  err ← mini_send p (p_endpoint spr) (KernelMsg m_no_quantum) FROM_KERNEL;
  if bool_decide (err = OK) then skip else fail Panic.

Definition proc_no_time (p : Z) : K unit :=
  pr ← getp p;
  pv ← (if proc_kernel_scheduler p pr then mret false
        else pv ← getpriv p; mret (anyset (s_flags pv) PREEMPTIBLE));
  if pv : bool then notify_scheduler p
  else updp p (fun pr => set_p_cpu_time_left (ms_2_cpu_time (p_quantum_size_ms pr)) pr).

(** ** Returning to user mode *)

(** The machine-dependent and suspended work that [switch_to_user] runs for a
    process, and what interrupts do while the cpu is halted. *)
Context (kernel_call_resume delivermsg arch_do_syscall : Z -> K unit) (halt_cpu : K unit).

Definition idle : K unit :=
  modify (set_proc_ptr IDLE_SLOT);;
  pv ← getpriv IDLE_SLOT;
  when (anyset (s_flags pv) BILLABLE) (modify (set_bill_ptr (Some IDLE_SLOT)));;
  halt_cpu.

(** [while (!(p = pick_proc())) idle();] *)
Fixpoint pick_or_idle (fuel : nat) (rdy : rdy_head_var) : K Z :=
  match fuel with
  | O => fail OutOfFuel
  | S fuel' =>
      p ← pick_proc rdy;
      match (p : option Z) with
      | Some p => mret p
      | None => idle;; pick_or_idle fuel' rdy
      end
  end.

(** A process preempted but still runnable goes back to its queue. *)
Definition requeue_preempted (p : Z) : K unit :=
  pr ← getp p;
  when (proc_is_preempted pr)
    (updp p (fun pr => set_p_rts_flags (clearf (p_rts_flags pr) RTS_PREEMPTED) pr);;
     pr ← getp p;
     when (proc_is_runnable pr)
       (if negb (p_cpu_time_left pr =? 0) then enqueue_head p else enqueue p)).

Definition misc_work : Z :=
  Z.lor MF_KCALL_RESUME (Z.lor MF_DELIVERMSG (Z.lor MF_SC_DEFER (Z.lor MF_SC_TRACE MF_SC_ACTIVE))).

(** The loop over the misc flags: [true] when the process may run, [false] to
    pick another one. *)
Fixpoint check_misc_flags (fuel : nat) (p : Z) : K bool :=
  match fuel with
  | O => fail OutOfFuel
  | S fuel' =>
      pr ← getp p;
      if negb (anyset (p_misc_flags pr) misc_work) then mret true
      else
        c_assert (proc_is_runnable pr);;
        stop ←
          (if anyset (p_misc_flags pr) MF_KCALL_RESUME then kernel_call_resume p;; mret false
           else if anyset (p_misc_flags pr) MF_DELIVERMSG then delivermsg p;; mret false
           else if anyset (p_misc_flags pr) MF_SC_DEFER then
             c_assert (negb (anyset (p_misc_flags pr) MF_SC_ACTIVE));;
             arch_do_syscall p;;
             pr ← getp p;
             when (anyset (p_misc_flags pr) MF_SIG_DELAY && negb (RTS_ISSET pr RTS_SENDING))
               (sig_delay_done p);;
             mret false
           else if anyset (p_misc_flags pr) MF_SC_TRACE then
             if negb (anyset (p_misc_flags pr) MF_SC_ACTIVE) then mret true
             else
               mf_unset p (Z.lor MF_SC_TRACE MF_SC_ACTIVE);;
               cause_sig (p_nr pr) SIGTRAP;;
               mret false
           else mf_unset p MF_SC_ACTIVE;; mret true);
        if stop : bool then mret true
        else
          pr ← getp p;
          if negb (proc_is_runnable pr) then mret false else check_misc_flags fuel' p
  end.

(** The process that returns to user mode. *)
Fixpoint switch_loop (fuel : nat) (rdy : rdy_head_var) (pick : bool) (p : Z) : K Z :=
  match fuel with
  | O => fail OutOfFuel
  | S fuel' =>
      p ← (if pick then
             requeue_preempted p;;
             p ← pick_or_idle fuel' rdy;
             modify (set_proc_ptr p);;
             mret p
           else mret p);
      pr ← getp p;
      c_assert (proc_is_runnable pr);;
      go ← check_misc_flags fuel' p;
      if negb go then switch_loop fuel' rdy true p
      else
        pr ← getp p;
        when (p_cpu_time_left pr =? 0) (proc_no_time p);;
        pr ← getp p;
        if negb (proc_is_runnable pr) then switch_loop fuel' rdy true p
        else
          updp p (fun pr => set_p_schedules (p_schedules pr + 1) pr);;
          pr ← getp p;
          c_assert (negb (p_cpu_time_left pr =? 0));;
          mf_unset p MF_CONTEXT_SET;;
          mret p
  end.

Definition switch_to_user (fuel : nat) (rdy : rdy_head_var) : K Z :=
  p ← gets proc_ptr;
  pr ← getp p;
  switch_loop fuel rdy (negb (proc_is_runnable pr)) p.

End kcall.
