(* ===== verification/KSys.v ===== *)
(** * Kernel calls on the process table (kernel/system.c, kernel/system/)

    Privileges and send masks, cleaning up a dead process, [sched_proc] with
    its two kernel calls, [do_fork] with the lottery tickets of the child,
    [do_runctl] and the signal calls. The fields of the request message are the
    arguments of the calls; reply fields are part of the result. *)

From S2P Require Import Prelude KTypes KSched KIpc KSenda.
From Stdlib Require Import String.
#[local] Open Scope Z_scope.

Section ksys.
Context `{KEnv}.

(** ** Privileges *)

(** The first free structure of the dynamic range. *)
Fixpoint find_dyn_priv (n : nat) (i : Z) : K (option Z) :=
  match n with
  | O => mret None
  | S n' =>
      pv ← get_privs i;
      if s_proc_nr pv =? NONE then mret (Some i) else find_dyn_priv n' (i + 1)
  end.

Definition get_priv (rc priv_id : Z) : K ecode :=
  sp ← (if priv_id =? NULL_PRIV_ID then
          o ← find_dyn_priv (Z.to_nat (NR_SYS_PROCS - NR_STATIC_PRIV_IDS)) NR_STATIC_PRIV_IDS;
          mret (match (o : option Z) with Some i => inl i | None => inr ENOSPC end)
        else if negb ((0 <=? priv_id) && (priv_id <? NR_STATIC_PRIV_IDS)) then mret (inr EINVAL)
        else
          pv ← get_privs priv_id;
          mret (if negb (s_proc_nr pv =? NONE) then inr EBUSY else inl priv_id));
  match (sp : Z + ecode) with
  | inr e => mret e
  | inl i =>
      updp rc (set_p_priv (Some i));;
      rcp ← getp rc;
      upd_privs i (set_s_proc_nr (p_nr rcp));;
      mret OK
  end.

Definition set_sendto_bit (rp id : Z) : K unit :=
  nr ← id_to_nr id;
  pv ← getpriv rp;
  if (nr =? NONE) || (s_id pv =? id) then
    updpriv rp (fun pv => set_s_ipc_to (unset_sys_bit (s_ipc_to pv) id) pv)
  else
    updpriv rp (fun pv => set_s_ipc_to (set_sys_bit (s_ipc_to pv) id) pv);;
    other ← get_privs id;
    when (anyset (s_trap_mask other) (Z.lnot (Z.shiftl 1 RECEIVE)))
      (upd_privs id (fun o => set_s_ipc_to (set_sys_bit (s_ipc_to o) (s_id pv)) o)).

Definition unset_sendto_bit (rp id : Z) : K unit :=
  pv ← getpriv rp;
  updpriv rp (fun pv => set_s_ipc_to (unset_sys_bit (s_ipc_to pv) id) pv);;
  upd_privs id (fun o => set_s_ipc_to (unset_sys_bit (s_ipc_to o) (s_id pv)) o).

Definition fill_sendto_mask (rp map : Z) : K unit :=
  foreach (seqZ 0 NR_SYS_PROCS) (fun i =>
    if get_sys_bit map i then set_sendto_bit rp i else unset_sendto_bit rp i).

(** ** Cleaning up *)

(** Remove [rc] from the queue of callers of [dst]; its own link stays. *)
Fixpoint unlink_caller (fuel : nat) (dst rc : Z) (prev : option Z) : K unit :=
  match fuel with
  | O => fail OutOfFuel
  | S fuel' =>
      x ← read_qpp dst prev;
      match x with
      | None => skip
      | Some x =>
          if x =? rc then
            pr ← getp x; write_qpp dst prev (p_q_link pr)
          else unlink_caller fuel' dst rc (Some x)
      end
  end.

Definition clear_ipc (rc : Z) : K unit :=
  pr ← getp rc;
  when (RTS_ISSET pr RTS_SENDING)
    (target ← okendpt (p_sendto_e pr);
     unlink_caller queue_fuel target rc None;;
     RTS_UNSET rc RTS_SENDING);;
  RTS_UNSET rc RTS_RECEIVING.

(** [while ((src_id = has_pending_asend(rc, ANY)) != NULL_PRIV_ID)] *)
Fixpoint cancel_pending (fuel : nat) (rc : Z) : K unit :=
  match fuel with
  | O => fail OutOfFuel
  | S fuel' =>
      src_id ← has_pending_asend rc ANY;
      if src_id =? NULL_PRIV_ID then skip
      else
        nr ← id_to_nr src_id;
        cancel_async nr rc;;
        cancel_pending fuel' rc
  end.

Definition clear_ipc_refs (rc caller_ret : Z) : K unit :=
  cancel_pending 65 rc;;
  foreach slots (fun rp =>
    pr ← getp rp;
    when (negb (isemptyp pr))
      (rcpv ← getpriv rc;
       updpriv rp (fun pv => set_s_notify_pending (unset_sys_bit (s_notify_pending pv) (s_id rcpv)) pv);;
       updpriv rp (fun pv => set_s_asyn_pending (unset_sys_bit (s_asyn_pending pv) (s_id rcpv)) pv);;
       pr ← getp rp;
       rcp ← getp rc;
       when (P_BLOCKEDON pr =? p_endpoint rcp)
         (updp rp (set_p_retreg caller_ret);; clear_ipc rp))).

Definition clear_endpoint (rc dead_code : Z) : K unit :=
  pr ← getp rc;
  if isemptyp pr then fail Panic
  else
    RTS_SET rc RTS_NO_ENDPOINT;;
    pv ← getpriv rc;
    when (anyset (s_flags pv) SYS_PROC) (updpriv rc (set_s_asynsize 0));;
    clear_ipc rc;;
    clear_ipc_refs rc dead_code.

(** ** Scheduling calls *)

Definition TASK_Q : Z := 0.

Definition sched_proc (p priority quantum cpu : Z) : K ecode :=
  if ((priority <? TASK_Q) && negb (priority =? -1)) || (NR_SCHED_QUEUES <? priority)
  then mret EINVAL
  else if (quantum <? 1) && negb (quantum =? -1) then mret EINVAL
  else
    pr ← getp p;
    when (proc_is_runnable pr) (RTS_SET p RTS_NO_QUANTUM);;
    pr ← getp p;
    when (proc_is_runnable pr) (RTS_SET p RTS_NO_QUANTUM);;
    when (negb (priority =? -1)) (updp p (set_p_priority priority));;
    when (negb (quantum =? -1))
      (updp p (set_p_quantum_size_ms quantum);;
       updp p (set_p_cpu_time_left (ms_2_cpu_time quantum)));;
    RTS_UNSET p RTS_NO_QUANTUM;;
    mret OK.

Definition do_schedule (caller endpoint priority quantum cpu : Z) : K ecode :=
  r ← isokendpt endpoint;
  let '(ok, p) := (r : bool * Z) in
  if negb ok then mret EINVAL
  else
    pr ← getp p;
    if negb (bool_decide (p_scheduler pr = Some caller)) then mret EPERM
    else sched_proc p priority quantum cpu.

Definition SCHEDCTL_FLAG_KERNEL : Z := 1.

(** [if((r = sched_proc(p, priority, quantum, cpu) != OK))]: [r] is the truth
    value of the comparison, so a failed call returns 1. *)
Definition do_schedctl (caller flags endpoint priority quantum cpu : Z) : K ecode :=
  if negb (clearf (u32 flags) SCHEDCTL_FLAG_KERNEL =? 0) then mret EINVAL
  else
    r ← isokendpt endpoint;
    let '(ok, p) := (r : bool * Z) in
    if negb ok then mret EINVAL
    else if Z.land (u32 flags) SCHEDCTL_FLAG_KERNEL =? SCHEDCTL_FLAG_KERNEL then
      e ← sched_proc p priority quantum cpu;
      if negb (bool_decide (e = OK)) then mret (Raw 1)
      else updp p (set_p_scheduler None);; mret OK
    else updp p (set_p_scheduler (Some caller));; mret OK.

(** ** Fork *)

Definition PFF_VMINHIBIT : Z := 1.
Definition PROC_NAME_LEN : nat := 16.

(** Mark the name as that of a forked copy when there is room. *)
Definition fork_name (name : string) : string :=
  if bool_decide (String.length name + 2 < PROC_NAME_LEN)%nat
  then String.append name "*F" else name.

Definition next_generation (e : Z) : Z :=
  let gen := _ENDPOINT_G e + 1 in if _ENDPOINT_MAX_GENERATION <=? gen then 1 else gen.

(** The child's table entry, from the parent's and the old entry of the slot. *)
Definition fork_child (rpp : proc) (slot gen : Z) : proc :=
  set_p_virt_left 0 (set_p_prof_left 0
    (set_p_misc_flags (clearf (p_misc_flags rpp)
        (Z.lor MF_VIRT_TIMER (Z.lor MF_PROF_TIMER (Z.lor MF_SC_TRACE (Z.lor MF_SPROF_SEEN MF_STEP)))))
      (set_p_user_time 0 (set_p_sys_time 0 (set_p_retreg 0
        (set_p_endpoint (_ENDPOINT gen slot) (set_p_nr slot
          (set_p_name (fork_name (p_name rpp)) (set_p_tickets (p_tickets rpp) rpp))))))))).

(** The result: the code, and the child's endpoint and message address. *)
Definition do_fork (endpt slot flags : Z) : K (ecode * Z * Z) :=
  r ← isokendpt endpt;
  let '(ok, p_proc) := (r : bool * Z) in
  if negb ok then mret (EINVAL, 0, 0)
  else
    rpp ← getp p_proc;
    rpc ← getp slot;
    if isemptyp rpp || negb (isemptyp rpc) then mret (EINVAL, 0, 0)
    else
      c_assert (negb (anyset (p_misc_flags rpp) MF_DELIVERMSG));;
      if negb (RTS_ISSET rpp RTS_RECEIVING) then mret (EINVAL, 0, 0)
      else
        let gen := next_generation (p_endpoint rpc) in
        updp slot (fun _ => fork_child rpp slot gen);;
        RTS_SET slot RTS_NO_QUANTUM;;
        reset_proc_accounting slot;;
        updp slot (fun rpc => set_p_signal_received 0 (set_p_kipc_cycles 0
          (set_p_kcall_cycles 0 (set_p_cycles 0 (set_p_cpu_time_left 0 rpc)))));;
        pv ← getpriv p_proc;
        when (anyset (s_flags pv) SYS_PROC)
          (updp slot (fun rpc => set_p_rts_flags (setf (p_rts_flags rpc) RTS_NO_PRIV)
                                   (set_p_priv (Some USER_PRIV_ID) rpc)));;
        rpc ← getp slot;
        rpp ← getp p_proc;
        when (anyset flags PFF_VMINHIBIT) (RTS_SET slot RTS_VMINHIBIT);;
        RTS_UNSET slot (Z.lor RTS_SIGNALED (Z.lor RTS_SIG_PENDING RTS_P_STOP));;
        updp slot (set_p_pending 0);;
        mret (OK, p_endpoint rpc, p_delivermsg_vir rpp).

(** ** Process control and signals *)

Definition RC_STOP : Z := 0.
Definition RC_RESUME : Z := 1.
Definition RC_DELAY : Z := 1.

Definition do_runctl (endpt action flags : Z) : K ecode :=
  r ← isokendpt endpt;
  let '(ok, rp) := (r : bool * Z) in
  if negb ok then mret EINVAL
  else if iskerneln rp then mret EPERM
  else
    busy ← (if (action =? RC_STOP) && anyset flags RC_DELAY then
              pr ← getp rp;
              when (RTS_ISSET pr RTS_SENDING || anyset (p_misc_flags pr) MF_SC_DEFER)
                (mf_set rp MF_SIG_DELAY);;
              pr ← getp rp;
              mret (anyset (p_misc_flags pr) MF_SIG_DELAY)
            else mret false);
    if busy : bool then mret EBUSY
    else if action =? RC_STOP then RTS_SET rp RTS_PROC_STOP;; mret OK
    else if action =? RC_RESUME then
      pr ← getp rp;
      c_assert (RTS_ISSET pr RTS_PROC_STOP);;
      RTS_UNSET rp RTS_PROC_STOP;;
      mret OK
    else mret EINVAL.

Definition do_endksig (caller endpt : Z) : K ecode :=
  r ← isokendpt endpt;
  let '(ok, rp) := (r : bool * Z) in
  if negb ok then mret EINVAL
  else
    c ← getp caller;
    pv ← getpriv rp;
    pr ← getp rp;
    if negb (p_endpoint c =? s_sig_mgr pv) then mret EPERM
    else if negb (RTS_ISSET pr RTS_SIG_PENDING) then mret EINVAL
    else
      when (negb (RTS_ISSET pr RTS_SIGNALED)) (RTS_UNSET rp RTS_SIG_PENDING);;
      mret OK.

(** The endpoint and the signals of the first process with pending signals; the
    map of the message is not written when there is none. *)
Fixpoint getksig_loop (n : nat) (caller rp : Z) : K (Z * option Z) :=
  match n with
  | O => mret (NONE, None)
  | S n' =>
      pr ← getp rp;
      if RTS_ISSET pr RTS_SIGNALED then
        c ← getp caller;
        pv ← getpriv rp;
        if negb (p_endpoint c =? s_sig_mgr pv) then getksig_loop n' caller (rp + 1)
        else
          updp rp (set_p_pending 0);;
          RTS_UNSET rp RTS_SIGNALED;;
          mret (p_endpoint pr, Some (p_pending pr))
      else getksig_loop n' caller (rp + 1)
  end.
Definition do_getksig (caller : Z) : K (Z * option Z) := getksig_loop (Z.to_nat NR_PROCS) caller 0.

(** [nsig] is [_NSIG]. *)
Definition do_kill (nsig endpt sig_nr : Z) : K ecode :=
  r ← isokendpt endpt;
  let '(ok, proc_nr) := (r : bool * Z) in
  if negb ok then mret EINVAL
  else if nsig <=? sig_nr then mret EINVAL
  else if iskerneln proc_nr then mret EPERM
  else cause_sig proc_nr sig_nr;; mret OK.

(** [sigabrt] is SIGABRT; the caller gets no reply. *)
Definition do_exit (sigabrt caller : Z) : K unit :=
  c ← getp caller; cause_sig (p_nr c) sigabrt.

End ksys.
