(* ===== verification/KIpcFacts.v ===== *)
(** * The wait-for graph and the queues of callers

    An abstract view of the process table ([ipcv]) keeps what message passing
    depends on. On it are stated the invariant of the queues of callers, the
    wait-for graph of blocked processes and the absence of cycles in it; the
    deadlock test of the kernel is proved to decide reachability in the graph. *)

From S2P Require Import Prelude KTypes KSched KSchedFacts KIpc.
From stdpp Require Import relations.
#[local] Open Scope Z_scope.

(** ** The abstract view *)

Record ipcv := mk_ipcv {
  i_endpoint : Z;
  i_blockedon : Z;          (* P_BLOCKEDON *)
  i_sending : bool;         (* RTS_SENDING *)
  i_waiting : bool;         (* RTS_RECEIVING without RTS_SENDING *)
  i_free : bool;            (* RTS_SLOT_FREE *)
  i_deliver : bool;         (* MF_DELIVERMSG *)
  i_magic : bool;           (* proc_ptr_ok *)
  i_link : option Z;        (* p_q_link *)
  i_callq : option Z;       (* p_caller_q *)
}.

Definition iv (pr : proc) : ipcv :=
  mk_ipcv (p_endpoint pr) (P_BLOCKEDON pr) (RTS_ISSET pr RTS_SENDING)
    (RTS_ISSET pr RTS_RECEIVING && negb (RTS_ISSET pr RTS_SENDING))
    (RTS_ISSET pr RTS_SLOT_FREE) (anyset (p_misc_flags pr) MF_DELIVERMSG)
    (proc_ptr_ok pr) (p_q_link pr) (p_caller_q pr).

Notation imap := (gmap Z ipcv).
Definition ivs (s : kstate) : imap := iv <$> procs s.

Lemma ivs_lookup s p : ivs s !! p = iv <$> procs s !! p.
Proof. apply lookup_fmap. Qed.

Lemma sending_anyset pr : anyset (p_rts_flags pr) RTS_SENDING = RTS_ISSET pr RTS_SENDING.
Proof. by apply (anyset_isset _ _ 2). Qed.
Lemma receiving_anyset pr : anyset (p_rts_flags pr) RTS_RECEIVING = RTS_ISSET pr RTS_RECEIVING.
Proof. by apply (anyset_isset _ _ 3). Qed.

(** Message passing does not see what scheduling changes. *)
Lemma iv_ev pr pr' : ev pr' = ev pr -> iv pr' = iv pr.
Proof.
  intros E. unfold iv, P_BLOCKEDON. rewrite !sending_anyset, !receiving_anyset.
  rewrite !(isset_ev pr pr') by done.
  pose proof (f_equal p_endpoint E) as E1. pose proof (f_equal p_sendto_e E) as E2.
  pose proof (f_equal p_getfrom_e E) as E3. pose proof (f_equal p_misc_flags E) as E4.
  pose proof (f_equal p_q_link E) as E5. pose proof (f_equal p_caller_q E) as E6.
  pose proof (f_equal p_magic E) as E7. simpl in *.
  unfold proc_ptr_ok. by rewrite E1, E2, E3, E4, E5, E6, E7.
Qed.

Lemma ivs_view s s' : view s' = view s -> ivs s' = ivs s.
Proof.
  intros E. apply map_eq. intros p. rewrite !ivs_lookup.
  destruct (procs s !! p) as [pr|] eqn:Hp.
  - destruct (view_lookup s s' p pr E Hp) as (pr' & -> & Ee). simpl. f_equal. by apply iv_ev.
  - destruct (procs s' !! p) as [pr'|] eqn:Hp'; [|done].
    destruct (view_lookup s' s p pr' (symmetry E) Hp') as (pr & ? & _). congruence.
Qed.

Lemma ivs_insert s p pr : ivs (set_procs (<[p := pr]> (procs s)) s) = <[p := iv pr]> (ivs s).
Proof. unfold ivs. simpl. apply fmap_insert. Qed.

Lemma ivs_insert_same s p pr pr' :
  procs s !! p = Some pr -> iv pr' = iv pr ->
  ivs (set_procs (<[p := pr']> (procs s)) s) = ivs s.
Proof.
  intros Hp E. rewrite ivs_insert, E. apply insert_id. by rewrite ivs_lookup, Hp.
Qed.

(** ** Caller queues *)

(** From pointer [h] along the links, the processes [l], up to [NULL]. *)
Fixpoint callers (m : imap) (h : option Z) (l : list Z) : Prop :=
  match l with
  | [] => h = None
  | p :: l' => h = Some p /\ exists v, m !! p = Some v /\ callers m (i_link v) l'
  end.

(** ** The wait-for graph *)

Definition live (m : imap) (e : Z) : Prop :=
  _ENDPOINT_P e ∈ slots /\ exists v, m !! _ENDPOINT_P e = Some v /\ i_endpoint v = e /\
    i_free v = false /\ i_magic v = true.

(** [p] is blocked on process [q]. *)
Definition edge (m : imap) (p q : Z) : Prop :=
  exists v, m !! p = Some v /\ i_blockedon v <> NONE /\ i_blockedon v <> ANY /\
    _ENDPOINT_P (i_blockedon v) = q.

Definition acyclic (m : imap) : Prop := forall p, ~ tc (edge m) p p.

Record ipc_inv (m : imap) (C : Z -> list Z) : Prop := {
  ii_slots : forall p v, p ∈ slots -> m !! p = Some v -> _ENDPOINT_P (i_endpoint v) = p;
  ii_live : forall p v, m !! p = Some v -> i_blockedon v <> NONE -> i_blockedon v <> ANY ->
              live m (i_blockedon v);
  ii_acyclic : acyclic m;
  ii_deliver : forall p v, m !! p = Some v -> i_waiting v = true -> i_deliver v = false;
  ii_callers : forall d v, d ∈ slots -> m !! d = Some v ->
                 callers m (i_callq v) (C d) /\ NoDup (C d);
  ii_sending : forall p d, p ∈ C d <-> exists v, m !! p = Some v /\ i_sending v = true /\
                 _ENDPOINT_P (i_blockedon v) = d;
  ii_link : forall p v, m !! p = Some v -> i_sending v = false -> i_link v = None;
  ii_range : forall p v, m !! p = Some v -> i_sending v = true -> p ∈ slots;
}.

(** ** Deadlock detection decides reachability *)

Lemma edge_functional m p q1 q2 : edge m p q1 -> edge m p q2 -> q1 = q2.
Proof. intros (v1 & ? & _ & _ & ?) (v2 & ? & _ & _ & ?). congruence. Qed.

Lemma edge_slots m p q :
  (forall p v, m !! p = Some v -> i_blockedon v <> NONE -> i_blockedon v <> ANY ->
     live m (i_blockedon v)) -> edge m p q -> q ∈ slots.
Proof. intros Hl (v & Hv & H1 & H2 & <-). by destruct (Hl p v Hv H1 H2). Qed.

(** Some process reachable from [x] is blocked on endpoint [e]. *)
Definition reaches (m : imap) (x e : Z) : Prop :=
  exists y v, rtc (edge m) x y /\ m !! y = Some v /\ i_blockedon v = e.

Lemma reaches_step m x y e : edge m x y -> reaches m y e -> reaches m x e.
Proof. intros He (z & v & Hr & Hz). exists z, v. split; [by eapply rtc_l|done]. Qed.

Lemma reaches_inv m x v e :
  m !! x = Some v -> reaches m x e ->
  i_blockedon v = e \/ exists y, edge m x y /\ reaches m y e.
Proof.
  intros Hv (z & w & Hr & Hz & E). apply rtc_inv in Hr as [<-|(y & He & Hr)].
  - left. congruence.
  - right. exists y. split; [done|]. by exists z, w.
Qed.

Lemma ENDPOINT_P_ANY : _ENDPOINT_P ANY = 31744. Proof. done. Qed.
Lemma ENDPOINT_P_NONE : _ENDPOINT_P NONE = 31743. Proof. done. Qed.

Lemma slot_range p : p ∈ slots <-> -5 <= p < 256.
Proof. unfold slots, NR_TASKS. rewrite elem_of_seqZ. lia. Qed.

(** Distinct slots of the table are at most 261. *)
Lemma slots_length (l : list Z) : NoDup l -> (forall x, x ∈ l -> x ∈ slots) -> (length l <= 261)%nat.
Proof.
  intros Hnd Hl. replace 261%nat with (length slots) by done.
  apply submseteq_length. by apply NoDup_submseteq.
Qed.

(** An endpoint of a slot of the table is neither ANY nor NONE. *)
Lemma slot_endpoint e : _ENDPOINT_P e ∈ slots -> e <> ANY /\ e <> NONE.
Proof.
  rewrite slot_range. intros Hp. split; intros ->.
  - rewrite ENDPOINT_P_ANY in Hp. lia.
  - rewrite ENDPOINT_P_NONE in Hp. lia.
Qed.

Lemma isokprocn_slots p : isokprocn p = true <-> p ∈ slots.
Proof.
  rewrite slot_range. unfold isokprocn, NR_TASKS, NR_PROCS.
  rewrite andb_true_iff, Z.leb_le, Z.ltb_lt. lia.
Qed.

Section deadlock.
Context `{KEnv} (s : kstate) (C : Z -> list Z) (Hinv : ipc_inv (ivs s) C).

Lemma isset_empty w : isset w RTS_SLOT_FREE = false -> (w =? RTS_SLOT_FREE) = false.
Proof using Type. intros E. apply Z.eqb_neq. intros ->. done. Qed.

Lemma wp_isokendpt_live e pr (Q : bool * Z -> kstate -> Prop) fatal :
  _ENDPOINT_P e ∈ slots -> procs s !! _ENDPOINT_P e = Some pr ->
  RTS_ISSET pr RTS_SLOT_FREE = false -> p_endpoint pr = e ->
  Q (true, _ENDPOINT_P e) s -> wp (isokendpt_f e fatal) Q s.
Proof using Type.
  intros Hs Hp Hf He HQ. unfold isokendpt_f. apply wp_bind.
  rewrite (proj2 (isokprocn_slots _)) by done. apply wp_bind. eapply wp_getp; [done|].
  apply wp_ret. unfold isemptyp. rewrite (isset_empty _ Hf), He, Z.eqb_refl. done.
Qed.

Lemma live_proc e : live (ivs s) e -> exists pr, procs s !! _ENDPOINT_P e = Some pr /\
  RTS_ISSET pr RTS_SLOT_FREE = false /\ p_endpoint pr = e /\ proc_ptr_ok pr = true.
Proof using Type.
  intros (_ & v & Hv & H1 & H2 & H3). rewrite ivs_lookup in Hv.
  destruct (procs s !! _ENDPOINT_P e) as [pr|] eqn:E; [|done]. injection Hv as <-. by exists pr.
Qed.

Lemma wp_okendpt e (Q : Z -> kstate -> Prop) :
  live (ivs s) e -> Q (_ENDPOINT_P e) s -> wp (okendpt e) Q s.
Proof using Type.
  intros Hl HQ. destruct (live_proc e Hl) as (pr & Hp & Hf & He & _). unfold okendpt.
  apply wp_bind. eapply wp_isokendpt_live; [apply Hl | done..|]. by apply wp_ret.
Qed.

(** The chain from [e] visits no process twice: [seen] holds those before it. *)
Lemma deadlock_loop_ok function cp_e fuel e g (seen : list Z) :
  (forall x, x ∈ seen -> tc (edge (ivs s)) x (_ENDPOINT_P e)) ->
  NoDup seen -> (forall x, x ∈ seen -> x ∈ slots) ->
  (262 <= fuel + length seen)%nat -> g = Z.of_nat (length seen) + 1 -> live (ivs s) e ->
  cp_e <> NONE -> cp_e <> ANY ->
  wp (deadlock_loop fuel function cp_e e g) (fun r s' => s' = s /\
    ((r <> 0 /\ reaches (ivs s) (_ENDPOINT_P e) cp_e) \/
     (r = 0 /\ (~ reaches (ivs s) (_ENDPOINT_P e) cp_e \/
        (seen = [] /\ exists pr, procs s !! _ENDPOINT_P e = Some pr /\ P_BLOCKEDON pr = cp_e /\
           anyset (Z.lxor (p_rts_flags pr) (Z.shiftl function 2)) RTS_SENDING = true))))) s.
Proof using Hinv.
  revert e g seen. induction fuel as [|fuel IH]; intros e g seen Htc Hnd Hsl Hfuel Hg Hlive Hn1 Hn2.
  { exfalso. pose proof (slots_length seen Hnd Hsl). lia. }
  assert (NoDup (_ENDPOINT_P e :: seen)) as Hnd'.
  { constructor; [|done]. intros Hx. by apply (ii_acyclic _ _ Hinv (_ENDPOINT_P e)), Htc. }
  assert (forall x, x ∈ _ENDPOINT_P e :: seen -> x ∈ slots) as Hsl'.
  { intros x [->|Hx]%elem_of_cons; [apply Hlive|auto]. }
  pose proof (slots_length _ Hnd' Hsl') as Hlen. cbn [length] in Hlen.
  destruct (slot_endpoint e (proj1 Hlive)) as [Ha _].
  destruct (live_proc e Hlive) as (pr & Hp & Hf & He & Hm).
  assert (ivs s !! _ENDPOINT_P e = Some (iv pr)) as Hv by by rewrite ivs_lookup, Hp.
  cbn [deadlock_loop]. rewrite (proj2 (Z.eqb_neq _ _)) by done.
  apply wp_bind, wp_okendpt; [done|]. apply wp_bind. eapply wp_getp; [done|].
  apply wp_bind, wp_assert; [done|]. apply wp_bind, wp_assert; [by rewrite Hf|].
  destruct (Z.eqb_spec (P_BLOCKEDON pr) NONE) as [En|En].
  { apply wp_ret. split; [done|]. right. split; [done|]. left.
    intros [E|(y & (w & Hw & E & _) & _)]%(reaches_inv _ _ _ _ Hv).
    - simpl in E. congruence.
    - rewrite Hv in Hw. injection Hw as <-. done. }
  destruct (Z.eqb_spec (P_BLOCKEDON pr) cp_e) as [Ec|Ec].
  { assert (reaches (ivs s) (_ENDPOINT_P e) cp_e) as Hr.
    { exists (_ENDPOINT_P e), (iv pr). split; [apply rtc_refl|done]. }
    destruct ((g + 1 =? 2) && _) eqn:Eg; apply wp_ret; (split; [done|]).
    - right. split; [done|]. right. apply andb_true_iff in Eg as [Eg Ex].
      apply Z.eqb_eq in Eg. split; [apply nil_length_inv; lia|]. by exists pr.
    - left. split; [lia|done]. }
  destruct (Z.eqb_spec (P_BLOCKEDON pr) ANY) as [Ea|Ea].
  { (* blocked on ANY: the next iteration stops *)
    destruct fuel as [|fuel]; [lia|].
    cbn [deadlock_loop]. rewrite Ea, Z.eqb_refl. apply wp_ret. split; [done|]. right. split; [done|].
    left. intros [E|(y & (w & Hw & _ & E & _) & _)]%(reaches_inv _ _ _ _ Hv).
    - simpl in E. congruence.
    - rewrite Hv in Hw. injection Hw as <-. done. }
  assert (live (ivs s) (P_BLOCKEDON pr)) as Hl' by by apply (ii_live _ _ Hinv _ _ Hv).
  assert (edge (ivs s) (_ENDPOINT_P e) (_ENDPOINT_P (P_BLOCKEDON pr))) as Hedge.
  { exists (iv pr). done. }
  eapply wp_mono; [apply (IH (P_BLOCKEDON pr) (g + 1) (_ENDPOINT_P e :: seen)); try done|].
  - intros x [->|Hx]%elem_of_cons; [by apply tc_once|]. eapply tc_r; [by apply Htc|done].
  - cbn [length]. lia.
  - cbn [length]. lia.
  - intros r s' [-> Hr]. split; [done|].
    destruct Hr as [[Hr1 Hr2]|[-> [Hr|[Hr _]]]]; [| |done].
    + left. split; [done|]. by eapply reaches_step.
    + right. split; [done|]. left. intros [E|(y & Hy & Hy')]%(reaches_inv _ _ _ _ Hv).
      * by apply Ec.
      * apply Hr. by rewrite (edge_functional _ _ _ _ Hedge Hy).
Qed.
End deadlock.

(** ** Updates of one process *)

Definition upd1 (s : kstate) (p : Z) (pr : proc) : kstate := set_procs (<[p := pr]> (procs s)) s.

Lemma upd1_upd1 s p a b : upd1 (upd1 s p a) p b = upd1 s p b.
Proof. unfold upd1. simpl. by rewrite insert_insert_eq. Qed.

Lemma upd1_lookup s p a : procs (upd1 s p a) !! p = Some a.
Proof. apply lookup_insert_eq. Qed.

Lemma wp_updp_first p f pr (Q : unit -> kstate -> Prop) s :
  procs s !! p = Some pr -> Q tt (upd1 s p (f pr)) -> wp (updp p f) Q s.
Proof. apply wp_updp. Qed.

(** A further update of the same process. *)
Lemma wp_updp_again p f pr (Q : unit -> kstate -> Prop) s :
  Q tt (upd1 s p (f pr)) -> wp (updp p f) Q (upd1 s p pr).
Proof.
  intros HQ. eapply wp_updp; [apply upd1_lookup|].
  change (Q tt (upd1 (upd1 s p pr) p (f pr))). by rewrite upd1_upd1.
Qed.

(** The fields the scheduling invariant depends on. *)
Definition sched_key (pr : proc) :=
  (p_magic pr, p_rts_flags pr, p_priority pr, p_tickets pr, p_priv pr, p_nextready pr).

Lemma proc_ok_key s s' p pr pr' :
  privs s' = privs s -> sched_key pr' = sched_key pr -> proc_ok s p pr -> proc_ok s' p pr'.
Proof.
  intros Ep [= E1 E2 E3 E4 E5 _] [H1 H2 H3 H4 H5].
  split; unfold has_priv, RTS_ISSET in *; by rewrite ?Ep, ?E1, ?E2, ?E3, ?E4, ?E5.
Qed.

Lemma sched_invQ_upd1 s Q k p pr pr' :
  procs s !! p = Some pr -> sched_key pr' = sched_key pr ->
  sched_invQ s Q k -> sched_invQ (upd1 s p pr') Q k.
Proof.
  intros Hp Ek ([T1 T2 T3] & Htot & [Q1 Q2] & Hr). pose proof Ek as [= E1 E2 E3 E4 E5 E6].
  assert (forall x prx, procs (upd1 s p pr') !! x = Some prx ->
    exists pr0, procs s !! x = Some pr0 /\ sched_key prx = sched_key pr0) as Hback.
  { intros x prx. simpl. destruct (decide (x = p)) as [->|Hne].
    - rewrite lookup_insert_eq. intros [= <-]. by exists pr.
    - rewrite lookup_insert_ne by done. by exists prx. }
  assert (forall x prx, procs s !! x = Some prx ->
    exists pr0, procs (upd1 s p pr') !! x = Some pr0 /\ sched_key pr0 = sched_key prx) as Hfwd.
  { intros x prx Hx. simpl. destruct (decide (x = p)) as [->|Hne].
    - rewrite lookup_insert_eq. exists pr'. split; [done|]. congruence.
    - rewrite lookup_insert_ne by done. by exists prx. }
  split_and!.
  - split.
    + intros x Hx. destruct (T1 x Hx) as [prx Hprx]. destruct (Hfwd x prx Hprx) as (? & -> & _). eauto.
    + intros x prx Hx. destruct (Hback x prx Hx) as (pr0 & Hp0 & Ek0).
      eapply (proc_ok_key s); [done|exact Ek0|]. by apply T2.
    + destruct T3 as (pc & Hpc & i & pv & Ei & Epv & Hg). destruct (Hfwd _ _ Hpc) as (pr0 & Hp0 & Ek0).
      exists pr0. split; [done|]. injection Ek0 as _ _ _ _ E0 _. exists i, pv. by rewrite E0.
  - simpl. by rewrite (tsum_insert_same _ p pr).
  - split.
    + intros q Hq. destruct (Q1 q Hq) as (Hs & Ht & Hnd). split_and!; [|done|done].
      eapply seg_frame; [|exact Hs]. intros x _. simpl. by eapply nx_insert_same.
    + intros q x Hx. destruct (Q2 q x Hx) as (Hsl & prx & Hprx & Eq). split; [done|].
      destruct (Hfwd x prx Hprx) as (pr0 & Hp0 & Ek0). exists pr0. split; [done|].
      injection Ek0 as _ _ E0 _ _ _. congruence.
  - intros q x. rewrite (Hr q x). unfold ready_at, runnable. split.
    + intros (prx & Hprx & Er & Eq). destruct (Hfwd x prx Hprx) as (pr0 & Hp0 & Ek0).
      injection Ek0 as _ F0 E0 _ _ _. exists pr0. split_and!; congruence.
    + intros (prx & Hprx & Er & Eq). destruct (Hback x prx Hprx) as (pr0 & Hp0 & Ek0).
      injection Ek0 as _ F0 E0 _ _ _. exists pr0. split_and!; congruence.
Qed.

Lemma ivs_upd1 s p pr : ivs (upd1 s p pr) = <[p := iv pr]> (ivs s).
Proof. apply ivs_insert. Qed.

(** ** Preservation of the invariant on the abstract view *)

Lemma callers_frame m m' h l :
  (forall p v, p ∈ l -> m !! p = Some v -> exists v', m' !! p = Some v' /\ i_link v' = i_link v) ->
  callers m h l -> callers m' h l.
Proof.
  revert h. induction l as [|p l IH]; intros h Hf; [done|]. simpl.
  intros (-> & v & Hv & Hc). split; [done|]. destruct (Hf p v ltac:(left) Hv) as (v' & Hv' & El).
  exists v'. split; [done|]. rewrite El. apply IH; [|done]. intros x w Hx. apply Hf. by right.
Qed.

Lemma edge_update m p v v' x y :
  m !! p = Some v -> (i_blockedon v' = i_blockedon v \/ i_blockedon v' = NONE) ->
  edge (<[p := v']> m) x y -> edge m x y.
Proof.
  intros Hp Hb (w & Hw & H1 & H2 & H3). destruct (decide (x = p)) as [->|Hne].
  - rewrite lookup_insert_eq in Hw. injection Hw as <-. destruct Hb as [Hb|Hb]; [|done].
    exists v. by rewrite <- Hb.
  - rewrite lookup_insert_ne in Hw by done. by exists w.
Qed.

Lemma tc_mono (R R' : Z -> Z -> Prop) x y : (forall x y, R x y -> R' x y) -> tc R x y -> tc R' x y.
Proof. intros HR. induction 1; [apply tc_once|eapply tc_l]; eauto. Qed.

Lemma acyclic_update m p v v' :
  m !! p = Some v -> (i_blockedon v' = i_blockedon v \/ i_blockedon v' = NONE) ->
  acyclic m -> acyclic (<[p := v']> m).
Proof.
  intros Hp Hb Ha x Hx. apply (Ha x). eapply tc_mono; [|exact Hx].
  intros a b. by eapply edge_update.
Qed.

Lemma live_update m p v v' e :
  m !! p = Some v -> i_endpoint v' = i_endpoint v -> i_free v' = i_free v ->
  i_magic v' = i_magic v -> live m e -> live (<[p := v']> m) e.
Proof.
  intros Hp E1 E2 E3 (Hs & w & Hw & H1 & H2 & H3). split; [done|].
  destruct (decide (_ENDPOINT_P e = p)) as [Ep|Hne].
  - rewrite Ep in *. exists v'. rewrite lookup_insert_eq. split; [done|].
    assert (w = v) as -> by congruence. split_and!; congruence.
  - exists w. by rewrite lookup_insert_ne.
Qed.

(** A process that does not send stops waiting, or gets a message. *)
Lemma ipc_inv_release m C p v v' :
  ipc_inv m C -> m !! p = Some v -> i_sending v = false -> i_sending v' = false ->
  i_endpoint v' = i_endpoint v -> i_free v' = i_free v -> i_magic v' = i_magic v ->
  i_blockedon v' = NONE -> i_waiting v' = false ->
  i_link v' = i_link v -> i_callq v' = i_callq v ->
  ipc_inv (<[p := v']> m) C.
Proof.
  intros [H1 H2 H3 H4 H5 H6 H7 H8] Hp Hs Hs' E1 E2 E3 Eb Ew El Ec. split.
  - intros x w Hx. destruct (decide (x = p)) as [->|].
    + rewrite lookup_insert_eq. intros [= <-]. rewrite E1. by apply H1.
    + rewrite lookup_insert_ne by done. by apply H1.
  - intros x w. destruct (decide (x = p)) as [->|].
    + rewrite lookup_insert_eq. by intros [= <-].
    + rewrite lookup_insert_ne by done. intros Hx N A. eapply live_update; [done..|]. by eapply H2.
  - eapply acyclic_update; eauto.
  - intros x w. destruct (decide (x = p)) as [->|].
    + rewrite lookup_insert_eq. intros [= <-] W. congruence.
    + rewrite lookup_insert_ne by done. apply H4.
  - intros d w Hd Hw. assert (exists w0, m !! d = Some w0 /\ i_callq w = i_callq w0) as (w0 & Hw0 & ->).
    { destruct (decide (d = p)) as [->|].
      - rewrite lookup_insert_eq in Hw. exists v. split; [done|congruence].
      - rewrite lookup_insert_ne in Hw by done. by exists w. }
    destruct (H5 d w0 Hd Hw0) as [Hc Hnd]. split; [|done].
    eapply callers_frame; [|exact Hc]. intros x u _ Hu. destruct (decide (x = p)) as [->|].
    + exists v'. rewrite lookup_insert_eq. split; [done|congruence].
    + exists u. by rewrite lookup_insert_ne.
  - intros x d. rewrite H6. destruct (decide (x = p)) as [->|].
    + rewrite lookup_insert_eq. split; intros (w & Hw & Hws & _); congruence.
    + by rewrite lookup_insert_ne.
  - intros x w. destruct (decide (x = p)) as [->|].
    + rewrite lookup_insert_eq. intros [= <-] _. rewrite El. by apply (H7 p v).
    + rewrite lookup_insert_ne by done. apply H7.
  - intros x w. destruct (decide (x = p)) as [->|].
    + rewrite lookup_insert_eq. intros [= <-] W. congruence.
    + rewrite lookup_insert_ne by done. apply H8.
Qed.

(** ** Joining a queue of callers *)

Definition iset_link (o : option Z) (v : ipcv) : ipcv :=
  mk_ipcv (i_endpoint v) (i_blockedon v) (i_sending v) (i_waiting v) (i_free v) (i_deliver v)
    (i_magic v) o (i_callq v).
Definition iset_callq (o : option Z) (v : ipcv) : ipcv :=
  mk_ipcv (i_endpoint v) (i_blockedon v) (i_sending v) (i_waiting v) (i_free v) (i_deliver v)
    (i_magic v) (i_link v) o.

(** The last pointer of the queue [l] of [d] is set to [c]. *)
Definition set_tail (m : imap) (d : Z) (l : list Z) (c : Z) : imap :=
  match last l with
  | Some x => alter (iset_link (Some c)) x m
  | None => alter (iset_callq (Some c)) d m
  end.

(** All but the pointers. *)
Definition icore (v : ipcv) :=
  (i_endpoint v, i_blockedon v, i_sending v, i_waiting v, i_free v, i_deliver v, i_magic v).
Definition same_core (m m' : imap) : Prop := forall x, icore <$> m' !! x = icore <$> m !! x.

Lemma same_core_sym m m' : same_core m m' -> same_core m' m.
Proof. intros H x. by rewrite (H x). Qed.

Lemma core_lookup m m' x w :
  same_core m m' -> m !! x = Some w -> exists w', m' !! x = Some w' /\ icore w' = icore w.
Proof.
  intros Hc Hw. specialize (Hc x). rewrite Hw in Hc.
  destruct (m' !! x) as [w'|]; [|done]. exists w'. split; [done|]. by apply (inj Some) in Hc.
Qed.

Lemma edge_core m m' x y : same_core m m' -> edge m x y -> edge m' x y.
Proof.
  intros Hc (w & Hw & H1 & H2 & H3). destruct (core_lookup m m' x w Hc Hw) as (w' & Hw' & [= E1 E2 _]).
  exists w'. by rewrite E2.
Qed.

Lemma live_core m m' e : same_core m m' -> live m e -> live m' e.
Proof.
  intros Hc (Hs & w & Hw & H1 & H2 & H3).
  destruct (core_lookup m m' _ w Hc Hw) as (w' & Hw' & [= E1 E2 E3 E4 E5 E6 E7]).
  split; [done|]. exists w'. split_and!; congruence.
Qed.

Lemma set_tail_core m d l c : same_core m (set_tail m d l c).
Proof.
  intros x. unfold set_tail. destruct (last l) as [y|].
  - destruct (decide (y = x)) as [->|]; [|by rewrite lookup_alter_ne].
    rewrite lookup_alter_eq. by destruct (m !! x).
  - destruct (decide (d = x)) as [->|]; [|by rewrite lookup_alter_ne].
    rewrite lookup_alter_eq. by destruct (m !! x).
Qed.

(** Links outside of the queue stay, and so do the heads of other queues. *)
Lemma set_tail_link m d l c x v :
  x ∉ l -> m !! x = Some v ->
  exists v', set_tail m d l c !! x = Some v' /\ i_link v' = i_link v.
Proof.
  intros Hx Hv. unfold set_tail. destruct (last l) as [y|] eqn:El.
  - exists v. rewrite lookup_alter_ne; [done|]. intros ->. apply Hx. by apply last_elem.
  - destruct (decide (d = x)) as [->|].
    + exists (iset_callq (Some c) v). by rewrite lookup_alter_eq, Hv.
    + exists v. by rewrite lookup_alter_ne.
Qed.

Lemma set_tail_callq m d l c x v' :
  x <> d -> set_tail m d l c !! x = Some v' ->
  exists v, m !! x = Some v /\ i_callq v' = i_callq v.
Proof.
  intros Hx. unfold set_tail. destruct (last l) as [y|].
  - destruct (decide (y = x)) as [->|]; [|rewrite lookup_alter_ne by done; by exists v'].
    rewrite lookup_alter_eq. destruct (m !! x) as [v|]; [|done]. intros [= <-]. by exists v.
  - rewrite lookup_alter_ne by done. by exists v'.
Qed.

(** Appending to a queue. *)
Lemma callers_append m h l c vc :
  callers m h l -> NoDup l -> c ∉ l -> m !! c = Some vc -> i_link vc = None ->
  match last l with
  | Some x => callers (alter (iset_link (Some c)) x m) h (l ++ [c])
  | None => callers m (Some c) [c]
  end.
Proof.
  intros Hc Hnd Hcl Hvc Hl. destruct l as [|y l0] eqn:El; [simpl; eauto|]. rewrite <- El in *.
  assert (l <> []) as Hne by by rewrite El. clear El y l0.
  revert h Hc. induction l as [|y l IH]; intros h Hc; [done|].
  destruct Hc as (-> & v & Hv & Hc). apply NoDup_cons in Hnd as [Hy Hnd].
  apply not_elem_of_cons in Hcl as [Hcy Hcl].
  destruct l as [|z l].
  - simpl. split; [done|]. exists (iset_link (Some c) v). rewrite lookup_alter_eq, Hv.
    split; [done|]. split; [done|]. exists vc. by rewrite lookup_alter_ne.
  - assert (last (y :: z :: l) = last (z :: l)) as -> by done.
    specialize (IH Hnd Hcl ltac:(done) _ Hc).
    destruct (last (z :: l)) as [x|] eqn:El.
    + change ((y :: z :: l) ++ [c]) with (y :: ((z :: l) ++ [c])). split; [done|].
      exists v. split; [|exact IH]. rewrite lookup_alter_ne; [done|].
      intros ->. apply Hy. by apply last_elem.
    + by apply last_None in El.
Qed.

Lemma tc_new_edge (R R' : Z -> Z -> Prop) c d x y :
  (forall x y, R' x y -> R x y \/ (x = c /\ y = d)) -> tc R' x y ->
  tc R x y \/ (rtc R x c /\ rtc R d y).
Proof.
  intros HR. induction 1 as [x y Hxy|x y z Hxy Hyz IH].
  - destruct (HR _ _ Hxy) as [?|[-> ->]]; [left; by apply tc_once|right; split; apply rtc_refl].
  - destruct (HR _ _ Hxy) as [Hr|[-> ->]], IH as [IH|[IH1 IH2]].
    + left. by eapply tc_l.
    + right. split; [by eapply rtc_l|done].
    + right. split; [apply rtc_refl|by apply tc_rtc].
    + right. split; [apply rtc_refl|done].
Qed.

(** A process that blocks on [d] keeps the graph free of cycles, unless [d]
    waits for it already. *)
Lemma acyclic_block m c v' e :
  acyclic m -> i_blockedon v' = e -> ~ rtc (edge m) (_ENDPOINT_P e) c ->
  acyclic (<[c := v']> m).
Proof.
  intros Ha He Hn x Hx.
  destruct (tc_new_edge (edge m) (edge (<[c := v']> m)) c (_ENDPOINT_P e) x x) with (2 := Hx) as [Ht|[H1 H2]].
  - intros a b (w & Hw & A1 & A2 & <-). destruct (decide (a = c)) as [->|Hne].
    + right. rewrite lookup_insert_eq in Hw. injection Hw as <-. by rewrite He.
    + left. rewrite lookup_insert_ne in Hw by done. by exists w.
  - by apply (Ha x).
  - apply Hn. by transitivity x.
Qed.

Lemma acyclic_core m m' : same_core m m' -> acyclic m -> acyclic m'.
Proof.
  intros Hc Ha x Hx. apply (Ha x). eapply tc_mono; [|exact Hx].
  intros a b. by apply edge_core, same_core_sym.
Qed.

Section block.
Context (m : imap) (C : Z -> list Z) (Hinv : ipc_inv m C).
Context (c : Z) (v v' : ipcv) (e : Z).
Context (Hc : m !! c = Some v) (Hs : i_sending v = false).
Context (Hsl : c ∈ slots) (Hlive : live m e) (Hn : ~ rtc (edge m) (_ENDPOINT_P e) c).
Context (E1 : i_endpoint v' = i_endpoint v) (E2 : i_free v' = i_free v)
  (E3 : i_magic v' = i_magic v) (E4 : i_link v' = i_link v) (E5 : i_callq v' = i_callq v)
  (E6 : i_blockedon v' = e) (E7 : i_sending v' = true) (E8 : i_waiting v' = false).

Let d := _ENDPOINT_P e.
Let m1 := <[c := v']> m.
Let m2 := set_tail m1 d (C d) c.

Lemma block_notin x : c ∉ C x.
Proof using All. rewrite (ii_sending _ _ Hinv). intros (w & Hw & Ht & _). congruence. Qed.

Lemma block_m1 x w : m !! x = Some w -> exists w1, m1 !! x = Some w1 /\
  i_link w1 = i_link w /\ i_callq w1 = i_callq w /\ i_endpoint w1 = i_endpoint w.
Proof using All.
  intros Hw. unfold m1. destruct (decide (x = c)) as [->|Hne].
  - exists v'. rewrite lookup_insert_eq. assert (w = v) as -> by congruence. done.
  - exists w. by rewrite lookup_insert_ne.
Qed.

Lemma block_back x w2 : m2 !! x = Some w2 ->
  exists w1, m1 !! x = Some w1 /\ icore w2 = icore w1.
Proof using Type.
  intros Hw. destruct (core_lookup m2 m1 x w2) as (w1 & ? & E); [|done|by exists w1].
  apply same_core_sym, set_tail_core.
Qed.

Lemma block_callers x w2 : x ∈ slots -> m2 !! x = Some w2 ->
  callers m2 (i_callq w2) (upd_q C d (C d ++ [c]) x) /\ NoDup (upd_q C d (C d ++ [c]) x).
Proof using All.
  intros Hx Hw2. destruct (block_back x w2 Hw2) as (w1 & Hw1 & _).
  assert (exists w, m !! x = Some w /\ i_callq w1 = i_callq w) as (w & Hw & Ecq).
  { unfold m1 in Hw1. destruct (decide (x = c)) as [->|Hne].
    - rewrite lookup_insert_eq in Hw1. injection Hw1 as <-. by exists v.
    - rewrite lookup_insert_ne in Hw1 by done. by exists w1. }
  destruct (ii_callers _ _ Hinv x w Hx Hw) as [Hcl Hnd].
  assert (callers m1 (i_callq w) (C x)) as Hcl1.
  { eapply callers_frame; [|exact Hcl]. intros y u _ Hu.
    destruct (block_m1 y u Hu) as (u1 & ? & ? & _). eauto. }
  unfold upd_q. destruct (decide (x = d)) as [->|Hne].
  - split; [|apply NoDup_app; split_and!; [done| |apply NoDup_singleton]].
    2:{ intros y Hy ->%list_elem_of_singleton. by apply block_notin in Hy. }
    pose proof (callers_append m1 _ (C d) c v' Hcl1 Hnd (block_notin d) ltac:(apply lookup_insert_eq)
      ltac:(rewrite E4; by apply (ii_link _ _ Hinv c v))) as Happ.
    unfold m2, set_tail in Hw2 |- *. destruct (last (C d)) as [y|] eqn:El.
    + assert (i_callq w2 = i_callq w) as ->; [|done].
      destruct (decide (y = d)) as [->|].
      * rewrite lookup_alter_eq, Hw1 in Hw2. injection Hw2 as <-. done.
      * rewrite lookup_alter_ne in Hw2 by done. congruence.
    + apply last_None in El. rewrite El. rewrite lookup_alter_eq, Hw1 in Hw2. injection Hw2 as <-.
      simpl. split; [done|]. clear Hc Hnd Hcl Hcl1. destruct Happ as (_ & u & Hu' & Hl).
      destruct (decide (d = c)) as [<-|].
      * exists (iset_callq (Some d) u). by rewrite lookup_alter_eq, Hu'.
      * exists u. by rewrite lookup_alter_ne.
  - split; [|done]. destruct (set_tail_callq m1 d (C d) c x w2 Hne Hw2) as (u & Hu & ->).
    assert (u = w1) as -> by congruence. rewrite Ecq. eapply callers_frame; [|exact Hcl1].
    intros y u' Hy Hu'. apply set_tail_link; [|done]. intros Hy'.
    apply (ii_sending _ _ Hinv) in Hy as (a & Ha & _ & Pa), Hy' as (b & Hb & _ & Pb). congruence.
Qed.

Lemma ipc_inv_block : ipc_inv m2 (upd_q C d (C d ++ [c])).
Proof using All.
  assert (same_core m1 m2) as Hcore by apply set_tail_core.
  assert (forall x, live m x -> live m2 x) as Hlv.
  { intros x Hx. eapply live_core; [exact Hcore|]. by eapply live_update. }
  split.
  - intros x w2 Hx Hw2. destruct (block_back x w2 Hw2) as (w1 & Hw1 & [= Ee _]). rewrite Ee.
    unfold m1 in Hw1. destruct (decide (x = c)) as [->|].
    + rewrite lookup_insert_eq in Hw1. injection Hw1 as <-. rewrite E1. by apply (ii_slots _ _ Hinv).
    + rewrite lookup_insert_ne in Hw1 by done. by apply (ii_slots _ _ Hinv).
  - intros x w2 Hw2. destruct (block_back x w2 Hw2) as (w1 & Hw1 & [= _ Eb _]). rewrite Eb.
    intros N1 N2. apply Hlv. unfold m1 in Hw1. destruct (decide (x = c)) as [->|].
    + rewrite lookup_insert_eq in Hw1. injection Hw1 as <-. by rewrite E6.
    + rewrite lookup_insert_ne in Hw1 by done. by apply (ii_live _ _ Hinv x).
  - eapply acyclic_core; [exact Hcore|]. by eapply acyclic_block; [apply Hinv|..].
  - intros x w2 Hw2. destruct (block_back x w2 Hw2) as (w1 & Hw1 & [= _ _ _ Ew _ Ed _]). rewrite Ew, Ed.
    unfold m1 in Hw1. destruct (decide (x = c)) as [->|].
    + rewrite lookup_insert_eq in Hw1. injection Hw1 as <-. congruence.
    + rewrite lookup_insert_ne in Hw1 by done. by apply (ii_deliver _ _ Hinv x).
  - apply block_callers.
  - intros x y. assert (x ∈ upd_q C d (C d ++ [c]) y <-> x ∈ C y \/ (x = c /\ y = d)) as ->.
    { unfold upd_q. destruct (decide (y = d)) as [->|];
        rewrite ?elem_of_app, ?list_elem_of_singleton; tauto. }
    rewrite (ii_sending _ _ Hinv). destruct (decide (x = c)) as [->|Hne].
    + destruct (core_lookup m1 m2 c v' Hcore ltac:(apply lookup_insert_eq)) as (w2 & Hw2 & [= _ Eb Es _]).
      split.
      * intros [(w & Hw & ? & _)|[_ ->]]; [congruence|]. exists w2. split_and!; [done|congruence|].
        unfold d. by rewrite Eb, E6.
      * intros (w & Hw & _ & Ep). right. split; [done|]. assert (w = w2) as -> by congruence.
        rewrite Eb, E6 in Ep. done.
    + assert (m1 !! x = m !! x) as Em by by apply lookup_insert_ne. split.
      * intros [(w & Hw & Hws & Hwp)|[? _]]; [|done]. rewrite <- Em in Hw.
        destruct (core_lookup m1 m2 x w Hcore Hw) as (w2 & Hw2 & [= _ Eb Es _]).
        exists w2. rewrite Es, Eb. done.
      * intros (w2 & Hw2 & Hws & Hwp). left. destruct (block_back x w2 Hw2) as (w & Hw & [= _ Eb Es _]).
        exists w. rewrite <- Em, <- Es, <- Eb. done.
  - intros x w2 Hw2 Hns. destruct (block_back x w2 Hw2) as (w1 & Hw1 & [= _ Eb Es _]).
    rewrite Es in Hns. unfold m1 in Hw1. destruct (decide (x = c)) as [->|Hne].
    { rewrite lookup_insert_eq in Hw1. injection Hw1 as <-. congruence. }
    rewrite lookup_insert_ne in Hw1 by done. rewrite <- (ii_link _ _ Hinv x w1 Hw1 Hns).
    destruct (set_tail_link m1 d (C d) c x w1) as (w' & Hw' & El).
    + intros (u & Hu & ? & _)%(ii_sending _ _ Hinv). congruence.
    + unfold m1. by rewrite lookup_insert_ne.
    + assert (w' = w2) as <- by (unfold m2 in Hw2; congruence). done.
  - intros x w2 Hw2. destruct (block_back x w2 Hw2) as (w1 & Hw1 & [= _ _ Es _]). rewrite Es.
    unfold m1 in Hw1. destruct (decide (x = c)) as [->|Hne]; [done|].
    rewrite lookup_insert_ne in Hw1 by done. by apply (ii_range _ _ Hinv).
Qed.
End block.

(** Reachability of a process and of its endpoint. *)
Lemma tc_last (R : Z -> Z -> Prop) x z : tc R x z -> exists y, rtc R x y /\ R y z.
Proof.
  induction 1 as [x y Hxy|x y z Hxy _ (w & Hw & Hwz)].
  - exists x. split; [apply rtc_refl|done].
  - exists w. split; [by eapply rtc_l|done].
Qed.

Lemma reaches_tc m C c vc x :
  ipc_inv m C -> c ∈ slots -> m !! c = Some vc ->
  reaches m x (i_endpoint vc) <-> tc (edge m) x c.
Proof.
  intros Hinv Hsl Hc. pose proof (ii_slots _ _ Hinv c vc Hsl Hc) as Ep.
  destruct (slot_endpoint (i_endpoint vc)) as [N1 N2]; [by rewrite Ep|]. split.
  - intros (y & v & Hr & Hv & Eb). eapply tc_rtc_l; [exact Hr|]. apply tc_once.
    exists v. rewrite Eb. done.
  - intros (y & Hr & v & Hv & B1 & B2 & Eb)%tc_last. exists y, v. split_and!; [done..|].
    destruct (ii_live _ _ Hinv y v Hv B1 B2) as (_ & w & Hw & Ew & _). rewrite Eb in Hw. congruence.
Qed.
