(* ===== verification/KIpcSend.v ===== *)
(** * The contract of mini_send

    What a send does: it delivers, it queues the caller, or it fails and changes
    nothing; a send that would close a cycle of blocked processes is refused, so
    the wait-for graph stays free of cycles. *)

From S2P Require Import Prelude KTypes KSched KSchedFacts KIpc KIpcFacts.
From stdpp Require Import relations.
#[local] Open Scope Z_scope.

(** The message [mini_send] reads, if its address is mapped. *)
Definition fetched (s : kstate) (mp : msg_ptr) : option message :=
  match mp with UserMsg a => umem s !! a | KernelMsg m => Some m end.

(** The kind of buffer agrees with the flag. *)
Definition ptr_matches (mp : msg_ptr) (flags : Z) : Prop :=
  match mp with
  | UserMsg _ => anyset flags FROM_KERNEL = false
  | KernelMsg _ => anyset flags FROM_KERNEL = true
  end.

(** [x] waits, directly or through others, for [y]. *)
Definition waits_for (s : kstate) (x y : Z) : Prop := tc (edge (ivs s)) x y.

(** The six ways a send ends. [pr] is the caller's entry, [dpr] the
    destination's, before the call. *)
Inductive send_outcome (s : kstate) (C : Z -> list Z) (c e : Z) (pr dpr : proc)
    (om : option message) (flags : Z) : ecode -> kstate -> Prop :=
| so_dead :
    RTS_ISSET dpr RTS_NO_ENDPOINT = true ->
    send_outcome s C c e pr dpr om flags EDEADSRCDST s
| so_fault :
    RTS_ISSET dpr RTS_NO_ENDPOINT = false -> om = None ->
    WILLRECEIVE dpr (p_endpoint pr) = true \/
      anyset flags NON_BLOCKING = false /\ ~ waits_for s (_ENDPOINT_P e) c ->
    send_outcome s C c e pr dpr om flags EFAULT s
| so_delivered m s' dpr' :
    RTS_ISSET dpr RTS_NO_ENDPOINT = false -> om = Some m ->
    WILLRECEIVE dpr (p_endpoint pr) = true ->
    procs s' !! _ENDPOINT_P e = Some dpr' ->
    p_delivermsg dpr' = set_m_source (p_endpoint pr) m ->
    p_misc_flags dpr' = clearf (setf (p_misc_flags dpr) MF_DELIVERMSG) MF_REPLY_PEND ->
    RTS_ISSET dpr' RTS_RECEIVING = false ->
    ivs s' = <[_ENDPOINT_P e := iv dpr']> (ivs s) ->
    sched_inv s' -> ipc_inv (ivs s') C ->
    send_outcome s C c e pr dpr om flags OK s'
| so_notready :
    RTS_ISSET dpr RTS_NO_ENDPOINT = false ->
    WILLRECEIVE dpr (p_endpoint pr) = false -> anyset flags NON_BLOCKING = true ->
    send_outcome s C c e pr dpr om flags ENOTREADY s
| so_locked :
    RTS_ISSET dpr RTS_NO_ENDPOINT = false ->
    WILLRECEIVE dpr (p_endpoint pr) = false -> anyset flags NON_BLOCKING = false ->
    waits_for s (_ENDPOINT_P e) c ->
    send_outcome s C c e pr dpr om flags ELOCKED s
| so_queued m s' pr' :
    RTS_ISSET dpr RTS_NO_ENDPOINT = false -> om = Some m ->
    WILLRECEIVE dpr (p_endpoint pr) = false -> anyset flags NON_BLOCKING = false ->
    ~ waits_for s (_ENDPOINT_P e) c ->
    procs s' !! c = Some pr' ->
    p_sendmsg pr' = m -> p_sendto_e pr' = e -> RTS_ISSET pr' RTS_SENDING = true ->
    anyset (p_misc_flags pr') MF_SENDING_FROM_KERNEL =
      anyset (p_misc_flags pr) MF_SENDING_FROM_KERNEL || anyset flags FROM_KERNEL ->
    sched_inv s' ->
    ipc_inv (ivs s') (upd_q C (_ENDPOINT_P e) (C (_ENDPOINT_P e) ++ [c])) ->
    send_outcome s C c e pr dpr om flags OK s'.

Lemma wp_fetch s mp flags (Q : option message -> kstate -> Prop) :
  ptr_matches mp flags -> Q (fetched s mp) s -> wp (fetch_msg mp flags) Q s.
Proof. unfold fetch_msg. destruct mp; simpl; intros ->; intros HQ; simpl; by wp_steps. Qed.

(** ** Joining the queue of callers *)

Lemma callers_mid m h pre x l :
  callers m h (pre ++ x :: l) -> exists v, m !! x = Some v /\ callers m (i_link v) l.
Proof.
  revert h. induction pre as [|y pre IH]; intros h; simpl.
  - intros (_ & v & Hv & Hc). by exists v.
  - intros (_ & v & Hv & Hc). by eapply IH.
Qed.

Lemma callers_head m h l : callers m h l -> h = head l.
Proof. destruct l; simpl; [done|]. by intros [-> _]. Qed.

Lemma wp_read_qpp s d dpr pre l (Q : option Z -> kstate -> Prop) :
  procs s !! d = Some dpr -> callers (ivs s) (p_caller_q dpr) (pre ++ l) ->
  Q (head l) s -> wp (read_qpp d (last pre)) Q s.
Proof.
  intros Hd Hc HQ. destruct pre as [|x pre _] using rev_ind.
  - simpl. apply wp_bind. eapply wp_getp; [done|]. apply wp_ret.
    by rewrite (callers_head _ _ _ Hc).
  - rewrite last_snoc. rewrite <- app_assoc in Hc. apply callers_mid in Hc as (v & Hv & Hc).
    rewrite ivs_lookup in Hv. destruct (procs s !! x) as [prx|] eqn:Hx; [|done]. injection Hv as <-.
    simpl. apply wp_bind. eapply wp_getp; [done|]. apply wp_ret.
    by rewrite (callers_head _ _ _ Hc : p_q_link prx = head l).
Qed.

(** The one pointer [append_caller] writes. *)
Definition tail_update (s : kstate) (d : Z) (l : list Z) (c : Z) (s' : kstate) : Prop :=
  match last l with
  | Some x => exists prx, procs s !! x = Some prx /\ s' = upd1 s x (set_p_q_link (Some c) prx)
  | None => exists dpr, procs s !! d = Some dpr /\ s' = upd1 s d (set_p_caller_q (Some c) dpr)
  end.

Lemma append_caller_ok s d dpr c l fuel pre (Q : unit -> kstate -> Prop) :
  procs s !! d = Some dpr -> callers (ivs s) (p_caller_q dpr) (pre ++ l) ->
  (length l < fuel)%nat ->
  (forall s', tail_update s d (pre ++ l) c s' -> Q tt s') ->
  wp (append_caller fuel d (last pre) c) Q s.
Proof.
  intros Hd. revert pre fuel. induction l as [|x l IH]; intros pre fuel Hc Hf HQ;
    (destruct fuel as [|fuel]; [simpl in Hf; lia|]); cbn [append_caller];
    apply wp_bind; (eapply wp_read_qpp; [done..|]); cbn [head].
  - rewrite app_nil_r in *. unfold tail_update in HQ. unfold write_qpp.
    destruct pre as [|x pre _] using rev_ind.
    + eapply wp_updp_first; [done|]. apply HQ. by exists dpr.
    + rewrite last_snoc in *. apply callers_mid in Hc as (v & Hv & _). rewrite ivs_lookup in Hv.
      destruct (procs s !! x) as [prx|] eqn:Hx; [|done].
      eapply wp_updp_first; [done|]. apply HQ. by exists prx.
  - replace (Some x) with (last (pre ++ [x])) by apply last_snoc.
    replace (pre ++ x :: l) with ((pre ++ [x]) ++ l) in * by by rewrite <- app_assoc.
    apply IH; [done| |done]. simpl in Hf. lia.
Qed.

Lemma tail_update_ivs s d l c s' : tail_update s d l c s' -> ivs s' = set_tail (ivs s) d l c.
Proof.
  unfold tail_update, set_tail. destruct (last l) as [x|]; intros (pr & Hp & ->);
    rewrite ivs_upd1; apply map_eq; intros y;
    match goal with H : procs s !! ?z = _ |- _ =>
      destruct (decide (z = y)) as [<-|];
        [rewrite lookup_insert_eq, lookup_alter_eq, ivs_lookup, H; done
        | by rewrite lookup_insert_ne, lookup_alter_ne] end.
Qed.

Lemma tail_update_sched s d l c s' Q k :
  tail_update s d l c s' -> sched_invQ s Q k -> sched_invQ s' Q k.
Proof.
  unfold tail_update. destruct (last l); intros (pr & Hp & ->); by apply (sched_invQ_upd1 _ _ _ _ pr).
Qed.

(** What is kept of every process. *)
Lemma tail_update_kept s d l c s' x pr :
  tail_update s d l c s' -> procs s !! x = Some pr ->
  exists pr', procs s' !! x = Some pr' /\
    set_p_q_link None (set_p_caller_q None pr') = set_p_q_link None (set_p_caller_q None pr).
Proof.
  unfold tail_update. destruct (last l) as [y|]; intros (pr0 & Hp & ->) Hx; unfold upd1; simpl;
    match goal with H : procs s !! ?z = Some pr0 |- _ =>
      destruct (decide (z = x)) as [<-|];
        [rewrite lookup_insert_eq; assert (pr0 = pr) as -> by congruence; eauto
        | rewrite lookup_insert_ne by done; eauto] end.
Qed.

(** ** Delivery *)

Lemma sched_key_status m pr : sched_key (ipc_status_add m pr) = sched_key pr.
Proof. unfold ipc_status_add. by destruct (negb _). Qed.

(** The fields the wait-for graph looks at, but the flags. *)
Definition ipc_key (pr : proc) :=
  (p_endpoint pr, p_sendto_e pr, p_getfrom_e pr, p_magic pr, p_q_link pr, p_caller_q pr).

Lemma ipc_key_status m pr : ipc_key (ipc_status_add m pr) = ipc_key pr.
Proof. unfold ipc_status_add. by destruct (negb _). Qed.

Lemma misc_status m pr : p_misc_flags (ipc_status_add m pr) = p_misc_flags pr.
Proof. unfold ipc_status_add. by destruct (negb _). Qed.

Lemma delivermsg_status m pr : p_delivermsg (ipc_status_add m pr) = p_delivermsg pr.
Proof. unfold ipc_status_add. by destruct (negb _). Qed.

Lemma WILLRECEIVE_true dpr e : WILLRECEIVE dpr e = true ->
  RTS_ISSET dpr RTS_RECEIVING = true /\ RTS_ISSET dpr RTS_SENDING = false.
Proof.
  unfold WILLRECEIVE. intros [[H1 H2]%andb_true_iff _]%andb_true_iff.
  by apply negb_true_iff in H2.
Qed.

(** Clearing RECEIVING leaves a process that does not send unblocked. *)
Lemma iv_released dpr pr' :
  RTS_ISSET dpr RTS_SENDING = false ->
  p_rts_flags pr' = clearf (p_rts_flags dpr) RTS_RECEIVING -> ipc_key pr' = ipc_key dpr ->
  let v := iv dpr in let v' := iv pr' in
  i_sending v' = false /\ i_endpoint v' = i_endpoint v /\ i_free v' = i_free v /\
  i_magic v' = i_magic v /\ i_blockedon v' = NONE /\ i_waiting v' = false /\
  i_link v' = i_link v /\ i_callq v' = i_callq v.
Proof.
  intros Hs Hf [= E1 E2 E3 E4 E5 E6]. simpl.
  assert (RTS_ISSET pr' RTS_SENDING = false) as Hs'.
  { unfold RTS_ISSET. rewrite Hf, isset_clearf_disjoint by done. exact Hs. }
  assert (RTS_ISSET pr' RTS_RECEIVING = false) as Hr'.
  { unfold RTS_ISSET. rewrite Hf. by apply isset_clearf. }
  assert (RTS_ISSET pr' RTS_SLOT_FREE = RTS_ISSET dpr RTS_SLOT_FREE) as Hfr.
  { unfold RTS_ISSET. rewrite Hf, isset_clearf_disjoint by done. done. }
  unfold P_BLOCKEDON, proc_ptr_ok.
  rewrite sending_anyset, receiving_anyset, Hs', Hr', Hfr, E1, E4, E5, E6. done.
Qed.

(** [flags ^ (SEND << 2)] has the opposite of RTS_SENDING. *)
Lemma sending_lxor pr :
  negb (RTS_ISSET pr RTS_SENDING) = anyset (Z.lxor (p_rts_flags pr) (Z.shiftl SEND 2)) RTS_SENDING.
Proof.
  rewrite (anyset_isset _ _ 2) by done. unfold RTS_ISSET, isset.
  rewrite !(land_bit _ _ 2) by done. rewrite Z.lxor_spec.
  replace (Z.testbit (Z.shiftl SEND 2) 2) with true by done. by destruct (Z.testbit _ 2).
Qed.

Section send.
Context `{KEnv} (s : kstate) (Q C : Z -> list Z).
Context (Hsched : sched_invQ s Q 0) (Hipc : ipc_inv (ivs s) C).
Context (c e : Z) (pr dpr : proc) (mp : msg_ptr) (flags : Z).
Context (Hc : procs s !! c = Some pr) (Hd : procs s !! _ENDPOINT_P e = Some dpr).
Context (Hlive : live (ivs s) e) (Hptr : ptr_matches mp flags).

Let d := _ENDPOINT_P e.

Lemma dst_iv : ivs s !! d = Some (iv dpr).
Proof using Hd. unfold d. by rewrite ivs_lookup, Hd. Qed.

Lemma dst_live : d ∈ slots /\ p_endpoint dpr = e /\ RTS_ISSET dpr RTS_SLOT_FREE = false.
Proof using Hlive Hd.
  destruct Hlive as (Hs & v & Hv & H1 & H2 & _). rewrite ivs_lookup, Hd in Hv.
  injection Hv as <-. done.
Qed.

Lemma dst_priv : has_priv s d dpr.
Proof using Hsched Hipc Hd Hlive.
  destruct dst_live as (_ & _ & Hf). destruct Hsched as (Ht & _).
  by apply (po_priv _ _ _ (to_proc _ Ht _ _ Hd)).
Qed.

(** The end of a delivery: the destination, with the message, stops receiving. *)
Lemma release_ok dF (P : unit -> kstate -> Prop) :
  WILLRECEIVE dpr (p_endpoint pr) = true ->
  sched_key dF = sched_key dpr -> ipc_key dF = ipc_key dpr ->
  (forall s' dpr', procs s' !! d = Some dpr' ->
     p_delivermsg dpr' = p_delivermsg dF -> p_misc_flags dpr' = p_misc_flags dF ->
     RTS_ISSET dpr' RTS_RECEIVING = false -> privs s' = privs s ->
     ivs s' = <[d := iv dpr']> (ivs s) -> sched_inv s' -> ipc_inv (ivs s') C -> P tt s') ->
  wp (RTS_UNSET d RTS_RECEIVING) P (upd1 s d dF).
Proof using Hsched Hipc Hd Hlive.
  intros Hw Ek Eik HP. destruct (WILLRECEIVE_true _ _ Hw) as [_ Hns].
  pose proof Ek as [= _ Efl _ _ Epv _]. destruct dst_live as (Hsl & _ & _).
  assert (has_priv (upd1 s d dF) d dF) as Hpv.
  { destruct dst_priv as (i & pv & Ei & Hpv). exists i, pv. by rewrite Epv. }
  eapply wp_mono.
  { apply (RTS_UNSET_ok (upd1 s d dF) Q d dF); [|done|apply upd1_lookup|done].
    by apply (sched_invQ_upd1 _ _ _ _ dpr). }
  intros [] s' (V & Q' & Hinv' & _). unfold with_flags in V.
  set (dG := set_p_rts_flags (clearf (p_rts_flags dF) RTS_RECEIVING) dF) in *.
  change (view s' = view (upd1 (upd1 s d dF) d dG)) in V. rewrite upd1_upd1 in V.
  destruct (view_lookup (upd1 s d dG) s' d dG V) as (dpr' & Hd' & Ee); [apply upd1_lookup|].
  assert (ivs s' = <[d := iv dpr']> (ivs s)) as Hivs.
  { rewrite (ivs_view _ _ V), ivs_upd1. by rewrite (iv_ev _ _ Ee). }
  destruct (iv_released dpr dG) as (A1 & A2 & A3 & A4 & A5 & A6 & A7 & A8);
    [done | by unfold dG; simpl; rewrite Efl | exact Eik |].
  apply (HP s' dpr'); [done| | | |by apply view_privs in V|done|by exists Q'|].
  - exact (f_equal p_delivermsg Ee).
  - exact (f_equal p_misc_flags Ee).
  - rewrite (isset_ev _ _ _ Ee) by done. by apply isset_clearf.
  - rewrite Hivs, (iv_ev _ _ Ee). eapply (ipc_inv_release _ C d (iv dpr)); try done. apply dst_iv.
Qed.

Lemma send_deliver_ok :
  RTS_ISSET dpr RTS_NO_ENDPOINT = false -> WILLRECEIVE dpr (p_endpoint pr) = true ->
  wp (send_deliver c d mp flags) (send_outcome s C c e pr dpr (fetched s mp) flags) s.
Proof using All.
  intros Hne Hw. destruct (WILLRECEIVE_true _ _ Hw) as [Hrec Hns].
  unfold send_deliver. apply wp_bind. eapply wp_getp; [done|].
  apply wp_bind. eapply wp_getp; [done|]. apply wp_bind, wp_assert.
  { apply negb_true_iff. change (i_deliver (iv dpr) = false).
    apply (ii_deliver _ _ Hipc d); [apply dst_iv|]. simpl. by rewrite Hrec, Hns. }
  apply wp_bind, wp_fetch; [done|]. destruct (fetched s mp) as [m|] eqn:Em.
  2:{ apply wp_ret. constructor; auto. }
  apply wp_bind. eapply wp_updp_first; [done|]. apply wp_bind.
  apply wp_mono with (P := fun _ s' => exists dF, s' = upd1 s d dF /\ sched_key dF = sched_key dpr /\
     ipc_key dF = ipc_key dpr /\ p_delivermsg dF = m /\ p_misc_flags dF = p_misc_flags dpr).
  { apply wp_when; intros _; [|by eexists].
    unfold IPC_STATUS_ADD_FLAGS. apply wp_updp_again. eexists. split; [done|].
    by rewrite sched_key_status, ipc_key_status, delivermsg_status, misc_status. }
  intros [] ? (dF & -> & Ek & Ei & Edm & Emf).
  apply wp_bind, wp_updp_again, wp_bind, wp_updp_again, wp_bind, wp_updp_again, wp_bind, wp_updp_again.
  apply wp_bind. eapply release_ok; [done| | |].
  - etransitivity; [|exact Ek].
    match goal with |- context[ipc_status_add ?x ?y] => exact (sched_key_status x y) end.
  - etransitivity; [|exact Ei].
    match goal with |- context[ipc_status_add ?x ?y] => exact (ipc_key_status x y) end.
  - intros s' dpr' Hd' Edm' Emf' Hr' _ Hivs Hsi Hii. apply wp_ret.
    cbn [p_delivermsg p_misc_flags set_p_misc_flags] in Edm', Emf'.
    rewrite delivermsg_status in Edm'. rewrite misc_status in Emf'.
    apply (so_delivered s C c e pr dpr _ flags m s' dpr'); try done.
    + rewrite Edm'. simpl. by rewrite Edm.
    + rewrite Emf'. simpl. by rewrite Emf.
Qed.

(** ** Blocking *)

Context (Hcs : c ∈ slots) (Hneq : d <> c) (Hsend : RTS_ISSET pr RTS_SENDING = false)
  (Hrecv : RTS_ISSET pr RTS_RECEIVING = false).

Lemma queue_short x : x ∈ slots -> (length (C x) < queue_fuel)%nat.
Proof using All.
  intros Hx. destruct Hsched as ([Hsl _ _] & _). destruct (Hsl x Hx) as [prx Hprx].
  destruct (ii_callers _ _ Hipc x (iv prx) Hx) as [_ Hnd]; [by rewrite ivs_lookup, Hprx|].
  assert (length (C x) <= 261)%nat; [|unfold queue_fuel; lia]. apply slots_length; [done|].
  intros y (w & Hw & Hs & _)%(ii_sending _ _ Hipc). by eapply (ii_range _ _ Hipc).
Qed.

(** From the caller marked as sending: it joins the queue. *)
Lemma join_ok s2 cH (P : unit -> kstate -> Prop) :
  procs s2 !! c = Some cH -> ivs s2 = <[c := iv cH]> (ivs s) -> sched_inv s2 ->
  RTS_ISSET cH RTS_SENDING = true -> p_sendto_e cH = e ->
  p_endpoint cH = p_endpoint pr -> proc_ptr_ok cH = proc_ptr_ok pr ->
  RTS_ISSET cH RTS_SLOT_FREE = RTS_ISSET pr RTS_SLOT_FREE ->
  p_q_link cH = p_q_link pr -> p_caller_q cH = p_caller_q pr ->
  ~ waits_for s d c ->
  (forall s' pr', procs s' !! c = Some pr' ->
     set_p_q_link None (set_p_caller_q None pr') = set_p_q_link None (set_p_caller_q None cH) ->
     sched_inv s' -> ipc_inv (ivs s') (upd_q C d (C d ++ [c])) -> P tt s') ->
  wp (append_caller queue_fuel d None c) P s2.
Proof using All.
  intros Hc2 Hivs [Q' Hs2] Es Ee E1 E2 E3 E4 E5 Hw HP.
  destruct dst_live as (Hdsl & _ & _).
  assert (exists d2, procs s2 !! d = Some d2 /\ p_caller_q d2 = p_caller_q dpr) as (d2 & Hd2 & Ecq).
  { pose proof (f_equal (fun m => m !! d) Hivs) as El. simpl in El.
    rewrite lookup_insert_ne, dst_iv, ivs_lookup in El by done.
    destruct (procs s2 !! d) as [d2|]; [|done]. exists d2. split; [done|].
    apply (inj Some) in El. exact (f_equal i_callq El). }
  assert (ivs s !! c = Some (iv pr)) as Hvc by by rewrite ivs_lookup, Hc.
  assert (callers (ivs s2) (p_caller_q d2) (C d)) as Hcl.
  { rewrite Ecq, Hivs. destruct (ii_callers _ _ Hipc d (iv dpr) Hdsl dst_iv) as [Hcl _].
    eapply callers_frame; [|exact Hcl]. intros x v _ Hv. destruct (decide (x = c)) as [->|].
    - exists (iv cH). rewrite lookup_insert_eq. assert (v = iv pr) as -> by congruence. done.
    - exists v. by rewrite lookup_insert_ne. }
  eapply (append_caller_ok s2 d d2 c (C d) queue_fuel []); [done..|by apply queue_short|].
  intros s' Ht. destruct (tail_update_kept _ _ _ _ _ _ _ Ht Hc2) as (pr' & Hc' & Ek).
  apply (HP s' pr'); [done..| |].
  - exists Q'. by eapply tail_update_sched.
  - rewrite (tail_update_ivs _ _ _ _ _ Ht), Hivs. simpl app.
    apply (ipc_inv_block (ivs s) C Hipc c (iv pr) (iv cH) e); try done.
    + intros Hr. apply rtc_tc in Hr as [|]; [by apply Hneq | by apply Hw].
    + simpl. unfold P_BLOCKEDON. by rewrite sending_anyset, Es.
    + simpl. by rewrite Es, andb_false_r.
Qed.

Lemma send_block_ok :
  RTS_ISSET dpr RTS_NO_ENDPOINT = false -> WILLRECEIVE dpr (p_endpoint pr) = false ->
  anyset flags NON_BLOCKING = false -> ~ waits_for s d c ->
  wp (send_block c d e mp flags) (send_outcome s C c e pr dpr (fetched s mp) flags) s.
Proof using All.
  intros Hne Hwr Hnb Hw. unfold send_block. apply wp_bind, wp_fetch; [done|].
  destruct (fetched s mp) as [m|] eqn:Em; [|apply wp_ret; constructor; auto].
  apply wp_bind. eapply wp_updp_first; [done|]. apply wp_bind.
  apply wp_mono with (P := fun _ s' => exists cF, s' = upd1 s c cF /\ sched_key cF = sched_key pr /\
     ipc_key cF = ipc_key pr /\ p_sendmsg cF = m /\
     anyset (p_misc_flags cF) MF_SENDING_FROM_KERNEL =
       anyset (p_misc_flags pr) MF_SENDING_FROM_KERNEL || anyset flags FROM_KERNEL).
  { apply wp_when; intros E.
    - apply wp_updp_again. eexists. split_and!; [done..|]. simpl. rewrite E, orb_true_r.
      rewrite (anyset_isset _ _ 13) by done. apply isset_setf.
    - eexists. split_and!; [done..|]. by rewrite E, orb_false_r. }
  intros [] ? (cF & -> & Ek & Ei & Esm & Emf).
  assert (sched_invQ (upd1 s c cF) Q 0) as Hs1 by by apply (sched_invQ_upd1 _ _ _ _ pr).
  apply wp_bind. eapply wp_mono; [eapply (RTS_SET_ok _ Q 0 c cF); [done|lia|apply upd1_lookup]|].
  intros [] s2 (V & _ & Q' & Hs2 & _). unfold with_flags in V.
  set (cG := set_p_rts_flags (setf (p_rts_flags cF) RTS_SENDING) cF) in *.
  change (view s2 = view (upd1 (upd1 s c cF) c cG)) in V. rewrite upd1_upd1 in V.
  destruct (view_lookup _ s2 c cG V) as (cH & HcH & Ee); [apply upd1_lookup|].
  apply wp_bind. eapply wp_updp_first; [done|].
  pose proof (f_equal p_endpoint Ee) as F1. pose proof (f_equal p_magic Ee) as F2.
  pose proof (f_equal p_q_link Ee) as F3. pose proof (f_equal p_caller_q Ee) as F4.
  pose proof (f_equal p_sendmsg Ee) as F5. pose proof (f_equal p_misc_flags Ee) as F6.
  simpl in F1, F2, F3, F4, F5, F6. injection Ei as G1 _ _ G4 G5 G6. injection Ek as _ K2 _ _ _ _.
  assert (p_q_link pr = None) as Hql.
  { apply (ii_link _ _ Hipc c (iv pr)); [by rewrite ivs_lookup, Hc|done]. }
  apply wp_bind. eapply wp_getp; [apply upd1_lookup|]. apply wp_bind, wp_assert.
  { apply bool_decide_eq_true. simpl. congruence. }
  assert (RTS_ISSET cH RTS_SENDING = true) as Hsnd.
  { rewrite (isset_ev _ _ _ Ee) by done. apply isset_setf. }
  assert (RTS_ISSET cH RTS_SLOT_FREE = RTS_ISSET pr RTS_SLOT_FREE) as Hfree.
  { rewrite (isset_ev _ _ _ Ee) by done. unfold RTS_ISSET, cG. simpl. rewrite K2.
    by apply isset_setf_disjoint. }
  apply wp_bind. eapply (join_ok _ (set_p_sendto_e e cH)); try done.
  - apply upd1_lookup.
  - rewrite ivs_upd1, (ivs_view _ _ V), ivs_upd1. by rewrite insert_insert_eq.
  - exists Q'. by apply (sched_invQ_upd1 _ _ _ _ cH).
  - simpl. congruence.
  - unfold proc_ptr_ok. simpl. by rewrite F2, G4.
  - simpl. congruence.
  - simpl. congruence.
  - intros s' pr' Hc' Ek' Hsi Hii. apply wp_ret.
    pose proof (f_equal p_sendmsg Ek') as L1. pose proof (f_equal p_sendto_e Ek') as L2.
    pose proof (f_equal p_rts_flags Ek') as L3. pose proof (f_equal p_misc_flags Ek') as L4.
    simpl in L1, L2, L3, L4.
    apply (so_queued s C c e pr dpr _ flags m s' pr'); try done.
    + congruence.
    + unfold RTS_ISSET. rewrite L3. exact Hsnd.
    + rewrite L4, F6. exact Emf.
Qed.

Lemma deadlock_ok (P : Z -> kstate -> Prop) :
  WILLRECEIVE dpr (p_endpoint pr) = false ->
  (forall r, r <> 0 /\ waits_for s d c \/ r = 0 /\ ~ waits_for s d c -> P r s) ->
  wp (deadlock SEND c e) P s.
Proof using All.
  intros Hwr HP. unfold deadlock. apply wp_bind. eapply wp_getp; [done|].
  assert (ivs s !! c = Some (iv pr)) as Hvc by by rewrite ivs_lookup, Hc.
  pose proof (ii_slots _ _ Hipc c _ Hcs Hvc) as Ep. simpl in Ep.
  destruct (slot_endpoint (p_endpoint pr)) as [N1 N2]; [by rewrite Ep|].
  eapply wp_mono.
  { apply (deadlock_loop_ok s C Hipc SEND (p_endpoint pr) deadlock_fuel e 1 []); try done.
    - intros x Hx. by apply elem_of_nil in Hx.
    - constructor.
    - intros x Hx. by apply elem_of_nil in Hx.
  }
  pose proof (reaches_tc _ C c (iv pr) d Hipc Hcs Hvc) as Hiff. simpl in Hiff.
  intros r s' [-> [[Hr Hre]|[Hr [Hre|(_ & pr2 & Hp2 & Eb & Ex)]]]]; apply HP.
  - left. split; [done|]. by apply Hiff.
  - right. split; [done|]. unfold waits_for. by rewrite <- Hiff.
  - exfalso. assert (pr2 = dpr) as -> by congruence. clear Hp2.
    rewrite <- sending_lxor in Ex.
    unfold WILLRECEIVE in Hwr. unfold P_BLOCKEDON in Eb.
    rewrite sending_anyset, receiving_anyset in Eb.
    destruct (RTS_ISSET dpr RTS_SENDING); [done|].
    destruct (RTS_ISSET dpr RTS_RECEIVING); [|congruence].
    rewrite Eb, Z.eqb_refl, orb_true_r in Hwr. done.
Qed.

Lemma mini_send_ok :
  wp (mini_send c e mp flags) (send_outcome s C c e pr dpr (fetched s mp) flags) s.
Proof using All.
  unfold mini_send. apply wp_bind. eapply wp_getp; [done|].
  destruct (RTS_ISSET dpr RTS_NO_ENDPOINT) eqn:Hne; [by apply wp_ret; constructor|].
  apply wp_bind. eapply wp_getp; [done|].
  destruct (WILLRECEIVE dpr (p_endpoint pr)) eqn:Hwr; [by apply send_deliver_ok|].
  destruct (anyset flags NON_BLOCKING) eqn:Hnb; [by apply wp_ret; constructor|].
  apply wp_bind, deadlock_ok; [done|]. intros r [[Hr Hw]|[-> Hw]].
  - rewrite (proj2 (Z.eqb_neq _ _)) by done. apply wp_ret. by constructor.
  - simpl. by apply send_block_ok.
Qed.
End send.
