(* ===== verification/KDemo.v ===== *)
(** * A checker for the scheduling invariant, and a concrete kernel state

    [sched_check] decides the invariant for given queues; [demo_kernel] is a small
    running system on which the theorems about the kernel are instantiated. *)

From S2P Require Import Prelude KTypes KSched KSchedFacts.
From Stdlib Require Import String.
#[local] Open Scope Z_scope.

(** ** Deciding the invariant *)

Section check.
Context (s : kstate).

Definition in_slots (p : Z) : bool := (-5 <=? p) && (p <? 256).

Definition has_privb (p : Z) (pr : proc) : bool :=
  match p_priv pr with
  | Some i =>
      match privs s !! i with
      | Some pv => negb (iskerneln p) || (s_stack_guard pv =? STACK_GUARD)
      | None => false
      end
  | None => false
  end.

Definition proc_okb (x : Z * proc) : bool :=
  let '(p, pr) := x in
  (negb (in_slots p) || (p_magic pr =? PMAGIC)) &&
  (negb (clearf (p_rts_flags pr) RTS_PREEMPTED =? 0) || in_slots p) &&
  ((0 <=? p_priority pr) && (p_priority pr <? NR_SCHED_QUEUES)) &&
  ((0 <=? p_tickets pr) && (p_tickets pr <=? 20)) &&
  (RTS_ISSET pr RTS_SLOT_FREE || has_privb p pr).

Fixpoint segb (h : option Z) (l : list Z) : bool :=
  match l with
  | [] => bool_decide (h = None)
  | p :: l' =>
      bool_decide (h = Some p) &&
      match nx (procs s) p with Some n => segb n l' | None => false end
  end.

Definition queue_okb (q : Z) (l : list Z) : bool :=
  segb (run_q_head s !! q) l &&
  (bool_decide (l = []) || bool_decide (run_q_tail s !! q = last l)) &&
  bool_decide (NoDup l).

Definition ready_atb (p q : Z) : bool :=
  match procs s !! p with
  | Some pr => proc_is_runnable pr && (p_priority pr =? q)
  | None => false
  end.

(** Queues given by their nonempty lists. *)
Fixpoint qof (QL : list (Z * list Z)) (q : Z) : list Z :=
  match QL with
  | [] => []
  | (q0, l) :: QL' => if q =? q0 then l else qof QL' q
  end.

Definition sched_check (QL : list (Z * list Z)) : bool :=
  let ps := map_to_list (procs s) in
  forallb (fun p => bool_decide (is_Some (procs s !! p))) slots &&
  forallb proc_okb ps &&
  match procs s !! proc_ptr s with Some pr => has_privb (proc_ptr s) pr | None => false end &&
  (total_tickets s =? tsum (procs s)) &&
  forallb (fun q => queue_okb q (qof QL q)) (seqZ 0 16) &&
  forallb (fun ql => forallb (fun p => in_slots p && ready_atb p (fst ql)) (snd ql)) QL &&
  forallb (fun x => negb (proc_is_runnable (snd x)) ||
                    bool_decide (fst x ∈ qof QL (p_priority (snd x)))) ps.

Lemma in_slots_ok p : in_slots p = true <-> p ∈ slots.
Proof using Type.
  unfold in_slots, slots. rewrite elem_of_seqZ, andb_true_iff, Z.leb_le, Z.ltb_lt.
  unfold NR_TASKS. lia.
Qed.

Lemma has_privb_ok p pr : has_privb p pr = true -> has_priv s p pr.
Proof using Type.
  unfold has_privb, has_priv. destruct (p_priv pr) as [i|]; [|done].
  destruct (privs s !! i) as [pv|] eqn:E; [|done]. intros Hg. exists i, pv. split_and!; [done..|].
  intros Hk. rewrite Hk in Hg. by apply Z.eqb_eq.
Qed.

Lemma proc_okb_ok p pr : proc_okb (p, pr) = true -> proc_ok s p pr.
Proof using Type.
  unfold proc_okb. rewrite !andb_true_iff, !orb_true_iff, !negb_true_iff. intros ((((H1 & H2) & H3) & H4) & H5).
  split.
  - intros Hp%in_slots_ok. destruct H1 as [H1|H1]; [congruence|]. by apply Z.eqb_eq.
  - intros Hc. destruct H2 as [H2|H2]; [by rewrite Hc in H2|]. by apply in_slots_ok.
  - destruct H3 as [?%Z.leb_le ?%Z.ltb_lt]. lia.
  - destruct H4 as [?%Z.leb_le ?%Z.leb_le]. lia.
  - intros Hf. destruct H5 as [H5|H5]; [congruence|]. by apply has_privb_ok.
Qed.

Lemma segb_ok h l : segb h l = true -> seg (procs s) h l None.
Proof using Type.
  revert h. induction l as [|p l IH]; intros h; simpl; [by intros H%bool_decide_eq_true|].
  rewrite andb_true_iff, bool_decide_eq_true. intros [-> Hn]. split; [done|].
  destruct (nx (procs s) p) as [n|]; [|done]. eauto.
Qed.

Lemma queue_okb_ok q l : queue_okb q l = true -> queue_wf s q l.
Proof using Type.
  unfold queue_okb. rewrite !andb_true_iff, orb_true_iff, !bool_decide_eq_true.
  intros [[H1 H2] H3]. split_and!; [by apply segb_ok | | done]. by destruct H2.
Qed.

Lemma ready_atb_ok p q : ready_atb p q = true -> ready_at s p q.
Proof using Type.
  unfold ready_atb. destruct (procs s !! p) as [pr|] eqn:E; [|done].
  rewrite andb_true_iff, Z.eqb_eq. intros [H1 H2]. exists pr. split_and!; [done| |done].
  by apply Z.eqb_eq.
Qed.

Lemma qof_elem QL q p : p ∈ qof QL q -> exists l, (q, l) ∈ QL /\ p ∈ l.
Proof using Type.
  induction QL as [|[q0 l] QL IH]; simpl; [by intros ?%elem_of_nil|].
  destruct (Z.eqb_spec q q0) as [->|].
  - intros Hp. exists l. split; [left|done].
  - intros (l' & ? & ?)%IH. exists l'. split; [by right|done].
Qed.

Lemma sched_check_ok QL : sched_check QL = true -> sched_invQ s (qof QL) 0.
Proof using Type.
  unfold sched_check. rewrite !andb_true_iff, !forallb_forall, Z.eqb_eq.
  intros ((((((H1 & H2) & H3) & H4) & H5) & H6) & H7).
  assert (forall q p, p ∈ qof QL q -> p ∈ slots /\ ready_at s p q) as Hmem.
  { intros q p (l & Hl & Hp)%qof_elem. specialize (H6 (q, l) (proj1 (list_elem_of_In _ _) Hl)).
    simpl in H6. rewrite forallb_forall in H6. specialize (H6 p (proj1 (list_elem_of_In _ _) Hp)).
    apply andb_true_iff in H6 as [?%in_slots_ok ?%ready_atb_ok]. done. }
  split_and!.
  - split.
    + intros p Hp. apply list_elem_of_In in Hp. specialize (H1 p Hp). by apply bool_decide_eq_true in H1.
    + intros p pr Hp. apply proc_okb_ok, H2, list_elem_of_In. by apply elem_of_map_to_list.
    + destruct (procs s !! proc_ptr s) as [pr|]; [|done]. exists pr. split; [done|].
      by apply has_privb_ok.
  - lia.
  - split.
    + intros q Hq. apply queue_okb_ok, H5, list_elem_of_In, elem_of_seqZ.
      unfold NR_SCHED_QUEUES in Hq. lia.
    + intros q p Hp. destruct (Hmem q p Hp) as [? (pr & ? & _ & ?)]. split; [done|]. by exists pr.
  - intros q p. split; [apply Hmem|]. intros (pr & Hp & Hr & <-).
    specialize (H7 (p, pr)). rewrite <- list_elem_of_In, elem_of_map_to_list in H7.
    specialize (H7 Hp). simpl in H7. apply orb_true_iff in H7 as [H7|H7].
    + apply negb_true_iff in H7. unfold proc_is_runnable in H7. by rewrite Hr in H7.
    + by apply bool_decide_eq_true in H7.
Qed.
End check.

(** ** A kernel before [proc_init], and a running one *)

Definition no_message : message := mk_message 0 0 (PUser []).
Definition blank_proc : proc :=
  mk_proc 0 None 0 0 0 0 0 None 0 0 0 0 0 0 0 0 0 0 0 0 0 0 None None None 0 0 0 "" 0
          no_message no_message 0 0 (0, 0, 0) 0 0 0 0.
Definition blank_priv : priv := mk_priv 0 0 0 0 0 0 0 0 0 0 0 0 0 STACK_GUARD false.

Definition blank_kernel : kstate :=
  mk_kstate
    (list_to_map (map (fun p => (p, blank_proc)) (IDLE_SLOT :: slots)))
    (list_to_map (map (fun i => (i, blank_priv)) (IDLE_PRIV :: seqZ 0 NR_SYS_PROCS)))
    ∅ ∅ IDLE_SLOT None None 0 2 0 0 0 ∅ ∅.

(** Occupy a slot: privilege structure [i], flags [fl], priority, tickets, link. *)
Definition occupy (p i fl prio tickets : Z) (next : option Z) (s : kstate) : kstate :=
  set_procs (alter (fun pr => set_p_priv (Some i) (set_p_rts_flags fl (set_p_priority prio
    (set_p_tickets tickets (set_p_nextready next (set_p_cpu_time_left 100 pr)))))) p (procs s))
  (set_privs (alter (set_s_proc_nr p) i (privs s)) s).

Definition demo_env : KEnv :=
  {| read_tsc_64 := fun n => 1000 + Z.of_nat n; get_monotonic_n := fun n => Z.of_nat n;
     random_n := fun n => 7; ms_2_cpu_time := fun ms => 1000 * ms;
     cpu_time_2_ms := fun t => t / 1000; cpu_load := 0; sigs_is_lethal := fun n => n =? 11;
     SIGKSIG := 26; SIGKSIGSM := 27; SIGSNDELAY := 28; SIGKMESS := 29; SIGTRAP := 5;
     sizeof_asynmsg := 76 |}.

Definition init_kernel : kstate :=
  match proc_init blank_kernel with Ok (_, s) => s | Err _ => blank_kernel end.

(** PM (0) is ready at priority 4, processes 11 and 12 at priority 7 with 11
    running, and process 13 (priority 3) waits for a message. *)
Definition demo_kernel : kstate :=
  set_run_q_head (list_to_map [(4, 0); (7, 11)])
    (set_run_q_tail (list_to_map [(4, 0); (7, 12)])
      (set_proc_ptr 11 (set_total_tickets 18
        (occupy 0 5 0 4 5 None (occupy 11 15 0 7 5 (Some 12) (occupy 12 15 0 7 8 None
          (occupy 13 16 RTS_RECEIVING 3 5 None
            (set_privs (alter (set_s_flags 6) 15 (privs init_kernel)) init_kernel)))))))).
Definition demo_queues : list (Z * list Z) := [(4, [0]); (7, [11; 12])].

Lemma demo_inv : sched_invQ demo_kernel (qof demo_queues) 0.
Proof. apply sched_check_ok. vm_compute. reflexivity. Qed.
