(* ===== verification/KSchedProps.v ===== *)
(** * Properties of the kernel scheduler

    Preservation of the scheduling invariant, the choice of the next process
    by priority and by lottery, and the ticket arithmetic. *)

From S2P Require Import Prelude KTypes KSched KSchedFacts KDemo.
#[local] Open Scope Z_scope.

(** ** The lottery as a function of the order of the queues *)

Section winner.
Context (f : Z -> Z).

(** The first process at which the running sum reaches ticket [t]. *)
Fixpoint winner (L : list Z) (t sum : Z) : option Z :=
  match L with
  | [] => None
  | p :: L' => if t <=? sum + f p then Some p else winner L' t (sum + f p)
  end.

Lemma winner_app L1 L2 t sum :
  winner (L1 ++ L2) t sum =
  match winner L1 t sum with Some p => Some p | None => winner L2 t (sum + zsum (f <$> L1)) end.
Proof.
  revert sum. induction L1 as [|p L1 IH]; intros sum; simpl; [by rewrite Z.add_0_r|].
  rewrite zsum_cons.
  destruct (t <=? sum + f p); [done|]. rewrite IH.
  by replace (sum + f p + zsum (f <$> L1)) with (sum + (f p + zsum (f <$> L1))) by lia.
Qed.

Lemma winner_elem L t sum p : winner L t sum = Some p -> p ∈ L.
Proof.
  revert sum. induction L as [|x L IH]; intros sum; simpl; [done|].
  case_match; [intros [= ->]; left|]. intros Hw. right. by eapply IH.
Qed.

Hypothesis f_nonneg : forall p, 0 <= f p.

Lemma zsum_nonneg L : 0 <= zsum (f <$> L).
Proof using f_nonneg.
  induction L as [|x L IH]; [done|]. rewrite fmap_cons, zsum_cons. pose proof (f_nonneg x). lia.
Qed.

Lemma winner_some L t sum :
  sum < t <= sum + zsum (f <$> L) -> exists p, winner L t sum = Some p.
Proof using Type.
  revert sum. induction L as [|x L IH]; intros sum Ht; [unfold zsum in Ht; simpl in Ht; lia|].
  rewrite fmap_cons, zsum_cons in Ht. simpl.
  destruct (Z.leb_spec t (sum + f x)); [eauto|]. apply IH. lia.
Qed.

(** Each process wins with exactly as many tickets as it holds. *)
Lemma winner_count L p sum :
  NoDup L -> p ∈ L ->
  length (filter (fun t => winner L t sum = Some p) (seqZ (sum + 1) (zsum (f <$> L))))
  = Z.to_nat (f p).
Proof using f_nonneg.
  revert sum. induction L as [|x L IH]; intros sum Hnd Hp; [by apply elem_of_nil in Hp|].
  apply NoDup_cons in Hnd as [Hx Hnd]. rewrite fmap_cons, zsum_cons.
  pose proof (f_nonneg x) as Hfx. pose proof (zsum_nonneg L) as HL.
  rewrite seqZ_app, filter_app, length_app by lia.
  assert (forall t, t ∈ seqZ (sum + 1) (f x) -> winner (x :: L) t sum = Some x) as H1.
  { intros t Ht%elem_of_seqZ. simpl. by rewrite (proj2 (Z.leb_le _ _)) by lia. }
  assert (forall t, t ∈ seqZ (sum + 1 + f x) (zsum (f <$> L)) ->
            winner (x :: L) t sum = winner L t (sum + f x)) as H2.
  { intros t Ht%elem_of_seqZ. simpl. by rewrite (proj2 (Z.leb_gt _ _)) by lia. }
  apply elem_of_cons in Hp as [->|Hp].
  - rewrite (list_filter_all _ (seqZ _ (f x))).
    + rewrite (list_filter_none _ (seqZ _ (zsum _))), length_seqZ; [simpl; lia|].
      apply Forall_forall. intros t Ht E. rewrite H2 in E by done. by apply winner_elem in E.
    + apply Forall_forall. auto.
  - rewrite (list_filter_none _ (seqZ _ (f x))).
    + rewrite (list_filter_iff' _ (fun t => winner L t (sum + f x) = Some p)).
      * simpl. replace (sum + 1 + f x) with (sum + f x + 1) by lia. by apply IH.
      * intros t Ht. by rewrite H2.
    + apply Forall_forall. intros t Ht E. rewrite H1 in E by done. injection E as ->. done.
Qed.
End winner.

(** ** The ready processes in the order of the queues *)

Definition ready_order (Q : Z -> list Z) (q : Z) (n : nat) : list Z :=
  concat (Q <$> seqZ q (Z.of_nat n)).

Lemma ready_order_S Q q n : ready_order Q q (S n) = Q q ++ ready_order Q (q + 1) n.
Proof.
  unfold ready_order. rewrite seqZ_cons by lia. simpl. do 4 f_equal; lia.
Qed.

Lemma ready_order_elem Q q n p :
  p ∈ ready_order Q q n <-> exists q', q <= q' < q + Z.of_nat n /\ p ∈ Q q'.
Proof.
  revert q. induction n as [|n IH]; intros q.
  - split; [intros H; by apply elem_of_nil in H | intros (q' & ? & _); lia].
  - rewrite ready_order_S, elem_of_app, IH. split.
    + intros [?|(q' & ? & ?)]; [exists q; split; [lia|done] | exists q'; split; [lia|done]].
    + intros (q' & Hq' & Hp). destruct (decide (q' = q)) as [->|]; [by left|].
      right. exists q'. split; [lia|done].
Qed.

Lemma ready_order_NoDup s Q q n :
  queues s Q -> 0 <= q -> q + Z.of_nat n <= NR_SCHED_QUEUES -> NoDup (ready_order Q q n).
Proof.
  intros HQ. revert q. induction n as [|n IH]; intros q H1 H2; [constructor|].
  rewrite ready_order_S. apply NoDup_app. split_and!.
  - apply HQ. lia.
  - intros p Hp (q' & Hq' & Hp')%ready_order_elem.
    destruct (qs_prio _ _ HQ q p Hp) as (_ & pr & E1 & E2).
    destruct (qs_prio _ _ HQ q' p Hp') as (_ & pr' & E3 & E4). simplify_eq. lia.
  - apply IH; lia.
Qed.

Definition ready_list (Q : Z -> list Z) : list Z := ready_order Q 0 16.

Lemma zsum_perm l1 l2 : l1 ≡ₚ l2 -> zsum l1 = zsum l2.
Proof. unfold zsum. induction 1; simpl; lia. Qed.

Lemma zsum_filter (f : Z -> Z) (P : Z -> Prop) `{!forall x, Decision (P x)} l :
  (forall x, ~ P x -> f x = 0) -> zsum (f <$> filter P l) = zsum (f <$> l).
Proof.
  intros Hf. induction l as [|x l IH]; [done|]. destruct (decide (P x)).
  - rewrite filter_cons_True by done. by rewrite !fmap_cons, !zsum_cons, IH.
  - rewrite filter_cons_False by done. rewrite fmap_cons, zsum_cons, IH, Hf by done. lia.
Qed.

Lemma weight_ready s p q : ready_at s p q -> exists pr, procs s !! p = Some pr /\
  weight (procs s) p = p_tickets pr.
Proof.
  intros (pr & Hp & Hr & _). exists pr. split; [done|]. unfold weight, proc_is_runnable.
  by rewrite Hp, Hr.
Qed.

(** The tickets on the queues add up to the total. *)
Lemma ready_list_sum s Q :
  sched_invQ s Q 0 -> zsum (weight (procs s) <$> ready_list Q) = total_tickets s.
Proof.
  intros (Ht & Htot & HQ & Hr). rewrite Z.add_0_r in Htot. rewrite Htot.
  transitivity (zsum (weight (procs s) <$> filter (fun p => runnable_at s p = true) slots)).
  - apply zsum_perm, fmap_Permutation, NoDup_Permutation.
    + by eapply ready_order_NoDup.
    + apply NoDup_filter, slots_NoDup.
    + intros p. unfold ready_list. rewrite ready_order_elem, list_elem_of_filter. split.
      * intros (q & _ & Hp). split; [|by apply (qs_prio _ _ HQ q)].
        eapply ready_runnable. by apply Hr.
      * intros [Hra Hsl]. unfold runnable_at in Hra.
        destruct (procs s !! p) as [pr|] eqn:E; [|done]. exists (p_priority pr). split.
        -- apply (to_proc _ Ht _ _ E).
        -- apply Hr. exists pr. split_and!; [done| |done]. by apply Z.eqb_eq.
  - apply zsum_filter. intros p Hp. unfold weight, runnable_at in *.
    destruct (procs s !! p); [|done]. by destruct (proc_is_runnable p0).
Qed.

Lemma weight_bounds s p : table_ok s -> 0 <= weight (procs s) p <= 20.
Proof.
  intros Ht. unfold weight. destruct (procs s !! p) as [pr|] eqn:E; [|lia].
  pose proof (po_tickets _ _ _ (to_proc _ Ht _ _ E)). case_match; lia.
Qed.

(** ** Walking the queues *)

Section walk.
Context `{KEnv} (s : kstate) (Q : Z -> list Z) (Hinv : sched_invQ s Q 0).

Lemma Q_ready q p : p ∈ Q q -> ready_at s p q.
Proof using Hinv. apply Hinv. Qed.

Lemma wp_picked p q (P : option Z -> kstate -> Prop) :
  p ∈ Q q ->
  (forall s', (s' = s \/ s' = set_bill_ptr (Some p) s) -> P (Some p) s') -> wp (picked p) P s.
Proof using Hinv.
  intros (pr & Hp & Hr & _)%Q_ready HP. unfold picked. apply wp_bind. eapply wp_getp; [done|].
  apply wp_bind, wp_assert; [by apply Z.eqb_eq|].
  destruct (has_priv_runnable s p pr (proj1 Hinv) Hp Hr) as (i & pv & Ei & Epv & _).
  apply wp_bind. eapply wp_getpriv; [done..|]. apply wp_bind, wp_when; intros _.
  - apply wp_modify, wp_ret. apply HP. by right.
  - apply wp_ret. apply HP. by left.
Qed.

Lemma head_of q : 0 <= q < NR_SCHED_QUEUES -> run_q_head s !! q = head (Q q).
Proof using Hinv.
  intros Hq. destruct Hinv as (_ & _ & HQ & _). destruct (qs_wf _ _ HQ q Hq) as (Hs & _ & _).
  destruct (Q q); simpl in *; [done | by destruct Hs].
Qed.

(** The standard policy runs a head of the first queue that is not empty. *)
Lemma pick_standard_ok n q :
  0 <= q -> q + Z.of_nat n <= NR_SCHED_QUEUES ->
  wp (pick_standard n q) (fun r s' =>
    match r with
    | None => s' = s /\ forall q', q <= q' < q + Z.of_nat n -> Q q' = []
    | Some p => (s' = s \/ s' = set_bill_ptr (Some p) s) /\
        exists q0 l, Q q0 = p :: l /\ q <= q0 < q + Z.of_nat n /\
          forall q', q <= q' < q0 -> Q q' = []
    end) s.
Proof using Hinv.
  revert q. induction n as [|n IH]; intros q H1 H2; simpl.
  { split; [done|]. intros; lia. }
  apply wp_bind, wp_rdy_head; [lia|]. rewrite head_of by lia.
  destruct (Q q) as [|p l] eqn:Eq; simpl.
  - eapply wp_mono; [apply IH; lia|]. intros [p|] s'.
    + intros (Hs & q0 & l & E & Hq0 & Hl). split; [done|]. exists q0, l. split_and!; [done|lia|lia|].
      intros q' Hq'. destruct (decide (q' = q)) as [->|]; [done|]. apply Hl. lia.
    + intros [Hs Hl]. split; [done|]. intros q' Hq'.
      destruct (decide (q' = q)) as [->|]; [done|]. apply Hl. lia.
  - apply (wp_picked p q); [rewrite Eq; left|]. intros s' Hs. split; [done|].
    exists q, l. split_and!; [done|lia|lia|]. intros; lia.
Qed.

Notation w := (weight (procs s)).

Lemma w_nonneg p : 0 <= w p.
Proof using Hinv. apply weight_bounds, Hinv. Qed.

Lemma lottery_queue_ok chosen l fuel h sum :
  seg (procs s) h l None -> (forall p, p ∈ l -> exists q, p ∈ Q q) ->
  (length l < fuel)%nat -> 0 <= sum -> sum + zsum (w <$> l) <= INT_MAX ->
  wp (lottery_queue fuel chosen sum h) (fun r s' => s' = s /\
    r = match winner w l chosen sum with
        | Some p => inr p | None => inl (sum + zsum (w <$> l)) end) s.
Proof using Hinv.
  revert fuel h sum. induction l as [|p l IH]; intros fuel h sum Hs Hl Hf H0 Hsum;
    (destruct fuel as [|fuel]; [simpl in Hf; lia|]); simpl.
  - simpl in Hs. subst h. split; [done|]. unfold zsum. simpl. f_equal. lia.
  - destruct Hs as (-> & n & Hn & Hs). destruct (Hl p ltac:(left)) as [q Hq].
    destruct (weight_ready s p q (Q_ready q p Hq)) as (pr & Hp & Ew).
    unfold nx in Hn. rewrite Hp in Hn. injection Hn as <-.
    rewrite fmap_cons, zsum_cons in *. pose proof (zsum_nonneg w w_nonneg l). pose proof (w_nonneg p).
    apply wp_bind. eapply wp_getp; [done|]. apply wp_bind. eapply wp_lift.
    { unfold iadd. apply int_ok_in. unfold INT_MIN, INT_MAX in *. lia. }
    rewrite <- Ew. destruct (chosen <=? sum + w p); [by apply wp_ret|].
    change (list_fmap Z Z w l) with (w <$> l). cbn [length] in Hf.
    eapply wp_mono; [apply (IH fuel (p_nextready pr) (sum + w p) Hs); [|lia..]|].
    + intros x Hx. apply Hl. by right.
    + intros r s' [-> ->]. split; [done|]. case_match; [done|]. f_equal. lia.
Qed.

Lemma lottery_queues_ok chosen n q sum :
  0 <= q -> q + Z.of_nat n <= NR_SCHED_QUEUES -> 0 <= sum ->
  sum + zsum (w <$> ready_order Q q n) <= INT_MAX ->
  wp (lottery_queues n chosen sum q) (fun r s' =>
    r = winner w (ready_order Q q n) chosen sum /\
    (s' = s \/ exists p, r = Some p /\ s' = set_bill_ptr (Some p) s)) s.
Proof using Hinv.
  pose proof Hinv as (_ & _ & HQ & _).
  revert q sum. induction n as [|n IH]; intros q sum H1 H2 H3 H4; [by split; [|left]|].
  cbn [lottery_queues].
  rewrite ready_order_S in *. rewrite fmap_app, zsum_app in H4.
  pose proof (zsum_nonneg w w_nonneg (ready_order Q (q + 1) n)).
  pose proof (zsum_nonneg w w_nonneg (Q q)).
  apply wp_bind, wp_rdy_head; [lia|]. apply wp_bind.
  destruct (qs_wf _ _ HQ q ltac:(lia)) as (Hseg & _ & Hnd).
  eapply wp_mono; [apply (lottery_queue_ok chosen (Q q) _ _ sum Hseg); [eauto| |lia|lia]|].
  { destruct (queue_length s Q q HQ); [unfold queue_fuel; lia|done]. }
  intros r s' [-> ->]. rewrite winner_app.
  destruct (winner w (Q q) chosen sum) as [p|] eqn:Ew.
  - apply (wp_picked p q); [by eapply winner_elem|].
    intros s' Hs'. split; [done|]. destruct Hs' as [?|?]; eauto.
  - apply IH; lia.
Qed.
End walk.

(** ** Properties *)

Section properties.
Context `{KEnv}.

(** The tables as the loader leaves them: all the slots exist, the queues are
    empty and the idle process is current. *)
Record boot_state (s : kstate) : Prop := {
  bs_procs : forall p, is_Some (procs s !! p) <-> p ∈ slots \/ p = IDLE_SLOT;
  bs_privs : forall i, 0 <= i < NR_SYS_PROCS -> is_Some (privs s !! i);
  bs_idle : exists pr pv, procs s !! IDLE_SLOT = Some pr /\ p_priority pr = 0 /\
              p_tickets pr = 0 /\ privs s !! IDLE_PRIV = Some pv;
  bs_head : run_q_head s = ∅;
  bs_total : total_tickets s = 0;
  bs_cur : proc_ptr s = IDLE_SLOT;
}.

Lemma slots_range p : p ∈ slots <-> -5 <= p < 256.
Proof. unfold slots, NR_TASKS. rewrite elem_of_seqZ. lia. Qed.

(** A table of free slots with an idle process that does not run and empty queues is in order. *)
Lemma free_slots_inv s ip :
  (forall p pr, procs s !! p = Some pr -> p = IDLE_SLOT \/ p ∈ slots) ->
  (forall p, p ∈ slots -> exists pr, procs s !! p = Some (init_proc_slot p pr)) ->
  procs s !! IDLE_SLOT = Some ip -> proc_ok s IDLE_SLOT ip -> p_rts_flags ip <> 0 ->
  has_priv s IDLE_SLOT ip -> proc_ptr s = IDLE_SLOT -> run_q_head s = ∅ -> total_tickets s = 0 ->
  sched_inv s.
Proof.
  intros Hdom Hs Hip Hok Hrun Hpv Hcur Hq Htot. exists (fun _ => []).
  assert (forall p q, ~ ready_at s p q) as Hnone.
  { intros p q (pr & Hp & Hr & _). unfold runnable in Hr. destruct (Hdom p pr Hp) as [->|Hsl]; [congruence|].
    destruct (Hs p Hsl) as [pr' E]. rewrite E in Hp. injection Hp as <-. done. }
  split_and!.
  - split.
    + intros p Hp. destruct (Hs p Hp) as [pr ->]. eauto.
    + intros p pr Hp. destruct (Hdom p pr Hp) as [->|Hsl].
      * rewrite Hip in Hp. by injection Hp as <-.
      * destruct (Hs p Hsl) as [pr' E]. rewrite E in Hp. injection Hp as <-. split; done.
    + rewrite Hcur. by exists ip.
  - rewrite Htot. symmetry. unfold tsum. rewrite (zsum_ext _ (fun _ => 0)).
    + generalize slots as l. induction l as [|x l IH]; [done|]. by rewrite fmap_cons, zsum_cons, IH.
    + intros p Hp. unfold weight. destruct (Hs p Hp) as [pr ->]. done.
  - split; [|by intros q p ?%elem_of_nil]. intros q _. split_and!; [|done|constructor].
    rewrite Hq. by rewrite lookup_empty.
  - intros q p. split; [by intros ?%elem_of_nil|]. intros Hr. by apply Hnone in Hr.
Qed.

(** (proc_init). From the tables as loaded, initialisation establishes the
    scheduling invariant with empty queues; every slot is free, holds 5 tickets
    and has the endpoint of generation 0 of its number. *)
Theorem proc_init_inv s :
  boot_state s ->
  wp proc_init (fun _ s' => sched_inv s' /\
    forall p, p ∈ slots -> exists pr, procs s' !! p = Some pr /\
      isemptyp pr = true /\ p_tickets pr = 5 /\ p_endpoint pr = p /\ p_nr pr = p) s.
Proof.
  intros [B1 B2 (ipr & ipv & Hipr & Hprio & Htk & Hipv) B4 B5 B6].
  assert (IDLE_SLOT ∉ slots) as Hidle. { rewrite slots_range. unfold IDLE_SLOT. lia. }
  unfold proc_init. apply wp_bind, wp_foreach_updp.
  { apply slots_NoDup. } { intros p Hp. apply B1. by left. }
  intros m Hm1 Hm2. apply wp_bind, wp_foreach_upd_privs.
  { apply NoDup_seqZ. } { intros i Hi%elem_of_seqZ. apply B2. lia. }
  intros mp _ Hmp2. apply wp_bind. eapply wp_upd_privs.
  { simpl. rewrite Hmp2; [exact Hipv|]. rewrite elem_of_seqZ. unfold IDLE_PRIV, NR_SYS_PROCS. lia. }
  eapply (wp_updp IDLE_SLOT _ ipr); [simpl; by rewrite Hm2|].
  assert (forall p, p ∈ slots -> exists pr, m !! p = Some (init_proc_slot p pr)) as Hslot.
  { intros p Hp. rewrite Hm1 by done. destruct (proj2 (B1 p) (or_introl Hp)) as [pr ->]. by exists pr. }
  set (s' := set_procs _ _).
  assert (forall p pr, procs s' !! p = Some pr -> p = IDLE_SLOT \/ p ∈ slots) as Hdom.
  { intros p pr. subst s'. simpl. destruct (decide (p = IDLE_SLOT)); [by left|].
    rewrite lookup_insert_ne by done. destruct (decide (p ∈ slots)); [by right|].
    rewrite Hm2 by done. intros Hp. destruct (proj1 (B1 p)); [by exists pr|tauto..]. }
  assert (forall p, p ∈ slots -> exists pr, procs s' !! p = Some (init_proc_slot p pr)) as Hs'.
  { intros p Hp. subst s'. simpl. rewrite lookup_insert_ne by (by intros <-). auto. }
  assert (exists ip, procs s' !! IDLE_SLOT = Some ip /\ proc_ok s' IDLE_SLOT ip /\ p_rts_flags ip <> 0 /\
    has_priv s' IDLE_SLOT ip) as (ip & Hip & Hok & Hrun & Hpv).
  { eexists. split; [subst s'; simpl; by rewrite lookup_insert_eq|].
    match goal with |- proc_ok _ _ ?ip /\ _ => assert (has_priv s' IDLE_SLOT ip) as Hpv end.
    { exists IDLE_PRIV. subst s'. simpl. rewrite lookup_insert_eq. eexists. by split_and!. }
    split_and!; [|by apply setf_nonzero|exact Hpv]. split; simpl.
    - intros Hc. by destruct Hidle.
    - intros Hc. exfalso. revert Hc. by apply clearf_setf_other.
    - rewrite Hprio. done.
    - rewrite Htk. lia.
    - intros _. exact Hpv. }
  split.
  - apply (free_slots_inv s' ip); [exact Hdom|exact Hs'|done..].
  - intros p Hp. destruct (Hs' p Hp) as [pr E]. eexists. split; [exact E|]. done.
Qed.



(** Preempted processes. A runnable process with time left that is on no
    queue is put at the front of its queue, with its tickets counted. *)
Theorem enqueue_head_front s Q rp pr :
  enq_pre s Q rp pr -> p_cpu_time_left pr <> 0 ->
  wp (enqueue_head rp) (fun _ s' => view s' = view s /\
    exists Q', sched_invQ s' Q' 0 /\
      forall q, Q' q = upd_q Q (p_priority pr) (rp :: Q (p_priority pr)) q) s.
Proof. intros. by apply enqueue_head_ok. Qed.

(** (pick_proc, standard policy). With [style] 0 the process picked is the head of
    the queue of the highest priority at which some process is runnable, and
    none is picked only when no process is runnable. *)
Theorem pick_proc_standard s Q rdy :
  sched_invQ s Q 0 -> style s = 0 ->
  wp (pick_proc rdy) (fun r s' =>
    match r with
    | None => s' = s /\ forall p q, ~ ready_at s p q
    | Some p => (s' = s \/ s' = set_bill_ptr (Some p) s) /\
        exists q l, Q q = p :: l /\ forall p' q', ready_at s p' q' -> q <= q'
    end) s.
Proof.
  intros Hinv Hst. unfold pick_proc. apply wp_bind, wp_gets. rewrite Hst. simpl.
  pose proof Hinv as (Ht & _ & HQ & Hr).
  assert (forall p q, ready_at s p q -> 0 <= q < NR_SCHED_QUEUES) as Hrange.
  { intros p q (pr & Hp & _ & <-). apply (to_proc _ Ht _ _ Hp). }
  eapply wp_mono; [apply (pick_standard_ok s Q Hinv 16 0); [lia|done]|].
  intros [p|] s'.
  - intros (Hs & q0 & l & E & Hq0 & Hl). split; [done|]. exists q0, l. split; [done|].
    intros p' q' Hp'. destruct (decide (q0 <= q')); [done|].
    pose proof (Hrange _ _ Hp'). apply Hr in Hp'. rewrite Hl in Hp' by lia.
    by apply elem_of_nil in Hp'.
  - intros [Hs Hl]. split; [done|]. intros p q Hp. pose proof (Hrange _ _ Hp) as Hq.
    apply Hr in Hp. rewrite Hl in Hp by (unfold NR_SCHED_QUEUES in Hq; simpl; lia).
    by apply elem_of_nil in Hp.
Qed.

(** The process the lottery runs for ticket [t]. *)
Definition lottery_pick (s : kstate) (t : Z) : option Z :=
  match lottery_queues 16 t 0 0 s with Ok (r, _) => r | Err _ => None end.


(** Lottery as written. [pick_proc] assigns [rdy_head] only in its standard
    branch; with [style] 1 or 2 and tickets in the queues the lottery reads the
    indeterminate pointer. *)
Theorem pick_proc_lottery_uninit s :
  style s <> 0 -> 0 < total_tickets s -> pick_proc RdyIndeterminate s = Err Uninit.
Proof.
  intros Hst Htot. unfold pick_proc, mbind, M_bind, gets, random, modify.
  rewrite (proj2 (Z.eqb_neq _ _)) by done. rewrite (proj2 (Z.leb_gt _ _)) by done. done.
Qed.

(** C34 (ProcessSetPriority). The tickets of a process are clamped to 0..20. The
    total follows the change only when nothing is clamped, and it follows it for a
    process that is not in any queue too: the theorem gives the exact difference
    between [total_tickets] and the tickets in the queues afterwards. *)
Theorem ProcessSetPriority_total s Q p pr n :
  sched_invQ s Q 0 -> p ∈ slots -> procs s !! p = Some pr -> -1000 <= n <= 1000 ->
  let t := p_tickets pr in
  let t' := Z.max 0 (Z.min 20 (t + n)) in
  wp (ProcessSetPriority p n) (fun _ s' =>
    procs s' = <[p := set_p_tickets t' pr]> (procs s) /\
    total_tickets s' - tsum (procs s') =
      (if t' =? t + n then n else 0) - (if proc_is_runnable pr then t' - t else 0)) s.
Proof.
  intros (Ht & Htot & _) Hsl Hp Hn t t'. pose proof (tsum_bound s Ht).
  pose proof (po_tickets _ _ _ (to_proc _ Ht _ _ Hp)) as Hb. fold t in Hb.
  assert (forall d s', procs s' = <[p := set_p_tickets t' pr]> (procs s) ->
    total_tickets s' = total_tickets s + d -> d = (if t' =? t + n then n else 0) ->
    procs s' = <[p := set_p_tickets t' pr]> (procs s) /\
    total_tickets s' - tsum (procs s') =
      (if t' =? t + n then n else 0) - (if proc_is_runnable pr then t' - t else 0)) as Hend.
  { intros d s' E1 E2 <-. split; [done|]. rewrite E1, E2, (tsum_insert _ p pr) by done.
    unfold weight. rewrite Hp. unfold proc_is_runnable. cbn [p_rts_flags p_tickets set_p_tickets].
    fold t. destruct (p_rts_flags pr =? 0); lia. }
  assert (forall f d, total_tickets s + d = total_tickets s + n -> f = t + n -> t' = t + n ->
    wp (updp p (set_p_tickets f);; x ← gets total_tickets; y ← lift (iadd x n);
        modify (set_total_tickets y)) (fun _ s' =>
      procs s' = <[p := set_p_tickets t' pr]> (procs s) /\
      total_tickets s' - tsum (procs s') =
      (if t' =? t + n then n else 0) - (if proc_is_runnable pr then t' - t else 0)) s) as Hadd.
  { intros f d _ -> E. apply wp_bind. eapply wp_updp; [done|]. apply wp_bind, wp_gets, wp_bind.
    eapply wp_lift. { apply int_ok_in. simpl. unfold INT_MIN, INT_MAX. lia. }
    apply wp_modify. apply (Hend n); [simpl; by rewrite E | done | by rewrite E, Z.eqb_refl]. }
  unfold ProcessSetPriority. apply wp_bind. eapply wp_getp; [done|]. fold t.
  destruct (Z.ltb_spec 0 n); apply wp_bind;
    (eapply wp_lift; [apply int_ok_in; unfold INT_MIN, INT_MAX; lia|]).
  - destruct (Z.ltb_spec 20 (n + t)), (Z.eqb_spec t 20); simpl; try lia;
      try (eapply wp_updp; [done|]; apply (Hend 0); simpl;
           [replace t' with 20 by lia; done | lia | rewrite (proj2 (Z.eqb_neq _ _)); lia]).
    apply (Hadd _ n); lia.
  - destruct (Z.ltb_spec (t + n) 0), (Z.eqb_spec t 0); simpl; try lia;
      try (eapply wp_updp; [done|]; apply (Hend 0); simpl;
           [replace t' with 0 by lia; done | lia |
            destruct (Z.eqb_spec t' (t + n)); lia]).
    apply (Hadd _ n); lia.
Qed.
End properties.

(** ** Witnesses on the concrete kernel *)

#[local] Existing Instance demo_env.

Definition demo_proc (p : Z) : proc := default blank_proc (procs demo_kernel !! p).

Lemma demo_lookup p : bool_decide (is_Some (procs demo_kernel !! p)) = true ->
  procs demo_kernel !! p = Some (demo_proc p).
Proof. unfold demo_proc. rewrite bool_decide_eq_true. by intros [pr ->]. Qed.



(** The running process preempted: off its queue, tickets not counted. *)
Definition demo_preempted : kstate :=
  set_run_q_head (list_to_map [(4, 0); (7, 12)]) (set_total_tickets 13 demo_kernel).

Lemma unqueued_pre s Q Q' hd t p pr :
  sched_invQ s Q 0 -> procs s !! p = Some pr -> runnable pr ->
  t + p_tickets pr = tsum (procs s) ->
  (forall q, 0 <= q < NR_SCHED_QUEUES ->
     queue_wf (set_run_q_head hd (set_total_tickets t s)) q (Q' q)) ->
  (forall q x, x ∈ Q' q <-> x <> p /\ x ∈ Q q) ->
  enq_pre (set_run_q_head hd (set_total_tickets t s)) Q' p pr.
Proof.
  intros ([T1 T2 T3] & Htot & HQ & Hr) Hp Hrun Ht Hwf HQ'. split_and!; try done.
  - split; [exact T1 | | exact T3]. intros x prx Hx. destruct (T2 x prx Hx). by split.
  - split; [exact Hwf|]. intros q x [_ Hx]%HQ'. by apply (qs_prio _ _ HQ q x).
  - intros q x. rewrite HQ', (Hr q x). done.
Qed.

Lemma demo_preempted_pre :
  enq_pre demo_preempted (qof [(4, [0]); (7, [12])]) 11 (demo_proc 11).
Proof.
  apply (unqueued_pre demo_kernel (qof demo_queues)); [apply demo_inv | | | | |].
  - apply demo_lookup. vm_compute. reflexivity.
  - vm_compute. reflexivity.
  - vm_compute. reflexivity.
  - intros q Hq. fold demo_preempted. apply queue_okb_ok.
    assert (forallb (fun q => queue_okb demo_preempted q (qof [(4, [0]); (7, [12])] q)) (seqZ 0 16)
            = true) as Hall by (vm_compute; reflexivity).
    rewrite forallb_forall in Hall. apply Hall, list_elem_of_In, elem_of_seqZ.
    unfold NR_SCHED_QUEUES in Hq. lia.
  - intros q p. unfold demo_queues. simpl.
    destruct (Z.eqb_spec q 4); [set_solver by lia|]. destruct (Z.eqb_spec q 7); set_solver by lia.
Qed.

Lemma enqueue_head_front_witness :
  wp (enqueue_head 11) (fun _ s' => exists Q', sched_invQ s' Q' 0 /\ Q' 7 = [11; 12]) demo_preempted.
Proof.
  eapply wp_mono.
  - apply (enqueue_head_front demo_preempted (qof [(4, [0]); (7, [12])]) 11 (demo_proc 11)).
    + apply demo_preempted_pre.
    + vm_compute. discriminate.
  - intros [] s' (_ & Q' & Hi & HQ). exists Q'. split; [done|]. rewrite HQ. vm_compute. reflexivity.
Defined.

Lemma demo_style0 : sched_invQ (set_style 0 demo_kernel) (qof demo_queues) 0.
Proof. apply sched_check_ok. vm_compute. reflexivity. Qed.




Lemma pick_proc_lottery_uninit_witness : pick_proc RdyIndeterminate demo_kernel = Err Uninit.
Proof. apply (pick_proc_lottery_uninit demo_kernel); vm_compute; congruence. Defined.

(** Clamping the tickets of a ready process leaves the total behind. *)
Lemma ProcessSetPriority_total_witness :
  wp (ProcessSetPriority 12 15) (fun _ s' => total_tickets s' - tsum (procs s') = -12) demo_kernel.
Proof.
  eapply wp_mono.
  - apply (ProcessSetPriority_total demo_kernel (qof demo_queues) 12 (demo_proc 12) 15 demo_inv);
      [rewrite slots_range; lia | apply demo_lookup; vm_compute; reflexivity | lia].
  - intros [] s' [_ ->]. vm_compute. reflexivity.
Defined.

Lemma blank_procs p : is_Some (procs blank_kernel !! p) <-> p ∈ slots \/ p = IDLE_SLOT.
Proof.
  pose proof (lookup_list_to_map_is_Some blank_proc (IDLE_SLOT :: slots) p) as E.
  rewrite elem_of_cons in E. tauto.
Qed.

Lemma blank_privs i : is_Some (privs blank_kernel !! i) <-> i = IDLE_PRIV \/ i ∈ seqZ 0 NR_SYS_PROCS.
Proof.
  pose proof (lookup_list_to_map_is_Some blank_priv (IDLE_PRIV :: seqZ 0 NR_SYS_PROCS) i) as E.
  by rewrite elem_of_cons in E.
Qed.

Lemma blank_boot : boot_state blank_kernel.
Proof.
  split.
  - apply blank_procs.
  - intros i Hi. apply blank_privs. rewrite elem_of_seqZ. right. lia.
  - exists blank_proc, blank_priv. split_and!; vm_compute; reflexivity.
  - reflexivity.
  - reflexivity.
  - reflexivity.
Qed.

