(* ===== verification/KIpcProps.v ===== *)
(** * Properties of message passing

    The contract of [mini_send] on the invariants of scheduling and of message
    passing, notifications, the search of the pending bit maps, and what
    removing a process from a queue of callers leaves behind. *)

From S2P Require Import Prelude KTypes KSched KSchedFacts KIpc KIpcFacts KIpcSend KSenda KSys KDemo.
#[local] Open Scope Z_scope.

(** ** Deciding the invariant *)

(** [CL] gives the nonempty queues of callers and [rank] decreases along the
    wait-for graph. *)
Section ipc_check.
Context (s : kstate) (CL : list (Z * list Z)) (rank : Z -> Z).

Definition liveb (e : Z) : bool :=
  in_slots (_ENDPOINT_P e) &&
  match procs s !! _ENDPOINT_P e with
  | Some pr => (p_endpoint pr =? e) && negb (RTS_ISSET pr RTS_SLOT_FREE) && proc_ptr_ok pr
  | None => false
  end.

Fixpoint callersb (h : option Z) (l : list Z) : bool :=
  match l with
  | [] => bool_decide (h = None)
  | p :: l' =>
      bool_decide (h = Some p) &&
      match procs s !! p with Some pr => callersb (p_q_link pr) l' | None => false end
  end.

Definition ipc_okb (x : Z * proc) : bool :=
  let '(p, pr) := x in
  let b := P_BLOCKEDON pr in
  (negb (in_slots p) || (_ENDPOINT_P (p_endpoint pr) =? p)) &&
  ((b =? NONE) || (b =? ANY) || (liveb b && (rank (_ENDPOINT_P b) <? rank p))) &&
  (negb (i_waiting (iv pr)) || negb (i_deliver (iv pr))) &&
  (if RTS_ISSET pr RTS_SENDING then in_slots p && bool_decide (p ∈ qof CL (_ENDPOINT_P b))
   else bool_decide (p_q_link pr = None)).

Definition ipc_check : bool :=
  forallb ipc_okb (map_to_list (procs s)) &&
  forallb (fun d => bool_decide (NoDup (qof CL d)) &&
     match procs s !! d with Some pr => callersb (p_caller_q pr) (qof CL d) | None => true end) slots &&
  forallb (fun dl => forallb (fun p =>
     match procs s !! p with
     | Some pr => RTS_ISSET pr RTS_SENDING && (_ENDPOINT_P (P_BLOCKEDON pr) =? fst dl)
     | None => false
     end) (snd dl)) CL.

Lemma liveb_ok e : liveb e = true -> live (ivs s) e.
Proof using Type.
  unfold liveb, live. rewrite andb_true_iff. intros [H1%in_slots_ok H2]. split; [done|].
  rewrite ivs_lookup. destruct (procs s !! _ENDPOINT_P e) as [pr|]; [|done].
  rewrite !andb_true_iff, negb_true_iff, Z.eqb_eq in H2. destruct H2 as [[? ?] ?]. by exists (iv pr).
Qed.

Lemma callersb_ok h l : callersb h l = true -> callers (ivs s) h l.
Proof using Type.
  revert h. induction l as [|p l IH]; intros h; simpl; [by intros ?%bool_decide_eq_true|].
  rewrite andb_true_iff, bool_decide_eq_true. intros [-> Hp]. split; [done|].
  rewrite ivs_lookup. destruct (procs s !! p) as [pr|]; [|done]. exists (iv pr). auto.
Qed.

Lemma ipc_check_ok : ipc_check = true -> ipc_inv (ivs s) (qof CL).
Proof using Type.
  unfold ipc_check. rewrite !andb_true_iff, !forallb_forall. intros [[Hall Hq] HCL].
  assert (forall p v, ivs s !! p = Some v -> exists pr, procs s !! p = Some pr /\ v = iv pr /\
    ipc_okb (p, pr) = true) as Hv.
  { intros p v Hp. rewrite ivs_lookup in Hp. destruct (procs s !! p) as [pr|] eqn:E; [|done].
    injection Hp as <-. exists pr. split_and!; [done..|]. apply Hall, list_elem_of_In.
    by apply elem_of_map_to_list. }
  unfold ipc_okb in Hv.
  assert (forall p v, ivs s !! p = Some v -> i_blockedon v <> NONE -> i_blockedon v <> ANY ->
    live (ivs s) (i_blockedon v) /\ rank (_ENDPOINT_P (i_blockedon v)) < rank p) as Hb.
  { intros p v (pr & _ & -> & Hok)%Hv N1 N2. simpl in N1, N2.
    rewrite !andb_true_iff, !orb_true_iff, andb_true_iff, !Z.eqb_eq, Z.ltb_lt in Hok.
    destruct Hok as (((_ & [[?|?]|[Hl Hr]]) & _) & _); [done..|]. split; [|done]. by apply liveb_ok. }
  assert (forall a b, tc (edge (ivs s)) a b -> rank b < rank a) as Hrank.
  { induction 1 as [a b (v & Hav & N1 & N2 & <-)|a b c (v & Hav & N1 & N2 & <-) _ IH].
    - by apply (Hb a v).
    - destruct (Hb a v Hav N1 N2). lia. }
  split.
  - intros p v Hs (pr & _ & -> & Hok)%Hv. rewrite !andb_true_iff, orb_true_iff, negb_true_iff in Hok.
    destruct Hok as ((([Hn|He] & _) & _) & _).
    + apply in_slots_ok in Hs. congruence.
    + by apply Z.eqb_eq.
  - intros p v Hp N1 N2. by apply (Hb p v).
  - intros p Hp%Hrank. lia.
  - intros p v (pr & _ & -> & Hok)%Hv Hw. rewrite !andb_true_iff in Hok. destruct Hok as ((_ & Hok) & _).
    rewrite Hw in Hok. by apply negb_true_iff.
  - intros d v Hd Hp. specialize (Hq d (proj1 (list_elem_of_In _ _) Hd)).
    apply andb_true_iff in Hq as [Hnd Hc]. apply bool_decide_eq_true in Hnd. split; [|done].
    apply Hv in Hp as (pr & Hpr & -> & _). rewrite Hpr in Hc. by apply callersb_ok.
  - intros p d. split.
    + intros (l & Hl & Hp)%qof_elem. specialize (HCL (d, l) (proj1 (list_elem_of_In _ _) Hl)).
      simpl in HCL. rewrite forallb_forall in HCL. specialize (HCL p (proj1 (list_elem_of_In _ _) Hp)).
      rewrite ivs_lookup. destruct (procs s !! p) as [pr|]; [|done].
      apply andb_true_iff in HCL as [? ?%Z.eqb_eq]. by exists (iv pr).
    + intros (v & (pr & _ & -> & Hok)%Hv & Hs & <-). rewrite !andb_true_iff in Hok.
      destruct Hok as [_ Hok]. simpl in Hs. rewrite Hs in Hok. apply andb_true_iff in Hok as [_ Hok].
      by apply bool_decide_eq_true in Hok.
  - intros p v (pr & _ & -> & Hok)%Hv Hs. rewrite !andb_true_iff in Hok.
    destruct Hok as [_ Hok]. simpl in Hs. rewrite Hs in Hok. by apply bool_decide_eq_true in Hok.
  - intros p v (pr & _ & -> & Hok)%Hv Hs. rewrite !andb_true_iff in Hok.
    destruct Hok as [_ Hok]. simpl in Hs. rewrite Hs in Hok. apply andb_true_iff in Hok as [Hok _].
    by apply in_slots_ok.
Qed.
End ipc_check.

(** *** Two kernel states to instantiate the theorems on *)

Definition entry (s : kstate) (p : Z) : proc := default blank_proc (procs s !! p).

Lemma entry_lookup s p : bool_decide (is_Some (procs s !! p)) = true ->
  procs s !! p = Some (entry s p).
Proof. unfold entry. rewrite bool_decide_eq_true. by intros [pr ->]. Qed.

Definition alter_proc (p : Z) (f : proc -> proc) (s : kstate) : kstate :=
  set_procs (alter f p (procs s)) s.

Definition hello : message := mk_message 0 77 (PUser []).

(** Process 13 waits for anyone; a message is mapped at address 64. *)
Definition ipc_kernel : kstate :=
  set_umem {[ 64 := hello ]} (alter_proc 13 (set_p_getfrom_e ANY) demo_kernel).

Lemma ipc_kernel_sched : sched_invQ ipc_kernel (qof demo_queues) 0.
Proof. apply sched_check_ok. vm_compute. reflexivity. Qed.
Lemma ipc_kernel_ipc : ipc_inv (ivs ipc_kernel) (qof []).
Proof. apply (ipc_check_ok _ _ (fun _ => 0)). vm_compute. reflexivity. Qed.

(** Processes 14 and 15 wait, in this order, to send to process 13, and 13 waits
    for PM. *)
Definition blocked_kernel : kstate :=
  set_umem {[ 64 := hello ]}
    (alter_proc 13 (set_p_caller_q (Some 14))
    (alter_proc 14 (fun pr => set_p_sendto_e 13 (set_p_q_link (Some 15) pr))
    (alter_proc 15 (set_p_sendto_e 13)
    (occupy 14 15 RTS_SENDING 7 5 None (occupy 15 15 RTS_SENDING 7 5 None demo_kernel))))).
Definition blocked_callers : list (Z * list Z) := [(13, [14; 15])].

Lemma blocked_kernel_sched : sched_invQ blocked_kernel (qof demo_queues) 0.
Proof. apply sched_check_ok. vm_compute. reflexivity. Qed.
Lemma blocked_kernel_ipc : ipc_inv (ivs blocked_kernel) (qof blocked_callers).
Proof.
  apply (ipc_check_ok _ _ (fun p => if p =? 0 then 0 else if p =? 13 then 1 else 2)).
  vm_compute. reflexivity.
Qed.

(** ** Sending *)

(** C4 A send ends in one of six ways, and faults in none: it delivers the
    message to a waiting destination, joins the destination's queue of callers,
    or fails with the state unchanged because the destination is dead, the
    message is unreadable, the send may not block, or - exactly then - the
    destination waits for the sender already. Both the scheduling invariant and
    the invariant of message passing hold afterwards; the latter includes that
    no processes wait for each other in a cycle. *)
Theorem mini_send_contract `{KEnv} s Q C c e pr dpr mp flags :
  sched_invQ s Q 0 -> ipc_inv (ivs s) C ->
  c ∈ slots -> procs s !! c = Some pr ->
  RTS_ISSET pr RTS_SENDING = false -> RTS_ISSET pr RTS_RECEIVING = false ->
  live (ivs s) e -> procs s !! _ENDPOINT_P e = Some dpr -> _ENDPOINT_P e <> c ->
  ptr_matches mp flags ->
  wp (mini_send c e mp flags) (send_outcome s C c e pr dpr (fetched s mp) flags) s.
Proof.
  intros Hs Hi Hc Hpr Hsnd Hrcv Hl Hd Hne Hptr. by apply (mini_send_ok s Q C).
Qed.

(** ** Notifications *)

Section notify.
Context `{KEnv}.

Lemma wp_get_monotonic (Q : Z -> kstate -> Prop) s :
  Q (get_monotonic_n (mono_reads s)) (set_mono_reads (S (mono_reads s)) s) -> wp get_monotonic Q s.
Proof using Type. intros HQ. unfold get_monotonic. wp_steps. done. Qed.

(** The contents of a notification from [src], and what reading them resets. *)
Definition notify_body (src : Z) (pv : priv) (t : Z) : payload :=
  if src =? HARDWARE then PNotify t (s_int_pending pv) 0
  else if src =? SYSTEM then PNotify t 0 (s_sig_pending pv) else PNotify t 0 0.
Definition notify_ack (src : Z) (pv : priv) : priv :=
  if src =? HARDWARE then set_s_int_pending 0 pv
  else if src =? SYSTEM then set_s_sig_pending 0 pv else pv.

Lemma wp_build src d dpr j pvd (Q : message -> kstate -> Prop) s :
  procs s !! d = Some dpr -> p_priv dpr = Some j -> privs s !! j = Some pvd ->
  Q (mk_message 0 NOTIFY_MESSAGE (notify_body src pvd (get_monotonic_n (mono_reads s))))
    (set_privs (<[j := notify_ack src pvd]> (privs s)) (set_mono_reads (S (mono_reads s)) s)) ->
  wp (BuildNotifyMessage src d) Q s.
Proof using Type.
  intros Hd Hj Hpv HQ. unfold BuildNotifyMessage, notify_body, notify_ack in *.
  apply wp_bind, wp_get_monotonic. destruct (src =? HARDWARE); [|destruct (src =? SYSTEM)].
  1,2: apply wp_bind; eapply wp_getpriv; [done..|]; apply wp_bind;
    (eapply wp_updpriv; [done..|]); by apply wp_ret.
  apply wp_ret. rewrite insert_id in HQ by done. by destruct s.
Qed.

(** Privileges matter to scheduling by the stack guards only. *)
Lemma sched_invQ_privs s Q k i pv pv' :
  privs s !! i = Some pv -> s_stack_guard pv' = s_stack_guard pv ->
  sched_invQ s Q k -> sched_invQ (set_privs (<[i := pv']> (privs s)) s) Q k.
Proof using Type.
  intros Hi Hg ([T1 T2 T3] & Htot & [Q1 Q2] & Hr).
  assert (forall p pr, has_priv s p pr -> has_priv (set_privs (<[i := pv']> (privs s)) s) p pr) as Hpv.
  { intros p pr (j & w & Ej & Ew & Hk). exists j. simpl. destruct (decide (i = j)) as [<-|].
    - exists pv'. rewrite lookup_insert_eq. split_and!; [done..|]. intros K. rewrite Hg.
      rewrite <- (Hk K). congruence.
    - exists w. by rewrite lookup_insert_ne. }
  split_and!; [|done| |done].
  - split; [done| |naive_solver]. intros p pr Hp. destruct (T2 p pr Hp). split; auto.
  - by split.
Qed.

(** A live endpoint, as [isokendpt] tests it. *)
Definition ep_ok (s : kstate) (e : Z) : bool :=
  isokprocn (_ENDPOINT_P e) &&
  match procs s !! _ENDPOINT_P e with
  | Some pr => negb (isemptyp pr) && (p_endpoint pr =? e)
  | None => false
  end.

(** The three ways a notification ends; [pv] is the caller's privilege
    structure, [j] and [pvd] the destination's. *)
Inductive notify_outcome (s : kstate) (C : Z -> list Z) (e : Z) (pr : proc) (pv : priv) :
    ecode -> kstate -> Prop :=
| no_dead : ep_ok s e = false -> notify_outcome s C e pr pv EDEADSRCDST s
| no_delivered s' dpr dpr' j pvd :
    ep_ok s e = true -> procs s !! _ENDPOINT_P e = Some dpr ->
    p_priv dpr = Some j -> privs s !! j = Some pvd ->
    WILLRECEIVE dpr (p_endpoint pr) = true -> anyset (p_misc_flags dpr) MF_REPLY_PEND = false ->
    procs s' !! _ENDPOINT_P e = Some dpr' ->
    p_delivermsg dpr' = mk_message (p_endpoint pr) NOTIFY_MESSAGE
      (notify_body (p_nr pr) pvd (get_monotonic_n (mono_reads s))) ->
    anyset (p_misc_flags dpr') MF_DELIVERMSG = true -> RTS_ISSET dpr' RTS_RECEIVING = false ->
    privs s' = <[j := notify_ack (p_nr pr) pvd]> (privs s) ->
    ivs s' = <[_ENDPOINT_P e := iv dpr']> (ivs s) -> sched_inv s' -> ipc_inv (ivs s') C ->
    notify_outcome s C e pr pv OK s'
| no_pending dpr j pvd :
    ep_ok s e = true -> procs s !! _ENDPOINT_P e = Some dpr ->
    p_priv dpr = Some j -> privs s !! j = Some pvd ->
    WILLRECEIVE dpr (p_endpoint pr) && negb (anyset (p_misc_flags dpr) MF_REPLY_PEND) = false ->
    notify_outcome s C e pr pv OK
      (set_privs (<[j := set_s_notify_pending
                           (set_sys_bit (s_notify_pending pvd) (s_id pv)) pvd]> (privs s)) s).

Lemma wp_isokendpt s e (Q : bool * Z -> kstate -> Prop) :
  (isokprocn (_ENDPOINT_P e) = true -> is_Some (procs s !! _ENDPOINT_P e)) ->
  Q (ep_ok s e, _ENDPOINT_P e) s -> wp (isokendpt e) Q s.
Proof using Type.
  intros Hs HQ. unfold isokendpt, isokendpt_f, ep_ok in *.
  destruct (isokprocn (_ENDPOINT_P e)); apply wp_bind.
  - destruct (Hs eq_refl) as [pr Hp]. rewrite Hp in HQ. apply wp_bind. eapply wp_getp; [done|].
    apply wp_ret. rewrite andb_false_r. by apply wp_ret.
  - apply wp_ret. by apply wp_ret.
Qed.

Lemma wp_isokendpt_table s Q k e (P : bool * Z -> kstate -> Prop) :
  sched_invQ s Q k -> P (ep_ok s e, _ENDPOINT_P e) s -> wp (isokendpt e) P s.
Proof using Type.
  intros (Ht & _) HP. apply wp_isokendpt; [|done]. intros Hs%isokprocn_slots. by apply Ht.
Qed.

Lemma mini_notify_ok s Q C c e pr i pv :
  sched_invQ s Q 0 -> ipc_inv (ivs s) C ->
  procs s !! c = Some pr -> p_priv pr = Some i -> privs s !! i = Some pv ->
  (ep_ok s e = true -> live (ivs s) e) ->
  wp (mini_notify c e) (notify_outcome s C e pr pv) s.
Proof using Type.
  intros Hs Hi Hc Ei Epv Hlive. unfold mini_notify. apply wp_bind.
  eapply wp_isokendpt_table; [done|]. destruct (ep_ok s e) eqn:Hok; [|by apply wp_ret; constructor].
  specialize (Hlive eq_refl). cbn [negb].
  destruct (live_proc s e Hlive) as (dpr & Hd & Hfree & Hee & _).
  destruct (dst_priv s Q C Hs Hi e dpr Hd Hlive) as (j & pvd & Ej & Epvd & _).
  apply wp_bind. eapply wp_getp; [done|]. apply wp_bind. eapply wp_getp; [done|].
  destruct (WILLRECEIVE dpr (p_endpoint pr) && negb (anyset (p_misc_flags dpr) MF_REPLY_PEND)) eqn:Hw.
  2:{ apply wp_bind. eapply wp_getpriv; [done..|]. apply wp_bind. eapply wp_updpriv; [done..|].
      apply wp_ret. eapply no_pending; done. }
  apply andb_true_iff in Hw as [Hw Hrp%negb_true_iff].
  destruct (WILLRECEIVE_true _ _ Hw) as [Hrec Hns].
  apply wp_bind, wp_assert.
  { apply negb_true_iff. apply (ii_deliver _ _ Hi (_ENDPOINT_P e) (iv dpr)); [by rewrite ivs_lookup, Hd|].
    simpl. by rewrite Hrec, Hns. }
  apply wp_bind. eapply wp_build; [done..|].
  set (s1 := set_privs _ _).
  assert (sched_invQ s1 Q 0) as Hs1.
  { apply (sched_invQ_privs (set_mono_reads (S (mono_reads s)) s) Q 0 j pvd); [done| |].
    - unfold notify_ack. destruct (p_nr pr =? HARDWARE); [done|]. by destruct (p_nr pr =? SYSTEM).
    - by eapply sched_invQ_fields; [..|exact Hs]. }
  apply wp_bind. eapply (wp_updp_first _ _ dpr); [done|].
  apply wp_bind, wp_updp_again, wp_bind, wp_updp_again, wp_bind.
  apply (release_ok s1 Q C Hs1 Hi e pr dpr Hd Hlive); [done| | |].
  - match goal with |- context[ipc_status_add ?x ?y] => exact (sched_key_status x y) end.
  - match goal with |- context[ipc_status_add ?x ?y] => exact (ipc_key_status x y) end.
  - intros s' dpr' Hd' Edm Emf Hr' Epr Hivs Hsi Hii. apply wp_ret.
    cbn [p_delivermsg p_misc_flags set_p_misc_flags] in Edm, Emf.
    rewrite delivermsg_status in Edm. rewrite misc_status in Emf.
    apply (no_delivered s C e pr pv s' dpr dpr' j pvd); try done.
    rewrite Emf, (anyset_isset _ _ 6) by done. apply isset_setf.
Qed.
End notify.

(** C35 A notification to a dead endpoint fails; to a process that waits for it,
    it is delivered at once, with the pending interrupts or signals it reports
    acknowledged; otherwise one pending bit, that of the caller, is set at the
    destination. It never blocks the caller, and both invariants are kept. *)
Theorem mini_notify_contract `{KEnv} s Q C c e pr i pv :
  sched_invQ s Q 0 -> ipc_inv (ivs s) C ->
  procs s !! c = Some pr -> p_priv pr = Some i -> privs s !! i = Some pv ->
  (ep_ok s e = true -> live (ivs s) e) ->
  wp (mini_notify c e) (notify_outcome s C e pr pv) s.
Proof. apply mini_notify_ok. Qed.

(** ** Pending bit maps *)

Lemma search_bits_ok map (fuel : nat) i n :
  i <= n < i + Z.of_nat fuel -> Z.testbit map n = true ->
  exists r, search_bits fuel map i = Ok r /\ i <= r < i + Z.of_nat fuel /\
    Z.testbit map r = true /\ forall j, i <= j < r -> Z.testbit map j = false.
Proof.
  revert i. induction fuel as [|fuel IH]; intros i Hn Hb; [lia|]. simpl. unfold get_sys_bit.
  destruct (Z.testbit map i) eqn:E.
  - exists i. split_and!; [done|lia..|done|]. intros j Hj. lia.
  - destruct (IH (i + 1)) as (r & H1 & H2 & H3 & H4); [|done|].
    { assert (n <> i) by (intros ->; congruence). lia. }
    exists r. split_and!; [done|lia..|done|]. intros j Hj.
    destruct (decide (j = i)) as [->|]; [done|]. apply H4. lia.
Qed.

Lemma get_sys_bits_spec map k n :
  0 <= k -> 0 <= n ->
  Z.testbit (get_sys_bits map (32 * k)) n = Z.testbit map (32 * k + n) && (n <? 32).
Proof.
  intros Hk Hn. unfold get_sys_bits, BITCHUNK_BITS.
  replace (32 * k / 32 * 32) with (32 * k) by (rewrite (Z.mul_comm 32 k), Z.div_mul; lia).
  rewrite Z.land_spec, Z.shiftr_spec by done. rewrite (Z.add_comm n). f_equal.
  destruct (Z.ltb_spec n 32); [rewrite Z.ones_spec_low by lia|rewrite Z.ones_spec_high by lia]; done.
Qed.

Lemma get_sys_bits_zero map k :
  0 <= k -> get_sys_bits map (32 * k) = 0 <->
  forall n, 32 * k <= n < 32 * k + 32 -> Z.testbit map n = false.
Proof.
  intros Hk. split.
  - intros E n Hn. pose proof (get_sys_bits_spec map k (n - 32 * k) Hk ltac:(lia)) as Hs.
    rewrite E, Z.bits_0 in Hs. replace (32 * k + (n - 32 * k)) with n in Hs by lia.
    rewrite (proj2 (Z.ltb_lt _ _)) in Hs by lia. by rewrite andb_true_r in Hs.
  - intros Hb. apply Z.bits_inj'. intros n Hn. rewrite get_sys_bits_spec, Z.bits_0 by done.
    destruct (Z.ltb_spec n 32); [|by rewrite andb_false_r]. by rewrite Hb by lia.
Qed.

Lemma chunk_witness map k :
  0 <= k -> get_sys_bits map (32 * k) <> 0 ->
  exists n, 32 * k <= n < 32 * k + 32 /\ Z.testbit map n = true.
Proof.
  intros Hk Hne. destruct (Exists_dec (fun n => Z.testbit map n = true) (seqZ (32 * k) 32)) as [He|He].
  - apply Exists_exists in He as (n & Hn & Hb). exists n. rewrite elem_of_seqZ in Hn. done.
  - exfalso. apply Hne. apply get_sys_bits_zero; [done|]. intros n Hn.
    apply not_true_is_false. intros Hb. apply He, Exists_exists. exists n.
    rewrite elem_of_seqZ. split; [lia|done].
Qed.

(** The result of a search of the whole map: the lowest bit, or none. *)
Definition lowest_bit (map r : Z) : Prop :=
  (r = NULL_PRIV_ID /\ forall j, 0 <= j < NR_SYS_PROCS -> Z.testbit map j = false) \/
  (0 <= r < NR_SYS_PROCS /\ Z.testbit map r = true /\ forall j, 0 <= j < r -> Z.testbit map j = false).

Lemma search_chunks_ok map n k :
  0 <= k -> NR_SYS_PROCS <= 32 * (k + Z.of_nat n) -> 32 * k <= NR_SYS_PROCS ->
  (forall j, 0 <= j < 32 * k -> Z.testbit map j = false) ->
  exists r, search_chunks (S n) map (32 * k) = Ok r /\
    lowest_bit map (if r <? NR_SYS_PROCS then r else NULL_PRIV_ID).
Proof.
  unfold NR_SYS_PROCS. revert k. induction n as [|n IH]; intros k Hk Hn Hk2 Hz.
  - exists 64. assert (k = 2) as -> by lia. split; [done|]. left. done.
  - cbn [search_chunks]. unfold NR_SYS_PROCS.
    destruct (Z.ltb_spec (32 * k) 64) as [Hlt|].
    2:{ exists 64. assert (k = 2) as -> by lia. split; [done|]. left. done. }
    destruct (Z.eqb_spec (get_sys_bits map (32 * k)) 0) as [E|E]; cbn [negb].
    + destruct (IH (k + 1)) as (r & H1 & H2); [lia..| |].
      { intros j Hj. destruct (decide (j < 32 * k)); [apply Hz; lia|].
        apply (proj1 (get_sys_bits_zero map k Hk) E). lia. }
      exists r. split; [|done]. cbn [search_chunks] in H1 |- *. unfold BITCHUNK_BITS.
      by replace (32 * k + 32) with (32 * (k + 1)) by lia.
    + destruct (chunk_witness map k Hk E) as (m & Hm & Hb).
      destruct (search_bits_ok map 32 (32 * k) m) as (r & H1 & H2 & H3 & H4); [lia|done|].
      exists r. split; [done|]. right. unfold NR_SYS_PROCS. rewrite (proj2 (Z.ltb_lt r 64)) by lia.
      split_and!; [lia..|done|]. intros j Hj. destruct (decide (j < 32 * k)); [apply Hz|apply H4]; lia.
Qed.

(** The search of a pending map for any source, chunk by chunk and then bit
    by bit, returns the lowest privilege id that is pending, and NULL_PRIV_ID
    exactly when none of the NR_SYS_PROCS ids is. *)
Theorem has_pending_lowest map :
  forall s : kstate, exists r, has_pending map ANY s = Ok (r, s) /\ lowest_bit map r.
Proof.
  intros s. destruct (search_chunks_ok map 2 0) as (r & H1 & H2);
    [lia|done|done|intros j Hj; lia|].
  unfold has_pending. cbn [negb]. rewrite Z.eqb_refl. cbn [negb].
  change (32 * 0) with 0 in H1. unfold mbind, M_bind, lift. rewrite H1. eauto.
Qed.

(** ** A process taken off the head of a queue keeps its link *)

(** Sending again with a link left over fails the assertion. *)
Lemma send_block_stale `{KEnv} s Q c d e mp m flags pr :
  sched_invQ s Q 0 -> procs s !! c = Some pr -> p_q_link pr <> None ->
  ptr_matches mp flags -> fetched s mp = Some m ->
  send_block c d e mp flags s = Err AssertFail.
Proof.
  intros Hs Hc Hl Hptr Hm. unfold send_block. apply err_bind, wp_fetch; [done|]. rewrite Hm.
  apply err_bind. eapply wp_updp_first; [done|]. apply err_bind.
  apply wp_mono with (P := fun _ s' => exists cF, s' = upd1 s c cF /\ sched_key cF = sched_key pr /\
     p_q_link cF = p_q_link pr).
  { apply wp_when; intros _; [apply wp_updp_again|]; eexists; done. }
  intros [] ? (cF & -> & Ek & El).
  assert (sched_invQ (upd1 s c cF) Q 0) as Hs1 by by apply (sched_invQ_upd1 _ _ _ _ pr).
  apply err_bind. eapply wp_mono; [eapply (RTS_SET_ok _ Q 0 c cF); [done|lia|apply upd1_lookup]|].
  intros [] s2 (V & _ & _).
  destruct (view_lookup _ s2 c (set_p_rts_flags (setf (p_rts_flags cF) RTS_SENDING) cF) V) as (cH & HcH & Ee);
    [apply lookup_insert_eq|].
  apply err_bind. eapply wp_updp_first; [done|].
  apply err_bind. eapply wp_getp; [apply upd1_lookup|].
  unfold mbind at 1, M_bind at 1, c_assert. rewrite bool_decide_eq_false_2; [done|].
  pose proof (f_equal p_q_link Ee) as F. simpl in *. congruence.
Qed.

(** The head of a queue of callers is blocked on the owner of the queue, and linked to the next caller. *)
Lemma caller_head s Q C c d x l pr :
  sched_invQ s Q 0 -> ipc_inv (ivs s) C -> d ∈ slots -> C d = c :: x :: l -> procs s !! c = Some pr ->
  c ∈ slots /\ RTS_ISSET pr RTS_SENDING = true /\ _ENDPOINT_P (p_sendto_e pr) = d /\ live (ivs s) (p_sendto_e pr) /\
  p_q_link pr = Some x /\ d <> c /\
  exists dpr, procs s !! d = Some dpr /\ callers (ivs s) (p_caller_q dpr) (c :: x :: l).
Proof.
  intros Hs Hi Hdsl HC Hc.
  assert (c ∈ C d) as Hin by (rewrite HC; left).
  apply (ii_sending _ _ Hi) in Hin as (v & Hv & Hsnd & Ed).
  rewrite ivs_lookup, Hc in Hv. injection Hv as <-. simpl in Hsnd, Ed.
  assert (c ∈ slots) as Hcs.
  { apply (ii_range _ _ Hi c (iv pr)); [by rewrite ivs_lookup, Hc|done]. }
  assert (P_BLOCKEDON pr = p_sendto_e pr) as Eb.
  { unfold P_BLOCKEDON. by rewrite sending_anyset, Hsnd. }
  rewrite Eb in Ed.
  assert (ivs s !! c = Some (iv pr)) as Hvc by by rewrite ivs_lookup, Hc.
  destruct (slot_endpoint (p_sendto_e pr)) as [N1 N2]; [by rewrite Ed|].
  assert (live (ivs s) (p_sendto_e pr)) as Hlive.
  { rewrite <- Eb. apply (ii_live _ _ Hi c (iv pr)); [done| |]; simpl; by rewrite Eb. }
  destruct (live_proc s _ Hlive) as (dpr & Hd & _). rewrite Ed in Hd.
  assert (d <> c) as Hne.
  { intros ->. apply (ii_acyclic _ _ Hi c), tc_once. exists (iv pr). simpl. by rewrite Eb. }
  destruct (ii_callers _ _ Hi d (iv dpr) Hdsl) as [Hcl _]; [by rewrite ivs_lookup, Hd|].
  rewrite HC in Hcl. pose proof Hcl as (_ & v & Hv & Hcl2).
  assert (v = iv pr) as -> by congruence. destruct Hcl2 as [Hlink _]. simpl in Hlink.
  split_and!; [done..|]. by exists dpr.
Qed.

(** [clear_ipc] of a process at the head of a queue of callers, with another
    process [x] behind it, leaves the process's own link pointing to [x]: the
    next time it has to block in a send, the assertion [p_q_link == NULL] of
    [mini_send] fails. *)
Theorem clear_ipc_stale_link `{KEnv} s Q C c d x l pr d2 e2 mp m flags :
  sched_invQ s Q 0 -> ipc_inv (ivs s) C -> d ∈ slots -> C d = c :: x :: l ->
  procs s !! c = Some pr -> RTS_ISSET pr RTS_SLOT_FREE = false ->
  ptr_matches mp flags -> fetched s mp = Some m ->
  wp (clear_ipc c) (fun _ s' =>
    (exists pr', procs s' !! c = Some pr' /\ RTS_ISSET pr' RTS_SENDING = false /\
       p_q_link pr' = Some x) /\
    send_block c d2 e2 mp flags s' = Err AssertFail) s.
Proof.
  intros Hs Hi Hdsl HC Hc Hfree Hptr Hm.
  destruct (caller_head s Q C c d x l pr) as (Hcs & Hsnd & Ed & Hlive & Hlink & Hne & dpr & Hd & Hcl); [done..|].
  unfold clear_ipc. apply wp_bind. eapply wp_getp; [done|]. rewrite Hsnd.
  apply wp_bind. unfold when. apply wp_bind, wp_okendpt; [done|]. rewrite Ed.
  apply wp_bind. change queue_fuel with (S 262). cbn [unlink_caller].
  apply wp_bind. apply (wp_read_qpp s d dpr [] (c :: x :: l)); [done..|]. cbn [head].
  rewrite Z.eqb_refl. apply wp_bind. eapply wp_getp; [done|].
  eapply wp_updp_first; [done|]. rewrite Hlink.
  set (s1 := upd1 s d _).
  assert (sched_invQ s1 Q 0) as Hs1 by by apply (sched_invQ_upd1 _ _ _ _ dpr).
  assert (has_priv s1 c pr) as Hpv.
  { destruct Hs as (Ht & _). by apply (po_priv _ _ _ (to_proc _ Ht _ _ Hc)). }
  eapply wp_mono.
  { apply (RTS_UNSET_ok s1 Q c pr RTS_SENDING); [done..| |done]. unfold s1, upd1. simpl.
    by rewrite lookup_insert_ne. }
  intros [] s2 (V2 & Q2 & Hs2 & _).
  destruct (view_lookup _ s2 c (set_p_rts_flags (clearf (p_rts_flags pr) RTS_SENDING) pr) V2)
    as (p2 & Hp2 & Ee2); [apply lookup_insert_eq|].
  eapply wp_mono.
  { apply (RTS_UNSET_ok s2 Q2 c p2 RTS_RECEIVING); [done..|].
    eapply has_priv_ev; [|exact Ee2|exact Hpv]. by apply view_privs in V2. }
  intros [] s3 (V3 & Q3 & Hs3 & _).
  destruct (view_lookup _ s3 c (set_p_rts_flags (clearf (p_rts_flags p2) RTS_RECEIVING) p2) V3)
    as (p3 & Hp3 & Ee3); [apply lookup_insert_eq|].
  assert (p_q_link p3 = Some x) as Hl3.
  { pose proof (f_equal p_q_link Ee2) as F2. pose proof (f_equal p_q_link Ee3) as F3.
    simpl in F2, F3. congruence. }
  split.
  - exists p3. split_and!; [done| |done]. rewrite (isset_ev _ _ _ Ee3) by done.
    unfold RTS_ISSET. simpl. rewrite isset_clearf_disjoint by done.
    change (RTS_ISSET p2 RTS_SENDING = false). rewrite (isset_ev _ _ _ Ee2) by done.
    by apply isset_clearf.
  - eapply (send_block_stale s3 Q3); [done..|by rewrite Hl3|done|].
    assert (umem s3 = umem s) as Eu.
    { pose proof (f_equal umem V2) as U2. pose proof (f_equal umem V3) as U3. simpl in U2, U3.
      congruence. }
    unfold fetched in *. destruct mp; [by rewrite Eu|done].
Qed.

(** ** Instances *)

#[local] Existing Instance demo_env.

(** Process 11 sends the message at 64 to the waiting process 13. *)
Lemma mini_send_contract_witness :
  wp (mini_send 11 13 (UserMsg 64) 0)
     (send_outcome ipc_kernel (qof []) 11 13 (entry ipc_kernel 11) (entry ipc_kernel 13)
        (fetched ipc_kernel (UserMsg 64)) 0) ipc_kernel.
Proof.
  apply (mini_send_contract ipc_kernel (qof demo_queues)).
  - exact ipc_kernel_sched.
  - exact ipc_kernel_ipc.
  - by apply slot_range.
  - apply entry_lookup. vm_compute. reflexivity.
  - vm_compute. reflexivity.
  - vm_compute. reflexivity.
  - apply liveb_ok. vm_compute. reflexivity.
  - apply (entry_lookup ipc_kernel 13). vm_compute. reflexivity.
  - vm_compute. congruence.
  - vm_compute. reflexivity.
Defined.

(** Process 11 notifies process 13. *)
Lemma mini_notify_contract_witness :
  exists pv, privs ipc_kernel !! 15 = Some pv /\
  wp (mini_notify 11 13) (notify_outcome ipc_kernel (qof []) 13 (entry ipc_kernel 11) pv) ipc_kernel.
Proof.
  assert (bool_decide (is_Some (privs ipc_kernel !! 15)) = true) as [pv Hpv]%bool_decide_eq_true
    by (vm_compute; reflexivity).
  exists pv. split; [exact Hpv|].
  apply (mini_notify_contract ipc_kernel (qof demo_queues) (qof []) 11 13 (entry ipc_kernel 11) 15 pv).
  - exact ipc_kernel_sched.
  - exact ipc_kernel_ipc.
  - apply entry_lookup. vm_compute. reflexivity.
  - vm_compute. reflexivity.
  - exact Hpv.
  - intros _. apply liveb_ok. vm_compute. reflexivity.
Defined.

(** The first of the two senders waiting for process 13 is taken off the queue. *)
Lemma clear_ipc_stale_link_witness :
  wp (clear_ipc 14) (fun _ s' =>
    (exists pr', procs s' !! 14 = Some pr' /\ RTS_ISSET pr' RTS_SENDING = false /\
       p_q_link pr' = Some 15) /\
    send_block 14 12 12 (UserMsg 64) 0 s' = Err AssertFail) blocked_kernel.
Proof.
  apply (clear_ipc_stale_link blocked_kernel (qof demo_queues) (qof blocked_callers) 14 13 15 []
           (entry blocked_kernel 14) 12 12 (UserMsg 64) hello 0).
  - exact blocked_kernel_sched.
  - exact blocked_kernel_ipc.
  - by apply slot_range.
  - reflexivity.
  - apply entry_lookup. vm_compute. reflexivity.
  - vm_compute. reflexivity.
  - reflexivity.
  - reflexivity.
Defined.
