(* ===== verification/KIpcRecv.v ===== *)
(** * The contract of mini_receive

    What a receive does: it delivers a pending notification, or else the message
    of the first suitable process in the queue of callers, which it unblocks and
    takes off the queue; or it blocks the caller, unless that may not block or
    would close a cycle of waiting processes. *)

From S2P Require Import Prelude KTypes KSched KSchedFacts KIpc KSenda KCall KIpcFacts KIpcSend KDemo KIpcProps.
From stdpp Require Import relations.
#[local] Open Scope Z_scope.

(** ** On the abstract view *)

(** The wait of one process that does not send changes. *)
Lemma ipc_inv_rewait m C p v v' :
  ipc_inv m C -> m !! p = Some v -> i_sending v = false -> i_sending v' = false ->
  i_endpoint v' = i_endpoint v -> i_free v' = i_free v -> i_magic v' = i_magic v ->
  i_link v' = i_link v -> i_callq v' = i_callq v ->
  (i_waiting v' = true -> i_deliver v' = false) ->
  (i_blockedon v' <> NONE -> i_blockedon v' <> ANY ->
     live m (i_blockedon v') /\ ~ rtc (edge m) (_ENDPOINT_P (i_blockedon v')) p) ->
  ipc_inv (<[p := v']> m) C.
Proof.
  intros Hinv Hp Hs Hs' E1 E2 E3 El Ec Hw Hb.
  pose proof Hinv as [H1 H2 H3 H4 H5 H6 H7 H8].
  assert (forall x w, <[p := v']> m !! x = Some w -> x = p /\ w = v' \/ x <> p /\ m !! x = Some w) as Hx.
  { intros x w. destruct (decide (x = p)) as [->|Hne].
    - rewrite lookup_insert_eq. intros [= <-]. by left.
    - rewrite lookup_insert_ne by done. by right. }
  split.
  - intros x w Hsl [[-> ->]|[_ Hw']]%Hx; [rewrite E1|]; by apply H1.
  - intros x w [[-> ->]|[_ Hw']]%Hx N A; (eapply live_update; [done..|]); [by apply Hb|by eapply H2].
  - destruct (Z.eq_dec (i_blockedon v') NONE) as [EN|NN].
    { eapply acyclic_update; eauto. }
    destruct (Z.eq_dec (i_blockedon v') ANY) as [EA|NA].
    { intros x Hcyc. apply (H3 x). eapply tc_mono; [|exact Hcyc].
      intros a b (w & [[-> ->]|[_ Hw']]%Hx & N & A & E); [done|]. by exists w. }
    eapply acyclic_block; [done|done|]. by apply Hb.
  - intros x w [[-> ->]|[_ Hw']]%Hx; [exact Hw|by apply (H4 x)].
  - intros d w Hd Hdw. assert (exists w0, m !! d = Some w0 /\ i_callq w = i_callq w0) as (w0 & Hw0 & ->).
    { apply Hx in Hdw as [[-> ->]|[_ Hdw]]; eauto. }
    destruct (H5 d w0 Hd Hw0) as [Hc Hnd]. split; [|done].
    eapply callers_frame; [|exact Hc]. intros x u _ Hu. destruct (decide (x = p)) as [->|].
    + exists v'. rewrite lookup_insert_eq. split; [done|congruence].
    + exists u. by rewrite lookup_insert_ne.
  - intros x d. rewrite H6. split; intros (w & Hw' & Hws & Hwd).
    + exists w. rewrite lookup_insert_ne by (intros ->; congruence). done.
    + apply Hx in Hw' as [[-> ->]|[_ Hw']]; [congruence|]. eauto.
  - intros x w [[-> ->]|[_ Hw']]%Hx Hns; [rewrite El; by apply (H7 p v)|by apply (H7 x w)].
  - intros x w [[-> ->]|[_ Hw']]%Hx Hns; [congruence|by apply (H8 x w)].
Qed.

(** The pointer to the process after [pre] in the queue of [c] is set. *)
Definition set_after (m : gmap Z ipcv) (c : Z) (pre : list Z) (o : option Z) : gmap Z ipcv :=
  match last pre with
  | Some y => alter (iset_link o) y m
  | None => alter (iset_callq o) c m
  end.

Lemma set_after_core m c pre o : same_core m (set_after m c pre o).
Proof.
  intros x. unfold set_after. destruct (last pre) as [y|].
  - destruct (decide (y = x)) as [->|]; [|by rewrite lookup_alter_ne].
    rewrite lookup_alter_eq. by destruct (m !! x).
  - destruct (decide (c = x)) as [->|]; [|by rewrite lookup_alter_ne].
    rewrite lookup_alter_eq. by destruct (m !! x).
Qed.

Lemma set_after_link m c pre o x v :
  m !! x = Some v -> x ∉ pre ->
  exists v', set_after m c pre o !! x = Some v' /\ i_link v' = i_link v.
Proof.
  intros Hv Hx. unfold set_after. destruct (last pre) as [y|] eqn:El.
  - exists v. rewrite lookup_alter_ne; [done|]. intros ->. apply Hx. by apply last_elem.
  - destruct (decide (c = x)) as [->|].
    + exists (iset_callq o v). by rewrite lookup_alter_eq, Hv.
    + exists v. by rewrite lookup_alter_ne.
Qed.

(** Cutting a process out of a queue. *)
Lemma callers_cut m h pre x post c vx :
  callers m h (pre ++ x :: post) -> NoDup (pre ++ x :: post) -> m !! x = Some vx -> c ∉ pre ++ x :: post ->
  callers (set_after m c pre (i_link vx)) (match pre with [] => i_link vx | _ => h end) (pre ++ post).
Proof.
  intros Hc Hnd Hx Hcn.
  assert (forall l h, callers m h l -> (forall y, y ∈ l -> y ∉ pre) ->
    callers (set_after m c pre (i_link vx)) h l) as Hrest.
  { intros l h0 Hl Hd. eapply callers_frame; [|exact Hl]. intros y v Hy Hv.
    apply set_after_link; [done|by apply Hd]. }
  destruct pre as [|y0 pre0] eqn:Epre.
  { simpl in Hc. destruct Hc as (_ & v & Hv & Hpost). assert (v = vx) as -> by congruence.
    apply Hrest; [done|]. intros y _. apply not_elem_of_nil. }
  rewrite <- Epre in *. assert (pre <> []) as Hne by (by rewrite Epre). clear Epre y0 pre0.
  assert (Hlast := last_is_Some pre). destruct (last pre) as [z|] eqn:Ez; [|by apply last_None in Ez].
  apply last_Some in Ez as (pre' & ->). clear Hlast Hne. rewrite <- app_assoc in *. simpl in *.
  unfold set_after. rewrite last_snoc. clear Hrest. revert h Hc.
  induction pre' as [|y pre' IH]; intros h Hc; simpl in *.
  - destruct Hc as (-> & v & Hv & _ & w & Hw & Hpost). assert (w = vx) as -> by congruence.
    split; [done|]. exists (iset_link (i_link vx) v). rewrite lookup_alter_eq, Hv. split; [done|]. simpl.
    eapply callers_frame; [|exact Hpost]. intros u wu Hu Hwu. exists wu. rewrite lookup_alter_ne; [done|].
    intros ->. apply NoDup_cons in Hnd as [Hz _]. apply Hz. by right.
  - destruct Hc as (-> & v & Hv & Hc). apply NoDup_cons in Hnd as [Hy Hnd].
    apply not_elem_of_cons in Hcn as [_ Hcn]. split; [done|]. exists v. split.
    + rewrite lookup_alter_ne; [done|]. intros ->. apply Hy. apply elem_of_app. right. left.
    + by apply IH.
Qed.

Lemma sender_edge m C c x : ipc_inv m C -> c ∈ slots -> x ∈ C c -> edge m x c.
Proof.
  intros Hinv Hc (v & Hv & _ & E)%(ii_sending _ _ Hinv). exists v. split; [done|].
  rewrite <- E in Hc. destruct (slot_endpoint _ Hc). done.
Qed.

Section unqueue.
Context (m : gmap Z ipcv) (C : Z -> list Z) (Hinv : ipc_inv m C).
Context (c x : Z) (pre post : list Z) (HC : C c = pre ++ x :: post) (Hcs : c ∈ slots).
Context (v v' : ipcv) (Hx : m !! x = Some v).
Context (E1 : i_endpoint v' = i_endpoint v) (E2 : i_free v' = i_free v) (E3 : i_magic v' = i_magic v)
  (E4 : i_callq v' = i_callq v) (E5 : i_link v' = None) (E6 : i_sending v' = false)
  (E7 : i_blockedon v' = NONE \/ i_blockedon v' = i_blockedon v)
  (E8 : i_waiting v' = true -> i_deliver v' = false).

Let ma := set_after m c pre (i_link v).
Let m' := <[x := v']> ma.

Lemma unqueue_members : x ∈ C c /\ c ∉ C c /\ NoDup (pre ++ x :: post) /\ x <> c.
Proof using All.
  assert (x ∈ C c) as Hin by (rewrite HC; apply elem_of_app; right; left).
  assert (c ∉ C c) as Hnc.
  { intros Hcc. apply (ii_acyclic _ _ Hinv c), tc_once. by eapply sender_edge. }
  split; [done|]. split; [done|]. split.
  - destruct (sender_edge _ _ _ _ Hinv Hcs Hin) as (w & Hw & N1 & N2 & Ew).
    destruct (ii_live _ _ Hinv x w Hw N1 N2) as (_ & u & Hu & _). rewrite Ew in Hu.
    rewrite <- HC. by apply (ii_callers _ _ Hinv c u).
  - intros ->. by apply Hnc.
Qed.

Lemma unqueue_back y w : m' !! y = Some w ->
  y = x /\ w = v' \/ y <> x /\ exists w0, m !! y = Some w0 /\ icore w = icore w0.
Proof using Type.
  unfold m'. destruct (decide (y = x)) as [->|Hne].
  - rewrite lookup_insert_eq. intros [= <-]. by left.
  - rewrite lookup_insert_ne by done. intros Hw. right. split; [done|].
    destruct (core_lookup ma m y w) as (w0 & ? & ?); [apply same_core_sym, set_after_core|done|by exists w0].
Qed.

Lemma unqueue_fwd y w0 : y <> x -> m !! y = Some w0 -> exists w, m' !! y = Some w /\ icore w = icore w0.
Proof using Type.
  intros Hne Hw. unfold m'. rewrite lookup_insert_ne by done.
  apply (core_lookup m ma y w0); [apply set_after_core|done].
Qed.

Lemma unqueue_live e : live m e -> live m' e.
Proof using All.
  intros Hl. assert (live ma e) as (Hs & w & Hw & A1 & A2 & A3) by (eapply live_core; [apply set_after_core|done]).
  split; [done|]. unfold m'. destruct (decide (_ENDPOINT_P e = x)) as [Ex|Hne].
  - destruct Hl as (_ & w0 & Hw0 & B1 & B2 & B3). rewrite Ex in *. exists v'. rewrite lookup_insert_eq.
    assert (w0 = v) as -> by congruence. split_and!; congruence.
  - exists w. by rewrite lookup_insert_ne.
Qed.

Lemma unqueue_edge a b : edge m' a b -> edge m a b.
Proof using All.
  intros (w & Hw & N1 & N2 & E). apply unqueue_back in Hw as [[-> ->]|(Hne & w0 & Hw0 & [= _ Eb _])].
  - destruct E7 as [|Eb]; [done|]. exists v. by rewrite <- Eb.
  - exists w0. by rewrite <- Eb.
Qed.

Lemma unqueue_callq d w : m' !! d = Some w -> exists w0, m !! d = Some w0 /\
  (d <> c -> i_callq w = i_callq w0) /\
  (d = c -> i_callq w = match pre with [] => i_link v | _ => i_callq w0 end).
Proof using All.
  destruct unqueue_members as (_ & Hnc & _ & Hxc). unfold m', ma, set_after.
  destruct (decide (d = x)) as [->|Hdx].
  { rewrite lookup_insert_eq. intros [= <-]. exists v. done. }
  rewrite lookup_insert_ne by done. destruct (last pre) as [y|] eqn:El.
  - assert (pre <> []) as Hne by by intros ->.
    destruct (decide (y = d)) as [->|Hyd].
    + rewrite lookup_alter_eq. destruct (m !! d) as [w0|]; [|done]. intros [= <-]. exists w0.
      split; [done|]. split; [done|]. intros _. by destruct pre.
    + rewrite lookup_alter_ne by done. intros Hw. exists w. split; [done|]. split; [done|].
      intros _. by destruct pre.
  - apply last_None in El as ->. destruct (decide (c = d)) as [->|Hcd].
    + rewrite lookup_alter_eq. destruct (m !! d) as [w0|]; [|done]. intros [= <-]. by exists w0.
    + rewrite lookup_alter_ne by done. intros Hw. exists w. split; [done|]. split; [done|]. by intros ->.
Qed.

Lemma unqueue_callers d w : d ∈ slots -> m' !! d = Some w ->
  callers m' (i_callq w) (upd_q C c (pre ++ post) d) /\ NoDup (upd_q C c (pre ++ post) d).
Proof using All.
  intros Hd Hw. destruct unqueue_members as (Hin & Hnc & Hnd & Hxc).
  destruct (unqueue_callq d w Hw) as (w0 & Hw0 & Hq1 & Hq2).
  destruct (ii_callers _ _ Hinv d w0 Hd Hw0) as [Hcl Hnd0].
  assert (x ∉ pre ++ post /\ NoDup (pre ++ post)) as [Hxp Hnd'].
  { apply NoDup_app in Hnd as (N1 & N2 & [N3 N4]%NoDup_cons). split.
    - intros [Hp|Hp]%elem_of_app; [|done]. apply (N2 x Hp). left.
    - apply NoDup_app. split_and!; [done| |done]. intros y Hy Hy'. apply (N2 y Hy). by right. }
  unfold upd_q. destruct (decide (d = c)) as [->|Hdc].
  - split; [|done]. rewrite Hq2 by done. rewrite HC in Hcl, Hnc.
    pose proof (callers_cut m _ pre x post c v Hcl Hnd Hx Hnc) as Hcut. fold ma in Hcut.
    eapply callers_frame; [|exact Hcut]. intros y u Hy Hu. exists u. unfold m'.
    rewrite lookup_insert_ne; [done|]. by intros <-.
  - split; [|done]. rewrite Hq1 by done. eapply callers_frame; [|exact Hcl].
    intros y u Hy Hu. assert (forall z, z ∈ C c -> y <> z) as Hyc.
    { intros z Hz ->. apply (ii_sending _ _ Hinv) in Hy as (a & Ha & _ & Ea), Hz as (b & Hb & _ & Eb).
      congruence. }
    unfold m'. rewrite lookup_insert_ne by (intros ->; by apply (Hyc y)).
    apply set_after_link; [done|]. intros Hp. apply (Hyc y); [|done]. rewrite HC. apply elem_of_app. by left.
Qed.

Lemma ipc_inv_unqueue : ipc_inv m' (upd_q C c (pre ++ post)).
Proof using All.
  destruct unqueue_members as (Hin & Hnc & Hnd & Hxc). split.
  - intros y w Hy [[-> ->]|(_ & w0 & Hw0 & [= Ee _])]%unqueue_back.
    + rewrite E1. by apply (ii_slots _ _ Hinv).
    + rewrite Ee. by apply (ii_slots _ _ Hinv).
  - intros y w Hw N1 N2. apply unqueue_live. apply unqueue_back in Hw as [[-> ->]|(_ & w0 & Hw0 & [= _ Eb _])].
    + destruct E7 as [|Eb]; [done|]. rewrite Eb in *. by apply (ii_live _ _ Hinv x).
    + rewrite Eb in *. by apply (ii_live _ _ Hinv y).
  - intros y Hy. apply (ii_acyclic _ _ Hinv y). eapply tc_mono; [|exact Hy]. apply unqueue_edge.
  - intros y w [[-> ->]|(_ & w0 & Hw0 & [= _ _ _ Ew _ Ed _])]%unqueue_back; [exact E8|].
    rewrite Ew, Ed. by apply (ii_deliver _ _ Hinv y).
  - apply unqueue_callers.
  - intros y d. assert (y ∈ upd_q C c (pre ++ post) d <-> y ∈ C d /\ y <> x) as ->.
    { assert (x ∉ pre ++ post) as Hxp.
      { apply NoDup_app in Hnd as (N1 & N2 & [N3 N4]%NoDup_cons).
        intros [Hp|Hp]%elem_of_app; [|done]. apply (N2 x Hp). left. }
      unfold upd_q. destruct (decide (d = c)) as [->|Hdc].
      - rewrite HC, !elem_of_app, elem_of_cons. rewrite elem_of_app in Hxp. naive_solver.
      - split; [|tauto]. intros Hy. split; [done|]. intros ->.
        apply (ii_sending _ _ Hinv) in Hy as (a & Ha & _ & Ea), Hin as (b & Hb & _ & Eb). congruence. }
    rewrite (ii_sending _ _ Hinv). split.
    + intros [(w0 & Hw0 & Hs & Ep) Hne]. destruct (unqueue_fwd y w0 Hne Hw0) as (w & Hw & [= _ Eb Es _]).
      exists w. by rewrite Es, Eb.
    + intros (w & Hw & Hs & Ep). apply unqueue_back in Hw as [[-> ->]|(Hne & w0 & Hw0 & [= _ Eb Es _])]; [congruence|].
      split; [|done]. exists w0. by rewrite <- Es, <- Eb.
  - intros y w Hw Hns. destruct (decide (y = x)) as [->|Hne].
    { unfold m' in Hw. rewrite lookup_insert_eq in Hw. by injection Hw as <-. }
    destruct (unqueue_back y w Hw) as [[? _]|(_ & w0 & Hw0 & [= _ Eb Es _])]; [done|].
    rewrite Es in Hns. rewrite <- (ii_link _ _ Hinv y w0 Hw0 Hns).
    destruct (set_after_link m c pre (i_link v) y w0 Hw0) as (w1 & Hw1 & El).
    { intros Hp. assert (y ∈ C c) as Hyc by (rewrite HC; apply elem_of_app; by left).
      apply (ii_sending _ _ Hinv) in Hyc as (a & Ha & Hs & _). congruence. }
    unfold m' in Hw. rewrite lookup_insert_ne in Hw by done. fold ma in Hw1. congruence.
  - intros y w [[-> ->]|(_ & w0 & Hw0 & [= _ _ Es _])]%unqueue_back Hs; [congruence|].
    rewrite Es in Hs. by apply (ii_range _ _ Hinv y w0).
Qed.
End unqueue.

Lemma set_after_insert m c pre o x (a b : ipcv) :
  x <> c -> x ∉ pre -> <[x := a]> (set_after (<[x := b]> m) c pre o) = <[x := a]> (set_after m c pre o).
Proof.
  intros Hxc Hxp. unfold set_after. destruct (last pre) as [y|] eqn:El.
  - assert (y <> x) as Hyx by (intros ->; apply Hxp; by apply last_elem).
    apply map_eq. intros z. destruct (decide (z = x)) as [->|]; [by rewrite !lookup_insert_eq|].
    rewrite !lookup_insert_ne by done. destruct (decide (z = y)) as [->|].
    + rewrite !lookup_alter_eq. by rewrite lookup_insert_ne.
    + rewrite !lookup_alter_ne by done. by rewrite lookup_insert_ne.
  - apply map_eq. intros z. destruct (decide (z = x)) as [->|]; [by rewrite !lookup_insert_eq|].
    rewrite !lookup_insert_ne by done. destruct (decide (z = c)) as [->|].
    + rewrite !lookup_alter_eq. by rewrite lookup_insert_ne.
    + rewrite !lookup_alter_ne by done. by rewrite lookup_insert_ne.
Qed.

(** ** On the kernel state *)

Lemma upd1_id s p pr : procs s !! p = Some pr -> upd1 s p pr = s.
Proof. intros Hp. unfold upd1. rewrite insert_id by done. by destruct s. Qed.

(** What message passing sees of a process, but for the message it carries. *)
Definition mail (pr : proc) : message * bool := (p_delivermsg pr, anyset (p_misc_flags pr) MF_DELIVERMSG).

Lemma iv_misc f pr : Z.land f MF_DELIVERMSG = 0 ->
  iv (set_p_misc_flags (clearf (p_misc_flags pr) f) pr) = iv pr /\
  mail (set_p_misc_flags (clearf (p_misc_flags pr) f) pr) = mail pr.
Proof.
  intros Hf. assert (anyset (clearf (p_misc_flags pr) f) MF_DELIVERMSG = anyset (p_misc_flags pr) MF_DELIVERMSG) as E.
  { rewrite !(anyset_isset _ _ 6) by done. apply isset_clearf_disjoint. by rewrite Z.land_comm. }
  unfold iv, mail. simpl. by rewrite E.
Qed.

Lemma iv_status m pr : iv (ipc_status_add m pr) = iv pr /\ mail (ipc_status_add m pr) = mail pr.
Proof. unfold ipc_status_add. by destruct (negb _). Qed.

(** The pointer after [pre] is redirected. *)
Lemma write_qpp_ok s c prc pre post o (Q : unit -> kstate -> Prop) :
  procs s !! c = Some prc -> callers (ivs s) (p_caller_q prc) (pre ++ post) ->
  (forall s' y pry pry', procs s !! y = Some pry -> (y = c \/ y ∈ pre) -> s' = upd1 s y pry' ->
     ivs s' = set_after (ivs s) c pre o -> sched_key pry' = sched_key pry -> mail pry' = mail pry ->
     p_rts_flags pry' = p_rts_flags pry -> Q tt s') ->
  wp (write_qpp c (last pre) o) Q s.
Proof.
  intros Hc Hcl HQ. unfold set_after in HQ. destruct pre as [|y pre' _] using rev_ind; simpl.
  - simpl in HQ. eapply wp_updp_first; [done|]. eapply (HQ _ c prc); [done|by left|done| |done..].
    rewrite ivs_upd1. apply map_eq. intros z. destruct (decide (c = z)) as [<-|].
    + by rewrite lookup_insert_eq, lookup_alter_eq, ivs_lookup, Hc.
    + by rewrite lookup_insert_ne, lookup_alter_ne.
  - rewrite last_snoc in *. rewrite <- app_assoc in Hcl. apply callers_mid in Hcl as (v & Hv & _).
    rewrite ivs_lookup in Hv. destruct (procs s !! y) as [pry|] eqn:Hy; [|done].
    eapply wp_updp_first; [done|]. eapply (HQ _ y pry); [done| |done| |done..].
    + right. apply elem_of_app. right. left.
    + rewrite ivs_upd1. apply map_eq. intros z. destruct (decide (y = z)) as [<-|].
      * by rewrite lookup_insert_eq, lookup_alter_eq, ivs_lookup, Hy.
      * by rewrite lookup_insert_ne, lookup_alter_ne.
Qed.

(** What is known of the processes that wait to send. *)
Record sender_ok (sp : proc) (x : Z) : Prop := {
  sk_nr : p_nr sp = x;
  sk_used : RTS_ISSET sp RTS_SLOT_FREE = false;
  sk_endpoint : RTS_ISSET sp RTS_NO_ENDPOINT = false;
  sk_nodelay : anyset (p_misc_flags sp) MF_SIG_DELAY = false;
  sk_empty : anyset (p_misc_flags sp) MF_DELIVERMSG = false;
  sk_sendrec : RTS_ISSET sp RTS_RECEIVING = true -> p_getfrom_e sp = p_sendto_e sp;
}.

(** [x], between [pre] and [post] in the queue of [c], has been served. *)
Definition served (C : Z -> list Z) (c x : Z) (pre post : list Z) (sp : proc) (s' : kstate) : Prop :=
  (exists pr', procs s' !! c = Some pr' /\
     mail pr' = (set_m_source (p_endpoint sp) (p_sendmsg sp), true)) /\
  (exists sp', procs s' !! x = Some sp' /\ RTS_ISSET sp' RTS_SENDING = false) /\
  sched_inv s' /\ ipc_inv (ivs s') (upd_q C c (pre ++ post)).

(** Clearing SENDING leaves a process that waits for the reply, if at all. *)
Lemma iv_unsent sp sp' x :
  sender_ok sp x -> RTS_ISSET sp RTS_SENDING = true ->
  iv sp' = iv (set_p_rts_flags (clearf (p_rts_flags sp) RTS_SENDING) sp) ->
  let v := iv sp in let v' := iset_link None (iv sp') in
  i_endpoint v' = i_endpoint v /\ i_free v' = i_free v /\ i_magic v' = i_magic v /\
  i_callq v' = i_callq v /\ i_link v' = None /\ i_sending v' = false /\
  (i_blockedon v' = NONE \/ i_blockedon v' = i_blockedon v) /\ i_deliver v' = false.
Proof.
  intros [_ Hu _ _ He Hr] Hs E. cbv zeta. rewrite E. clear E sp'.
  set (g := set_p_rts_flags _ sp).
  assert (RTS_ISSET g RTS_SENDING = false) as G1 by by apply isset_clearf.
  assert (RTS_ISSET g RTS_RECEIVING = RTS_ISSET sp RTS_RECEIVING) as G2 by by apply isset_clearf_disjoint.
  assert (RTS_ISSET g RTS_SLOT_FREE = RTS_ISSET sp RTS_SLOT_FREE) as G3 by by apply isset_clearf_disjoint.
  simpl. rewrite G1, G3. unfold P_BLOCKEDON. rewrite !sending_anyset, !receiving_anyset, G1, G2, Hs.
  split_and!; try done. destruct (RTS_ISSET sp RTS_RECEIVING); [|by left]. right. simpl. by apply Hr.
Qed.

Section recv.
Context `{KEnv} (s : kstate) (Q C : Z -> list Z).
Context (Hsched : sched_invQ s Q 0) (Hipc : ipc_inv (ivs s) C).
Context (c : Z) (pr : proc) (Hc : procs s !! c = Some pr) (Hcs : c ∈ slots).
Context (Hdel : anyset (p_misc_flags pr) MF_DELIVERMSG = false).
Context (Hsnd : RTS_ISSET pr RTS_SENDING = false) (Hrcv : RTS_ISSET pr RTS_RECEIVING = false).

(** The caller is not blocked: its entry with another message is as good. *)
Lemma holding_ok cA (Hk : sched_key cA = sched_key pr) (Hi : ipc_key cA = ipc_key pr) :
  sched_invQ (upd1 s c cA) Q 0 /\ ipc_inv (ivs (upd1 s c cA)) C /\
  i_sending (iv cA) = false /\ i_blockedon (iv cA) = NONE.
Proof using Hsched Hipc Hc Hsnd Hrcv.
  injection Hk as K1 K2 K3 K4 K5 K6. injection Hi as I1 I2 I3 I4 I5 I6.
  assert (RTS_ISSET cA RTS_SENDING = false) as Hs by (unfold RTS_ISSET; by rewrite K2).
  assert (RTS_ISSET cA RTS_RECEIVING = false) as Hr by (unfold RTS_ISSET; by rewrite K2).
  assert (i_blockedon (iv cA) = NONE) as Hb.
  { simpl. unfold P_BLOCKEDON. by rewrite sending_anyset, receiving_anyset, Hs, Hr. }
  split.
  { apply (sched_invQ_upd1 _ _ _ _ pr); [done|unfold sched_key; congruence|done]. }
  split; [|done]. rewrite ivs_upd1. apply (ipc_inv_rewait _ _ _ (iv pr)); try done.
  - by rewrite ivs_lookup, Hc.
  - simpl. unfold RTS_ISSET. by rewrite K2.
  - simpl. unfold proc_ptr_ok. by rewrite I4.
  - simpl. by rewrite Hr.
Qed.

(** *** Serving the process [x] of the queue *)

Section take.
Context (x : Z) (pre post : list Z) (sp : proc).
Context (HC : C c = pre ++ x :: post) (Hx : procs s !! x = Some sp) (Hok : sender_ok sp x).

Lemma take_members :
  RTS_ISSET sp RTS_SENDING = true /\ x ∈ slots /\ c ∉ C c /\ x <> c /\ x ∉ pre /\ NoDup (pre ++ x :: post).
Proof using All.
  assert (ivs s !! x = Some (iv sp)) as Hvx by by rewrite ivs_lookup, Hx.
  assert (x ∈ C c) as Hin by (rewrite HC; apply elem_of_app; right; left).
  pose proof Hin as (w & Hw & Hs & _)%(ii_sending _ _ Hipc). assert (w = iv sp) as -> by congruence.
  assert (c ∉ C c) as Hnc.
  { intros Hcc. apply (ii_acyclic _ _ Hipc c), tc_once. by eapply sender_edge. }
  assert (NoDup (pre ++ x :: post)) as HNd.
  { rewrite <- HC. apply (ii_callers _ _ Hipc c (iv pr)); [done|by rewrite ivs_lookup, Hc]. }
  split_and!; [done|by apply (ii_range _ _ Hipc x (iv sp))|done|by intros ->| |done].
  intros Hp. apply NoDup_app in HNd as (_ & N2 & _). apply (N2 x Hp). left.
Qed.

Let the_mail : message * bool := (set_m_source (p_endpoint sp) (p_sendmsg sp), true).

(** The message is with the caller, and [x] unblocked but still queued. *)
Definition taken (s' : kstate) : Prop :=
  exists cA cE xE Q', sched_invQ s' Q' 0 /\ procs s' !! c = Some cE /\ mail cE = the_mail /\
    procs s' !! x = Some xE /\ iv xE = iv (set_p_rts_flags (clearf (p_rts_flags sp) RTS_SENDING) sp) /\
    sched_key cA = sched_key pr /\ ipc_key cA = ipc_key pr /\
    ivs s' = <[x := iv xE]> (<[c := iv cA]> (ivs s)).

Lemma unlink_taken s4 (P : bool -> kstate -> Prop) :
  taken s4 -> (forall s', served C c x pre post sp s' -> P true s') ->
  wp (sp ← getp x; write_qpp c (last pre) (p_q_link sp);; updp x (set_p_q_link None);; mret true) P s4.
Proof using All.
  intros (cA & cE & xE & Q4 & Hs4 & Hc4 & HmE & Hx4 & Ix & Kc & Ic & Hv4) HP.
  destruct take_members as (Hss & Hxs & Hnc & Hxc & Hxp & HNd).
  destruct (holding_ok cA Kc Ic) as (_ & Hi1 & Hs1 & _). rewrite ivs_upd1 in Hi1.
  set (m1 := <[c := iv cA]> (ivs s)) in *.
  assert (m1 !! x = Some (iv sp)) as Hm1x by (unfold m1; by rewrite lookup_insert_ne, ivs_lookup, Hx).
  destruct (iv_unsent sp xE x Hok Hss Ix) as (A1 & A2 & A3 & A4 & A5 & A6 & A7 & A8).
  assert (p_q_link xE = p_q_link sp) as Elink.
  { pose proof (f_equal i_link Ix) as L. exact L. }
  assert (exists prc, procs s4 !! c = Some prc /\ callers (ivs s4) (p_caller_q prc) (pre ++ x :: post)) as (prc & Hprc & Hcl).
  { exists cE. split; [done|]. assert (iv cE = iv cA) as Ecc.
    { pose proof (f_equal (fun m => m !! c) Hv4) as L. simpl in L.
      rewrite lookup_insert_ne, ivs_lookup, Hc4 in L by done. unfold m1 in L. rewrite lookup_insert_eq in L.
      by apply (inj Some) in L. }
    assert (p_caller_q cE = i_callq (iv cA)) as -> by (by rewrite <- Ecc).
    destruct (ii_callers _ _ Hi1 c (iv cA) Hcs) as [Hcl _]; [apply lookup_insert_eq|]. rewrite HC in Hcl.
    rewrite Hv4. eapply callers_frame; [|exact Hcl]. intros y v _ Hv. destruct (decide (y = x)) as [->|].
    - exists (iv xE). rewrite lookup_insert_eq. assert (v = iv sp) as -> by congruence. done.
    - exists v. by rewrite lookup_insert_ne. }
  apply wp_bind. eapply wp_getp; [exact Hx4|]. apply wp_bind.
  eapply (write_qpp_ok s4 c prc pre (x :: post)); [done|done|].
  intros s5 y pry pry' Hy Hyin -> Hv5 Ky My Fy.
  assert (y <> x) as Hyx by (destruct Hyin as [-> | Hyin]; [done|by intros ->]).
  assert (procs (upd1 s4 y pry') !! x = Some xE) as Hx5 by (unfold upd1; simpl; by rewrite lookup_insert_ne).
  apply wp_bind. eapply wp_updp_first; [exact Hx5|]. apply wp_ret. apply HP.
  assert (ivs (upd1 (upd1 s4 y pry') x (set_p_q_link None xE)) =
    <[x := iset_link None (iv xE)]> (set_after m1 c pre (i_link (iv sp)))) as Hv6.
  { rewrite ivs_upd1, Hv5, Hv4. change (iv (set_p_q_link None xE)) with (iset_link None (iv xE)).
    rewrite Elink. by apply set_after_insert. }
  split; [|split; [|split]].
  - unfold upd1. simpl. rewrite lookup_insert_ne by done. destruct (decide (y = c)) as [->|].
    + exists pry'. rewrite lookup_insert_eq. split; [done|]. rewrite My. by assert (pry = cE) as -> by congruence.
    + exists cE. by rewrite lookup_insert_ne.
  - eexists. split; [apply upd1_lookup|]. exact A6.
  - exists Q4. apply (sched_invQ_upd1 _ _ _ _ xE); [done|done|]. by apply (sched_invQ_upd1 _ _ _ _ pry).
  - rewrite Hv6. eapply (ipc_inv_unqueue m1 C Hi1 c x pre post HC Hcs (iv sp)); try done.
Qed.

(** The status word of the caller, and a flag of the sender. *)
Lemma status_ok s2 cB xB :
  procs s2 !! c = Some cB -> procs s2 !! x = Some xB -> x <> c ->
  wp (IPC_STATUS_ADD_CALL c (if anyset (p_misc_flags sp) MF_REPLY_PEND then SENDREC else SEND);;
      when (anyset (p_misc_flags sp) MF_SENDING_FROM_KERNEL)
        (IPC_STATUS_ADD_FLAGS c IPC_FLG_MSG_FROM_KERNEL;; mf_unset x MF_SENDING_FROM_KERNEL))
    (fun _ s' => exists cE xE, s' = upd1 (upd1 s2 c cE) x xE /\
      sched_key cE = sched_key cB /\ iv cE = iv cB /\ mail cE = mail cB /\
      sched_key xE = sched_key xB /\ iv xE = iv xB) s2.
Proof using Type.
  intros Hc2 Hx2 Hxc. apply wp_bind. eapply wp_updp_first; [done|].
  set (st := IPC_STATUS_CALL_TO _). pose proof (iv_status st cB) as [F1 F2]. pose proof (sched_key_status st cB) as F3.
  set (cC := ipc_status_add st cB) in *. apply wp_when; intros _.
  - apply wp_bind, wp_updp_again. set (cD := ipc_status_add _ cC).
    pose proof (iv_status (IPC_STATUS_FLAGS IPC_FLG_MSG_FROM_KERNEL) cC) as [G1 G2].
    pose proof (sched_key_status (IPC_STATUS_FLAGS IPC_FLG_MSG_FROM_KERNEL) cC) as G3. fold cD in G1, G2, G3.
    eapply wp_updp_first; [unfold upd1; simpl; by rewrite lookup_insert_ne|].
    eexists cD, _. split; [done|]. destruct (iv_misc MF_SENDING_FROM_KERNEL xB eq_refl) as [K1 _].
    split_and!; try done; congruence.
  - exists cC, xB. split; [|done]. symmetry. apply upd1_id. unfold upd1. simpl. by rewrite lookup_insert_ne.
Qed.

Lemma take_sender_ok (P : bool -> kstate -> Prop) :
  (forall s', served C c x pre post sp s' -> P true s') ->
  wp (caller ← getp c;
      c_assert (negb (RTS_ISSET sp RTS_SLOT_FREE));;
      c_assert (negb (RTS_ISSET sp RTS_NO_ENDPOINT));;
      c_assert (negb (anyset (p_misc_flags caller) MF_DELIVERMSG));;
      updp c (set_p_delivermsg (set_m_source (p_endpoint sp) (p_sendmsg sp)));;
      mf_set c MF_DELIVERMSG;;
      RTS_UNSET x RTS_SENDING;;
      IPC_STATUS_ADD_CALL c (if anyset (p_misc_flags sp) MF_REPLY_PEND then SENDREC else SEND);;
      when (anyset (p_misc_flags sp) MF_SENDING_FROM_KERNEL)
        (IPC_STATUS_ADD_FLAGS c IPC_FLG_MSG_FROM_KERNEL;; mf_unset x MF_SENDING_FROM_KERNEL);;
      when (anyset (p_misc_flags sp) MF_SIG_DELAY) (sig_delay_done x);;
      sp ← getp x;
      write_qpp c (last pre) (p_q_link sp);;
      updp x (set_p_q_link None);;
      mret true) P s.
Proof using All.
  intros HP. pose proof Hok as [_ Hused Hep Hnd _ _].
  destruct take_members as (Hss & Hxs & Hnc & Hxc & Hxp & HNd).
  apply wp_bind. eapply wp_getp; [done|].
  apply wp_bind, wp_assert; [by rewrite Hused|]. apply wp_bind, wp_assert; [by rewrite Hep|].
  apply wp_bind, wp_assert; [by rewrite Hdel|].
  apply wp_bind. eapply wp_updp_first; [done|]. apply wp_bind, wp_updp_again.
  set (cA := set_p_misc_flags _ _). destruct (holding_ok cA ltac:(done) ltac:(done)) as (Hs1 & _).
  assert (mail cA = the_mail) as HmA.
  { unfold mail, cA. simpl. unfold the_mail. f_equal. rewrite (anyset_isset _ _ 6) by done. apply isset_setf. }
  set (s1 := upd1 s c cA) in *.
  assert (procs s1 !! x = Some sp) as Hx1 by (unfold s1, upd1; simpl; by rewrite lookup_insert_ne).
  assert (has_priv s1 x sp) as Hpv.
  { destruct Hs1 as (Ht & _). by apply (po_priv _ _ _ (to_proc _ Ht _ _ Hx1)). }
  apply wp_bind. eapply wp_mono; [by apply (RTS_UNSET_ok s1 Q x sp RTS_SENDING)|].
  intros [] s2 (V & Q2 & Hs2 & _). unfold with_flags in V.
  set (xF := set_p_rts_flags (clearf (p_rts_flags sp) RTS_SENDING) sp) in *.
  change (view s2 = view (upd1 s1 x xF)) in V.
  destruct (view_lookup _ s2 x xF V) as (xB & Hx2 & Eex); [apply upd1_lookup|].
  destruct (view_lookup _ s2 c cA V) as (cB & Hc2 & Eec).
  { unfold s1, upd1. simpl. rewrite lookup_insert_ne by done. apply lookup_insert_eq. }
  pose proof (status_ok s2 cB xB Hc2 Hx2 Hxc) as Hst. apply wp_bind_inv in Hst. apply wp_bind.
  eapply wp_mono; [exact Hst|]. intros [] s3 Hst3. apply wp_bind. eapply wp_mono; [exact Hst3|].
  intros [] ? (cE & xE & -> & Kc & Ic & Mc & Kx & Ix).
  apply wp_bind, wp_when; intros Hd; [congruence|]. apply unlink_taken; [|done].
  exists cA, cE, xE, Q2. split_and!; try done.
  - apply (sched_invQ_upd1 _ _ _ _ xB); [unfold upd1; simpl; by rewrite lookup_insert_ne|done|].
    by apply (sched_invQ_upd1 _ _ _ _ cB).
  - unfold upd1. simpl. rewrite lookup_insert_ne by done. apply lookup_insert_eq.
  - rewrite Mc, <- HmA. unfold mail. pose proof (f_equal p_delivermsg Eec) as L1.
    pose proof (f_equal p_misc_flags Eec) as L2. simpl in L1, L2. by rewrite L1, L2.
  - apply upd1_lookup.
  - rewrite Ix. by apply iv_ev.
  - rewrite !ivs_upd1, Ic, (ivs_view _ _ V), ivs_upd1, (iv_ev _ _ Eec). unfold s1. rewrite ivs_upd1.
    apply map_eq. intros z. destruct (decide (z = x)) as [->|]; [by rewrite !lookup_insert_eq|].
    rewrite !(lookup_insert_ne _ x) by done. destruct (decide (z = c)) as [->|].
    + by rewrite !lookup_insert_eq.
    + by rewrite !lookup_insert_ne by done.
Qed.
End take.

(** *** The search of the queue *)

Definition wants (src_e src_p x : Z) : bool := (src_e =? ANY) || (src_p =? x).
Definition senders_ok : Prop := forall x, x ∈ C c -> exists sp, procs s !! x = Some sp /\ sender_ok sp x.

Lemma receive_queue_ok src_e src_p (P : bool -> kstate -> Prop) :
  senders_ok ->
  (forall pre x post sp s', C c = pre ++ x :: post -> Forall (fun y => wants src_e src_p y = false) pre ->
     wants src_e src_p x = true -> procs s !! x = Some sp -> served C c x pre post sp s' -> P true s') ->
  (Forall (fun y => wants src_e src_p y = false) (C c) -> P false s) ->
  wp (receive_queue queue_fuel c src_e src_p None) P s.
Proof using All.
  intros Hall HT HF.
  destruct (ii_callers _ _ Hipc c (iv pr) Hcs) as [Hcl Hnd]; [by rewrite ivs_lookup, Hc|].
  assert (length (C c) < queue_fuel)%nat as Hlen.
  { assert (length (C c) <= 261)%nat; [|unfold queue_fuel; lia]. apply slots_length; [done|].
    intros y (w & Hw & Hs & _)%(ii_sending _ _ Hipc). by eapply (ii_range _ _ Hipc). }
  assert (forall l pre fuel, C c = pre ++ l -> (length l < fuel)%nat ->
    Forall (fun y => wants src_e src_p y = false) pre ->
    wp (receive_queue fuel c src_e src_p (last pre)) P s) as Hloop; [|by apply (Hloop (C c) [])].
  induction l as [|x l IH]; intros pre fuel HC Hf Hpre; (destruct fuel as [|fuel]; [simpl in Hf; lia|]);
    cbn [receive_queue]; apply wp_bind;
    (eapply (wp_read_qpp s c pr pre); [done|rewrite <- HC; exact Hcl|]); cbn [head].
  - apply wp_ret, HF. by rewrite HC, app_nil_r.
  - destruct (Hall x) as (sp & Hx & Hok); [rewrite HC; apply elem_of_app; right; left|].
    apply wp_bind. eapply wp_getp; [done|]. pose proof (sk_nr _ _ Hok) as Hnr.
    change ((src_e =? ANY) || (src_p =? p_nr sp)) with (wants src_e src_p (p_nr sp)). rewrite Hnr.
    destruct (wants src_e src_p x) eqn:Ew.
    + eapply (take_sender_ok x pre l sp HC Hx Hok). intros s' Hs'. by eapply HT.
    + replace (Some x) with (last (pre ++ [x])) by apply last_snoc. apply IH.
      * by rewrite <- app_assoc.
      * simpl in Hf. lia.
      * apply Forall_app. split; [done|]. by apply Forall_singleton.
Qed.

(** *** Notifications *)

(** What a search of the pending notifications finds. *)
Record notified (src_e src_p nid i : Z) (pv : priv) : Prop := {
  nt_priv : p_priv pr = Some i;
  nt_privs : privs s !! i = Some pv;
  nt_pending : has_pending_notify c src_p s = Ok (nid, s);
  nt_source : nid <> NULL_PRIV_ID -> exists n npr, id_to_nr nid s = Ok (n, s) /\ n <> NONE /\
    procs s !! n = Some npr /\ (src_e = ANY \/ p_endpoint npr = src_e);
}.

(** The notification of [n] has reached the caller, and is no longer pending. *)
Definition notify_received (nid i : Z) (pv : priv) (s' : kstate) : Prop :=
  exists n npr pr', id_to_nr nid s = Ok (n, s) /\ procs s !! n = Some npr /\
    procs s' !! c = Some pr' /\
    (let pv1 := set_s_notify_pending (unset_sys_bit (s_notify_pending pv) nid) pv in
     mail pr' = (mk_message (p_endpoint npr) NOTIFY_MESSAGE
                   (notify_body n pv1 (get_monotonic_n (mono_reads s))), true) /\
     privs s' = <[i := notify_ack n pv1]> (privs s)) /\
    ivs s' = <[c := iv pr']> (ivs s) /\ sched_inv s' /\ ipc_inv (ivs s') C.

Lemma receive_notify_ok src_e src_p nid i pv (P : bool -> kstate -> Prop) :
  notified src_e src_p nid i pv ->
  (forall s', anyset (p_misc_flags pr) MF_REPLY_PEND = false -> nid <> NULL_PRIV_ID ->
     notify_received nid i pv s' -> P true s') ->
  (anyset (p_misc_flags pr) MF_REPLY_PEND = true \/ nid = NULL_PRIV_ID -> P false s) ->
  wp (receive_notify c src_e src_p) P s.
Proof using All.
  intros [Hpi Hpv Hpend Hsrc] HT HF. unfold receive_notify. apply wp_bind. eapply wp_getp; [done|].
  destruct (anyset (p_misc_flags pr) MF_REPLY_PEND) eqn:Erp; [apply wp_ret, HF; by left|].
  apply wp_bind. eapply wp_intro; [exact Hpend|].
  destruct (Z.eqb_spec nid NULL_PRIV_ID) as [En|En]; [apply wp_ret, HF; by right|].
  destruct (Hsrc En) as (n & npr & Hid & Hnn & Hn & Hep).
  apply wp_bind. eapply wp_intro; [exact Hid|].
  apply wp_bind, wp_assert; [by rewrite (proj2 (Z.eqb_neq _ _))|].
  apply wp_bind. unfold unset_notify_pending. eapply wp_updpriv; [done..|].
  set (pv1 := set_s_notify_pending _ pv). set (s1 := set_privs _ s).
  apply wp_bind. eapply (wp_getp _ npr); [done|].
  apply wp_bind, wp_assert; [by rewrite Hdel|].
  apply wp_bind, wp_assert.
  { destruct Hep as [-> | ->]; [by rewrite Z.eqb_refl|]. by rewrite Z.eqb_refl, orb_true_r. }
  apply wp_bind. eapply (wp_build n c pr i pv1); [done|done|apply lookup_insert_eq|].
  set (s2 := set_privs _ _).
  assert (sched_invQ s2 Q 0) as Hs2.
  { apply (sched_invQ_privs (set_mono_reads (S (mono_reads s1)) s1) Q 0 i pv1).
    - apply lookup_insert_eq.
    - unfold notify_ack. destruct (n =? HARDWARE); [done|]. by destruct (n =? SYSTEM).
    - eapply sched_invQ_fields; [..|apply (sched_invQ_privs s Q 0 i pv pv1); done]; done. }
  apply wp_bind. eapply (wp_updp_first _ _ pr); [done|].
  apply wp_bind, wp_updp_again, wp_bind, wp_updp_again, wp_ret. set (cF := ipc_status_add _ _).
  assert (sched_key cF = sched_key pr) as Ek by (etransitivity; [apply sched_key_status|done]).
  assert (ipc_key cF = ipc_key pr) as Eik by (etransitivity; [apply ipc_key_status|done]).
  destruct (holding_ok cF Ek Eik) as (_ & Hi & _). apply HT; [done|done|].
  exists n, npr, cF. split; [done|]. split; [done|]. split; [apply upd1_lookup|]. cbv zeta.
  split; [split|].
  - unfold cF. rewrite (proj2 (iv_status _ _)). unfold mail. simpl. f_equal.
    rewrite (anyset_isset _ _ 6) by done. apply isset_setf.
  - simpl. by rewrite insert_insert_eq.
  - split; [apply (ivs_upd1 s2)|]. split; [exists Q; by apply (sched_invQ_upd1 _ _ _ _ pr)|].
    rewrite ivs_upd1 in *. exact Hi.
Qed.
End recv.

(** [flags ^ (RECEIVE << 2)] has the same RTS_SENDING. *)
Lemma receiving_lxor pr :
  anyset (Z.lxor (p_rts_flags pr) (Z.shiftl RECEIVE 2)) RTS_SENDING = RTS_ISSET pr RTS_SENDING.
Proof.
  rewrite (anyset_isset _ _ 2) by done. unfold RTS_ISSET, isset.
  rewrite !(land_bit _ _ 2) by done. rewrite Z.lxor_spec.
  replace (Z.testbit (Z.shiftl RECEIVE 2) 2) with false by done. by destruct (Z.testbit _ 2).
Qed.

Section receive.
Context `{KEnv} (s : kstate) (Q C : Z -> list Z).
Context (Hsched : sched_invQ s Q 0) (Hipc : ipc_inv (ivs s) C).
Context (c src_e : Z) (pr : proc) (Hc : procs s !! c = Some pr) (Hcs : c ∈ slots).
Context (Hdel : anyset (p_misc_flags pr) MF_DELIVERMSG = false) (Hrcv : RTS_ISSET pr RTS_RECEIVING = false).
Context (Hsrc : src_e = ANY \/ live (ivs s) src_e /\ _ENDPOINT_P src_e <> c).
Context (Hsendrec : RTS_ISSET pr RTS_SENDING = true -> p_sendto_e pr = src_e).

Definition src_slot (e : Z) : Z := if e =? ANY then ANY else _ENDPOINT_P e.
Let src_p := src_slot src_e.

Lemma caller_iv : ivs s !! c = Some (iv pr).
Proof using Hc. by rewrite ivs_lookup, Hc. Qed.

Lemma caller_endpoint : p_endpoint pr <> ANY /\ p_endpoint pr <> NONE.
Proof using Hc Hcs Hipc.
  pose proof (ii_slots _ _ Hipc c _ Hcs caller_iv) as Ep. simpl in Ep.
  apply slot_endpoint. by rewrite Ep.
Qed.

(** A process the caller is sending to does not wait for the caller. *)
Lemma sending_edge : RTS_ISSET pr RTS_SENDING = true -> src_e <> ANY -> edge (ivs s) c (_ENDPOINT_P src_e).
Proof using Hc Hsendrec Hsrc.
  intros Hs HA. destruct Hsrc as [|[Hl _]]; [done|]. exists (iv pr). split; [exact caller_iv|].
  simpl. unfold P_BLOCKEDON. rewrite sending_anyset, Hs, (Hsendrec Hs).
  destruct (slot_endpoint src_e (proj1 Hl)). done.
Qed.

(** Whether blocking closes a cycle, when no wanted process waits to send. *)
Lemma deadlock_receive (P : Z -> kstate -> Prop) :
  (RTS_ISSET pr RTS_SENDING = false -> Forall (fun y => wants src_e src_p y = false) (C c)) ->
  (forall r, r <> 0 /\ src_e <> ANY /\ waits_for s (_ENDPOINT_P src_e) c \/
             r = 0 /\ (src_e = ANY \/ ~ waits_for s (_ENDPOINT_P src_e) c) -> P r s) ->
  wp (deadlock RECEIVE c src_e) P s.
Proof using All.
  intros Hnone HP. unfold deadlock. apply wp_bind. eapply wp_getp; [done|].
  destruct (Z.eqb_spec src_e ANY) as [EA|NA].
  { rewrite EA. change (S 261) with deadlock_fuel. unfold deadlock_fuel. cbn [deadlock_loop].
    rewrite Z.eqb_refl. apply wp_ret, HP. right. by split; [|left]. }
  destruct Hsrc as [|[Hl Hself]]; [done|]. destruct caller_endpoint as [N1 N2].
  eapply wp_mono.
  { apply (deadlock_loop_ok s C Hipc RECEIVE (p_endpoint pr) deadlock_fuel src_e 1 []); try done.
    - intros x Hx. by apply elem_of_nil in Hx.
    - constructor.
    - intros x Hx. by apply elem_of_nil in Hx. }
  pose proof (reaches_tc _ C c (iv pr) (_ENDPOINT_P src_e) Hipc Hcs caller_iv) as Hiff. simpl in Hiff.
  intros r s' [-> [[Hr Hre]|[Hr [Hre|(_ & pr2 & Hp2 & Eb & Ex)]]]]; apply HP.
  - left. split; [done|]. split; [done|]. by apply Hiff.
  - right. split; [done|]. right. unfold waits_for. by rewrite <- Hiff.
  - exfalso. rewrite receiving_lxor in Ex.
    assert (_ENDPOINT_P src_e ∈ C c) as Hin.
    { apply (ii_sending _ _ Hipc). exists (iv pr2). rewrite ivs_lookup, Hp2. split; [done|]. split; [done|].
      simpl. rewrite Eb. by apply (ii_slots _ _ Hipc c (iv pr) Hcs caller_iv). }
    pose proof sending_edge as Hedge. destruct (RTS_ISSET pr RTS_SENDING) eqn:Es.
    + apply (ii_acyclic _ _ Hipc c). eapply tc_l; [by apply Hedge|].
      apply tc_once. by eapply sender_edge.
    + specialize (Hnone eq_refl). rewrite Forall_forall in Hnone. specialize (Hnone _ Hin).
      unfold wants, src_p, src_slot in Hnone. rewrite (proj2 (Z.eqb_neq src_e ANY)), Z.eqb_refl in Hnone by done.
      done.
Qed.

(** The caller waits. *)
Definition waiting_for (s' : kstate) : Prop :=
  (exists pr', procs s' !! c = Some pr' /\ RTS_ISSET pr' RTS_RECEIVING = true /\ p_getfrom_e pr' = src_e /\
     RTS_ISSET pr' RTS_SENDING = RTS_ISSET pr RTS_SENDING) /\
  sched_inv s' /\ ipc_inv (ivs s') C.

Lemma receive_block_ok (P : ecode -> kstate -> Prop) :
  (src_e = ANY \/ ~ waits_for s (_ENDPOINT_P src_e) c) ->
  (forall s', waiting_for s' -> P OK s') ->
  wp (updp c (set_p_getfrom_e src_e);; RTS_SET c RTS_RECEIVING;; mret OK) P s.
Proof using All.
  intros Hw HP. apply wp_bind. eapply wp_updp_first; [done|]. set (cA := set_p_getfrom_e src_e pr).
  assert (sched_invQ (upd1 s c cA) Q 0) as Hs1 by by apply (sched_invQ_upd1 _ _ _ _ pr).
  apply wp_bind. eapply wp_mono; [eapply (RTS_SET_ok _ Q 0 c cA); [done|lia|apply upd1_lookup]|].
  intros [] s2 (V & _ & Q' & Hs2 & _). unfold with_flags in V.
  set (cF := set_p_rts_flags (setf (p_rts_flags cA) RTS_RECEIVING) cA) in *.
  change (view s2 = view (upd1 (upd1 s c cA) c cF)) in V. rewrite upd1_upd1 in V.
  destruct (view_lookup _ s2 c cF V) as (cG & Hc2 & Ee); [apply upd1_lookup|].
  assert (RTS_ISSET cF RTS_RECEIVING = true) as F1 by by apply isset_setf.
  assert (RTS_ISSET cF RTS_SENDING = RTS_ISSET pr RTS_SENDING) as F2 by by apply isset_setf_disjoint.
  assert (RTS_ISSET cF RTS_SLOT_FREE = RTS_ISSET pr RTS_SLOT_FREE) as F3 by by apply isset_setf_disjoint.
  apply wp_ret, HP. split; [|split; [by exists Q'|]].
  { exists cG. split; [done|]. rewrite !(isset_ev _ _ _ Ee) by done. split; [done|]. split; [|done].
    exact (f_equal p_getfrom_e Ee). }
  rewrite (ivs_view _ _ V), ivs_upd1. destruct (RTS_ISSET pr RTS_SENDING) eqn:Es.
  - assert (iv cF = iv pr) as ->; [|rewrite insert_id; [done|exact caller_iv]].
    unfold iv, P_BLOCKEDON. rewrite !sending_anyset, F1, F2, F3, Es, andb_false_r. simpl.
    by rewrite andb_false_r.
  - apply (ipc_inv_rewait _ _ _ (iv pr)); try done; [exact caller_iv|].
    assert (i_blockedon (iv cF) = src_e) as ->.
    { simpl. unfold P_BLOCKEDON. by rewrite sending_anyset, receiving_anyset, F1, F2. }
    intros _ NA. destruct Hsrc as [|[Hl Hself]]; [done|]. split; [done|].
    destruct Hw as [|Hw]; [done|]. intros Hr. apply rtc_tc in Hr as [|]; [by apply Hself|by apply Hw].
Qed.
End receive.

(** ** The contract *)

(** The state with the caller's buffer noted. *)
Definition noted (s : kstate) (c : Z) (pr : proc) (buf : Z) : kstate :=
  upd1 s c (set_p_delivermsg_vir buf pr).

Section contract.
Context `{KEnv} (s : kstate) (C : Z -> list Z) (c src_e : Z) (pr : proc) (flags nid i : Z) (pv : priv).

(** No message can be received: the caller is still sending, or no notification
    is pending for it and no wanted process waits to send to it. *)
Definition nothing_available : Prop :=
  RTS_ISSET pr RTS_SENDING = true \/
  (anyset (p_misc_flags pr) MF_REPLY_PEND = true \/ nid = NULL_PRIV_ID) /\
  Forall (fun y => wants src_e (src_slot src_e) y = false) (C c).

Definition reply_done (s' : kstate) : Prop :=
  exists pr', procs s' !! c = Some pr' /\ anyset (p_misc_flags pr') MF_REPLY_PEND = false.

(** The ways a receive ends. *)
Inductive recv_outcome : ecode -> kstate -> Prop :=
| ro_dead sp :
    src_e <> ANY -> procs s !! _ENDPOINT_P src_e = Some sp -> RTS_ISSET sp RTS_NO_ENDPOINT = true ->
    recv_outcome EDEADSRCDST s
| ro_notified s' :
    RTS_ISSET pr RTS_SENDING = false -> anyset (p_misc_flags pr) MF_REPLY_PEND = false ->
    nid <> NULL_PRIV_ID -> notify_received s C c nid i pv s' -> reply_done s' ->
    recv_outcome OK s'
| ro_message pre x post sp s' :
    RTS_ISSET pr RTS_SENDING = false ->
    anyset (p_misc_flags pr) MF_REPLY_PEND = true \/ nid = NULL_PRIV_ID ->
    C c = pre ++ x :: post -> Forall (fun y => wants src_e (src_slot src_e) y = false) pre ->
    wants src_e (src_slot src_e) x = true -> procs s !! x = Some sp ->
    served C c x pre post sp s' -> reply_done s' ->
    recv_outcome OK s'
| ro_notready :
    nothing_available -> anyset flags NON_BLOCKING = true -> recv_outcome ENOTREADY s
| ro_locked :
    nothing_available -> anyset flags NON_BLOCKING = false ->
    src_e <> ANY -> waits_for s (_ENDPOINT_P src_e) c -> recv_outcome ELOCKED s
| ro_blocked s' :
    nothing_available -> anyset flags NON_BLOCKING = false ->
    src_e = ANY \/ ~ waits_for s (_ENDPOINT_P src_e) c ->
    waiting_for C c src_e pr s' -> recv_outcome OK s'.

(** A message has arrived: MF_REPLY_PEND is cleared. *)
Lemma arrived_ok s' pr' (P : ecode -> kstate -> Prop) :
  procs s' !! c = Some pr' ->
  (forall s'' pr'', procs s'' !! c = Some pr'' -> s'' = upd1 s' c pr'' -> iv pr'' = iv pr' ->
     mail pr'' = mail pr' -> sched_key pr'' = sched_key pr' -> reply_done s'' -> P OK s'') ->
  wp (mf_unset c MF_REPLY_PEND;; mret OK) P s'.
Proof using Type.
  intros Hc HP. apply wp_bind. eapply wp_updp_first; [done|]. apply wp_ret.
  destruct (iv_misc MF_REPLY_PEND pr' eq_refl) as [E1 E2].
  eapply HP; [apply upd1_lookup|done|done|done|done|].
  eexists. split; [apply upd1_lookup|]. simpl. rewrite (anyset_isset _ _ 0) by done. by apply isset_clearf.
Qed.

Lemma arrived_sched s' pr' pr'' : procs s' !! c = Some pr' -> sched_key pr'' = sched_key pr' ->
  sched_inv s' -> sched_inv (upd1 s' c pr'').
Proof using Type. intros Hc Hk [Q HQ]. exists Q. by apply (sched_invQ_upd1 _ _ _ _ pr'). Qed.

Lemma arrived_ivs s' pr' pr'' : procs s' !! c = Some pr' -> iv pr'' = iv pr' -> ivs (upd1 s' c pr'') = ivs s'.
Proof using Type. intros Hc E. rewrite ivs_upd1, E. apply insert_id. by rewrite ivs_lookup, Hc. Qed.

Lemma notify_arrived s' (P : ecode -> kstate -> Prop) :
  notify_received s C c nid i pv s' ->
  (forall s'', notify_received s C c nid i pv s'' -> reply_done s'' -> P OK s'') ->
  wp (mf_unset c MF_REPLY_PEND;; mret OK) P s'.
Proof using Type.
  intros (n & npr & pr' & Hid & Hn & Hc & (Hm & Hpv) & Hv & Hs & Hi) HP.
  apply (arrived_ok s' pr'); [done|]. intros s'' pr'' Hc2 E Ei Em Ek Hrep. apply HP; [|done].
  assert (ivs s'' = ivs s') as Ev by (rewrite E; by apply (arrived_ivs _ pr')).
  exists n, npr, pr''. split; [done|]. split; [done|]. split; [done|]. split.
  - split; [by rewrite Em|by rewrite E].
  - rewrite Ev, Ei. split; [done|]. split; [|done]. rewrite E. by eapply arrived_sched.
Qed.

Lemma served_arrived x pre post sp s' (P : ecode -> kstate -> Prop) :
  served C c x pre post sp s' -> x <> c ->
  (forall s'', served C c x pre post sp s'' -> reply_done s'' -> P OK s'') ->
  wp (mf_unset c MF_REPLY_PEND;; mret OK) P s'.
Proof using Type.
  intros ((pr' & Hc & Hm) & (sp' & Hx & Hsx) & Hs & Hi) Hxc HP.
  apply (arrived_ok s' pr'); [done|]. intros s'' pr'' Hc2 E Ei Em Ek Hrep. apply HP; [|done].
  assert (ivs s'' = ivs s') as Ev by (rewrite E; by apply (arrived_ivs _ pr')).
  split; [|split; [|split]].
  - exists pr''. by rewrite Em.
  - exists sp'. split; [|done]. rewrite E. unfold upd1. simpl. by rewrite lookup_insert_ne.
  - rewrite E. by eapply arrived_sched.
  - by rewrite Ev.
Qed.
End contract.

Section mini_receive.
Context `{KEnv} (s : kstate) (Q C : Z -> list Z) (c src_e buf flags nid i : Z) (pr0 : proc) (pv : priv).
Let pr := set_p_delivermsg_vir buf pr0.
Let s1 := noted s c pr0 buf.
Context (Hs1 : sched_invQ s1 Q 0) (Hi1 : ipc_inv (ivs s1) C).
Context (Hcs : c ∈ slots) (Hc : procs s !! c = Some pr0).
Context (Hdel : anyset (p_misc_flags pr) MF_DELIVERMSG = false) (Hrcv : RTS_ISSET pr RTS_RECEIVING = false).
Context (Hsrc : src_e = ANY \/ live (ivs s1) src_e /\ _ENDPOINT_P src_e <> c).
Context (Hsendrec : RTS_ISSET pr RTS_SENDING = true -> p_sendto_e pr = src_e).
Context (Hnote : notified s1 c pr src_e (src_slot src_e) nid i pv).
Context (Hasyn : has_pending_asend c (src_slot src_e) s1 = Ok (NULL_PRIV_ID, s1)).
Context (Hall : senders_ok s1 C c).

Let Hc1 : procs s1 !! c = Some pr := upd1_lookup s c pr.
Notation outcome := (recv_outcome s1 C c src_e pr flags nid i pv).

Lemma receive_source_ok (P : Z + ecode -> kstate -> Prop) :
  (forall sp, src_e <> ANY -> procs s1 !! _ENDPOINT_P src_e = Some sp ->
     RTS_ISSET sp RTS_NO_ENDPOINT = true -> P (inr EDEADSRCDST) s1) ->
  P (inl (src_slot src_e)) s1 ->
  wp (if src_e =? ANY then mret (inl ANY)
      else src_p ← okendpt src_e; sp ← getp src_p;
           mret (if RTS_ISSET sp RTS_NO_ENDPOINT then inr EDEADSRCDST else inl src_p)) P s1.
Proof using Hsrc.
  intros HD HS. unfold src_slot in HS. destruct (Z.eqb_spec src_e ANY) as [EA|NA]; [by apply wp_ret|].
  destruct Hsrc as [|[Hl _]]; [done|]. apply wp_bind, wp_okendpt; [done|].
  destruct (live_proc s1 src_e Hl) as (sp & Hsp & _). apply wp_bind. eapply wp_getp; [done|]. apply wp_ret.
  destruct (RTS_ISSET sp RTS_NO_ENDPOINT) eqn:E; [by eapply HD|done].
Qed.

(** When nothing can be received. *)
Lemma receive_wait_ok :
  nothing_available C c src_e pr nid ->
  wp (if negb (anyset flags NON_BLOCKING) then
        group ← deadlock RECEIVE c src_e;
        if negb (group =? 0) then mret ELOCKED
        else updp c (set_p_getfrom_e src_e);; RTS_SET c RTS_RECEIVING;; mret OK
      else mret ENOTREADY) outcome s1.
Proof using All.
  intros Hna. destruct (anyset flags NON_BLOCKING) eqn:Enb; cbn [negb]; [by apply wp_ret; constructor|].
  apply wp_bind. apply (deadlock_receive s1 Q C Hs1 Hi1 c src_e pr); try done.
  { intros Hns. destruct Hna as [|[_ ?]]; [congruence|done]. }
  intros r [(Hr & NA & Hw)|(-> & Hw)].
  - rewrite (proj2 (Z.eqb_neq _ _)) by done. apply wp_ret. by constructor.
  - cbn [negb Z.eqb]. apply (receive_block_ok s1 Q C Hs1 Hi1 c src_e pr); try done.
    intros s' Hs'. by constructor.
Qed.

Lemma mini_receive_ok : wp (mini_receive c src_e buf flags) outcome s.
Proof using All.
  pose proof receive_wait_ok as Hwait.
  unfold mini_receive. apply wp_bind. eapply wp_getp; [done|].
  apply wp_bind, wp_assert; [exact (f_equal negb Hdel)|]. apply wp_bind. eapply wp_updp_first; [done|].
  change (upd1 s c _) with s1. apply wp_bind, receive_source_ok.
  { intros sp NA Hsp Hne. apply wp_ret. by eapply ro_dead. }
  apply wp_bind. unfold receive_available. apply wp_bind. eapply wp_getp; [exact Hc1|].
  destruct (RTS_ISSET pr RTS_SENDING) eqn:Es; [apply wp_ret, Hwait; by left|].
  apply wp_bind. apply (receive_notify_ok s1 Q C Hs1 Hi1 c pr Hc1 Hcs Hdel Es Hrcv src_e _ nid i pv); [done| |].
  { intros s' Erp En Hs'. apply wp_ret. eapply notify_arrived; [exact Hs'|]. intros s'' Hs'' Hrep.
    by apply ro_notified. }
  intros Hnn. apply wp_bind. unfold receive_async. apply wp_bind. eapply wp_intro; [exact Hasyn|].
  change (NULL_PRIV_ID =? NULL_PRIV_ID) with true. apply wp_ret.
  apply (receive_queue_ok s1 Q C Hs1 Hi1 c pr Hc1 Hcs Hdel Es Hrcv); [done| |].
  - intros pre x post sp s' HC Hpre Hw Hx Hs'. eapply served_arrived; [exact Hs'| |].
    + intros ->. apply (ii_acyclic _ _ Hi1 c), tc_once. eapply sender_edge; [done|done|].
      rewrite HC. apply elem_of_app. right. left.
    + intros s'' Hs'' Hrep. by eapply (ro_message s1 C c src_e pr flags nid i pv pre x post sp).
  - intros Hnone. apply Hwait. right. done.
Qed.
End mini_receive.


(** ** An instance *)

Lemma noted_privs s c pr buf : privs (noted s c pr buf) = privs s.
Proof. done. Qed.

(** Processes 14 and 15 wait, in this order, to send to the running process 11. *)
Definition receiving_kernel : kstate :=
  set_umem {[ 64 := hello ]}
    (alter_proc 11 (set_p_caller_q (Some 14))
    (alter_proc 14 (fun pr => set_p_sendto_e 11 (set_p_q_link (Some 15) pr))
    (alter_proc 15 (set_p_sendto_e 11)
    (occupy 14 15 RTS_SENDING 7 5 None (occupy 15 15 RTS_SENDING 7 5 None demo_kernel))))).
Definition receiving_callers : list (Z * list Z) := [(11, [14; 15])].

Lemma receiving_kernel_sched : sched_invQ receiving_kernel (qof demo_queues) 0.
Proof. apply sched_check_ok. vm_compute. reflexivity. Qed.
Lemma receiving_kernel_ipc : ipc_inv (ivs receiving_kernel) (qof receiving_callers).
Proof.
  apply (ipc_check_ok _ _ (fun p => if p =? 0 then 0 else if p =? 11 then 1 else 2)).
  vm_compute. reflexivity.
Qed.

Definition sender_okb (sp : proc) (x : Z) : bool :=
  (p_nr sp =? x) && negb (RTS_ISSET sp RTS_SLOT_FREE) && negb (RTS_ISSET sp RTS_NO_ENDPOINT) &&
  negb (anyset (p_misc_flags sp) MF_SIG_DELAY) && negb (anyset (p_misc_flags sp) MF_DELIVERMSG) &&
  (negb (RTS_ISSET sp RTS_RECEIVING) || (p_getfrom_e sp =? p_sendto_e sp)).

Lemma sender_okb_ok sp x : sender_okb sp x = true -> sender_ok sp x.
Proof.
  unfold sender_okb. rewrite !andb_true_iff, orb_true_iff, !negb_true_iff, !Z.eqb_eq.
  intros (((((H1 & H2) & H3) & H4) & H5) & H6). split; try done. destruct H6; congruence.
Qed.

Lemma senders_okb_ok s C c l :
  C c = l -> forallb (fun x => match procs s !! x with Some sp => sender_okb sp x | None => false end) l = true ->
  senders_ok s C c.
Proof.
  intros <- Hf x Hx%list_elem_of_In. rewrite forallb_forall in Hf. specialize (Hf x Hx).
  destruct (procs s !! x) as [sp|]; [|done]. exists sp. split; [done|]. by apply sender_okb_ok.
Qed.

Section instance.
#[local] Existing Instance demo_env.

End instance.
