(* ===== verification/KSysProps.v ===== *)
(** * Properties of the kernel calls

    Scheduling parameters, forking, permissions of the synchronous calls and
    the send masks of privilege structures. *)

From S2P Require Import Prelude KTypes KSched KSchedFacts KIpc KSenda KCall KSys KIpcFacts KIpcSend KDemo KIpcProps.
#[local] Open Scope Z_scope.

(** ** Replacing the entry of a process that is not runnable *)

Lemma sched_invQ_blocked s Q k p pr pr' :
  sched_invQ s Q k -> procs s !! p = Some pr ->
  p_rts_flags pr <> 0 -> p_rts_flags pr' <> 0 ->
  proc_ok s p pr' -> (proc_ptr s = p -> has_priv s p pr') ->
  sched_invQ (upd1 s p pr') Q k.
Proof.
  intros ([T1 T2 T3] & Htot & [Q1 Q2] & Hr) Hp Hf Hf' Hok Hcur.
  assert (forall q, p ∉ Q q) as Hnq.
  { intros q (pr0 & Hp0 & Hrun & _)%Hr. unfold runnable in Hrun. congruence. }
  split_and!.
  - split.
    + intros x Hx. simpl. destruct (decide (x = p)) as [->|];
        [rewrite lookup_insert_eq; eauto | rewrite lookup_insert_ne by done; auto].
    + intros x prx. simpl. destruct (decide (x = p)) as [->|].
      * rewrite lookup_insert_eq. intros [= <-]. destruct Hok. by split.
      * rewrite lookup_insert_ne by done. intros Hx. destruct (T2 x prx Hx). by split.
    + destruct T3 as (pc & Hpc & Hpv). simpl. destruct (decide (proc_ptr s = p)) as [E|Hne].
      * rewrite E. exists pr'. rewrite lookup_insert_eq. split; [done|]. by apply Hcur.
      * exists pc. by rewrite lookup_insert_ne.
  - etransitivity; [exact Htot|]. apply zsum_ext. intros x _. unfold weight. simpl.
    destruct (decide (x = p)) as [->|]; [|by rewrite lookup_insert_ne].
    rewrite lookup_insert_eq, Hp. unfold proc_is_runnable.
    by rewrite !(proj2 (Z.eqb_neq _ 0)).
  - split.
    + intros q Hq. destruct (Q1 q Hq) as (Hs & Ht & Hnd). split_and!; [|done|done].
      eapply seg_frame; [|exact Hs]. intros x Hx. simpl. rewrite nx_insert_ne; [done|].
      intros ->. by apply (Hnq q).
    + intros q x Hx. destruct (Q2 q x Hx) as (Hsl & prx & Hprx & E). split; [done|].
      exists prx. simpl. rewrite lookup_insert_ne; [done|]. intros ->. by apply (Hnq q).
  - intros q x. rewrite (Hr q x). unfold ready_at, runnable. simpl.
    destruct (decide (x = p)) as [->|].
    + rewrite lookup_insert_eq. split; intros (prx & Hprx & Hrun & _); exfalso; congruence.
    + by rewrite lookup_insert_ne.
Qed.

(** Every entry keeps its privilege structure. *)
Definition keeps_privs (s s' : kstate) : Prop :=
  privs s' = privs s /\
  forall x prx, procs s !! x = Some prx ->
    exists prx', procs s' !! x = Some prx' /\ p_priv prx' = p_priv prx.

Lemma keeps_privs_trans s1 s2 s3 : keeps_privs s1 s2 -> keeps_privs s2 s3 -> keeps_privs s1 s3.
Proof.
  intros [E1 K1] [E2 K2]. split; [congruence|]. intros x p1 H1.
  destruct (K1 x p1 H1) as (p2 & H2 & F2). destruct (K2 x p2 H2) as (p3 & H3 & F3).
  exists p3. split; [done|congruence].
Qed.

Lemma keeps_privs_upd1 s p pr pr' :
  procs s !! p = Some pr -> p_priv pr' = p_priv pr -> keeps_privs s (upd1 s p pr').
Proof.
  intros Hp E. split; [done|]. intros x prx Hx. unfold upd1. simpl.
  destruct (decide (x = p)) as [->|].
  - rewrite lookup_insert_eq. exists pr'. split; [done|]. congruence.
  - rewrite lookup_insert_ne by done. eauto.
Qed.

Lemma keeps_privs_view s s' : view s' = view s -> keeps_privs s s'.
Proof.
  intros V. split; [by apply view_privs|]. intros x prx Hx.
  destruct (view_lookup s s' x prx V Hx) as (prx' & Hx' & Ee). exists prx'. split; [done|].
  exact (f_equal p_priv Ee).
Qed.

Lemma has_priv_kept s s' p pr pr' :
  keeps_privs s s' -> procs s !! p = Some pr -> procs s' !! p = Some pr' ->
  has_priv s p pr -> has_priv s' p pr'.
Proof.
  intros [E K] Hp Hp' (i & pv & Ei & Hpv & Hg). destruct (K p pr Hp) as (pr2 & Hp2 & E2).
  exists i, pv. rewrite E. split_and!; [congruence|done|done].
Qed.

(** ** Scheduling parameters *)

Section sched_proc.
Context `{KEnv} (s : kstate) (Q : Z -> list Z) (Hs : sched_invQ s Q 0).
Context (p : Z) (pr : proc) (Hp : procs s !! p = Some pr) (Hsl : p ∈ slots)
  (Hpv : has_priv s p pr).
Context (priority quantum cpu : Z).

(** The parameters the call is meant to accept. *)
Definition sched_args_ok : bool :=
  ((priority =? -1) || ((0 <=? priority) && (priority <? NR_SCHED_QUEUES))) &&
  ((quantum =? -1) || (1 <=? quantum)).

(** What the call does to the entry of the process. *)
Definition rescheduled (pr' : proc) : Prop :=
  p_priority pr' = (if priority =? -1 then p_priority pr else priority) /\
  p_quantum_size_ms pr' = (if quantum =? -1 then p_quantum_size_ms pr else quantum) /\
  p_cpu_time_left pr' = (if quantum =? -1 then p_cpu_time_left pr else ms_2_cpu_time quantum) /\
  clearf (p_rts_flags pr') RTS_PREEMPTED =
    clearf (clearf (p_rts_flags pr) RTS_NO_QUANTUM) RTS_PREEMPTED /\
  p_tickets pr' = p_tickets pr.

(** After the first two steps the process is not runnable. *)
Lemma stop_ok : wp (when (proc_is_runnable pr) (RTS_SET p RTS_NO_QUANTUM))
  (fun _ s' => exists Q' pr', sched_invQ s' Q' 0 /\ procs s' !! p = Some pr' /\
     p_rts_flags pr' <> 0 /\ has_priv s' p pr' /\
     clearf (p_rts_flags pr') RTS_NO_QUANTUM = clearf (p_rts_flags pr) RTS_NO_QUANTUM /\
     set_p_rts_flags 0 (ev pr') = set_p_rts_flags 0 (ev pr) /\ keeps_privs s s') s.
Proof using Hs Hp Hsl Hpv.
  apply wp_when; intros Hrun.
  2:{ exists Q, pr. split_and!; try done; [by apply Z.eqb_neq in Hrun|by apply keeps_privs_view]. }
  eapply wp_mono; [apply (RTS_SET_ok s Q 0 p pr); [done|lia|done]|].
  intros [] s' (V & F & Q' & Hs' & _).
  destruct (view_lookup _ s' p (set_p_rts_flags (setf (p_rts_flags pr) RTS_NO_QUANTUM) pr) V)
    as (pr' & Hp' & Ee); [apply lookup_insert_eq|].
  destruct (F p (set_p_rts_flags (setf (p_rts_flags pr) RTS_NO_QUANTUM) pr)) as (pr2 & Hp2 & Ef);
    [apply lookup_insert_eq|].
  assert (pr2 = pr') as -> by congruence. simpl in Ef.
  exists Q', pr'. split_and!; [done|done| | | | |].
  - rewrite Ef. by apply setf_nonzero.
  - eapply has_priv_ev; [|exact Ee|exact Hpv]. by apply view_privs in V.
  - by rewrite Ef, clearf_setf.
  - exact (f_equal (set_p_rts_flags 0) Ee).
  - eapply keeps_privs_trans; [|by apply keeps_privs_view]. by apply (keeps_privs_upd1 _ _ pr).
Qed.

Lemma sched_proc_ok :
  sched_args_ok = true ->
  wp (sched_proc p priority quantum cpu) (fun r s' => r = OK /\ sched_inv s' /\
    keeps_privs s s' /\ exists pr', procs s' !! p = Some pr' /\ rescheduled pr') s.
Proof using All.
  intros Hargs. unfold sched_args_ok, NR_SCHED_QUEUES in Hargs.
  rewrite andb_true_iff, !orb_true_iff, andb_true_iff, !Z.eqb_eq, !Z.leb_le, Z.ltb_lt in Hargs.
  destruct Hargs as [Hpr Hqu]. unfold sched_proc, TASK_Q, NR_SCHED_QUEUES.
  replace (_ || _) with false.
  2:{ symmetry. rewrite orb_false_iff, andb_false_iff, negb_false_iff, !Z.ltb_ge, Z.eqb_eq. lia. }
  replace (_ && _) with false.
  2:{ symmetry. rewrite andb_false_iff, negb_false_iff, !Z.ltb_ge, Z.eqb_eq. lia. }
  apply wp_bind. eapply wp_getp; [done|]. apply wp_bind. eapply wp_mono; [apply stop_ok|].
  intros [] s1 (Q1 & pr1 & Hs1 & Hp1 & Hf1 & Hpv1 & Ef1 & Ee1 & Kp1).
  apply wp_bind. eapply wp_getp; [done|]. unfold proc_is_runnable at 1.
  rewrite (proj2 (Z.eqb_neq _ 0)) by done. apply wp_bind, wp_ret.
  pose proof (f_equal p_quantum_size_ms Ee1) as G1. pose proof (f_equal p_cpu_time_left Ee1) as G2.
  pose proof (f_equal p_tickets Ee1) as G3. pose proof (f_equal p_priority Ee1) as G4.
  simpl in G1, G2, G3, G4.
  (* the priority *)
  set (pr2 := if priority =? -1 then pr1 else set_p_priority priority pr1).
  assert (sched_invQ (upd1 s1 p pr2) Q1 0 /\ has_priv (upd1 s1 p pr2) p pr2) as [Hs2 Hpv2].
  { unfold pr2. destruct (Z.eqb_spec priority (-1)); [|split; [|done]].
    - unfold upd1. rewrite insert_id, set_procs_id by done. done.
    - eapply sched_invQ_blocked; [done..| |done].
      destruct Hs1 as (Ht & _). destruct (to_proc _ Ht _ _ Hp1). split; try done.
      simpl. unfold NR_SCHED_QUEUES. lia. }
  apply wp_bind. apply wp_mono with (P := fun _ s' => s' = upd1 s1 p pr2).
  { unfold pr2. destruct (Z.eqb_spec priority (-1)); simpl.
    - apply wp_ret. unfold upd1. by rewrite insert_id, set_procs_id.
    - by eapply wp_updp_first. }
  intros [] ? ->.
  (* the quantum *)
  set (pr3 := if quantum =? -1 then pr2 else
    set_p_cpu_time_left (ms_2_cpu_time quantum) (set_p_quantum_size_ms quantum pr2)).
  assert (sched_key pr3 = sched_key pr2) as Ek by (unfold pr3; by destruct (quantum =? -1)).
  assert (sched_invQ (upd1 s1 p pr3) Q1 0) as Hs3.
  { rewrite <- (upd1_upd1 s1 p pr2 pr3). eapply sched_invQ_upd1; [apply upd1_lookup|done|done]. }
  apply wp_bind. apply wp_mono with (P := fun _ s' => s' = upd1 s1 p pr3).
  { unfold pr3. destruct (Z.eqb_spec quantum (-1)); simpl; [by apply wp_ret|].
    apply wp_bind. by apply wp_updp_again, wp_updp_again. }
  intros [] ? ->. pose proof Ek as [= _ K2 K3 K4 K5 _].
  assert (p_rts_flags pr2 = p_rts_flags pr1) as F2 by (unfold pr2; by destruct (priority =? -1)).
  apply wp_bind. eapply wp_mono.
  { apply (RTS_UNSET_ok _ Q1 p pr3 RTS_NO_QUANTUM); [done|done|apply upd1_lookup|].
    destruct Hpv2 as (i & pv & Ei & Hi). exists i, pv. rewrite K5. done. }
  intros [] s4 (V & Q4 & Hs4 & _). apply wp_ret. split; [done|]. split; [by exists Q4|]. split.
  { eapply keeps_privs_trans; [exact Kp1|].
    assert (p_priv pr3 = p_priv pr1) as E3.
    { rewrite K5. unfold pr2. by destruct (priority =? -1). }
    eapply keeps_privs_trans; [by apply (keeps_privs_upd1 _ p pr1 pr3)|].
    eapply keeps_privs_trans; [|by apply keeps_privs_view].
    apply (keeps_privs_upd1 _ _ pr3); [apply upd1_lookup|done]. }
  destruct (view_lookup _ s4 p (set_p_rts_flags (clearf (p_rts_flags pr3) RTS_NO_QUANTUM) pr3) V)
    as (pr4 & Hp4 & Ee4); [apply lookup_insert_eq|].
  exists pr4. split; [done|].
  pose proof (f_equal p_quantum_size_ms Ee4) as L1. pose proof (f_equal p_cpu_time_left Ee4) as L2.
  pose proof (f_equal p_tickets Ee4) as L3. pose proof (f_equal p_priority Ee4) as L4.
  pose proof (f_equal p_rts_flags Ee4) as L5. simpl in L1, L2, L3, L4, L5.
  unfold rescheduled. rewrite L1, L2, L3, L4, L5, K2, F2, Ef1.
  unfold pr3, pr2. destruct (quantum =? -1), (priority =? -1); simpl; split_and!; done.
Qed.

(** The checks of the code let one more queue number through. *)
Lemma sched_proc_bound :
  priority = NR_SCHED_QUEUES -> (quantum =? -1) || (1 <=? quantum) = true ->
  clearf (p_rts_flags pr) RTS_NO_QUANTUM = 0 ->
  sched_proc p priority quantum cpu s = Err OutOfBounds.
Proof using All.
  intros -> Hqu Hfl. unfold sched_proc, TASK_Q, NR_SCHED_QUEUES.
  change ((16 <? 0) && negb (16 =? -1) || (16 <? 16)) with false.
  replace ((quantum <? 1) && negb (quantum =? -1)) with false.
  2:{ symmetry. rewrite orb_true_iff, Z.eqb_eq, Z.leb_le in Hqu.
      rewrite andb_false_iff, negb_false_iff, !Z.ltb_ge, Z.eqb_eq. lia. }
  apply err_bind. eapply wp_getp; [done|]. apply err_bind. eapply wp_mono; [apply stop_ok|].
  intros [] s1 (Q1 & pr1 & _ & Hp1 & Hf1 & _ & Ef1 & _).
  apply err_bind. eapply wp_getp; [done|]. unfold proc_is_runnable at 1.
  rewrite (proj2 (Z.eqb_neq _ 0)) by done. apply err_bind, wp_ret.
  apply err_bind. eapply wp_updp_first; [done|].
  apply err_bind. apply wp_mono with (P := fun _ s' => exists pr3, s' = upd1 s1 p pr3 /\
    p_rts_flags pr3 = p_rts_flags pr1 /\ p_priority pr3 = NR_SCHED_QUEUES).
  { apply wp_when; intros _; [|by eexists]. apply wp_bind, wp_updp_again, wp_updp_again. by eexists. }
  intros [] ? (pr3 & -> & F3 & P3).
  unfold mbind at 1, M_bind at 1. unfold RTS_UNSET.
  erewrite err_bind; [done|]. eapply wp_getp; [apply upd1_lookup|].
  apply err_bind, wp_updp_again, err_bind. eapply wp_getp; [apply upd1_lookup|].
  unfold proc_is_runnable. cbn [p_rts_flags set_p_rts_flags]. rewrite F3, Ef1, Hfl.
  rewrite (proj2 (Z.eqb_neq _ 0)) by done. cbn [negb andb Z.eqb].
  unfold enqueue. apply err_bind. eapply wp_getp; [apply upd1_lookup|].
  cbn [p_priority set_p_rts_flags]. rewrite P3.
  apply err_bind, wp_assert; [done|]. apply err_bind, wp_assert; [done|]. done.
Qed.
End sched_proc.

Lemma sched_proc_all `{KEnv} s Q p pr priority quantum cpu :
  sched_invQ s Q 0 -> procs s !! p = Some pr -> p ∈ slots -> has_priv s p pr ->
  priority <> NR_SCHED_QUEUES ->
  wp (sched_proc p priority quantum cpu) (fun r s' =>
    keeps_privs s s' /\
    if sched_args_ok priority quantum
    then r = OK /\ sched_inv s' /\
         exists pr', procs s' !! p = Some pr' /\ rescheduled pr priority quantum pr'
    else r = EINVAL /\ s' = s) s.
Proof.
  intros Hs Hp Hsl Hpv Hne. destruct (sched_args_ok priority quantum) eqn:E.
  - eapply wp_mono; [by apply (sched_proc_ok s Q)|]. naive_solver.
  - unfold sched_args_ok in E. unfold sched_proc, TASK_Q.
    rewrite andb_false_iff, !orb_false_iff, andb_false_iff, !Z.eqb_neq, !Z.leb_gt, Z.ltb_ge in E.
    assert (keeps_privs s s) as Hk by by apply keeps_privs_view.
    destruct (((priority <? 0) && negb (priority =? -1)) || (NR_SCHED_QUEUES <? priority)) eqn:E1;
      [by apply wp_ret|].
    destruct ((quantum <? 1) && negb (quantum =? -1)) eqn:E2; [by apply wp_ret|]. exfalso.
    rewrite orb_false_iff, andb_false_iff, negb_false_iff, !Z.ltb_ge, Z.eqb_eq in E1.
    rewrite andb_false_iff, negb_false_iff, Z.ltb_ge, Z.eqb_eq in E2. lia.
Qed.

(** [sched_proc] with a priority of a queue (or -1 to keep it) and a quantum
    of at least a millisecond (or -1) succeeds: it sets both, makes the process
    eligible again and keeps the run queues and the ticket count consistent,
    wherever the process was queued before. Any other arguments but the
    priority NR_SCHED_QUEUES are refused with EINVAL and no effect. *)
Theorem sched_proc_contract `{KEnv} s Q p pr priority quantum cpu :
  sched_invQ s Q 0 -> procs s !! p = Some pr -> p ∈ slots -> has_priv s p pr ->
  priority <> NR_SCHED_QUEUES ->
  wp (sched_proc p priority quantum cpu) (fun r s' =>
    if sched_args_ok priority quantum
    then r = OK /\ sched_inv s' /\
         exists pr', procs s' !! p = Some pr' /\ rescheduled pr priority quantum pr'
    else r = EINVAL /\ s' = s) s.
Proof.
  intros Hs Hp Hsl Hpv Hne. eapply wp_mono; [by apply (sched_proc_all s Q p pr)|].
  intros r s' [_ Hr]. exact Hr.
Qed.

(** A priority equal to NR_SCHED_QUEUES passes the checks of [sched_proc]
    (which compares with [>]); for a process that nothing else blocks, [enqueue]
    then indexes the run queues out of bounds. *)
Theorem sched_proc_out_of_bounds `{KEnv} s Q p pr quantum cpu :
  sched_invQ s Q 0 -> procs s !! p = Some pr -> p ∈ slots -> has_priv s p pr ->
  (quantum =? -1) || (1 <=? quantum) = true ->
  clearf (p_rts_flags pr) RTS_NO_QUANTUM = 0 ->
  sched_proc p NR_SCHED_QUEUES quantum cpu s = Err OutOfBounds.
Proof. intros Hs Hp Hsl Hpv Hqu Hfl. by apply (sched_proc_bound s Q Hs p pr). Qed.

(** ** Fork *)

Lemma endpoint_P g p : -5 <= p < 256 -> _ENDPOINT_P (_ENDPOINT g p) = p.
Proof.
  intros Hp. unfold _ENDPOINT_P, _ENDPOINT, _ENDPOINT_GENERATION_SHIFT, MAX_NR_TASKS.
  change (_ENDPOINT_GENERATION_SIZE - 1) with (Z.ones 15). rewrite Z.land_ones by done.
  rewrite Z.shiftl_mul_pow2 by done. change (2 ^ 15) with 32768.
  replace (g * 32768 + p + 1023) with (p + 1023 + g * 32768) by lia.
  rewrite Z.mod_add by done. rewrite Z.mod_small by lia. lia.
Qed.

Lemma endpoint_G g p : -5 <= p < 256 -> _ENDPOINT_G (_ENDPOINT g p) = g.
Proof.
  intros Hp. unfold _ENDPOINT_G, _ENDPOINT, _ENDPOINT_GENERATION_SHIFT, MAX_NR_TASKS.
  rewrite Z.shiftr_div_pow2, Z.shiftl_mul_pow2 by done. change (2 ^ 15) with 32768.
  replace (g * 32768 + p + 1023) with (p + 1023 + g * 32768) by lia.
  rewrite Z.div_add by done. rewrite Z.div_small by lia. lia.
Qed.

(** The endpoint of the new process in a slot differs from the previous one. *)
Lemma next_generation_fresh e p :
  -5 <= p < 256 -> _ENDPOINT (next_generation e) p <> e.
Proof.
  intros Hp E. apply (f_equal _ENDPOINT_G) in E. rewrite endpoint_G in E by done.
  unfold next_generation in E. change _ENDPOINT_MAX_GENERATION with 65534 in E.
  destruct (Z.leb_spec 65534 (_ENDPOINT_G e + 1)); lia.
Qed.

Lemma RTS_ISSET_setf c f : RTS_ISSET (set_p_rts_flags (setf (p_rts_flags c) f) c) f = true.
Proof. apply (isset_setf (p_rts_flags c) f). Qed.

Lemma RTS_ISSET_setf_mono c f g i : RTS_ISSET c g = true ->
  RTS_ISSET (set_p_rts_flags (setf (p_rts_flags c) f) (set_p_priv i c)) g = true.
Proof. apply (isset_setf_mono (p_rts_flags c) f g). Qed.

(** The fields of the child that the later steps of [do_fork] keep. *)
Definition fork_key (pr : proc) :=
  (p_tickets pr, p_priority pr, p_endpoint pr, p_nr pr, p_retreg pr, p_caller_q pr, p_magic pr).

Lemma fork_key_ev pr pr' : ev pr' = ev pr -> fork_key pr' = fork_key pr.
Proof.
  intros E. unfold fork_key.
  pose proof (f_equal p_tickets E) as E1. pose proof (f_equal p_priority E) as E2.
  pose proof (f_equal p_endpoint E) as E3. pose proof (f_equal p_nr E) as E4.
  pose proof (f_equal p_retreg E) as E5. pose proof (f_equal p_caller_q E) as E6.
  pose proof (f_equal p_magic E) as E7. simpl in *. congruence.
Qed.

Section fork.
Context `{KEnv} (s0 : kstate) (par slot : Z) (rpp child : proc).
Context (Hne : par <> slot) (Hsl : slot ∈ slots) (Hslot : 0 <= slot).

(** Between the steps of [do_fork]: the child has its fields and no quantum. *)
Definition forking (s : kstate) : Prop :=
  (exists Q c, sched_invQ s Q 0 /\ procs s !! slot = Some c /\ has_priv s slot c /\
     RTS_ISSET c RTS_NO_QUANTUM = true /\ fork_key c = fork_key child) /\
  (exists pp, procs s !! par = Some pp /\ ev pp = ev rpp) /\ privs s = privs s0.

Lemma no_quantum_blocked c : RTS_ISSET c RTS_NO_QUANTUM = true -> p_rts_flags c <> 0.
Proof using Type. unfold RTS_ISSET. intros H0 E. rewrite E in H0. done. Qed.

Lemma forking_upd f s :
  (forall c, sched_key (f c) = sched_key c /\ fork_key (f c) = fork_key c) ->
  forking s -> wp (updp slot f) (fun _ => forking) s.
Proof using Hne.
  intros Hf ((Q & c & Hs & Hc & (i & pv & Ei & Hpv) & Hnq & Ek) & (pp & Hpp & Ee) & Epv).
  destruct (Hf c) as [E1 E2]. pose proof E1 as [= _ F1 _ _ F2 _].
  eapply wp_updp_first; [done|]. split_and!; [|exists pp|done].
  - exists Q, (f c). split_and!; [by apply (sched_invQ_upd1 _ _ _ _ c)|apply upd1_lookup| | |].
    + exists i, pv. rewrite F2. done.
    + unfold RTS_ISSET. by rewrite F1.
    + congruence.
  - unfold upd1. simpl. by rewrite lookup_insert_ne.
Qed.

(** A new entry for the child that stays without quantum. *)
Lemma forking_new s Q c c' :
  sched_invQ s Q 0 -> procs s !! slot = Some c -> p_rts_flags c <> 0 ->
  RTS_ISSET c' RTS_NO_QUANTUM = true -> fork_key c' = fork_key child ->
  p_magic c' = PMAGIC -> 0 <= p_priority c' < NR_SCHED_QUEUES -> 0 <= p_tickets c' <= 20 ->
  (exists i, p_priv c' = Some i /\ is_Some (privs s !! i)) ->
  (exists pp, procs s !! par = Some pp /\ ev pp = ev rpp) -> privs s = privs s0 ->
  forking (upd1 s slot c').
Proof using Hne Hsl Hslot.
  intros Hs Hc Hfl Hnq Ek Hm Hprio Htk (i & Ei & pv & Hpv) (pp & Hpp & Ee) Epv.
  assert (has_priv s slot c') as Hhp.
  { exists i, pv. split_and!; [done..|]. intros Hk. apply Z.ltb_lt in Hk. lia. }
  split_and!; [|exists pp; split; [|done]|done].
  - exists Q, c'. split_and!; [|apply upd1_lookup|done..].
    eapply sched_invQ_blocked; [done..|by apply no_quantum_blocked| |done]. by split.
  - unfold upd1. simpl. by rewrite lookup_insert_ne.
Qed.

Lemma parent_kept s s1 c fl :
  view s1 = view (with_flags s slot c fl) ->
  (exists pp, procs s !! par = Some pp /\ ev pp = ev rpp) ->
  exists pp, procs s1 !! par = Some pp /\ ev pp = ev rpp.
Proof using Hne.
  intros V (pp & Hpp & Ee). destruct (view_lookup _ s1 par pp V) as (pp1 & Hpp1 & Ee1).
  - unfold with_flags. simpl. by rewrite lookup_insert_ne.
  - exists pp1. split; [done|]. by etransitivity.
Qed.

Lemma forking_set f s :
  forking s -> wp (RTS_SET slot f) (fun _ => forking) s.
Proof using Hne.
  intros ((Q & c & Hs & Hc & Hpv & Hnq & Ek) & Hpar & Epv).
  eapply wp_mono; [apply (RTS_SET_ok s Q 0 slot c); [done|lia|done]|].
  intros [] s1 (V & _ & Q1 & Hs1 & _).
  destruct (view_lookup _ s1 slot (set_p_rts_flags (setf (p_rts_flags c) f) c) V)
    as (c1 & Hc1 & Ee1); [apply lookup_insert_eq|].
  split_and!; [|by eapply parent_kept|by apply view_privs in V; rewrite V].
  exists Q1, c1. split_and!; [done|done| | |].
  - eapply has_priv_ev; [|exact Ee1|exact Hpv]. by apply view_privs in V.
  - rewrite (isset_ev _ _ _ Ee1) by done. by apply isset_setf_mono.
  - by rewrite (fork_key_ev _ _ Ee1).
Qed.

Lemma forking_unset f s :
  Z.land RTS_NO_QUANTUM f = 0 -> forking s ->
  wp (RTS_UNSET slot f) (fun _ s' => forking s' /\
    (forall n, Z.testbit f n = true -> Z.testbit RTS_PREEMPTED n = false -> exists c,
       procs s' !! slot = Some c /\ Z.testbit (p_rts_flags c) n = false)) s.
Proof using Hne Hsl.
  intros Hf ((Q & c & Hs & Hc & Hpv & Hnq & Ek) & Hpar & Epv).
  eapply wp_mono; [apply (RTS_UNSET_ok s Q slot c); done|].
  intros [] s1 (V & Q1 & Hs1 & _).
  destruct (view_lookup _ s1 slot (set_p_rts_flags (clearf (p_rts_flags c) f) c) V)
    as (c1 & Hc1 & Ee1); [apply lookup_insert_eq|].
  split.
  - split_and!; [|by eapply parent_kept|by apply view_privs in V; rewrite V].
    exists Q1, c1. split_and!; [done|done| | |].
    + eapply has_priv_ev; [|exact Ee1|exact Hpv]. by apply view_privs in V.
    + rewrite (isset_ev _ _ _ Ee1) by done. unfold RTS_ISSET. simpl.
      by rewrite isset_clearf_disjoint.
    + by rewrite (fork_key_ev _ _ Ee1).
  - intros n Hn Hpn. exists c1. split; [done|].
    pose proof (f_equal (fun r => Z.testbit (p_rts_flags r) n) Ee1) as Eb. simpl in Eb.
    unfold clearf in Eb. rewrite !Z.ldiff_spec, Hpn, Hn in Eb. simpl in Eb.
    by rewrite !andb_true_r, andb_false_r in Eb.
Qed.
End fork.

Lemma fork_key_rts fl c : fork_key (set_p_rts_flags fl c) = fork_key c.
Proof. reflexivity. Qed.

Lemma fork_child_fields fl rpp slot g :
  let c := set_p_rts_flags fl (fork_child rpp slot g) in
  p_magic c = p_magic rpp /\ p_priority c = p_priority rpp /\ p_tickets c = p_tickets rpp /\
  p_priv c = p_priv rpp.
Proof. simpl. split_and!; reflexivity. Qed.

Lemma fork_child_key rpp slot g :
  fork_key (fork_child rpp slot g) =
  (p_tickets rpp, p_priority rpp, _ENDPOINT g slot, slot, 0, p_caller_q rpp, p_magic rpp).
Proof. reflexivity. Qed.

(** What the child is, from the parent's entry and the slot's old endpoint. *)
Definition fork_result (rpp rpc c : proc) (slot : Z) : Prop :=
  p_tickets c = p_tickets rpp /\ p_priority c = p_priority rpp /\
  p_endpoint c = _ENDPOINT (next_generation (p_endpoint rpc)) slot /\
  _ENDPOINT_P (p_endpoint c) = slot /\ p_endpoint c <> p_endpoint rpc /\
  p_nr c = slot /\ p_retreg c = 0 /\ p_pending c = 0 /\
  RTS_ISSET c RTS_NO_QUANTUM = true /\ RTS_ISSET c RTS_SIGNALED = false /\
  p_caller_q c = p_caller_q rpp.

Lemma fork_result_intro rpp rpc c slot :
  -5 <= slot < 256 ->
  p_tickets c = p_tickets rpp -> p_priority c = p_priority rpp ->
  p_endpoint c = _ENDPOINT (next_generation (p_endpoint rpc)) slot -> p_nr c = slot ->
  p_retreg c = 0 -> p_caller_q c = p_caller_q rpp -> RTS_ISSET c RTS_NO_QUANTUM = true ->
  Z.testbit (p_rts_flags c) 4 = false ->
  fork_result rpp rpc (set_p_pending 0 c) slot.
Proof.
  intros Hslot K1 K2 Eep K4 K5 K6 Hnq Hb. unfold fork_result.
  cbn [p_tickets p_priority p_endpoint p_nr p_retreg p_pending p_caller_q set_p_pending].
  rewrite Eep. split_and!; try done.
  - by apply endpoint_P.
  - by apply next_generation_fresh.
  - change (RTS_ISSET c RTS_SIGNALED = false). unfold RTS_ISSET, isset.
    by rewrite (land_bit _ _ 4), Hb.
Qed.

(** The parent and the slot are two slots of the table. *)
Lemma fork_slots s Q endpt slot rpp rpc :
  sched_invQ s Q 0 -> ep_ok s endpt = true -> procs s !! _ENDPOINT_P endpt = Some rpp ->
  RTS_ISSET rpp RTS_SLOT_FREE = false -> procs s !! slot = Some rpc -> p_rts_flags rpc = RTS_SLOT_FREE ->
  _ENDPOINT_P endpt <> slot /\ isemptyp rpp = false /\
  p_magic rpp = PMAGIC /\ 0 <= p_priority rpp < NR_SCHED_QUEUES /\ 0 <= p_tickets rpp <= 20 /\
  exists i pv, p_priv rpp = Some i /\ privs s !! i = Some pv.
Proof.
  intros (Ht & _) Hok Hpp Hnf Hc Hemp.
  assert (isokprocn (_ENDPOINT_P endpt) = true /\ isemptyp rpp = false) as [Hpn Hpe].
  { unfold ep_ok in Hok. rewrite Hpp in Hok.
    apply andb_true_iff in Hok as [? [?%negb_true_iff ?]%andb_true_iff]. done. }
  destruct (to_proc _ Ht _ _ Hpp) as [Pm _ Pprio Ptk Ppv]. destruct (Ppv Hnf) as (i & pv & Ei & Hpv & _).
  split_and!; try done; try lia.
  - intros E. rewrite E in Hpp. assert (rpp = rpc) as -> by congruence.
    unfold RTS_ISSET in Hnf. by rewrite Hemp in Hnf.
  - apply Pm. by apply isokprocn_slots.
  - by exists i, pv.
Qed.

Section fork_steps.
Context `{KEnv} (s : kstate) (par slot : Z) (rpp rpc : proc).
Context (Hne : par <> slot) (Hsl : slot ∈ slots) (Hslot : 0 <= slot).
Notation child := (fork_child rpp slot (next_generation (p_endpoint rpc))).
Notation stage := (forking s par slot rpp child).

(** The child without quantum. *)
Lemma fork_no_quantum_ok Q :
  sched_invQ s Q 0 -> procs s !! par = Some rpp -> procs s !! slot = Some rpc ->
  p_rts_flags rpc <> 0 -> p_rts_flags rpp <> 0 ->
  p_magic rpp = PMAGIC -> 0 <= p_priority rpp < NR_SCHED_QUEUES -> 0 <= p_tickets rpp <= 20 ->
  (exists i pv, p_priv rpp = Some i /\ privs s !! i = Some pv) ->
  wp (RTS_SET slot RTS_NO_QUANTUM) (fun _ => stage) (upd1 s slot child).
Proof using Hne Hsl Hslot.
  intros Hs Hpp Hc Hcf Hpf Hm Hprio Htk (i & pv & Ei & Hpv).
  unfold RTS_SET. apply wp_bind. eapply wp_getp; [apply upd1_lookup|].
  apply wp_bind, wp_updp_again, wp_bind. eapply wp_getp; [apply upd1_lookup|].
  rewrite (proj2 (Z.eqb_neq (p_rts_flags child) 0)) by exact Hpf. apply wp_ret.
  destruct (fork_child_fields (setf (p_rts_flags child) RTS_NO_QUANTUM) rpp slot
    (next_generation (p_endpoint rpc))) as (G1 & G2 & G3 & G4).
  apply (forking_new s par slot rpp child Hne Hsl Hslot s Q rpc).
  - exact Hs.
  - exact Hc.
  - exact Hcf.
  - apply RTS_ISSET_setf.
  - apply fork_key_rts.
  - by rewrite G1.
  - by rewrite G2.
  - by rewrite G3.
  - rewrite G4. exists i. split; [exact Ei|by exists pv].
  - by exists rpp.
  - reflexivity.
Qed.

(** The child of a system process gets the privileges of a user. *)
Lemma fork_user_priv_ok b s1 :
  stage s1 -> is_Some (privs s !! USER_PRIV_ID) ->
  wp (when b (updp slot (fun rpc => set_p_rts_flags (setf (p_rts_flags rpc) RTS_NO_PRIV)
                                      (set_p_priv (Some USER_PRIV_ID) rpc))))
    (fun _ => stage) s1.
Proof using Hne Hsl Hslot.
  intros Hf Hup. apply wp_when; intros _; [|done].
  destruct Hf as ((Q1 & c & Hs1 & Hc1 & _ & Hnq & Ek) & Hpar & Epv1).
  eapply wp_updp_first; [done|]. destruct (to_proc _ (proj1 Hs1) _ _ Hc1) as [Cm _ Cprio Ctk _].
  apply (forking_new s par slot rpp child Hne Hsl Hslot s1 Q1 c).
  - exact Hs1.
  - exact Hc1.
  - by apply no_quantum_blocked.
  - by apply RTS_ISSET_setf_mono.
  - exact Ek.
  - exact (Cm Hsl).
  - exact Cprio.
  - exact Ctk.
  - exists USER_PRIV_ID. rewrite Epv1. split; [reflexivity|exact Hup].
  - exact Hpar.
  - exact Epv1.
Qed.

(** The signals of the parent are not inherited; what the child then is. *)
Lemma fork_end_ok s1 c pp :
  slot < 256 -> stage s1 -> fork_key c = fork_key child -> p_delivermsg_vir pp = p_delivermsg_vir rpp ->
  wp (RTS_UNSET slot (Z.lor RTS_SIGNALED (Z.lor RTS_SIG_PENDING RTS_P_STOP));;
      updp slot (set_p_pending 0);;
      mret (OK, p_endpoint c, p_delivermsg_vir pp))
    (fun r s' => exists c, r = (OK, p_endpoint c, p_delivermsg_vir rpp) /\ procs s' !! slot = Some c /\
       fork_result rpp rpc c slot /\ sched_inv s' /\
       exists pp, procs s' !! par = Some pp /\ ev pp = ev rpp) s1.
Proof using Hne Hsl Hslot.
  intros Hlt Hf Ek Edel. apply wp_bind. eapply wp_mono; [by apply forking_unset|].
  intros [] s2 [Hf2 Hbits]. destruct (Hbits 4 eq_refl eq_refl) as (c1 & Hc1 & Hb). apply wp_bind.
  pose proof Hf2 as ((Q1 & c2 & Hs1 & Hc2 & Hpv1 & Hnq & Ek2) & (pp1 & Hpp1 & Ee2) & _).
  assert (c2 = c1) as -> by congruence.
  eapply wp_updp_first; [done|]. apply wp_ret. exists (set_p_pending 0 c1).
  rewrite fork_child_key in Ek, Ek2.
  injection Ek as K1 K2 K3 K4 K5 K6 K7. injection Ek2 as L1 L2 Eep L4 L5 L6 L7.
  split_and!.
  - simpl. by rewrite Edel, K3, Eep.
  - apply upd1_lookup.
  - apply fork_result_intro; try assumption. lia.
  - exists Q1. by apply (sched_invQ_upd1 _ _ _ _ c1).
  - exists pp1. split; [|done]. unfold upd1. simpl. by rewrite lookup_insert_ne.
Qed.
End fork_steps.

(** C6 [do_fork] for a live parent waiting for the process manager and a free
    slot: the child gets the parent's lottery tickets and priority, a fresh
    endpoint of its slot and return value 0, has no quantum, so it is on no run
    queue until the scheduler accepts it, and inherits no signal; run queues and
    ticket count stay consistent. (The copy of the parent's entry also includes
    the head of the parent's queue of callers.) *)
Theorem do_fork_contract `{KEnv} s Q endpt slot flags rpp rpc :
  sched_invQ s Q 0 -> ep_ok s endpt = true -> procs s !! _ENDPOINT_P endpt = Some rpp ->
  RTS_ISSET rpp RTS_SLOT_FREE = false -> RTS_ISSET rpp RTS_RECEIVING = true ->
  anyset (p_misc_flags rpp) MF_DELIVERMSG = false ->
  0 <= slot < NR_PROCS -> procs s !! slot = Some rpc -> isemptyp rpc = true ->
  is_Some (privs s !! USER_PRIV_ID) ->
  wp (do_fork endpt slot flags) (fun r s' => exists c,
    r = (OK, p_endpoint c, p_delivermsg_vir rpp) /\ procs s' !! slot = Some c /\
    fork_result rpp rpc c slot /\ sched_inv s' /\
    exists pp, procs s' !! _ENDPOINT_P endpt = Some pp /\ ev pp = ev rpp) s.
Proof.
  intros Hs Hok Hpp Hnf Hrec Hdel Hslot Hc Hemp Hup. unfold NR_PROCS in Hslot.
  assert (slot ∈ slots) as Hsl by (apply slot_range; lia).
  unfold isemptyp in Hemp. apply Z.eqb_eq in Hemp.
  destruct (fork_slots s Q endpt slot rpp rpc) as (Hne & Hpe & Pm & Pprio & Ptk & i & pv & Ei & Hpv); [done..|].
  set (par := _ENDPOINT_P endpt) in *.
  unfold do_fork. apply wp_bind. eapply wp_isokendpt_table; [exact Hs|]. rewrite Hok. cbn [negb].
  fold par. apply wp_bind. eapply wp_getp; [done|]. apply wp_bind. eapply wp_getp; [done|].
  rewrite Hpe. unfold isemptyp at 1. rewrite Hemp, Z.eqb_refl. cbn [orb negb].
  apply wp_bind, wp_assert; [by rewrite Hdel|]. rewrite Hrec. cbn [negb].
  apply wp_bind. eapply wp_updp_first; [done|]. apply wp_bind.
  eapply wp_mono.
  { apply (fork_no_quantum_ok s par slot rpp rpc Hne Hsl (proj1 Hslot) Q); try done.
    - by rewrite Hemp.
    - unfold RTS_ISSET in Hrec. intros E. by rewrite E in Hrec.
    - by exists i, pv. }
  intros [] s1 Hf. apply wp_bind.
  eapply wp_mono; [eapply forking_upd; [exact Hne| |exact Hf]; done|]. clear dependent s1.
  intros [] s1 Hf. apply wp_bind.
  eapply wp_mono; [eapply forking_upd; [exact Hne| |exact Hf]; done|]. clear dependent s1.
  intros [] s1 Hf. apply wp_bind. pose proof Hf as (_ & (pp & Hpp1 & Ee1) & Epv1).
  eapply wp_getpriv; [exact Hpp1|rewrite <- Ei; exact (f_equal p_priv Ee1)|by rewrite Epv1|].
  apply wp_bind. eapply wp_mono; [apply (fork_user_priv_ok s par slot rpp rpc Hne Hsl (proj1 Hslot)); [exact Hf|exact Hup]|].
  clear dependent s1 pp. intros [] s1 Hf.
  pose proof Hf as ((Q1 & c & _ & Hc1 & _ & _ & Ek) & (pp & Hpp1 & Ee1) & _).
  apply wp_bind. eapply wp_getp; [exact Hc1|]. apply wp_bind. eapply wp_getp; [exact Hpp1|].
  apply wp_bind. eapply wp_mono.
  { instantiate (1 := fun _ => forking s par slot rpp (fork_child rpp slot (next_generation (p_endpoint rpc)))).
    apply wp_when; intros _; [by apply forking_set|exact Hf]. }
  clear dependent s1 Q1. intros [] s1 Hf.
  apply (fork_end_ok s par slot rpp rpc Hne Hsl (proj1 Hslot)); [lia|exact Hf|exact Ek|exact (f_equal p_delivermsg_vir Ee1)].
Qed.

(** ** Permissions of the synchronous calls *)

(** The processes a call may name: any for RECEIVE, else one in the send mask. *)
Definition target_allowed (s : kstate) (pv : priv) (call_nr e : Z) : bool :=
  if e =? ANY then call_nr =? RECEIVE
  else
    ep_ok s e &&
    ((call_nr =? RECEIVE) ||
     match procs s !! _ENDPOINT_P e with
     | Some dpr =>
         match p_priv dpr ≫= (fun j => privs s !! j) with
         | Some pvd => get_sys_bit (s_ipc_to pv) (s_id pvd)
         | None => false
         end
     | None => false
     end) &&
    ((call_nr =? SENDREC) || (call_nr =? RECEIVE) || negb (iskerneln (_ENDPOINT_P e))).

(** What the privileges [pv] of the caller permit. *)
Definition ipc_permitted (s : kstate) (pv : priv) (call_nr e : Z) : bool :=
  bool_decide (call_nr ∈ [SEND; RECEIVE; SENDREC; NOTIFY; SENDNB; SENDA]) &&
  Z.testbit (s_trap_mask pv) call_nr && target_allowed s pv call_nr e.

Definition denial (r : ecode) : Prop := r ∈ [ETRAPDENIED; EINVAL; EDEADSRCDST; ECALLDENIED].

Lemma sync_ipc_check_ok `{KEnv} s Q c pr i pv call_nr e :
  sched_invQ s Q 0 -> procs s !! c = Some pr -> p_priv pr = Some i -> privs s !! i = Some pv ->
  (ep_ok s e = true -> live (ivs s) e) ->
  wp (sync_ipc_check c call_nr e) (fun r s' => s' = s /\
    match r with
    | inl x => x = (if e =? ANY then ANY else _ENDPOINT_P e) /\ ipc_permitted s pv call_nr e = true
    | inr err => ipc_permitted s pv call_nr e = false /\ denial err
    end) s.
Proof.
  intros Hs Hc Ei Hpv Hlive. unfold sync_ipc_check, ipc_permitted.
  destruct ((call_nr <? 0) || (SENDA <? call_nr) || (32 <=? call_nr) ||
            negb (ipc_call_named call_nr)) eqn:Enr.
  { apply wp_ret. split; [done|]. split; [|by constructor].
    rewrite bool_decide_eq_false_2; [done|]. intros Hin. revert Enr. unfold ipc_call_named.
    rewrite bool_decide_eq_true_2 by done. repeat (apply elem_of_cons in Hin as [->|Hin]); try done.
    by apply elem_of_nil in Hin. }
  apply orb_false_iff in Enr as [_ Enr%negb_false_iff]. unfold ipc_call_named in Enr.
  rewrite Enr. cbn [andb]. unfold target_allowed. apply wp_bind.
  destruct (Z.eqb_spec e ANY) as [->|Hany].
  { apply wp_ret. destruct (Z.eqb_spec call_nr RECEIVE) as [->|Hnr]; cbn [negb].
    - apply wp_bind. eapply wp_getpriv; [done..|]. apply wp_ret. split; [done|].
      destruct (Z.testbit (s_trap_mask pv) RECEIVE); cbn [negb]; [done|].
      split; [done|by constructor].
    - apply wp_ret. rewrite andb_false_r. split_and!; [done..|]. right. left. }
  apply wp_bind. eapply wp_isokendpt_table; [done|].
  destruct (ep_ok s e) eqn:Hok; cbn [negb].
  2:{ apply wp_ret, wp_ret. cbn [andb]. rewrite andb_false_r.
      split_and!; [done..|]. right. right. left. }
  specialize (Hlive eq_refl). destruct (live_proc s e Hlive) as (dpr & Hd & Hfree & _).
  destruct (po_priv _ _ _ (to_proc _ (proj1 Hs) _ _ Hd) Hfree) as (j & pvd & Ej & Hpvd & _).
  rewrite Hd, Ej. cbn [mbind option_bind]. rewrite Hpvd. cbn [andb].
  assert (forall may : bool, may = (call_nr =? RECEIVE) || get_sys_bit (s_ipc_to pv) (s_id pvd) ->
    wp (match (if negb may then inr ECALLDENIED else inl (_ENDPOINT_P e)) : Z + ecode with
        | inr e => mret (inr e)
        | inl src_dst_p =>
          pv ← getpriv c;
          mret (if negb (Z.testbit (s_trap_mask pv) call_nr) then inr ETRAPDENIED
              else if negb (call_nr =? SENDREC) && negb (call_nr =? RECEIVE) &&
                      iskerneln src_dst_p then inr ETRAPDENIED
              else inl src_dst_p)
        end) (fun r s' => s' = s /\
      match r with
      | inl x => x = _ENDPOINT_P e /\ Z.testbit (s_trap_mask pv) call_nr &&
         (may && ((call_nr =? SENDREC) || (call_nr =? RECEIVE) || negb (iskerneln (_ENDPOINT_P e)))) = true
      | inr err => Z.testbit (s_trap_mask pv) call_nr &&
         (may && ((call_nr =? SENDREC) || (call_nr =? RECEIVE) || negb (iskerneln (_ENDPOINT_P e)))) = false
         /\ denial err
      end) s) as Hrest.
  { intros [] _; cbn [negb].
    - apply wp_bind. eapply wp_getpriv; [done..|]. apply wp_ret.
      destruct (Z.testbit (s_trap_mask pv) call_nr); cbn [negb];
        [|split_and!; [done..|]; by constructor].
      destruct (call_nr =? SENDREC), (call_nr =? RECEIVE), (iskerneln (_ENDPOINT_P e));
        cbn [negb andb orb]; split_and!; try done; unfold denial; apply list_elem_of_In; simpl; tauto.
    - apply wp_ret. cbn [andb]. rewrite andb_false_r. split_and!; [done..|].
      right. right. right. left. }
  destruct (Z.eqb_spec call_nr RECEIVE) as [->|Hnr]; cbn [negb].
  - apply wp_ret. apply (Hrest true). done.
  - unfold may_send_to. apply wp_bind, wp_bind. eapply wp_getpriv; [done..|]. apply wp_bind.
    unfold nr_to_id. apply wp_bind. eapply wp_getpriv; [done..|]. apply wp_ret, wp_ret, wp_ret.
    cbn [orb]. by apply Hrest.
Qed.


(** ** Send masks *)

Section mask.
Context (rp i0 : Z) (pr : proc) (map0 : Z) (nrs : Z -> Z) (m0 : Z).
Context (Hid : 0 <= i0 < NR_SYS_PROCS) (Hpr : p_priv pr = Some i0).

(** The bits the loop has settled are those of [done]. *)
Definition masking (done : list Z) (s : kstate) : Prop :=
  procs s !! rp = Some pr /\
  (forall i, 0 <= i < NR_SYS_PROCS -> exists pv, privs s !! i = Some pv /\ s_id pv = i /\
     s_proc_nr pv = nrs i) /\
  exists pv, privs s !! i0 = Some pv /\ forall j, 0 <= j < NR_SYS_PROCS ->
    Z.testbit (s_ipc_to pv) j =
      if decide (j ∈ done) then Z.testbit map0 j && negb (nrs j =? NONE) && negb (j =? i0)
      else Z.testbit m0 j.

(** Updating the mask of the structure at [i]. *)
Lemma masking_upd i (f : Z -> Z) s done done' (P : unit -> kstate -> Prop) :
  0 <= i < NR_SYS_PROCS -> masking done s ->
  (i = i0 -> forall w, (forall j, 0 <= j < NR_SYS_PROCS -> Z.testbit w j =
      if decide (j ∈ done) then Z.testbit map0 j && negb (nrs j =? NONE) && negb (j =? i0)
      else Z.testbit m0 j) -> forall j, 0 <= j < NR_SYS_PROCS -> Z.testbit (f w) j =
      if decide (j ∈ done') then Z.testbit map0 j && negb (nrs j =? NONE) && negb (j =? i0)
      else Z.testbit m0 j) ->
  (i <> i0 -> forall j, 0 <= j < NR_SYS_PROCS -> j ∈ done <-> j ∈ done') ->
  (forall s', masking done' s' -> P tt s') ->
  wp (upd_privs i (fun pv => set_s_ipc_to (f (s_ipc_to pv)) pv)) P s.
Proof using Hid.
  intros Hi (Hp & Hall & pv0 & Hpv0 & Hbits) H1 H2 HP.
  destruct (Hall i Hi) as (pv & Hpv & Epv & Enr). eapply wp_upd_privs; [done|]. apply HP.
  split_and!; [done| |].
  - intros k Hk. simpl. destruct (decide (k = i)) as [->|].
    + eexists. by rewrite lookup_insert_eq.
    + rewrite lookup_insert_ne by done. auto.
  - simpl. destruct (decide (i0 = i)) as [<-|Hne].
    + assert (pv0 = pv) as -> by congruence. eexists. rewrite lookup_insert_eq.
      split; [done|]. by apply H1.
    + exists pv0. rewrite lookup_insert_ne by done. split; [done|]. intros j Hj.
      rewrite Hbits by done. destruct (H2 ltac:(done) j Hj) as [D1 D2].
      destruct (decide (j ∈ done)), (decide (j ∈ done')); tauto.
Qed.

Lemma masking_ext done done' s :
  (forall j, 0 <= j < NR_SYS_PROCS -> j ∈ done <-> j ∈ done') -> masking done s -> masking done' s.
Proof using Hid.
  intros Hd (Hp & Hall & pv0 & Hpv0 & Hbits). split_and!; [done..|]. exists pv0. split; [done|].
  intros j Hj. rewrite Hbits by done. destruct (Hd j Hj).
  destruct (decide (j ∈ done)), (decide (j ∈ done')); tauto.
Qed.

(** One bit of the caller's mask settled, the others untouched. *)
Lemma settle (b : bool) i done w :
  0 <= i < NR_SYS_PROCS -> i ∉ done ->
  b = Z.testbit map0 i && negb (nrs i =? NONE) && negb (i =? i0) ->
  (forall j, 0 <= j < NR_SYS_PROCS -> Z.testbit w j =
      if decide (j ∈ done) then Z.testbit map0 j && negb (nrs j =? NONE) && negb (j =? i0)
      else Z.testbit m0 j) ->
  forall j, 0 <= j < NR_SYS_PROCS ->
    Z.testbit (if b then set_sys_bit w i else unset_sys_bit w i) j =
      if decide (j ∈ done ++ [i])
      then Z.testbit map0 j && negb (nrs j =? NONE) && negb (j =? i0) else Z.testbit m0 j.
Proof using Hid.
  intros Hi Hnd Hb Hw j Hj. unfold set_sys_bit, unset_sys_bit.
  assert (Z.testbit (if b then Z.setbit w i else Z.clearbit w i) j =
          if j =? i then b else Z.testbit w j) as ->.
  { destruct b; [rewrite Z.setbit_eqb by lia|rewrite Z.clearbit_eqb];
      rewrite (Z.eqb_sym i j); by destruct (j =? i), (Z.testbit w j). }
  rewrite Hw by done. destruct (Z.eqb_spec j i) as [->|Hne].
  - rewrite decide_True; [done|]. apply elem_of_app. right. left.
  - destruct (decide (j ∈ done)) as [Hin|Hin].
    + rewrite decide_True; [done|]. apply elem_of_app. by left.
    + rewrite decide_False; [done|]. by intros [?|?%list_elem_of_singleton]%elem_of_app.
Qed.

Lemma wp_own_priv s done (P : priv -> kstate -> Prop) :
  masking done s -> (forall pv, privs s !! i0 = Some pv -> s_id pv = i0 -> P pv s) ->
  wp (getpriv rp) P s.
Proof using Hid Hpr.
  intros (Hp & Hall & _) HP. destruct (Hall i0 Hid) as (pv & Hpv & Eid & _).
  eapply wp_getpriv; [done..|]. by apply HP.
Qed.

Lemma wp_own_upd s f (P : unit -> kstate -> Prop) done :
  masking done s -> wp (upd_privs i0 f) P s -> wp (updpriv rp f) P s.
Proof using Hid Hpr.
  intros (Hp & _) HP. unfold updpriv, priv_ptr. apply wp_bind, wp_bind. eapply wp_getp; [done|].
  eapply wp_deref; [done|]. done.
Qed.

Lemma mask_step s i done :
  0 <= i < NR_SYS_PROCS -> i ∉ done -> masking done s ->
  wp (if get_sys_bit map0 i then set_sendto_bit rp i else unset_sendto_bit rp i)
     (fun _ => masking (done ++ [i])) s.
Proof using Hid Hpr.
  intros Hi Hnd Hm. pose proof Hm as (Hp & Hall & _). unfold get_sys_bit.
  destruct (Z.testbit map0 i) eqn:Eb.
  - unfold set_sendto_bit, id_to_nr. destruct (Hall i Hi) as (pvi & Hpvi & Eidi & Enri).
    apply wp_bind, wp_bind. eapply wp_get_privs; [done|]. apply wp_ret.
    apply wp_bind. eapply wp_own_priv; [done|]. intros pv Hpv Eid. rewrite Enri, Eid.
    destruct ((nrs i =? NONE) || (i0 =? i)) eqn:Ec.
    + eapply wp_own_upd; [done|]. apply (masking_upd i0 (fun w => unset_sys_bit w i) s done (done ++ [i])); [done|done| |by intros []|done].
      intros _ w Hw. apply (settle false); [done..| |done].
      rewrite Eb, (Z.eqb_sym i i0). by destruct (nrs i =? NONE), (i0 =? i).
    + apply orb_false_iff in Ec as [Ec1 Ec2].
      apply wp_bind. eapply wp_own_upd; [done|]. apply (masking_upd i0 (fun w => set_sys_bit w i) s done (done ++ [i])); [done|done| |by intros []|].
      { intros _ w Hw. apply (settle true); [done..| |done].
        by rewrite Eb, (Z.eqb_sym i i0), Ec1, Ec2. }
      intros s1 Hm1. pose proof Hm1 as (_ & Hall1 & _). destruct (Hall1 i Hi) as (pv1 & Hpv1 & _ & _).
      apply wp_bind. eapply wp_get_privs; [done|]. apply wp_when; intros _; [|done].
      apply Z.eqb_neq in Ec2.
      apply (masking_upd i (fun w => set_sys_bit w i0) s1 (done ++ [i]) (done ++ [i])); [done|exact Hm1| |done|done].
      intros ->. by destruct Ec2.
  - unfold unset_sendto_bit. apply wp_bind. eapply wp_own_priv; [done|]. intros pv Hpv Eid.
    apply wp_bind. eapply wp_own_upd; [done|]. apply (masking_upd i0 (fun w => unset_sys_bit w i) s done (done ++ [i])); [done|done| |by intros []|].
    { intros _ w Hw. apply (settle false); [done..| |done]. by rewrite Eb. }
    intros s1 Hm1. rewrite Eid.
    apply (masking_upd i (fun w => unset_sys_bit w i0) s1 (done ++ [i]) (done ++ [i])); [done|exact Hm1| |done|done].
    intros -> w Hw j Hj. unfold unset_sys_bit. rewrite Z.clearbit_eqb, (Z.eqb_sym i0 j), Hw by done.
    destruct (Z.eqb_spec j i0) as [->|]; [|by rewrite andb_true_r].
    rewrite andb_false_r. rewrite decide_True; [|apply elem_of_app; right; left].
    by rewrite Eb.
Qed.

Lemma mask_loop l done s :
  NoDup (done ++ l) -> (forall i, i ∈ l -> 0 <= i < NR_SYS_PROCS) -> masking done s ->
  wp (foreach l (fun i => if get_sys_bit map0 i then set_sendto_bit rp i else unset_sendto_bit rp i))
     (fun _ => masking (done ++ l)) s.
Proof using Hid Hpr.
  revert done s. induction l as [|i l IH]; intros done s Hnd Hl Hm.
  { rewrite app_nil_r. by apply wp_ret. }
  cbn [foreach]. apply wp_bind. eapply wp_mono.
  { apply mask_step; [apply Hl; left| |exact Hm]. apply NoDup_app in Hnd as (_ & Hd & _).
    intros Hi. apply (Hd i Hi). left. }
  intros [] s1 Hm1. replace (done ++ i :: l) with ((done ++ [i]) ++ l) in * by by rewrite <- app_assoc.
  apply IH; [done| |done]. intros j Hj. apply Hl. by right.
Qed.
End mask.

(** [fill_sendto_mask] leaves in the send mask exactly the privilege ids that
    the given map allows, that belong to a process, and that are not the
    caller's own: no process is ever allowed to send to itself. *)
Theorem fill_sendto_mask_exact s rp pr i0 map :
  procs s !! rp = Some pr -> p_priv pr = Some i0 -> 0 <= i0 < NR_SYS_PROCS ->
  (forall i, 0 <= i < NR_SYS_PROCS -> exists pv, privs s !! i = Some pv /\ s_id pv = i) ->
  wp (fill_sendto_mask rp map) (fun _ s' => exists pv', privs s' !! i0 = Some pv' /\
    forall j, 0 <= j < NR_SYS_PROCS -> Z.testbit (s_ipc_to pv') j =
      Z.testbit map j && negb (j =? i0) &&
      match privs s !! j with Some pv => negb (s_proc_nr pv =? NONE) | None => false end) s.
Proof.
  intros Hp Hpr Hid Hall.
  set (nrs := fun j => match privs s !! j with Some pv => s_proc_nr pv | None => NONE end).
  destruct (Hall i0 Hid) as (pv & Hpv & _).
  eapply wp_mono.
  { apply (mask_loop rp i0 pr map nrs (s_ipc_to pv) Hid Hpr (seqZ 0 NR_SYS_PROCS) []).
    - apply NoDup_seqZ.
    - intros i Hi. apply elem_of_seqZ in Hi. lia.
    - split_and!; [done| |exists pv; done].
      intros i Hi. destruct (Hall i Hi) as (pvi & Hpvi & Eid). exists pvi. split_and!; [done..|].
      unfold nrs. by rewrite Hpvi. }
  intros [] s' (_ & _ & pv' & Hpv' & Hbits). exists pv'. split; [done|]. intros j Hj.
  rewrite Hbits by done. rewrite decide_True by (apply elem_of_seqZ; lia).
  unfold nrs. destruct (Hall j Hj) as (pvj & -> & _).
  by destruct (Z.testbit map j), (s_proc_nr pvj =? NONE), (j =? i0).
Qed.

(** ** Instances *)

#[local] Existing Instance demo_env.

(** Process 13, which waits for PM, forks into slot 20. *)
Lemma do_fork_contract_witness :
  wp (do_fork 13 20 0) (fun r s' => exists c,
    r = (OK, p_endpoint c, p_delivermsg_vir (entry demo_kernel 13)) /\ procs s' !! 20 = Some c /\
    fork_result (entry demo_kernel 13) (entry demo_kernel 20) c 20 /\ sched_inv s' /\
    exists pp, procs s' !! 13 = Some pp /\ ev pp = ev (entry demo_kernel 13)) demo_kernel.
Proof.
  apply (do_fork_contract demo_kernel (qof demo_queues) 13 20 0).
  - exact demo_inv.
  - vm_compute. reflexivity.
  - apply (entry_lookup demo_kernel 13). vm_compute. reflexivity.
  - vm_compute. reflexivity.
  - vm_compute. reflexivity.
  - vm_compute. reflexivity.
  - unfold NR_PROCS. lia.
  - apply entry_lookup. vm_compute. reflexivity.
  - vm_compute. reflexivity.
  - apply (bool_decide_unpack (is_Some _)). vm_compute. exact I.
Defined.


Lemma privs_checked s :
  forallb (fun i => match privs s !! i with Some pv => s_id pv =? i | None => false end)
    (seqZ 0 NR_SYS_PROCS) = true ->
  forall i, 0 <= i < NR_SYS_PROCS -> exists pv, privs s !! i = Some pv /\ s_id pv = i.
Proof.
  rewrite forallb_forall. intros Hall i Hi. specialize (Hall i).
  rewrite <- list_elem_of_In, elem_of_seqZ in Hall. specialize (Hall ltac:(lia)).
  destruct (privs s !! i) as [pv|]; [|done]. exists pv. split; [done|]. by apply Z.eqb_eq.
Qed.

(** The map allows the ids 5 (PM), 15 (the caller's own) and 20 (free). *)
Lemma fill_sendto_mask_exact_witness :
  wp (fill_sendto_mask 11 (2 ^ 5 + 2 ^ 15 + 2 ^ 20)) (fun _ s' => exists pv',
    privs s' !! 15 = Some pv' /\ Z.testbit (s_ipc_to pv') 5 = true /\
    Z.testbit (s_ipc_to pv') 15 = false /\ Z.testbit (s_ipc_to pv') 20 = false) demo_kernel.
Proof.
  eapply wp_mono.
  - apply (fill_sendto_mask_exact demo_kernel 11 (entry demo_kernel 11) 15 (2 ^ 5 + 2 ^ 15 + 2 ^ 20)).
    + apply entry_lookup. vm_compute. reflexivity.
    + vm_compute. reflexivity.
    + unfold NR_SYS_PROCS. lia.
    + apply privs_checked. vm_compute. reflexivity.
  - intros [] s' (pv' & Hpv & Hb). exists pv'. split; [exact Hpv|].
    rewrite (Hb 5), (Hb 15), (Hb 20) by (unfold NR_SYS_PROCS; lia). vm_compute. auto.
Defined.
