(* ===== verification/SchedServer.v ===== *)
(** * The user-space scheduler (servers/sched)

    The table of scheduled processes, the requests of PM and RS, the messages of
    the kernel about processes out of quantum, and the periodic rebalancing. The
    kernel is an interface, the class [SchedKernel]: the two kernel calls SCHED
    makes, with what they promise in [SchedKernelLaws]. *)

From S2P Require Import Prelude KTypes.
#[local] Open Scope Z_scope.

(** ** The interface to the kernel *)

Class SchedKernel (W : Type) := {
  sys_schedule : Z -> Z -> Z -> Z -> M W ecode;        (* endpoint, priority, quantum, cpu *)
  sys_schedctl : Z -> Z -> Z -> Z -> Z -> M W ecode;   (* flags, endpoint, priority, quantum, cpu *)
  sys_hz : Z;
}.

(** A priority the kernel can queue a process at, or -1 to keep it. *)
Definition prio_arg (p : Z) : Prop := p = -1 \/ 0 <= p < NR_SCHED_QUEUES.

(** The kernel keeps an invariant [k_inv], and goes on knowing the endpoints it
    knows, when it is asked to schedule a known process at such a priority; on
    one cpu, no cpu is bad. *)
Class SchedKernelLaws (W : Type) `{SchedKernel W} := {
  k_inv : W -> Prop;
  k_known : W -> Z -> Prop;
  sys_schedule_law : forall w e p q c, k_inv w -> k_known w e -> prio_arg p ->
    wp (sys_schedule e p q c) (fun r w' =>
      k_inv w' /\ (forall e', k_known w e' -> k_known w' e') /\ r <> EBADCPU) w;
  sys_schedctl_law : forall w e, k_inv w -> k_known w e ->
    wp (sys_schedctl 0 e 0 0 0) (fun r w' =>
      k_inv w' /\ (forall e', k_known w e' -> k_known w' e')) w;
}.

(** ** The table *)

Record schedproc := mk_schedproc {
  sp_endpoint : Z;
  sp_parent : Z;
  sp_flags : Z;
  max_priority : Z;   (* this process' highest allowed priority *)
  priority : Z;       (* the process' current priority *)
  time_slice : Z;
  cpu : Z;
}.

Definition IN_USE : Z := 1.
Definition in_use (p : schedproc) : bool := anyset (sp_flags p) IN_USE.

Definition set_identity (e par mp : Z) (p : schedproc) : schedproc :=
  mk_schedproc e par (sp_flags p) mp (priority p) (time_slice p) (cpu p).
Definition set_priority (v : Z) (p : schedproc) : schedproc :=
  mk_schedproc (sp_endpoint p) (sp_parent p) (sp_flags p) (max_priority p) v (time_slice p) (cpu p).
Definition set_max_priority (v : Z) (p : schedproc) : schedproc :=
  mk_schedproc (sp_endpoint p) (sp_parent p) (sp_flags p) v (priority p) (time_slice p) (cpu p).
Definition set_time_slice (v : Z) (p : schedproc) : schedproc :=
  mk_schedproc (sp_endpoint p) (sp_parent p) (sp_flags p) (max_priority p) (priority p) v (cpu p).
Definition set_flags (v : Z) (p : schedproc) : schedproc :=
  mk_schedproc (sp_endpoint p) (sp_parent p) v (max_priority p) (priority p) (time_slice p) (cpu p).
Definition set_cpu (v : Z) (p : schedproc) : schedproc :=
  mk_schedproc (sp_endpoint p) (sp_parent p) (sp_flags p) (max_priority p) (priority p) (time_slice p) v.

(** Messages: the source, the type and the fields of that type. *)
Inductive sched_body :=
| SchedulingStart (endpoint parent maxprio quantum : Z)
| SchedulingStop (endpoint : Z)
| SetNice (endpoint maxprio : Z)
| OtherBody.
Record sched_msg := mk_sched_msg { sm_source : Z; sm_type : Z; sm_body : sched_body }.

Definition SCHEDULING_BASE : Z := 0xF00.
Definition SCHEDULING_START : Z := SCHEDULING_BASE + 2.
Definition SCHEDULING_STOP : Z := SCHEDULING_BASE + 3.
Definition SCHEDULING_SET_NICE : Z := SCHEDULING_BASE + 4.
Definition SCHEDULING_INHERIT : Z := SCHEDULING_BASE + 5.
Definition CLOCK : Z := -3.
Definition USER_Q : Z := (MIN_USER_Q - MAX_USER_Q) / 2 + MAX_USER_Q.
Definition BALANCE_TIMEOUT : Z := 5.
Definition DEFAULT_USER_TIME_SLICE : Z := 200.
Definition CPU_DEAD : Z := -1.
Definition SCHEDULE_CHANGE_PRIO : Z := 1.
Definition SCHEDULE_CHANGE_QUANTUM : Z := 2.
Definition SCHEDULE_CHANGE_CPU : Z := 4.
Definition SCHEDULE_CHANGE_ALL : Z :=
  Z.lor SCHEDULE_CHANGE_PRIO (Z.lor SCHEDULE_CHANGE_QUANTUM SCHEDULE_CHANGE_CPU).

Section server.
Context {W : Type} `{SchedKernel W}.

(** The state of the server, with the kernel it talks to. *)
Record sstate := mk_sstate {
  table : list schedproc;        (* schedproc[NR_PROCS] *)
  cpu_proc : list Z;             (* cpu_proc[CONFIG_MAX_CPUS] *)
  sched_timer : option Z;        (* the timer for balance_queues, when set *)
  balance_timeout : Z;
  world : W;
}.

Definition with_table (t : list schedproc) (s : sstate) : sstate :=
  mk_sstate t (cpu_proc s) (sched_timer s) (balance_timeout s) (world s).
Definition with_cpu_proc (c : list Z) (s : sstate) : sstate :=
  mk_sstate (table s) c (sched_timer s) (balance_timeout s) (world s).
Definition with_timer (t : option Z) (s : sstate) : sstate :=
  mk_sstate (table s) (cpu_proc s) t (balance_timeout s) (world s).
Definition with_balance (b : Z) (s : sstate) : sstate :=
  mk_sstate (table s) (cpu_proc s) (sched_timer s) b (world s).
Definition with_world (w : W) (s : sstate) : sstate :=
  mk_sstate (table s) (cpu_proc s) (sched_timer s) (balance_timeout s) w.

Notation SM := (M sstate).

Definition kcall {A} (m : M W A) : SM A :=
  fun s => match m (world s) with Ok (a, w) => Ok (a, with_world w s) | Err e => Err e end.

Definition getslot (n : Z) : SM schedproc := t ← gets table; lift (aget t n).
Definition setslot (n : Z) (p : schedproc) : SM unit :=
  t ← gets table; t' ← lift (aset t n p); modify (with_table t').
Definition updslot (n : Z) (f : schedproc -> schedproc) : SM unit :=
  p ← getslot n; setslot n (f p).

(** ** utility.c *)

Definition no_sys (who_e call_nr : Z) : ecode := ENOSYS.

(** The error code, and the slot stored through the pointer. *)
Definition sched_isokendpt (endpoint : Z) : SM (ecode * Z) :=
  let proc := _ENDPOINT_P endpoint in
  if proc <? 0 then mret (EBADEPT, proc)
  else if NR_PROCS <=? proc then mret (EINVAL, proc)
  else
    p ← getslot proc;
    mret (if negb (endpoint =? sp_endpoint p) then (EDEADEPT, proc)
          else if negb (in_use p) then (EDEADEPT, proc) else (OK, proc)).

Definition sched_isemtyendpt (endpoint : Z) : SM (ecode * Z) :=
  let proc := _ENDPOINT_P endpoint in
  if proc <? 0 then mret (EBADEPT, proc)
  else if NR_PROCS <=? proc then mret (EINVAL, proc)
  else
    p ← getslot proc;
    mret (if in_use p then (EDEADEPT, proc) else (OK, proc)).

Definition accept_message (m : sched_msg) : bool :=
  (sm_source m =? PM_PROC_NR) || (sm_source m =? RS_PROC_NR).

(** ** schedule.c *)

(** On one cpu. *)
Definition pick_cpu (n : Z) : SM unit := updslot n (set_cpu 0).

Definition schedule_process (n flags : Z) : SM ecode :=
  pick_cpu n;;
  rmp ← getslot n;
  let new_prio := if anyset flags SCHEDULE_CHANGE_PRIO then i32 (priority rmp) else -1 in
  let new_quantum := if anyset flags SCHEDULE_CHANGE_QUANTUM then i32 (time_slice rmp) else -1 in
  let new_cpu := if anyset flags SCHEDULE_CHANGE_CPU then i32 (cpu rmp) else -1 in
  kcall (sys_schedule (sp_endpoint rmp) new_prio new_quantum new_cpu).

Definition schedule_process_local (n : Z) : SM ecode :=
  schedule_process n (Z.lor SCHEDULE_CHANGE_PRIO SCHEDULE_CHANGE_QUANTUM).

Definition do_noquantum (m : sched_msg) : SM ecode :=
  r ← sched_isokendpt (sm_source m);
  let '(rv, n) := (r : ecode * Z) in
  if negb (bool_decide (rv = OK)) then mret EBADEPT
  else
    rmp ← getslot n;
    when (priority rmp <? MIN_USER_Q) (updslot n (set_priority (u32 (priority rmp + 1))));;
    schedule_process_local n.

Definition do_stop_scheduling (m : sched_msg) : SM ecode :=
  if negb (accept_message m) then mret EPERM
  else
    match sm_body m with
    | SchedulingStop endpoint =>
        r ← sched_isokendpt endpoint;
        let '(rv, n) := (r : ecode * Z) in
        if negb (bool_decide (rv = OK)) then mret EBADEPT
        else updslot n (set_flags 0);; mret OK
    | _ => fail Uninit
    end.

(** [while ((rv = schedule_process(rmp, ...)) == EBADCPU)] *)
Fixpoint schedule_retry (fuel : nat) (n : Z) : SM ecode :=
  match fuel with
  | O => fail OutOfFuel
  | S fuel' =>
      rv ← schedule_process n SCHEDULE_CHANGE_ALL;
      if bool_decide (rv = EBADCPU) then
        rmp ← getslot n;
        cp ← gets cpu_proc;
        cp' ← lift (aset cp (cpu rmp) (u32 CPU_DEAD));
        modify (with_cpu_proc cp');;
        pick_cpu n;;
        schedule_retry fuel' n
      else mret rv
  end.

(** The priority and time slice of the new process, by the kind of request. *)
Definition start_values (type n parent quantum : Z) : SM ecode :=
  if type =? SCHEDULING_START then
    updslot n (fun p => set_time_slice (u32 quantum) (set_priority (max_priority p) p));;
    mret OK
  else if type =? SCHEDULING_INHERIT then
    r ← sched_isokendpt parent;
    let '(rv, par) := (r : ecode * Z) in
    if negb (bool_decide (rv = OK)) then mret rv
    else
      pp ← getslot par;
      updslot n (set_priority (priority pp));;
      pp ← getslot par;
      updslot n (set_time_slice (time_slice pp));;
      mret OK
  else fail AssertFail.

(** The reply's scheduler field is the second result. *)
Definition do_start_scheduling (fuel : nat) (m : sched_msg) : SM (ecode * option Z) :=
  c_assert ((sm_type m =? SCHEDULING_START) || (sm_type m =? SCHEDULING_INHERIT));;
  if negb (accept_message m) then mret (EPERM, None)
  else
    match sm_body m with
    | SchedulingStart endpoint parent maxprio quantum =>
        r ← sched_isemtyendpt endpoint;
        let '(rv, n) := (r : ecode * Z) in
        if negb (bool_decide (rv = OK)) then mret (rv, None)
        else
          updslot n (set_identity endpoint parent (u32 maxprio));;
          rmp ← getslot n;
          if NR_SCHED_QUEUES <=? max_priority rmp then mret (EINVAL, None)
          else
            when (sp_endpoint rmp =? sp_parent rmp)
              (updslot n (fun p => set_time_slice DEFAULT_USER_TIME_SLICE (set_priority USER_Q p)));;
            rv ← start_values (sm_type m) n parent quantum;
            if negb (bool_decide (rv = OK)) then mret (rv, None)
            else
              rv ← kcall (sys_schedctl 0 (sp_endpoint rmp) 0 0 0);
              if negb (bool_decide (rv = OK)) then mret (rv, None)
              else
                updslot n (set_flags IN_USE);;
                pick_cpu n;;
                rv ← schedule_retry fuel n;
                if negb (bool_decide (rv = OK)) then mret (rv, None)
                else mret (OK, Some SCHED_PROC_NR)
    | _ => fail Uninit
    end.

Definition do_nice (m : sched_msg) : SM ecode :=
  if negb (accept_message m) then mret EPERM
  else
    match sm_body m with
    | SetNice endpoint maxprio =>
        r ← sched_isokendpt endpoint;
        let '(rv, n) := (r : ecode * Z) in
        if negb (bool_decide (rv = OK)) then mret EBADEPT
        else
          let new_q := u32 maxprio in
          if NR_SCHED_QUEUES <=? new_q then mret EINVAL
          else
            rmp ← getslot n;
            let old_q := priority rmp in
            let old_max_q := max_priority rmp in
            updslot n (fun p => set_max_priority new_q (set_priority new_q p));;
            rv ← schedule_process_local n;
            when (negb (bool_decide (rv = OK)))
              (updslot n (fun p => set_max_priority old_max_q (set_priority old_q p)));;
            mret rv
    | _ => fail Uninit
    end.

(** One process of [balance_queues]. *)
Definition balance_one (n : Z) : SM unit :=
  rmp ← getslot n;
  when (in_use rmp && (max_priority rmp <? priority rmp))
    (updslot n (set_priority (u32 (priority rmp - 1)));;
     schedule_process_local n;;
     skip).

Definition balance_queues : SM unit :=
  foreach (seqZ 0 NR_PROCS) balance_one;;
  b ← gets balance_timeout;
  modify (with_timer (Some b)).

Definition init_scheduling : SM unit :=
  let b := u32 (BALANCE_TIMEOUT * sys_hz) in
  modify (with_balance b);;
  modify (with_timer (Some b)).

(** ** main.c: one message *)

(** [expire_timers] of the system library runs the timers that are due. *)
Context (expire_timers : Z -> SM unit).

(** The reply, if any: the result and the scheduler field. *)
Definition sched_dispatch (fuel : nat) (notify from_kernel : bool) (timestamp : Z) (m : sched_msg)
  : SM (option (ecode * option Z)) :=
  let reply (r : ecode * option Z) : SM (option (ecode * option Z)) :=
    mret (if bool_decide (fst r = SUSPEND) then None else Some r) in
  if notify then
    if sm_source m =? CLOCK then expire_timers timestamp;; mret None
    else reply (ENOSYS, None)
  else if (sm_type m =? SCHEDULING_INHERIT) || (sm_type m =? SCHEDULING_START) then
    r ← do_start_scheduling fuel m; reply r
  else if sm_type m =? SCHEDULING_STOP then
    r ← do_stop_scheduling m; reply (r, None)
  else if sm_type m =? SCHEDULING_SET_NICE then
    r ← do_nice m; reply (r, None)
  else if sm_type m =? SCHEDULING_NO_QUANTUM then
    if from_kernel then do_noquantum m;; mret None
    else reply (EPERM, None)
  else reply (no_sys (sm_source m) (sm_type m), None).

End server.
Arguments sstate : clear implicits.
