(* ===== verification/SchedKernel.v ===== *)
(** * The kernel behind the scheduler's interface

    The kernel calls [do_schedule] and [do_schedctl], made by SCHED, implement
    [SchedKernel] and obey [SchedKernelLaws] with the scheduling invariant. *)

From S2P Require Import Prelude KTypes KSched KSchedFacts KIpc KSenda KCall KSys KIpcFacts KIpcSend KDemo KIpcProps KSysProps SchedServer.
#[local] Open Scope Z_scope.

Section kernel.
Context `{KEnv} (hz : Z).

Definition kernel_sched : SchedKernel kstate := {|
  sys_schedule := do_schedule SCHED_PROC_NR;
  sys_schedctl := do_schedctl SCHED_PROC_NR;
  sys_hz := hz;
|}.

(** An endpoint of a slot that has a privilege structure. *)
Definition kernel_known (s : kstate) (e : Z) : Prop :=
  _ENDPOINT_P e ∈ slots ->
  exists pr, procs s !! _ENDPOINT_P e = Some pr /\ has_priv s (_ENDPOINT_P e) pr.

Lemma kernel_known_kept s s' e : keeps_privs s s' -> kernel_known s e -> kernel_known s' e.
Proof using Type.
  intros Hk Hkn Hsl. destruct (Hkn Hsl) as (pr & Hp & Hpv). pose proof Hk as [_ K].
  destruct (K _ pr Hp) as (pr' & Hp' & _). exists pr'. split; [done|].
  by eapply has_priv_kept.
Qed.

Lemma ep_ok_slot s e : ep_ok s e = true -> _ENDPOINT_P e ∈ slots.
Proof using Type. unfold ep_ok. intros [H0 _]%andb_true_iff. by apply isokprocn_slots. Qed.

Lemma do_schedule_law s e p q c :
  sched_inv s -> kernel_known s e -> prio_arg p ->
  wp (do_schedule SCHED_PROC_NR e p q c) (fun r s' =>
    sched_inv s' /\ (forall e', kernel_known s e' -> kernel_known s' e') /\ r <> EBADCPU) s.
Proof using Type.
  intros [Q Hs] Hk Hp. unfold do_schedule. apply wp_bind. eapply wp_isokendpt_table; [done|].
  destruct (ep_ok s e) eqn:Hok; cbn [negb].
  2:{ apply wp_ret. split_and!; [by exists Q|done|done]. }
  apply ep_ok_slot in Hok. destruct (Hk Hok) as (pr & Hpr & Hpv).
  apply wp_bind. eapply wp_getp; [done|]. destruct (negb _).
  { apply wp_ret. split_and!; [by exists Q|done|done]. }
  eapply wp_mono.
  { apply (sched_proc_all s Q _ pr); [done..|]. unfold prio_arg, NR_SCHED_QUEUES in *. lia. }
  intros r s' [Hkp Hr]. destruct (sched_args_ok p q).
  - destruct Hr as (-> & Hs' & _). split_and!; [done| |done]. intros e' He'.
    by eapply kernel_known_kept.
  - destruct Hr as [-> ->]. split_and!; [by exists Q|done|done].
Qed.

Lemma do_schedctl_law s e :
  sched_inv s -> kernel_known s e ->
  wp (do_schedctl SCHED_PROC_NR 0 e 0 0 0) (fun r s' =>
    sched_inv s' /\ (forall e', kernel_known s e' -> kernel_known s' e')) s.
Proof using Type.
  intros [Q Hs] Hk. unfold do_schedctl. change (negb (clearf (u32 0) SCHEDCTL_FLAG_KERNEL =? 0)) with false.
  apply wp_bind. eapply wp_isokendpt_table; [done|].
  destruct (ep_ok s e) eqn:Hok; cbn [negb].
  2:{ apply wp_ret. split_and!; [by exists Q|done]. }
  change (Z.land (u32 0) SCHEDCTL_FLAG_KERNEL =? SCHEDCTL_FLAG_KERNEL) with false.
  apply ep_ok_slot in Hok. destruct (Hk Hok) as (pr & Hpr & Hpv).
  apply wp_bind. eapply wp_updp_first; [done|]. apply wp_ret. split.
  - exists Q. by apply (sched_invQ_upd1 _ _ _ _ pr).
  - intros e'. apply kernel_known_kept. by apply (keeps_privs_upd1 _ _ pr).
Qed.

(** The kernel keeps what it promises to SCHED. *)
Definition kernel_sched_laws : @SchedKernelLaws kstate kernel_sched.
Proof.
  unshelve econstructor; [exact sched_inv | exact kernel_known | |].
  - intros w e p q c Hi Hk Hp. exact (do_schedule_law w e p q c Hi Hk Hp).
  - intros w e Hi Hk. exact (do_schedctl_law w e Hi Hk).
Defined.
End kernel.
