(* ===== verification/SchedServerProps.v ===== *)
(** * Properties of the user-space scheduler

    SCHED keeps its table and the kernel's scheduling invariant on every message;
    a refused change of the nice level is undone; rebalancing takes every
    process back to its best priority. *)

From S2P Require Import Prelude KTypes KSched KSchedFacts KIpc KSenda KCall KSys KIpcFacts KIpcSend KDemo KIpcProps KSysProps SchedServer SchedKernel.
#[local] Open Scope Z_scope.

Section props.
Context {W : Type} `{SK : SchedKernel W} {Laws : @SchedKernelLaws W SK}.
Implicit Types s : sstate W.

(** ** The invariant *)

Definition valid_prio (p : Z) : Prop := 0 <= p < NR_SCHED_QUEUES.

Definition slot_ok (w : W) (n : Z) (p : schedproc) : Prop :=
  in_use p = true ->
  valid_prio (priority p) /\ valid_prio (max_priority p) /\
  _ENDPOINT_P (sp_endpoint p) = n /\ k_known w (sp_endpoint p).

Record server_inv (s : sstate W) : Prop := {
  si_len : length (table s) = 256%nat;
  si_cpu : length (cpu_proc s) = 1%nat;
  si_kernel : k_inv (world s);
  si_slots : forall n p, table s !! n = Some p -> slot_ok (world s) (Z.of_nat n) p;
}.

(** ** Accesses to the table *)

Lemma wp_getslot s n p (Q : schedproc -> sstate W -> Prop) :
  0 <= n -> table s !! Z.to_nat n = Some p -> Q p s -> wp (getslot n) Q s.
Proof using Type.
  intros Hn Hp HQ. unfold getslot. apply wp_bind, wp_gets. eapply wp_lift; [|done].
  by apply aget_Ok.
Qed.

Lemma wp_setslot s n p p' (Q : unit -> sstate W -> Prop) :
  0 <= n -> table s !! Z.to_nat n = Some p ->
  Q tt (with_table (<[Z.to_nat n := p']> (table s)) s) -> wp (setslot n p') Q s.
Proof using Type.
  intros Hn Hp HQ. unfold setslot. apply wp_bind, wp_gets, wp_bind.
  pose proof (lookup_lt_Some _ _ _ Hp).
  eapply wp_lift; [unfold aset; by rewrite decide_True by lia|]. by apply wp_modify.
Qed.

Lemma wp_updslot s n p f (Q : unit -> sstate W -> Prop) :
  0 <= n -> table s !! Z.to_nat n = Some p ->
  Q tt (with_table (<[Z.to_nat n := f p]> (table s)) s) -> wp (updslot n f) Q s.
Proof using Type.
  intros Hn Hp HQ. unfold updslot. apply wp_bind. eapply wp_getslot; [done..|].
  by eapply wp_setslot.
Qed.

Lemma slot_exists s n : length (table s) = 256%nat -> 0 <= n < NR_PROCS ->
  exists p, table s !! Z.to_nat n = Some p.
Proof using Type.
  unfold NR_PROCS. intros Hl Hn. apply lookup_lt_is_Some. rewrite Hl. lia.
Qed.

(** ** Preservation of the invariant *)

(** The table with one slot changed and the kernel a step further. *)
Lemma server_inv_step s n p' w' :
  server_inv s -> k_inv w' -> (forall e, k_known (world s) e -> k_known w' e) -> 0 <= n ->
  slot_ok w' n p' ->
  server_inv (with_world w' (with_table (<[Z.to_nat n := p']> (table s)) s)).
Proof using Type.
  intros [H1 H2 H3 H4] Hw Hk Hn Hok. split; simpl; [|done|done|].
  - by rewrite length_insert.
  - intros m q Hq. apply list_lookup_insert_Some in Hq as [(<- & <- & _)|[Hne Hq]].
    + by rewrite Z2Nat.id.
    + intros Hu. destruct (H4 m q Hq Hu) as (? & ? & ? & ?). auto.
Qed.

Lemma server_inv_upd s n p' :
  server_inv s -> 0 <= n -> slot_ok (world s) n p' ->
  server_inv (with_table (<[Z.to_nat n := p']> (table s)) s).
Proof using Type.
  intros Hs Hn Hok. pose proof (server_inv_step s n p' (world s) Hs (si_kernel _ Hs)) as Hi.
  by destruct s; apply Hi.
Qed.

Lemma i32_prio p : valid_prio p -> i32 p = p.
Proof using Type. unfold valid_prio, NR_SCHED_QUEUES. intros Hp. apply i32_small. unfold INT_MIN, INT_MAX. lia. Qed.

(** A call to the kernel about the process of slot [n]. *)
Lemma schedule_process_ok s n p flags (Q : ecode -> sstate W -> Prop) :
  k_inv (world s) -> 0 <= n -> table s !! Z.to_nat n = Some p ->
  k_known (world s) (sp_endpoint p) -> valid_prio (priority p) ->
  (forall r w', k_inv w' -> (forall e, k_known (world s) e -> k_known w' e) -> r <> EBADCPU ->
     Q r (with_world w' (with_table (<[Z.to_nat n := set_cpu 0 p]> (table s)) s))) ->
  wp (schedule_process n flags) Q s.
Proof using Type.
  intros Hi Hn Hp Hkn Hpr HQ. unfold schedule_process, pick_cpu.
  apply wp_bind. eapply wp_updslot; [done..|].
  apply wp_bind. eapply wp_getslot; [done| |].
  { simpl. apply list_lookup_insert_eq. by apply lookup_lt_Some in Hp. }
  unfold kcall, wp. cbn [world with_table sp_endpoint set_cpu priority].
  match goal with |- context[sys_schedule ?e ?a ?b ?c ?w] =>
    pose proof (sys_schedule_law w e a b c Hi Hkn) as Hl end.
  unfold wp in Hl. destruct (sys_schedule _ _ _ _ _) as [[r w']|].
  - destruct Hl as (H1 & H2 & H3); [|by apply HQ].
    unfold prio_arg. destruct (anyset flags SCHEDULE_CHANGE_PRIO); [right|by left].
    by rewrite i32_prio.
  - apply Hl. unfold prio_arg. destruct (anyset flags SCHEDULE_CHANGE_PRIO); [right|by left].
    by rewrite i32_prio.
Qed.

(** The endpoint checks, on a table of the right size. *)
Lemma sched_isokendpt_ok s e (Q : ecode * Z -> sstate W -> Prop) :
  server_inv s ->
  (forall r, r <> OK -> Q (r, _ENDPOINT_P e) s) ->
  (forall p, 0 <= _ENDPOINT_P e < NR_PROCS -> table s !! Z.to_nat (_ENDPOINT_P e) = Some p ->
     sp_endpoint p = e -> in_use p = true -> Q (OK, _ENDPOINT_P e) s) ->
  wp (sched_isokendpt e) Q s.
Proof using Type.
  intros Hs Hbad Hok. unfold sched_isokendpt.
  destruct (Z.ltb_spec (_ENDPOINT_P e) 0); [by apply wp_ret, Hbad|].
  destruct (Z.leb_spec NR_PROCS (_ENDPOINT_P e)); [by apply wp_ret, Hbad|].
  destruct (slot_exists s (_ENDPOINT_P e) (si_len _ Hs)) as [p Hp]; [lia|].
  apply wp_bind. eapply wp_getslot; [lia|done|]. apply wp_ret.
  destruct (Z.eqb_spec e (sp_endpoint p)); cbn [negb]; [|by apply Hbad].
  destruct (in_use p) eqn:Hu; cbn [negb]; [|by apply Hbad]. by eapply Hok.
Qed.

Lemma slot_of s n p : server_inv s -> 0 <= n -> table s !! Z.to_nat n = Some p ->
  in_use p = true ->
  valid_prio (priority p) /\ valid_prio (max_priority p) /\
  _ENDPOINT_P (sp_endpoint p) = n /\ k_known (world s) (sp_endpoint p).
Proof using Type.
  intros Hs Hn Hp Hu. pose proof (si_slots _ Hs _ _ Hp Hu) as Hok. by rewrite Z2Nat.id in Hok.
Qed.

(** Scheduling a slot that is in use keeps the invariant. *)
Lemma reschedule_ok s n p flags :
  server_inv s -> 0 <= n -> table s !! Z.to_nat n = Some p -> in_use p = true ->
  wp (schedule_process n flags) (fun r s' => server_inv s' /\ r <> EBADCPU /\
    table s' = <[Z.to_nat n := set_cpu 0 p]> (table s) /\
    (forall e, k_known (world s) e -> k_known (world s') e)) s.
Proof using Type.
  intros Hs Hn Hp Hu. destruct (slot_of s n p Hs Hn Hp Hu) as (H1 & H2 & H3 & H4).
  eapply schedule_process_ok; [apply Hs|done|done|done|done|].
  intros r w' Hw Hk Hr. split_and!; [|done|done|done].
  apply server_inv_step; [done..|]. intros _. split_and!; [done..|]. by apply Hk.
Qed.

Lemma insert_same_lookup (t : list schedproc) n p q :
  t !! n = Some p -> <[n := q]> t !! n = Some q.
Proof using Type. intros Hp. apply list_lookup_insert_eq. by apply lookup_lt_Some in Hp. Qed.

Lemma u32_prio p : valid_prio p -> u32 p = p.
Proof using Type. unfold valid_prio, NR_SCHED_QUEUES, u32. intros Hp. apply Z.mod_small. lia. Qed.

Lemma do_noquantum_ok s m :
  server_inv s -> wp (do_noquantum m) (fun _ s' => server_inv s') s.
Proof using Type.
  intros Hs. unfold do_noquantum. apply wp_bind, sched_isokendpt_ok; [done| |].
  { intros r Hr. rewrite bool_decide_eq_false_2 by done. by apply wp_ret. }
  intros p Hn Hp He Hu. rewrite bool_decide_eq_true_2 by done. cbn [negb].
  destruct (slot_of s _ p Hs (proj1 Hn) Hp Hu) as (H1 & H2 & H3 & H4).
  apply wp_bind. eapply wp_getslot; [apply Hn|done|]. apply wp_bind.
  set (n := _ENDPOINT_P (sm_source m)) in *.
  apply wp_mono with (P := fun _ s' => server_inv s' /\ exists p', table s' !! Z.to_nat n = Some p' /\
    in_use p' = true).
  { apply wp_when; intros E; [|eauto].
    apply Z.ltb_lt in E. unfold MIN_USER_Q, NR_SCHED_QUEUES in E. unfold valid_prio in H1.
    assert (valid_prio (priority p + 1)) as Hv by (unfold valid_prio, NR_SCHED_QUEUES; lia).
    eapply wp_updslot; [apply Hn|done|]. split.
    - apply server_inv_upd; [done|apply Hn|]. intros _. simpl. rewrite u32_prio by done. done.
    - eexists. split; [by eapply insert_same_lookup|exact Hu]. }
  intros [] s' (Hs' & p' & Hp' & Hu'). unfold schedule_process_local.
  eapply wp_mono; [by eapply reschedule_ok; [|apply Hn|..]|]. by intros r s2 [? _].
Qed.

(** Messages carry the body of their type. *)
Definition stop_body (m : sched_msg) : Prop := exists e, sm_body m = SchedulingStop e.
Definition nice_body (m : sched_msg) : Prop := exists e mp, sm_body m = SetNice e mp.

Lemma do_stop_ok s m :
  server_inv s -> stop_body m -> wp (do_stop_scheduling m) (fun _ s' => server_inv s') s.
Proof using Type.
  intros Hs [e He]. unfold do_stop_scheduling. destruct (accept_message m); [|by apply wp_ret].
  cbn [negb]. rewrite He. apply wp_bind, sched_isokendpt_ok; [done| |].
  { intros r Hr. rewrite bool_decide_eq_false_2 by done. by apply wp_ret. }
  intros p Hn Hp _ _. rewrite bool_decide_eq_true_2 by done. cbn [negb].
  apply wp_bind. eapply wp_updslot; [apply Hn|done|]. apply wp_ret.
  apply server_inv_upd; [done|apply Hn|]. done.
Qed.

(** What a change of the nice level leaves in the table. *)
Lemma do_nice_ok s m e mp :
  server_inv s -> sm_body m = SetNice e mp ->
  wp (do_nice m) (fun r s' => server_inv s' /\
    let n := Z.to_nat (_ENDPOINT_P e) in
    if bool_decide (r = OK)
    then accept_message m = true /\ u32 mp < NR_SCHED_QUEUES /\
      exists p, table s !! n = Some p /\ in_use p = true /\ sp_endpoint p = e /\
        table s' = <[n := set_cpu 0 (set_max_priority (u32 mp) (set_priority (u32 mp) p))]> (table s)
    else table s' = table s \/
      exists p, table s !! n = Some p /\ table s' = <[n := set_cpu 0 p]> (table s)) s.
Proof using Type.
  intros Hs He. unfold do_nice. destruct (accept_message m) eqn:Hacc; cbn [negb];
    [|apply wp_ret; split; [done|by left]].
  rewrite He. apply wp_bind, sched_isokendpt_ok; [done| |].
  { intros r Hr. rewrite bool_decide_eq_false_2 by done. apply wp_ret. split; [done|by left]. }
  intros p Hn Hp Hep Hu. rewrite bool_decide_eq_true_2 by done. cbn [negb].
  destruct (Z.leb_spec NR_SCHED_QUEUES (u32 mp)) as [|Hlt];
    [apply wp_ret; split; [done|by left]|].
  destruct (slot_of s _ p Hs (proj1 Hn) Hp Hu) as (H1 & H2 & H3 & H4).
  assert (valid_prio (u32 mp)) as Hv.
  { unfold valid_prio. split; [|done]. apply Z.mod_pos_bound. done. }
  set (n := _ENDPOINT_P e) in *. apply wp_bind. eapply wp_getslot; [apply Hn|done|].
  apply wp_bind. eapply wp_updslot; [apply Hn|done|].
  set (p1 := set_max_priority (u32 mp) (set_priority (u32 mp) p)).
  set (s1 := with_table _ s).
  assert (server_inv s1) as Hs1.
  { apply server_inv_upd; [done|apply Hn|]. done. }
  assert (table s1 !! Z.to_nat n = Some p1) as Hp1 by by eapply insert_same_lookup.
  apply wp_bind. eapply wp_mono; [eapply reschedule_ok; [exact Hs1|apply Hn|exact Hp1|exact Hu]|].
  intros r s2 (Hs2 & _ & Ht2 & Hk2). apply wp_bind, wp_when; intros Er.
  - apply negb_true_iff in Er. apply bool_decide_eq_false in Er.
    assert (table s2 !! Z.to_nat n = Some (set_cpu 0 p1)) as Hp2.
    { rewrite Ht2. by eapply insert_same_lookup. }
    eapply wp_updslot; [apply Hn|done|]. apply wp_ret. split.
    + apply server_inv_upd; [done|apply Hn|]. intros _. split_and!; [done..|]. by apply Hk2.
    + rewrite bool_decide_eq_false_2 by done. right. exists p. split; [done|].
      simpl. rewrite Ht2. simpl. by rewrite !list_insert_insert_eq.
  - apply negb_false_iff in Er. apply bool_decide_eq_true in Er. apply wp_ret. split; [done|].
    rewrite bool_decide_eq_true_2 by done. split_and!; [done..|]. exists p. split_and!; [done..|].
    rewrite Ht2. simpl. by rewrite list_insert_insert_eq.
Qed.

(** ** Starting a process *)

(** The kinds of start requests. *)
Definition start_type (t : Z) : Prop := t = SCHEDULING_START \/ t = SCHEDULING_INHERIT.

Lemma start_values_ok s type n p parent q :
  server_inv s -> start_type type -> 0 <= n -> table s !! Z.to_nat n = Some p ->
  in_use p = false -> valid_prio (max_priority p) ->
  wp (start_values type n parent q) (fun r s' => server_inv s' /\ world s' = world s /\
    exists p', table s' !! Z.to_nat n = Some p' /\ in_use p' = false /\
      sp_endpoint p' = sp_endpoint p /\ max_priority p' = max_priority p /\
      (r = OK -> valid_prio (priority p'))) s.
Proof using Type.
  intros Hs Hty Hn Hp Hu Hm. assert (forall p', in_use p' = false -> slot_ok (world s) n p') as Hfree.
  { intros p' E. unfold slot_ok. congruence. }
  unfold start_values. destruct Hty as [->| ->].
  - rewrite Z.eqb_refl. apply wp_bind. eapply wp_updslot; [done..|]. apply wp_ret.
    split_and!; [by apply server_inv_upd; [| |apply Hfree]|done|].
    eexists. split_and!; [by eapply insert_same_lookup|done..].
  - change (SCHEDULING_INHERIT =? SCHEDULING_START) with false. rewrite Z.eqb_refl.
    apply wp_bind, sched_isokendpt_ok; [done| |].
    { intros r Hr. rewrite bool_decide_eq_false_2 by done. apply wp_ret. split_and!; [done..|].
      exists p. split_and!; done. }
    intros pp Hpn Hpp _ Hpu. rewrite bool_decide_eq_true_2 by done. cbn [negb].
    set (par := _ENDPOINT_P parent) in *.
    destruct (slot_of s par pp Hs (proj1 Hpn) Hpp Hpu) as (Hprio & _).
    apply wp_bind. eapply wp_getslot; [apply Hpn|done|].
    apply wp_bind. eapply wp_updslot; [done..|].
    set (s1 := with_table _ s).
    assert (server_inv s1) as Hs1 by by apply server_inv_upd; [| |apply Hfree].
    assert (exists pp1, table s1 !! Z.to_nat par = Some pp1) as [pp1 Hpp1].
    { apply slot_exists; [apply Hs1|done]. }
    apply wp_bind. eapply wp_getslot; [apply Hpn|done|].
    apply wp_bind. eapply wp_updslot; [done|by eapply insert_same_lookup|]. apply wp_ret.
    split_and!; [by apply server_inv_upd; [| |apply Hfree]|done|].
    eexists. split_and!; [simpl; rewrite list_insert_insert_eq; by eapply insert_same_lookup|done..].
Qed.

Lemma schedule_retry_ok s n p fuel :
  server_inv s -> 0 <= n -> table s !! Z.to_nat n = Some p -> in_use p = true -> (0 < fuel)%nat ->
  wp (schedule_retry fuel n) (fun _ s' => server_inv s') s.
Proof using Type.
  intros Hs Hn Hp Hu Hf. destruct fuel as [|fuel]; [lia|]. cbn [schedule_retry].
  apply wp_bind. eapply wp_mono; [by eapply reschedule_ok|].
  intros r s' (Hs' & Hr & _). rewrite bool_decide_eq_false_2 by done. by apply wp_ret.
Qed.

Lemma do_start_ok s fuel m e par mp q :
  server_inv s -> start_type (sm_type m) -> sm_body m = SchedulingStart e par mp q ->
  k_known (world s) e -> (0 < fuel)%nat ->
  wp (do_start_scheduling fuel m) (fun _ s' => server_inv s') s.
Proof using Type.
  intros Hs Hty Hb Hk Hf. unfold do_start_scheduling. apply wp_bind, wp_assert.
  { by destruct Hty as [->| ->]. }
  destruct (accept_message m); cbn [negb]; [|by apply wp_ret]. rewrite Hb.
  unfold sched_isemtyendpt. apply wp_bind. set (n := _ENDPOINT_P e).
  destruct (Z.ltb_spec n 0); [by apply wp_ret, wp_ret|].
  destruct (Z.leb_spec NR_PROCS n); [by apply wp_ret, wp_ret|].
  destruct (slot_exists s n (si_len _ Hs)) as [p Hp]; [lia|].
  apply wp_bind. eapply wp_getslot; [done..|]. apply wp_ret.
  destruct (in_use p) eqn:Hu; [by apply wp_ret|]. cbn [negb].
  rewrite bool_decide_eq_true_2 by done. cbn [negb].
  apply wp_bind. eapply wp_updslot; [done..|].
  set (p1 := set_identity e par (u32 mp) p). set (s1 := with_table _ s).
  assert (server_inv s1) as Hs1.
  { apply server_inv_upd; [done..|]. unfold slot_ok. change (in_use p1) with (in_use p). congruence. }
  assert (table s1 !! Z.to_nat n = Some p1) as Hp1 by by eapply insert_same_lookup.
  apply wp_bind. eapply wp_getslot; [done..|]. cbn [max_priority p1 set_identity].
  destruct (Z.leb_spec NR_SCHED_QUEUES (u32 mp)); [by apply wp_ret|].
  assert (valid_prio (u32 mp)) as Hv by (split; [by apply Z.mod_pos_bound|done]).
  apply wp_bind. apply wp_mono with (P := fun _ s' => server_inv s' /\ world s' = world s /\
    exists p', table s' !! Z.to_nat n = Some p' /\ in_use p' = false /\ sp_endpoint p' = e /\
      max_priority p' = u32 mp).
  { apply wp_when; intros _; [|split_and!; [done..|]; by exists p1].
    eapply wp_updslot; [done..|]. split_and!; [|done|].
    - apply server_inv_upd; [done..|]. unfold slot_ok. change (in_use _) with (in_use p). congruence.
    - eexists. split_and!; [by eapply insert_same_lookup|done..]. }
  intros [] s2 (Hs2 & Hw2 & p2 & Hp2 & Hu2 & He2 & Hm2). apply wp_bind.
  eapply wp_mono; [eapply (start_values_ok s2 _ n p2); [done..|by rewrite Hm2]|].
  intros r s3 (Hs3 & Hw3 & p3 & Hp3 & Hu3 & He3 & Hm3 & Hv3).
  case_bool_decide as Er; cbn [negb]; [|by apply wp_ret]. specialize (Hv3 Er).
  apply wp_bind. unfold kcall. unfold wp at 1. cbn [sp_endpoint p1 set_identity].
  assert (k_known (world s3) e) as Hk3 by by rewrite Hw3, Hw2.
  pose proof (sys_schedctl_law (world s3) e (si_kernel _ Hs3) Hk3) as Hl.
  unfold wp in Hl. destruct (sys_schedctl 0 e 0 0 0 (world s3)) as [[r4 w4]|]; [|done].
  destruct Hl as [Hw4 Hk4]. set (s4 := with_world w4 s3).
  assert (server_inv s4) as Hs4.
  { destruct Hs3 as [A1 A2 A3 A4]. split; [done..|]. intros k pk Hpk Huk.
    destruct (A4 k pk Hpk Huk) as (? & ? & ? & ?). split_and!; [done..|]. by apply Hk4. }
  case_bool_decide; cbn [negb]; [|by apply wp_ret].
  apply wp_bind. eapply wp_updslot; [done|exact Hp3|]. set (s5 := with_table _ s4).
  set (p5 := set_flags IN_USE p3).
  assert (slot_ok (world s4) n p5) as Hok5.
  { intros _. simpl. rewrite He3, He2, Hm3, Hm2. split_and!; [done..|]. by apply Hk4. }
  assert (server_inv s5) as Hs5 by by apply server_inv_upd.
  apply wp_bind. unfold pick_cpu. eapply wp_updslot; [done|by eapply insert_same_lookup|].
  set (s6 := with_table _ s5).
  assert (server_inv s6) as Hs6 by by apply server_inv_upd.
  apply wp_bind. eapply wp_mono.
  { apply (schedule_retry_ok s6 n (set_cpu 0 p5)); [done|done| |done|done].
    simpl. eapply insert_same_lookup. by eapply insert_same_lookup. }
  intros r7 s7 Hs7. case_bool_decide; by apply wp_ret.
Qed.

(** ** Rebalancing *)

(** One slot after a round. *)
Definition balanced (p : schedproc) : schedproc :=
  if in_use p && (max_priority p <? priority p)
  then set_cpu 0 (set_priority (priority p - 1) p) else p.

Lemma balance_one_ok s n :
  server_inv s -> 0 <= n < NR_PROCS ->
  wp (balance_one n) (fun _ s' => server_inv s' /\
    exists p, table s !! Z.to_nat n = Some p /\
      table s' = <[Z.to_nat n := balanced p]> (table s)) s.
Proof using Type.
  intros Hs Hn. destruct (slot_exists s n (si_len _ Hs) Hn) as [p Hp].
  unfold balance_one. apply wp_bind. eapply wp_getslot; [apply Hn|done|].
  apply wp_when; intros E.
  2:{ split; [done|]. exists p. split; [done|]. unfold balanced. by rewrite E, list_insert_id. }
  assert (balanced p = set_cpu 0 (set_priority (priority p - 1) p)) as Eb
    by (unfold balanced; by rewrite E).
  apply andb_true_iff in E as [Hu E%Z.ltb_lt].
  destruct (slot_of s n p Hs (proj1 Hn) Hp Hu) as (H1 & H2 & H3 & H4).
  assert (valid_prio (priority p - 1)) as Hv by (unfold valid_prio in *; lia).
  rewrite u32_prio by done. apply wp_bind. eapply wp_updslot; [apply Hn|done|].
  set (s1 := with_table _ s).
  assert (server_inv s1) as Hs1 by by apply server_inv_upd; [|apply Hn|].
  apply wp_bind. eapply wp_mono.
  { eapply reschedule_ok; [exact Hs1|apply Hn|by eapply insert_same_lookup|exact Hu]. }
  intros r s2 (Hs2 & _ & Ht & _). apply wp_ret. split; [done|]. exists p. split; [done|].
  rewrite Ht, Eb. simpl. by rewrite list_insert_insert_eq.
Qed.

Lemma balance_loop_ok s l (P : unit -> sstate W -> Prop) :
  server_inv s -> NoDup l -> (forall n, n ∈ l -> 0 <= n < NR_PROCS) ->
  (forall s', server_inv s' -> (forall n p, table s !! n = Some p ->
     table s' !! n = Some (if decide (Z.of_nat n ∈ l) then balanced p else p)) -> P tt s') ->
  wp (foreach l balance_one) P s.
Proof using Type.
  intros Hs Hnd. revert s P Hs. induction Hnd as [|x l Hx Hnd IH]; intros s P Hs Hl HP.
  { apply wp_ret. apply HP; [done|]. intros n p Hp. by rewrite decide_False by (by intros ?%elem_of_nil). }
  cbn [foreach]. apply wp_bind. eapply wp_mono; [apply balance_one_ok; [done|apply Hl; left]|].
  intros [] s1 (Hs1 & p1 & Hp1 & Ht1). apply IH; [done| |].
  { intros n Hn. apply Hl. by right. }
  intros s2 Hs2 Hall. apply HP; [done|]. intros n p Hp. specialize (Hl x ltac:(left)).
  destruct (decide (Z.of_nat n = x)) as [<-|Hne].
  - rewrite Nat2Z.id in Hp1. assert (p1 = p) as -> by congruence.
    rewrite (Hall n (balanced p)).
    + rewrite decide_False by done. rewrite decide_True by left. done.
    + rewrite Ht1, Nat2Z.id. by eapply insert_same_lookup.
  - rewrite (Hall n p).
    + destruct (decide (Z.of_nat n ∈ l)) as [Hin|Hin].
      * rewrite decide_True; [done|by right].
      * rewrite decide_False; [done|]. by intros [?|?]%elem_of_cons.
    + rewrite Ht1, list_lookup_insert_ne; [done|]. lia.
Qed.

Lemma balance_ok s :
  server_inv s -> wp balance_queues (fun _ s' => server_inv s' /\
    forall n p, table s !! n = Some p -> table s' !! n = Some (balanced p)) s.
Proof using Type.
  intros Hs. unfold balance_queues. apply wp_bind, balance_loop_ok; [done|apply NoDup_seqZ| |].
  { intros n Hn. apply elem_of_seqZ in Hn. lia. }
  intros s' Hs' Hall. apply wp_bind, wp_gets, wp_modify. split.
  - destruct Hs'. by split.
  - intros n p Hp. simpl. rewrite (Hall n p Hp). rewrite decide_True; [done|].
    apply elem_of_seqZ. apply lookup_lt_Some in Hp. rewrite (si_len _ Hs) in Hp.
    unfold NR_PROCS. lia.
Qed.
End props.

Section theorems.
Context {W : Type} `{SK : SchedKernel W} {Laws : @SchedKernelLaws W SK}.
Implicit Types s : sstate W.

(** A message with the fields of its type; a process to be started is known to
    the kernel. *)
Definition message_ok (s : sstate W) (m : sched_msg) : Prop :=
  (start_type (sm_type m) -> exists e par mp q,
     sm_body m = SchedulingStart e par mp q /\ k_known (world s) e) /\
  (sm_type m = SCHEDULING_STOP -> stop_body m) /\
  (sm_type m = SCHEDULING_SET_NICE -> nice_body m).

(** C8 Whatever message arrives, SCHED handles it without a fault and keeps its
    invariant - every process in use has priorities the kernel has queues for, in
    the slot of its endpoint - and with it the invariant of the kernel: SCHED
    never makes the kernel index its run queues out of bounds. *)
Theorem sched_server_safe (expire_timers : Z -> M (sstate W) unit) s fuel notify from_kernel t m :
  (forall t s, server_inv s -> wp (expire_timers t) (fun _ s' => server_inv s') s) ->
  server_inv s -> message_ok s m -> (0 < fuel)%nat ->
  wp (sched_dispatch expire_timers fuel notify from_kernel t m) (fun _ s' => server_inv s') s.
Proof using Type.
  intros Hexp Hs (Hstart & Hstop & Hnice) Hf. unfold sched_dispatch. destruct notify.
  { destruct (sm_source m =? CLOCK); [|by apply wp_ret].
    apply wp_bind. eapply wp_mono; [by apply Hexp|]. intros [] s' Hs'. by apply wp_ret. }
  destruct ((sm_type m =? SCHEDULING_INHERIT) || (sm_type m =? SCHEDULING_START)) eqn:E1.
  { apply orb_true_iff in E1 as Et. rewrite !Z.eqb_eq in Et.
    assert (start_type (sm_type m)) as Hty by (unfold start_type; tauto).
    destruct (Hstart Hty) as (e & par & mp & q & Hb & Hk).
    apply wp_bind. eapply wp_mono; [by eapply do_start_ok|]. intros r s' Hs'. by apply wp_ret. }
  destruct (Z.eqb_spec (sm_type m) SCHEDULING_STOP) as [E2|_].
  { apply wp_bind. eapply wp_mono; [apply do_stop_ok; auto|]. intros r s' Hs'. by apply wp_ret. }
  destruct (Z.eqb_spec (sm_type m) SCHEDULING_SET_NICE) as [E3|_].
  { destruct (Hnice E3) as (e & mp & Hb). apply wp_bind. eapply wp_mono; [by eapply do_nice_ok|].
    intros r s' [Hs' _]. by apply wp_ret. }
  destruct (sm_type m =? SCHEDULING_NO_QUANTUM); [|by apply wp_ret].
  destruct from_kernel; [|by apply wp_ret].
  apply wp_bind. eapply wp_mono; [by apply do_noquantum_ok|]. intros r s' Hs'. by apply wp_ret.
Qed.

(** A change of the nice level that succeeds sets the current and the best
    priority of that process, and of no other, to the new one; when the request
    is refused, by SCHED or by the kernel, the old values are back: every entry
    is what it was, but for the cpu it is assigned to. *)
Theorem do_nice_rollback s m e mp :
  server_inv s -> sm_body m = SetNice e mp ->
  wp (do_nice m) (fun r s' =>
    (r = OK -> valid_prio (u32 mp) /\ exists p, table s !! Z.to_nat (_ENDPOINT_P e) = Some p /\
       in_use p = true /\ sp_endpoint p = e /\
       table s' = <[Z.to_nat (_ENDPOINT_P e) :=
         set_cpu 0 (set_max_priority (u32 mp) (set_priority (u32 mp) p))]> (table s)) /\
    (r <> OK -> forall n p, table s !! n = Some p -> exists p',
       table s' !! n = Some p' /\ (p' = p \/ p' = set_cpu 0 p))) s.
Proof using Type.
  intros Hs Hb. eapply wp_mono; [by eapply do_nice_ok|]. intros r s' (_ & Hr). simpl in Hr.
  case_bool_decide as Er; split; try done.
  - intros _. destruct Hr as (_ & Hlt & Hp). split; [|exact Hp]. split; [by apply Z.mod_pos_bound|done].
  - intros _ n p Hp. destruct Hr as [->|(q & Hq & ->)]; [eauto|].
    destruct (decide (n = Z.to_nat (_ENDPOINT_P e))) as [->|Hne].
    + assert (q = p) as -> by congruence. eexists. split; [by eapply insert_same_lookup|]. by right.
    + exists p. rewrite list_lookup_insert_ne by done. auto.
Qed.

(** [k] rounds of rebalancing without a process running out of quantum. *)
Fixpoint balance_rounds (k : nat) : M (sstate W) unit :=
  match k with O => skip | S k' => balance_queues;; balance_rounds k' end.

Lemma balanced_priority p k :
  0 <= k -> in_use p = true -> max_priority p <= priority p ->
  in_use (balanced p) = true /\ max_priority (balanced p) = max_priority p /\
  max_priority p <= priority (balanced p) /\
  Z.max (max_priority p) (priority (balanced p) - k) = Z.max (max_priority p) (priority p - (k + 1)).
Proof using Type.
  intros Hk Hu Hm. unfold balanced. rewrite Hu. cbn [andb].
  destruct (Z.ltb_spec (max_priority p) (priority p)); simpl; (split_and!; [done|done|lia|lia]).
Qed.

(** C19 Rebalancing never faults, whatever the kernel answers; a process that was
    demoted below its best priority climbs back one queue per round until it
    reaches it, and stays there. *)
Theorem balance_converges s k n p :
  server_inv s -> table s !! n = Some p -> in_use p = true -> max_priority p <= priority p ->
  wp (balance_rounds k) (fun _ s' => server_inv s' /\ exists p', table s' !! n = Some p' /\
    in_use p' = true /\ max_priority p' = max_priority p /\
    priority p' = Z.max (max_priority p) (priority p - Z.of_nat k)) s.
Proof using Type.
  revert s p. induction k as [|k IH]; intros s p Hs Hp Hu Hm.
  { apply wp_ret. split; [done|]. exists p. split_and!; [done..|]. lia. }
  cbn [balance_rounds]. apply wp_bind. eapply wp_mono; [by apply balance_ok|].
  intros [] s1 (Hs1 & Hall).
  destruct (balanced_priority p (Z.of_nat k) ltac:(lia) Hu Hm) as (Hu1 & Hm1 & Hle & Epr).
  eapply wp_mono; [apply (IH s1 (balanced p)); [done|by apply Hall|done|lia]|].
  intros [] s2 (Hs2 & p2 & Hp2 & Hu2 & Hm2 & Hpr2). split; [done|]. exists p2.
  split_and!; [done..| |]; rewrite ?Hpr2, ?Hm2, ?Hm1; [done|].
  rewrite Hm1 in *. rewrite Epr. f_equal. lia.
Qed.
End theorems.

(** ** Instances: SCHED on the running kernel of [KDemo] *)

#[local] Existing Instance demo_env.
#[local] Instance demo_sched : SchedKernel kstate := kernel_sched 60.
#[local] Instance demo_sched_laws : SchedKernelLaws kstate := kernel_sched_laws 60.

(** Process 13 is scheduled, two queues below its best priority. *)
Definition demo_slot (n : nat) : schedproc :=
  if decide (n = 13%nat) then mk_schedproc 13 0 IN_USE 7 9 200 0
  else mk_schedproc 0 0 0 0 0 0 0.
Definition demo_sstate : sstate kstate :=
  mk_sstate (demo_slot <$> seq 0 256) [0] None 300 demo_kernel.

Lemma demo_known_13 : kernel_known demo_kernel 13.
Proof.
  intros _. exists (entry demo_kernel 13). change (_ENDPOINT_P 13) with 13. split.
  - apply entry_lookup. vm_compute. reflexivity.
  - apply has_privb_ok. vm_compute. reflexivity.
Qed.

Lemma demo_sstate_inv : server_inv demo_sstate.
Proof.
  split.
  - reflexivity.
  - reflexivity.
  - exists (qof demo_queues). exact demo_inv.
  - intros n p Hp. apply list_lookup_fmap_Some in Hp as (x & -> & [-> _]%lookup_seq).
    simpl. unfold demo_slot. intros Hu. destruct (decide (n = 13%nat)) as [->|]; [|done].
    unfold valid_prio, NR_SCHED_QUEUES. simpl. split_and!; [lia..|done|]. exact demo_known_13.
Qed.

(** PM asks for the best priority 5 of process 13; rebalancing runs on the timer. *)
Definition nice_request : sched_msg := mk_sched_msg PM_PROC_NR SCHEDULING_SET_NICE (SetNice 13 5).

Lemma sched_server_safe_witness :
  wp (sched_dispatch (fun _ => balance_queues) 1 false false 0 nice_request)
     (fun _ s' => server_inv s') demo_sstate.
Proof.
  apply (sched_server_safe (W := kstate)).
  - intros t s Hs. eapply wp_mono; [apply balance_ok; exact Hs|]. intros [] s' [H _]. exact H.
  - exact demo_sstate_inv.
  - split_and!.
    + intros [E|E]; discriminate E.
    + intros E. discriminate E.
    + intros _. exists 13, 5. reflexivity.
  - lia.
Defined.

Lemma balance_converges_witness :
  wp (balance_rounds 5) (fun _ (s' : sstate kstate) => exists p', (table s' : list schedproc) !! 13%nat = Some p' /\ priority p' = 7)
     demo_sstate.
Proof.
  eapply wp_mono.
  - apply (balance_converges (W := kstate) demo_sstate 5 13 (demo_slot 13)).
    + exact demo_sstate_inv.
    + reflexivity.
    + reflexivity.
    + simpl. lia.
  - intros [] s' (_ & p' & Hp & _ & _ & Hpr). exists p'. split; [exact Hp|]. rewrite Hpr. reflexivity.
Defined.
