(* ===== verification/Psem.v ===== *)
(** * Semaphores in the process manager (PA3, servers/pm/psem.c)

    The heap of PM with the semaphores and the doubly linked queues of waiting
    processes, the library of queue operations, and the message handlers. The
    theorems relate the linked structures to a counting semaphore with a list of
    waiting processes. *)

From S2P Require Import Prelude KTypes.
#[local] Open Scope Z_scope.

(** ** Memory *)

Definition NULL : Z := 0.

Record process := mk_process { id : Z; prev : Z; next : Z }.
Record semaphore := mk_semaphore { value : Z; list_head : Z }.

(** An allocated block: [malloc] hands it out without contents. *)
Inductive cell := CRaw | CProcess (p : process) | CSemaphore (s : semaphore).
Notation heap := (gmap Z cell).

Section psem.

(** [malloc] is the C library's; [setreply] is declared nowhere in the sources:
    it acts on the rest [W] of PM. *)
Context {W : Type} (malloc : heap -> Z) (setreply : Z -> Z -> W -> W).

Record pm := mk_pm {
  mem : heap;
  m1_i1 : Z; m1_p1 : Z;      (* fields of the message m_in *)
  who_p : Z;                 (* the slot of the caller *)
  rest : W;
}.
Definition with_mem (h : heap) (s : pm) : pm := mk_pm h (m1_i1 s) (m1_p1 s) (who_p s) (rest s).
Definition with_p1 (p : Z) (s : pm) : pm := mk_pm (mem s) (m1_i1 s) p (who_p s) (rest s).
Definition with_rest (w : W) (s : pm) : pm := mk_pm (mem s) (m1_i1 s) (m1_p1 s) (who_p s) w.

(** Accesses through pointers; a pointer that is null, or to a block that is not
    (or no longer) of the type, faults. *)
Definition load_process (p : Z) : M pm process :=
  h ← gets mem; deref (match h !! p with Some (CProcess x) => Some x | _ => None end).
Definition load_semaphore (p : Z) : M pm semaphore :=
  h ← gets mem; deref (match h !! p with Some (CSemaphore x) => Some x | _ => None end).
Definition store (p : Z) (c : cell) : M pm unit :=
  h ← gets mem; deref (h !! p);; modify (with_mem (<[p := c]> h)).

Definition alloc : M pm Z :=
  h ← gets mem;
  let p := malloc h in
  when (negb (p =? NULL)) (modify (with_mem (<[p := CRaw]> h)));;
  mret p.
Definition free (p : Z) : M pm unit :=
  h ← gets mem; deref (h !! p);; modify (with_mem (delete p h)).

Definition set_next (p n : Z) : M pm unit :=
  x ← load_process p; store p (CProcess (mk_process (id x) (prev x) n)).
Definition set_prev (p v : Z) : M pm unit :=
  x ← load_process p; store p (CProcess (mk_process (id x) v (next x))).

(** ** The queue: operations on the pointer [*queue] *)

(** [while (list->next != NULL) list = list->next;] *)
Fixpoint last_process (fuel : nat) (lst : Z) : M pm Z :=
  match fuel with
  | O => fail OutOfFuel
  | S fuel' =>
      x ← load_process lst;
      if next x =? NULL then mret lst else last_process fuel' (next x)
  end.

(** The new value of [*queue]. *)
Definition enqueue (queue p : Z) : M pm Z :=
  if queue =? NULL then
    set_prev p NULL;; set_next p NULL;; mret p
  else
    h ← gets mem;
    lst ← last_process (size h) queue;
    set_next lst p;;
    set_prev p lst;;
    set_next p NULL;;
    mret queue.

(** The process taken off, and the new value of [*queue]. *)
Definition dequeue (queue : Z) : M pm (Z * Z) :=
  if queue =? NULL then mret (NULL, queue)
  else
    x ← load_process queue;
    let new := next x in
    when (negb (next x =? NULL)) (set_prev (next x) NULL);;
    set_next queue NULL;;
    mret (queue, new).

(** ** The handlers *)

Definition do_psem_init : M pm ecode :=
  n ← gets m1_i1;
  S ← alloc;
  if S =? NULL then mret ENOMEM
  else
    store S (CSemaphore (mk_semaphore n NULL));;
    modify (with_p1 S);;
    mret OK.

Definition set_value (S v : Z) : M pm unit :=
  s ← load_semaphore S; store S (CSemaphore (mk_semaphore v (list_head s))).
Definition set_list (S l : Z) : M pm unit :=
  s ← load_semaphore S; store S (CSemaphore (mk_semaphore (value s) l)).

Definition do_psem_wait : M pm ecode :=
  S ← gets m1_p1;
  s ← load_semaphore S;
  v ← lift (isub (value s) 1);
  set_value S v;;
  if v <? 0 then
    P ← alloc;
    who ← gets who_p;
    store P (CProcess (mk_process who NULL NULL));;
    s ← load_semaphore S;
    q ← enqueue (list_head s) P;
    set_list S q;;
    mret SUSPEND
  else mret OK.

(** [P = dequeue(&S->list)] *)
Definition dequeue_from (S : Z) : M pm Z :=
  s ← load_semaphore S;
  r ← dequeue (list_head s);
  let '(P, q) := (r : Z * Z) in
  set_list S q;; mret P.

(** [&mproc[proc_nr]]: a pointer into the table, or just past it. *)
Definition mproc_addr (proc_nr : Z) : M pm unit :=
  if decide (0 <= proc_nr <= NR_PROCS) then skip else fail OutOfBounds.

Definition do_psem_signal : M pm ecode :=
  S ← gets m1_p1;
  s ← load_semaphore S;
  v ← lift (iadd (value s) 1);
  set_value S v;;
  if v <=? 0 then
    P ← dequeue_from S;
    x ← load_process P;
    let proc_nr := id x in
    free P;;
    mproc_addr proc_nr;;
    w ← gets rest;
    modify (with_rest (setreply proc_nr 0 w));;
    mret OK
  else mret OK.

(** [while (P != NULL) { free(P); P = dequeue(&S->list); }] *)
Fixpoint free_waiting (fuel : nat) (S P : Z) : M pm unit :=
  match fuel with
  | O => fail OutOfFuel
  | Datatypes.S fuel' =>
      if P =? NULL then skip
      else free P;; P' ← dequeue_from S; free_waiting fuel' S P'
  end.

Definition do_psem_destroy : M pm ecode :=
  S ← gets m1_p1;
  h ← gets mem;
  P ← dequeue_from S;
  free_waiting (size h) S P;;
  free S;;
  mret OK.

Definition do_proc_no : M pm Z := gets who_p.

Definition do_psem_block : M pm ecode := do_psem_signal;; mret SUSPEND.

Definition do_psem_wakeup : M pm ecode :=
  proc_nr ← gets m1_i1;
  mproc_addr proc_nr;;
  w ← gets rest;
  modify (with_rest (setreply proc_nr 0 w));;
  mret OK.

End psem.
Arguments pm : clear implicits.
