(* ===== verification/PsemProps.v ===== *)
(** * Correctness of the semaphores of the process manager

    The linked structures represent, for every semaphore, its value and the list
    of waiting processes; waits and signals implement a counting semaphore that
    serves the waiting processes in order. *)

From S2P Require Import Prelude KTypes Psem.
#[local] Open Scope Z_scope.

(** ** Queues in the heap *)

(** From the pointer [cur], after the node [pv], the nodes with these pointers
    and process numbers follow. *)
Fixpoint qseg (h : heap) (pv cur : Z) (l : list (Z * Z)) : Prop :=
  match l with
  | [] => cur = NULL
  | (p, i) :: l' =>
      cur = p /\ exists nx, h !! p = Some (CProcess (mk_process i pv nx)) /\ qseg h p nx l'
  end.

(** The value of each semaphore with its queue; no other cell is allocated. *)
Notation absheap := (gmap Z (Z * list (Z * Z))).

Record psem_inv (h : heap) (A : absheap) := {
  pi_null : h !! NULL = None;
  pi_sem : forall S v l, A !! S = Some (v, l) ->
    (exists hd, h !! S = Some (CSemaphore (mk_semaphore v hd)) /\ qseg h NULL hd l) /\ NoDup l.*1;
  pi_disj : forall S1 S2 v1 v2 l1 l2, A !! S1 = Some (v1, l1) -> A !! S2 = Some (v2, l2) ->
    S1 <> S2 -> forall x, x ∈ l1.*1 -> x ∉ l2.*1;
  pi_exact : forall x, is_Some (h !! x) ->
    is_Some (A !! x) \/ exists S v l, A !! S = Some (v, l) /\ x ∈ l.*1;
}.

Lemma qseg_ext h h' pv cur l :
  (forall x, x ∈ l.*1 -> h' !! x = h !! x) -> qseg h pv cur l -> qseg h' pv cur l.
Proof.
  revert pv cur. induction l as [|[p i] l IH]; intros pv cur He; [done|].
  intros (-> & nx & Hp & Hq). split; [done|]. exists nx. split.
  - rewrite He; [done|left].
  - apply IH; [|done]. intros x Hx. apply He. by right.
Qed.

Lemma qseg_lookup h pv cur l x :
  qseg h pv cur l -> x ∈ l.*1 -> exists c, h !! x = Some (CProcess c).
Proof.
  revert pv cur. induction l as [|[p i] l IH]; intros pv cur; [by intros _ ?%elem_of_nil|].
  intros (-> & nx & Hp & Hq) [->|Hx]%elem_of_cons; [eauto|]. by eapply IH.
Qed.

Lemma qseg_nil h pv cur l : h !! NULL = None -> qseg h pv cur l -> (cur =? NULL) = true <-> l = [].
Proof.
  intros H0. destruct l as [|[p i] l].
  - intros ->. done.
  - intros (-> & nx & Hp & _). split; [|done]. intros ->%Z.eqb_eq. congruence.
Qed.

(** A node joins the end of a queue. *)
Lemma qseg_snoc h pv cur l p i :
  qseg h pv cur l -> p ∉ l.*1 -> NoDup l.*1 -> l <> [] -> exists q c,
    q ∈ l.*1 /\ h !! q = Some (CProcess c) /\ next c = NULL /\
    qseg (<[p := CProcess (mk_process i q NULL)]>
           (<[q := CProcess (mk_process (id c) (prev c) p)]> h)) pv cur (l ++ [(p, i)]).
Proof.
  revert pv cur. induction l as [|[q j] l IH]; [done|].
  intros pv cur (-> & nx & Hq & Hl) Hp Hnd _. rewrite fmap_cons in Hp, Hnd. simpl in Hp, Hnd.
  apply not_elem_of_cons in Hp as [Hpq Hp]. apply NoDup_cons in Hnd as [Hql Hnd].
  destruct (decide (l = [])) as [->|Hne].
  - simpl in Hl. subst nx. exists q, (mk_process j pv NULL). split_and!; [left|done|done|].
    split; [done|]. exists p. simpl. rewrite lookup_insert_ne, lookup_insert_eq by done.
    split; [done|]. split; [done|]. exists NULL. by rewrite lookup_insert_eq.
  - destruct (IH _ _ Hl Hp Hnd Hne) as (r & c & Hr & Hrc & Hn & Hseg).
    exists r, c. split_and!; [by right|done|done|]. split; [done|]. exists nx.
    split; [|done]. rewrite lookup_insert_ne, lookup_insert_ne by (intros ->; done). done.
Qed.

(** The second node of a queue becomes the first. *)
Lemma qseg_tail h p nx q j l :
  qseg h p nx ((q, j) :: l) -> NoDup (q :: l.*1) -> exists n,
    nx = q /\ h !! q = Some (CProcess (mk_process j p n)) /\
    qseg (<[q := CProcess (mk_process j NULL n)]> h) NULL q ((q, j) :: l).
Proof.
  intros (-> & n & Hq & Hl) [Hql Hnd]%NoDup_cons. exists n. split_and!; [done..|].
  split; [done|]. exists n. rewrite lookup_insert_eq. split; [done|].
  eapply qseg_ext; [|done]. intros x Hx. rewrite lookup_insert_ne; [done|]. by intros <-.
Qed.

(** The entry of one semaphore changes. *)
Lemma psem_inv_upd h h' A S v l v' l' hd' :
  psem_inv h A -> A !! S = Some (v, l) -> h' !! NULL = None ->
  h' !! S = Some (CSemaphore (mk_semaphore v' hd')) -> qseg h' NULL hd' l' -> NoDup l'.*1 ->
  (forall x, x <> S -> x ∉ l.*1 -> x ∉ l'.*1 -> h' !! x = h !! x) ->
  (forall x, x ∈ l'.*1 -> x ∈ l.*1 \/ h !! x = None) ->
  (forall x, x ∈ l.*1 -> x ∉ l'.*1 -> h' !! x = None) ->
  psem_inv h' (<[S := (v', l')]> A).
Proof.
  intros [H0 Hs Hd He] HS H0' HS' Hq' Hnd' Hfr Hnew Hgone.
  assert (forall T w m x, T <> S -> A !! T = Some (w, m) -> x ∈ m.*1 -> x ∉ l'.*1) as Hdis.
  { intros T w m x HT HTm Hx Hin. destruct (Hnew x Hin) as [Hl|Hn].
    - exact (Hd _ _ _ _ _ _ HTm HS HT x Hx Hl).
    - destruct (Hs _ _ _ HTm) as [(hd & _ & Hq) _].
      destruct (qseg_lookup _ _ _ _ _ Hq Hx) as [c Hc]. congruence. }
  split; [done| | |].
  - intros T w m. destruct (decide (T = S)) as [->|HT].
    { rewrite lookup_insert_eq. intros [= <- <-]. split; [by eexists|done]. }
    rewrite lookup_insert_ne by done. intros HTm. destruct (Hs _ _ _ HTm) as [(hd & HTc & Hq) Hnd].
    split; [|done]. exists hd.
    assert (forall x, x ∈ m.*1 -> h' !! x = h !! x) as Hsame.
    { intros x Hx. destruct (qseg_lookup _ _ _ _ _ Hq Hx) as [c Hc]. apply Hfr.
      - intros ->. destruct (Hs _ _ _ HS) as [(? & ? & _) _]. congruence.
      - exact (Hd _ _ _ _ _ _ HTm HS HT x Hx).
      - by eapply Hdis. }
    split; [|by eapply qseg_ext].
    rewrite Hfr; [done|done| |].
    + intros Hin. destruct (Hs _ _ _ HS) as [(? & _ & Hq1) _].
      destruct (qseg_lookup _ _ _ _ _ Hq1 Hin). congruence.
    + intros Hin. destruct (Hnew _ Hin) as [Hin'|Hn]; [|congruence].
      destruct (Hs _ _ _ HS) as [(? & _ & Hq1) _]. destruct (qseg_lookup _ _ _ _ _ Hq1 Hin'). congruence.
  - intros T1 T2 w1 w2 m1 m2. destruct (decide (T1 = S)) as [->|H1], (decide (T2 = S)) as [->|H2];
      rewrite ?lookup_insert_eq, ?(lookup_insert_ne _ S) by done; [done| | |].
    + intros [= <- <-] HT _ x Hx Hx2. by eapply Hdis.
    + intros HT [= <- <-] _ x Hx. by eapply Hdis.
    + intros HT1 HT2. by eapply Hd.
  - intros x Hx. destruct (decide (x = S)) as [->|HxS]; [left; rewrite lookup_insert_eq; by eexists|].
    destruct (decide (x ∈ l'.*1)) as [Hin|Hin].
    { right. exists S, v', l'. by rewrite lookup_insert_eq. }
    destruct (decide (x ∈ l.*1)) as [Hl|Hl].
    { rewrite (Hgone x Hl Hin) in Hx. by destruct Hx. }
    rewrite Hfr in Hx by done. destruct (He x Hx) as [HA|(T & w & m & HT & HxT)].
    + left. by rewrite lookup_insert_ne.
    + right. exists T, w, m. split; [|done]. rewrite lookup_insert_ne; [done|]. intros <-. congruence.
Qed.

Section props.
Context {W : Type}.
Implicit Types s : pm W.

(** ** Accesses *)

Lemma wp_load_process s p x (Q : process -> pm W -> Prop) :
  mem s !! p = Some (CProcess x) -> Q x s -> wp (load_process p) Q s.
Proof. intros Hp HQ. apply wp_bind, wp_gets. rewrite Hp. by apply (wp_deref _ x). Qed.

Lemma wp_load_semaphore s p x (Q : semaphore -> pm W -> Prop) :
  mem s !! p = Some (CSemaphore x) -> Q x s -> wp (load_semaphore p) Q s.
Proof. intros Hp HQ. apply wp_bind, wp_gets. rewrite Hp. by apply (wp_deref _ x). Qed.

Lemma wp_store s p c c0 (Q : unit -> pm W -> Prop) :
  mem s !! p = Some c0 -> Q tt (with_mem (<[p := c]> (mem s)) s) -> wp (store p c) Q s.
Proof. intros Hp HQ. apply wp_bind, wp_gets, wp_bind. rewrite Hp. by apply (wp_deref _ c0). Qed.

Lemma wp_free s p c (Q : unit -> pm W -> Prop) :
  mem s !! p = Some c -> Q tt (with_mem (delete p (mem s)) s) -> wp (free p) Q s.
Proof. intros Hp HQ. apply wp_bind, wp_gets, wp_bind. rewrite Hp. by apply (wp_deref _ c). Qed.

Lemma wp_set_next s p n x (Q : unit -> pm W -> Prop) :
  mem s !! p = Some (CProcess x) ->
  Q tt (with_mem (<[p := CProcess (mk_process (id x) (prev x) n)]> (mem s)) s) ->
  wp (set_next p n) Q s.
Proof. intros Hp HQ. apply wp_bind. eapply wp_load_process; [done|]. by eapply wp_store. Qed.

Lemma wp_set_prev s p v x (Q : unit -> pm W -> Prop) :
  mem s !! p = Some (CProcess x) ->
  Q tt (with_mem (<[p := CProcess (mk_process (id x) v (next x))]> (mem s)) s) ->
  wp (set_prev p v) Q s.
Proof. intros Hp HQ. apply wp_bind. eapply wp_load_process; [done|]. by eapply wp_store. Qed.

Lemma wp_set_value s S v x (Q : unit -> pm W -> Prop) :
  mem s !! S = Some (CSemaphore x) ->
  Q tt (with_mem (<[S := CSemaphore (mk_semaphore v (list_head x))]> (mem s)) s) ->
  wp (set_value S v) Q s.
Proof. intros Hp HQ. apply wp_bind. eapply wp_load_semaphore; [done|]. by eapply wp_store. Qed.

Lemma wp_set_list s S q x (Q : unit -> pm W -> Prop) :
  mem s !! S = Some (CSemaphore x) ->
  Q tt (with_mem (<[S := CSemaphore (mk_semaphore (value x) q)]> (mem s)) s) ->
  wp (set_list S q) Q s.
Proof. intros Hp HQ. apply wp_bind. eapply wp_load_semaphore; [done|]. by eapply wp_store. Qed.

Lemma with_mem_same s : with_mem (mem s) s = s.
Proof. by destruct s. Qed.

(** ** The queue operations *)

(** The walk ends at the only node without a successor, within as many steps as
    the queue has nodes. *)
Lemma last_process_ok s fuel pv cur l q c (Q : Z -> pm W -> Prop) :
  mem s !! NULL = None -> qseg (mem s) pv cur l -> l <> [] -> (length l <= fuel)%nat ->
  q ∈ l.*1 -> mem s !! q = Some (CProcess c) -> next c = NULL ->
  Q q s -> wp (last_process fuel cur) Q s.
Proof using Type.
  intros H0. revert fuel pv cur. induction l as [|[p i] l IH]; [done|].
  intros [|fuel] pv cur (-> & nx & Hp & Hl) _ Hlen Hin Hq Hn HQ; [simpl in Hlen; lia|].
  cbn [last_process]. apply wp_bind. eapply wp_load_process; [done|]. simpl.
  destruct (nx =? NULL) eqn:E.
  - apply (qseg_nil _ _ _ _ H0 Hl) in E. subst l. apply list_elem_of_singleton in Hin.
    simpl in Hin. subst q. by apply wp_ret.
  - assert (l <> []) as Hne.
    { intros ->. simpl in Hl. by rewrite Hl in E. }
    eapply IH; [done|done|simpl in Hlen; lia| |done|done|done].
    apply elem_of_cons in Hin as [->|Hin]; [|done]. simpl in Hq. rewrite Hp in Hq.
    injection Hq as <-. simpl in Hn. by subst nx.
Qed.

Lemma qseg_size h pv cur l :
  qseg h pv cur l -> NoDup l.*1 -> (length l <= size h)%nat.
Proof using Type.
  intros Hq Hnd. rewrite <- (length_fmap fst l), <- (size_list_to_set (C := gset Z) l.*1) by done.
  rewrite <- size_dom. apply subseteq_size. intros x Hx%elem_of_list_to_set.
  destruct (qseg_lookup _ _ _ _ _ Hq Hx) as [c Hc]. by apply elem_of_dom_2 in Hc.
Qed.

(** [enqueue] appends the node, and touches only the queue and the node. *)
Lemma process_enqueue_ok s q p l c0 :
  mem s !! NULL = None -> qseg (mem s) NULL q l -> NoDup l.*1 -> p ∉ l.*1 ->
  mem s !! p = Some (CProcess c0) ->
  wp (enqueue q p) (fun q' s' => exists h', s' = with_mem h' s /\
    qseg h' NULL q' (l ++ [(p, id c0)]) /\
    (forall x, x ∉ l.*1 -> x <> p -> h' !! x = mem s !! x)) s.
Proof using Type.
  intros H0 Hq Hnd Hpl Hp. unfold enqueue. destruct (q =? NULL) eqn:E.
  - apply (qseg_nil _ _ _ _ H0 Hq) in E. subst l.
    apply wp_bind. eapply wp_set_prev; [done|]. apply wp_bind.
    eapply wp_set_next; [apply lookup_insert_eq|]. apply wp_ret. eexists. split; [done|]. simpl.
    rewrite insert_insert_eq. split.
    + split; [done|]. exists NULL. by rewrite lookup_insert_eq.
    + intros x _ Hx. by rewrite lookup_insert_ne.
  - assert (l <> []) as Hne.
    { intros ->. simpl in Hq. by rewrite Hq in E. }
    destruct (qseg_snoc _ _ _ _ p (id c0) Hq Hpl Hnd Hne) as (r & c & Hr & Hrc & Hn & Hseg).
    assert (r <> p) as Hrp by by intros ->.
    apply wp_bind, wp_gets, wp_bind.
    eapply last_process_ok; [done|done|done|by eapply qseg_size|done|done|done|].
    apply wp_bind. eapply wp_set_next; [done|]. apply wp_bind.
    eapply wp_set_prev; [simpl; by rewrite lookup_insert_ne|]. apply wp_bind.
    eapply wp_set_next; [apply lookup_insert_eq|]. apply wp_ret. eexists. split; [done|]. simpl.
    rewrite insert_insert_eq. split; [done|].
    intros x Hx Hxp. rewrite !lookup_insert_ne; [done| |done]. by intros ->.
Qed.

(** [dequeue] takes the first node off. *)
Lemma process_dequeue_ok s q p i l :
  mem s !! NULL = None -> qseg (mem s) NULL q ((p, i) :: l) -> NoDup (p :: l.*1) ->
  wp (dequeue q) (fun r s' => exists h' q', r = (p, q') /\ s' = with_mem h' s /\
    qseg h' NULL q' l /\ h' !! p = Some (CProcess (mk_process i NULL NULL)) /\
    (forall x, x ∉ p :: l.*1 -> h' !! x = mem s !! x)) s.
Proof using Type.
  intros H0 (-> & nx & Hp & Hl) [Hpl Hnd]%NoDup_cons. unfold dequeue.
  assert ((p =? NULL) = false) as -> by (apply Z.eqb_neq; intros ->; congruence).
  apply wp_bind. eapply wp_load_process; [done|]. simpl. apply wp_bind.
  destruct l as [|[r j] l].
  - simpl in Hl. subst nx. apply wp_ret, wp_bind. eapply wp_set_next; [done|]. apply wp_ret.
    eexists _, NULL. split_and!; [done..|apply lookup_insert_eq|]. simpl.
    intros x Hx. rewrite lookup_insert_ne; [done|]. intros ->. apply Hx. left.
  - destruct (qseg_tail _ _ _ _ _ _ Hl Hnd) as (n & -> & Hr & Hseg).
    assert ((r =? NULL) = false) as -> by (apply Z.eqb_neq; intros ->; congruence).
    assert (r <> p) as Hrp by (intros ->; apply Hpl; left).
    cbn [negb when]. eapply wp_set_prev; [done|]. apply wp_bind.
    eapply wp_set_next; [simpl; by rewrite lookup_insert_ne|]. apply wp_ret.
    eexists _, r. split; [done|]. split; [done|]. split; [|split; [apply lookup_insert_eq|]].
    + eapply qseg_ext; [|exact Hseg]. intros x Hx. rewrite lookup_insert_ne; [done|]. by intros ->.
    + intros x Hx. simpl. rewrite !lookup_insert_ne; [done| |].
      * intros ->. apply Hx. right. left.
      * intros ->. apply Hx. left.
Qed.

Lemma dequeue_null s (Q : Z * Z -> pm W -> Prop) : Q (NULL, NULL) s -> wp (dequeue NULL) Q s.
Proof. done. Qed.

(** ** One semaphore of the heap *)

Section one.
Context (s : pm W) (A : absheap) (S v : Z) (l : list (Z * Z)).
Hypothesis (Hinv : psem_inv (mem s) A) (HS : A !! S = Some (v, l)).

Lemma sem_at : exists hd,
  mem s !! S = Some (CSemaphore (mk_semaphore v hd)) /\ qseg (mem s) NULL hd l /\
  NoDup l.*1 /\ S <> NULL /\ S ∉ l.*1.
Proof using Hinv HS.
  destruct (pi_sem _ _ Hinv _ _ _ HS) as [(hd & Hc & Hq) Hnd]. exists hd. split_and!; [done..| |].
  - intros E. rewrite E, (pi_null _ _ Hinv) in Hc. done.
  - intros Hin. destruct (qseg_lookup _ _ _ _ _ Hq Hin). congruence.
Qed.

Lemma set_value_ok v' :
  wp (set_value S v') (fun _ s' => exists h', s' = with_mem h' s /\
    psem_inv h' (<[S := (v', l)]> A)) s.
Proof using Hinv HS.
  destruct sem_at as (hd & Hc & Hq & Hnd & Hn & HSl). eapply wp_set_value; [done|].
  eexists. split; [done|]. simpl.
  eapply (psem_inv_upd _ _ A S v l v' l hd); [done|done| |apply lookup_insert_eq| |done| |tauto|tauto].
  - rewrite lookup_insert_ne by done. apply (pi_null _ _ Hinv).
  - eapply qseg_ext; [|done]. intros x Hx. rewrite lookup_insert_ne; [done|]. by intros <-.
  - intros x Hx _ _. by rewrite lookup_insert_ne.
Qed.

(** The first waiting process is taken off the queue; its node is garbage. *)
Lemma dequeue_from_ok :
  wp (dequeue_from S) (fun P s' => exists h', s' = with_mem h' s /\
    match l with
    | [] => P = NULL /\ psem_inv h' A
    | (p, i) :: l' => P = p /\ p <> NULL /\ h' !! p = Some (CProcess (mk_process i NULL NULL)) /\
        psem_inv (delete p h') (<[S := (v, l')]> A)
    end) s.
Proof using Hinv HS.
  destruct sem_at as (hd & Hc & Hq & Hnd & Hn & HSl).
  unfold dequeue_from. apply wp_bind. eapply wp_load_semaphore; [done|]. simpl. apply wp_bind.
  destruct l as [|[p i] l'].
  - simpl in Hq. subst hd. apply dequeue_null, wp_bind. eapply wp_set_list; [done|]. apply wp_ret.
    eexists. split; [done|]. split; [done|]. simpl. rewrite insert_id by done. done.
  - assert (p <> NULL) as Hp0.
    { intros E. destruct (qseg_lookup _ _ _ _ p Hq) as [c E']; [left|].
      rewrite E, (pi_null _ _ Hinv) in E'. done. }
    pose proof Hnd as [Hpl Hnd']%NoDup_cons.
    eapply wp_mono; [by eapply process_dequeue_ok; [apply (pi_null _ _ Hinv)|..]|].
    intros r s1 (h1 & q' & -> & -> & Hq1 & Hp1 & Hfr).
    assert (h1 !! S = Some (CSemaphore (mk_semaphore v hd))) as HS1 by by rewrite Hfr.
    apply wp_bind. eapply wp_set_list; [done|]. apply wp_ret. eexists. split; [done|]. simpl.
    assert (S <> p) as HSp by (intros ->; apply HSl; left).
    split; [done|]. split; [done|]. split; [by rewrite lookup_insert_ne|].
    eapply (psem_inv_upd (mem s) _ A S v ((p, i) :: l') v l' q'); [done|done| | | |done| | |].
    + rewrite lookup_delete_ne, lookup_insert_ne, Hfr by done || (intros [?|Hin]%elem_of_cons; [done|];
        destruct (qseg_lookup _ _ _ _ NULL Hq) as [c E]; [by right|]; rewrite (pi_null _ _ Hinv) in E; done).
      apply (pi_null _ _ Hinv).
    + by rewrite lookup_delete_ne, lookup_insert_eq.
    + eapply qseg_ext; [|exact Hq1]. intros x Hx. rewrite lookup_delete_ne, lookup_insert_ne; [done| |].
      * intros <-. apply HSl. by right.
      * by intros <-.
    + intros x Hx Hxl _. rewrite lookup_delete_ne, lookup_insert_ne; [by apply Hfr|done|].
      intros <-. apply Hxl. left.
    + intros x Hx. left. by right.
    + intros x [->|Hx]%elem_of_cons Hx'; [apply lookup_delete_eq|done].
Qed.

Hypothesis Hcall : m1_p1 s = S.

Lemma do_psem_wait_free (malloc : heap -> Z) :
  0 < v <= INT_MAX ->
  wp (do_psem_wait malloc) (fun r s' => r = OK /\ exists h', s' = with_mem h' s /\
    psem_inv h' (<[S := (v - 1, l)]> A)) s.
Proof using Hinv HS Hcall.
  intros Hv. destruct sem_at as (hd & Hc & _). unfold do_psem_wait.
  apply wp_bind, wp_gets, wp_bind. rewrite Hcall. eapply wp_load_semaphore; [done|].
  apply wp_bind. eapply wp_lift; [apply int_ok_in; simpl; unfold INT_MIN, INT_MAX in *; lia|]. simpl.
  apply wp_bind. eapply wp_mono; [apply set_value_ok|]. intros [] s1 (h1 & -> & H1).
  rewrite (proj2 (Z.ltb_ge _ _)) by lia. apply wp_ret. split; [done|]. by exists h1.
Qed.

Lemma do_psem_wait_queues (malloc : heap -> Z) :
  INT_MIN < v <= 0 ->
  (forall h, malloc h <> NULL /\ h !! malloc h = None) ->
  wp (do_psem_wait malloc) (fun r s' => r = SUSPEND /\ exists h' p, s' = with_mem h' s /\
    psem_inv h' (<[S := (v - 1, l ++ [(p, who_p s)])]> A)) s.
Proof using Hinv HS Hcall.
  intros Hv Hm. destruct sem_at as (hd & Hc & Hq & Hnd & Hn & HSl). unfold do_psem_wait.
  apply wp_bind, wp_gets, wp_bind. rewrite Hcall. eapply wp_load_semaphore; [done|].
  apply wp_bind. eapply wp_lift; [apply int_ok_in; simpl; unfold INT_MIN, INT_MAX in *; lia|]. simpl.
  apply wp_bind. eapply wp_set_value; [done|]. rewrite (proj2 (Z.ltb_lt _ _)) by lia. simpl.
  set (h1 := <[S := _]> (mem s)). apply wp_bind, wp_bind, wp_gets, wp_bind. simpl.
  destruct (Hm h1) as [Hp0 Hp]. set (p := malloc h1) in *.
  rewrite (proj2 (Z.eqb_neq p NULL)) by done. apply wp_modify, wp_ret, wp_bind, wp_gets, wp_bind.
  eapply wp_store; [apply lookup_insert_eq|]. simpl. rewrite insert_insert_eq.
  assert (h1 !! S = Some (CSemaphore (mk_semaphore (v - 1) hd))) as HS1 by apply lookup_insert_eq.
  assert (p <> S) as HpS by congruence.
  assert (mem s !! p = None) as Hps.
  { unfold h1 in Hp. by rewrite lookup_insert_ne in Hp by done. }
  assert (p ∉ l.*1) as Hpl.
  { intros Hin. destruct (qseg_lookup _ _ _ _ _ Hq Hin). congruence. }
  set (h2 := <[p := _]> h1).
  assert (forall x, x <> S -> x <> p -> h2 !! x = mem s !! x) as Hh2.
  { intros x H1 H2. unfold h2, h1. by rewrite !lookup_insert_ne. }
  assert (NULL ∉ l.*1) as HNl.
  { intros Hin. destruct (qseg_lookup _ _ _ _ _ Hq Hin) as [c E]. by rewrite (pi_null _ _ Hinv) in E. }
  apply wp_bind. eapply wp_load_semaphore; [simpl; unfold h2; by rewrite lookup_insert_ne|].
  apply wp_bind. eapply wp_mono.
  { apply (process_enqueue_ok _ hd p l (mk_process (who_p s) NULL NULL)); simpl.
    - rewrite Hh2 by done. apply (pi_null _ _ Hinv).
    - eapply qseg_ext; [|exact Hq]. intros x Hx. apply Hh2; by intros ->.
    - done.
    - done.
    - apply lookup_insert_eq. }
  intros q' s3 (h3 & -> & Hq3 & Hfr). simpl in *. apply wp_bind.
  eapply wp_set_list; [simpl; rewrite Hfr by done; unfold h2; by rewrite lookup_insert_ne|].
  apply wp_ret. split; [done|]. eexists _, p. split; [done|]. simpl.
  assert (S ∉ (l ++ [(p, who_p s)]).*1) as HSl'.
  { rewrite fmap_app, elem_of_app. intros [?|?%list_elem_of_singleton]; done. }
  eapply (psem_inv_upd (mem s) _ A S v l (v - 1) _ q'); [done|done| |apply lookup_insert_eq| | | | |].
  - rewrite lookup_insert_ne by done. rewrite Hfr, Hh2 by done. apply (pi_null _ _ Hinv).
  - eapply qseg_ext; [|exact Hq3]. intros x Hx. rewrite lookup_insert_ne; [done|]. by intros <-.
  - rewrite fmap_app. apply NoDup_app. split_and!; [done| |apply NoDup_singleton].
    intros x Hx E%list_elem_of_singleton. simpl in E. by subst x.
  - intros x Hx Hxl Hx'. rewrite fmap_app, elem_of_app in Hx'.
    assert (x <> p) by (intros ->; apply Hx'; right; left).
    rewrite lookup_insert_ne by done. rewrite Hfr by done. by apply Hh2.
  - intros x. rewrite fmap_app, elem_of_app. intros [?|Hx%list_elem_of_singleton]; [by left|]. right. by rewrite Hx.
  - intros x Hx Hx'. destruct Hx'. rewrite fmap_app, elem_of_app. by left.
Qed.

Lemma do_psem_signal_free (setreply : Z -> Z -> W -> W) :
  0 <= v < INT_MAX ->
  wp (do_psem_signal setreply) (fun r s' => r = OK /\ exists h', s' = with_mem h' s /\
    psem_inv h' (<[S := (v + 1, l)]> A)) s.
Proof using Hinv HS Hcall.
  intros Hv. destruct sem_at as (hd & Hc & _). unfold do_psem_signal.
  apply wp_bind, wp_gets, wp_bind. rewrite Hcall. eapply wp_load_semaphore; [done|].
  apply wp_bind. eapply wp_lift; [apply int_ok_in; simpl; unfold INT_MIN, INT_MAX in *; lia|]. simpl.
  apply wp_bind. eapply wp_mono; [apply set_value_ok|]. intros [] s1 (h1 & -> & H1).
  rewrite (proj2 (Z.leb_gt _ _)) by lia. apply wp_ret. split; [done|]. by exists h1.
Qed.
End one.

Lemma do_psem_signal_wakes (setreply : Z -> Z -> W -> W) s A S v p i l :
  psem_inv (mem s) A -> A !! S = Some (v, (p, i) :: l) -> m1_p1 s = S ->
  INT_MIN <= v < 0 -> 0 <= i <= NR_PROCS ->
  wp (do_psem_signal setreply) (fun r s' => r = OK /\ exists h',
    s' = with_rest (setreply i 0 (rest s)) (with_mem h' s) /\
    psem_inv h' (<[S := (v + 1, l)]> A)) s.
Proof using Type.
  intros Hinv HS Hcall Hv Hi. destruct (sem_at _ _ _ _ _ Hinv HS) as (hd & Hc & _).
  unfold do_psem_signal. apply wp_bind, wp_gets, wp_bind. rewrite Hcall.
  eapply wp_load_semaphore; [done|].
  apply wp_bind. eapply wp_lift; [apply int_ok_in; simpl; unfold INT_MIN, INT_MAX in *; lia|]. simpl.
  apply wp_bind. eapply wp_mono; [by eapply set_value_ok|]. intros [] s1 (h1 & -> & H1).
  rewrite (proj2 (Z.leb_le _ _)) by lia. apply wp_bind. eapply wp_mono.
  { eapply (dequeue_from_ok (with_mem h1 s) _ S (v + 1) _ H1). apply lookup_insert_eq. }
  intros P s2 (h2 & -> & -> & Hp0 & Hp & H2). apply wp_bind. eapply wp_load_process; [done|].
  apply wp_bind. eapply wp_free; [done|]. apply wp_bind. simpl. unfold mproc_addr.
  rewrite decide_True by done. apply wp_ret, wp_bind, wp_gets, wp_bind, wp_modify, wp_ret.
  split; [done|]. eexists. split; [done|]. by rewrite insert_insert_eq in H2.
Qed.
End props.

(** ** The abstract semaphore *)

Record counting := mk_counting { permits : Z; waiting : list Z }.
Inductive sem_op := Wait | Signal.

(** The answer to the caller, the process that is woken, the new semaphore. *)
Definition spec_step (e : sem_op * Z) (c : counting) : ecode * list Z * counting :=
  match e with
  | (Wait, who) =>
      if 0 <? permits c then (OK, [], mk_counting (permits c - 1) (waiting c))
      else (SUSPEND, [], mk_counting (permits c) (waiting c ++ [who]))
  | (Signal, _) =>
      match waiting c with
      | [] => (OK, [], mk_counting (permits c + 1) [])
      | i :: w => (OK, [i], mk_counting (permits c) w)
      end
  end.

Fixpoint spec_run (es : list (sem_op * Z)) (c : counting) : list ecode * list Z * counting :=
  match es with
  | [] => ([], [], c)
  | e :: es' =>
      let '(r, w, c1) := spec_step e c in
      let '(rs, ws, c2) := spec_run es' c1 in
      (r :: rs, w ++ ws, c2)
  end.

(** The processes suspended by their waits, the number of waits passed at once,
    and the number of signals. *)
Fixpoint suspended (es : list (sem_op * Z)) (rs : list ecode) : list Z :=
  match es, rs with
  | (Wait, who) :: es', SUSPEND :: rs' => who :: suspended es' rs'
  | _ :: es', _ :: rs' => suspended es' rs'
  | _, _ => []
  end.
Fixpoint passed (es : list (sem_op * Z)) (rs : list ecode) : Z :=
  match es, rs with
  | (Wait, _) :: es', OK :: rs' => 1 + passed es' rs'
  | _ :: es', _ :: rs' => passed es' rs'
  | _, _ => 0
  end.
Fixpoint signals (es : list (sem_op * Z)) : Z :=
  match es with
  | [] => 0
  | (Signal, _) :: es' => 1 + signals es'
  | (Wait, _) :: es' => signals es'
  end.

Definition counting_ok (c : counting) : Prop :=
  0 <= permits c /\ (permits c = 0 \/ waiting c = []).

Lemma spec_step_ok e c :
  counting_ok c -> counting_ok (spec_step e c).2.
Proof.
  intros [H0 H1]. destruct e as [[|] who]; simpl.
  - destruct (Z.ltb_spec 0 (permits c)); simpl; unfold counting_ok; simpl; split; try lia.
    destruct H1; [lia|by right].
  - destruct (waiting c) as [|i w]; unfold counting_ok; simpl; split; try lia; [by right|].
    left. by destruct H1.
Qed.

(** Waiting processes are woken in the order they were suspended, and no permit
    is lost or made up. *)
Lemma spec_run_ok es c :
  counting_ok c ->
  let '(rs, ws, c') := spec_run es c in
  counting_ok c' /\ waiting c ++ suspended es rs = ws ++ waiting c' /\
  passed es rs + Z.of_nat (length ws) + permits c' = permits c + signals es.
Proof.
  revert c. induction es as [|e es IH]; intros c Hc.
  { simpl. split; [done|]. split; [by rewrite app_nil_r|lia]. }
  cbn [spec_run]. pose proof (spec_step_ok e c Hc) as Hc1.
  destruct (spec_step e c) as [[r w] c1] eqn:E. simpl in Hc1. specialize (IH c1 Hc1).
  destruct (spec_run es c1) as [[rs ws] c2]. destruct IH as (H1 & H2 & H3).
  split; [done|]. rewrite length_app, <- app_assoc.
  destruct e as [[|] who]; simpl in E.
  - destruct (0 <? permits c); injection E as <- <- <-; simpl in *.
    + split; [done|lia].
    + split; [|lia]. rewrite <- H2, <- app_assoc. done.
  - destruct (waiting c) as [|i wt]; injection E as <- <- <-; simpl in *.
    + split; [done|lia].
    + split; [by rewrite <- H2|lia].
Qed.

Section run.
Context {W : Type} (malloc : heap -> Z) (setreply : Z -> Z -> W -> W).

(** A message of process [who] about the semaphore [S]. *)
Definition psem_call (S : Z) (e : sem_op * Z) : M (pm W) ecode :=
  modify (fun s => mk_pm (mem s) (m1_i1 s) S (snd e) (rest s));;
  match fst e with Wait => do_psem_wait malloc | Signal => do_psem_signal setreply end.

Fixpoint psem_calls (S : Z) (es : list (sem_op * Z)) : M (pm W) (list ecode) :=
  match es with
  | [] => mret []
  | e :: es' => r ← psem_call S e; rs ← psem_calls S es'; mret (r :: rs)
  end.

(** A semaphore in the heap and its abstraction. *)
Definition represents (s : pm W) (S : Z) (c : counting) : Prop :=
  exists A l, psem_inv (mem s) A /\
    A !! S = Some (permits c - Z.of_nat (length (waiting c)), l) /\ l.*2 = waiting c.

Lemma represents_intro s A S v l c :
  psem_inv (mem s) (<[S := (v, l)]> A) -> v = permits c - Z.of_nat (length (waiting c)) ->
  l.*2 = waiting c -> represents s S c.
Proof using Type. intros H -> Hl. eexists _, l. split; [exact H|]. by rewrite lookup_insert_eq. Qed.

Definition wake (ws : list Z) (w : W) : W := fold_left (fun w i => setreply i 0 w) ws w.

Hypothesis malloc_fresh : forall h, malloc h <> NULL /\ h !! malloc h = None.

Lemma psem_call_ok s S e c :
  represents s S c -> counting_ok c -> 0 <= snd e <= NR_PROCS ->
  Forall (fun i => 0 <= i <= NR_PROCS) (waiting c) ->
  permits c < INT_MAX -> Z.of_nat (length (waiting c)) < INT_MAX ->
  let '(r, ws, c') := spec_step e c in
  wp (psem_call S e) (fun r' s' => r' = r /\ represents s' S c' /\ rest s' = wake ws (rest s)) s.
Proof using malloc_fresh.
  intros (A & l & Hinv & HS & Hl) [H0 H1] He Hw Hpm Hwl. remember (_ - _) as v eqn:Ev in HS.
  assert (length l = length (waiting c)) as Hlen by by rewrite <- Hl, length_fmap.
  destruct e as [[|] who]; simpl in *.
  - destruct (Z.ltb_spec 0 (permits c)) as [Hp|Hp]; apply wp_bind, wp_modify; simpl.
    + assert (waiting c = []) as Ew by (destruct H1; [lia|done]).
      rewrite Ew in *. simpl in *. subst v. eapply wp_mono; [eapply do_psem_wait_free; [exact Hinv|exact HS|done|lia]|].
      intros r s' (-> & h' & -> & H'). split; [done|]. split; [|done].
      eapply represents_intro; [exact H'|simpl; lia|done].
    + eapply wp_mono.
      { eapply do_psem_wait_queues; [exact Hinv|exact HS|done| |exact malloc_fresh].
        unfold INT_MIN, INT_MAX in *. lia. }
      intros r s' (-> & h' & p & -> & H'). split; [done|]. split; [|done].
      eapply represents_intro; [exact H'| |simpl; by rewrite fmap_app, Hl].
      simpl. rewrite length_app. simpl. lia.
  - destruct (waiting c) as [|i w] eqn:Ew; simpl in *; apply wp_bind, wp_modify; simpl.
    + eapply wp_mono; [eapply do_psem_signal_free; [exact Hinv|exact HS|done|lia]|].
      intros r s' (-> & h' & -> & H'). split; [done|]. split; [|done].
      eapply represents_intro; [exact H'|simpl; lia|done].
    + destruct H1 as [H1|]; [|done]. destruct l as [|[p i'] l]; [done|]. injection Hl as -> Hl.
      apply Forall_cons in Hw as [Hi Hw]. eapply wp_mono.
      { eapply (do_psem_signal_wakes setreply (mk_pm (mem s) (m1_i1 s) S who (rest s)));
          [exact Hinv|exact HS|done| |done]. unfold INT_MIN, INT_MAX in *. lia. }
      intros r s' (-> & h' & -> & H'). split; [done|]. split; [|done].
      eapply represents_intro; [exact H'|simpl; lia|done].
Qed.

Definition slot_ok (i : Z) : Prop := 0 <= i <= NR_PROCS.

Lemma spec_step_bounds e c r ws c' :
  spec_step e c = (r, ws, c') -> slot_ok (snd e) -> Forall slot_ok (waiting c) ->
  Forall slot_ok (waiting c') /\ permits c' <= permits c + 1 /\
  (length (waiting c') <= length (waiting c) + 1)%nat.
Proof using Type.
  destruct e as [[|] who]; simpl; intros E He Hw.
  - destruct (0 <? permits c); injection E as <- <- <-; simpl; (split; [|rewrite ?length_app; simpl; lia]).
    + done.
    + apply Forall_app. auto.
  - destruct (waiting c) as [|i w]; injection E as <- <- <-; simpl.
    + split; [done|lia].
    + apply Forall_cons in Hw as [_ Hw]. split; [done|lia].
Qed.

Lemma psem_calls_ok S es s c :
  represents s S c -> counting_ok c -> Forall (fun e => slot_ok (snd e)) es ->
  Forall slot_ok (waiting c) -> permits c + Z.of_nat (length es) <= INT_MAX ->
  Z.of_nat (length (waiting c)) + Z.of_nat (length es) <= INT_MAX ->
  let '(rs, ws, c') := spec_run es c in
  wp (psem_calls S es) (fun rs' s' => rs' = rs /\ represents s' S c' /\ rest s' = wake ws (rest s)) s.
Proof using malloc_fresh.
  revert s c. induction es as [|e es IH]; intros s c Hr Hc He Hw Hp Hl; [by apply wp_ret|].
  apply Forall_cons in He as [He Hes]. cbn [spec_run psem_calls]. simpl in Hp, Hl.
  assert (Hcall := psem_call_ok s S e c Hr Hc He Hw ltac:(lia) ltac:(lia)).
  pose proof (spec_step_ok e c Hc) as Hc1. destruct (spec_step e c) as [[r w] c1] eqn:E.
  destruct (spec_step_bounds _ _ _ _ _ E He Hw) as (Hw1 & Hp1 & Hl1).
  destruct (spec_run es c1) as [[rs ws] c2] eqn:E2. apply wp_bind.
  eapply wp_mono; [exact Hcall|]. intros r' s1 (-> & Hr1 & Hrest). apply wp_bind.
  specialize (IH s1 c1 Hr1 Hc1 Hes Hw1 ltac:(lia) ltac:(lia)). rewrite E2 in IH.
  eapply wp_mono; [exact IH|]. intros rs' s2 (-> & Hr2 & Hrest2). apply wp_ret.
  split; [done|]. split; [done|]. rewrite Hrest2, Hrest. unfold wake. by rewrite fold_left_app.
Qed.

(** [do_psem_init] makes a semaphore with that value and no waiting process. *)
Lemma do_psem_init_ok (s : pm W) (A : absheap) :
  psem_inv (mem s) A ->
  wp (do_psem_init malloc) (fun r s' => r = OK /\ rest s' = rest s /\
    A !! m1_p1 s' = None /\ psem_inv (mem s') (<[m1_p1 s' := (m1_i1 s, [])]> A)) s.
Proof using malloc_fresh.
  intros Hinv. unfold do_psem_init. apply wp_bind, wp_gets, wp_bind, wp_bind, wp_gets, wp_bind.
  destruct (malloc_fresh (mem s)) as [Hn Hf]. set (S := malloc (mem s)) in *.
  rewrite (proj2 (Z.eqb_neq S NULL)) by done. apply wp_modify, wp_ret.
  rewrite (proj2 (Z.eqb_neq S NULL)) by done. apply wp_bind.
  eapply wp_store; [apply lookup_insert_eq|]. simpl. rewrite insert_insert_eq.
  apply wp_bind, wp_modify, wp_ret. simpl. split; [done|]. split; [done|].
  assert (A !! S = None) as HA.
  { destruct (A !! S) as [[v l]|] eqn:E; [|done]. destruct (pi_sem _ _ Hinv _ _ _ E) as [(hd & Hc & _) _].
    congruence. }
  assert (forall T v l x, A !! T = Some (v, l) -> x ∈ l.*1 -> x <> S) as HxS.
  { intros T v l x HT Hx ->. destruct (pi_sem _ _ Hinv _ _ _ HT) as [(hd & _ & Hq) _].
    destruct (qseg_lookup _ _ _ _ _ Hq Hx). congruence. }
  split; [done|]. split.
  - rewrite lookup_insert_ne by done. apply (pi_null _ _ Hinv).
  - intros T v l. destruct (decide (T = S)) as [->|HT].
    + rewrite lookup_insert_eq. intros [= <- <-]. split; [|constructor]. exists NULL.
      by rewrite lookup_insert_eq.
    + rewrite lookup_insert_ne by done. intros HTA.
      destruct (pi_sem _ _ Hinv _ _ _ HTA) as [(hd & Hc & Hq) Hnd]. split; [|done]. exists hd.
      rewrite lookup_insert_ne by done. split; [done|]. eapply qseg_ext; [|done]. intros x Hx.
      rewrite lookup_insert_ne; [done|]. intros E. by eapply HxS.
  - intros T1 T2 v1 v2 l1 l2. destruct (decide (T1 = S)) as [->|H1], (decide (T2 = S)) as [->|H2];
      rewrite ?lookup_insert_eq, ?(lookup_insert_ne _ S) by done.
    + done.
    + intros [= <- <-] _ _ x Hx. by apply elem_of_nil in Hx.
    + intros _ [= <- <-] _ x _ Hx. by apply elem_of_nil in Hx.
    + apply (pi_disj _ _ Hinv).
  - intros x Hx. destruct (decide (x = S)) as [->|Hne]; [left; rewrite lookup_insert_eq; by eexists|].
    rewrite lookup_insert_ne in Hx by done. destruct (pi_exact _ _ Hinv x Hx) as [?|(T & v & l & HT & Hxl)].
    + left. by rewrite lookup_insert_ne.
    + right. exists T, v, l. split; [|done]. rewrite lookup_insert_ne; [done|]. intros <-. congruence.
Qed.
End run.

(** ** Freeing a semaphore *)

Lemma psem_inv_delete h (A : absheap) S v :
  psem_inv h A -> A !! S = Some (v, []) -> psem_inv (delete S h) (delete S A).
Proof.
  intros [H0 Hs Hd He] HS. split.
  - destruct (decide (S = NULL)) as [->|]; [apply lookup_delete_eq|by rewrite lookup_delete_ne].
  - intros T w m [HT HTm]%lookup_delete_Some. destruct (Hs _ _ _ HTm) as [(hd & Hc & Hq) Hnd].
    split; [|done]. exists hd. rewrite lookup_delete_ne by done. split; [done|].
    eapply qseg_ext; [|done]. intros x Hx. rewrite lookup_delete_ne; [done|]. intros <-.
    destruct (qseg_lookup _ _ _ _ _ Hq Hx), (Hs _ _ _ HS) as [(? & ? & _) _]. congruence.
  - intros T1 T2 w1 w2 m1 m2 [_ H1]%lookup_delete_Some [_ H2]%lookup_delete_Some. by eapply Hd.
  - intros x [c [HxS Hx]%lookup_delete_Some]. destruct (He x) as [?|(T & w & m & HT & Hxm)]; [by exists c| |].
    + left. by rewrite lookup_delete_ne.
    + right. exists T, w, m. split; [|done]. rewrite lookup_delete_ne; [done|]. intros <-.
      rewrite HS in HT. injection HT as <- <-. by apply elem_of_nil in Hxm.
Qed.

Lemma free_waiting_ok {W} fuel (s : pm W) (A : absheap) S v P l :
  A !! S = Some (v, l) -> (length l + 1 <= fuel)%nat ->
  (P = NULL /\ l = [] /\ psem_inv (mem s) A \/
   P <> NULL /\ (length l + 2 <= fuel)%nat /\ is_Some (mem s !! P) /\ psem_inv (delete P (mem s)) A) ->
  wp (free_waiting fuel S P) (fun _ s' => exists h', s' = with_mem h' s /\
    psem_inv h' (<[S := (v, [])]> A)) s.
Proof.
  revert s A P l. induction fuel as [|fuel IH]; intros s A P l HS Hf HP; [lia|].
  cbn [free_waiting]. destruct HP as [(-> & -> & Hinv)|(HP & Hf2 & [c Hc] & Hinv)].
  { apply wp_ret. exists (mem s). by rewrite with_mem_same, insert_id. }
  rewrite (proj2 (Z.eqb_neq P NULL)) by done. apply wp_bind. eapply wp_free; [done|].
  set (s1 := with_mem _ s). apply wp_bind. eapply wp_mono; [by eapply (dequeue_from_ok s1 A S v l)|].
  intros P' s2 (h2 & -> & H2). destruct l as [|[p i] l].
  - destruct H2 as [-> H2]. eapply wp_mono; [apply (IH _ A NULL []); [done|lia|by left]|].
    intros [] s3 (h3 & -> & H3). by exists h3.
  - destruct H2 as (-> & Hp & Hc' & H2). eapply wp_mono.
    { apply (IH _ (<[S := (v, l)]> A) p l); [apply lookup_insert_eq|simpl in Hf; lia|right].
      split; [done|]. split; [simpl in Hf2; lia|]. split; [by eexists|done]. }
    intros [] s3 (h3 & -> & H3). exists h3. by rewrite insert_insert_eq in H3.
Qed.

Section theorems.
Context {W : Type} (malloc : heap -> Z) (setreply : Z -> Z -> W -> W).
Implicit Types s : pm W.


(** Destroying a semaphore ends, frees the semaphore and the nodes of all its
    waiting processes, and nothing else; the waiting processes get no answer, so
    they stay suspended. *)
Theorem psem_destroy_frees s (A : absheap) v l :
  psem_inv (mem s) A -> A !! m1_p1 s = Some (v, l) ->
  wp do_psem_destroy (fun r s' => r = OK /\ rest s' = rest s /\
    psem_inv (mem s') (delete (m1_p1 s) A) /\
    mem s' !! m1_p1 s = None /\ Forall (fun x => mem s' !! x = None) l.*1) s.
Proof using Type.
  intros Hinv HS. destruct (sem_at _ _ _ _ _ Hinv HS) as (hd & Hc & Hq & Hnd & _ & HSl).
  unfold do_psem_destroy. apply wp_bind, wp_gets, wp_bind, wp_gets, wp_bind.
  assert (length l + 1 <= size (mem s))%nat as Hsize.
  { assert (qseg (delete (m1_p1 s) (mem s)) NULL hd l) as Hq'.
    { eapply qseg_ext; [|exact Hq]. intros x Hx. rewrite lookup_delete_ne; [done|]. by intros <-. }
    apply qseg_size in Hq'; [|done]. rewrite map_size_delete_Some in Hq' by eauto.
    pose proof (map_size_ne_0_lookup_2 (mem s) (m1_p1 s) ltac:(by eexists)). lia. }
  eapply wp_mono; [by eapply dequeue_from_ok|]. intros P s1 (h1 & -> & H1).
  assert (exists A1 l1, A1 !! m1_p1 s = Some (v, l1) /\ delete (m1_p1 s) A1 = delete (m1_p1 s) A /\
    wp (free_waiting (size (mem s)) (m1_p1 s) P) (fun _ s' => exists h', s' = with_mem h' s /\
      psem_inv h' (<[m1_p1 s := (v, [])]> A1)) (with_mem h1 s)) as (A1 & l1 & HA1 & HdA & Hfree).
  { destruct l as [|[p i] l].
    - destruct H1 as [-> H1]. exists A, []. split; [done|]. split; [done|].
      apply (free_waiting_ok _ (with_mem h1 s) A _ v NULL []); [done|done|by left].
    - destruct H1 as (-> & Hp & Hpc & H1). exists (<[m1_p1 s := (v, l)]> A), l.
      rewrite lookup_insert_eq, delete_insert_eq. split; [done|]. split; [done|].
      simpl in Hsize. eapply (free_waiting_ok _ (with_mem h1 s)); [apply lookup_insert_eq|lia|right].
      split; [done|]. split; [lia|]. split; [by eexists|done]. }
  apply wp_bind. eapply wp_mono; [exact Hfree|]. intros [] s2 (h2 & -> & H2).
  destruct (pi_sem _ _ H2 (m1_p1 s) v []) as [(hd2 & Hc2 & _) _]; [apply lookup_insert_eq|].
  apply wp_bind. eapply wp_free; [exact Hc2|]. apply wp_ret. simpl. split; [done|]. split; [done|].
  assert (psem_inv (delete (m1_p1 s) h2) (delete (m1_p1 s) A)) as Hfin.
  { rewrite <- HdA, <- (delete_insert_eq A1 _ (v, [])). eapply psem_inv_delete; [done|apply lookup_insert_eq]. }
  split; [done|]. split; [apply lookup_delete_eq|]. apply Forall_forall. intros x Hx.
  destruct (_ !! x) eqn:E; [|done]. exfalso.
  destruct (pi_exact _ _ Hfin x ltac:(by eexists)) as [[[w m] [Hne HA]%lookup_delete_Some]|(T & w & m & [HT HTm]%lookup_delete_Some & Hxm)].
  - destruct (pi_sem _ _ Hinv _ _ _ HA) as [(? & ? & _) _], (qseg_lookup _ _ _ _ _ Hq Hx). congruence.
  - exact (pi_disj _ _ Hinv _ _ _ _ _ _ HS HTm HT x Hx Hxm).
Qed.

Lemma load_semaphore_err s p :
  (forall x, mem s !! p <> Some (CSemaphore x)) -> load_semaphore p s = Err NullDeref.
Proof using Type.
  intros Hp. unfold load_semaphore. apply err_bind, wp_gets. specialize (Hp).
  destruct (mem s !! p) as [[| |x]|]; try done. by destruct (Hp x).
Qed.

(** The three ways a message about a semaphore makes PM dereference a null or
    foreign pointer: the pointer in the message is that of no semaphore; a
    process must wait and there is no memory for its node; a semaphore
    initialised with a negative value is signalled while it is still negative. *)
Theorem psem_null_faults s (A : absheap) :
  psem_inv (mem s) A ->
  (A !! m1_p1 s = None ->
     do_psem_wait malloc s = Err NullDeref /\ do_psem_signal setreply s = Err NullDeref /\
     do_psem_destroy s = Err NullDeref) /\
  (forall v l, A !! m1_p1 s = Some (v, l) -> INT_MIN < v <= 0 -> (forall h, malloc h = NULL) ->
     do_psem_wait malloc s = Err NullDeref) /\
  (forall v, A !! m1_p1 s = Some (v, []) -> INT_MIN <= v < 0 ->
     do_psem_signal setreply s = Err NullDeref).
Proof using Type.
  intros Hinv. split; [|split].
  - intros HA. assert (load_semaphore (m1_p1 s) s = Err NullDeref) as E.
    { apply load_semaphore_err. intros x Hx.
      destruct (pi_exact _ _ Hinv (m1_p1 s) ltac:(by eexists)) as [[? ?]|(T & v & l & HT & Hxl)]; [congruence|].
      destruct (pi_sem _ _ Hinv _ _ _ HT) as [(hd & _ & Hq) _].
      destruct (qseg_lookup _ _ _ _ _ Hq Hxl). congruence. }
    split; [|split]; apply err_bind, wp_gets; [by apply err_bind_err..|].
    apply err_bind, wp_gets. apply err_bind_err. by apply err_bind_err.
  - intros v l HA Hv Hm. destruct (sem_at _ _ _ _ _ Hinv HA) as (hd & Hc & _).
    apply err_bind, wp_gets, err_bind. eapply wp_load_semaphore; [done|].
    apply err_bind. eapply wp_lift; [apply int_ok_in; simpl; unfold INT_MIN, INT_MAX in *; lia|].
    apply err_bind. eapply wp_set_value; [done|]. simpl. rewrite (proj2 (Z.ltb_lt _ _)) by lia.
    apply err_bind, wp_bind, wp_gets. rewrite Hm. apply wp_ret, err_bind, wp_gets, err_bind_err.
    apply err_bind, wp_gets, err_bind_err. simpl.
    destruct (sem_at _ _ _ _ _ Hinv HA) as (_ & _ & _ & _ & Hn & _).
    rewrite lookup_insert_ne by done. by rewrite (pi_null _ _ Hinv).
  - intros v HA Hv. destruct (sem_at _ _ _ _ _ Hinv HA) as (hd & Hc & _).
    apply err_bind, wp_gets, err_bind. eapply wp_load_semaphore; [done|].
    apply err_bind. eapply wp_lift; [apply int_ok_in; simpl; unfold INT_MIN, INT_MAX in *; lia|].
    apply err_bind. eapply wp_mono; [by eapply set_value_ok|]. intros [] s1 (h1 & -> & H1). simpl.
    rewrite (proj2 (Z.leb_le _ _)) by lia. apply err_bind. eapply wp_mono.
    { eapply (dequeue_from_ok (with_mem h1 s) _ _ (v + 1) [] H1). apply lookup_insert_eq. }
    intros P s2 (h2 & -> & -> & H2). apply err_bind_err, err_bind, wp_gets. simpl.
    by rewrite (pi_null _ _ H2).
Qed.
End theorems.

(** ** Instances *)

(** An allocator that hands out the first address after the ones in use. *)
Definition next_free (h : heap) : Z := 1 + fold_right Z.max 0 (map_to_list h).*1.

Lemma fold_max_ub l x : x ∈ l -> x <= fold_right Z.max 0 l.
Proof. induction 1; simpl; lia. Qed.
Lemma fold_max_nonneg l : 0 <= fold_right Z.max 0 l.
Proof. induction l; simpl; lia. Qed.

Lemma next_free_fresh h : next_free h <> NULL /\ h !! next_free h = None.
Proof.
  unfold next_free, NULL. pose proof (fold_max_nonneg (map_to_list h).*1). split; [lia|].
  destruct (h !! _) eqn:E; [|done]. exfalso.
  apply elem_of_map_to_list, (list_elem_of_fmap_2 fst) in E. apply fold_max_ub in E. simpl in E. lia.
Qed.

(** PM with no semaphore yet, and a log of the answers; the message asks for a
    semaphore of value [n]. *)
Definition empty_pm (n : Z) : pm (list Z) := mk_pm ∅ n 0 0 [].
Definition log_reply (i r : Z) (w : list Z) : list Z := w ++ [i].

Lemma empty_inv : psem_inv ∅ ∅.
Proof.
  split; [done| | |].
  - intros S v l E. by apply lookup_empty_Some in E.
  - intros S1 S2 v1 v2 l1 l2 E. by apply lookup_empty_Some in E.
  - intros x [c E]. by apply lookup_empty_Some in E.
Qed.

(** A mutex: 5 enters, 6 and 7 wait, 5 leaves, 6 leaves. *)
Definition demo_events : list (sem_op * Z) := [(Wait, 5); (Wait, 6); (Wait, 7); (Signal, 5); (Signal, 6)].


(** The heap with one semaphore of value -1, at address 1, on which process 6,
    whose node is at address 2, waits. *)
Definition waiting_heap : heap :=
  <[1 := CSemaphore (mk_semaphore (-1) 2)]> (<[2 := CProcess (mk_process 6 NULL NULL)]> ∅).
Definition waiting_abs : absheap := {[1 := (-1, [(2, 6)])]}.
Definition waiting_pm : pm (list Z) := mk_pm waiting_heap 0 1 5 [].

Lemma waiting_inv : psem_inv waiting_heap waiting_abs.
Proof.
  split; unfold waiting_abs.
  - reflexivity.
  - intros S v l [<- [= <- <-]]%lookup_singleton_Some. split; [|apply NoDup_singleton].
    exists 2. split; [reflexivity|]. split; [reflexivity|]. exists NULL. split; reflexivity.
  - intros S1 S2 v1 v2 l1 l2 [<- _]%lookup_singleton_Some [<- _]%lookup_singleton_Some. done.
  - intros x [c Hx]. unfold waiting_heap in Hx. apply lookup_insert_Some in Hx as [[<- _]|[_ Hx]].
    + left. by eexists.
    + apply lookup_insert_Some in Hx as [[<- _]|[_ Hx]]; [|by apply lookup_empty_Some in Hx].
      right. exists 1, (-1), [(2, 6)]. split; [reflexivity|left].
Qed.

