(* ===== verification/SemQueue.v ===== *)
(** * The semaphore library of the processes (PA3, sem.c)

    A semaphore in shared memory with a circular queue of blocked processes, and
    the operations that protect it with a semaphore of PM. The theorems state
    when the circular array is a queue, and where it is not. *)

From S2P Require Import Prelude.
#[local] Open Scope Z_scope.

(** The words of the shared segment: the list takes what is left of 1024 bytes. *)
Record semaphore := mk_semaphore {
  value : Z;
  size : Z;
  head : Z;
  tail : Z;
  slots : list Z;
}.
Definition segment_ints : Z := 1024 / 4.
Definition list_ints : Z := segment_ints - 4.

Definition set_value (v : Z) (S : semaphore) : semaphore :=
  mk_semaphore v (size S) (head S) (tail S) (slots S).
Definition set_head (h : Z) (S : semaphore) : semaphore :=
  mk_semaphore (value S) (size S) h (tail S) (slots S).
Definition set_tail (t : Z) (S : semaphore) : semaphore :=
  mk_semaphore (value S) (size S) (head S) t (slots S).
Definition set_slots (l : list Z) (S : semaphore) : semaphore :=
  mk_semaphore (value S) (size S) (head S) (tail S) l.

(** ** The circular queue *)

(** [( *tail + 1) % *size] *)
Definition next_tail (S : semaphore) : result Z :=
  t ← iadd (tail S) 1; irem t (size S).

Definition enqueue (p : Z) (S : semaphore) : result semaphore :=
  t ← next_tail S;
  if head S =? t then Ok S
  else
    t ← next_tail S;
    let S := set_tail t S in
    l ← aset (slots S) (tail S) p;
    let S := set_slots l S in
    Ok (if head S =? -1 then set_head 0 S else S).

Definition dequeue (S : semaphore) : result (Z * semaphore) :=
  if (head S =? -1) && (tail S =? -1) then Ok (0, S)
  else
    r ← aget (slots S) (head S);
    h ← iadd (head S) 1;
    let S := set_head h S in
    let S := if head S =? size S then set_head 0 S else S in
    h ← isub (head S) 1;
    Ok (r, if h =? tail S then set_head (-1) (set_tail (-1) S) else S).

(** ** The operations *)

(** The calls of PM, with the field of the message they use. *)
Inductive pm_call :=
| PSEM_INIT (i1 : Z) | PSEM_WAIT (p1 : Z) | PSEM_SIGNAL (p1 : Z)
| PROC_NO | PSEM_BLOCK (p1 : Z) | PSEM_WAKEUP (i1 : Z).

Section client.

(** The rest of the system [W]: PM behind [_syscall], shared memory and the log
    file behind the C library. *)
Context {W : Type}.
Record cstate := mk_cstate { sem : semaphore; world : W }.
Notation CM := (M cstate).
Context (_syscall : pm_call -> CM Z).
Context (shmget : Z -> bool -> CM Z) (shmat : Z -> CM (option semaphore)).
Context (log_open : CM bool).   (* fopen: whether the result is not NULL *)

Definition upd (f : semaphore -> semaphore) : CM unit :=
  modify (fun s => mk_cstate (f (sem s)) (world s)).

(** [exit(1)] ends the process: [None]. The result is the pointer of PM. *)
Definition psem_init (n sz key : Z) (init : bool) : CM (option Z) :=
  p ← (if init then _syscall (PSEM_INIT 1) else mret 0);
  shmid ← shmget key init;
  if shmid <? 0 then mret None
  else
    l ← shmat shmid;
    match l with
    | None => mret None
    | Some segment =>
        upd (fun _ => segment);;
        when init (upd (fun S => set_head (-1) (set_tail (-1)
          (mk_semaphore n sz (head S) (tail S) (slots S)))));;
        mret (Some p)
    end.

(** [fprintf] to the stream, which may be NULL. *)
Definition fprintf (opened : bool) : CM unit := if opened then skip else fail NullDeref.

Definition psem_wait (mtx : Z) : CM Z :=
  _syscall (PSEM_WAIT mtx);;
  S ← gets sem;
  v ← lift (isub (value S) 1);
  upd (set_value v);;
  fd ← log_open;
  fprintf fd;;
  if v <? 0 then
    pid ← _syscall PROC_NO;
    S ← gets sem;
    S' ← lift (enqueue pid S);
    upd (fun _ => S');;
    fprintf fd;;
    _syscall (PSEM_BLOCK mtx);;
    mret 0
  else
    _syscall (PSEM_SIGNAL mtx);;
    mret 0.

Definition psem_signal (mtx : Z) : CM Z :=
  _syscall (PSEM_WAIT mtx);;
  S ← gets sem;
  v ← lift (iadd (value S) 1);
  upd (set_value v);;
  fd ← log_open;
  fprintf fd;;
  (if v <=? 0 then
     S ← gets sem;
     r ← lift (dequeue S);
     let '(proc_nr, S') := (r : Z * semaphore) in
     upd (fun _ => S');;
     when (negb (proc_nr =? 0))
       (_syscall PROC_NO;; fprintf fd;; _syscall (PSEM_WAKEUP proc_nr);; skip)
   else skip);;
  _syscall (PSEM_SIGNAL mtx);;
  mret 0.
End client.
Arguments cstate : clear implicits.

(** ** What the words of the queue hold *)

(** The [n] entries from slot [i] on, around the array of [sz] slots. *)
Definition ring (sz : Z) (l : list Z) (i : Z) (n : nat) : list Z :=
  map (fun k => nth (Z.to_nat ((i + Z.of_nat k) mod sz)) l 0) (seq 0 n).

Definition contents (S : semaphore) : list Z :=
  if head S =? -1 then []
  else ring (size S) (slots S) (head S)
         (Z.to_nat ((tail S - head S) mod size S) + 1).

Definition queue_ok (S : semaphore) : Prop :=
  0 < size S <= list_ints /\ Z.of_nat (length (slots S)) = list_ints /\
  (head S = -1 /\ tail S = -1 \/ 0 <= head S < size S /\ 0 <= tail S < size S).

(** ** Arithmetic around the array *)

Lemma mod_step t sz : 0 < sz -> 0 <= t < sz -> (t + 1) mod sz = if t + 1 =? sz then 0 else t + 1.
Proof.
  intros Hs Ht. destruct (Z.eqb_spec (t + 1) sz) as [->|]; [by apply Z.mod_same; lia|].
  apply Z.mod_small. lia.
Qed.

Lemma dist_mod sz h t : 0 < sz -> 0 <= h < sz -> 0 <= t < sz ->
  (t - h) mod sz = if h <=? t then t - h else t - h + sz.
Proof.
  intros Hs Hh Ht. destruct (Z.leb_spec h t).
  - apply Z.mod_small. lia.
  - symmetry. apply (Z.mod_unique _ _ (-1)); lia.
Qed.

Lemma ring_S sz l i n : ring sz l i (S n) = ring sz l i n ++ [nth (Z.to_nat ((i + Z.of_nat n) mod sz)) l 0].
Proof. unfold ring. by rewrite seq_S, map_app. Qed.

Lemma ring_cons sz l i n :
  ring sz l i (S n) = nth (Z.to_nat (i mod sz)) l 0 :: ring sz l (i + 1) n.
Proof.
  unfold ring. cbn [seq map]. rewrite Z.add_0_r. f_equal.
  rewrite <- seq_shift, map_map. apply map_ext. intros k. do 2 f_equal. f_equal. lia.
Qed.

Lemma ring_mod sz l i n : 0 < sz -> ring sz l (i mod sz) n = ring sz l i n.
Proof.
  intros Hs. unfold ring. apply map_ext. intros k. do 2 f_equal. by rewrite Zplus_mod_idemp_l.
Qed.

(** All the slots, from the first one. *)
Lemma ring_prefix sz l n :
  Z.of_nat n <= sz -> (n <= length l)%nat -> ring sz l 0 n = take n l.
Proof.
  intros Hn Hl. apply list_eq. intros k. unfold ring. destruct (decide (k < n)%nat) as [Hk|Hk].
  - rewrite lookup_take_lt by done. rewrite list_lookup_fmap, lookup_seq_lt by done. cbn [fmap option_fmap option_map].
    rewrite Z.mod_small by lia. rewrite Z.add_0_l, Nat2Z.id, Nat.add_0_l, nth_lookup.
    destruct (l !! k) eqn:E; [done|]. apply lookup_ge_None in E. lia.
  - rewrite !lookup_ge_None_2; [done| |]; rewrite ?length_take, ?length_map, ?length_seq; lia.
Qed.

(** Offsets smaller than the size reach distinct slots. *)
Lemma ring_slot_inj sz i a b : 0 < sz -> 0 <= a < b -> b < sz -> (i + a) mod sz <> (i + b) mod sz.
Proof.
  intros Hs Ha Hb E. assert (((i + b) - (i + a)) mod sz = 0) as E'.
  { rewrite Zminus_mod, E, Z.sub_diag. apply Z.mod_0_l. lia. }
  rewrite Z.mod_small in E'; lia.
Qed.

(** Writing a slot outside the stretch does not change it. *)
Lemma ring_insert sz l i n t x :
  0 < sz -> 0 <= t < sz -> (forall k, (k < n)%nat -> (i + Z.of_nat k) mod sz <> t) ->
  ring sz (<[Z.to_nat t := x]> l) i n = ring sz l i n.
Proof.
  intros Hs Ht Hk. unfold ring. apply map_ext_in. intros k [_ Hkn]%in_seq.
  rewrite !nth_lookup, list_lookup_insert_ne; [done|].
  pose proof (Z.mod_pos_bound (i + Z.of_nat k) sz Hs). assert (k < n)%nat as Hk1 by lia. specialize (Hk k Hk1). lia.
Qed.

(** [next_tail] never faults on a well-formed queue. *)
Lemma next_tail_ok S : queue_ok S ->
  next_tail S = Ok ((tail S + 1) mod size S) /\ 0 <= (tail S + 1) mod size S < size S.
Proof.
  intros (Hs & Hl & Hht). unfold next_tail, list_ints, segment_ints in *.
  change (1024 / 4 - 4) with 252 in *.
  assert (INT_MIN <= tail S + 1 <= INT_MAX) as Hi by (unfold INT_MIN, INT_MAX; destruct Hht; lia).
  unfold iadd. rewrite int_ok_in by exact Hi. rsimpl. unfold irem.
  rewrite (proj2 (Z.eqb_neq _ _)) by lia. rewrite Z.rem_mod_nonneg by lia.
  split; [done|]. apply Z.mod_pos_bound. lia.
Qed.

(** ** The queue operations on the contents *)

Definition length_of (S : semaphore) : Z := Z.of_nat (length (contents S)).

Lemma contents_nonempty S : queue_ok S -> head S <> -1 ->
  0 <= head S < size S /\ 0 <= tail S < size S /\
  contents S = ring (size S) (slots S) (head S) (Z.to_nat ((tail S - head S) mod size S) + 1) /\
  length_of S = (tail S - head S) mod size S + 1.
Proof.
  intros (Hs & _ & Hht) Hh. assert (contents S = ring (size S) (slots S) (head S)
    (Z.to_nat ((tail S - head S) mod size S) + 1)) as E.
  { unfold contents. by rewrite (proj2 (Z.eqb_neq _ _)). }
  destruct Hht as [[? _]|[H1 H2]]; [done|]. split; [done|]. split; [done|]. split; [done|].
  unfold length_of. rewrite E. unfold ring. rewrite length_map, length_seq.
  pose proof (Z.mod_pos_bound (tail S - head S) (size S) ltac:(lia)). lia.
Qed.

Lemma contents_empty S : head S = -1 -> contents S = [].
Proof. unfold contents. by intros ->. Qed.

(** A queue with as many entries as slots is full: the next slot is the head. *)
Lemma full_iff S : queue_ok S ->
  (head S =? (tail S + 1) mod size S) = (length_of S =? size S).
Proof.
  intros Hq. pose proof Hq as (Hs & _ & Hht). destruct Hht as [[Hh Ht]|[Hh Ht]].
  - unfold length_of. rewrite contents_empty by done. rewrite Ht, Hh, Z.mod_0_l by lia.
    cbn [length]. rewrite (proj2 (Z.eqb_neq (Z.of_nat 0) _)) by lia. done.
  - destruct (contents_nonempty S Hq ltac:(lia)) as (_ & _ & _ & ->).
    rewrite mod_step, dist_mod by lia.
    destruct (Z.eqb_spec (tail S + 1) (size S)), (Z.leb_spec (head S) (tail S)); apply eq_true_iff_eq;
      rewrite !Z.eqb_eq; lia.
Qed.

Lemma enqueue_spec p S : queue_ok S -> exists S', enqueue p S = Ok S' /\ queue_ok S' /\
  value S' = value S /\ size S' = size S /\
  contents S' = (if length_of S =? size S then contents S else contents S ++ [p]).
Proof.
  intros Hq. pose proof Hq as (Hs & Hl & Hht). destruct (next_tail_ok S Hq) as [E Ht'].
  unfold enqueue. rewrite E. rsimpl. rewrite full_iff by done.
  destruct (Z.eqb_spec (length_of S) (size S)) as [Hfull|Hfull]; [by exists S|].
  pose proof (full_iff S Hq) as Hf. rewrite (proj2 (Z.eqb_neq (length_of S) _)) in Hf by done.
  apply Z.eqb_neq in Hf. set (t := (tail S + 1) mod size S) in *. cbn [set_tail slots tail head].
  assert (aset (slots S) t p = Ok (<[Z.to_nat t := p]> (slots S))) as ->
    by (unfold aset; rewrite decide_True by lia; done).
  rsimpl. destruct Hht as [[Hh Ht]|[Hh Ht]].
  - assert (t = 0) as Et by (unfold t; rewrite Ht; apply Z.mod_0_l; lia). simpl. rewrite Hh. simpl.
    eexists. split; [done|]. split; [|split; [done|split; [done|]]].
    + split; [done|]. split; [simpl; by rewrite length_insert|]. right. simpl. lia.
    + rewrite (contents_empty S Hh). unfold contents. simpl. rewrite Et, Z.sub_diag, Z.mod_0_l by lia.
      unfold ring. simpl. rewrite Z.mod_0_l by lia. simpl. destruct (slots S); [simpl in Hl; lia|done].
  - assert ((head S =? -1) = false) as Hh1 by (apply Z.eqb_neq; lia). simpl. rewrite Hh1.
    eexists. split; [done|]. split; [|split; [done|split; [done|]]].
    + split; [done|]. split; [simpl; by rewrite length_insert|]. right. simpl. lia.
    + destruct (contents_nonempty S Hq ltac:(lia)) as (_ & _ & -> & El). unfold contents. simpl. rewrite Hh1.
      assert ((t - head S) mod size S = (tail S - head S) mod size S + 1) as ->.
      { unfold t in *. rewrite mod_step in * by lia. rewrite !dist_mod by (destruct (_ =? _); lia).
        destruct (Z.eqb_spec (tail S + 1) (size S)), (Z.leb_spec (head S) (tail S)); try lia;
          destruct (Z.leb_spec (head S) 0), (Z.leb_spec (head S) (tail S + 1)); lia. }
      set (d := (tail S - head S) mod size S) in *.
      assert (0 <= d < size S) as Hd by (apply Z.mod_pos_bound; lia).
      replace (Z.to_nat (d + 1) + 1)%nat with (Datatypes.S (Z.to_nat d + 1)) by lia.
      assert ((head S + Z.of_nat (Z.to_nat d + 1)) mod size S = t) as Hslot.
      { replace (head S + Z.of_nat (Z.to_nat d + 1)) with (head S + d + 1) by lia. unfold d, t.
        rewrite <- Z.add_assoc, <- Zplus_mod_idemp_r.
        replace (head S + _) with (head S + ((tail S - head S) mod size S + 1) mod size S) by lia.
        rewrite Zplus_mod_idemp_l, Zplus_mod_idemp_r. f_equal. lia. }
      rewrite ring_S, Hslot. f_equal.
      * apply ring_insert; [lia|lia|]. intros k Hk E2.
        rewrite <- Hslot in E2. revert E2. apply ring_slot_inj; unfold length_of in *; lia.
      * rewrite nth_lookup, list_lookup_insert_eq by lia. done.
Qed.

(** Taking the last entry out of the last slot makes the queue full again, with
    whatever the slots hold. *)
Lemma dequeue_spec S : queue_ok S ->
  match contents S with
  | [] => dequeue S = Ok (0, S)
  | x :: xs => exists S', dequeue S = Ok (x, S') /\ queue_ok S' /\ value S' = value S /\ size S' = size S /\
      slots S' = slots S /\
      contents S' = (if (length_of S =? 1) && (head S + 1 =? size S)
                     then take (Z.to_nat (size S)) (slots S) else xs)
  end.
Proof.
  intros Hq. pose proof Hq as (Hs & Hl & Hht). destruct (Z.eq_dec (head S) (-1)) as [Hh|Hh].
  { rewrite contents_empty by done. unfold dequeue. rewrite Hh.
    destruct Hht as [[_ ->]|]; [done|lia]. }
  destruct (contents_nonempty S Hq Hh) as (H1 & H2 & -> & ->).
  set (d := (tail S - head S) mod size S).
  assert (0 <= d < size S) as Hd by (apply Z.mod_pos_bound; lia).
  rewrite Nat.add_1_r, ring_cons, Z.mod_small by lia.
  unfold dequeue. rewrite (proj2 (Z.eqb_neq (head S) (-1))) by done. cbn [andb].
  assert (aget (slots S) (head S) = Ok (nth (Z.to_nat (head S)) (slots S) 0)) as ->.
  { apply aget_Ok. split; [lia|]. rewrite nth_lookup.
    destruct (slots S !! Z.to_nat (head S)) eqn:E; [done|]. apply lookup_ge_None in E. lia. }
  change list_ints with 252 in *. rsimpl.
  unfold iadd. rewrite int_ok_in by (unfold INT_MIN, INT_MAX; lia). rsimpl.
  cbn [set_head head size]. unfold isub.
  assert (d = if head S <=? tail S then tail S - head S else tail S - head S + size S) as Ed
    by (apply dist_mod; lia).
  destruct (Z.eqb_spec (head S + 1) (size S)) as [Elast|Elast]; cbn [head tail set_head].
  - rewrite int_ok_in by (unfold INT_MIN, INT_MAX; lia). rsimpl.
    rewrite (proj2 (Z.eqb_neq (0 - 1) (tail S))) by lia.
    eexists. split; [done|]. split; [|split; [done|split; [done|split; [done|]]]].
    + split; [done|]. split; [done|]. right. simpl. lia.
    + unfold contents. simpl. rewrite andb_true_r. rewrite Z.sub_0_r, Z.mod_small by lia.
      destruct (Z.eqb_spec (d + 1) 1) as [E1|E1].
      * assert (tail S = size S - 1) as -> by (destruct (Z.leb_spec (head S) (tail S)); lia).
        replace (Z.to_nat (size S - 1) + 1)%nat with (Z.to_nat (size S)) by lia.
        apply ring_prefix; lia.
      * assert (d = tail S + 1) as -> by (destruct (Z.leb_spec (head S) (tail S)); lia).
        rewrite <- (ring_mod _ _ (head S + 1)), Elast, Z.mod_same by lia. f_equal. lia.
  - rewrite int_ok_in by (unfold INT_MIN, INT_MAX; lia). rsimpl.
    replace (head S + 1 - 1) with (head S) by lia. rewrite andb_false_r.
    destruct (Z.eqb_spec (head S) (tail S)) as [Et|Et].
    + eexists. split; [done|]. split; [|split; [done|split; [done|split; [done|]]]].
      * split; [done|]. split; [done|]. by left.
      * unfold contents. simpl. assert (d = 0) as ->; [|done].
        destruct (Z.leb_spec (head S) (tail S)); lia.
    + eexists. split; [done|]. split; [|split; [done|split; [done|split; [done|]]]].
      * split; [done|]. split; [done|]. right. simpl. lia.
      * unfold contents. simpl. rewrite (proj2 (Z.eqb_neq (head S + 1) (-1))) by lia.
        rewrite dist_mod by lia. f_equal.
        destruct (Z.leb_spec (head S) (tail S)), (Z.leb_spec (head S + 1) (tail S)); lia.
Qed.

Fixpoint enqueues (ps : list Z) (S : semaphore) : result semaphore :=
  match ps with [] => Ok S | p :: ps' => S' ← enqueue p S; enqueues ps' S' end.
Fixpoint dequeues (n : nat) (S : semaphore) : result (list Z * semaphore) :=
  match n with
  | O => Ok ([], S)
  | Datatypes.S n' =>
      r ← dequeue S; let '(x, S1) := (r : Z * semaphore) in
      r ← dequeues n' S1; let '(xs, S2) := (r : list Z * semaphore) in
      Ok (x :: xs, S2)
  end.

Lemma enqueue_head p S S' : enqueue p S = Ok S' -> queue_ok S -> head S' = if head S =? -1 then 0 else head S.
Proof.
  intros E Hq. destruct (next_tail_ok S Hq) as [Et Ht]. unfold enqueue in E. rewrite Et in E. rsimpl in E.
  destruct (Z.eqb_spec (head S) ((tail S + 1) mod size S)) as [Eh|_].
  - injection E as <-. by rewrite (proj2 (Z.eqb_neq (head S) (-1))) by lia.
  - destruct (aset _ _ _); [|done]. rsimpl in E. injection E as <-. cbn [head set_slots set_tail].
    by destruct (head S =? -1).
Qed.

Lemma enqueues_spec ps S : queue_ok S -> length_of S + Z.of_nat (length ps) <= size S ->
  exists S', enqueues ps S = Ok S' /\ queue_ok S' /\ size S' = size S /\
    contents S' = contents S ++ ps /\ (head S <= 0 -> ps <> [] -> head S' = 0).
Proof.
  revert S. induction ps as [|p ps IH]; intros S Hq Hl.
  { exists S. split; [done|]. split; [done|]. by rewrite app_nil_r. }
  simpl in Hl. destruct (enqueue_spec p S Hq) as (S1 & E1 & Hq1 & _ & Hs1 & Hc1).
  pose proof (enqueue_head _ _ _ E1 Hq) as Hh. rewrite (proj2 (Z.eqb_neq (length_of S) _)) in Hc1 by lia.
  destruct (IH S1 Hq1) as (S2 & E2 & Hq2 & Hs2 & Hc2 & Hh2).
  { unfold length_of in *. rewrite Hc1, length_app, Hs1. simpl. lia. }
  exists S2. cbn [enqueues]. rewrite E1. rsimpl. split; [done|]. split; [done|]. split; [congruence|].
  split; [by rewrite Hc2, Hc1, <- app_assoc|]. intros H0 _.
  assert (head S1 = 0) as Hh1.
  { destruct Hq as (_ & _ & [[Hm _]|[? _]]); rewrite Hh; [by rewrite Hm|].
    destruct (Z.eqb_spec (head S) (-1)); lia. }
  destruct ps as [|q ps]; [|apply Hh2; [lia|done]]. injection E2 as <-. done.
Qed.

(** With the tail in the last slot, the head runs through the array and around. *)
Lemma dequeue_tail_last S :
  queue_ok S -> 0 <= head S < size S -> tail S = size S - 1 ->
  dequeue S = Ok (nth (Z.to_nat (head S)) (slots S) 0,
                  set_head (if head S + 1 =? size S then 0 else head S + 1) S).
Proof.
  intros (Hs & Hl & _) Hh Ht. unfold dequeue. change list_ints with 252 in *.
  rewrite (proj2 (Z.eqb_neq (head S) (-1))) by lia. cbn [andb].
  assert (aget (slots S) (head S) = Ok (nth (Z.to_nat (head S)) (slots S) 0)) as ->.
  { apply aget_Ok. split; [lia|]. rewrite nth_lookup.
    destruct (slots S !! Z.to_nat (head S)) eqn:E; [done|]. apply lookup_ge_None in E. lia. }
  rsimpl. unfold iadd, isub. rewrite int_ok_in by (unfold INT_MIN, INT_MAX; lia). rsimpl.
  cbn [set_head head size].
  destruct (Z.eqb_spec (head S + 1) (size S)); cbn [head tail set_head];
    rewrite int_ok_in by (unfold INT_MIN, INT_MAX; lia); rsimpl;
    rewrite (proj2 (Z.eqb_neq _ (tail S))) by lia; done.
Qed.

Lemma dequeues_tail_last n S :
  queue_ok S -> 0 <= head S -> tail S = size S - 1 -> Z.of_nat n = size S - head S -> (0 < n)%nat ->
  dequeues n S = Ok (drop (Z.to_nat (head S)) (take (Z.to_nat (size S)) (slots S)), set_head 0 S).
Proof.
  revert S. induction n as [|n IH]; [lia|]. intros S Hq Hh Ht Hn _. pose proof Hq as (Hs & Hl & _).
  cbn [dequeues]. rewrite dequeue_tail_last by (done || lia). rsimpl.
  change list_ints with 252 in *.
  assert (drop (Z.to_nat (head S)) (take (Z.to_nat (size S)) (slots S)) =
    nth (Z.to_nat (head S)) (slots S) 0 ::
    drop (Z.to_nat (head S + 1)) (take (Z.to_nat (size S)) (slots S))) as ->.
  { replace (Z.to_nat (head S + 1)) with (Datatypes.S (Z.to_nat (head S))) by lia.
    apply drop_S. rewrite lookup_take_lt by lia. rewrite nth_lookup.
    destruct (slots S !! Z.to_nat (head S)) eqn:E; [done|]. apply lookup_ge_None in E. lia. }
  destruct (Z.eqb_spec (head S + 1) (size S)) as [E|E].
  - assert (n = O) as -> by lia. cbn [dequeues]. rsimpl. do 3 f_equal.
    rewrite drop_ge; [done|]. rewrite length_take. lia.
  - rewrite IH; [done| | | | |]; simpl; try lia. split; [done|]. split; [done|]. right. simpl. lia.
Qed.

(** The circular array is a queue of processes, up to its size: a process
    joins at the end, unless the queue is full, when it is dropped silently; the
    first process leaves - and unless it was the only one, in the last slot of
    the array, the others remain. Nothing is accessed out of bounds. *)
Theorem circular_fifo p S :
  queue_ok S ->
  (exists S', enqueue p S = Ok S' /\ queue_ok S' /\ value S' = value S /\ size S' = size S /\
     contents S' = if length_of S =? size S then contents S else contents S ++ [p]) /\
  (contents S = [] -> dequeue S = Ok (0, S)) /\
  (forall x xs, contents S = x :: xs -> xs <> [] \/ head S + 1 <> size S ->
     exists S', dequeue S = Ok (x, S') /\ queue_ok S' /\ value S' = value S /\ size S' = size S /\
       contents S' = xs).
Proof.
  intros Hq. split; [by apply enqueue_spec|]. pose proof (dequeue_spec S Hq) as Hd. split.
  - intros E. by rewrite E in Hd.
  - intros x xs E Hx. rewrite E in Hd. destruct Hd as (S' & ? & ? & ? & ? & _ & Hc).
    exists S'. split_and!; [done..|]. rewrite Hc. unfold length_of. rewrite E.
    destruct (Z.eqb_spec (Z.of_nat (length (x :: xs))) 1) as [E1|], (Z.eqb_spec (head S + 1) (size S)) as [E2|]; try done.
    destruct Hx; [|done]. destruct xs; [done|]. simpl in E1. lia.
Qed.


(** ** The operations between the calls of PM *)

Section ops.
Context {W : Type} (_syscall : pm_call -> M (cstate W) Z) (log_open : M (cstate W) bool).
Context (note : pm_call -> W -> W) (pid : Z).

(** While a process holds the mutex, its calls change the rest of the system
    only; PM answers with the number of the process; the log can be opened. *)
Definition calls_ok : Prop := forall c s, wp (_syscall c) (fun r s' =>
  s' = mk_cstate (sem s) (note c (world s)) /\ (c = PROC_NO -> r = pid)) s.
Definition log_ok : Prop := forall s, wp log_open (fun b s' => b = true /\ s' = s) s.

Definition noted (cs : list pm_call) (w : W) : W := fold_left (fun w c => note c w) cs w.

(** The calls of a wait and of a signal, by the value and the queue found. *)
Definition wait_calls (mtx : Z) (S : semaphore) : list pm_call :=
  if 0 <? value S then [PSEM_WAIT mtx; PSEM_SIGNAL mtx]
  else [PSEM_WAIT mtx; PROC_NO; PSEM_BLOCK mtx].
Definition signal_calls (mtx : Z) (S : semaphore) : list pm_call :=
  match contents S with
  | x :: _ => if (value S <? 0) && negb (x =? 0)
              then [PSEM_WAIT mtx; PROC_NO; PSEM_WAKEUP x; PSEM_SIGNAL mtx]
              else [PSEM_WAIT mtx; PSEM_SIGNAL mtx]
  | [] => [PSEM_WAIT mtx; PSEM_SIGNAL mtx]
  end.

Lemma calls_step (Hc : calls_ok) {B} c (f : Z -> M (cstate W) B) Q s :
  (forall r, (c = PROC_NO -> r = pid) -> wp (f r) Q (mk_cstate (sem s) (note c (world s)))) ->
  wp (_syscall c ≫= f) Q s.
Proof using Type.
  intros H. apply wp_bind. eapply wp_mono; [apply Hc|]. intros r s' [-> Hr]. by apply H.
Qed.

Lemma log_step (Hl : log_ok) {B} (f : bool -> M (cstate W) B) Q s :
  wp (f true) Q s -> wp (log_open ≫= f) Q s.
Proof using Type.
  intros H. apply wp_bind. eapply wp_mono; [apply Hl|]. by intros b s' [-> ->].
Qed.

Lemma upd_step {B} f (g : unit -> M (cstate W) B) Q s :
  wp (g tt) Q (mk_cstate (f (sem s)) (world s)) -> wp (upd f ≫= g) Q s.
Proof using Type. intros H. by apply wp_bind. Qed.

Lemma psem_wait_ok (Hc : calls_ok) (Hl : log_ok) mtx s :
  queue_ok (sem s) -> INT_MIN < value (sem s) <= INT_MAX ->
  wp (psem_wait _syscall log_open mtx) (fun _ s' =>
    world s' = noted (wait_calls mtx (sem s)) (world s) /\ queue_ok (sem s') /\
    value (sem s') = value (sem s) - 1 /\
    contents (sem s') = if (0 <? value (sem s)) || (length_of (sem s) =? size (sem s))
                        then contents (sem s) else contents (sem s) ++ [pid]) s.
Proof using Type.
  intros Hq Hv. unfold psem_wait. apply (calls_step Hc). intros _ _. apply wp_bind, wp_gets, wp_bind.
  eapply wp_lift; [apply int_ok_in; unfold INT_MIN, INT_MAX in *; simpl; lia|].
  apply upd_step, (log_step Hl), wp_bind, wp_ret. cbn [sem world]. unfold wait_calls.
  destruct (Z.ltb_spec 0 (value (sem s))) as [H0|H0].
  - rewrite (proj2 (Z.ltb_ge _ _)) by lia. apply (calls_step Hc). intros _ _. by apply wp_ret.
  - rewrite (proj2 (Z.ltb_lt _ _)) by lia. apply (calls_step Hc). intros r Hr. rewrite (Hr eq_refl).
    apply wp_bind, wp_gets, wp_bind. cbn [sem world].
    destruct (enqueue_spec pid (set_value (value (sem s) - 1) (sem s)) Hq) as (S' & E & Hq' & Hv' & _ & Hc').
    eapply wp_lift; [exact E|]. apply upd_step, wp_bind, wp_ret, (calls_step Hc). intros _ _.
    by apply wp_ret.
Qed.

Lemma psem_signal_ok (Hc : calls_ok) (Hl : log_ok) mtx s :
  queue_ok (sem s) -> INT_MIN <= value (sem s) < INT_MAX ->
  (forall x, contents (sem s) = [x] -> head (sem s) + 1 <> size (sem s)) ->
  wp (psem_signal _syscall log_open mtx) (fun _ s' =>
    world s' = noted (signal_calls mtx (sem s)) (world s) /\ queue_ok (sem s') /\
    value (sem s') = value (sem s) + 1 /\
    contents (sem s') = if value (sem s) <? 0 then tl (contents (sem s)) else contents (sem s)) s.
Proof using Type.
  intros Hq Hv Hlast. unfold psem_signal. apply (calls_step Hc). intros _ _. apply wp_bind, wp_gets, wp_bind.
  eapply wp_lift; [apply int_ok_in; unfold INT_MIN, INT_MAX in *; simpl; lia|].
  apply upd_step, (log_step Hl), wp_bind, wp_ret. cbn [sem world]. unfold signal_calls.
  set (S1 := set_value (value (sem s) + 1) (sem s)).
  destruct (Z.ltb_spec (value (sem s)) 0) as [H0|H0].
  2:{ rewrite (proj2 (Z.leb_gt _ _)) by lia. apply wp_bind, wp_ret, (calls_step Hc). intros _ _.
      apply wp_ret. split; [|done]. by destruct (contents (sem s)). }
  rewrite (proj2 (Z.leb_le _ _)) by lia. apply wp_bind, wp_bind, wp_gets, wp_bind. cbn [sem].
  pose proof (dequeue_spec S1 Hq) as Hd. change (contents S1) with (contents (sem s)) in Hd.
  destruct (contents (sem s)) as [|x xs] eqn:E.
  - eapply wp_lift; [exact Hd|]. apply upd_step, wp_ret, (calls_step Hc). intros _ _. by apply wp_ret.
  - destruct Hd as (S2 & Ed & Hq2 & Hv2 & _ & _ & Hc2).
    assert (contents S2 = xs) as Hc2'.
    { rewrite Hc2. change (length_of S1) with (length_of (sem s)). unfold length_of. rewrite E.
      destruct xs as [|y xs].
      - rewrite (proj2 (Z.eqb_neq (head S1 + 1) _)) by exact (Hlast x eq_refl). by rewrite andb_false_r.
      - rewrite (proj2 (Z.eqb_neq _ 1)) by (cbn [length]; lia). done. }
    eapply wp_lift; [exact Ed|]. apply upd_step. destruct (x =? 0); cbn [negb when andb].
    + apply wp_ret, (calls_step Hc). intros _ _. by apply wp_ret.
    + apply (calls_step Hc). intros _ _. apply wp_bind, wp_ret, (calls_step Hc). intros _ _.
      apply wp_ret, (calls_step Hc). intros _ _. by apply wp_ret.
Qed.

(** A wait of the library, called with the mutex of PM: when the value is
    positive it takes one permit and releases the mutex; otherwise it queues the
    process (if there is room) and gives up the mutex by blocking. A signal
    returns a permit, takes the first process off the queue when there are
    waiting ones, wakes it, and releases the mutex in every case. *)
Theorem psem_ops_contract mtx s :
  calls_ok -> log_ok -> queue_ok (sem s) -> INT_MIN < value (sem s) < INT_MAX ->
  (forall x, contents (sem s) = [x] -> head (sem s) + 1 <> size (sem s)) ->
  wp (psem_wait _syscall log_open mtx) (fun _ s' =>
    world s' = noted (wait_calls mtx (sem s)) (world s) /\ queue_ok (sem s') /\
    value (sem s') = value (sem s) - 1 /\
    contents (sem s') = if (0 <? value (sem s)) || (length_of (sem s) =? size (sem s))
                        then contents (sem s) else contents (sem s) ++ [pid]) s /\
  wp (psem_signal _syscall log_open mtx) (fun _ s' =>
    world s' = noted (signal_calls mtx (sem s)) (world s) /\ queue_ok (sem s') /\
    value (sem s') = value (sem s) + 1 /\
    contents (sem s') = if value (sem s) <? 0 then tl (contents (sem s)) else contents (sem s)) s.
Proof using Type.
  intros Hc Hl Hq Hv Hlast. split; [apply psem_wait_ok|apply psem_signal_ok]; done || lia.
Qed.
End ops.

(** ** Instances *)

(** Three slots, as the programs use them; 11 and 12 wait in the first two. *)
Definition demo_sem : semaphore := mk_semaphore (-2) 3 0 1 (11 :: 12 :: repeat 0 250).

Lemma demo_sem_ok : queue_ok demo_sem.
Proof. unfold queue_ok, list_ints, segment_ints. simpl. split; [split; [lia|vm_compute; discriminate]|]. split; [reflexivity|]. right. lia. Qed.



(** PM keeps a list of its calls and answers 13. *)
Definition log_call (c : pm_call) : M (cstate (list pm_call)) Z :=
  fun s => Ok (13, mk_cstate (sem s) (world s ++ [c])).

Lemma psem_ops_contract_witness :
  wp (psem_signal log_call (mret true) 7) (fun _ s' =>
    world s' = [PSEM_WAIT 7; PROC_NO; PSEM_WAKEUP 11; PSEM_SIGNAL 7] /\ contents (sem s') = [12])
    (mk_cstate demo_sem []).
Proof.
  eapply wp_mono.
  - apply (psem_ops_contract log_call (mret true) (fun c w => w ++ [c]) 13 7 (mk_cstate demo_sem [])).
    + intros c s. split; [reflexivity|]. intros _. reflexivity.
    + intros s. split; reflexivity.
    + exact demo_sem_ok.
    + unfold INT_MIN, INT_MAX. simpl. lia.
    + intros x E. discriminate E.
  - intros r s' (H1 & _ & _ & H2). exact (conj H1 H2).
Defined.
