(* ===== verification/Tll.v ===== *)
(** * The three-level lock of VFS (servers/vfs/tll.c)

    A lock with read-only, read-serialized and write-only access, the worker
    threads that queue for it, and the system of threads that use it. A thread
    that calls [worker_wait] suspends: an operation then returns where to go on,
    and another event resumes it. *)

From S2P Require Import Prelude KTypes.
#[local] Open Scope Z_scope.

(** ** The lock *)

Inductive tll_access_t := TLL_NONE | TLL_READ | TLL_READSER | TLL_WRITE.
#[export] Instance tll_access_t_eq_dec : EqDecision tll_access_t.
Proof. solve_decision. Defined.

Definition TLL_DFLT : Z := 0.
Definition TLL_UPGR : Z := 1.
Definition TLL_PEND : Z := 2.

(** Workers are named by their slots in the table [workers]. *)
Record tll_t := mk_tll {
  t_current : tll_access_t;
  t_owner : option Z;
  t_readonly : Z;
  t_status : Z;
  t_write : option Z;
  t_serial : option Z;
}.
Definition set_t_current (v : tll_access_t) (l : tll_t) : tll_t :=
  mk_tll v (t_owner l) (t_readonly l) (t_status l) (t_write l) (t_serial l).
Definition set_t_owner (v : option Z) (l : tll_t) : tll_t :=
  mk_tll (t_current l) v (t_readonly l) (t_status l) (t_write l) (t_serial l).
Definition set_t_readonly (v : Z) (l : tll_t) : tll_t :=
  mk_tll (t_current l) (t_owner l) v (t_status l) (t_write l) (t_serial l).
Definition set_t_status (v : Z) (l : tll_t) : tll_t :=
  mk_tll (t_current l) (t_owner l) (t_readonly l) v (t_write l) (t_serial l).
Definition set_t_write (v : option Z) (l : tll_t) : tll_t :=
  mk_tll (t_current l) (t_owner l) (t_readonly l) (t_status l) v (t_serial l).
Definition set_t_serial (v : option Z) (l : tll_t) : tll_t :=
  mk_tll (t_current l) (t_owner l) (t_readonly l) (t_status l) (t_write l) v.

Definition NR_WTHREADS : nat := 9.

(** The lock, the field [w_next] of each worker, the running worker, and the
    workers whose event has been signalled. *)
Record tstate := mk_tstate {
  lock : tll_t;
  w_next : gmap Z (option Z);
  self : option Z;
  signalled : gset Z;
}.
Definition with_lock (l : tll_t) (s : tstate) : tstate := mk_tstate l (w_next s) (self s) (signalled s).
Definition with_w_next (m : gmap Z (option Z)) (s : tstate) : tstate :=
  mk_tstate (lock s) m (self s) (signalled s).
Definition with_self (o : option Z) (s : tstate) : tstate :=
  mk_tstate (lock s) (w_next s) o (signalled s).
Definition with_signalled (v : gset Z) (s : tstate) : tstate :=
  mk_tstate (lock s) (w_next s) (self s) v.

Notation T := (M tstate).
Definition updl (f : tll_t -> tll_t) : T unit := modify (fun s => with_lock (f (lock s)) s).

(** [w->w_next] *)
Definition get_w_next (w : option Z) : T (option Z) :=
  x ← deref w; m ← gets w_next; deref (m !! x).
Definition set_w_next (w : option Z) (n : option Z) : T unit :=
  x ← deref w; m ← gets w_next; deref (m !! x);; modify (with_w_next (<[x := n]> m)).

Definition worker_signal (w : option Z) : T unit :=
  x ← deref w; modify (fun s => with_signalled ({[x]} ∪ signalled s) s).

(** Where a suspended operation goes on. *)
Inductive tll_cont := CAppend (locktype : tll_access_t) | CUpgrade.
Inductive outcome (A : Type) := Done (a : A) | Wait (k : tll_cont).
Arguments Done {A} a.
Arguments Wait {A} k.

(** The end of [worker_wait]. *)
Definition worker_resumed : T unit :=
  me ← gets self; n ← get_w_next me; c_assert (bool_decide (n = None)).

(** ** Waiting for the lock *)

(** [while (queue->w_next != NULL) queue = queue->w_next; queue->w_next = self] *)
Fixpoint append_self (fuel : nat) (queue : option Z) : T unit :=
  match fuel with
  | O => fail OutOfFuel
  | S fuel' =>
      n ← get_w_next queue;
      match n with
      | Some _ => append_self fuel' n
      | None => me ← gets self; set_w_next queue me
      end
  end.

Definition tll_append {A} (locktype : tll_access_t) : T (outcome A) :=
  me ← gets self;
  c_assert (bool_decide (me <> None));;
  c_assert (bool_decide (locktype <> TLL_NONE));;
  l ← gets lock;
  queue ← (if bool_decide (locktype = TLL_READ) || bool_decide (locktype = TLL_WRITE) then
             match t_write l with
             | None => updl (set_t_write me);; mret None
             | q => mret q
             end
           else
             match t_serial l with
             | None => updl (set_t_serial me);; mret None
             | q => mret q
             end);
  when (bool_decide (queue <> None)) (append_self NR_WTHREADS queue);;
  set_w_next me None;;
  mret (Wait (CAppend locktype)).

(** [t_owner = t_serial], [t_serial = t_serial->w_next] and so on: the head of the
    serial queue is told to go on. *)
Definition grant_serial : T unit :=
  l ← gets lock;
  updl (set_t_owner (t_serial l));;
  n ← get_w_next (t_serial l);
  updl (set_t_serial n);;
  set_w_next (t_serial l) None;;
  c_assert (negb (anyset (t_status l) TLL_PEND));;
  updl (fun l => set_t_status (setf (t_status l) TLL_PEND) l);;
  worker_signal (t_serial l).

Definition tll_append_resume (locktype : tll_access_t) : T ecode :=
  worker_resumed;;
  me ← gets self;
  updl (set_t_current locktype);;
  updl (fun l => set_t_status (clearf (t_status l) TLL_PEND) l);;
  updl (set_t_owner me);;
  l ← gets lock;
  (if bool_decide (locktype = TLL_READ) then
     n ← lift (iadd (t_readonly l) 1);
     updl (set_t_readonly n);;
     updl (set_t_owner None)
   else when (bool_decide (locktype = TLL_WRITE)) (c_assert (t_readonly l =? 0)));;
  when (bool_decide (locktype = TLL_READ) && bool_decide (t_serial l <> None)) grant_serial;;
  mret OK.

(** ** The operations *)

Definition tll_init : T unit :=
  updl (fun _ => mk_tll TLL_NONE None 0 TLL_DFLT None None).

Definition tll_islocked : T bool := l ← gets lock; mret (bool_decide (t_current l <> TLL_NONE)).

Definition tll_locked_by_me : T bool :=
  me ← gets self; c_assert (bool_decide (me <> None));;
  l ← gets lock;
  mret (bool_decide (t_owner l = me) && negb (anyset (t_status l) TLL_PEND)).

Definition tll_haspendinglock : T bool :=
  l ← gets lock; mret (bool_decide (t_write l <> None) || bool_decide (t_serial l <> None)).

Definition tll_downgrade : T unit :=
  me ← gets self;
  c_assert (bool_decide (me <> None));;
  l ← gets lock;
  c_assert (bool_decide (t_owner l = me));;
  match t_current l with
  | TLL_WRITE => updl (set_t_current TLL_READSER)
  | TLL_READSER =>
      (if bool_decide (t_write l = None) && bool_decide (t_serial l <> None) then grant_serial
       else updl (set_t_current TLL_READ);; updl (set_t_owner None));;
      n ← lift (iadd (t_readonly l) 1);
      updl (set_t_readonly n)
  | _ => fail Panic
  end;;
  l ← gets lock;
  when (bool_decide (t_current l <> TLL_WRITE) && bool_decide (t_current l <> TLL_READSER))
    (c_assert (bool_decide (t_owner l = None))).

Definition tll_lock (locktype : tll_access_t) : T (outcome ecode) :=
  me ← gets self;
  c_assert (bool_decide (me <> None));;
  c_assert (bool_decide (locktype <> TLL_NONE));;
  set_w_next me None;;
  l ← gets lock;
  if anyset (t_status l) TLL_PEND then tll_append locktype
  else if bool_decide (t_owner l = me) then
    c_assert (t_status l =? TLL_DFLT);; mret (Done EBUSY)
  else if bool_decide (t_current l = TLL_NONE) then
    updl (set_t_current locktype);;
    updl (if bool_decide (locktype = TLL_READ) then set_t_readonly 1 else set_t_owner me);;
    when (bool_decide (locktype = TLL_WRITE)) (c_assert (t_readonly l =? 0));;
    mret (Done OK)
  else if bool_decide (t_current l = TLL_WRITE) then tll_append locktype
  else if bool_decide (locktype = TLL_WRITE) then tll_append locktype
  else if bool_decide (t_write l <> None) || anyset (t_status l) TLL_UPGR then
    c_assert (negb (anyset (t_status l) TLL_PEND));; tll_append locktype
  else if bool_decide (t_current l = TLL_READSER) then
    if bool_decide (locktype = TLL_READ) && negb (anyset (t_status l) TLL_UPGR) then
      n ← lift (iadd (t_readonly l) 1);
      updl (set_t_readonly n);; mret (Done OK)
    else tll_append locktype
  else
    updl (set_t_current locktype);;
    (if bool_decide (locktype = TLL_READ) then
       n ← lift (iadd (t_readonly l) 1);
       updl (set_t_readonly n);;
       updl (set_t_owner None)
     else
       c_assert (bool_decide (locktype <> TLL_WRITE));;
       updl (set_t_owner me);;
       set_w_next me None);;
    mret (Done OK).

(** The part of [tll_unlock] for a thread that is not the owner: does the owner,
    waiting to upgrade, have to be signalled? *)
Definition unlock_reader : T bool :=
  me ← gets self;
  l ← gets lock;
  if bool_decide (t_owner l = None) || bool_decide (t_owner l <> me) then
    n ← lift (isub (t_readonly l) 1);
    updl (set_t_readonly n);;
    c_assert (0 <=? n);;
    c_assert (bool_decide (t_current l = TLL_READ) || bool_decide (t_current l = TLL_READSER));;
    mret (anyset (t_status l) TLL_UPGR && (n =? 0))
  else mret false.

(** The next owner, taken off its queue. *)
Definition unlock_next : T (option Z) :=
  l ← gets lock;
  if bool_decide (t_write l <> None) then
    if t_readonly l =? 0 then
      n ← get_w_next (t_write l); updl (set_t_write n);; mret (t_write l)
    else mret None
  else if bool_decide (t_serial l <> None) then
    n ← get_w_next (t_serial l); updl (set_t_serial n);; mret (t_serial l)
  else mret None.

(** The part of [tll_unlock] that passes the lock on: is there a new owner? *)
Definition unlock_grant : T bool :=
  me ← gets self;
  l ← gets lock;
  if bool_decide (t_owner l = me) || (bool_decide (t_owner l = None) && (t_readonly l =? 0)) then
    updl (set_t_owner None);;
    new_owner ← unlock_next;
    if bool_decide (new_owner <> None) then
      updl (set_t_owner new_owner);;
      set_w_next new_owner None;;
      c_assert (bool_decide (new_owner <> me));;
      mret true
    else mret false
  else mret false.

Definition tll_unlock : T ecode :=
  me ← gets self;
  c_assert (bool_decide (me <> None));;
  upgraded ← unlock_reader;
  l ← gets lock;
  when (bool_decide (t_owner l = me) && bool_decide (t_current l = TLL_WRITE))
    (c_assert (t_readonly l =? 0));;
  granted ← unlock_grant;
  let signal_owner := (granted : bool) || (upgraded : bool) in
  l ← gets lock;
  when (bool_decide (t_owner l = None))
    (updl (set_t_current (if t_readonly l =? 0 then TLL_NONE else TLL_READ)));;
  l ← gets lock;
  when (bool_decide (t_current l = TLL_NONE) || bool_decide (t_current l = TLL_READ))
    (when (negb signal_owner) (updl (set_t_owner None)));;
  when signal_owner
    (l ← gets lock;
     c_assert (negb (anyset (t_status l) TLL_PEND));;
     updl (fun l => set_t_status (setf (t_status l) TLL_PEND) l);;
     worker_signal (t_owner l));;
  mret OK.

Definition tll_upgrade : T (outcome unit) :=
  me ← gets self;
  c_assert (bool_decide (me <> None));;
  l ← gets lock;
  c_assert (bool_decide (t_owner l = me));;
  c_assert (bool_decide (t_current l <> TLL_READ));;
  if bool_decide (t_current l = TLL_WRITE) then mret (Done tt)
  else if negb (t_readonly l =? 0) then
    c_assert (negb (anyset (t_status l) TLL_UPGR));;
    updl (fun l => set_t_status (setf (t_status l) TLL_UPGR) l);;
    mret (Wait CUpgrade)
  else updl (set_t_current TLL_WRITE);; mret (Done tt).

Definition tll_upgrade_resume : T unit :=
  worker_resumed;;
  updl (fun l => set_t_status (clearf (clearf (t_status l) TLL_UPGR) TLL_PEND) l);;
  l ← gets lock;
  c_assert (t_readonly l =? 0);;
  updl (set_t_current TLL_WRITE).

(** ** The system of worker threads *)

(** What a worker has of the lock. *)
Inductive phase := Idle | Hold (a : tll_access_t) | Waiting (k : tll_cont).
#[export] Instance tll_cont_eq_dec : EqDecision tll_cont.
Proof. solve_decision. Defined.
#[export] Instance phase_eq_dec : EqDecision phase.
Proof. solve_decision. Defined.

Record tsys := mk_tsys { ts : tstate; phases : gmap Z phase }.

Inductive event :=
| ELock (t : Z) (locktype : tll_access_t)
| EUnlock (t : Z)
| EDowngrade (t : Z)
| EUpgrade (t : Z)
| EResume (t : Z).

Definition thread (e : event) : Z :=
  match e with ELock t _ | EUnlock t | EDowngrade t | EUpgrade t | EResume t => t end.

(** What the callers of the lock keep to: a thread locks when it has no access (or
    is the owner, to find the lock busy), gives up or changes an access it has,
    and runs on when its event was signalled. *)
Definition permitted (e : event) (S : tsys) : bool :=
  match e, phases S !! thread e with
  | ELock _ ty, Some p =>
      bool_decide (ty <> TLL_NONE) &&
      bool_decide (p ∈ [Idle; Hold TLL_READSER; Hold TLL_WRITE])
  | EUnlock _, Some (Hold _) => true
  | (EDowngrade _ | EUpgrade _), Some p => bool_decide (p ∈ [Hold TLL_READSER; Hold TLL_WRITE])
  | EResume t, Some (Waiting _) => bool_decide (t ∈ signalled (ts S))
  | _, _ => false
  end.

Definition phase_after {A} (o : outcome A) (p : phase) : phase :=
  match o with Done _ => p | Wait k => Waiting k end.

(** An event: the thread runs until the operation ends or waits; its new phase. *)
Definition operate (e : event) (p : phase) : T phase :=
  match e with
  | ELock _ ty =>
      o ← tll_lock ty;
      mret (match o with Done EBUSY => p | _ => phase_after o (Hold ty) end)
  | EUnlock _ => tll_unlock;; mret Idle
  | EDowngrade _ =>
      tll_downgrade;;
      mret (Hold (if bool_decide (p = Hold TLL_WRITE) then TLL_READSER else TLL_READ))
  | EUpgrade _ => o ← tll_upgrade; mret (phase_after o (Hold TLL_WRITE))
  | EResume t =>
      modify (fun s => with_signalled (signalled s ∖ {[t]}) s);;
      match p with
      | Waiting (CAppend ty) => tll_append_resume ty;; mret (Hold ty)
      | Waiting CUpgrade => tll_upgrade_resume;; mret (Hold TLL_WRITE)
      | _ => mret p
      end
  end.

Definition tll_step (e : event) (S : tsys) : result tsys :=
  match phases S !! thread e with
  | Some p =>
      match operate e p (with_self (Some (thread e)) (ts S)) with
      | Ok (p', s') => Ok (mk_tsys s' (<[thread e := p']> (phases S)))
      | Err f => Err f
      end
  | None => Err NullDeref
  end.

(** The workers, and the lock as [tll_init] leaves it. *)
Definition workers : list Z := seqZ 0 (Z.of_nat NR_WTHREADS).
Definition tll_start : tsys :=
  mk_tsys
    (mk_tstate (mk_tll TLL_NONE None 0 TLL_DFLT None None)
       (list_to_map (map (fun t => (t, None)) workers)) None ∅)
    (list_to_map (map (fun t => (t, Idle)) workers)).

(** The states that permitted events, in any order, lead to. *)
Inductive tll_reach : tsys -> Prop :=
| reach_start : tll_reach tll_start
| reach_step e S S' : tll_reach S -> permitted e S = true -> tll_step e S = Ok S' -> tll_reach S'.
