(* ===== verification/TllProps.v ===== *)
(** * Correctness of the three-level lock

    An invariant of every state the worker threads can reach, whatever the order
    in which they run: no assertion of tll.c fails, readers and writers exclude
    each other, nobody who waits is forgotten. *)

From S2P Require Import Prelude Links KTypes Tll.
#[local] Open Scope Z_scope.

(** ** The invariant *)

(** Who the lock belongs to: nobody, readers only, an owner who runs, an owner
    who waits for readers to leave, or a thread that was told to go on. *)
Inductive mode :=
| MFree
| MRead
| MSer (a : Z)
| MWrite (a : Z)
| MUpg (a : Z) (woken : bool)
| MPend (a : Z) (locktype cur : tll_access_t) (recorded : bool).

(** The lock in each mode, with [n] readers and the heads of the two queues. *)
Definition lock_of (m : mode) (n : Z) (hw hs : option Z) : tll_t :=
  match m with
  | MFree => mk_tll TLL_NONE None n TLL_DFLT hw hs
  | MRead => mk_tll TLL_READ None n TLL_DFLT hw hs
  | MSer a => mk_tll TLL_READSER (Some a) n TLL_DFLT hw hs
  | MWrite a => mk_tll TLL_WRITE (Some a) n TLL_DFLT hw hs
  | MUpg a woken => mk_tll TLL_READSER (Some a) n (if woken then 3 else 1) hw hs
  | MPend a _ cur recorded => mk_tll cur (if recorded then Some a else None) n TLL_PEND hw hs
  end.

Definition mode_ok (m : mode) (n : nat) (wq : list (Z * tll_access_t)) (sq : list Z) : Prop :=
  match m with
  | MFree => n = 0%nat /\ wq = [] /\ sq = []
  | MRead => n <> 0%nat
  | MSer _ => True
  | MWrite _ => n = 0%nat
  | MUpg _ woken => if woken then n = 0%nat else n <> 0%nat
  | MPend _ ty cur recorded =>
      ty <> TLL_NONE /\ cur <> TLL_NONE /\ (cur = TLL_WRITE -> n = 0%nat) /\
      (ty <> TLL_READSER -> n = 0%nat) /\ (cur = TLL_READ -> (n <= 1)%nat) /\
      (recorded = false -> cur = TLL_READ /\ n = 0%nat)
  end.

Definition mode_roles (m : mode) : list (Z * phase) :=
  match m with
  | MFree | MRead => []
  | MSer a => [(a, Hold TLL_READSER)]
  | MWrite a => [(a, Hold TLL_WRITE)]
  | MUpg a _ => [(a, Waiting CUpgrade)]
  | MPend a ty _ _ => [(a, Waiting (CAppend ty))]
  end.

Definition sig_of (m : mode) : gset Z :=
  match m with MUpg a true | MPend a _ _ _ => {[a]} | _ => ∅ end.

(** The readers [rs], the write queue [wq] and the serial queue [sq]. *)
Definition reader (t : Z) : Z * phase := (t, Hold TLL_READ).
Definition writer (x : Z * tll_access_t) : Z * phase := (x.1, Waiting (CAppend x.2)).
Definition serial (t : Z) : Z * phase := (t, Waiting (CAppend TLL_READSER)).
Definition roles (m : mode) (rs : list Z) (wq : list (Z * tll_access_t)) (sq : list Z) : list (Z * phase) :=
  mode_roles m ++ map reader rs ++ map writer wq ++ map serial sq.

(** Everyone with a role is in the phase of the role; the others are idle. *)
Record roles_ok (ph : gmap Z phase) (R : list (Z * phase)) : Prop := {
  ro_nodup : NoDup R.*1;
  ro_role : forall t p, (t, p) ∈ R -> ph !! t = Some p;
  ro_idle : forall t p, ph !! t = Some p -> p = Idle \/ (t, p) ∈ R;
}.

Definition nxt (s : tstate) (t : Z) : option (option Z) := w_next s !! t.

Record tinv (s : tstate) (ph : gmap Z phase) (m : mode) (rs : list Z)
    (wq : list (Z * tll_access_t)) (sq : list Z) : Prop := {
  ti_lock : lock s = lock_of m (Z.of_nat (length rs)) (head wq.*1) (head sq);
  ti_mode : mode_ok m (length rs) wq sq;
  ti_write : chain (nxt s) (head wq.*1) wq.*1;
  ti_serial : chain (nxt s) (head sq) sq;
  ti_sig : signalled s = sig_of m;
  ti_next : forall t p, (t, p) ∈ mode_roles m -> nxt s t = Some None;
  ti_types : Forall (fun x => x.2 = TLL_READ \/ x.2 = TLL_WRITE) wq;
  ti_workers : forall t, is_Some (ph !! t) -> t ∈ workers;
  ti_fields : forall t, t ∈ workers -> is_Some (nxt s t);
  ti_roles : roles_ok ph (roles m rs wq sq);
}.

(** ** Roles *)

#[export] Instance roles_ok_perm ph : Proper ((≡ₚ) ==> iff) (roles_ok ph).
Proof.
  assert (forall R R', R ≡ₚ R' -> roles_ok ph R -> roles_ok ph R') as Himp.
  { intros R R' E [H1 H2 H3]. split; [by rewrite <- E| |]; intros t p; rewrite <- E; auto. }
  intros R R' E. split; by apply Himp.
Qed.

Lemma roles_enter ph t p R :
  roles_ok ph R -> t ∉ R.*1 -> roles_ok (<[t := p]> ph) ((t, p) :: R).
Proof.
  intros [Hn Hr Hi] Hni. split; [by constructor| |].
  - intros u q [[= -> ->]|Hin]%elem_of_cons; [by rewrite lookup_insert_eq|].
    rewrite lookup_insert_ne; [by apply Hr|]. intros ->. apply Hni, list_elem_of_fmap. by exists (u, q).
  - intros u q. destruct (decide (t = u)) as [->|Hne].
    + rewrite lookup_insert_eq. intros [= <-]. right. left.
    + rewrite lookup_insert_ne by done. intros [?|?]%Hi; [by left|right; by right].
Qed.

Lemma roles_leave ph t p R : roles_ok ph ((t, p) :: R) -> roles_ok (<[t := Idle]> ph) R.
Proof.
  intros [Hn Hr Hi]. apply NoDup_cons in Hn as [Hni Hn]. split; [done| |].
  - intros u q Hin. rewrite lookup_insert_ne; [by apply Hr; right|].
    intros ->. apply Hni, list_elem_of_fmap. by exists (u, q).
  - intros u q. destruct (decide (t = u)) as [->|Hne].
    + rewrite lookup_insert_eq. intros [= <-]. by left.
    + rewrite lookup_insert_ne by done. intros [?|[[= -> ->]|?]%elem_of_cons]%Hi; [by left|done|by right].
Qed.

Lemma roles_change ph t p q R :
  roles_ok ph ((t, p) :: R) -> roles_ok (<[t := q]> ph) ((t, q) :: R).
Proof.
  intros Hok. pose proof (ro_nodup _ _ Hok) as [Hni _]%NoDup_cons.
  apply roles_leave in Hok. rewrite <- (insert_insert_eq ph t q Idle). by apply roles_enter.
Qed.

Lemma roles_fst m rs wq sq : (roles m rs wq sq).*1 = (mode_roles m).*1 ++ rs ++ wq.*1 ++ sq.
Proof.
  unfold roles. rewrite !fmap_app. do 2 f_equal; [|f_equal].
  - induction rs as [|? ? IH]; [done|]. simpl. by f_equal.
  - induction wq as [|? ? IH]; [done|]. simpl. by f_equal.
  - induction sq as [|? ? IH]; [done|]. simpl. by f_equal.
Qed.

(** An idle thread has no role. *)
Lemma roles_idle ph m rs wq sq t :
  roles_ok ph (roles m rs wq sq) -> ph !! t = Some Idle -> t ∉ (roles m rs wq sq).*1.
Proof.
  intros [_ Hr _] Ht ((u & p) & -> & Hin)%list_elem_of_fmap. simpl in Ht.
  specialize (Hr _ _ Hin). assert (p = Idle) as -> by congruence. clear Hr. revert Hin. unfold roles.
  rewrite !elem_of_app, !list_elem_of_In, !in_map_iff. unfold reader, writer, serial.
  destruct m; simpl; naive_solver.
Qed.

(** What the phase of a thread says of its role. *)
Lemma reader_role ph m rs wq sq t :
  roles_ok ph (roles m rs wq sq) -> ph !! t = Some (Hold TLL_READ) -> exists rs', rs ≡ₚ t :: rs'.
Proof.
  intros Hok [?|Hin]%(ro_idle _ _ Hok); [done|]. apply elem_of_Permutation. revert Hin.
  unfold roles. rewrite !elem_of_app, !list_elem_of_In, !in_map_iff. unfold reader, writer, serial.
  destruct m; simpl; naive_solver.
Qed.

Lemma owner_role ph m rs wq sq t p :
  roles_ok ph (roles m rs wq sq) -> ph !! t = Some p ->
  p = Hold TLL_READSER \/ p = Hold TLL_WRITE \/ p = Waiting CUpgrade -> (t, p) ∈ mode_roles m.
Proof.
  intros Hok [->|Hin]%(ro_idle _ _ Hok) Hp; [by destruct Hp as [|[]]|]. revert Hin.
  unfold roles. rewrite !elem_of_app, !list_elem_of_In, !in_map_iff. unfold reader, writer, serial.
  naive_solver.
Qed.

(** ** Steps of the machine *)

Lemma wp_updl (f : tll_t -> tll_t) (Q : unit -> tstate -> Prop) s :
  Q tt (with_lock (f (lock s)) s) -> wp (updl f) Q s.
Proof. done. Qed.

Lemma wp_get_w_next (x : Z) n (Q : option Z -> tstate -> Prop) s :
  nxt s x = Some n -> Q n s -> wp (get_w_next (Some x)) Q s.
Proof. unfold nxt. intros E HQ. unfold get_w_next. wp_steps; [done..|]. by wp_steps. Qed.

Lemma wp_set_w_next (x : Z) n (Q : unit -> tstate -> Prop) s :
  is_Some (nxt s x) -> Q tt (with_w_next (<[x := n]> (w_next s)) s) -> wp (set_w_next (Some x) n) Q s.
Proof. unfold nxt. intros [o E] HQ. unfold set_w_next. wp_steps; [done..|]. wp_steps; done. Qed.

Lemma wp_worker_signal (x : Z) (Q : unit -> tstate -> Prop) s :
  Q tt (with_signalled ({[x]} ∪ signalled s) s) -> wp (worker_signal (Some x)) Q s.
Proof. done. Qed.

Lemma nxt_set s x n t :
  nxt (with_w_next (<[x := n]> (w_next s)) s) t = if bool_decide (x = t) then Some n else nxt s t.
Proof.
  unfold nxt. simpl. case_bool_decide as E; [subst; by rewrite lookup_insert_eq|by rewrite lookup_insert_ne].
Qed.

Lemma nxt_ins l mp o sg x n t :
  nxt (mk_tstate l (<[x := n]> mp) o sg) t = if bool_decide (x = t) then Some n else mp !! t.
Proof. exact (nxt_set (mk_tstate l mp o sg) x n t). Qed.

(** The walk to the end of a queue. *)
Lemma append_self_ok s t h l y fuel (Q : unit -> tstate -> Prop) :
  chain (nxt s) h l -> last l = Some y -> (length l <= fuel)%nat -> self s = Some t ->
  Q tt (with_w_next (<[y := Some t]> (w_next s)) s) -> wp (append_self fuel h) Q s.
Proof.
  intros Hc Hl Hf Hme HQ. revert h fuel Hc Hf. induction l as [|x l IH]; [done|]. intros h fuel (-> & n & Hn & Hc) Hf.
  destruct fuel as [|fuel]; [simpl in Hf; lia|]. cbn [append_self]. apply wp_bind. apply (wp_get_w_next x n); [done|].
  destruct l as [|z l].
  - simpl in Hc. subst n. injection Hl as ->. apply wp_bind, wp_gets. rewrite Hme.
    apply wp_set_w_next; [by eexists|done].
  - destruct Hc as (-> & Hc). apply (IH ltac:(by rewrite last_cons_cons in Hl)); [by split|simpl in *; lia].
Qed.

(** ** Joining a queue *)

Lemma workers_length (l : list Z) : NoDup l -> (forall t, t ∈ l -> t ∈ workers) -> (length l <= NR_WTHREADS)%nat.
Proof. intros Hnd Hl. apply (submseteq_length l workers). by apply NoDup_submseteq. Qed.

(** What changes when [t] joins the queue [l]: its links, and nothing else. *)
Record joined (s : tstate) (t : Z) (l : list Z) (s' : tstate) : Prop := {
  jn_lock : lock s' = lock s;
  jn_sig : signalled s' = signalled s;
  jn_next : nxt s' t = Some None;
  jn_chain : chain (nxt s') (head (l ++ [t])) (l ++ [t]);
  jn_frame : forall u, u <> t -> u ∉ l -> nxt s' u = nxt s u;
  jn_some : forall u, is_Some (nxt s u) -> is_Some (nxt s' u);
}.

Lemma tll_join_ok {A} s t l (k : T A) (Q : A -> tstate -> Prop) :
  chain (nxt s) (head l) l -> NoDup l -> t ∉ l -> is_Some (nxt s t) -> (length l <= NR_WTHREADS)%nat ->
  self s = Some t -> (forall s', joined s t l s' -> wp k Q s') ->
  wp (when (bool_decide (head l <> None)) (append_self NR_WTHREADS (head l));; set_w_next (Some t) None;; k) Q s.
Proof.
  intros Hc Hnd Hni Ht Hlen Hme HQ. apply wp_bind.
  assert (l = [] \/ exists y, last l = Some y /\ y ∈ l) as [->|(y & Hy & Hin)].
  { destruct l as [|x l]; [by left|right]. destruct (last (x :: l)) as [y|] eqn:E.
    - exists y. split; [done|]. by apply last_Some_elem_of.
    - by apply last_None in E. }
  - apply wp_bind, wp_set_w_next; [done|]. apply HQ. split; try done.
    + by rewrite nxt_set, bool_decide_eq_true_2.
    + split; [done|]. exists None. by rewrite nxt_set, bool_decide_eq_true_2.
    + intros u Hu _. by rewrite nxt_set, bool_decide_eq_false_2 by congruence.
    + intros u Hu. rewrite nxt_set. case_bool_decide; [by eexists|done].
  - apply wp_when; [intros _|intros E; apply bool_decide_eq_false in E; destruct l; naive_solver].
    eapply append_self_ok; [done..|]. assert (y <> t) as Hyt by (intros ->; done).
    set (s1 := with_w_next _ s).
    assert (forall u, nxt s1 u = if bool_decide (y = u) then Some (Some t) else nxt s u) as E1 by apply nxt_set.
    apply wp_bind, wp_set_w_next; [rewrite E1; case_bool_decide; [by eexists|done]|]. apply HQ. split; try done.
    + by rewrite nxt_set, bool_decide_eq_true_2.
    + replace (head (l ++ [t])) with (head l) by by destruct l. apply (chain_snoc (nxt s) _ _ _ y); try done.
      * rewrite nxt_set, bool_decide_eq_false_2, E1, bool_decide_eq_true_2 by congruence. done.
      * by rewrite nxt_set, bool_decide_eq_true_2.
      * intros z Hz Hzy. rewrite nxt_set, bool_decide_eq_false_2, E1, bool_decide_eq_false_2; [done|congruence|].
        intros ->. done.
    + intros u Hu Hul. rewrite nxt_set, bool_decide_eq_false_2, E1, bool_decide_eq_false_2; [done| |congruence].
      intros ->. done.
    + intros u Hu. rewrite nxt_set, E1. case_bool_decide; [by eexists|]. case_bool_decide; [by eexists|done].
Qed.

(** ** Roles and queues *)

Section perms.
Context (m : mode) (rs : list Z) (wq : list (Z * tll_access_t)) (sq : list Z).

Lemma roles_reader t : roles m (t :: rs) wq sq ≡ₚ reader t :: roles m rs wq sq.
Proof using Type. unfold roles. simpl. by rewrite <- !Permutation_middle. Qed.
Lemma roles_snoc_write x : roles m rs (wq ++ [x]) sq ≡ₚ writer x :: roles m rs wq sq.
Proof using Type. unfold roles. rewrite map_app, <- app_assoc. simpl. by rewrite <- !Permutation_middle. Qed.
Lemma roles_snoc_serial t : roles m rs wq (sq ++ [t]) ≡ₚ serial t :: roles m rs wq sq.
Proof using Type.
  unfold roles. rewrite map_app. simpl. rewrite !app_assoc, <- Permutation_middle. by rewrite app_nil_r.
Qed.
Lemma roles_write x : roles m rs (x :: wq) sq ≡ₚ writer x :: roles m rs wq sq.
Proof using Type. unfold roles. simpl. by rewrite <- !Permutation_middle. Qed.
Lemma roles_serial t : roles m rs wq (t :: sq) ≡ₚ serial t :: roles m rs wq sq.
Proof using Type. unfold roles. simpl. by rewrite !app_assoc, <- Permutation_middle. Qed.
End perms.

(** A thread that is told to go on keeps its role. *)
Lemma roles_grant_write x ty cur r rs wq sq :
  roles (MPend x ty cur r) rs wq sq ≡ₚ roles MFree rs ((x, ty) :: wq) sq.
Proof. by rewrite roles_write. Qed.
Lemma roles_grant_serial x cur r rs wq sq :
  roles (MPend x TLL_READSER cur r) rs wq sq ≡ₚ roles MFree rs wq (x :: sq).
Proof. by rewrite roles_serial. Qed.

Lemma roles_readers m rs rs' wq sq : rs ≡ₚ rs' -> roles m rs wq sq ≡ₚ roles m rs' wq sq.
Proof. intros E. unfold roles. by rewrite E. Qed.

Section inv.
Context (s : tstate) (ph : gmap Z phase) (m : mode) (rs : list Z)
  (wq : list (Z * tll_access_t)) (sq : list Z) (Hinv : tinv s ph m rs wq sq).

Lemma ti_nodup : NoDup ((mode_roles m).*1 ++ rs ++ wq.*1 ++ sq).
Proof using Hinv. rewrite <- roles_fst. exact (ro_nodup _ _ (ti_roles _ _ _ _ _ _ Hinv)). Qed.

Lemma ti_worker t : t ∈ (mode_roles m).*1 ++ rs ++ wq.*1 ++ sq -> t ∈ workers.
Proof using Hinv.
  rewrite <- roles_fst. intros ((u & p) & -> & Hin)%list_elem_of_fmap.
  apply (ti_workers _ _ _ _ _ _ Hinv). exists p. by apply (ro_role _ _ (ti_roles _ _ _ _ _ _ Hinv)).
Qed.

Lemma ti_queues : NoDup wq.*1 /\ NoDup sq /\ (forall x, x ∈ wq.*1 -> x ∉ sq) /\
  (forall x, x ∈ (mode_roles m).*1 -> x ∉ wq.*1 /\ x ∉ sq) /\ (forall x, x ∈ rs -> x ∉ wq.*1 /\ x ∉ sq).
Proof using Hinv.
  pose proof ti_nodup as Hn. rewrite !NoDup_app in Hn. destruct Hn as (_ & Hm & Hr & Hrq & Hw & Hwq & Hs).
  split_and!; [done..| |]; intros x Hx; split; intros Hin; first [by eapply Hm; [done|rewrite !elem_of_app; auto]|
    by eapply Hrq; [done|rewrite elem_of_app; auto]].
Qed.

Lemma ti_readers : (length rs <= NR_WTHREADS)%nat.
Proof using Hinv.
  apply workers_length.
  - pose proof ti_nodup as Hn. rewrite !NoDup_app in Hn. tauto.
  - intros t Ht. apply ti_worker. rewrite !elem_of_app. auto.
Qed.

(** There is room to count one more reader. *)
Lemma ti_count : iadd (Z.of_nat (length rs)) 1 = Ok (Z.of_nat (S (length rs))).
Proof using Hinv.
  pose proof ti_readers as Hl. unfold NR_WTHREADS in Hl. unfold iadd. rewrite int_ok_in.
  - f_equal. lia.
  - unfold INT_MIN, INT_MAX. lia.
Qed.

Lemma ti_idle t : ph !! t = Some Idle -> t ∈ workers /\ t ∉ (mode_roles m).*1 /\ t ∉ rs /\ t ∉ wq.*1 /\ t ∉ sq.
Proof using Hinv.
  intros Ht. pose proof (roles_idle _ _ _ _ _ _ (ti_roles _ _ _ _ _ _ Hinv) Ht) as Hni.
  rewrite roles_fst, !elem_of_app in Hni. split; [|tauto]. apply (ti_workers _ _ _ _ _ _ Hinv). by eexists.
Qed.
End inv.

Lemma set_t_write_lock m n o hw hs : set_t_write o (lock_of m n hw hs) = lock_of m n o hs.
Proof. by destruct m. Qed.
Lemma set_t_serial_lock m n o hw hs : set_t_serial o (lock_of m n hw hs) = lock_of m n hw o.
Proof. by destruct m. Qed.
Lemma t_write_lock m n hw hs : t_write (lock_of m n hw hs) = hw.
Proof. by destruct m. Qed.
Lemma t_serial_lock m n hw hs : t_serial (lock_of m n hw hs) = hs.
Proof. by destruct m. Qed.
Lemma t_readonly_lock m n hw hs : t_readonly (lock_of m n hw hs) = n.
Proof. by destruct m. Qed.

(** ** Waiting *)

Section queued.
Context (s s1 s' : tstate) (ph : gmap Z phase) (m : mode) (rs : list Z)
  (wq : list (Z * tll_access_t)) (sq : list Z) (t : Z) (ty : tll_access_t).
Context (Hinv : tinv s ph m rs wq sq) (Ht : ph !! t = Some Idle) (Hm : m <> MFree).
Context (Hs1 : w_next s1 = w_next s) (Hsig : signalled s1 = signalled s).

Local Lemma nxt1 u : nxt s1 u = nxt s u.
Proof using Hs1. unfold nxt. by rewrite Hs1. Qed.

Lemma insert_worker p u : is_Some (<[t := p]> ph !! u) -> u ∈ workers.
Proof using Hinv Ht.
  destruct (decide (t = u)) as [->|Hne]; [intros _; by apply (ti_idle _ _ _ _ _ _ Hinv)|].
  rewrite lookup_insert_ne by done. apply (ti_workers _ _ _ _ _ _ Hinv).
Qed.

Lemma queued_write :
  ty = TLL_READ \/ ty = TLL_WRITE -> joined s1 t wq.*1 s' ->
  lock s1 = lock_of m (Z.of_nat (length rs)) (head (wq.*1 ++ [t])) (head sq) ->
  tinv s' (<[t := Waiting (CAppend ty)]> ph) m rs (wq ++ [(t, ty)]) sq.
Proof using All.
  intros Hty Hj Hl. destruct (ti_queues _ _ _ _ _ _ Hinv) as (_ & _ & Hwq & Hmq & _).
  destruct (ti_idle _ _ _ _ _ _ Hinv t Ht) as (_ & Htm & _ & _ & Hts).
  split; rewrite ?fmap_app; simpl.
  - rewrite (jn_lock _ _ _ _ Hj). done.
  - pose proof (ti_mode _ _ _ _ _ _ Hinv) as Hmo. by destruct m.
  - apply Hj.
  - eapply chain_ext; [|exact (ti_serial _ _ _ _ _ _ Hinv)]. intros x Hx.
    rewrite (jn_frame _ _ _ _ Hj), nxt1; [done|congruence|]. intros Hx2. by apply (Hwq x).
  - rewrite (jn_sig _ _ _ _ Hj), Hsig. apply Hinv.
  - intros u p Hu. assert (u ∈ (mode_roles m).*1) as Hin by (apply list_elem_of_fmap; by exists (u, p)).
    rewrite (jn_frame _ _ _ _ Hj), nxt1; [by eapply (ti_next _ _ _ _ _ _ Hinv)|congruence|by apply (Hmq u)].
  - apply Forall_app. split; [apply Hinv|by apply Forall_singleton].
  - intros u. apply insert_worker.
  - intros u Hu. apply (jn_some _ _ _ _ Hj). rewrite nxt1. by apply Hinv.
  - rewrite roles_snoc_write. apply roles_enter; [apply Hinv|]. by apply (roles_idle ph); [apply Hinv|].
Qed.

Lemma queued_serial :
  ty = TLL_READSER -> joined s1 t sq s' ->
  lock s1 = lock_of m (Z.of_nat (length rs)) (head wq.*1) (head (sq ++ [t])) ->
  tinv s' (<[t := Waiting (CAppend ty)]> ph) m rs wq (sq ++ [t]).
Proof using All.
  intros -> Hj Hl. destruct (ti_queues _ _ _ _ _ _ Hinv) as (_ & _ & Hwq & Hmq & _).
  destruct (ti_idle _ _ _ _ _ _ Hinv t Ht) as (_ & Htm & _ & Htw & _).
  split.
  - rewrite (jn_lock _ _ _ _ Hj). done.
  - pose proof (ti_mode _ _ _ _ _ _ Hinv) as Hmo. by destruct m.
  - eapply chain_ext; [|exact (ti_write _ _ _ _ _ _ Hinv)]. intros x Hx.
    rewrite (jn_frame _ _ _ _ Hj), nxt1; [done|congruence|]. by apply (Hwq x).
  - apply Hj.
  - rewrite (jn_sig _ _ _ _ Hj), Hsig. apply Hinv.
  - intros u p Hu. assert (u ∈ (mode_roles m).*1) as Hin by (apply list_elem_of_fmap; by exists (u, p)).
    rewrite (jn_frame _ _ _ _ Hj), nxt1; [by eapply (ti_next _ _ _ _ _ _ Hinv)|congruence|by apply (Hmq u)].
  - apply Hinv.
  - intros u. apply insert_worker.
  - intros u Hu. apply (jn_some _ _ _ _ Hj). rewrite nxt1. by apply Hinv.
  - rewrite roles_snoc_serial. apply roles_enter; [apply Hinv|]. by apply (roles_idle ph); [apply Hinv|].
Qed.
End queued.

(** A thread that waits for the lock is in one of the queues. *)
Lemma tll_append_ok {A} s ph m rs wq sq t ty (Q : outcome A -> tstate -> Prop) :
  tinv s ph m rs wq sq -> self s = Some t -> ph !! t = Some Idle -> m <> MFree -> ty <> TLL_NONE ->
  (forall s' wq' sq', tinv s' (<[t := Waiting (CAppend ty)]> ph) m rs wq' sq' -> Q (Wait (CAppend ty)) s') ->
  wp (tll_append ty) Q s.
Proof.
  intros Hinv Hme Ht Hm Hty HQ. unfold tll_append.
  destruct (ti_queues _ _ _ _ _ _ Hinv) as (Hnw & Hns & _).
  destruct (ti_idle _ _ _ _ _ _ Hinv t Ht) as (Hwk & _ & _ & Htw & Hts).
  apply wp_bind, wp_gets. rewrite Hme. apply wp_bind, wp_assert; [done|].
  apply wp_bind, wp_assert; [by apply bool_decide_eq_true|]. apply wp_bind, wp_gets.
  rewrite (ti_lock _ _ _ _ _ _ Hinv), t_write_lock, t_serial_lock.
  assert (forall l, (forall x, x ∈ l -> x ∈ wq.*1 ++ sq) -> NoDup l -> (length l <= NR_WTHREADS)%nat) as Hlen.
  { intros l Hl Hnd. apply workers_length; [done|]. intros x Hx%Hl.
    apply (ti_worker _ _ _ _ _ _ Hinv). rewrite elem_of_app in Hx. rewrite !elem_of_app. tauto. }
  destruct (decide (ty = TLL_READSER)) as [->|Hser].
  - cbn [orb]. rewrite !bool_decide_eq_false_2 by done. cbn [orb]. apply wp_bind.
    set (s1 := if bool_decide (sq = []) then with_lock (set_t_serial (Some t) (lock s)) s else s).
    apply wp_mono with (P := fun q s' => q = head sq /\ s' = s1).
    { unfold s1. by destruct sq. }
    assert (w_next s1 = w_next s /\ signalled s1 = signalled s /\ self s1 = Some t /\
      lock s1 = lock_of m (Z.of_nat (length rs)) (head wq.*1) (head (sq ++ [t]))) as (E1 & E2 & E3 & E4).
    { unfold s1. case_bool_decide as E; simpl; rewrite (ti_lock _ _ _ _ _ _ Hinv).
      - subst sq. by rewrite set_t_serial_lock.
      - split_and!; [done..|]. f_equal. by destruct sq. }
    intros q s2 [-> ->]. apply (tll_join_ok s1 t sq); [| | | | |done|].
    + unfold nxt. rewrite E1. apply Hinv.
    + done.
    + done.
    + unfold nxt. rewrite E1. by apply Hinv.
    + apply Hlen; [|done]. intros x Hx. apply elem_of_app. auto.
    + intros s' Hj. apply wp_ret. eapply HQ, (queued_serial s s1); done.
  - assert (ty = TLL_READ \/ ty = TLL_WRITE) as Hrw by (destruct ty; auto; done).
    replace (bool_decide (ty = TLL_READ) || bool_decide (ty = TLL_WRITE)) with true
      by (by destruct Hrw as [-> | ->]). apply wp_bind.
    set (s1 := if bool_decide (wq.*1 = []) then with_lock (set_t_write (Some t) (lock s)) s else s).
    apply wp_mono with (P := fun q s' => q = head wq.*1 /\ s' = s1).
    { unfold s1. by destruct wq. }
    assert (w_next s1 = w_next s /\ signalled s1 = signalled s /\ self s1 = Some t /\
      lock s1 = lock_of m (Z.of_nat (length rs)) (head (wq.*1 ++ [t])) (head sq)) as (E1 & E2 & E3 & E4).
    { unfold s1. case_bool_decide as E; simpl; rewrite (ti_lock _ _ _ _ _ _ Hinv).
      - rewrite E. by rewrite set_t_write_lock.
      - split_and!; [done..|]. f_equal. by destruct wq.*1. }
    intros q s2 [-> ->]. apply (tll_join_ok s1 t wq.*1); [| | | | |done|].
    + unfold nxt. rewrite E1. apply Hinv.
    + done.
    + done.
    + unfold nxt. rewrite E1. by apply Hinv.
    + apply Hlen; [|done]. intros x Hx. apply elem_of_app. auto.
    + intros s' Hj. apply wp_ret. eapply HQ, (queued_write s s1); done.
Qed.

(** ** Running an operation *)

(** The invariant after thread [t] has run, with what is left of the queues. *)
Lemma tinv_intro s s' ph m m' rs rs' wq wq' sq sq' lw ls t p :
  tinv s ph m rs wq sq -> is_Some (ph !! t) -> wq = lw ++ wq' -> sq = ls ++ sq' ->
  (forall u, u ∈ wq'.*1 ++ sq' -> nxt s' u = nxt s u) ->
  (forall u, is_Some (nxt s u) -> is_Some (nxt s' u)) ->
  lock s' = lock_of m' (Z.of_nat (length rs')) (head wq'.*1) (head sq') ->
  mode_ok m' (length rs') wq' sq' -> signalled s' = sig_of m' ->
  (forall u q, (u, q) ∈ mode_roles m' -> nxt s' u = Some None) ->
  roles_ok (<[t := p]> ph) (roles m' rs' wq' sq') ->
  tinv s' (<[t := p]> ph) m' rs' wq' sq'.
Proof.
  intros Hinv Ht -> -> Hnx Hsome Hl Hm Hsig Hnext Hr. split; try done.
  - eapply chain_ext; [|eapply chain_suffix; rewrite <- fmap_app; apply Hinv].
    intros x Hx. apply Hnx, elem_of_app. by left.
  - eapply chain_ext; [|eapply chain_suffix; apply Hinv]. intros x Hx. apply Hnx, elem_of_app. by right.
  - pose proof (ti_types _ _ _ _ _ _ Hinv) as Hf. by apply Forall_app in Hf as [_ ?].
  - intros u. destruct (decide (t = u)) as [<-|Hne]; [intros _; by apply Hinv|].
    rewrite lookup_insert_ne by done. apply Hinv.
  - intros u Hu. by apply Hsome, Hinv.
Qed.

(** Decide the tests whose outcome the hypotheses determine. *)
Ltac decide_tests :=
  repeat match goal with
  | |- context [anyset ?a ?b] => let v := eval vm_compute in (anyset a b) in
      lazymatch v with true => idtac | false => idtac end; change (anyset a b) with v
  | |- context [bool_decide ?P] => first
      [ rewrite (bool_decide_eq_true_2 P) by (first [reflexivity | discriminate | congruence])
      | rewrite (bool_decide_eq_false_2 P) by (first [discriminate | congruence]) ]
  | |- context [0 <=? Z.of_nat ?n] => rewrite (proj2 (Z.leb_le 0 (Z.of_nat n)) (Nat2Z.is_nonneg n))
  | |- context [?a =? ?b] => first
      [ rewrite (proj2 (Z.eqb_eq a b)) by (cbn [length] in *; lia)
      | rewrite (proj2 (Z.eqb_neq a b)) by (cbn [length] in *; lia) ]
  end.
Ltac tll_simpl :=
  rewrite ?fmap_cons, ?fmap_nil, ?head_cons, ?head_nil;
  repeat match goal with |- context [fst (?a, ?b)] => change (fst (a, b)) with a end;
  cbv beta iota delta [lock w_next self signalled t_current t_owner t_readonly t_status t_write t_serial
       with_lock with_w_next with_self with_signalled set_t_current set_t_owner set_t_readonly
       set_t_status set_t_write set_t_serial lock_of andb orb negb when].
Ltac tll_step :=
  lazymatch goal with
  | |- wp (_ ≫= _) _ _ => apply wp_bind
  | |- wp (mret _) _ _ => apply wp_ret
  | |- wp skip _ _ => apply wp_ret
  | |- wp (gets _) _ _ => apply wp_gets
  | |- wp (modify _) _ _ => apply wp_modify
  | |- wp (updl _) _ _ => apply wp_updl
  | |- wp (c_assert _) _ _ => apply wp_assert; [reflexivity|]
  | |- wp (get_w_next _) _ _ => eapply wp_get_w_next; [eassumption|]
  | |- wp (set_w_next _ _) _ _ => apply wp_set_w_next; [eexists; first [eassumption|apply lookup_insert_eq]|]
  | |- wp (worker_signal _) _ _ => apply wp_worker_signal
  end; cbv beta.
Ltac tll_run := repeat (tll_simpl; decide_tests; tll_simpl; tll_step); tll_simpl; decide_tests; tll_simpl.

Definition tinv_some (s : tstate) (ph : gmap Z phase) : Prop := exists m rs wq sq, tinv s ph m rs wq sq.

(** What is known of the first process of a queue. *)
Lemma write_head s ph m rs x ty wq sq :
  tinv s ph m rs ((x, ty) :: wq) sq ->
  w_next s !! x = Some (head wq.*1) /\ (ty = TLL_READ \/ ty = TLL_WRITE) /\ ph !! x = Some (Waiting (CAppend ty)) /\
  x ∉ wq.*1 /\ x ∉ sq.
Proof.
  intros Hinv. destruct (chain_cons _ _ _ _ (ti_write _ _ _ _ _ _ Hinv)) as (n & Hn & Hc).
  destruct (ti_queues _ _ _ _ _ _ Hinv) as (Hw & _ & Hd & _). rewrite fmap_cons, NoDup_cons in Hw. split_and!.
  - transitivity (Some n); [exact Hn|]. f_equal. exact (chain_head _ _ _ Hc).
  - pose proof (ti_types _ _ _ _ _ _ Hinv) as Hf. by apply Forall_cons in Hf as [? _].
  - apply (ro_role _ _ (ti_roles _ _ _ _ _ _ Hinv)). rewrite roles_write. left.
  - apply Hw.
  - apply Hd. left.
Qed.

Lemma serial_head s ph m rs x wq sq :
  tinv s ph m rs wq (x :: sq) ->
  w_next s !! x = Some (head sq) /\ ph !! x = Some (Waiting (CAppend TLL_READSER)) /\ x ∉ wq.*1 /\ x ∉ sq.
Proof.
  intros Hinv. destruct (chain_cons _ _ _ _ (ti_serial _ _ _ _ _ _ Hinv)) as (n & Hn & Hc).
  destruct (ti_queues _ _ _ _ _ _ Hinv) as (_ & Hs & Hd & _). rewrite NoDup_cons in Hs. split_and!.
  - transitivity (Some n); [exact Hn|]. f_equal. exact (chain_head _ _ _ Hc).
  - apply (ro_role _ _ (ti_roles _ _ _ _ _ _ Hinv)). rewrite roles_serial. left.
  - intros Hin. apply (Hd x Hin). left.
  - apply Hs.
Qed.

(** The fields of the new state, but for the roles. *)
Ltac tinv_field :=
  lazymatch goal with
  | |- roles_ok _ _ => idtac
  | |- forall u, u ∈ _ -> nxt _ u = _ =>
      let u := fresh "u" in intros u Hu; first [done|
        rewrite nxt_ins, bool_decide_eq_false_2; [done|intros ->; rewrite elem_of_app in Hu; tauto]]
  | |- forall u, is_Some _ -> is_Some _ =>
      let u := fresh "u" in intros u Hu; first [done| rewrite nxt_ins; case_bool_decide; [by eexists|done]]
  | |- forall u q, (u, q) ∈ _ -> nxt _ _ = _ =>
      let u := fresh "u" in
      intros u q; cbn [mode_roles]; rewrite ?list_elem_of_singleton, ?elem_of_nil; first [done|
        intros [= -> _]; first [done|by rewrite nxt_ins, bool_decide_eq_true_2|
          match goal with H : forall t p, (t, p) ∈ _ -> nxt _ t = Some None |- _ => eapply H; left end]]
  | |- signalled _ = _ => cbn [signalled sig_of]; set_solver
  | |- mode_ok _ _ _ _ => cbn [mode_ok length] in *; naive_solver lia
  | |- is_Some _ => first [done|by eexists]
  | |- _ => done
  end.
(** The run ends in mode [m] with [lw] and [ls] taken off the queues. *)
Tactic Notation "tinv_end" uconstr(m) uconstr(rs) uconstr(wq) uconstr(sq) uconstr(lw) uconstr(ls) :=
  exists m, rs, wq, sq; eapply (tinv_intro _ _ _ _ _ _ _ _ _ _ _ lw ls); [eassumption|..]; tinv_field.

Section unlock.
Context (nx : gmap Z (option Z)) (sg : gset Z) (ph : gmap Z phase) (rs : list Z)
  (wq : list (Z * tll_access_t)) (sq : list Z) (t : Z).
Notation state m := (mk_tstate (lock_of m (Z.of_nat (length rs)) (head wq.*1) (head sq)) nx (Some t) sg).
Notation inv m := (tinv (state m) ph m rs wq sq).

Lemma unlock_ser : inv (MSer t) -> ph !! t = Some (Hold TLL_READSER) ->
  wp tll_unlock (fun _ s' => tinv_some s' (<[t := Idle]> ph)) (state (MSer t)).
Proof.
  intros Hinv Ht. pose proof (ti_roles _ _ _ _ _ _ Hinv) as Hr%roles_leave.
  pose proof (ti_sig _ _ _ _ _ _ Hinv) as Hsg. simpl in Hsg. subst sg.
  unfold tll_unlock, unlock_reader, unlock_grant, unlock_next. tll_run.
  destruct wq as [|[x ty] wq'].
  - destruct sq as [|x sq'].
    + destruct rs as [|r rs']; tll_run.
      * tinv_end MFree [] [] [] [] []. exact Hr.
      * tinv_end MRead (r :: rs') [] [] [] []. exact Hr.
    + destruct (serial_head _ _ _ _ _ _ _ Hinv) as (Hn & Hx & Hxw & Hxs). simpl in Hn.
      assert (x <> t) as Hxt by (intros ->; congruence). tll_run.
      tinv_end (MPend x TLL_READSER TLL_READSER true) rs [] sq' [] [x].
      by rewrite roles_grant_serial.
  - destruct (write_head _ _ _ _ _ _ _ _ Hinv) as (Hn & Hty & Hx & Hxw & Hxs). simpl in Hn.
    assert (x <> t) as Hxt by (intros ->; congruence).
    destruct rs as [|r rs']; tll_run.
    + tinv_end (MPend x ty TLL_READSER true) [] wq' sq [(x, ty)] []. by rewrite roles_grant_write.
    + tinv_end MRead (r :: rs') ((x, ty) :: wq') sq [] []. exact Hr.
Qed.

Lemma unlock_write : inv (MWrite t) -> ph !! t = Some (Hold TLL_WRITE) ->
  wp tll_unlock (fun _ s' => tinv_some s' (<[t := Idle]> ph)) (state (MWrite t)).
Proof.
  intros Hinv Ht. pose proof (ti_roles _ _ _ _ _ _ Hinv) as Hr%roles_leave.
  pose proof (ti_sig _ _ _ _ _ _ Hinv) as Hsg. simpl in Hsg. subst sg.
  pose proof (ti_mode _ _ _ _ _ _ Hinv) as Hm. simpl in Hm.
  destruct rs as [|]; [|done]. unfold tll_unlock, unlock_reader, unlock_grant, unlock_next. tll_run.
  destruct wq as [|[x ty] wq'].
  - destruct sq as [|x sq']; [tll_run|].
    + tinv_end MFree [] [] [] [] []. exact Hr.
    + destruct (serial_head _ _ _ _ _ _ _ Hinv) as (Hn & Hx & Hxw & Hxs). simpl in Hn.
      assert (x <> t) as Hxt by (intros ->; congruence). tll_run.
      tinv_end (MPend x TLL_READSER TLL_WRITE true) [] [] sq' [] [x].
      by rewrite roles_grant_serial.
  - destruct (write_head _ _ _ _ _ _ _ _ Hinv) as (Hn & Hty & Hx & Hxw & Hxs). simpl in Hn.
    assert (x <> t) as Hxt by (intros ->; congruence). tll_run.
    tinv_end (MPend x ty TLL_WRITE true) [] wq' sq [(x, ty)] []. by rewrite roles_grant_write.
Qed.
End unlock.

(** A reader leaves. *)
Section unlock_reader.
Context (nx : gmap Z (option Z)) (sg : gset Z) (ph : gmap Z phase) (rs : list Z)
  (wq : list (Z * tll_access_t)) (sq : list Z) (t : Z) (m : mode).
Notation state m := (mk_tstate (lock_of m (Z.of_nat (length (t :: rs))) (head wq.*1) (head sq)) nx (Some t) sg).
Context (Hinv : tinv (state m) ph m (t :: rs) wq sq) (Ht : ph !! t = Some (Hold TLL_READ)).

Lemma reader_leaves : roles_ok (<[t := Idle]> ph) (roles m rs wq sq).
Proof using Hinv.
  pose proof (ti_roles _ _ _ _ _ _ Hinv) as Hr. rewrite roles_reader in Hr. by apply roles_leave in Hr.
Qed.

Lemma reader_not_mode u p : (u, p) ∈ mode_roles m -> u <> t.
Proof using Hinv.
  pose proof (ti_nodup _ _ _ _ _ _ Hinv) as Hn. rewrite NoDup_app in Hn. destruct Hn as (_ & Hn & _).
  intros Hu ->. apply (Hn t); [apply list_elem_of_fmap; by exists (t, p)|]. left.
Qed.

Lemma unlock_reads : isub (Z.of_nat (length (t :: rs))) 1 = Ok (Z.of_nat (length rs)).
Proof using Hinv.
  pose proof (ti_readers _ _ _ _ _ _ Hinv) as Hl. unfold NR_WTHREADS in Hl. simpl in *.
  unfold isub. rewrite int_ok_in; [f_equal; lia|]. unfold INT_MIN, INT_MAX. lia.
Qed.

Lemma unlock_reader_ok : 
  wp tll_unlock (fun _ s' => tinv_some s' (<[t := Idle]> ph)) (state m).
Proof using All.
  pose proof reader_leaves as Hr. pose proof unlock_reads as Hsub.
  pose proof reader_not_mode as Hne. pose proof (ti_next _ _ _ _ _ _ Hinv) as Hnext.
  pose proof (ti_sig _ _ _ _ _ _ Hinv) as Hsg. simpl in Hsg. subst sg.
  pose proof (ti_mode _ _ _ _ _ _ Hinv) as Hm. pose proof (ti_types _ _ _ _ _ _ Hinv) as Hty.
  unfold tll_unlock, unlock_reader, unlock_grant, unlock_next.
  destruct m as [| |a|a|a []|a ty cur rec]; simpl in Hm, Hne, Hnext; try done; try (by destruct Hm).
  - tll_run. apply (wp_lift _ _ _ _ Hsub). destruct rs as [|r rs'].
    + tll_run. destruct wq as [|[x ty] wq']; [destruct sq as [|x sq']|].
      * tll_run. tinv_end MFree [] [] [] [] []. exact Hr.
      * destruct (serial_head _ _ _ _ _ _ _ Hinv) as (Hn & Hx & Hxw & Hxs). simpl in Hn.
        assert (x <> t) as Hxt by (intros ->; rewrite Ht in Hx; congruence). tll_run.
        tinv_end (MPend x TLL_READSER TLL_READ true) [] [] sq' [] [x]. by rewrite roles_grant_serial.
      * destruct (write_head _ _ _ _ _ _ _ _ Hinv) as (Hn & Htyx & Hx & Hxw & Hxs). simpl in Hn.
        assert (x <> t) as Hxt by (intros ->; rewrite Ht in Hx; congruence). tll_run.
        tinv_end (MPend x ty TLL_READ true) [] wq' sq [(x, ty)] []. by rewrite roles_grant_write.
    + tll_run. tinv_end MRead (r :: rs') wq sq [] []. exact Hr.
  - assert (a <> t) as Hat by (eapply Hne; left).
    tll_run. apply (wp_lift _ _ _ _ Hsub). tll_run. tinv_end (MSer a) rs wq sq [] []. exact Hr.
  - assert (a <> t) as Hat by (eapply Hne; left).
    tll_run. apply (wp_lift _ _ _ _ Hsub). destruct rs as [|r rs']; tll_run.
    + tinv_end (MUpg a true) [] wq sq [] []. exact Hr.
    + tinv_end (MUpg a false) (r :: rs') wq sq [] []. exact Hr.
  - assert (a <> t) as Hat by (eapply Hne; left).
    destruct Hm as (Hty1 & Hc & Hw & Hn & H1 & Hrec). destruct rec; [|by destruct (Hrec eq_refl)].
    destruct cur; [done| | |by specialize (Hw eq_refl)].
    + destruct rs as [|]; [|specialize (H1 eq_refl); simpl in H1; lia].
      tll_run. apply (wp_lift _ _ _ _ Hsub). tll_run. tinv_end (MPend a ty TLL_READ false) [] wq sq [] []. exact Hr.
    + tll_run. apply (wp_lift _ _ _ _ Hsub). tll_run. tinv_end (MPend a ty TLL_READSER true) rs wq sq [] []. exact Hr.
Qed.
End unlock_reader.

(** ** Locking *)

Lemma tinv_self l nx o o' sg ph m rs wq sq :
  tinv (mk_tstate l nx o sg) ph m rs wq sq -> tinv (mk_tstate l nx o' sg) ph m rs wq sq.
Proof. by intros []. Qed.

(** The link of a thread that is in no queue is reset. *)
Lemma tinv_reset l nx o sg ph m rs wq sq t :
  tinv (mk_tstate l nx o sg) ph m rs wq sq -> t ∉ wq.*1 -> t ∉ sq ->
  tinv (mk_tstate l (<[t := None]> nx) o sg) ph m rs wq sq.
Proof.
  intros [H1 H2 H3 H4 H5 H6 H7 H8 H9 H10] Hw Hs. split; try done.
  - eapply chain_ext; [|exact H3]. intros x Hx. rewrite nxt_ins, bool_decide_eq_false_2; [done|]. by intros ->.
  - eapply chain_ext; [|exact H4]. intros x Hx. rewrite nxt_ins, bool_decide_eq_false_2; [done|]. by intros ->.
  - intros u p Hu. rewrite nxt_ins. case_bool_decide; [done|by eapply H6].
  - intros u Hu. rewrite nxt_ins. case_bool_decide; [by eexists|by apply H9].
Qed.

Definition lock_phase (o : outcome ecode) (ty : tll_access_t) (p : phase) : phase :=
  match o with Done EBUSY => p | _ => phase_after o (Hold ty) end.

Section lock.
Context (nx : gmap Z (option Z)) (ph : gmap Z phase) (m : mode) (rs : list Z)
  (wq : list (Z * tll_access_t)) (sq : list Z) (t : Z) (ty : tll_access_t).
Notation state := (mk_tstate (lock_of m (Z.of_nat (length rs)) (head wq.*1) (head sq)) nx (Some t) (sig_of m)).
Context (Hinv : tinv state ph m rs wq sq) (Hty : ty <> TLL_NONE).

Lemma tll_lock_idle : ph !! t = Some Idle ->
  wp (tll_lock ty) (fun o s' => tinv_some s' (<[t := lock_phase o ty Idle]> ph) /\
    (wq <> [] -> o = Wait (CAppend ty))) state.
Proof using All.
  intros Ht. destruct (ti_idle _ _ _ _ _ _ Hinv t Ht) as (Hwk & Htm & Htr & Htw & Hts).
  destruct (ti_fields _ _ _ _ _ _ Hinv t Hwk) as [n0 Hn0]. unfold nxt in Hn0. simpl in Hn0.
  pose proof (tinv_reset _ _ _ _ _ _ _ _ _ _ Hinv Htw Hts) as Hinv'.
  pose proof (ti_mode _ _ _ _ _ _ Hinv) as Hm. pose proof (ti_count _ _ _ _ _ _ Hinv) as Hcount.
  pose proof (ti_roles _ _ _ _ _ _ Hinv) as Hr.
  pose proof (fun p => roles_enter _ t p _ Hr (roles_idle _ _ _ _ _ _ Hr Ht)) as Henter.
  assert (m <> MFree -> wp (tll_append (A := ecode) ty) (fun o s' =>
      tinv_some s' (<[t := lock_phase o ty Idle]> ph) /\ (wq <> [] -> o = Wait (CAppend ty)))
      (mk_tstate (lock_of m (Z.of_nat (length rs)) (head wq.*1) (head sq)) (<[t := None]> nx) (Some t) (sig_of m)))
    as Happend.
  { intros Hf. eapply tll_append_ok; [exact Hinv'|done..|]. intros s' wq' sq' Hs'. split; [by exists m, rs, wq', sq'|done]. }
  pose proof (ti_next _ _ _ _ _ _ Hinv') as Hnext. unfold tll_lock. tll_run.
  destruct m as [| |a|a|a w|a ty' cur rec]; simpl in Hm, Htm, Hnext.
  - destruct Hm as (Hn & -> & ->). destruct rs; [|done]. tll_run.
    destruct ty; [done|tll_run..].
    + split; [|done]. tinv_end MRead [t] [] [] [] []. rewrite roles_reader. apply Henter.
    + split; [|done]. tinv_end (MSer t) [] [] [] [] []. apply Henter.
    + split; [|done]. tinv_end (MWrite t) [] [] [] [] []. apply Henter.
  - destruct ty; [done|tll_run..|tll_run; by apply Happend].
    + destruct wq as [|x wq']; tll_run; [|by apply Happend]. apply (wp_lift _ _ _ _ Hcount). tll_run.
      split; [|done]. tinv_end MRead (t :: rs) [] sq [] []. rewrite roles_reader. apply Henter.
    + destruct wq as [|x wq']; tll_run; [|by apply Happend].
      split; [|done]. tinv_end (MSer t) rs [] sq [] []. apply Henter.
  - apply not_elem_of_cons in Htm as [Hta _]. destruct ty; [done|tll_run..|tll_run; by apply Happend].
    + destruct wq as [|x wq']; tll_run; [|by apply Happend]. apply (wp_lift _ _ _ _ Hcount). tll_run.
      split; [|done]. tinv_end (MSer a) (t :: rs) [] sq [] []. rewrite roles_reader. apply Henter.
    + destruct wq as [|x wq']; tll_run; by apply Happend.
  - apply not_elem_of_cons in Htm as [Hta _]. tll_run. by apply Happend.
  - apply not_elem_of_cons in Htm as [Hta _]. destruct w; [tll_run; by apply Happend|].
    destruct ty, wq as [|x wq']; try done; tll_run; by apply Happend.
  - apply not_elem_of_cons in Htm as [Hta _]. tll_run. by apply Happend.
Qed.

(** The owner finds the lock busy. *)
Lemma tll_lock_owner p : ph !! t = Some p -> p = Hold TLL_READSER \/ p = Hold TLL_WRITE ->
  wp (tll_lock ty) (fun o s' => tinv_some s' (<[t := lock_phase o ty p]> ph)) state.
Proof using All.
  intros Ht Hp. pose proof (owner_role _ _ _ _ _ _ _ (ti_roles _ _ _ _ _ _ Hinv) Ht ltac:(tauto)) as Hrole.
  assert (t ∈ (mode_roles m).*1) as Hin by (apply list_elem_of_fmap; by exists (t, p)).
  destruct (ti_queues _ _ _ _ _ _ Hinv) as (_ & _ & _ & Hmq & _). destruct (Hmq t Hin) as [Htw Hts].
  pose proof (ti_next _ _ _ _ _ _ Hinv t p Hrole) as Hn0. unfold nxt in Hn0. simpl in Hn0.
  pose proof (tinv_reset _ _ _ _ _ _ _ _ _ _ Hinv Htw Hts) as Hinv'.
  assert (m = MSer t \/ m = MWrite t) as Hm.
  { destruct m; cbn [mode_roles] in Hrole; rewrite ?elem_of_nil, ?list_elem_of_singleton in Hrole; naive_solver. }
  unfold tll_lock. destruct Hm as [-> | ->]; tll_run; (rewrite (insert_id ph) by done); eexists _, _, _, _; exact Hinv'.
Qed.
End lock.

(** ** Changing and resuming an access *)

Section change.
Context (nx : gmap Z (option Z)) (ph : gmap Z phase) (m : mode) (rs : list Z)
  (wq : list (Z * tll_access_t)) (sq : list Z) (t : Z).
Notation state := (mk_tstate (lock_of m (Z.of_nat (length rs)) (head wq.*1) (head sq)) nx (Some t) (sig_of m)).
Context (Hinv : tinv state ph m rs wq sq).

Lemma tll_upgrade_ok p : ph !! t = Some p -> (t, p) ∈ mode_roles m -> p = Hold TLL_READSER \/ p = Hold TLL_WRITE ->
  wp tll_upgrade (fun o s' => tinv_some s' (<[t := phase_after o (Hold TLL_WRITE)]> ph)) state.
Proof using All.
  intros Ht Hrole Hp. pose proof (ti_roles _ _ _ _ _ _ Hinv) as Hr.
  pose proof (ti_next _ _ _ _ _ _ Hinv) as Hnext. pose proof (ti_mode _ _ _ _ _ _ Hinv) as Hm.
  destruct m as [| |a|a|a w|a ty cur rec]; cbn [mode_roles] in Hrole, Hnext;
    rewrite ?elem_of_nil, ?list_elem_of_singleton in Hrole; [done|done| | |naive_solver|naive_solver].
  - injection Hrole as <- ->. unfold tll_upgrade. destruct rs as [|r rs']; tll_run.
    + tinv_end (MWrite t) [] wq sq [] []. exact (roles_change _ _ _ _ _ Hr).
    + tinv_end (MUpg t false) (r :: rs') wq sq [] []. exact (roles_change _ _ _ _ _ Hr).
  - injection Hrole as <- ->. unfold tll_upgrade. tll_run. cbn [phase_after].
    rewrite (insert_id ph) by done. eexists _, _, _, _. exact Hinv.
Qed.

Lemma tll_downgrade_ok p : ph !! t = Some p -> (t, p) ∈ mode_roles m -> p = Hold TLL_READSER \/ p = Hold TLL_WRITE ->
  wp tll_downgrade (fun _ s' => tinv_some s'
    (<[t := Hold (if bool_decide (p = Hold TLL_WRITE) then TLL_READSER else TLL_READ)]> ph)) state.
Proof using All.
  intros Ht Hrole Hp. pose proof (ti_roles _ _ _ _ _ _ Hinv) as Hr.
  pose proof (ti_next _ _ _ _ _ _ Hinv) as Hnext. pose proof (ti_mode _ _ _ _ _ _ Hinv) as Hm.
  pose proof (ti_count _ _ _ _ _ _ Hinv) as Hcount.
  destruct m as [| |a|a|a w|a ty cur rec]; cbn [mode_roles] in Hrole, Hnext;
    rewrite ?elem_of_nil, ?list_elem_of_singleton in Hrole; [done|done| | |naive_solver|naive_solver].
  - injection Hrole as <- ->. unfold tll_downgrade, grant_serial.
    assert (forall wq' sq', sq' = sq -> wq' = wq ->
      roles_ok (<[t := Hold TLL_READ]> ph) (roles MFree (t :: rs) wq' sq')) as Hr'.
    { intros ? ? -> ->. rewrite roles_reader. exact (roles_change _ _ _ _ _ Hr). }
    destruct wq as [|[y ty] wq']; [destruct sq as [|x sq']|].
    + tll_run. apply (wp_lift _ _ _ _ Hcount). tll_run. tinv_end MRead (t :: rs) [] [] [] []. by apply Hr'.
    + destruct (serial_head _ _ _ _ _ _ _ Hinv) as (Hn & Hx & Hxw & Hxs). simpl in Hn.
      tll_run. apply (wp_lift _ _ _ _ Hcount). tll_run.
      tinv_end (MPend x TLL_READSER TLL_READSER true) (t :: rs) [] sq' [] [x].
      rewrite roles_grant_serial. by apply Hr'.
    + tll_run. apply (wp_lift _ _ _ _ Hcount). tll_run.
      tinv_end MRead (t :: rs) ((y, ty) :: wq') sq [] []. by apply Hr'.
  - injection Hrole as <- ->. unfold tll_downgrade. tll_run.
    tinv_end (MSer t) rs wq sq [] []. exact (roles_change _ _ _ _ _ Hr).
Qed.

Lemma tll_upgrade_resume_ok : m = MUpg t true ->
  wp tll_upgrade_resume (fun _ s' => tinv_some s' (<[t := Hold TLL_WRITE]> ph)) (with_signalled ∅ state).
Proof using All.
  intros ->. pose proof (ti_roles _ _ _ _ _ _ Hinv) as Hr.
  pose proof (ti_next _ _ _ _ _ _ Hinv) as Hnext. pose proof (ti_mode _ _ _ _ _ _ Hinv) as Hm.
  destruct rs as [|]; [|done]. specialize (Hnext t (Waiting CUpgrade) ltac:(left)) as Hn. unfold nxt in Hn. simpl in Hn.
  assert (is_Some (ph !! t)) as Ht.
  { eexists. apply (ro_role _ _ Hr t (Waiting CUpgrade)). left. }
  unfold tll_upgrade_resume, worker_resumed. tll_run.
  tinv_end (MWrite t) [] wq sq [] []. exact (roles_change _ _ _ _ _ Hr).
Qed.

Lemma tll_append_resume_ok ty cur rec : m = MPend t ty cur rec ->
  wp (tll_append_resume ty) (fun _ s' => tinv_some s' (<[t := Hold ty]> ph)) (with_signalled ∅ state).
Proof using All.
  intros ->. pose proof (ti_roles _ _ _ _ _ _ Hinv) as Hr. pose proof (ti_count _ _ _ _ _ _ Hinv) as Hcount.
  pose proof (ti_next _ _ _ _ _ _ Hinv) as Hnext. pose proof (ti_mode _ _ _ _ _ _ Hinv) as Hm.
  specialize (Hnext t _ ltac:(left)) as Hn. unfold nxt in Hn. simpl in Hn, Hm.
  destruct Hm as (Hty & _ & _ & Hrd & _).
  assert (is_Some (ph !! t)) as Ht.
  { eexists. apply (ro_role _ _ Hr t (Waiting (CAppend ty))). left. }
  unfold tll_append_resume, worker_resumed, grant_serial. destruct ty; [done| | |].
  - destruct rs as [|]; [|by specialize (Hrd ltac:(done))].
    assert (forall sq', sq' = sq -> roles_ok (<[t := Hold TLL_READ]> ph) (roles MFree [t] wq sq')) as Hr'.
    { intros ? ->. rewrite roles_reader. exact (roles_change _ _ _ _ _ Hr). }
    destruct sq as [|x sq'].
    + tll_run. apply (wp_lift _ _ _ _ Hcount). tll_run. tinv_end MRead [t] wq [] [] []. by apply Hr'.
    + destruct (serial_head _ _ _ _ _ _ _ Hinv) as (Hnx & Hx & Hxw & Hxs). simpl in Hnx.
      tll_run. apply (wp_lift _ _ _ _ Hcount). tll_run.
      tinv_end (MPend x TLL_READSER TLL_READ true) [t] wq sq' [] [x]. rewrite roles_grant_serial. by apply Hr'.
  - tll_run. tinv_end (MSer t) rs wq sq [] []. exact (roles_change _ _ _ _ _ Hr).
  - destruct rs as [|]; [|by specialize (Hrd ltac:(done))]. tll_run.
    tinv_end (MWrite t) [] wq sq [] []. exact (roles_change _ _ _ _ _ Hr).
Qed.
End change.

(** ** The system *)

Lemma tinv_state s ph m rs wq sq o : tinv s ph m rs wq sq ->
  with_self o s = mk_tstate (lock_of m (Z.of_nat (length rs)) (head wq.*1) (head sq)) (w_next s) o (sig_of m) /\
  tinv (mk_tstate (lock_of m (Z.of_nat (length rs)) (head wq.*1) (head sq)) (w_next s) o (sig_of m)) ph m rs wq sq.
Proof.
  intros Hinv. destruct s as [l nx o' sg]. pose proof (ti_lock _ _ _ _ _ _ Hinv) as El.
  pose proof (ti_sig _ _ _ _ _ _ Hinv) as Es. simpl in El, Es. subst l sg.
  split; [done|]. by eapply tinv_self.
Qed.

Lemma tinv_perm s ph m rs rs' wq sq : rs ≡ₚ rs' -> tinv s ph m rs wq sq -> tinv s ph m rs' wq sq.
Proof.
  intros E [H1 H2 H3 H4 H5 H6 H7 H8 H9 H10]. split; try done; [by rewrite <- E|by rewrite <- E|].
  by rewrite <- (roles_readers m rs rs' wq sq E).
Qed.

(** A thread whose event was signalled is the one that is to go on. *)
Lemma resume_mode s ph m rs wq sq t k :
  tinv s ph m rs wq sq -> t ∈ signalled s -> ph !! t = Some (Waiting k) ->
  m = MUpg t true /\ k = CUpgrade \/ exists ty cur rec, m = MPend t ty cur rec /\ k = CAppend ty.
Proof.
  intros Hinv Hsg Ht. rewrite (ti_sig _ _ _ _ _ _ Hinv) in Hsg.
  pose proof (ro_role _ _ (ti_roles _ _ _ _ _ _ Hinv)) as Hr. unfold roles in Hr.
  destruct m as [| |a|a|a []|a ty cur rec]; cbn [sig_of] in Hsg;
    rewrite ?elem_of_empty, ?elem_of_singleton in Hsg; try done; subst t.
  - left. specialize (Hr a _ ltac:(left)). split; [done|congruence].
  - right. specialize (Hr a _ ltac:(left)).
    exists ty, cur, rec. split; [done|congruence].
Qed.

Lemma operate_ok e p s ph :
  tinv_some s ph -> ph !! thread e = Some p -> permitted e (mk_tsys s ph) = true ->
  wp (operate e p) (fun p' s' => tinv_some s' (<[thread e := p']> ph)) (with_self (Some (thread e)) s).
Proof.
  intros (m & rs & wq & sq & Hinv) Hp Hperm. unfold permitted in Hperm. cbn [phases ts] in Hperm.
  pose proof (owner_role _ _ _ _ _ _ _ (ti_roles _ _ _ _ _ _ Hinv) Hp) as Hown.
  destruct (tinv_state _ _ _ _ _ _ (Some (thread e)) Hinv) as [-> Hinv'].
  destruct e as [t ty|t|t|t|t]; cbn [thread operate] in *; rewrite Hp in Hperm.
  - apply andb_true_iff in Hperm as [Hty%bool_decide_eq_true Hpp%bool_decide_eq_true]. apply wp_bind.
    rewrite !elem_of_cons, elem_of_nil in Hpp. destruct Hpp as [->|Hpp].
    + eapply wp_mono; [by apply tll_lock_idle|]. intros o s' [Hs' _]. apply wp_ret.
      by destruct o as [[]|].
    + assert (p = Hold TLL_READSER \/ p = Hold TLL_WRITE) as Hpp' by tauto.
      eapply wp_mono; [by eapply tll_lock_owner|]. intros o s' Hs'. apply wp_ret. by destruct o as [[]|].
  - destruct p as [|a|]; try done. apply wp_bind.
    apply wp_mono with (P := fun _ s' => tinv_some s' (<[t := Idle]> ph)); [|intros ? s' Hs'; by apply wp_ret].
    destruct a.
    + exfalso. destruct (ro_idle _ _ (ti_roles _ _ _ _ _ _ Hinv) _ _ Hp) as [?|Hin]; [done|].
      revert Hin. unfold roles. rewrite !elem_of_app, !list_elem_of_In, !in_map_iff.
      unfold reader, writer, serial. destruct m; simpl; naive_solver.
    + destruct (reader_role _ _ _ _ _ _ (ti_roles _ _ _ _ _ _ Hinv) Hp) as [rs' E].
      rewrite (Permutation_length E) in *. eapply tinv_perm in Hinv'; [|exact E].
      eapply unlock_reader_ok; [|done]. exact Hinv'.
    + specialize (Hown ltac:(tauto)). destruct m; cbn [mode_roles] in Hown;
        rewrite ?elem_of_nil, ?list_elem_of_singleton in Hown; try done.
      injection Hown as <-. by apply unlock_ser.
    + specialize (Hown ltac:(tauto)). destruct m; cbn [mode_roles] in Hown;
        rewrite ?elem_of_nil, ?list_elem_of_singleton in Hown; try done.
      injection Hown as <-. by apply unlock_write.
  - apply bool_decide_eq_true in Hperm. rewrite !elem_of_cons, elem_of_nil in Hperm.
    assert (p = Hold TLL_READSER \/ p = Hold TLL_WRITE) as Hpp by tauto. apply wp_bind.
    eapply wp_mono; [apply tll_downgrade_ok; [done..|by apply Hown; tauto|done]|].
    intros ? s' Hs'. by apply wp_ret.
  - apply bool_decide_eq_true in Hperm. rewrite !elem_of_cons, elem_of_nil in Hperm.
    assert (p = Hold TLL_READSER \/ p = Hold TLL_WRITE) as Hpp by tauto. apply wp_bind.
    eapply wp_mono; [eapply tll_upgrade_ok; [done..|by apply Hown; tauto|done]|].
    intros o s' Hs'. by apply wp_ret.
  - destruct p as [| |k]; try done. apply bool_decide_eq_true in Hperm. apply wp_bind, wp_modify.
    cbn [signalled]. replace (with_signalled _ _) with (with_signalled ∅
      (mk_tstate (lock_of m (Z.of_nat (length rs)) (head wq.*1) (head sq)) (w_next s) (Some t) (sig_of m))).
    2:{ unfold with_signalled. cbn [signalled lock w_next self]. f_equal.
        rewrite (ti_sig _ _ _ _ _ _ Hinv) in Hperm. destruct m as [| |a|a|a []|a ty cur rec]; simpl in *; set_solver. }
    destruct (resume_mode _ _ _ _ _ _ _ _ Hinv Hperm Hp) as [[-> ->]|(ty & cur & rec & -> & ->)]; apply wp_bind.
    + eapply wp_mono; [by apply tll_upgrade_resume_ok|]. intros ? s' Hs'. by apply wp_ret.
    + eapply wp_mono; [by eapply tll_append_resume_ok|]. intros ? s' Hs'. by apply wp_ret.
Qed.
