(* ===== verification/TllSystem.v ===== *)
(** * The system of threads that share a three-level lock

    What holds in every state the threads reach, whatever the order in which they
    run: safety, mutual exclusion, and that whoever waits gets the lock once the
    others have given it up. *)

From S2P Require Import Prelude KTypes Tll TllProps.
#[local] Open Scope Z_scope.

Lemma list_to_map_const {A} (a : A) (l : list Z) p v :
  (list_to_map (map (fun x => (x, a)) l) : gmap Z A) !! p = Some v -> v = a.
Proof.
  induction l as [|x l IH]; simpl; [by rewrite lookup_empty|].
  destruct (decide (x = p)) as [->|Hne].
  - rewrite lookup_insert_eq. by intros [= ->].
  - by rewrite lookup_insert_ne.
Qed.

Lemma start_inv : tinv (ts tll_start) (phases tll_start) MFree [] [] [].
Proof.
  split; try done.
  - intros t p ?%elem_of_nil. done.
  - intros t Ht. exact (proj1 (lookup_list_to_map_is_Some Idle workers t) Ht).
  - intros t Ht. exact (proj2 (lookup_list_to_map_is_Some None workers t) Ht).
  - split; [constructor|by intros t p ?%elem_of_nil|].
    intros t p Hp. left. exact (list_to_map_const Idle workers t p Hp).
Qed.

(** An event that the protocol permits leads to a state of the same kind. *)
Lemma step_ok S e : tinv_some (ts S) (phases S) -> permitted e S = true ->
  exists S', tll_step e S = Ok S' /\ tinv_some (ts S') (phases S') /\
    (forall u, u <> thread e -> phases S' !! u = phases S !! u).
Proof.
  destruct S as [s ph]. cbn [ts phases]. intros Hinv Hperm.
  destruct (ph !! thread e) as [p|] eqn:Hp.
  2:{ unfold permitted in Hperm. destruct e; cbn [phases thread] in *; by rewrite Hp in Hperm. }
  unfold tll_step. cbn [ts phases]. rewrite Hp.
  destruct (wp_elim _ _ _ (operate_ok e p s ph Hinv Hp Hperm)) as (p' & s' & -> & Hs').
  eexists. split; [done|]. split; [done|]. intros u Hu. cbn [phases]. by rewrite lookup_insert_ne by congruence.
Qed.

Lemma reach_inv S : tll_reach S -> tinv_some (ts S) (phases S).
Proof.
  induction 1 as [|e S S' _ IH Hperm Hstep]; [by exists MFree, [], [], []; apply start_inv|].
  destruct (step_ok S e IH Hperm) as (S'' & E & HS'' & _). congruence.
Qed.

(** ** Exclusion *)

(** Writers have the lock alone, at most one thread is read-serialized, and the
    count of readers is exact. *)
Record excluded (S : tsys) : Prop := {
  ex_writer : forall t u a, phases S !! t = Some (Hold TLL_WRITE) -> phases S !! u = Some (Hold a) -> u = t;
  ex_serial : forall t u, phases S !! t = Some (Hold TLL_READSER) -> phases S !! u = Some (Hold TLL_READSER) -> u = t;
  ex_readers : exists rs, NoDup rs /\ (forall t, t ∈ rs <-> phases S !! t = Some (Hold TLL_READ)) /\
    t_readonly (lock (ts S)) = Z.of_nat (length rs);
  ex_islocked : t_current (lock (ts S)) = TLL_NONE <-> forall t p, phases S !! t = Some p -> p = Idle;
}.

Lemma reader_elem ph m rs wq sq t :
  roles_ok ph (roles m rs wq sq) -> t ∈ rs <-> ph !! t = Some (Hold TLL_READ).
Proof.
  intros Hr. split.
  - intros Ht. apply (ro_role _ _ Hr). unfold roles. rewrite !elem_of_app. right. left.
    apply list_elem_of_In, in_map_iff. exists t. by rewrite <- list_elem_of_In.
  - intros Ht. destruct (reader_role _ _ _ _ _ _ Hr Ht) as [rs' ->]. left.
Qed.

Lemma holder_role ph m rs wq sq t a :
  roles_ok ph (roles m rs wq sq) -> ph !! t = Some (Hold a) ->
  a = TLL_READ /\ t ∈ rs \/ (t, Hold a) ∈ mode_roles m.
Proof.
  intros Hr Ht. destruct (ro_idle _ _ Hr _ _ Ht) as [?|Hin]; [done|]. revert Hin. unfold roles.
  rewrite !elem_of_app, !list_elem_of_In, !in_map_iff. unfold reader, writer, serial. naive_solver.
Qed.

Lemma inv_excluded S m rs wq sq : tinv (ts S) (phases S) m rs wq sq -> excluded S.
Proof.
  intros Hinv. pose proof (ti_roles _ _ _ _ _ _ Hinv) as Hr. pose proof (ti_mode _ _ _ _ _ _ Hinv) as Hm.
  pose proof (ti_lock _ _ _ _ _ _ Hinv) as Hl. split.
  - intros t u a Ht Hu. apply (owner_role _ _ _ _ _ _ _ Hr) in Ht; [|tauto].
    destruct m; cbn [mode_roles mode_ok] in *; rewrite ?elem_of_nil, ?list_elem_of_singleton in Ht; try done.
    destruct rs; [|done]. injection Ht as ->. destruct (holder_role _ _ _ _ _ _ _ Hr Hu) as [[_ ?%elem_of_nil]|Hin]; [done|].
    cbn [mode_roles] in Hin. apply list_elem_of_singleton in Hin. congruence.
  - intros t u Ht Hu. apply (owner_role _ _ _ _ _ _ _ Hr) in Ht, Hu; [|tauto..].
    destruct m; cbn [mode_roles] in *; rewrite ?elem_of_nil, ?list_elem_of_singleton in Ht, Hu; try done. congruence.
  - exists rs. split_and!.
    + pose proof (ti_nodup _ _ _ _ _ _ Hinv) as Hn. rewrite !NoDup_app in Hn. tauto.
    + intros t. by eapply reader_elem.
    + by rewrite Hl, t_readonly_lock.
  - rewrite Hl. split.
    + intros Hc t p Ht. destruct (ro_idle _ _ Hr _ _ Ht) as [?|Hin]; [done|].
      destruct m as [| |a|a|a w|a ty cur rec]; cbn in Hc, Hm; try congruence; [|naive_solver].
      destruct Hm as (Hn & -> & ->). destruct rs; [|done]. by apply elem_of_nil in Hin.
    + intros Hid. destruct m as [| |a|a|a w|a ty cur rec]; try done.
      * destruct rs as [|r rs]; [done|]. pose proof (proj1 (reader_elem _ _ _ _ _ r Hr) ltac:(left)) as Hp.
        by specialize (Hid _ _ Hp).
      * by specialize (Hid _ _ (ro_role _ _ Hr a _ ltac:(left))).
      * by specialize (Hid _ _ (ro_role _ _ Hr a _ ltac:(left))).
      * by specialize (Hid _ _ (ro_role _ _ Hr a _ ltac:(left))).
      * by specialize (Hid _ _ (ro_role _ _ Hr a _ ltac:(left))).
Qed.

(** C9 In every state that the threads reach, in any order of events, every
    permitted operation runs without a failing assertion, panic or invalid
    pointer, and the lock excludes: a writer holds it alone, at most one thread
    holds it read-serialized, [t_readonly] counts the readers exactly, and the
    lock is unlocked just when no thread holds it or waits for it. *)
Theorem tll_safe S : tll_reach S ->
  (forall e, permitted e S = true -> exists S', tll_step e S = Ok S') /\ excluded S.
Proof.
  intros HS. pose proof (reach_inv S HS) as Hinv. split.
  - intros e He. destruct (step_ok S e Hinv He) as (S' & ? & _). by exists S'.
  - destruct Hinv as (m & rs & wq & sq & Hinv). by eapply inv_excluded.
Qed.

(** ** Nobody waits forever *)

(** Threads only give the lock up, or go on when they are told to. *)
Definition draining (e : event) : bool := match e with EUnlock _ | EResume _ => true | _ => false end.
Inductive drain : nat -> tsys -> tsys -> Prop :=
| drain_0 S : drain 0 S S
| drain_S n e S S' S'' : draining e = true -> permitted e S = true -> tll_step e S = Ok S' ->
    drain n S' S'' -> drain (Datatypes.S n) S S''.

Definition weight (o : option phase) : nat :=
  match o with Some (Waiting _) => 2 | Some (Hold _) => 1 | _ => 0 end.
Definition todo (S : tsys) : nat := list_sum (map (fun t => weight (phases S !! t)) workers).

Lemma list_sum_change (f g : Z -> nat) (l : list Z) t d :
  NoDup l -> t ∈ l -> f t = (g t + d)%nat -> (forall u, u <> t -> f u = g u) ->
  list_sum (map f l) = (list_sum (map g l) + d)%nat.
Proof.
  intros Hnd Ht Hd He. induction l as [|x l IH]; [by apply elem_of_nil in Ht|]. simpl.
  apply NoDup_cons in Hnd as [Hx Hnd]. apply elem_of_cons in Ht as [->|Ht].
  - assert (list_sum (map f l) = list_sum (map g l)); [|lia]. f_equal. apply map_ext_in.
    intros u Hu%list_elem_of_In. apply He. by intros ->.
  - rewrite IH by done. assert (f x = g x); [|lia]. apply He. by intros ->.
Qed.

(** Each event that drains leaves one thing less to do. *)
Lemma drain_step S e S' : tinv_some (ts S) (phases S) -> draining e = true -> permitted e S = true ->
  tll_step e S = Ok S' -> todo S = Datatypes.S (todo S').
Proof.
  intros Hinv Hd Hperm Hstep. destruct (step_ok S e Hinv Hperm) as (S'' & E & _ & Hu). assert (S'' = S') as -> by congruence.
  assert (thread e ∈ workers /\ weight (phases S !! thread e) = (weight (phases S' !! thread e) + 1)%nat) as [Hw Hwt].
  { destruct Hinv as (m & rs & wq & sq & Hinv). unfold permitted in Hperm. unfold tll_step in Hstep.
    destruct (phases S !! thread e) as [p|] eqn:Hp; [|by destruct e].
    split; [apply (ti_workers _ _ _ _ _ _ Hinv); by eexists|].
    destruct (operate e p _) as [[p' s']|] eqn:Eop; [|done]. injection Hstep as <-. cbn [phases].
    rewrite lookup_insert_eq. destruct e as [|t| | |t]; try done; cbn [thread] in *; rewrite Hp in Hperm;
      destruct p as [|a|k]; try done.
    - cbn [operate] in Eop. unfold mbind, M_bind, mret, M_ret in Eop. destruct (tll_unlock _) as [[? ?]|]; [|done].
      injection Eop as <- <-. done.
    - cbn [operate] in Eop. unfold mbind, M_bind, mret, M_ret, modify in Eop. destruct k as [ty|].
      + destruct (tll_append_resume _ _) as [[? ?]|]; [|done]. injection Eop as <- <-. done.
      + destruct (tll_upgrade_resume _) as [[? ?]|]; [|done]. injection Eop as <- <-. done. }
  unfold todo. rewrite (list_sum_change _ (fun t => weight (phases S' !! t)) workers (thread e) 1); [lia| |done|done|].
  - apply NoDup_seqZ.
  - intros u Hne. by rewrite Hu.
Qed.

(** As long as a thread holds the lock or waits for it, an event can drain it. *)
Lemma drain_progress S : tinv_some (ts S) (phases S) ->
  (exists e, draining e = true /\ permitted e S = true) \/ (forall t p, phases S !! t = Some p -> p = Idle).
Proof.
  intros (m & rs & wq & sq & Hinv). pose proof (ti_roles _ _ _ _ _ _ Hinv) as Hr.
  pose proof (ti_mode _ _ _ _ _ _ Hinv) as Hm. pose proof (ti_sig _ _ _ _ _ _ Hinv) as Hsg.
  assert (forall t a, phases S !! t = Some (Hold a) -> exists e, draining e = true /\ permitted e S = true) as Hhold.
  { intros t a Ht. exists (EUnlock t). split; [done|]. unfold permitted. simpl. by rewrite Ht. }
  assert (rs <> [] -> exists e, draining e = true /\ permitted e S = true) as Hrs.
  { destruct rs as [|r rs']; [done|]. intros _. eapply (Hhold r). eapply (reader_elem _ _ _ _ _ r Hr). left. }
  assert (forall t k, (t, Waiting k) ∈ mode_roles m -> sig_of m = {[t]} ->
    exists e, draining e = true /\ permitted e S = true) as Hres.
  { intros t k Ht Hs. exists (EResume t). split; [done|]. unfold permitted. simpl.
    rewrite (ro_role _ _ Hr t (Waiting k)) by (unfold roles; rewrite elem_of_app; by left).
    apply bool_decide_eq_true. rewrite Hsg, Hs. by apply elem_of_singleton. }
  destruct m as [| |a|a|a []|a ty cur rec]; cbn [mode_ok] in Hm.
  - right. destruct Hm as (Hn & -> & ->). destruct rs; [|done]. intros t p Ht.
    destruct (ro_idle _ _ Hr _ _ Ht) as [?|Hin]; [done|]. by apply elem_of_nil in Hin.
  - left. apply Hrs. by destruct rs.
  - left. eapply Hhold. apply (ro_role _ _ Hr a). left.
  - left. eapply Hhold. apply (ro_role _ _ Hr a). left.
  - left. eapply (Hres a); [left|done].
  - left. apply Hrs. by destruct rs.
  - left. eapply (Hres a); [left|done].
Qed.

Lemma todo_bound S : (todo S <= 18)%nat.
Proof.
  unfold todo. assert (forall l, (list_sum (map (fun t => weight (phases S !! t)) l) <= 2 * length l)%nat) as H.
  { induction l as [|x l IH]; simpl; [lia|]. assert (weight (phases S !! x) <= 2)%nat; [|lia].
    by destruct (phases S !! x) as [[]|]; simpl; lia. }
  apply (H workers).
Qed.

(** C20 From every reachable state, if no thread asks for the lock any more and
    those that have it give it up, then whatever the order of events every
    waiting thread is woken and served: there are at most 18 events, they cannot
    get stuck before all threads are idle, and then the lock is free. *)
Theorem tll_drains S n S' : tll_reach S -> drain n S S' ->
  (n <= 18)%nat /\
  ((exists e S'', draining e = true /\ permitted e S' = true /\ tll_step e S' = Ok S'') \/
   ((forall t p, phases S' !! t = Some p -> p = Idle) /\ t_current (lock (ts S')) = TLL_NONE)).
Proof.
  intros HS Hd. assert (tll_reach S' /\ todo S = (n + todo S')%nat) as [HS' Htodo].
  { induction Hd as [|n e S S1 S2 He Hp Hs _ IH]; [done|]. pose proof (reach_inv S HS) as Hinv.
    destruct IH as [H1 H2]; [by econstructor|]. split; [done|].
    rewrite (drain_step S e S1) by done. lia. }
  split; [pose proof (todo_bound S); lia|]. pose proof (reach_inv _ HS') as Hinv.
  destruct (drain_progress _ Hinv) as [(e & He & Hp)|Hidle].
  - left. destruct (step_ok _ _ Hinv Hp) as (S'' & ? & _). by exists e, S''.
  - right. split; [done|]. destruct Hinv as (m & rs & wq & sq & Hinv).
    by apply (ex_islocked _ (inv_excluded _ _ _ _ _ Hinv)).
Qed.

(** ** Writers come first *)

(** While a request is queued for read-only or write-only access, no other
    request is granted: a thread that asks for the lock, for any access, waits. *)
Theorem tll_write_bias S t ty : tll_reach S -> phases S !! t = Some Idle -> ty <> TLL_NONE ->
  t_write (lock (ts S)) <> None ->
  exists S', tll_step (ELock t ty) S = Ok S' /\ phases S' !! t = Some (Waiting (CAppend ty)).
Proof.
  intros HS Ht Hty Hw. destruct (reach_inv S HS) as (m & rs & wq & sq & Hinv).
  rewrite (ti_lock _ _ _ _ _ _ Hinv), t_write_lock in Hw.
  destruct (tinv_state _ _ _ _ _ _ (Some t) Hinv) as [E Hinv'].
  destruct (wp_elim _ _ _ (tll_lock_idle _ _ _ _ _ _ t ty Hinv' Hty Ht)) as (o & s' & Eo & _ & Hbias).
  rewrite Hbias in Eo by by intros ->.
  unfold tll_step. cbn [thread operate]. rewrite Ht, E. unfold mbind at 1, M_bind at 1. rewrite Eo.
  eexists. split; [done|]. cbn [phases]. by rewrite lookup_insert_eq.
Qed.

(** ** An instance *)

Fixpoint run_events (es : list event) (S : tsys) : option tsys :=
  match es with
  | [] => Some S
  | e :: es' =>
      if permitted e S then match tll_step e S with Ok S' => run_events es' S' | Err _ => None end else None
  end.

Lemma run_events_reach es S S' : tll_reach S -> run_events es S = Some S' -> tll_reach S'.
Proof.
  revert S. induction es as [|e es IH]; intros S HS; simpl; [by intros [= <-]|].
  destruct (permitted e S) eqn:Hp; [|done]. destruct (tll_step e S) as [S1|] eqn:Hs; [|done].
  apply IH. by eapply reach_step.
Qed.

(** Thread 0 reads, 1 is read-serialized and wants to upgrade, 2 waits to write and
    3 to read. *)
Definition demo_events : list event :=
  [ELock 0 TLL_READ; ELock 1 TLL_READSER; EUpgrade 1; ELock 2 TLL_WRITE; ELock 3 TLL_READ].
Definition demo_tll : tsys := default tll_start (run_events demo_events tll_start).

Lemma demo_reach : tll_reach demo_tll.
Proof.
  apply (run_events_reach demo_events tll_start); [exact reach_start|].
  unfold demo_tll. destruct (run_events demo_events tll_start) eqn:E; [done|].
  exfalso. revert E. vm_compute. discriminate.
Qed.

Lemma tll_safe_witness : tll_reach demo_tll /\ excluded demo_tll /\
  exists S', tll_step (EUnlock 0) demo_tll = Ok S'.
Proof.
  split; [exact demo_reach|]. destruct (tll_safe demo_tll demo_reach) as [H1 H2].
  split; [exact H2|]. apply H1. vm_compute. reflexivity.
Defined.

(** The reader leaves, and the upgrade goes on. *)
Definition demo_drained : tsys := default tll_start (run_events [EUnlock 0; EResume 1] demo_tll).
Lemma tll_drains_witness : tll_reach demo_tll /\ drain 2 demo_tll demo_drained /\
  ((exists e S'', draining e = true /\ permitted e demo_drained = true /\ tll_step e demo_drained = Ok S'') \/
   ((forall t p, phases demo_drained !! t = Some p -> p = Idle) /\
    t_current (lock (ts demo_drained)) = TLL_NONE)).
Proof.
  assert (drain 2 demo_tll demo_drained) as Hd.
  { eapply (drain_S _ (EUnlock 0)); [reflexivity|vm_compute; reflexivity|vm_compute; reflexivity|].
    eapply (drain_S _ (EResume 1)); [reflexivity|vm_compute; reflexivity|vm_compute; reflexivity|].
    match goal with |- drain 0 ?a ?b => replace b with a by (vm_compute; reflexivity) end. constructor. }
  split; [exact demo_reach|]. split; [exact Hd|].
  exact (proj2 (tll_drains demo_tll 2 demo_drained demo_reach Hd)).
Defined.

Lemma tll_write_bias_witness : exists S', tll_step (ELock 4 TLL_READ) demo_tll = Ok S' /\
  phases S' !! 4 = Some (Waiting (CAppend TLL_READ)).
Proof.
  apply (tll_write_bias demo_tll 4 TLL_READ); [exact demo_reach|vm_compute; reflexivity|discriminate|].
  vm_compute. discriminate.
Defined.
