(* ===== verification/Timers.v ===== *)
(** * Watchdog timers (lib/libtimers, lib/libsys/timers.c, kernel/clock.c)

    The timer queue as the library keeps it, a singly linked list of timers in
    memory, with the interface for system services on top of it and the one of the
    clock in the kernel. The watchdog functions are an argument: they may call
    these operations again. [clock_t] is a 32-bit unsigned integer. *)

From S2P Require Import Prelude Links KTypes.
#[local] Open Scope Z_scope.

Section timers.

(** Names of watchdog functions; the rest of the program. *)
Context {F W : Type}.

Definition TMR_NEVER : Z := 2147483647.   (* (clock_t) LONG_MAX *)

Record minix_timer_t := mk_timer {
  tmr_next : option Z;
  tmr_exp_time : Z;
  tmr_func : F;
  tmr_arg : Z;
}.

(** [timers] is the queue of the program ([clock_timers] in the kernel). *)
Record tmstate := mk_tmstate {
  tmem : gmap Z minix_timer_t;
  timers : option Z;
  expiring : Z;
  next_timeout : Z;
  outer : W;
}.
Definition with_tmem (m : gmap Z minix_timer_t) (s : tmstate) : tmstate :=
  mk_tmstate m (timers s) (expiring s) (next_timeout s) (outer s).
Definition with_timers (h : option Z) (s : tmstate) : tmstate :=
  mk_tmstate (tmem s) h (expiring s) (next_timeout s) (outer s).
Definition with_expiring (v : Z) (s : tmstate) : tmstate :=
  mk_tmstate (tmem s) (timers s) v (next_timeout s) (outer s).
Definition with_next_timeout (v : Z) (s : tmstate) : tmstate :=
  mk_tmstate (tmem s) (timers s) (expiring s) v (outer s).
Definition with_outer (w : W) (s : tmstate) : tmstate :=
  mk_tmstate (tmem s) (timers s) (expiring s) (next_timeout s) w.

Notation TM := (M tmstate).

Definition load_timer (tp : Z) : TM minix_timer_t := m ← gets tmem; deref (m !! tp).
Definition upd_timer (tp : Z) (f : minix_timer_t -> minix_timer_t) : TM unit :=
  t ← load_timer tp; modify (fun s => with_tmem (<[tp := f t]> (tmem s)) s).
Definition set_tmr_next (n : option Z) (t : minix_timer_t) : minix_timer_t :=
  mk_timer n (tmr_exp_time t) (tmr_func t) (tmr_arg t).
Definition set_tmr_exp_time (e : Z) (t : minix_timer_t) : minix_timer_t :=
  mk_timer (tmr_next t) e (tmr_func t) (tmr_arg t).
Definition set_tmr_func (f : F) (t : minix_timer_t) : minix_timer_t :=
  mk_timer (tmr_next t) (tmr_exp_time t) f (tmr_arg t).
Definition set_tmr_arg (a : Z) (t : minix_timer_t) : minix_timer_t :=
  mk_timer (tmr_next t) (tmr_exp_time t) (tmr_func t) a.

(** [*atp], where [atp] is [tmrs] or the address of a field [tmr_next]. *)
Definition read_atp (atp : option Z) : TM (option Z) :=
  match atp with None => gets timers | Some x => t ← load_timer x; mret (tmr_next t) end.
Definition write_atp (atp : option Z) (v : option Z) : TM unit :=
  match atp with None => modify (with_timers v) | Some x => upd_timer x (set_tmr_next v) end.

(** [*tmrs ? ( *tmrs)->tmr_exp_time : 0] *)
Definition head_time : TM Z :=
  h ← gets timers;
  match h with None => mret 0 | Some x => t ← load_timer x; mret (tmr_exp_time t) end.

(** The walks of the queue visit each timer at most once. *)
Definition timer_fuel : TM nat := m ← gets tmem; mret (S (size m)).

(** ** lib/libtimers *)

Definition tmr_inittimer (tp : Z) : TM unit :=
  upd_timer tp (set_tmr_exp_time TMR_NEVER);; upd_timer tp (set_tmr_next None).

Fixpoint unlink_timer (fuel : nat) (atp : option Z) (tp : Z) : TM unit :=
  match fuel with
  | O => fail OutOfFuel
  | S fuel' =>
      x ← read_atp atp;
      match x with
      | None => skip
      | Some y =>
          if y =? tp then t ← load_timer tp; write_atp atp (tmr_next t)
          else unlink_timer fuel' (Some y) tp
      end
  end.

(** The previous and the new time of the head; 0 when the queue is empty. *)
Definition tmrs_clrtimer (tp : Z) : TM (Z * Z) :=
  prev_time ← head_time;
  upd_timer tp (set_tmr_exp_time TMR_NEVER);;
  n ← timer_fuel;
  unlink_timer n None tp;;
  next_time ← head_time;
  mret (prev_time, next_time).

Fixpoint insert_timer (fuel : nat) (atp : option Z) (exp_time tp : Z) : TM unit :=
  match fuel with
  | O => fail OutOfFuel
  | S fuel' =>
      x ← read_atp atp;
      let here := upd_timer tp (set_tmr_next x);; write_atp atp (Some tp) in
      match x with
      | None => here
      | Some y =>
          t ← load_timer y;
          if exp_time <? tmr_exp_time t then here else insert_timer fuel' (Some y) exp_time tp
      end
  end.

Definition tmrs_settimer (tp exp_time : Z) (watchdog : F) : TM (Z * Z) :=
  old_head ← head_time;
  tmrs_clrtimer tp;;
  upd_timer tp (set_tmr_exp_time exp_time);;
  upd_timer tp (set_tmr_func watchdog);;
  n ← timer_fuel;
  insert_timer n None exp_time tp;;
  new_head ← head_time;
  mret (old_head, new_head).

(** The watchdog functions. *)
Context (run_watchdog : F -> Z -> TM unit).

(** The loop runs one timer for each unit of fuel. *)
Fixpoint tmrs_exptimers (fuel : nat) (now : Z) : TM Z :=
  match fuel with
  | O => fail OutOfFuel
  | S fuel' =>
      h ← gets timers;
      match h with
      | None => head_time
      | Some tp =>
          t ← load_timer tp;
          if tmr_exp_time t <=? now then
            modify (with_timers (tmr_next t));;
            upd_timer tp (set_tmr_exp_time TMR_NEVER);;
            run_watchdog (tmr_func t) tp;;
            tmrs_exptimers fuel' now
          else head_time
      end
  end.

(** ** lib/libsys/timers.c *)

Context (getticks : M W (ecode * Z)) (sys_setalarm : Z -> Z -> M W ecode).

Definition call_outer {A} (m : M W A) : TM A :=
  w ← gets outer;
  match m w with
  | Ok (a, w') => modify (with_outer w');; mret a
  | Err f => fail f
  end.

Definition init_timer (tp : Z) : TM unit := tmr_inittimer tp.

Definition reschedule_alarm (next_time : Z) : TM unit :=
  r ← call_outer (sys_setalarm next_time 1);
  when (negb (bool_decide (r = OK))) (fail Panic).

Definition set_timer (tp ticks : Z) (watchdog : F) (arg : Z) : TM unit :=
  g ← call_outer getticks;
  let '(r, now) := (g : ecode * Z) in
  when (negb (bool_decide (r = OK))) (fail Panic);;
  upd_timer tp (set_tmr_arg arg);;
  h ← tmrs_settimer tp (u32 (now + ticks)) watchdog;
  let '(prev_time, next_time) := (h : Z * Z) in
  e ← gets expiring;
  when ((e =? 0) && ((prev_time =? 0) || (next_time <? prev_time))) (reschedule_alarm next_time).

Definition cancel_timer (tp : Z) : TM unit :=
  h ← tmrs_clrtimer tp;
  let '(prev_time, next_time) := (h : Z * Z) in
  e ← gets expiring;
  when ((e =? 0) && ((prev_time <? next_time) || (next_time =? 0))) (reschedule_alarm next_time).

Definition expire_timers (fuel : nat) (now : Z) : TM unit :=
  modify (with_expiring 1);;
  next_time ← tmrs_exptimers fuel now;
  modify (with_expiring 0);;
  when (0 <? next_time) (reschedule_alarm next_time).

(** ** kernel/clock.c *)

(** [clock_timers == NULL ? TMR_NEVER : clock_timers->tmr_exp_time] *)
Definition update_timeout : TM unit :=
  h ← gets timers;
  t ← (match h with None => mret TMR_NEVER | Some x => t ← load_timer x; mret (tmr_exp_time t) end);
  modify (with_next_timeout t).

Definition set_kernel_timer (tp exp_time : Z) (watchdog : F) : TM unit :=
  tmrs_settimer tp exp_time watchdog;;
  h ← gets timers;
  x ← deref h;
  t ← load_timer x;
  modify (with_next_timeout (tmr_exp_time t)).

Definition reset_kernel_timer (tp : Z) : TM unit :=
  tmrs_clrtimer tp;; update_timeout.

(** The part of [timer_int_handler] that runs the timers that are due. *)
Definition clock_tick (fuel : nat) (monotonic : Z) : TM unit :=
  n ← gets next_timeout;
  when (n <=? monotonic) (tmrs_exptimers fuel monotonic;; update_timeout).

End timers.
Arguments minix_timer_t : clear implicits.
Arguments tmstate : clear implicits.
