(* ===== verification/TimersProps.v ===== *)
(** * Correctness of the watchdog timers

    The linked queue is a list sorted by expiration time. Setting and clearing a
    timer inserts and removes it, the expiry loop runs exactly the timers that are
    due, in order, and the alarm of a service never rings after the first timer. *)

From S2P Require Import Prelude Links KTypes Timers.
From stdpp Require Import sorting.
#[local] Open Scope Z_scope.

Section props.
Context {F W : Type}.
Implicit Types s : tmstate F W.

(** ** The queue *)

Definition tnx s (x : Z) : option (option Z) := tmr_next <$> tmem s !! x.
Definition texp s (x : Z) : Z := match tmem s !! x with Some t => tmr_exp_time t | None => 0 end.

Record tqueue s (l : list Z) : Prop := {
  tq_chain : chain (tnx s) (timers s) l;
  tq_nodup : NoDup l;
  tq_sorted : StronglySorted (fun x y => texp s x <= texp s y) l;
}.

(** The expiration time of the head, or 0. *)
Definition first_time s (l : list Z) : Z := match l with [] => 0 | x :: _ => texp s x end.

(** Timers keep their data: only links differ. *)
Definition tdata (t : minix_timer_t F) : Z * F * Z := (tmr_exp_time t, tmr_func t, tmr_arg t).
Record relinked s s' : Prop := {
  rl_data : forall x, tdata <$> tmem s' !! x = tdata <$> tmem s !! x;
  rl_expiring : expiring s' = expiring s;
  rl_timeout : next_timeout s' = next_timeout s;
  rl_outer : outer s' = outer s;
}.

Lemma relinked_refl s : relinked s s.
Proof using Type. by split. Qed.
Lemma relinked_trans s1 s2 s3 : relinked s1 s2 -> relinked s2 s3 -> relinked s1 s3.
Proof using Type. intros [] []. split; intros; etransitivity; eauto. Qed.

Lemma relinked_exp s s' x : relinked s s' -> texp s' x = texp s x.
Proof using Type.
  intros Hr. pose proof (rl_data _ _ Hr x) as E. unfold texp.
  destruct (tmem s' !! x), (tmem s !! x); try done. injection E as E _ _. done.
Qed.

Lemma relinked_some s s' x : relinked s s' -> is_Some (tmem s !! x) -> is_Some (tmem s' !! x).
Proof using Type.
  intros Hr [t E]. pose proof (rl_data _ _ Hr x) as E'. rewrite E in E'.
  destruct (tmem s' !! x); [by eexists|done].
Qed.

(** ** Accesses *)

Lemma wp_load_timer s tp t (Q : minix_timer_t F -> tmstate F W -> Prop) :
  tmem s !! tp = Some t -> Q t s -> wp (load_timer tp) Q s.
Proof using Type. intros E HQ. unfold load_timer. by wp_steps. Qed.

Lemma wp_upd_timer s tp f t (Q : unit -> tmstate F W -> Prop) :
  tmem s !! tp = Some t -> Q tt (with_tmem (<[tp := f t]> (tmem s)) s) -> wp (upd_timer tp f) Q s.
Proof using Type. intros E HQ. unfold upd_timer. apply wp_bind. by eapply wp_load_timer. Qed.

Lemma tnx_set s tp t u :
  tnx (with_tmem (<[tp := t]> (tmem s)) s) u = if bool_decide (tp = u) then Some (tmr_next t) else tnx s u.
Proof using Type.
  unfold tnx. simpl. case_bool_decide; [subst; by rewrite lookup_insert_eq|by rewrite lookup_insert_ne].
Qed.

Lemma tnx_some s tp : is_Some (tnx s tp) -> exists t, tmem s !! tp = Some t /\ tnx s tp = Some (tmr_next t).
Proof using Type. unfold tnx. destruct (tmem s !! tp) as [t|]; simpl; intros [? ?]; [by exists t|done]. Qed.

Lemma relinked_next s tp t n : tmem s !! tp = Some t ->
  relinked s (with_tmem (<[tp := set_tmr_next n t]> (tmem s)) s).
Proof using Type.
  intros E. split; [|done..]. intros x. simpl. destruct (decide (tp = x)) as [->|].
  - by rewrite lookup_insert_eq, E.
  - by rewrite lookup_insert_ne.
Qed.

Lemma queue_size s l : chain (tnx s) (timers s) l -> NoDup l -> (length l <= size (tmem s))%nat.
Proof using Type.
  intros Hc Hnd. rewrite <- size_dom, <- (size_list_to_set (C := gset Z) l) by done.
  apply subseteq_size. intros x Hx%elem_of_list_to_set.
  apply elem_of_dom. destruct (chain_lookup _ _ _ _ Hc Hx) as [n Hn].
  destruct (tnx_some s x) as (t & E & _); [by eexists|]. by eexists.
Qed.

(** Reading the pointer after [l1]. *)
Lemma read_atp_ok s l1 l2 (Q : option Z -> tmstate F W -> Prop) :
  chain (tnx s) (timers s) (l1 ++ l2) -> Q (head l2) s -> wp (read_atp (last l1)) Q s.
Proof using Type.
  intros Hc HQ. destruct l1 as [|x l1 _] using rev_ind.
  - cbn [last read_atp]. apply wp_gets. simpl in Hc. by rewrite (chain_head _ _ _ Hc).
  - rewrite last_snoc. cbn [read_atp]. rewrite <- app_assoc in Hc. simpl in Hc.
    pose proof (chain_app _ _ _ _ _ Hc) as Hx. destruct (tnx_some s x) as (t & E & E'); [by eexists|].
    apply wp_bind. eapply wp_load_timer; [done|]. apply wp_ret. assert (tmr_next t = head l2) as -> by congruence. done.
Qed.

(** Writing the pointer after [l1]: the list goes on with [m]. *)
Lemma write_atp_ok s l1 l2 m (Q : unit -> tmstate F W -> Prop) :
  chain (tnx s) (timers s) (l1 ++ l2) -> NoDup l1 -> chain (tnx s) (head m) m -> (forall x, x ∈ m -> x ∉ l1) ->
  (forall s', relinked s s' -> chain (tnx s') (timers s') (l1 ++ m) -> Q tt s') ->
  wp (write_atp (last l1) (head m)) Q s.
Proof using Type.
  intros Hc Hnd Hm Hd HQ. destruct l1 as [|x l1 _] using rev_ind.
  - cbn [last write_atp]. apply wp_modify, HQ; [by split|done].
  - rewrite last_snoc. cbn [write_atp]. pose proof Hc as Hc'. rewrite <- app_assoc in Hc'. simpl in Hc'.
    pose proof (chain_app _ _ _ _ _ Hc') as Hx. destruct (tnx_some s x) as (t & E & E'); [by eexists|].
    eapply wp_upd_timer; [done|]. apply HQ; [by apply relinked_next|].
    cbn [timers with_tmem].
    replace (timers s) with (if bool_decide (l1 ++ [x] = []) then head m else timers s)
      by (rewrite bool_decide_eq_false_2; [done|by destruct l1]).
    eapply (chain_splice (tnx s)); [exact Hc|done| |].
    + intros u Hu. rewrite tnx_set, last_snoc. cbn [tmr_next set_tmr_next]. case_bool_decide as Exu.
      * subst u. by rewrite bool_decide_eq_true_2.
      * rewrite bool_decide_eq_false_2; [done|congruence].
    + eapply chain_ext; [|exact Hm]. intros u Hu. rewrite tnx_set, bool_decide_eq_false_2; [done|].
      intros ->. apply (Hd u Hu), elem_of_app. right. left.
Qed.

(** ** Removal and insertion *)

Lemma unlink_timer_ok s l1 l2 tp fuel (Q : unit -> tmstate F W -> Prop) :
  chain (tnx s) (timers s) (l1 ++ l2) -> NoDup (l1 ++ l2) -> tp ∉ l1 -> (length l2 < fuel)%nat ->
  (forall s', relinked s s' -> chain (tnx s') (timers s') (l1 ++ filter (fun x => x <> tp) l2) -> Q tt s') ->
  wp (unlink_timer fuel (last l1) tp) Q s.
Proof using Type.
  revert l1 fuel. induction l2 as [|y l2 IH]; intros l1 fuel Hc Hnd Htp Hf HQ;
    (destruct fuel as [|fuel]; [simpl in Hf; lia|]); cbn [unlink_timer]; apply wp_bind;
    (eapply read_atp_ok; [exact Hc|]); cbn [head].
  - apply wp_ret. apply HQ; [by apply relinked_refl|done].
  - destruct (Z.eqb_spec y tp) as [->|Hne].
    + pose proof (chain_app _ _ _ _ _ Hc) as Hx. destruct (tnx_some s tp) as (t & E & E'); [by eexists|].
      apply wp_bind. eapply wp_load_timer; [done|]. assert (tmr_next t = head l2) as -> by congruence.
      apply NoDup_app in Hnd as (Hn1 & Hd & Hn2). apply NoDup_cons in Hn2 as [Hni Hn2].
      eapply write_atp_ok; [exact Hc|done| | |].
      * apply (chain_suffix _ (timers s) (l1 ++ [tp])). by rewrite <- app_assoc.
      * intros x Hx2 Hx1. apply (Hd x Hx1). by right.
      * intros s' Hr Hc'. apply HQ; [done|]. rewrite filter_cons_False by (by intros []).
        rewrite list_filter_all; [done|]. apply Forall_forall. intros x Hx2 ->. done.
    + replace (Some y) with (last (l1 ++ [y])) by apply last_snoc. apply IH.
      * by rewrite <- app_assoc.
      * by rewrite <- app_assoc.
      * rewrite elem_of_app, list_elem_of_singleton. naive_solver.
      * simpl in Hf. lia.
      * intros s' Hr Hc'. apply HQ; [done|]. rewrite filter_cons_True by done. by rewrite <- app_assoc in Hc'.
Qed.

(** Where a timer that expires at [e] goes in a sorted list: behind all that
    expire no later. *)
Definition upto (ex : Z -> Z) (e : Z) (l : list Z) : list Z := filter (fun x => ex x <= e) l.
Definition after (ex : Z -> Z) (e : Z) (l : list Z) : list Z := filter (fun x => e < ex x) l.

Lemma upto_after ex e l : StronglySorted (fun x y => ex x <= ex y) l -> upto ex e l ++ after ex e l = l.
Proof using Type.
  unfold upto, after. induction l as [|x l IH]; [done|]. rewrite StronglySorted_cons. intros [Hx Hl].
  destruct (decide (ex x <= e)) as [Hle|Hgt].
  - rewrite filter_cons_True, filter_cons_False by lia. simpl. f_equal. by apply IH.
  - rewrite filter_cons_False, filter_cons_True by lia. rewrite list_filter_none, list_filter_all; [done| |];
      (eapply Forall_impl; [exact Hx|]); simpl; lia.
Qed.

Lemma insert_timer_ok s l1 l2 tp e fuel (Q : unit -> tmstate F W -> Prop) :
  chain (tnx s) (timers s) (l1 ++ l2) -> NoDup (l1 ++ l2) -> tp ∉ l1 ++ l2 -> is_Some (tmem s !! tp) ->
  StronglySorted (fun x y => texp s x <= texp s y) l2 -> (length l2 < fuel)%nat ->
  (forall s', relinked s s' -> chain (tnx s') (timers s') (l1 ++ upto (texp s) e l2 ++ tp :: after (texp s) e l2) ->
     Q tt s') ->
  wp (insert_timer fuel (last l1) e tp) Q s.
Proof using Type.
  revert l1 fuel. induction l2 as [|y l2 IH]; intros l1 fuel Hc Hnd Htp [t0 Ht0] Hs Hf HQ;
    (destruct fuel as [|fuel]; [simpl in Hf; lia|]); cbn [insert_timer]; apply wp_bind;
    (eapply read_atp_ok; [exact Hc|]); cbn [head].
  - apply wp_bind. eapply wp_upd_timer; [done|]. set (s1 := with_tmem _ s).
    assert (relinked s s1) as Hr1 by by apply relinked_next.
    change (Some tp) with (head [tp]). eapply write_atp_ok.
    + rewrite app_nil_r in *. eapply chain_ext; [|exact Hc]. intros x Hx. unfold s1. rewrite tnx_set, bool_decide_eq_false_2; [done|].
      by intros ->.
    + apply NoDup_app in Hnd. tauto.
    + split; [done|]. exists None. unfold s1. by rewrite tnx_set, bool_decide_eq_true_2.
    + intros x ->%list_elem_of_singleton Hx. apply Htp, elem_of_app. by left.
    + intros s' Hr Hc'. apply HQ; [by eapply relinked_trans|done].
  - pose proof (chain_app _ _ _ _ _ Hc) as Hy. destruct (tnx_some s y) as (t & E & E'); [by eexists|].
    apply wp_bind. eapply wp_load_timer; [done|].
    assert (tmr_exp_time t = texp s y) as -> by (unfold texp; by rewrite E).
    apply StronglySorted_cons in Hs as [Hall Hs]. destruct (Z.ltb_spec e (texp s y)) as [Hlt|Hge].
    + apply wp_bind. eapply wp_upd_timer; [done|]. set (s1 := with_tmem _ s).
      assert (relinked s s1) as Hr1 by by apply relinked_next.
      assert (forall x, x ∈ l1 ++ y :: l2 -> tnx s1 x = tnx s x) as Hsame.
      { intros x Hx. unfold s1. rewrite tnx_set, bool_decide_eq_false_2; [done|]. by intros ->. }
      change (Some tp) with (head (tp :: y :: l2)). eapply write_atp_ok.
      * eapply chain_ext; [exact Hsame|exact Hc].
      * apply NoDup_app in Hnd. tauto.
      * split; [done|]. exists (Some y). unfold s1 at 1. rewrite tnx_set, bool_decide_eq_true_2 by done. split; [done|].
        change (Some y) with (head (y :: l2)). eapply chain_ext; [|by eapply chain_suffix].
        intros x Hx. apply Hsame, elem_of_app. by right.
      * apply NoDup_app in Hnd as (_ & Hd & _). intros x [->|Hx]%elem_of_cons Hx1; [|by eapply Hd].
        apply Htp, elem_of_app. by left.
      * intros s' Hr Hc'. apply HQ; [by eapply relinked_trans|].
        assert (upto (texp s) e (y :: l2) = [] /\ after (texp s) e (y :: l2) = y :: l2) as [-> ->]; [|done].
        unfold upto, after. rewrite list_filter_none, list_filter_all; [done| |]; constructor; try lia;
          (eapply Forall_impl; [exact Hall|]); simpl; lia.
    + replace (Some y) with (last (l1 ++ [y])) by apply last_snoc. apply IH.
      * by rewrite <- app_assoc.
      * by rewrite <- app_assoc.
      * by rewrite <- app_assoc.
      * by eexists.
      * done.
      * simpl in Hf. lia.
      * intros s' Hr Hc'. apply HQ; [done|]. unfold upto, after in *.
        rewrite filter_cons_True, filter_cons_False by lia. by rewrite <- app_assoc in Hc'.
Qed.

(** ** The operations of the library *)

Lemma head_time_ok s l (Q : Z -> tmstate F W -> Prop) :
  chain (tnx s) (timers s) l -> Q (first_time s l) s -> wp head_time Q s.
Proof using Type.
  intros Hc HQ. unfold head_time. apply wp_bind, wp_gets. destruct l as [|x l].
  - simpl in Hc. rewrite Hc. by apply wp_ret.
  - destruct Hc as (-> & n & Hn & _). destruct (tnx_some s x) as (t & E & _); [by eexists|].
    apply wp_bind. eapply wp_load_timer; [done|]. apply wp_ret. simpl in HQ. unfold texp in HQ. by rewrite E in HQ.
Qed.

Lemma timer_fuel_ok s (Q : nat -> tmstate F W -> Prop) : Q (S (size (tmem s))) s -> wp timer_fuel Q s.
Proof using Type. intros HQ. unfold timer_fuel. by apply wp_bind, wp_gets, wp_ret. Qed.

(** All but [tp] keep their data. *)
Record others (tp : Z) s s' : Prop := {
  ot_data : forall x, x <> tp -> tdata <$> tmem s' !! x = tdata <$> tmem s !! x;
  ot_some : forall x, is_Some (tmem s !! x) -> is_Some (tmem s' !! x);
  ot_expiring : expiring s' = expiring s;
  ot_timeout : next_timeout s' = next_timeout s;
  ot_outer : outer s' = outer s;
}.

Lemma others_exp tp s s' x : others tp s s' -> x <> tp -> texp s' x = texp s x.
Proof using Type.
  intros Hr Hx. pose proof (ot_data _ _ _ Hr x Hx) as E. unfold texp.
  destruct (tmem s' !! x), (tmem s !! x); try done. injection E as E _ _. done.
Qed.

Lemma others_trans tp s1 s2 s3 : others tp s1 s2 -> others tp s2 s3 -> others tp s1 s3.
Proof using Type.
  intros [D1 S1 E1 T1 O1] [D2 S2 E2 T2 O2]. split; [intros x Hx; by rewrite D2, D1|auto|congruence..].
Qed.

Lemma others_relinked tp s s' : relinked s s' -> others tp s s'.
Proof using Type.
  intros Hr. pose proof Hr as [D E T O]. split; [auto| |done..]. intros x. by apply relinked_some.
Qed.

Lemma others_upd tp s t f : tmem s !! tp = Some t -> others tp s (with_tmem (<[tp := f t]> (tmem s)) s).
Proof using Type.
  intros E. split; [| |done..]; intros x.
  - intros Hx. simpl. by rewrite lookup_insert_ne.
  - intros Hx. simpl. destruct (decide (tp = x)) as [->|]; [rewrite lookup_insert_eq; by eexists|].
    by rewrite lookup_insert_ne.
Qed.

Lemma sorted_ext (f g : Z -> Z) (l : list Z) : (forall x, x ∈ l -> g x = f x) ->
  StronglySorted (fun x y => f x <= f y) l -> StronglySorted (fun x y => g x <= g y) l.
Proof using Type.
  intros He. induction l as [|x l IH]; [constructor|]. rewrite !StronglySorted_cons. intros [Hx Hl]. split.
  - apply Forall_forall. intros y Hy. rewrite Forall_forall in Hx. rewrite !He by first [by left|by right]. by apply Hx.
  - apply IH; [|done]. intros y Hy. apply He. by right.
Qed.

Lemma first_time_ext s s' l : (forall x, x ∈ l -> texp s' x = texp s x) -> first_time s' l = first_time s l.
Proof using Type. destruct l as [|x l]; [done|]. intros He. apply He. left. Qed.

(** The queue without [tp]. *)
Definition without (tp : Z) (l : list Z) : list Z := filter (fun x => x <> tp) l.

Lemma without_elem tp l x : x ∈ without tp l <-> x <> tp /\ x ∈ l.
Proof using Type. unfold without. by rewrite list_elem_of_filter. Qed.

Lemma without_sorted s l tp : tqueue s l -> StronglySorted (fun x y => texp s x <= texp s y) (without tp l).
Proof using Type.
  intros [_ _ Hs]. induction l as [|x l IH]; [constructor|]. apply StronglySorted_cons in Hs as [Hx Hl].
  unfold without. rewrite filter_cons. destruct (decide (x <> tp)); [|by apply IH].
  apply StronglySorted_cons. split; [|by apply IH]. apply Forall_forall. intros y [_ Hy]%list_elem_of_filter.
  rewrite Forall_forall in Hx. by apply Hx.
Qed.

Lemma tmrs_clrtimer_ok s l tp t (Q : Z * Z -> tmstate F W -> Prop) :
  tqueue s l -> tmem s !! tp = Some t ->
  (forall s' t', others tp s s' -> tqueue s' (without tp l) -> tmem s' !! tp = Some t' ->
     tdata t' = (TMR_NEVER, tmr_func t, tmr_arg t) ->
     Q (first_time s l, first_time s (without tp l)) s') ->
  wp (tmrs_clrtimer tp) Q s.
Proof using Type.
  intros Hq Ht HQ. pose proof Hq as [Hc Hnd Hs]. unfold tmrs_clrtimer. apply wp_bind, (head_time_ok s l); [done|].
  apply wp_bind. eapply wp_upd_timer; [done|]. set (s1 := with_tmem _ s).
  assert (chain (tnx s1) (timers s1) l) as Hc1.
  { eapply chain_ext; [|exact Hc]. intros x _. unfold s1. rewrite tnx_set. case_bool_decide; [|done]. subst x.
    unfold tnx. by rewrite Ht. }
  apply wp_bind, timer_fuel_ok. apply wp_bind. pose proof (queue_size s1 l Hc1 Hnd) as Hsz.
  apply (unlink_timer_ok s1 [] l); [done|done|by apply not_elem_of_nil|lia|].
  intros s' Hr Hc'. simpl in Hc'. apply wp_bind. eapply head_time_ok; [exact Hc'|]. apply wp_ret.
  pose proof (others_trans tp s s1 s' (others_upd _ _ _ _ Ht) (others_relinked _ _ _ Hr)) as Ho.
  assert (forall x, x ∈ without tp l -> texp s' x = texp s x) as He.
  { intros x [Hx _]%without_elem. by eapply others_exp. }
  change (filter _ l) with (without tp l) in *. rewrite (first_time_ext s s') by done.
  pose proof (rl_data _ _ Hr tp) as E. unfold s1 in E. simpl in E. rewrite lookup_insert_eq in E.
  destruct (tmem s' !! tp) as [t'|] eqn:Ht'; [|done]. injection E as E1 E2 E3.
  apply (HQ s' t'); [done| |done|unfold tdata; by rewrite E1, E2, E3].
  split; [done|by apply NoDup_filter|]. eapply sorted_ext; [exact He|]. by apply without_sorted.
Qed.

(** The queue with [tp], that expires at [e], at its place. *)
Definition place (ex : Z -> Z) (e tp : Z) (l : list Z) : list Z :=
  upto ex e (without tp l) ++ tp :: after ex e (without tp l).

Lemma place_sorted (ex : Z -> Z) e tp l : StronglySorted (fun x y => ex x <= ex y) (without tp l) -> NoDup l ->
  NoDup (place ex e tp l) /\
  forall f, f tp = e -> (forall x, x <> tp -> f x = ex x) -> StronglySorted (fun x y => f x <= f y) (place ex e tp l).
Proof using Type.
  intros Hs Hnd. set (l0 := without tp l) in *. unfold place. fold l0.
  assert (forall x, x ∈ l0 -> x <> tp) as Hne by (intros x [? _]%without_elem; done).
  pose proof (upto_after ex e l0 Hs) as E. split.
  - rewrite <- Permutation_middle, E. constructor; [|by apply NoDup_filter]. intros Hin. by apply (Hne tp).
  - intros f Hf Hx. rewrite <- E in Hs. rewrite !StronglySorted_app in Hs. destruct Hs as (H12 & H1 & H2).
    rewrite StronglySorted_app, StronglySorted_cons.
    assert (forall x, x ∈ upto ex e l0 -> x ∈ l0 /\ ex x <= e) as Hu by (intros x [? ?]%list_elem_of_filter; done).
    assert (forall x, x ∈ after ex e l0 -> x ∈ l0 /\ e < ex x) as Ha by (intros x [? ?]%list_elem_of_filter; done).
    split_and!.
    + intros x y Hx1 [->|Hy]%elem_of_cons; destruct (Hu x Hx1) as [Hx2 ?].
      * rewrite Hf, Hx by auto. done.
      * destruct (Ha y Hy) as [? ?]. rewrite !Hx by auto. by apply H12.
    + eapply sorted_ext; [|exact H1]. intros x Hx1. apply Hx. apply Hne, Hu, Hx1.
    + apply Forall_forall. intros y Hy. destruct (Ha y Hy) as [? ?]. rewrite Hf, Hx by auto. lia.
    + eapply sorted_ext; [|exact H2]. intros x Hx1. apply Hx. apply Hne, Ha, Hx1.
Qed.

Lemma tmrs_settimer_ok s l tp t e f (Q : Z * Z -> tmstate F W -> Prop) :
  tqueue s l -> tmem s !! tp = Some t ->
  (forall s' t', others tp s s' -> tqueue s' (place (texp s) e tp l) -> tmem s' !! tp = Some t' ->
     tdata t' = (e, f, tmr_arg t) ->
     Q (first_time s l, first_time s' (place (texp s) e tp l)) s') ->
  wp (tmrs_settimer tp e f) Q s.
Proof using Type.
  intros Hq Ht HQ. unfold tmrs_settimer. apply wp_bind, (head_time_ok s l); [apply Hq|].
  apply wp_bind. eapply tmrs_clrtimer_ok; [done..|]. intros s1 t1 Ho1 Hq1 Ht1 Hd1.
  apply wp_bind. eapply wp_upd_timer; [done|]. set (s2 := with_tmem _ s1).
  assert (tmem s2 !! tp = Some (set_tmr_exp_time e t1)) as Ht2 by apply lookup_insert_eq.
  apply wp_bind. eapply wp_upd_timer; [done|]. set (s3 := with_tmem _ s2).
  assert (tmem s3 !! tp = Some (set_tmr_func f (set_tmr_exp_time e t1))) as Ht3 by apply lookup_insert_eq.
  assert (others tp s s3) as Ho3.
  { eapply others_trans; [exact Ho1|]. eapply others_trans; by apply others_upd. }
  assert (forall x, tnx s3 x = tnx s1 x) as Hnx.
  { intros x. unfold s3, s2. rewrite !tnx_set. case_bool_decide; [|done]. subst x. unfold tnx. by rewrite Ht1. }
  assert (chain (tnx s3) (timers s3) (without tp l)) as Hc3.
  { eapply chain_ext; [|exact (tq_chain _ _ Hq1)]. auto. }
  assert (forall x, x ∈ without tp l -> texp s3 x = texp s x) as He3.
  { intros x [Hx _]%without_elem. by eapply others_exp. }
  pose proof (without_sorted s l tp Hq) as Hs0.
  apply wp_bind, timer_fuel_ok. apply wp_bind.
  pose proof (queue_size s3 _ Hc3 (tq_nodup _ _ Hq1)) as Hsz.
  apply (insert_timer_ok s3 [] (without tp l)); [done|apply Hq1| |by eexists| |lia|].
  { simpl. rewrite without_elem. tauto. }
  { eapply sorted_ext; [|exact Hs0]. done. }
  intros s' Hr Hc'. simpl in Hc'.
  assert (upto (texp s3) e (without tp l) ++ tp :: after (texp s3) e (without tp l) = place (texp s) e tp l) as Ep.
  { unfold place, upto, after. f_equal; [|f_equal]; apply list_filter_iff'; intros x Hx; by rewrite He3. }
  rewrite Ep in Hc'. apply wp_bind. eapply head_time_ok; [exact Hc'|]. apply wp_ret.
  pose proof (rl_data _ _ Hr tp) as E. rewrite Ht3 in E.
  destruct (tmem s' !! tp) as [t'|] eqn:Ht'; [|done]. injection E as E1 E2 E3. injection Hd1 as D1 D2 D3.
  assert (others tp s s') as Ho by by eapply others_trans, others_relinked.
  apply (HQ s' t'); [done| |done|unfold tdata; rewrite E1, E2, E3; simpl; by rewrite D3].
  destruct (place_sorted (texp s) e tp l Hs0 (tq_nodup _ _ Hq)) as [Hn Hso]. split; [done|done|].
  apply Hso; [unfold texp; by rewrite Ht', E1|]. intros x Hx. by eapply others_exp.
Qed.

(** ** Expiry *)

Section expiry.
Context (run_watchdog : F -> Z -> M (tmstate F W) unit).

(** The timer at the head of the queue is taken off and deactivated. *)
Definition popped s (tp : Z) (t : minix_timer_t F) : tmstate F W :=
  with_tmem (<[tp := set_tmr_exp_time TMR_NEVER t]> (tmem s)) (with_timers (tmr_next t) s).

(** [expired now ds s s']: from [s] to [s'] the watchdogs of the timers [ds] were
    run, each one at the head of the queue and due when its turn came. *)
Inductive expired (now : Z) : list Z -> tmstate F W -> tmstate F W -> Prop :=
| expired_nil s : expired now [] s s
| expired_cons tp t ds s s1 s' :
    timers s = Some tp -> tmem s !! tp = Some t -> tmr_exp_time t <= now ->
    run_watchdog (tmr_func t) tp (popped s tp t) = Ok (tt, s1) -> expired now ds s1 s' ->
    expired now (tp :: ds) s s'.

(** No timer expires at time 0, which stands for no timer. *)
Definition positive s (l : list Z) : Prop := forall x, x ∈ l -> 0 < texp s x.

(** Watchdogs that keep the queue, and neither set nor cancel timers that are
    due; [I] is what they need of the rest of the state. *)
Record well_behaved (now : Z) (I : tmstate F W -> Prop) : Prop := {
  wb_run : forall f tp s l, I s -> tqueue s l -> is_Some (tmem s !! tp) -> tp ∉ l ->
    wp (run_watchdog f tp) (fun _ s' => I s' /\ exists l', tqueue s' l' /\
      upto (texp s') now l' = upto (texp s) now l /\ (positive s l -> positive s' l')) s;
  wb_stable : forall s s', (forall x, is_Some (tmem s !! x) -> is_Some (tmem s' !! x)) ->
    outer s' = outer s -> expiring s' = expiring s -> I s -> I s';
}.

Lemma popped_queue s tp l t : tqueue s (tp :: l) -> tmem s !! tp = Some t ->
  tqueue (popped s tp t) l /\ (forall x, x ∈ l -> texp (popped s tp t) x = texp s x) /\ tp ∉ l.
Proof using Type.
  intros [Hc Hnd Hs] Ht. apply NoDup_cons in Hnd as [Hni Hnd]. apply StronglySorted_cons in Hs as [_ Hs].
  assert (forall x, x ∈ l -> texp (popped s tp t) x = texp s x) as He.
  { intros x Hx. unfold texp. simpl. rewrite lookup_insert_ne; [done|]. by intros ->. }
  split; [|done]. split; [|done|by eapply sorted_ext].
  destruct Hc as (_ & n & Hn & Hc). unfold tnx in Hn. rewrite Ht in Hn. injection Hn as Hn. unfold popped.
  simpl. rewrite Hn. eapply chain_ext; [|exact Hc]. intros x Hx. unfold tnx. simpl.
  rewrite lookup_insert_ne; [done|]. by intros ->.
Qed.

Lemma upto_nil (ex : Z -> Z) now x l : now < ex x -> StronglySorted (fun x y => ex x <= ex y) (x :: l) -> upto ex now (x :: l) = [].
Proof using Type.
  rewrite StronglySorted_cons. intros Hx [Hl _]. apply list_filter_none. constructor; [lia|].
  eapply Forall_impl; [exact Hl|]. simpl. lia.
Qed.

Lemma tmrs_exptimers_ok now I fuel s l (Q : Z -> tmstate F W -> Prop) :
  well_behaved now I -> I s -> tqueue s l -> (length (upto (texp s) now l) < fuel)%nat ->
  (forall s' l', I s' -> tqueue s' l' -> expired now (upto (texp s) now l) s s' -> upto (texp s') now l' = [] ->
     (positive s l -> positive s' l') -> Q (first_time s' l') s') ->
  wp (tmrs_exptimers run_watchdog fuel now) Q s.
Proof using Type.
  intros Hwb. revert s l Q. induction fuel as [|fuel IH]; intros s l Q HI Hq Hf HQ; [lia|].
  cbn [tmrs_exptimers]. apply wp_bind, wp_gets. destruct l as [|tp l].
  - assert (timers s = None) as -> by exact (tq_chain _ _ Hq).
    eapply head_time_ok; [apply Hq|]. apply HQ; [done..|constructor|done|done].
  - pose proof (tq_chain _ _ Hq) as (Eh & n & Hn & _). rewrite Eh.
    destruct (tnx_some s tp) as (t & Ht & _); [by eexists|].
    assert (texp s tp = tmr_exp_time t) as Et by (unfold texp; by rewrite Ht).
    apply wp_bind. eapply wp_load_timer; [done|]. destruct (Z.leb_spec (tmr_exp_time t) now) as [Hle|Hgt].
    + destruct (popped_queue s tp l t Hq Ht) as (Hq1 & He1 & Hni).
      assert (upto (texp s) now (tp :: l) = tp :: upto (texp s) now l) as Eu.
      { unfold upto. by rewrite filter_cons_True by lia. }
      assert (upto (texp (popped s tp t)) now l = upto (texp s) now l) as Eu1.
      { apply list_filter_iff'. intros x Hx. by rewrite He1. }
      rewrite Eu in Hf, HQ. simpl in Hf.
      apply wp_bind, wp_modify. apply wp_bind. eapply wp_upd_timer; [done|].
      change (with_tmem _ _) with (popped s tp t). apply wp_bind.
      assert (forall x, is_Some (tmem s !! x) -> is_Some (tmem (popped s tp t) !! x)) as Hsome.
      { intros x Hx. simpl. destruct (decide (tp = x)) as [->|]; [rewrite lookup_insert_eq; by eexists|by rewrite lookup_insert_ne]. }
      assert (I (popped s tp t)) as HI1 by by apply (wb_stable _ _ Hwb s).
      destruct (wp_elim _ _ _ (wb_run _ _ Hwb (tmr_func t) tp (popped s tp t) l HI1 Hq1 ltac:(by apply Hsome; eexists) Hni))
        as ([] & s1 & Erun & HI2 & l2 & Hq2 & Eu2 & Hpos2).
      eapply wp_intro; [exact Erun|]. apply (IH s1 l2); [done|done|rewrite Eu2, Eu1; lia|].
      rewrite Eu2, Eu1. intros s' l' HI' Hq' Hex Hnil Hpos'. apply HQ; [done..| |done|]; [by econstructor|].
      intros Hp. apply Hpos', Hpos2. intros x Hx. rewrite He1 by done. apply Hp. by right.
    + assert (upto (texp s) now (tp :: l) = []) as Eu by (apply upto_nil; [lia|apply Hq]).
      eapply head_time_ok; [apply Hq|]. rewrite Eu in HQ. apply HQ; [done..|constructor|done|done].
Qed.
End expiry.

(** ** The alarm of a service *)

Section alarm.
Context (getticks : M W (ecode * Z)) (sys_setalarm : Z -> Z -> M W ecode) (alarm : W -> Z).
Context (setalarm_ok : forall t w, wp (sys_setalarm t 1) (fun r w' => r = OK /\ alarm w' = t) w).

(** The queue of a service: when there is a timer, the alarm is set for no later
    than the first. *)
Record service s (l : list Z) : Prop := {
  sv_queue : tqueue s l;
  sv_positive : positive s l;
  sv_alarm : l <> [] -> 0 < alarm (outer s) <= first_time s l;
}.

Lemma tqueue_outer s l w : tqueue s l -> tqueue (with_outer w s) l.
Proof using Type. by intros []. Qed.

Lemma reschedule_alarm_ok s t (Q : unit -> tmstate F W -> Prop) :
  (forall w, alarm w = t -> Q tt (with_outer w s)) -> wp (reschedule_alarm sys_setalarm t) Q s.
Proof using setalarm_ok.
  intros HQ. unfold reschedule_alarm, call_outer. apply wp_bind, wp_bind, wp_gets.
  destruct (wp_elim _ _ _ (setalarm_ok t (outer s))) as (r & w & -> & -> & Hw).
  apply wp_bind, wp_modify, wp_ret. apply wp_when; [done|]. intros _. by apply HQ.
Qed.

Lemma first_time_pos s l : (forall x, x ∈ l -> 0 < texp s x) -> l <> [] -> 0 < first_time s l.
Proof using Type. destruct l as [|x l]; [done|]. intros Hp _. apply Hp. left. Qed.

Lemma sorted_first s x l : tqueue s l -> x ∈ l -> first_time s l <= texp s x.
Proof using Type.
  destruct l as [|y l]; [by intros _ ?%elem_of_nil|]. intros [_ _ Hs] Hx. apply StronglySorted_cons in Hs as [Hy _].
  rewrite Forall_forall in Hy. apply elem_of_cons in Hx as [->|Hx]; [simpl; lia|]. by apply Hy.
Qed.

Lemma set_timer_ok s l tp t ticks f arg now w :
  service s l -> expiring s = 0 -> tmem s !! tp = Some t ->
  getticks (outer s) = Ok ((OK, now), w) -> alarm w = alarm (outer s) -> 0 < u32 (now + ticks) ->
  wp (set_timer getticks sys_setalarm tp ticks f arg) (fun _ s' => exists t',
    service s' (place (texp s) (u32 (now + ticks)) tp l) /\ tmem s' !! tp = Some t' /\
    tdata t' = (u32 (now + ticks), f, arg) /\
    (forall x, x <> tp -> tdata <$> tmem s' !! x = tdata <$> tmem s !! x)) s.
Proof using setalarm_ok.
  intros [Hq Hpos Hal] Hexp Ht Eg Hw Hg. unfold set_timer. apply wp_bind. unfold call_outer at 1. apply wp_bind, wp_gets.
  rewrite Eg. apply wp_bind, wp_modify, wp_ret. apply wp_bind, wp_when; [done|]. intros _.
  set (s0 := with_outer w s). apply wp_bind. eapply wp_upd_timer; [exact Ht|]. set (s1 := with_tmem _ s0).
  assert (others tp s0 s1) as Ho1 by by apply others_upd.
  assert (tmem s1 !! tp = Some (set_tmr_arg arg t)) as Ht1 by apply lookup_insert_eq.
  assert (forall x, texp s1 x = texp s x) as He1.
  { intros x. unfold texp, s1. simpl. destruct (decide (tp = x)) as [->|]; [by rewrite lookup_insert_eq, Ht|by rewrite lookup_insert_ne]. }
  assert (tqueue s1 l) as Hq1.
  { destruct Hq as [Hc Hnd Hs]. split; [|done|apply (sorted_ext (texp s)); [auto|exact Hs]].
    eapply chain_ext; [|exact Hc]. intros x _. unfold s1. rewrite tnx_set. case_bool_decide; [|done]. subst x.
    unfold tnx. by rewrite Ht. }
  apply wp_bind. eapply tmrs_settimer_ok; [done..|]. intros s' t' Ho Hq' Ht' Hd'.
  assert (place (texp s1) (u32 (now + ticks)) tp l = place (texp s) (u32 (now + ticks)) tp l) as Ep.
  { unfold place, upto, after. f_equal; [|f_equal]; apply list_filter_iff'; intros x _; by rewrite He1. }
  rewrite Ep in *. set (e := u32 (now + ticks)) in *. set (l' := place (texp s) e tp l) in *.
  assert (others tp s0 s') as Ho' by by eapply others_trans.
  assert (texp s' tp = e) as Etp by (unfold texp; rewrite Ht'; injection Hd' as E _ _; done).
  assert (forall x, x ∈ l' -> x = tp \/ x <> tp /\ x ∈ l) as Hl'.
  { intros x. unfold l', place. rewrite elem_of_app, elem_of_cons. unfold upto, after.
    rewrite !list_elem_of_filter, without_elem. tauto. }
  assert (forall x, x <> tp -> texp s' x = texp s x) as Hx' by (intros x Hx; by eapply (others_exp tp s0)).
  assert (forall x, x ∈ l' -> 0 < texp s' x) as Hpos'.
  { intros x [->|[Hx Hin]]%Hl'; [lia|]. rewrite Hx' by done. by apply Hpos. }
  assert (l' <> []) as Hne by (unfold l', place; by destruct (upto _ _ _)).
  assert (forall w', (l' <> [] -> 0 < alarm w' <= first_time s' l') -> exists t',
    service (with_outer w' s') l' /\ tmem s' !! tp = Some t' /\ tdata t' = (e, f, arg) /\
    (forall x, x <> tp -> tdata <$> tmem s' !! x = tdata <$> tmem s !! x)) as Hdone.
  { intros w' Hw'. exists t'. split; [by split; [apply tqueue_outer| |]|]. split; [done|]. split; [done|].
    intros x Hx. by rewrite (ot_data _ _ _ Ho' x Hx). }
  apply wp_bind, wp_gets. rewrite (ot_expiring _ _ _ Ho'). change (expiring s0) with (expiring s). rewrite Hexp.
  assert (first_time s1 l = first_time s l) as Ef by (apply first_time_ext; auto). rewrite Ef.
  apply wp_when.
  - intros _. apply reschedule_alarm_ok. intros w' Hw'. apply Hdone. intros _. rewrite Hw'.
    split; [by apply first_time_pos|done].
  - cbn [andb Z.eqb]. rewrite orb_false_iff, Z.eqb_neq, Z.ltb_ge. intros [Hold Hnew].
    assert (outer s' = w) as Eo by by rewrite (ot_outer _ _ _ Ho').
    destruct (Hdone w) as (t1 & Hsv & Hrest).
    + intros _. assert (l <> []) as Hln by by intros ->. specialize (Hal Hln). rewrite Hw. lia.
    + exists t1. split; [|done]. rewrite <- Eo in Hsv. destruct s'; exact Hsv.
Qed.

Lemma cancel_timer_ok s l tp t :
  service s l -> expiring s = 0 -> tmem s !! tp = Some t ->
  wp (cancel_timer sys_setalarm tp) (fun _ s' => service s' (without tp l) /\
    (forall x, x <> tp -> tdata <$> tmem s' !! x = tdata <$> tmem s !! x)) s.
Proof using setalarm_ok.
  intros [Hq Hpos Hal] Hexp Ht. unfold cancel_timer. apply wp_bind. eapply tmrs_clrtimer_ok; [done..|].
  intros s' t' Ho Hq' Ht' Hd'. set (l' := without tp l) in *.
  assert (forall x, x ∈ l' -> texp s' x = texp s x /\ x ∈ l) as Hl'.
  { intros x [Hx Hin]%without_elem. split; [by eapply others_exp|done]. }
  assert (first_time s' l' = first_time s l') as Ef by (apply first_time_ext; intros; by apply Hl').
  assert (forall x, x ∈ l' -> 0 < texp s' x) as Hpos'.
  { intros x Hx. destruct (Hl' x Hx) as [-> Hin]. by apply Hpos. }
  pose proof (ot_data _ _ _ Ho) as Hdata.
  apply wp_bind, wp_gets. rewrite (ot_expiring _ _ _ Ho), Hexp. apply wp_when.
  - intros _. apply reschedule_alarm_ok. intros w Hw. split; [|done]. split; [by apply tqueue_outer|done|].
    intros Hne. simpl. rewrite Hw. change (first_time (with_outer w s') l') with (first_time s' l').
    split; [rewrite <- Ef; by apply first_time_pos|lia].
  - cbn [andb Z.eqb]. rewrite orb_false_iff, Z.eqb_neq, Z.ltb_ge. intros [Hle Hnz]. split; [|done].
    split; [done..|]. intros Hne. rewrite (ot_outer _ _ _ Ho), Ef.
    assert (l <> []) as Hln by (intros ->; done). specialize (Hal Hln). split; [lia|].
    destruct l' as [|x l1] eqn:El'; [done|]. destruct (Hl' x ltac:(left)) as [_ Hin].
    pose proof (sorted_first s x l Hq Hin). simpl. lia.
Qed.

Lemma expire_timers_ok (run_watchdog : F -> Z -> M (tmstate F W) unit) now I fuel s l :
  well_behaved run_watchdog now I -> I (with_expiring 1 s) -> tqueue s l -> positive s l ->
  (length (upto (texp s) now l) < fuel)%nat ->
  wp (expire_timers run_watchdog sys_setalarm fuel now) (fun _ s' => exists s1 l',
    expired run_watchdog now (upto (texp s) now l) (with_expiring 1 s) s1 /\ I s1 /\
    tmem s' = tmem s1 /\ upto (texp s') now l' = [] /\ service s' l' /\ expiring s' = 0) s.
Proof using setalarm_ok.
  intros Hwb HI Hq Hpos Hf. unfold expire_timers. apply wp_bind, wp_modify. apply wp_bind.
  eapply (tmrs_exptimers_ok _ now I fuel (with_expiring 1 s) l); [done|done|by destruct Hq|done|].
  intros s1 l' HI1 Hq1 Hex Hnil Hpos1. specialize (Hpos1 Hpos). apply wp_bind, wp_modify. apply wp_when.
  - intros _. apply reschedule_alarm_ok. intros w Hw. exists s1, l'. split_and!; [done..| |done].
    split; [by destruct Hq1|done|]. intros Hne. simpl. rewrite Hw.
    change (first_time (with_outer w _) l') with (first_time s1 l'). split; [by apply first_time_pos|done].
  - intros Hle%Z.ltb_ge. exists s1, l'. split_and!; [done..| |done]. split; [by destruct Hq1|done|].
    intros Hne. pose proof (first_time_pos s1 l' Hpos1 Hne). lia.
Qed.
End alarm.

(** ** The clock of the kernel *)

(** The next timeout is the time of the first timer. *)
Record kclock s (l : list Z) : Prop := {
  kc_queue : tqueue s l;
  kc_timeout : next_timeout s = match l with [] => TMR_NEVER | _ => first_time s l end;
}.

Lemma tqueue_timeout s l v : tqueue s l -> tqueue (with_next_timeout v s) l.
Proof using Type. by intros []. Qed.

Lemma update_timeout_ok s l (Q : unit -> tmstate F W -> Prop) : tqueue s l ->
  (forall v, kclock (with_next_timeout v s) l -> Q tt (with_next_timeout v s)) -> wp update_timeout Q s.
Proof using Type.
  intros Hq HQ. unfold update_timeout. apply wp_bind, wp_gets. apply wp_bind.
  pose proof (tq_chain _ _ Hq) as Hc. destruct l as [|x l].
  - simpl in Hc. rewrite Hc. apply wp_ret, wp_modify, HQ. by split; [apply tqueue_timeout|].
  - destruct Hc as (-> & n & Hn & _). destruct (tnx_some s x) as (t & E & _); [by eexists|].
    apply wp_bind. eapply wp_load_timer; [done|]. apply wp_ret, wp_modify, HQ. split; [by apply tqueue_timeout|].
    simpl. unfold texp. simpl. by rewrite E.
Qed.

Lemma set_kernel_timer_ok s l tp t e f :
  kclock s l -> tmem s !! tp = Some t ->
  wp (set_kernel_timer tp e f) (fun _ s' => kclock s' (place (texp s) e tp l) /\
    exists t', tmem s' !! tp = Some t' /\ tdata t' = (e, f, tmr_arg t)) s.
Proof using Type.
  intros [Hq _] Ht. unfold set_kernel_timer. apply wp_bind. eapply tmrs_settimer_ok; [done..|].
  intros s' t' Ho Hq' Ht' Hd'. pose proof (tq_chain _ _ Hq') as Hc.
  destruct (place (texp s) e tp l) as [|x l'] eqn:El; [unfold place in El; by destruct (upto _ _ _)|].
  destruct Hc as (Eh & n & Hn & _). destruct (tnx_some s' x) as (tx & E & _); [by eexists|].
  apply wp_bind, wp_gets. rewrite Eh. apply wp_bind. eapply wp_deref; [done|]. apply wp_bind.
  eapply wp_load_timer; [done|]. apply wp_modify. split; [|by exists t'].
  split; [by apply tqueue_timeout|]. simpl. unfold texp. simpl. by rewrite E.
Qed.

Lemma reset_kernel_timer_ok s l tp t :
  kclock s l -> tmem s !! tp = Some t ->
  wp (reset_kernel_timer tp) (fun _ s' => kclock s' (without tp l)) s.
Proof using Type.
  intros [Hq _] Ht. unfold reset_kernel_timer. apply wp_bind. eapply tmrs_clrtimer_ok; [done..|].
  intros s' t' Ho Hq' _ _. eapply update_timeout_ok; [done|]. done.
Qed.

(** Every tick runs the timers that are due, and no others. *)
Lemma clock_tick_ok (run_watchdog : F -> Z -> M (tmstate F W) unit) now I fuel s l :
  well_behaved run_watchdog now I -> I s -> kclock s l -> now < TMR_NEVER ->
  (length (upto (texp s) now l) < fuel)%nat ->
  wp (clock_tick run_watchdog fuel now) (fun _ s' => exists s1 l',
    expired run_watchdog now (upto (texp s) now l) s s1 /\ tmem s' = tmem s1 /\
    upto (texp s') now l' = [] /\ kclock s' l') s.
Proof using Type.
  intros Hwb HI Hk Hnow Hf. pose proof Hk as [Hq Hnt]. unfold clock_tick. apply wp_bind, wp_gets. apply wp_when.
  - intros _. apply wp_bind. eapply (tmrs_exptimers_ok _ now I); [done..|]. intros s1 l' HI1 Hq1 Hex Hnil _.
    eapply update_timeout_ok; [done|]. intros v Hv. by exists s1, l'.
  - intros Hle%Z.leb_gt. assert (upto (texp s) now l = []) as Hnil.
    { rewrite Hnt in Hle. destruct l as [|x l]; [done|]. apply upto_nil; [done|apply Hq]. }
    exists s, l. rewrite Hnil. split_and!; [constructor|done..].
Qed.

(** ** Watchdogs that set their timer again *)

Lemma place_upto (ex f : Z -> Z) now e tp l : now < e -> tp ∉ l -> StronglySorted (fun x y => ex x <= ex y) l ->
  f tp = e -> (forall x, x <> tp -> f x = ex x) -> upto f now (place ex e tp l) = upto ex now l.
Proof using Type.
  intros Hlt Hni Hs Hf He.
  assert (without tp l = l) as E0 by (apply list_filter_all, Forall_forall; intros x Hx ->; done).
  assert (forall m, (forall x, x ∈ m -> x ∈ l) -> upto f now m = upto ex now m) as Hsame.
  { intros m Hm. apply list_filter_iff'. intros x Hx. rewrite He; [done|]. intros ->. by apply Hni, Hm. }
  unfold place. rewrite E0. unfold upto at 1. rewrite filter_app, filter_cons_False by lia.
  fold (upto f now (upto ex e l)). fold (upto f now (after ex e l)).
  rewrite !Hsame by (intros x [_ ?]%list_elem_of_filter; done).
  unfold upto at 1 3. rewrite <- filter_app. fold (upto ex now (upto ex e l ++ after ex e l)).
  by rewrite upto_after.
Qed.

(** [set_timer], called by a watchdog, for a later time. *)
Lemma set_timer_expiring getticks sys_setalarm now w s l tp f ticks arg (I : tmstate F W -> Prop) :
  tqueue s l -> is_Some (tmem s !! tp) -> tp ∉ l -> expiring s = 1 ->
  getticks (outer s) = Ok ((OK, now), w) -> 0 <= now < u32 (now + ticks) ->
  (forall s', (forall x, is_Some (tmem s !! x) -> is_Some (tmem s' !! x)) ->
     outer s' = w -> expiring s' = 1 -> I s') ->
  wp (set_timer getticks sys_setalarm tp ticks f arg) (fun _ s' => I s' /\ exists l', tqueue s' l' /\
    upto (texp s') now l' = upto (texp s) now l /\ (positive s l -> positive s' l')) s.
Proof using Type.
  intros Hq [t Ht] Hni Hexp Eg Hlt HI. unfold set_timer. apply wp_bind. unfold call_outer. apply wp_bind, wp_gets.
  rewrite Eg. apply wp_bind, wp_modify, wp_ret. apply wp_bind, wp_when; [done|]. intros _.
  set (s0 := with_outer w s). apply wp_bind. eapply wp_upd_timer; [exact Ht|]. set (s1 := with_tmem _ s0).
  assert (others tp s0 s1) as Ho1 by by apply others_upd.
  assert (tmem s1 !! tp = Some (set_tmr_arg arg t)) as Ht1 by apply lookup_insert_eq.
  assert (forall x, x <> tp -> texp s1 x = texp s x) as He1 by (intros x Hx; by apply (others_exp tp s0)).
  assert (tqueue s1 l) as Hq1.
  { destruct Hq as [Hc Hnd Hs]. split; [|done|].
    - eapply chain_ext; [|exact Hc]. intros x _. unfold s1. rewrite tnx_set. case_bool_decide; [|done]. subst x.
      unfold tnx. by rewrite Ht.
    - apply (sorted_ext (texp s)); [|exact Hs]. intros x Hx. apply He1. by intros ->. }
  apply wp_bind. eapply tmrs_settimer_ok; [done..|]. intros s' t' Ho Hq' Ht' Hd'. set (e := u32 (now + ticks)) in *.
  assert (others tp s0 s') as Ho' by by eapply others_trans.
  assert (texp s' tp = e) as Etp by (unfold texp; rewrite Ht'; injection Hd' as E _ _; done).
  assert (forall x, x <> tp -> texp s' x = texp s1 x) as Hx' by (intros x Hx; by eapply others_exp).
  apply wp_bind, wp_gets. rewrite (ot_expiring _ _ _ Ho'). change (expiring s0) with (expiring s). rewrite Hexp.
  apply wp_ret. split; [|exists (place (texp s1) e tp l); split_and!].
  - apply HI; [by apply (ot_some _ _ _ Ho')|by apply (ot_outer _ _ _ Ho')|].
    rewrite (ot_expiring _ _ _ Ho'). exact Hexp.
  - done.
  - rewrite (place_upto (texp s1)); [|lia|done|apply Hq1|done|done].
    apply list_filter_iff'. intros x Hx. rewrite He1; [done|]. by intros ->.
  - intros Hpos x Hx. destruct (decide (x = tp)) as [->|Hne]; [lia|]. rewrite Hx', He1 by done. apply Hpos.
    revert Hx. unfold place. rewrite elem_of_app, elem_of_cons. unfold upto, after.
    rewrite !list_elem_of_filter, without_elem. tauto.
Qed.
End props.

(** ** Properties *)

(** C32 The timers of a service ([lib/libsys/timers.c]). The queue stays sorted
    and the alarm never rings after the first timer: setting a timer puts it
    behind those that expire no later, cancelling removes it, and both keep the
    data of the other timers. When the alarm rings, the watchdogs of exactly the
    timers that are due run, each once and in the order of their times, although
    they may set timers again; the loop ends, with no timer due and the alarm set
    for the first one left. *)
Theorem timer_service {F W} getticks sys_setalarm (alarm : W -> Z) (s : tmstate F W) l :
  (forall t w, wp (sys_setalarm t 1) (fun r w' => r = OK /\ alarm w' = t) w) ->
  service alarm s l -> expiring s = 0 ->
  (forall tp t ticks f arg now w, tmem s !! tp = Some t -> getticks (outer s) = Ok ((OK, now), w) ->
     alarm w = alarm (outer s) -> 0 < u32 (now + ticks) ->
     wp (set_timer getticks sys_setalarm tp ticks f arg) (fun _ s' => exists t',
       service alarm s' (place (texp s) (u32 (now + ticks)) tp l) /\ tmem s' !! tp = Some t' /\
       tdata t' = (u32 (now + ticks), f, arg) /\
       forall x, x <> tp -> tdata <$> tmem s' !! x = tdata <$> tmem s !! x) s) /\
  (forall tp t, tmem s !! tp = Some t ->
     wp (cancel_timer sys_setalarm tp) (fun _ s' => service alarm s' (without tp l) /\
       forall x, x <> tp -> tdata <$> tmem s' !! x = tdata <$> tmem s !! x) s) /\
  (forall run_watchdog now I fuel, well_behaved run_watchdog now I -> I (with_expiring 1 s) ->
     (length (upto (texp s) now l) < fuel)%nat ->
     wp (expire_timers run_watchdog sys_setalarm fuel now) (fun _ s' => exists s1 l',
       expired run_watchdog now (upto (texp s) now l) (with_expiring 1 s) s1 /\ I s1 /\
       tmem s' = tmem s1 /\ upto (texp s') now l' = [] /\ service alarm s' l' /\ expiring s' = 0) s).
Proof.
  intros Hal Hs He. split_and!.
  - intros. by eapply set_timer_ok.
  - intros. by eapply cancel_timer_ok.
  - intros. by eapply expire_timers_ok; [..|apply Hs|apply Hs|].
Qed.

(** The clock of the kernel ([kernel/clock.c]). [next_timeout] is always the
    time of the first timer, or [TMR_NEVER]; so a tick that skips the queue misses
    no timer, and one that runs it runs the watchdogs of exactly the timers that
    are due, in order, and leaves none due. *)
Theorem kernel_clock {F W} (s : tmstate F W) l : kclock s l ->
  (forall tp t e f, tmem s !! tp = Some t ->
     wp (set_kernel_timer tp e f) (fun _ s' => kclock s' (place (texp s) e tp l) /\
       exists t', tmem s' !! tp = Some t' /\ tdata t' = (e, f, tmr_arg t)) s) /\
  (forall tp t, tmem s !! tp = Some t -> wp (reset_kernel_timer tp) (fun _ s' => kclock s' (without tp l)) s) /\
  (forall run_watchdog now I fuel, well_behaved run_watchdog now I -> I s -> now < TMR_NEVER ->
     (length (upto (texp s) now l) < fuel)%nat ->
     wp (clock_tick run_watchdog fuel now) (fun _ s' => exists s1 l',
       expired run_watchdog now (upto (texp s) now l) s s1 /\ tmem s' = tmem s1 /\
       upto (texp s') now l' = [] /\ kclock s' l') s).
Proof.
  intros Hk. split_and!.
  - intros. by eapply set_kernel_timer_ok.
  - intros. by eapply reset_kernel_timer_ok.
  - intros. by eapply clock_tick_ok.
Qed.

(** ** Instances *)

(** The outside of a service: the time and the alarm. Watchdog [f] sets its timer
    again, [f] ticks later, when [f] is between 1 and 999. *)
Definition demo_getticks : M (Z * Z) (ecode * Z) := now ← gets fst; mret (OK, now).
Definition demo_setalarm (t abs : Z) : M (Z * Z) ecode := modify (fun w => (fst w, t));; mret OK.
Definition demo_watchdog (f tp : Z) : M (tmstate Z (Z * Z)) unit :=
  if (0 <? f) && (f <? 1000) then set_timer demo_getticks demo_setalarm tp f f 0 else skip.

(** Timers 1, 2 and 3 expire at 100, 100 and 250; it is now 120. *)
Definition demo_timers : tmstate Z (Z * Z) :=
  mk_tmstate {[ 1 := mk_timer (Some 2) 100 500 0; 2 := mk_timer (Some 3) 100 0 0;
                3 := mk_timer None 250 10 0; 4 := mk_timer None TMR_NEVER 0 0 ]} (Some 1) 0 100 (120, 100).

Lemma demo_timers_queue : tqueue demo_timers [1; 2; 3].
Proof.
  split.
  - split; [done|]. exists (Some 2). split; [vm_compute; reflexivity|]. split; [done|]. exists (Some 3).
    split; [vm_compute; reflexivity|]. split; [done|]. exists None. by split; [vm_compute; reflexivity|].
  - repeat constructor; rewrite ?elem_of_cons, ?elem_of_nil; lia.
  - repeat constructor; vm_compute; discriminate.
Qed.

Lemma demo_service : service snd demo_timers [1; 2; 3].
Proof.
  split; [exact demo_timers_queue| |].
  - intros x. rewrite !elem_of_cons, elem_of_nil. intros [->|[->|[->|[]]]]; vm_compute; reflexivity.
  - intros _. vm_compute. split; [reflexivity|discriminate].
Qed.

(** What the watchdogs need: the time is 120, and the queue is being run. *)
Definition demo_I (s : tmstate Z (Z * Z)) : Prop := fst (outer s) = 120 /\ expiring s = 1.

Lemma demo_well_behaved : well_behaved demo_watchdog 120 demo_I.
Proof.
  split.
  - intros f tp s l [Hnow Hexp] Hq Ht Hni. unfold demo_watchdog.
    destruct ((0 <? f) && (f <? 1000)) eqn:E; [|apply wp_ret; split; [done|by exists l]].
    apply andb_true_iff in E as [?%Z.ltb_lt ?%Z.ltb_lt].
    apply (set_timer_expiring _ _ 120 (outer s)); try done.
    + unfold demo_getticks, mbind, M_bind, gets, mret, M_ret. by rewrite Hnow.
    + unfold u32. rewrite Z.mod_small by lia. lia.
    + intros s' _ Ho He. by split; [rewrite Ho|].
  - intros s s' _ Ho He [? ?]. split; congruence.
Qed.

Lemma demo_setalarm_ok : forall t w, wp (demo_setalarm t 1) (fun r w' => r = OK /\ snd w' = t) w.
Proof. done. Qed.

(** The alarm rings at 120: timers 1 and 2 run, and 1 is set again for 620. *)
Lemma timer_service_witness :
  wp (expire_timers demo_watchdog demo_setalarm 3 120) (fun _ s' => exists s1 l',
    expired demo_watchdog 120 [1; 2] (with_expiring 1 demo_timers) s1 /\ demo_I s1 /\
    tmem s' = tmem s1 /\ upto (texp s') 120 l' = [] /\ service snd s' l' /\ expiring s' = 0) demo_timers.
Proof.
  destruct (timer_service demo_getticks demo_setalarm snd demo_timers [1; 2; 3] demo_setalarm_ok demo_service eq_refl)
    as (_ & _ & Hex).
  apply (Hex demo_watchdog 120 demo_I 3%nat demo_well_behaved); [split; reflexivity|].
  vm_compute. lia.
Defined.

Lemma kernel_clock_witness :
  wp (set_kernel_timer 4 100 7) (fun _ s' => kclock s' (place (texp demo_timers) 100 4 [1; 2; 3]) /\
    exists t', tmem s' !! 4 = Some t' /\ tdata t' = (100, 7, 0)) demo_timers.
Proof.
  assert (kclock demo_timers [1; 2; 3]) as Hk by (split; [exact demo_timers_queue|vm_compute; reflexivity]).
  destruct (kernel_clock demo_timers [1; 2; 3] Hk) as (Hset & _).
  apply (Hset 4 (mk_timer None TMR_NEVER 0 0) 100 7). vm_compute. reflexivity.
Defined.
