(* ===== verification/Ds.v ===== *)
(** * The data store (servers/ds)

    The table of published entries and the table of subscriptions of the data
    store server, its requests and its start-up. The calls to the kernel, the C
    library's [malloc] and the regular expressions are an interface. *)

From S2P Require Import Prelude KTypes.
#[local] Open Scope Z_scope.

(** ** What the server calls *)

(** Strings and memory are lists of bytes. *)
Notation bytes := (list Z).

(** An allocated block: its size and its contents, as far as they were written. *)
Record block := mk_block { bsize : Z; bdata : bytes }.

Class DsEnv (W RX : Type) := {
  sys_safecopyfrom : Z -> Z -> Z -> M W (ecode * bytes);   (* source, grant, length *)
  sys_safecopyto : Z -> Z -> bytes -> M W ecode;           (* target, grant, data *)
  ipc_notify : Z -> M W unit;
  regcomp : bytes -> option RX;
  regexec : RX -> bytes -> bool;                           (* does the string match? *)
  malloc : gmap Z block -> Z -> Z;                         (* the heap, the size *)
}.

(** What they document: the calls to the kernel return a code, a copy delivers
    the number of bytes asked for, and memory that is handed out is not in use. *)
Class DsEnvLaws (W RX : Type) `{DsEnv W RX} : Prop := {
  copyfrom_law : forall src g n w, exists r b w',
    sys_safecopyfrom src g n w = Ok ((r, b), w') /\ (r = OK -> 0 <= n -> Z.of_nat (length b) = n);
  copyto_law : forall dst g b w, exists r w', sys_safecopyto dst g b w = Ok (r, w');
  notify_law : forall e w, exists w', ipc_notify e w = Ok (tt, w');
  malloc_law : forall h n, malloc h n <> 0 -> h !! malloc h n = None;
}.

(** ** The tables *)

Definition NR_DS_KEYS : nat := 128.
Definition NR_DS_SUBS : nat := 256.
Definition DS_MAX_KEYLEN : Z := 80.
Definition DS_PROC_NR : Z := 6.

Definition DSF_IN_USE : Z := 0x001.
Definition DSF_PRIV_RETRIEVE : Z := 0x002.
Definition DSF_PRIV_OVERWRITE : Z := 0x004.
Definition DSF_PRIV_SUBSCRIBE : Z := 0x008.
Definition DSF_TYPE_U32 : Z := 0x010.
Definition DSF_TYPE_STR : Z := 0x020.
Definition DSF_TYPE_MEM : Z := 0x040.
Definition DSF_TYPE_LABEL : Z := 0x100.
Definition DSF_MASK_TYPE : Z := 0xFF0.
Definition DSF_MASK_INTERNAL : Z := 0xFFF.
Definition DSF_OVERWRITE : Z := 0x01000.
Definition DSF_INITIAL : Z := 0x02000.

(** The members of the union are kept apart: the type of an entry in use never
    changes. *)
Record data_store := mk_data_store {
  d_flags : Z;
  d_key : bytes;
  d_owner : bytes;
  d_u32 : Z;
  d_data : Z;
  d_length : Z;
  d_reallen : Z;
}.
Definition set_d_flags (v : Z) (d : data_store) : data_store :=
  mk_data_store v (d_key d) (d_owner d) (d_u32 d) (d_data d) (d_length d) (d_reallen d).
Definition set_d_key (k : bytes) (d : data_store) : data_store :=
  mk_data_store (d_flags d) k (d_owner d) (d_u32 d) (d_data d) (d_length d) (d_reallen d).
Definition set_d_owner (o : bytes) (d : data_store) : data_store :=
  mk_data_store (d_flags d) (d_key d) o (d_u32 d) (d_data d) (d_length d) (d_reallen d).
Definition set_d_u32 (v : Z) (d : data_store) : data_store :=
  mk_data_store (d_flags d) (d_key d) (d_owner d) v (d_data d) (d_length d) (d_reallen d).
Definition set_d_data (p : Z) (d : data_store) : data_store :=
  mk_data_store (d_flags d) (d_key d) (d_owner d) (d_u32 d) p (d_length d) (d_reallen d).
Definition set_d_length (n : Z) (d : data_store) : data_store :=
  mk_data_store (d_flags d) (d_key d) (d_owner d) (d_u32 d) (d_data d) n (d_reallen d).
Definition set_d_reallen (n : Z) (d : data_store) : data_store :=
  mk_data_store (d_flags d) (d_key d) (d_owner d) (d_u32 d) (d_data d) (d_length d) n.

(** A compiled expression, unless there is none or its compilation failed. *)
Record subscription (RX : Type) := mk_subscription {
  s_flags : Z;
  s_owner : bytes;
  s_regex : option RX;
  s_old_subs : Z;       (* a bit for each entry *)
}.
Arguments mk_subscription {RX} _ _ _ _.
Arguments s_flags {RX} _.
Arguments s_owner {RX} _.
Arguments s_regex {RX} _.
Arguments s_old_subs {RX} _.

(** A request. *)
Record ds_msg := mk_ds_msg {
  m_source : Z;
  m_key_grant : Z;
  m_key_len : Z;
  m_flags : Z;
  m_val_in : Z;     (* a grant, a number or an endpoint *)
  m_val_len : Z;
}.
(** What the server writes into the message for the reply. *)
Inductive ds_reply :=
| no_reply
| reply_val (val_out : Z)
| reply_len (val_len : Z)
| reply_entry (flags owner : Z).

(** The name of a process is a string of the server or the key of an entry. *)
Inductive proc_name :=
| first_proc_name
| key_of (i : nat).

Section ds.
Context {W RX : Type} `{DsEnv W RX}.

Record ds_state := mk_ds_state {
  ds_store : list data_store;
  ds_subs : list (subscription RX);
  ds_heap : gmap Z block;
  ds_world : W;
}.
Definition with_store (l : list data_store) (s : ds_state) : ds_state :=
  mk_ds_state l (ds_subs s) (ds_heap s) (ds_world s).
Definition with_subs (l : list (subscription RX)) (s : ds_state) : ds_state :=
  mk_ds_state (ds_store s) l (ds_heap s) (ds_world s).
Definition with_heap (h : gmap Z block) (s : ds_state) : ds_state :=
  mk_ds_state (ds_store s) (ds_subs s) h (ds_world s).
Definition with_ds_world (w : W) (s : ds_state) : ds_state :=
  mk_ds_state (ds_store s) (ds_subs s) (ds_heap s) w.

Notation DM := (M ds_state).

Definition get_data (i : nat) : DM data_store := l ← gets ds_store; deref (l !! i).
Definition upd_data (i : nat) (f : data_store -> data_store) : DM unit :=
  d ← get_data i; modify (fun s => with_store (<[i := f d]> (ds_store s)) s).
Definition get_sub (i : nat) : DM (subscription RX) := l ← gets ds_subs; deref (l !! i).
Definition upd_sub (i : nat) (f : subscription RX -> subscription RX) : DM unit :=
  d ← get_sub i; modify (fun s => with_subs (<[i := f d]> (ds_subs s)) s).

(** A call to the outside. *)
Definition outside {A} (m : M W A) : DM A :=
  w ← gets ds_world;
  match m w with
  | Ok (a, w') => modify (with_ds_world w');; mret a
  | Err f => fail f
  end.

Definition ds_malloc (n : Z) : DM Z :=
  h ← gets ds_heap;
  let p := malloc h n in
  when (negb (p =? 0)) (modify (with_heap (<[p := mk_block n []]> h)));;
  mret p.
(** Nothing is done for NULL. *)
Definition ds_free (p : Z) : DM unit :=
  if p =? 0 then skip
  else h ← gets ds_heap; deref (h !! p);; modify (with_heap (delete p h)).

(** Data are written to the start of a block. *)
Definition write_block (p : Z) (b : bytes) : DM unit :=
  h ← gets ds_heap;
  k ← deref (h !! p);
  if Z.of_nat (length b) <=? bsize k then
    modify (with_heap (<[p := mk_block (bsize k) (b ++ drop (length b) (bdata k))]> h))
  else fail OutOfBounds.
(** [((char * )p)[i] = v] *)
Definition poke (p i v : Z) : DM unit :=
  h ← gets ds_heap;
  k ← deref (h !! p);
  d ← lift (aset (bdata k) i v);
  modify (with_heap (<[p := mk_block (bsize k) d]> h)).
(** The first [n] bytes of a block. *)
Definition read_block (p n : Z) : DM bytes :=
  h ← gets ds_heap;
  k ← deref (h !! p);
  if n <=? Z.of_nat (length (bdata k)) then mret (take (Z.to_nat n) (bdata k)) else fail Uninit.

(** [strcpy] into an array of DS_MAX_KEYLEN characters. *)
Definition strcpy (k : bytes) : DM bytes :=
  if Z.of_nat (length k) <? DS_MAX_KEYLEN then mret k else fail OutOfBounds.

(** ** Looking up *)

(** [for (i = 0; i < n; i++) if (...) return &table[i]; return NULL;] *)
Fixpoint find_slot {A} (p : A -> bool) (i : nat) (l : list A) : option nat :=
  match l with
  | [] => None
  | x :: l' => if p x then Some i else find_slot p (S i) l'
  end.

Definition alloc_data_slot (l : list data_store) : option nat :=
  find_slot (fun d => negb (anyset (d_flags d) DSF_IN_USE)) 0 l.
Definition alloc_sub_slot (l : list (subscription RX)) : option nat :=
  find_slot (fun d => negb (anyset (s_flags d) DSF_IN_USE)) 0 l.

Definition lookup_entry (l : list data_store) (key_name : bytes) (type : Z) : option nat :=
  find_slot (fun d => anyset (d_flags d) DSF_IN_USE && anyset (d_flags d) type &&
                      bool_decide (d_key d = key_name)) 0 l.
Definition lookup_label_entry (l : list data_store) (num : Z) : option nat :=
  find_slot (fun d => anyset (d_flags d) DSF_IN_USE && anyset (d_flags d) DSF_TYPE_LABEL &&
                      (d_u32 d =? num)) 0 l.
Definition lookup_sub (l : list (subscription RX)) (owner : bytes) : option nat :=
  find_slot (fun d => anyset (s_flags d) DSF_IN_USE && bool_decide (s_owner d = owner)) 0 l.

Definition name_ds : bytes := [100; 115].
Definition name_rs : bytes := [114; 115].

Definition ds_getprocname (l : list data_store) (e : Z) : option proc_name :=
  if e =? DS_PROC_NR then Some first_proc_name
  else key_of <$> lookup_label_entry l (u32 e).

(** The string behind the pointer. *)
Definition name_at (l : list data_store) (n : proc_name) : option bytes :=
  match n with
  | first_proc_name => Some name_ds
  | key_of i => d_key <$> l !! i
  end.
Definition procname (l : list data_store) (e : Z) : option bytes :=
  n ← ds_getprocname l e; name_at l n.

Definition ds_getprocep (name : bytes) : DM Z :=
  l ← gets ds_store;
  match lookup_entry l name DSF_TYPE_LABEL with
  | Some i => d ← get_data i; mret (i32 (d_u32 d))
  | None => fail Panic
  end.

Definition check_auth (l : list data_store) (p : data_store) (ep perm : Z) : bool :=
  if negb (anyset (d_flags p) perm) then true
  else bool_decide (procname l ep = Some (d_owner p)).

(** The string up to its terminator. *)
Fixpoint terminated (b : bytes) : option bytes :=
  match b with
  | [] => None
  | c :: b' => if c =? 0 then Some [] else (fun k => c :: k) <$> terminated b'
  end.

(** The client's bytes in a buffer of DS_MAX_KEYLEN, whose last is set to 0; the
    bytes in between, where the string is read on, are indeterminate. *)
Definition key_string (m : ds_msg) (b : bytes) : option bytes :=
  terminated (if m_key_len m =? DS_MAX_KEYLEN then take 79 b ++ [0] else b).

Definition get_key_name (m : ds_msg) : DM (ecode + bytes) :=
  if (DS_MAX_KEYLEN <? m_key_len m) || (m_key_len m <? 2) then mret (inl EINVAL)
  else
    c ← outside (sys_safecopyfrom (m_source m) (m_key_grant m) (m_key_len m));
    let '(r, b) := (c : ecode * bytes) in
    if negb (bool_decide (r = OK)) then mret (inl r)
    else
      match key_string m b with
      | Some k => mret (inr k)
      | None => fail Uninit
      end.

(** ** Subscribers *)

Definition check_sub_match (l : list data_store) (subp : subscription RX) (dsp : data_store) (ep : Z) : DM bool :=
  if check_auth l dsp ep DSF_PRIV_SUBSCRIBE then
    rx ← deref (s_regex subp); mret (regexec rx (d_key dsp))
  else mret false.

Definition SET_BIT (map : Z) (bit : nat) : Z := Z.setbit map (Z.of_nat bit).
Definition UNSET_BIT (map : Z) (bit : nat) : Z := Z.clearbit map (Z.of_nat bit).
Definition GET_BIT (map : Z) (bit : nat) : bool := Z.testbit map (Z.of_nat bit).
Definition set_s_old_subs (v : Z) (p : subscription RX) : subscription RX :=
  mk_subscription (s_flags p) (s_owner p) (s_regex p) v.

Definition update_subscriber (nr : nat) (set : bool) (i : nat) : DM unit :=
  l ← gets ds_store;
  dsp ← get_data nr;
  subp ← get_sub i;
  if negb (anyset (s_flags subp) DSF_IN_USE) then skip
  else if Z.land (Z.land (s_flags subp) (d_flags dsp)) DSF_MASK_TYPE =? 0 then skip
  else
    ep ← ds_getprocep (s_owner subp);
    b ← check_sub_match l subp dsp ep;
    if negb b then skip
    else
      upd_sub i (fun p => set_s_old_subs ((if set then SET_BIT else UNSET_BIT) (s_old_subs p) nr) p);;
      outside (ipc_notify ep).

Definition update_subscribers (nr : nat) (set : bool) : DM unit :=
  foreach (seq 0 NR_DS_SUBS) (update_subscriber nr set).

(** ** Start-up *)

Record rprocpub := mk_rprocpub { rp_in_use : bool; rp_label : bytes; rp_endpoint : Z }.

Definition map_service (rpub : rprocpub) : DM ecode :=
  l ← gets ds_store;
  match alloc_data_slot l with
  | None => mret ENOMEM
  | Some i =>
      k ← strcpy (rp_label rpub);
      upd_data i (set_d_key k);;
      upd_data i (set_d_u32 (u32 (rp_endpoint rpub)));;
      upd_data i (set_d_owner name_rs);;
      upd_data i (set_d_flags (Z.lor DSF_IN_USE DSF_TYPE_LABEL));;
      update_subscribers i true;;
      mret OK
  end.

(** [table] is what the reincarnation server grants. *)
Definition sef_cb_init_fresh (table : list rprocpub) : DM ecode :=
  foreach (seq 0 NR_DS_KEYS) (fun i => upd_data i (set_d_flags 0));;
  foreach (seq 0 NR_DS_SUBS) (fun i => upd_sub i (fun p => mk_subscription 0 (s_owner p) (s_regex p) (s_old_subs p)));;
  foreach table (fun rpub =>
    when (rp_in_use rpub) (r ← map_service rpub; when (negb (bool_decide (r = OK))) (fail Panic)));;
  mret OK.

(** ** Publishing *)

(** A buffer of at least [length] bytes, if there is memory. *)
Definition grow_buffer (i : nat) (length : Z) : DM bool :=
  d ← get_data i;
  let alloc :=
    p ← ds_malloc length;
    upd_data i (set_d_data p);;
    if p =? 0 then mret false else upd_data i (set_d_reallen length);; mret true in
  if negb (anyset (d_flags d) DSF_IN_USE) then alloc
  else if d_reallen d <? length then ds_free (d_data d);; alloc
  else mret true.

(** The case of strings and memory ranges. *)
Definition publish_mem (i : nat) (m : ds_msg) : DM ecode :=
  let length := u32 (m_val_len m) in
  ok ← grow_buffer i length;
  if negb (ok : bool) then mret ENOMEM
  else
    d ← get_data i;
    c ← outside (sys_safecopyfrom (m_source m) (m_val_in m) length);
    let '(r, b) := (c : ecode * bytes) in
    if negb (bool_decide (r = OK)) then ds_free (d_data d);; mret r
    else
      write_block (d_data d) b;;
      upd_data i (set_d_length length);;
      when (anyset (m_flags m) DSF_TYPE_STR) (poke (d_data d) (u32 (length - 1)) 0);;
      mret OK.

(** [switch (flags & DSF_MASK_TYPE)] *)
Definition publish_value (i : nat) (m : ds_msg) : DM ecode :=
  let type := Z.land (m_flags m) DSF_MASK_TYPE in
  if (type =? DSF_TYPE_U32) || (type =? DSF_TYPE_LABEL) then upd_data i (set_d_u32 (u32 (m_val_in m)));; mret OK
  else if (type =? DSF_TYPE_STR) || (type =? DSF_TYPE_MEM) then publish_mem i m
  else mret EINVAL.

(** The entry to write: an existing one that may be overwritten, or a free one. *)
Definition publish_slot (l : list data_store) (m : ds_msg) (key_name : bytes) : ecode + nat :=
  let flags := m_flags m in
  let found :=
    match lookup_entry l key_name (Z.land flags DSF_MASK_TYPE) with
    | Some i => Some i
    | None => if anyset flags DSF_TYPE_LABEL then lookup_label_entry l (u32 (m_val_in m)) else None
    end in
  match found with
  | None => match alloc_data_slot l with None => inl ENOMEM | Some i => inr i end
  | Some i =>
      if anyset flags DSF_OVERWRITE then
        match l !! i with
        | Some d => if check_auth l d (m_source m) DSF_PRIV_OVERWRITE then inr i else inl EPERM
        | None => inl EINVAL
        end
      else inl EEXIST
  end.

(** [source] may point to the key of this very entry. *)
Definition set_attributes (i : nat) (flags : Z) (key_name : bytes) (source : proc_name) : DM unit :=
  k ← strcpy key_name;
  upd_data i (set_d_key k);;
  l ← gets ds_store;
  s ← deref (name_at l source);
  owner ← strcpy s;
  upd_data i (set_d_owner owner);;
  upd_data i (set_d_flags (Z.lor DSF_IN_USE (Z.land flags DSF_MASK_INTERNAL))).

Definition do_publish (m : ds_msg) : DM ecode :=
  l ← gets ds_store;
  match ds_getprocname l (m_source m) with
  | None => mret EPERM
  | Some source =>
      if anyset (m_flags m) DSF_TYPE_LABEL && negb (m_source m =? RS_PROC_NR) then mret EPERM
      else
        k ← get_key_name m;
        match (k : ecode + bytes) with
        | inl r => mret r
        | inr key_name =>
            match publish_slot l m key_name with
            | inl r => mret r
            | inr i =>
                r ← publish_value i m;
                if negb (bool_decide (r = OK)) then mret r
                else
                  set_attributes i (m_flags m) key_name source;;
                  update_subscribers i true;;
                  mret OK
            end
        end
  end.

(** ** Retrieving *)

Definition retrieve_value (d : data_store) (m : ds_msg) : DM (ecode * ds_reply) :=
  let type := Z.land (m_flags m) DSF_MASK_TYPE in
  if type =? DSF_TYPE_U32 then mret (OK, reply_val (d_u32 d))
  else if type =? DSF_TYPE_LABEL then mret (OK, reply_val (i32 (d_u32 d)))
  else if (type =? DSF_TYPE_STR) || (type =? DSF_TYPE_MEM) then
    let length := Z.min (u32 (m_val_len m)) (d_length d) in
    b ← read_block (d_data d) length;
    r ← outside (sys_safecopyto (m_source m) (m_val_in m) b);
    if negb (bool_decide (r = OK)) then mret (r, no_reply)
    else mret (OK, reply_len (i32 length))
  else mret (EINVAL, no_reply).

Definition do_retrieve (m : ds_msg) : DM (ecode * ds_reply) :=
  k ← get_key_name m;
  match (k : ecode + bytes) with
  | inl r => mret (r, no_reply)
  | inr key_name =>
      l ← gets ds_store;
      match lookup_entry l key_name (Z.land (m_flags m) DSF_MASK_TYPE) with
      | None => mret (ESRCH, no_reply)
      | Some i =>
          d ← get_data i;
          if negb (check_auth l d (m_source m) DSF_PRIV_RETRIEVE) then mret (EPERM, no_reply)
          else retrieve_value d m
      end
  end.

Definition do_retrieve_label (m : ds_msg) : DM (ecode * ds_reply) :=
  l ← gets ds_store;
  match lookup_label_entry l (u32 (m_val_in m)) with
  | None => mret (ESRCH, no_reply)
  | Some i =>
      d ← get_data i;
      r ← outside (sys_safecopyto (m_source m) (m_key_grant m) (d_key d ++ [0]));
      mret (r, no_reply)
  end.

(** ** Subscribing *)

(** The instant list: mark the entries that match. *)
Definition initial_match (i_sub : nat) (type_set ep : Z) (i : nat) (found : bool) : DM bool :=
  l ← gets ds_store;
  d ← get_data i;
  if negb (anyset (d_flags d) DSF_IN_USE) then mret found
  else if negb (anyset (d_flags d) type_set) then mret found
  else
    subp ← get_sub i_sub;
    b ← check_sub_match l subp d ep;
    if negb (b : bool) then mret found
    else upd_sub i_sub (fun p => set_s_old_subs (SET_BIT (s_old_subs p) i) p);; mret true.

Fixpoint initial_list (i_sub : nat) (type_set ep : Z) (l : list nat) (found : bool) : DM bool :=
  match l with
  | [] => mret found
  | i :: l' => f ← initial_match i_sub type_set ep i found; initial_list i_sub type_set ep l' f
  end.

(** The slot of the subscription: the owner's, if it may be overwritten, or a free one. *)
Definition subscribe_slot (l : list (subscription RX)) (owner : bytes) (flags : Z) : ecode + nat :=
  match lookup_sub l owner with
  | None => match alloc_sub_slot l with None => inl EAGAIN | Some i => inr i end
  | Some i => if negb (anyset flags DSF_OVERWRITE) then inl EEXIST else inr i
  end.

Definition do_subscribe (m : ds_msg) : DM ecode :=
  l ← gets ds_store;
  match procname l (m_source m) with
  | None => mret ESRCH
  | Some owner =>
      subs ← gets ds_subs;
      match subscribe_slot subs owner (m_flags m) with
      | inl r => mret r
      | inr i =>
          k ← get_key_name m;
          match (k : ecode + bytes) with
          | inl r => mret r
          | inr key =>
              let rx := regcomp ([94] ++ key ++ [36]) in
              upd_sub i (fun p => mk_subscription (s_flags p) (s_owner p) rx (s_old_subs p));;
              match rx with
              | None => mret EINVAL
              | Some _ =>
                  let type_set := let t := Z.land (m_flags m) DSF_MASK_TYPE in
                                  if t =? 0 then DSF_MASK_TYPE else t in
                  o ← strcpy owner;
                  upd_sub i (fun p => mk_subscription (Z.lor DSF_IN_USE type_set) o (s_regex p) 0);;
                  when (anyset (m_flags m) DSF_INITIAL)
                    (found ← initial_list i type_set (m_source m) (seq 0 NR_DS_KEYS) false;
                     when (found : bool) (outside (ipc_notify (m_source m))));;
                  mret OK
              end
          end
      end
  end.

Definition do_check (m : ds_msg) : DM (ecode * ds_reply) :=
  l ← gets ds_store;
  match procname l (m_source m) with
  | None => mret (ESRCH, no_reply)
  | Some owner =>
      subs ← gets ds_subs;
      match lookup_sub subs owner with
      | None => mret (ESRCH, no_reply)
      | Some j =>
          subp ← get_sub j;
          match find_slot (GET_BIT (s_old_subs subp)) 0 (seq 0 NR_DS_KEYS) with
          | None => mret (ENOENT, no_reply)
          | Some i =>
              d ← get_data i;
              r ← outside (sys_safecopyto (m_source m) (m_key_grant m) (d_key d ++ [0]));
              if negb (bool_decide (r = OK)) then mret (r, no_reply)
              else
                entry_owner_e ← ds_getprocep (d_owner d);
                upd_sub j (fun p => set_s_old_subs (UNSET_BIT (s_old_subs p) i) p);;
                mret (OK, reply_entry (Z.land (d_flags d) DSF_MASK_TYPE) entry_owner_e)
          end
      end
  end.

(** ** Deleting *)

Definition delete_subs_of (label : bytes) (i : nat) : DM unit :=
  p ← get_sub i;
  when (anyset (s_flags p) DSF_IN_USE && bool_decide (s_owner p = label))
    (upd_sub i (fun p => mk_subscription 0 (s_owner p) (s_regex p) (s_old_subs p))).

Definition delete_data_of (label : bytes) (i : nat) : DM unit :=
  d ← get_data i;
  when (anyset (d_flags d) DSF_IN_USE && bool_decide (d_owner d = label))
    (update_subscribers i false;; upd_data i (set_d_flags 0)).

Definition delete_value (i : nat) (type : Z) : DM ecode :=
  d ← get_data i;
  if type =? DSF_TYPE_U32 then mret OK
  else if type =? DSF_TYPE_LABEL then
    foreach (seq 0 NR_DS_SUBS) (delete_subs_of (d_key d));;
    foreach (seq 0 NR_DS_KEYS) (delete_data_of (d_key d));;
    mret OK
  else if (type =? DSF_TYPE_STR) || (type =? DSF_TYPE_MEM) then ds_free (d_data d);; mret OK
  else mret EINVAL.

Definition do_delete (m : ds_msg) : DM ecode :=
  l ← gets ds_store;
  match procname l (m_source m) with
  | None => mret EPERM
  | Some source =>
      k ← get_key_name m;
      match (k : ecode + bytes) with
      | inl r => mret r
      | inr key_name =>
          let type := Z.land (m_flags m) DSF_MASK_TYPE in
          match lookup_entry l key_name type with
          | None => mret ESRCH
          | Some i =>
              d ← get_data i;
              if negb (bool_decide (d_owner d = source)) then mret EPERM
              else
                r ← delete_value i type;
                if negb (bool_decide (r = OK)) then mret r
                else
                  update_subscribers i false;;
                  upd_data i (set_d_flags 0);;
                  mret OK
          end
      end
  end.

(** ** Requests *)

Definition DS_RQ_BASE : Z := 0x800.
Definition DS_PUBLISH : Z := DS_RQ_BASE + 0.
Definition DS_RETRIEVE : Z := DS_RQ_BASE + 1.
Definition DS_SUBSCRIBE : Z := DS_RQ_BASE + 2.
Definition DS_CHECK : Z := DS_RQ_BASE + 3.
Definition DS_DELETE : Z := DS_RQ_BASE + 4.
Definition DS_RETRIEVE_LABEL : Z := DS_RQ_BASE + 6.

(** The work of the main loop for one message; DS_GETSYSINFO, which copies the
    table out, is left out. *)
Definition ds_request (notify : bool) (callnr : Z) (m : ds_msg) : DM (ecode * ds_reply) :=
  if notify then mret (EINVAL, no_reply)
  else if callnr =? DS_PUBLISH then r ← do_publish m; mret (r, no_reply)
  else if callnr =? DS_RETRIEVE then do_retrieve m
  else if callnr =? DS_RETRIEVE_LABEL then do_retrieve_label m
  else if callnr =? DS_DELETE then r ← do_delete m; mret (r, no_reply)
  else if callnr =? DS_SUBSCRIBE then r ← do_subscribe m; mret (r, no_reply)
  else if callnr =? DS_CHECK then do_check m
  else mret (EINVAL, no_reply).

End ds.
Arguments ds_state : clear implicits.
