(* ===== verification/DsFacts.v ===== *)
(** * Facts about the data store

    The tables in order ([ds_inv]) and, for every operation of [Ds], a total
    correctness lemma: it does not fault, it keeps the tables in order, and a
    successful publication leaves the entry that a lookup of its key finds. *)

From S2P Require Import Prelude KTypes Ds.
#[local] Open Scope Z_scope.

(** ** Flag words of entries *)

Definition in_use (d : data_store) : Prop := anyset (d_flags d) DSF_IN_USE = true.
Definition type_of (d : data_store) : Z := Z.land (d_flags d) DSF_MASK_TYPE.
Definition types : list Z := [DSF_TYPE_U32; DSF_TYPE_STR; DSF_TYPE_MEM; DSF_TYPE_LABEL].
Definition mem_type (t : Z) : Prop := t = DSF_TYPE_STR \/ t = DSF_TYPE_MEM.

Lemma land_type f t : t ∈ types -> Z.land f t = Z.land (Z.land f DSF_MASK_TYPE) t.
Proof.
  intros Ht. rewrite <- Z.land_assoc. f_equal.
  repeat (apply elem_of_cons in Ht as [->|Ht]; [done|]). by apply elem_of_nil in Ht.
Qed.

(** A word with one type passes the test of that type only. *)
Lemma anyset_type f t u :
  t ∈ types -> u ∈ types -> Z.land f DSF_MASK_TYPE = t -> anyset f u = bool_decide (t = u).
Proof.
  intros Ht Hu E. unfold anyset. rewrite (land_type f u Hu), E. clear E f.
  repeat (apply elem_of_cons in Ht as [->|Ht];
    [repeat (apply elem_of_cons in Hu as [->|Hu]; [done|]); by apply elem_of_nil in Hu|]).
  by apply elem_of_nil in Ht.
Qed.

(** The words the server builds. *)
Lemma stored_in_use f : anyset (Z.lor DSF_IN_USE f) DSF_IN_USE = true.
Proof.
  unfold anyset, DSF_IN_USE. apply negb_true_iff, Z.eqb_neq. intros E.
  apply (f_equal (fun z => Z.testbit z 0)) in E.
  by rewrite Z.land_spec, Z.lor_spec in E.
Qed.

Lemma stored_type f :
  Z.land (Z.lor DSF_IN_USE (Z.land f DSF_MASK_INTERNAL)) DSF_MASK_TYPE = Z.land f DSF_MASK_TYPE.
Proof.
  rewrite Z.land_lor_distr_l, <- Z.land_assoc.
  by replace (Z.land DSF_IN_USE DSF_MASK_TYPE) with 0 by done.
Qed.

Lemma stored_perm f p :
  p ∈ [DSF_PRIV_RETRIEVE; DSF_PRIV_OVERWRITE; DSF_PRIV_SUBSCRIBE] ->
  anyset (Z.lor DSF_IN_USE (Z.land f DSF_MASK_INTERNAL)) p = anyset f p.
Proof.
  intros Hp. unfold anyset. rewrite Z.land_lor_distr_l, <- Z.land_assoc.
  repeat (apply elem_of_cons in Hp as [->|Hp]; [done|]). by apply elem_of_nil in Hp.
Qed.

(** ** The first slot that passes a test *)

Section find.
Context {A : Type} (p : A -> bool).

Lemma find_slot_ge k l i : find_slot p k l = Some i -> (k <= i)%nat.
Proof.
  revert k. induction l as [|x l IH]; intros k; [done|]. cbn.
  destruct (p x); [intros [= ->]; lia|]. intros ?%IH. lia.
Qed.

Lemma find_slot_spec l i :
  find_slot p 0 l = Some i <->
  (exists x, l !! i = Some x /\ p x = true) /\ (forall j y, (j < i)%nat -> l !! j = Some y -> p y = false).
Proof.
  assert (forall k i, find_slot p k l = Some (k + i)%nat <->
    (exists x, l !! i = Some x /\ p x = true) /\ (forall j y, (j < i)%nat -> l !! j = Some y -> p y = false)) as G;
    [|apply (G 0%nat)].
  clear i. induction l as [|x l IH]; intros k i; cbn.
  { split; [done|]. by intros [(? & ? & ?) _]. }
  destruct (p x) eqn:Ex.
  - split.
    + intros [= E]. assert (i = 0%nat) as -> by lia. split; [by exists x|]. intros; lia.
    + intros [_ H]. destruct i as [|i]; [f_equal; lia|].
      specialize (H 0%nat x ltac:(lia) eq_refl). congruence.
  - destruct i as [|i].
    + split; [intros ?%find_slot_ge; lia|]. intros [(y & [= <-] & ?) _]. congruence.
    + replace (k + S i)%nat with (S k + i)%nat by lia. rewrite IH. cbn. split; intros [Hx Hl].
      * split; [done|]. intros [|j] y Hj; cbn; [by intros [= <-]|]. apply Hl. lia.
      * split; [done|]. intros j y Hj. apply (Hl (S j)). lia.
Qed.

Lemma find_slot_None l : find_slot p 0 l = None <-> forall j y, l !! j = Some y -> p y = false.
Proof.
  assert (forall k, find_slot p k l = None <-> forall j y, l !! j = Some y -> p y = false) as G; [|apply G].
  induction l as [|x l IH]; intros k; cbn; [by split|].
  destruct (p x) eqn:Ex.
  - split; [done|]. intros H. specialize (H 0%nat x eq_refl). congruence.
  - rewrite IH. split; intros H.
    + intros [|j] y; cbn; [by intros [= <-]|apply H].
    + intros j y. apply (H (S j)).
Qed.

Lemma find_slot_is_Some l i x : l !! i = Some x -> p x = true -> is_Some (find_slot p 0 l).
Proof.
  intros Hx Hp. destruct (find_slot p 0 l) eqn:E; [done|].
  rewrite find_slot_None in E. specialize (E _ _ Hx). congruence.
Qed.

(** A slot that fails the test before and after does not matter. *)
Lemma find_slot_insert_false l i x y :
  l !! i = Some x -> p x = false -> p y = false -> find_slot p 0 (<[i := y]> l) = find_slot p 0 l.
Proof.
  generalize 0%nat as k. revert i. induction l as [|z l IH]; intros [|i] k; cbn; try done.
  - intros [= ->] -> ->. done.
  - intros ? ? ?. rewrite IH by done. done.
Qed.
End find.

(** ** The tables in order *)

(** A string without terminator that fits into an array of a key. *)
Definition str_ok (k : bytes) : Prop := Z.of_nat (length k) < DS_MAX_KEYLEN.

Definition is_label (d : data_store) : Prop := in_use d /\ type_of d = DSF_TYPE_LABEL.
Definition is_mem (d : data_store) : Prop := in_use d /\ mem_type (type_of d).

Definition entry_ok (d : data_store) : Prop :=
  str_ok (d_key d) /\ str_ok (d_owner d) /\
  (in_use d -> type_of d ∈ types) /\
  (is_label d -> d_owner d = name_rs).

(** The buffer of an entry is allocated, large enough, and written as far as it is long. *)
Definition buffer_ok (h : gmap Z block) (d : data_store) : Prop :=
  exists k, h !! d_data d = Some k /\ d_data d <> 0 /\ bsize k = d_reallen d /\
    0 <= d_length d <= d_reallen d /\ d_length d <= Z.of_nat (length (bdata k)).

Definition mem_ok (l : list data_store) (h : gmap Z block) : Prop :=
  (forall i d, l !! i = Some d -> is_mem d -> buffer_ok h d) /\
  (forall i j d e, i <> j -> l !! i = Some d -> l !! j = Some e -> is_mem d -> is_mem e ->
     d_data d <> d_data e).

Definition labelled (l : list data_store) (k : bytes) : Prop :=
  exists j d, l !! j = Some d /\ is_label d /\ d_key d = k.

(** The reincarnation server goes by its own name. *)
Definition rs_ok (l : list data_store) : Prop := procname l RS_PROC_NR = Some name_rs.

Section inv.
Context {W RX : Type}.

Definition sub_in_use (p : subscription RX) : Prop := anyset (s_flags p) DSF_IN_USE = true.
Definition sub_ok (l : list data_store) (p : subscription RX) : Prop :=
  sub_in_use p -> is_Some (s_regex p) /\ labelled l (s_owner p).

Record tables_ok (l : list data_store) (h : gmap Z block) (u : list (subscription RX)) : Prop := {
  t_keys : length l = NR_DS_KEYS;
  t_nsubs : length u = NR_DS_SUBS;
  t_entries : Forall entry_ok l;
  t_mem : mem_ok l h;
  t_subs : Forall (sub_ok l) u;
  t_rs : rs_ok l;
}.
Definition ds_inv (s : ds_state W RX) : Prop := tables_ok (ds_store s) (ds_heap s) (ds_subs s).

(** All of a subscription but its bitmap. *)
Definition sub_view (p : subscription RX) : Z * bytes * option RX := (s_flags p, s_owner p, s_regex p).
Definition same_subs (u u' : list (subscription RX)) : Prop := sub_view <$> u' = sub_view <$> u.

Lemma same_subs_lookup u u' i p' :
  same_subs u u' -> u' !! i = Some p' -> exists p, u !! i = Some p /\ sub_view p' = sub_view p.
Proof.
  intros E Hi. apply (f_equal (fun x => x !! i)) in E. rewrite !list_lookup_fmap, Hi in E.
  cbn in E. destruct (u !! i) as [p|]; cbn in E; [|done]. exists p. split; [done|]. congruence.
Qed.

Lemma same_subs_insert u i p p' :
  u !! i = Some p -> sub_view p' = sub_view p -> same_subs u (<[i := p']> u).
Proof. intros Hi E. unfold same_subs. rewrite list_fmap_insert, E. apply list_insert_id. by rewrite list_lookup_fmap, Hi. Qed.

Lemma sub_ok_view l p p' : sub_view p' = sub_view p -> sub_ok l p -> sub_ok l p'.
Proof. unfold sub_view, sub_ok, sub_in_use. by intros [= -> -> ->]. Qed.

Lemma subs_ok_same l u u' : same_subs u u' -> Forall (sub_ok l) u -> Forall (sub_ok l) u'.
Proof.
  rewrite !Forall_lookup. intros E H i p' Hi.
  destruct (same_subs_lookup _ _ _ _ E Hi) as (p & Hp & Hv). eapply sub_ok_view; [done|]. by eapply H.
Qed.

Lemma same_subs_length u u' : same_subs u u' -> length u' = length u.
Proof. intros E. apply (f_equal length) in E. by rewrite !length_fmap in E. Qed.

Lemma tables_ok_same l h u u' : same_subs u u' -> tables_ok l h u -> tables_ok l h u'.
Proof.
  intros E [? ? ? ? ? ?]. split; try done.
  - by rewrite (same_subs_length _ _ E).
  - by eapply subs_ok_same.
Qed.

(** Only the world and the bitmaps have changed. *)
Definition quiet (s s' : ds_state W RX) : Prop :=
  ds_store s' = ds_store s /\ ds_heap s' = ds_heap s /\ same_subs (ds_subs s) (ds_subs s').

Lemma ds_quiet_refl s : quiet s s.
Proof. done. Qed.
Lemma ds_quiet_trans s1 s2 s3 : quiet s1 s2 -> quiet s2 s3 -> quiet s1 s3.
Proof. unfold quiet, same_subs. intros (? & ? & ?) (? & ? & ?). split_and!; congruence. Qed.
Lemma quiet_world w s : quiet s (with_ds_world w s).
Proof. done. Qed.
Lemma quiet_inv s s' : quiet s s' -> ds_inv s -> ds_inv s'.
Proof. unfold ds_inv. intros (-> & -> & E). by apply tables_ok_same. Qed.
End inv.

(** ** Looking up *)

Lemma is_label_test d :
  entry_ok d -> anyset (d_flags d) DSF_IN_USE && anyset (d_flags d) DSF_TYPE_LABEL = true <-> is_label d.
Proof.
  intros (_ & _ & Ht & _). rewrite andb_true_iff. split; intros [Hu Hl]; (split; [done|]).
  - rewrite (anyset_type _ (type_of d) DSF_TYPE_LABEL) in Hl; [|by apply Ht|by repeat constructor|done].
    by apply bool_decide_eq_true in Hl.
  - rewrite (anyset_type _ (type_of d) DSF_TYPE_LABEL); [|by apply Ht|by repeat constructor|done].
    by apply bool_decide_eq_true.
Qed.

Lemma lookup_label_entry_Some l e i :
  Forall entry_ok l -> lookup_label_entry l e = Some i ->
  exists d, l !! i = Some d /\ is_label d /\ d_u32 d = e.
Proof.
  intros Hl (( d & Hd & Hp) & _)%find_slot_spec. exists d. split; [done|].
  apply andb_true_iff in Hp as [Hp ?%Z.eqb_eq].
  apply is_label_test in Hp; [done|]. by eapply (proj1 (Forall_lookup _ _) Hl).
Qed.

Lemma lookup_label_Some l k i :
  Forall entry_ok l -> lookup_entry l k DSF_TYPE_LABEL = Some i ->
  exists d, l !! i = Some d /\ is_label d /\ d_key d = k.
Proof.
  intros Hl (( d & Hd & Hp) & _)%find_slot_spec. exists d. split; [done|].
  apply andb_true_iff in Hp as [Hp Hk%bool_decide_eq_true].
  apply is_label_test in Hp; [done|]. by eapply (proj1 (Forall_lookup _ _) Hl).
Qed.

Lemma labelled_lookup l k :
  Forall entry_ok l -> labelled l k -> exists i d, lookup_entry l k DSF_TYPE_LABEL = Some i /\ l !! i = Some d.
Proof.
  intros Hl (j & d & Hj & Hd & <-).
  assert (is_Some (lookup_entry l (d_key d) DSF_TYPE_LABEL)) as [i Hi].
  { eapply find_slot_is_Some; [exact Hj|]. cbn. apply andb_true_iff. split; [|by apply bool_decide_eq_true].
    apply is_label_test; [|done]. by eapply (proj1 (Forall_lookup _ _) Hl). }
  destruct (lookup_label_Some _ _ _ Hl Hi) as (d' & ? & _). by exists i, d'.
Qed.

Lemma procname_str_ok l e o : Forall entry_ok l -> procname l e = Some o -> str_ok o.
Proof.
  intros Hl. unfold procname, ds_getprocname. destruct (e =? DS_PROC_NR); cbn; [by intros [= <-]|].
  destruct (lookup_label_entry l (u32 e)) as [i|] eqn:Ei; cbn; [|done].
  destruct (lookup_label_entry_Some _ _ _ Hl Ei) as (d & Hd & _). rewrite Hd. intros [= <-].
  by apply (proj1 (Forall_lookup _ _) Hl) in Hd as (? & _).
Qed.

Lemma getprocname_name l e n :
  Forall entry_ok l -> ds_getprocname l e = Some n -> exists o, name_at l n = Some o /\ procname l e = Some o.
Proof.
  intros Hl E. unfold procname. rewrite E. cbn. revert E. unfold ds_getprocname.
  destruct (e =? DS_PROC_NR); [intros [= <-]; by eexists|].
  destruct (lookup_label_entry l (u32 e)) as [i|] eqn:Ei; cbn; [|done]. intros [= <-].
  destruct (lookup_label_entry_Some _ _ _ Hl Ei) as (d & Hd & _). exists (d_key d). cbn. by rewrite Hd.
Qed.

(** ** Changing one entry *)

Lemma lookup_insert_cases {A} (l : list A) i j x y :
  <[i := x]> l !! j = Some y -> (j = i /\ y = x) \/ (j <> i /\ l !! j = Some y).
Proof.
  destruct (decide (j = i)) as [->|Hne].
  - intros Hy. left. split; [done|]. pose proof (lookup_lt_Some _ _ _ Hy) as Hl. rewrite length_insert in Hl.
    rewrite list_lookup_insert_eq in Hy by done. by injection Hy.
  - rewrite list_lookup_insert_ne by done. by right.
Qed.

(** The buffers of the other entries are as before; a buffer is none of theirs. *)
Definition others_kept (l : list data_store) (i : nat) (h h' : gmap Z block) : Prop :=
  forall j e, j <> i -> l !! j = Some e -> is_mem e -> h' !! d_data e = h !! d_data e.
Definition apart (l : list data_store) (i : nat) (p : Z) : Prop :=
  forall j e, j <> i -> l !! j = Some e -> is_mem e -> d_data e <> p.

Lemma apart_own l h i d : mem_ok l h -> l !! i = Some d -> is_mem d -> apart l i (d_data d).
Proof. intros [_ Hdis] Hi Hd j e Hne Hj He. by eapply Hdis. Qed.

Lemma others_kept_refl l i h : others_kept l i h h.
Proof. by intros ????. Qed.
Lemma others_kept_trans l i h1 h2 h3 : others_kept l i h1 h2 -> others_kept l i h2 h3 -> others_kept l i h1 h3.
Proof. intros H1 H2 j e Hne Hj He. rewrite <- (H1 j e) by done. by apply (H2 j e). Qed.
Lemma others_kept_insert l i h p k : apart l i p -> others_kept l i h (<[p := k]> h).
Proof. intros Hp j e Hne Hj He. apply lookup_insert_ne. intros Heq. by apply (Hp j e). Qed.
Lemma others_kept_delete l i h p : apart l i p -> others_kept l i h (delete p h).
Proof. intros Hp j e Hne Hj He. apply lookup_delete_ne. intros Heq. by apply (Hp j e). Qed.

Lemma apart_fresh l h h' i p : mem_ok l h -> others_kept l i h h' -> h' !! p = None -> apart l i p.
Proof.
  intros [Hbuf _] Hk Hp j e Hne Hj He <-. rewrite (Hk j e) in Hp by done.
  destruct (Hbuf _ _ Hj He) as (k & ? & _). congruence.
Qed.

Lemma mem_ok_insert l h h' i d' :
  mem_ok l h -> others_kept l i h h' ->
  (is_mem d' -> buffer_ok h' d' /\ apart l i (d_data d')) ->
  mem_ok (<[i := d']> l) h'.
Proof.
  intros [Hbuf Hdis] Hkeep Hd'. split.
  - intros j e [[-> ->]|[Hne Hj]]%lookup_insert_cases He; [by apply Hd'|].
    unfold buffer_ok. rewrite (Hkeep j e) by done. by eapply Hbuf.
  - intros j1 j2 e1 e2 Hne [[-> ->]|[H1 Hj1]]%lookup_insert_cases [[-> ->]|[H2 Hj2]]%lookup_insert_cases He1 He2.
    + done.
    + intros Heq. destruct (Hd' He1) as [_ Hap]. by eapply Hap.
    + intros Heq. destruct (Hd' He2) as [_ Hap]. by eapply Hap.
    + by apply (Hdis j1 j2).
Qed.

Lemma labelled_insert l i d d' k :
  l !! i = Some d -> (is_label d -> d_key d = k -> is_label d' /\ d_key d' = k) ->
  labelled l k -> labelled (<[i := d']> l) k.
Proof.
  intros Hi Hd (j & e & Hj & He & Hk). destruct (decide (j = i)) as [->|Hne].
  - assert (e = d) as -> by congruence. exists i, d'.
    rewrite list_lookup_insert_eq by (by eapply lookup_lt_Some). destruct (Hd He Hk) as [? ?]. by split_and!.
  - exists j, e. by rewrite list_lookup_insert_ne.
Qed.

Lemma rs_ok_first l :
  Forall entry_ok l ->
  rs_ok l <-> exists j d, lookup_label_entry l RS_PROC_NR = Some j /\ l !! j = Some d /\ d_key d = name_rs.
Proof.
  intros Hl. unfold rs_ok, procname, ds_getprocname. cbn.
  change (u32 RS_PROC_NR) with RS_PROC_NR.
  destruct (lookup_label_entry l RS_PROC_NR) as [j|] eqn:Ej; cbn; [|split; [done|]; by intros (? & ? & ? & _)].
  destruct (lookup_label_entry_Some _ _ _ Hl Ej) as (d & Hd & _). rewrite Hd. cbn. split; [intros [= Hk]; by exists j, d|]. intros (? & ? & [= <-] & ? & <-). congruence.
Qed.

Lemma rs_ok_insert l i d d' :
  Forall entry_ok l -> l !! i = Some d -> entry_ok d' ->
  (is_label d' -> d_u32 d' = RS_PROC_NR -> d_key d' = name_rs) ->
  (is_label d -> d_u32 d = RS_PROC_NR -> d_key d = name_rs -> is_label d' /\ d_u32 d' = RS_PROC_NR) ->
  rs_ok l -> rs_ok (<[i := d']> l).
Proof.
  intros Hl Hi Hd' Hto Hfrom (j & e & Hj & He & Hk)%rs_ok_first; [|done].
  apply rs_ok_first; [by apply Forall_insert|].
  pose proof (lookup_label_entry_Some _ _ _ Hl Hj) as (e' & ? & Hlab & Hnum). simplify_eq.
  set (test := fun d => anyset (d_flags d) DSF_IN_USE && anyset (d_flags d) DSF_TYPE_LABEL && (d_u32 d =? RS_PROC_NR)).
  assert (forall e, entry_ok e -> test e = true <-> is_label e /\ d_u32 e = RS_PROC_NR) as Htest.
  { intros x Hx. unfold test. by rewrite andb_true_iff, is_label_test, Z.eqb_eq. }
  assert (exists x, <[i := d']> l !! j = Some x /\ test x = true) as (x & Hx & Hpx).
  { destruct (decide (j = i)) as [->|Hne].
    - assert (e = d) as -> by congruence. exists d'. rewrite list_lookup_insert_eq by (by eapply lookup_lt_Some).
      split; [done|]. by apply Htest, Hfrom.
    - exists e. rewrite list_lookup_insert_ne by done. split; [done|]. apply Htest; [|done].
      by eapply (proj1 (Forall_lookup _ _) Hl). }
  destruct (find_slot_is_Some test _ _ _ Hx Hpx) as [j' Hj'].
  pose proof Hj' as ((e' & He' & Hp') & Hfirst)%find_slot_spec.
  exists j', e'. split_and!; [done..|].
  destruct (lookup_insert_cases _ _ _ _ _ He') as [[-> ->]|[Hne Hle]].
  - apply Htest in Hp' as [? ?]; [|done]. by apply Hto.
  - apply find_slot_spec in Hj as [_ Hmin].
    destruct (Nat.lt_trichotomy j j') as [Hlt|[->|Hlt]].
    + specialize (Hfirst _ _ Hlt Hx). congruence.
    + congruence.
    + specialize (Hmin _ _ Hlt Hle). unfold test in Hp'. congruence.
Qed.

(** ** The operations *)

Section ops.
Context {W RX : Type} {E : DsEnv W RX} {L : DsEnvLaws W RX}.
Implicit Types (s : ds_state W RX) (Q : unit -> ds_state W RX -> Prop).

Lemma wp_get_data i d (Q : data_store -> ds_state W RX -> Prop) s :
  ds_store s !! i = Some d -> Q d s -> wp (get_data i) Q s.
Proof. intros Hd HQ. unfold get_data. wp_steps; done. Qed.

Lemma get_data_run i d s : ds_store s !! i = Some d -> get_data i s = Ok (d, s).
Proof. unfold get_data, mbind, M_bind, gets, deref. by intros ->. Qed.

Lemma wp_upd_data i f d Q s :
  ds_store s !! i = Some d -> Q tt (with_store (<[i := f d]> (ds_store s)) s) -> wp (upd_data i f) Q s.
Proof. intros Hd HQ. unfold upd_data. apply wp_bind. by apply (wp_get_data i d). Qed.

Lemma wp_get_sub i p (Q : subscription RX -> ds_state W RX -> Prop) s :
  ds_subs s !! i = Some p -> Q p s -> wp (get_sub i) Q s.
Proof. intros Hd HQ. unfold get_sub. wp_steps; done. Qed.

Lemma wp_upd_sub i f p Q s :
  ds_subs s !! i = Some p -> Q tt (with_subs (<[i := f p]> (ds_subs s)) s) -> wp (upd_sub i f) Q s.
Proof. intros Hd HQ. unfold upd_sub. apply wp_bind. by apply (wp_get_sub i p). Qed.

Lemma wp_outside {A} (m : M W A) a w (Q : A -> ds_state W RX -> Prop) s :
  m (ds_world s) = Ok (a, w) -> Q a (with_ds_world w s) -> wp (outside m) Q s.
Proof. intros Hm HQ. unfold outside. wp_steps. rewrite Hm. wp_steps. done. Qed.

Lemma wp_notify e Q s : (forall w, Q tt (with_ds_world w s)) -> wp (outside (ipc_notify e)) Q s.
Proof. intros HQ. destruct (notify_law e (ds_world s)) as [w Hw]. by eapply wp_outside. Qed.

Lemma wp_copyto e g b (Q : ecode -> ds_state W RX -> Prop) s :
  (forall r w, sys_safecopyto e g b (ds_world s) = Ok (r, w) -> Q r (with_ds_world w s)) ->
  wp (outside (sys_safecopyto e g b)) Q s.
Proof.
  intros HQ. destruct (copyto_law e g b (ds_world s)) as (r & w & Hw). eapply wp_outside; [done|]. by apply HQ.
Qed.

Lemma wp_copyfrom e g n (Q : ecode * bytes -> ds_state W RX -> Prop) s :
  (forall r b w, sys_safecopyfrom e g n (ds_world s) = Ok ((r, b), w) ->
     (r = OK -> 0 <= n -> Z.of_nat (length b) = n) -> Q (r, b) (with_ds_world w s)) ->
  wp (outside (sys_safecopyfrom e g n)) Q s.
Proof.
  intros HQ. destruct (copyfrom_law e g n (ds_world s)) as (r & b & w & Hw & Hb).
  eapply wp_outside; [done|]. by apply HQ.
Qed.

Lemma wp_ds_malloc n (Q : Z -> ds_state W RX -> Prop) s :
  (forall p, p <> 0 -> ds_heap s !! p = None -> Q p (with_heap (<[p := mk_block n []]> (ds_heap s)) s)) ->
  Q 0 s -> wp (ds_malloc n) Q s.
Proof.
  intros Hok Hno. unfold ds_malloc. wp_steps. destruct (malloc (ds_heap s) n =? 0) eqn:Ep; cbn; wp_steps.
  - apply Z.eqb_eq in Ep. by rewrite Ep.
  - apply Z.eqb_neq in Ep. apply Hok; [done|]. by apply malloc_law.
Qed.

Lemma wp_ds_free p k Q s :
  p <> 0 -> ds_heap s !! p = Some k -> Q tt (with_heap (delete p (ds_heap s)) s) -> wp (ds_free p) Q s.
Proof. intros Hp Hk HQ. unfold ds_free. rewrite (proj2 (Z.eqb_neq _ _)) by done. wp_steps; done. Qed.

(** The loop over the subscriptions changes bitmaps only and does not fault. *)
Lemma update_subscriber_ok nr set i s :
  (nr < length (ds_store s))%nat -> (i < length (ds_subs s))%nat ->
  Forall entry_ok (ds_store s) -> Forall (sub_ok (ds_store s)) (ds_subs s) ->
  wp (update_subscriber nr set i) (fun _ s' => quiet s s') s.
Proof using L.
  intros [d Hd]%lookup_lt_is_Some [p Hp]%lookup_lt_is_Some Hent Hsub. unfold update_subscriber.
  wp_steps. apply (wp_get_data nr d); [done|]. wp_steps. apply (wp_get_sub i p); [done|].
  destruct (anyset (s_flags p) DSF_IN_USE) eqn:Eu; cbn; [|by wp_steps].
  case_match; [by wp_steps|].
  destruct (proj1 (Forall_lookup _ _) Hsub _ _ Hp Eu) as [[rx Hrx] Hlab].
  destruct (labelled_lookup _ _ Hent Hlab) as (j & dj & Ej & Hj).
  wp_steps. unfold ds_getprocep. wp_steps. rewrite Ej. wp_steps. apply (wp_get_data j dj); [done|]. wp_steps.
  apply (wp_mono _ (fun _ s' => s' = s)).
  { unfold check_sub_match. rewrite Hrx. case_match; wp_steps; done. }
  intros [] ? ->; cbn; [|by wp_steps].
  wp_steps. apply (wp_upd_sub i _ p); [done|]. apply wp_notify. intros w.
  split_and!; [done..|]. apply (same_subs_insert _ _ p); [done|]. by destruct set.
Qed.

Lemma update_subscribers_ok nr set s :
  (nr < length (ds_store s))%nat -> length (ds_subs s) = NR_DS_SUBS ->
  Forall entry_ok (ds_store s) -> Forall (sub_ok (ds_store s)) (ds_subs s) ->
  wp (update_subscribers nr set) (fun _ s' => quiet s s') s.
Proof using L.
  intros Hnr Hlen Hent Hsub. apply wp_foreach; [apply ds_quiet_refl|].
  intros i s' Hi%elem_of_seq Hq. destruct Hq as (Hs & Hh & Hv).
  eapply wp_mono; [apply update_subscriber_ok|].
  - by rewrite Hs.
  - rewrite (same_subs_length _ _ Hv). lia.
  - by rewrite Hs.
  - rewrite Hs. by apply (subs_ok_same _ (ds_subs s)).
  - intros [] s2 Hq2. by eapply ds_quiet_trans; [|exact Hq2].
Qed.

(** What the bytes of the key that the client sends satisfy. *)
Definition key_sat (m : ds_msg) s (P : bytes -> Prop) : Prop :=
  forall b w', sys_safecopyfrom (m_source m) (m_key_grant m) (m_key_len m) (ds_world s) = Ok ((OK, b), w') ->
    exists k, key_string m b = Some k /\ P k.

Lemma terminated_length b k : terminated b = Some k -> (length k < length b)%nat.
Proof.
  revert k. induction b as [|c b IH]; intros k; [done|]. cbn. case_match; [intros [= <-]; cbn; lia|].
  destruct (terminated b) as [k'|]; cbn; [|done]. intros [= <-]. specialize (IH _ eq_refl). cbn. lia.
Qed.

Lemma key_string_ok m b k :
  m_key_len m <= DS_MAX_KEYLEN -> Z.of_nat (length b) = m_key_len m -> key_string m b = Some k -> str_ok k.
Proof.
  intros Hm Hb Hk%terminated_length. unfold str_ok, DS_MAX_KEYLEN in *. revert Hk. case_match.
  - rewrite length_app, length_take. cbn [length]. lia.
  - apply Z.eqb_neq in H. lia.
Qed.

Lemma get_key_name_ok m (P : bytes -> Prop) (Q : ecode + bytes -> ds_state W RX -> Prop) s :
  key_sat m s P ->
  (forall r s', quiet s s' -> ds_subs s' = ds_subs s -> r <> OK -> Q (inl r) s') ->
  (forall k w, P k -> str_ok k -> get_key_name m s = Ok (inr k, with_ds_world w s) -> Q (inr k) (with_ds_world w s)) ->
  wp (get_key_name m) Q s.
Proof using L.
  intros HP Herr Hok.
  destruct ((DS_MAX_KEYLEN <? m_key_len m) || (m_key_len m <? 2)) eqn:Elen.
  { unfold get_key_name. rewrite Elen. by apply wp_ret, Herr. }
  destruct (copyfrom_law (m_source m) (m_key_grant m) (m_key_len m) (ds_world s)) as (r & b & w & Hc & Hb).
  assert (get_key_name m s =
    if bool_decide (r = OK) then
      match key_string m b with Some k => Ok (inr k, with_ds_world w s) | None => Err Uninit end
    else Ok (inl r, with_ds_world w s)) as Hrun.
  { unfold get_key_name. rewrite Elen. erewrite bind_ok; [|unfold outside, mbind, M_bind, gets; cbn; by rewrite Hc].
    cbn. case_bool_decide; cbn; [|done]. by destruct (key_string m b). }
  apply orb_false_iff in Elen as [El1%Z.ltb_ge El2%Z.ltb_ge].
  unfold wp. rewrite Hrun. case_bool_decide as Er; [|by apply Herr].
  subst r. destruct (HP _ _ Hc) as (k & Hk & HPk). rewrite Hk in *.
  apply Hok; [done| |done]. eapply key_string_ok; [done| |done]. apply Hb; [done|]. lia.
Qed.

(** ** Publishing *)

(** The value of an entry, and the one that a request publishes. *)
Inductive ds_value :=
| value_num (n : Z)
| value_bytes (b : bytes).

Definition holds (h : gmap Z block) (d : data_store) (v : ds_value) : Prop :=
  match v with
  | value_num n => d_u32 d = n
  | value_bytes b => d_length d = Z.of_nat (length b) /\
      exists k, h !! d_data d = Some k /\ take (length b) (bdata k) = b
  end.

(** A string loses its last character to the terminator. *)
Definition stored (flags : Z) (b : bytes) : bytes :=
  if anyset flags DSF_TYPE_STR then <[pred (length b) := 0]> b else b.

Definition published (m : ds_msg) (w : W) (v : ds_value) : Prop :=
  if decide (mem_type (Z.land (m_flags m) DSF_MASK_TYPE)) then
    exists b w', sys_safecopyfrom (m_source m) (m_val_in m) (u32 (m_val_len m)) w = Ok ((OK, b), w') /\
      v = value_bytes (stored (m_flags m) b)
  else v = value_num (u32 (m_val_in m)).

(** What may have changed while the value of the entry [i] was written. *)
Definition writing (i : nat) (d d1 : data_store) (s s' : ds_state W RX) : Prop :=
  ds_store s' = <[i := d1]> (ds_store s) /\ ds_subs s' = ds_subs s /\
  d_flags d1 = d_flags d /\ d_key d1 = d_key d /\ d_owner d1 = d_owner d /\
  others_kept (ds_store s) i (ds_heap s) (ds_heap s').

Lemma u32_nonneg z : 0 <= u32 z.
Proof. unfold u32. pose proof (Z.mod_pos_bound z 4294967296). lia. Qed.

(** The buffer of [d1] may be written. *)
Definition grown (i : nat) (n : Z) (d : data_store) s (ok : bool) (s' : ds_state W RX) : Prop :=
  exists d1, writing i d d1 s s' /\ ds_world s' = ds_world s /\
    (ok = true -> d_data d1 <> 0 /\ apart (ds_store s) i (d_data d1) /\ n <= d_reallen d1 /\
       exists k, ds_heap s' !! d_data d1 = Some k /\ bsize k = d_reallen d1).

Lemma alloc_buffer_ok i n d h s :
  mem_ok (ds_store s) (ds_heap s) -> ds_store s !! i = Some d ->
  others_kept (ds_store s) i (ds_heap s) h ->
  wp (p ← ds_malloc n; upd_data i (set_d_data p);;
      (if p =? 0 then mret false else upd_data i (set_d_reallen n);; mret true))
    (grown i n d s) (with_heap h s).
Proof using L.
  intros Hm Hi Hk. pose proof (lookup_lt_Some _ _ _ Hi) as Hlt. apply wp_bind, wp_ds_malloc.
  - intros p Hp Hfresh. cbn in Hfresh. apply wp_bind, (wp_upd_data i _ d); [done|].
    rewrite (proj2 (Z.eqb_neq _ _)) by done. apply wp_bind, (wp_upd_data i _ (set_d_data p d)).
    { cbn. by rewrite list_lookup_insert_eq. }
    apply wp_ret. exists (set_d_reallen n (set_d_data p d)). cbn.
    assert (apart (ds_store s) i p) as Hap by (by eapply apart_fresh).
    split_and!; [|done|intros _; split_and!; [done..|lia|]].
    + split_and!; cbn; [by rewrite list_insert_insert_eq|done..|].
      by eapply others_kept_trans, others_kept_insert.
    + exists (mk_block n []). by rewrite lookup_insert_eq.
  - apply wp_bind, (wp_upd_data i _ d); [done|]. cbn. apply wp_ret.
    exists (set_d_data 0 d). by split_and!.
Qed.

Lemma grow_buffer_ok i n d s :
  mem_ok (ds_store s) (ds_heap s) -> ds_store s !! i = Some d -> (in_use d -> is_mem d) ->
  wp (grow_buffer i n) (grown i n d s) s.
Proof using L.
  intros Hmem Hi Hin. pose proof Hmem as [Hbuf _].
  unfold grow_buffer. apply wp_bind, (wp_get_data i d); [done|].
  destruct (anyset (d_flags d) DSF_IN_USE) eqn:Eu; cbn.
  - destruct (Hbuf _ _ Hi (Hin Eu)) as (k & Hk & Hp & Hsz & Hlen & _).
    pose proof (apart_own _ _ _ _ Hmem Hi (Hin Eu)) as Hap.
    destruct (d_reallen d <? n) eqn:En.
    + apply wp_bind, (wp_ds_free _ k); [done..|]. apply alloc_buffer_ok; [done..|by apply others_kept_delete].
    + apply Z.ltb_ge in En. apply wp_ret. exists d. split_and!; [|done|].
      * split_and!; [by rewrite list_insert_id|done..].
      * intros _. split_and!; [done..|]. by exists k.
  - destruct s. by apply alloc_buffer_ok.
Qed.

Lemma writing_again i d d1 d2 s s1 s2 :
  writing i d d1 s s1 ->
  ds_store s2 = <[i := d2]> (ds_store s1) -> ds_subs s2 = ds_subs s1 ->
  d_flags d2 = d_flags d1 -> d_key d2 = d_key d1 -> d_owner d2 = d_owner d1 ->
  others_kept (ds_store s) i (ds_heap s1) (ds_heap s2) -> writing i d d2 s s2.
Proof.
  intros (Hs & ? & ? & ? & ? & ?) Hs2 ? ? ? ? ?. split_and!; try congruence.
  - by rewrite Hs2, Hs, list_insert_insert_eq.
  - by eapply others_kept_trans.
Qed.

(** [poke] writes the terminator of a string. *)
Lemma poke_ok p n b k s Q :
  ds_heap s !! p = Some k -> Z.of_nat (length b) = n -> 0 < n < 4294967296 ->
  (exists rest, bdata k = b ++ rest) ->
  (forall k', bsize k' = bsize k -> n <= Z.of_nat (length (bdata k')) ->
     take (length b) (bdata k') = <[pred (length b) := 0]> b -> Q tt (with_heap (<[p := k']> (ds_heap s)) s)) ->
  wp (poke p (u32 (n - 1)) 0) Q s.
Proof.
  intros Hk Hb Hn [rest Hr] HQ. unfold poke.
  replace (u32 (n - 1)) with (Z.of_nat (pred (length b))) by (unfold u32; rewrite Z.mod_small; lia).
  apply wp_bind, wp_gets, wp_bind. apply (wp_deref _ k); [done|].
  apply wp_bind. apply (wp_lift _ (<[pred (length b) := 0]> (bdata k))).
  { apply aset_nat. rewrite Hr, length_app. lia. }
  apply wp_modify, HQ; cbn; [done|..].
  - rewrite length_insert, Hr, length_app. lia.
  - rewrite Hr, insert_app_l by lia. apply take_app_length'. by rewrite length_insert.
Qed.

Lemma write_value_ok flags i d p n b s k (Q : ecode -> ds_state W RX -> Prop) :
  ds_store s !! i = Some d ->
  ds_heap s !! p = Some k -> Z.of_nat (length b) = n -> n <= bsize k ->
  (anyset flags DSF_TYPE_STR = true -> 0 < n < 4294967296) ->
  (forall k', bsize k' = bsize k -> n <= Z.of_nat (length (bdata k')) ->
     take (length b) (bdata k') = stored flags b ->
     Q OK (with_heap (<[p := k']> (ds_heap s)) (with_store (<[i := set_d_length n d]> (ds_store s)) s))) ->
  wp (write_block p b;; upd_data i (set_d_length n);;
      when (anyset flags DSF_TYPE_STR) (poke p (u32 (n - 1)) 0);; mret OK) Q s.
Proof.
  intros Hi Hk Hb Hn Hpos HQ. unfold write_block.
  apply wp_bind, wp_bind, wp_gets, wp_bind. apply (wp_deref _ k); [done|].
  rewrite (proj2 (Z.leb_le _ _)) by lia. apply wp_modify, wp_bind, (wp_upd_data i _ d); [done|].
  unfold stored in HQ. apply wp_bind. destruct (anyset flags DSF_TYPE_STR) eqn:Et.
  - eapply poke_ok; [cbn; by rewrite lookup_insert_eq|done|by apply Hpos|cbn; by eexists|].
    intros k' Hsz Hl Ht. specialize (HQ k' Hsz Hl Ht). apply wp_ret.
    unfold with_heap, with_store in *. cbn in *. by rewrite insert_insert_eq.
  - apply wp_ret, wp_ret, HQ; cbn; [done| |by rewrite take_app_length]. rewrite length_app. lia.
Qed.

Lemma stored_length flags b : length (stored flags b) = length b.
Proof. unfold stored. case_match; [by rewrite length_insert|done]. Qed.

Lemma publish_mem_ok i m d s :
  mem_ok (ds_store s) (ds_heap s) -> ds_store s !! i = Some d -> (in_use d -> is_mem d) ->
  (anyset (m_flags m) DSF_TYPE_STR = true -> u32 (m_val_len m) <> 0) ->
  wp (publish_mem i m) (fun r s' => exists d1, writing i d d1 s s' /\
    (r = OK -> buffer_ok (ds_heap s') d1 /\ apart (ds_store s) i (d_data d1) /\
      exists b w', sys_safecopyfrom (m_source m) (m_val_in m) (u32 (m_val_len m)) (ds_world s) = Ok ((OK, b), w') /\
        holds (ds_heap s') d1 (value_bytes (stored (m_flags m) b)))) s.
Proof using L.
  intros Hmem Hi Hin Hlen. pose proof (lookup_lt_Some _ _ _ Hi) as Hlt.
  unfold publish_mem. set (n := u32 (m_val_len m)) in *. pose proof (u32_nonneg (m_val_len m)) as Hn0. fold n in Hn0.
  apply wp_bind. eapply wp_mono; [by apply grow_buffer_ok|].
  intros ok s1 (d1 & Hw & Hworld & Hok). destruct ok; cbn; [|by wp_steps; exists d1].
  destruct (Hok eq_refl) as (Hp & Hap & Hn & k & Hk & Hsz). clear Hok.
  pose proof Hw as (Hs1 & Hsub1 & Hf1 & Hk1 & Ho1 & Hkeep).
  apply wp_bind, (wp_get_data i d1); [by rewrite Hs1, list_lookup_insert_eq|].
  apply wp_bind, wp_copyfrom. intros r b w Hc Hb. case_bool_decide as Er; cbn.
  - subst r. specialize (Hb eq_refl Hn0). rewrite Hworld in Hc.
    eapply write_value_ok; cbn; [by rewrite Hs1, list_lookup_insert_eq|done|done|lia| |].
    { intros Et. specialize (Hlen Et). unfold n, u32 in *. pose proof (Z.mod_pos_bound (m_val_len m) 4294967296). lia. }
    intros k' Hsz' Hl Ht. exists (set_d_length n d1). split; [|intros _; split_and!].
    + eapply writing_again; [done|..]; cbn; try done. by apply others_kept_insert.
    + exists k'. cbn. rewrite lookup_insert_eq. split_and!; [done..|congruence|lia|lia|done].
    + done.
    + exists b, w. split; [done|]. split; cbn; [by rewrite stored_length|].
      exists k'. rewrite lookup_insert_eq, stored_length. done.
  - apply wp_bind, (wp_ds_free _ k); [done..|]. wp_steps. exists d1. split; [|done].
    eapply writing_again; [done|..]; cbn; try done.
    + by rewrite Hs1, list_insert_insert_eq.
    + by apply others_kept_delete.
Qed.

Lemma publish_value_ok i m d s :
  mem_ok (ds_store s) (ds_heap s) -> ds_store s !! i = Some d ->
  (mem_type (Z.land (m_flags m) DSF_MASK_TYPE) -> in_use d -> is_mem d) ->
  (anyset (m_flags m) DSF_TYPE_STR = true -> u32 (m_val_len m) <> 0) ->
  wp (publish_value i m) (fun r s' => exists d1, writing i d d1 s s' /\
    (r = OK -> Z.land (m_flags m) DSF_MASK_TYPE ∈ types /\
      (mem_type (Z.land (m_flags m) DSF_MASK_TYPE) -> buffer_ok (ds_heap s') d1 /\ apart (ds_store s) i (d_data d1)) /\
      exists v, published m (ds_world s) v /\ holds (ds_heap s') d1 v)) s.
Proof using L.
  intros Hmem Hi Hin Hlen. unfold publish_value, published. set (t := Z.land (m_flags m) DSF_MASK_TYPE) in *.
  destruct ((t =? DSF_TYPE_U32) || (t =? DSF_TYPE_LABEL)) eqn:Enum.
  { assert (t = DSF_TYPE_U32 \/ t = DSF_TYPE_LABEL) as Ht by (apply orb_true_iff in Enum as [?%Z.eqb_eq|?%Z.eqb_eq]; auto).
    assert (~ mem_type t) as Hnm by (unfold mem_type; destruct Ht as [->| ->]; by intros [|]).
    apply wp_bind, (wp_upd_data i _ d); [done|]. apply wp_ret. exists (set_d_u32 (u32 (m_val_in m)) d).
    split; [by split_and!|]. intros _. split_and!.
    - destruct Ht as [->| ->]; by repeat constructor.
    - done.
    - eexists. case_decide; [done|]. done. }
  destruct ((t =? DSF_TYPE_STR) || (t =? DSF_TYPE_MEM)) eqn:Emem.
  - assert (mem_type t) as Ht by (apply orb_true_iff in Emem as [?%Z.eqb_eq|?%Z.eqb_eq]; [by left|by right]).
    eapply wp_mono; [apply publish_mem_ok; [done..|by apply Hin|done]|].
    intros r s' (d1 & Hw & Hr). exists d1. split; [done|]. intros Hok.
    destruct (Hr Hok) as (Hbuf & Hap & b & w' & Hc & Hh). split_and!.
    + destruct Ht as [->| ->]; by repeat constructor.
    + done.
    + case_decide; [|done]. eexists. split; [by exists b, w'|done].
  - apply wp_ret. exists d. split; [|done]. split_and!; [by rewrite list_insert_id|done..].
Qed.

Lemma tables_insert l h (u : list (subscription RX)) i d d' h' :
  tables_ok l h u -> l !! i = Some d -> entry_ok d' -> others_kept l i h h' ->
  (is_mem d' -> buffer_ok h' d' /\ apart l i (d_data d')) ->
  (is_label d -> is_label d' /\ d_key d' = d_key d) ->
  (is_label d' -> d_u32 d' = RS_PROC_NR -> d_key d' = name_rs) ->
  (is_label d -> d_u32 d = RS_PROC_NR -> d_key d = name_rs -> d_u32 d' = RS_PROC_NR) ->
  tables_ok (<[i := d']> l) h' u.
Proof.
  intros [? ? Hent Hmem Hsub Hrs] Hi Hd' Hkeep Hnew Hlab Hto Hfrom. split; try done.
  - by rewrite length_insert.
  - by apply Forall_insert.
  - by eapply mem_ok_insert.
  - eapply Forall_impl; [done|]. intros p Hp Hu. destruct (Hp Hu) as [? Hl]. split; [done|].
    eapply labelled_insert; [done| |done]. intros Hld <-. by apply Hlab.
  - eapply rs_ok_insert; [done..| |done]. intros H1 H2 H3. split; [by apply Hlab|by apply Hfrom].
Qed.

(** An entry that is not in use stays so. *)
Lemma tables_insert_free l h (u : list (subscription RX)) i d d1 h' :
  tables_ok l h u -> l !! i = Some d -> ~ in_use d -> entry_ok d1 -> ~ in_use d1 -> others_kept l i h h' ->
  tables_ok (<[i := d1]> l) h' u.
Proof.
  intros Ht Hi Hd He Hd1 Hk. eapply tables_insert; try done; by intros [? _].
Qed.

Lemma lookup_entry_Some l k t i :
  lookup_entry l k t = Some i ->
  exists d, l !! i = Some d /\ in_use d /\ anyset (d_flags d) t = true /\ d_key d = k.
Proof.
  intros ((d & Hd & Hp) & _)%find_slot_spec. exists d.
  by apply andb_true_iff in Hp as [[? ?]%andb_true_iff ?%bool_decide_eq_true].
Qed.

(** A publisher that renames no label, and none to that of the reincarnation server. *)
Definition keeps_labels (m : ds_msg) (l : list data_store) (k : bytes) : Prop :=
  anyset (m_flags m) DSF_TYPE_LABEL = true ->
  (forall j d, lookup_label_entry l (u32 (m_val_in m)) = Some j -> l !! j = Some d -> d_key d = k) /\
  (k = name_rs -> u32 (m_val_in m) = RS_PROC_NR).

Lemma publish_slot_ok l m k i :
  Forall entry_ok l -> keeps_labels m l k -> publish_slot l m k = inr i ->
  exists d, l !! i = Some d /\
    (in_use d -> d_key d = k /\ anyset (m_flags m) DSF_OVERWRITE = true /\
       (Z.land (m_flags m) DSF_MASK_TYPE ∈ types -> type_of d = Z.land (m_flags m) DSF_MASK_TYPE)) /\
    (forall j e, (j < i)%nat -> l !! j = Some e -> anyset (d_flags e) DSF_IN_USE &&
       anyset (d_flags e) (Z.land (m_flags m) DSF_MASK_TYPE) && bool_decide (d_key e = k) = false).
Proof.
  intros Hent Hkeep. unfold publish_slot. set (t := Z.land (m_flags m) DSF_MASK_TYPE).
  destruct (lookup_entry l k t) as [j|] eqn:Ej.
  - destruct (lookup_entry_Some _ _ _ _ Ej) as (d & Hd & Hu & Ht & Hk).
    destruct (anyset (m_flags m) DSF_OVERWRITE) eqn:Eo; [|done]. rewrite Hd. case_match; [|done]. intros [= <-].
    exists d. split; [done|]. split.
    + intros _. split_and!; [done..|]. intros Htt.
      destruct (proj1 (Forall_lookup _ _) Hent _ _ Hd) as (_ & _ & Hty & _).
      rewrite (anyset_type _ (type_of d)) in Ht by (try apply Hty; done). by apply bool_decide_eq_true in Ht.
    + intros j' e Hj' He. apply find_slot_spec in Ej as [_ Hmin]. by apply (Hmin j').
  - assert (forall j e, l !! j = Some e ->
       anyset (d_flags e) DSF_IN_USE && anyset (d_flags e) t && bool_decide (d_key e = k) = false) as Hno
      by (intros j e; apply (proj1 (find_slot_None _ _) Ej)).
    destruct (if anyset (m_flags m) DSF_TYPE_LABEL then _ else _) as [j|] eqn:El.
    + destruct (anyset (m_flags m) DSF_TYPE_LABEL) eqn:Elab; [|done].
      destruct (lookup_label_entry_Some _ _ _ Hent El) as (d & Hd & [Hu Hty] & Hnum).
      destruct (anyset (m_flags m) DSF_OVERWRITE) eqn:Eo; [|done]. rewrite Hd. case_match; [|done]. intros [= <-].
      exists d. split; [done|]. split; [|by intros ? ? _; apply Hno].
      intros _. split_and!; [|done|].
      * destruct (Hkeep Elab) as [H1 _]. by eapply H1.
      * intros Htt. rewrite Hty. rewrite (anyset_type _ t) in Elab by (try done; by repeat constructor).
        by apply bool_decide_eq_true in Elab.
    + destruct (alloc_data_slot l) as [j|] eqn:Ea; [|done]. intros [= <-].
      apply find_slot_spec in Ea as ((d & Hd & Hfree) & _). exists d. split; [done|]. split.
      * intros Hu. unfold in_use in Hu. by rewrite Hu in Hfree.
      * intros ? ? _. apply Hno.
Qed.

Definition entry_flags (flags : Z) : Z := Z.lor DSF_IN_USE (Z.land flags DSF_MASK_INTERNAL).

Lemma set_attributes_ok i d flags k src o s Q :
  ds_store s !! i = Some d -> str_ok k -> str_ok o ->
  name_at (<[i := set_d_key k d]> (ds_store s)) src = Some o ->
  Q tt (with_store (<[i := set_d_flags (entry_flags flags) (set_d_owner o (set_d_key k d))]> (ds_store s)) s) ->
  wp (set_attributes i flags k src) Q s.
Proof.
  intros Hi Hk Ho Hn HQ. pose proof (lookup_lt_Some _ _ _ Hi) as Hlt. unfold set_attributes, strcpy, str_ok in *.
  rewrite (proj2 (Z.ltb_lt _ _) Hk). apply wp_bind, wp_ret, wp_bind, (wp_upd_data i _ d); [done|].
  apply wp_bind, wp_gets, wp_bind. apply (wp_deref _ o); [done|].
  rewrite (proj2 (Z.ltb_lt _ _) Ho). apply wp_bind, wp_ret, wp_bind, (wp_upd_data i _ (set_d_key k d)).
  { by apply list_lookup_insert_eq. }
  apply (wp_upd_data i _ (set_d_owner o (set_d_key k d))).
  { cbn. rewrite list_insert_insert_eq. by apply list_lookup_insert_eq. }
  cbn. by rewrite !list_insert_insert_eq.
Qed.

Lemma name_at_insert l i d d1 e n :
  Forall entry_ok l -> l !! i = Some d -> (in_use d -> d_key d1 = d_key d) ->
  ds_getprocname l e = Some n -> name_at (<[i := d1]> l) n = name_at l n.
Proof.
  intros Hent Hi Hk. unfold ds_getprocname. case_match; [by intros [= <-]|].
  destruct (lookup_label_entry l (u32 e)) as [j|] eqn:Ej; cbn; [|done]. intros [= <-].
  destruct (lookup_label_entry_Some _ _ _ Hent Ej) as (dj & Hj & [Hu _] & _). cbn.
  destruct (decide (j = i)) as [->|Hne]; [|by rewrite list_lookup_insert_ne].
  rewrite list_lookup_insert_eq by (by eapply lookup_lt_Some). assert (dj = d) as -> by congruence.
  rewrite Hi. cbn. by rewrite Hk.
Qed.

(** An entry that is no label does not change the names of processes. *)
Lemma procname_insert l i d d' e :
  Forall entry_ok l -> l !! i = Some d -> entry_ok d' -> ~ is_label d -> ~ is_label d' ->
  procname (<[i := d']> l) e = procname l e.
Proof.
  intros Hent Hi Hd' Hl Hl'. unfold procname, ds_getprocname. case_match; [done|].
  assert (lookup_label_entry (<[i := d']> l) (u32 e) = lookup_label_entry l (u32 e)) as ->.
  { assert (forall x, entry_ok x -> ~ is_label x ->
      anyset (d_flags x) DSF_IN_USE && anyset (d_flags x) DSF_TYPE_LABEL && (d_u32 x =? u32 e) = false) as Hf.
    { intros x Hx Hn. apply andb_false_iff. left. apply not_true_iff_false. by rewrite is_label_test. }
    eapply find_slot_insert_false; [done|apply Hf|by apply Hf]; [|done]. by eapply (proj1 (Forall_lookup _ _) Hent). }
  destruct (lookup_label_entry l (u32 e)) as [j|] eqn:Ej; cbn; [|done].
  destruct (lookup_label_entry_Some _ _ _ Hent Ej) as (dj & Hj & Hlj & _).
  rewrite list_lookup_insert_ne; [done|]. intros <-. congruence.
Qed.

(** The entry that a successful request has written is the one that is found under its key. *)
Definition publishes (m : ds_msg) s (s' : ds_state W RX) : Prop :=
  exists i d k w v,
    get_key_name m s = Ok (inr k, with_ds_world w s) /\ published m w v /\
    lookup_entry (ds_store s') k (Z.land (m_flags m) DSF_MASK_TYPE) = Some i /\ ds_store s' !! i = Some d /\
    d_flags d = entry_flags (m_flags m) /\ procname (ds_store s) (m_source m) = Some (d_owner d) /\
    (Z.land (m_flags m) DSF_MASK_TYPE <> DSF_TYPE_LABEL -> procname (ds_store s') (m_source m) = Some (d_owner d)) /\
    holds (ds_heap s') d v /\ Z.land (m_flags m) DSF_MASK_TYPE ∈ types.

Definition publish_ok (m : ds_msg) s : Prop :=
  (anyset (m_flags m) DSF_TYPE_STR = true -> u32 (m_val_len m) <> 0) /\
  key_sat m s (keeps_labels m (ds_store s)).

(** An overwritten entry is lost when the request fails. *)
Definition settled (m : ds_msg) (r : ecode) : Prop := anyset (m_flags m) DSF_OVERWRITE = true -> r = OK.

(** The entry [i] after the attributes are set. *)
Lemma published_entry_ok m l h u k o i d d1 h' v w :
  tables_ok (RX := RX) l h u -> keeps_labels m l k -> l !! i = Some d ->
  str_ok k -> procname l (m_source m) = Some o ->
  (anyset (m_flags m) DSF_TYPE_LABEL = true -> m_source m = RS_PROC_NR) ->
  (in_use d -> d_key d = k /\ type_of d = Z.land (m_flags m) DSF_MASK_TYPE) ->
  Z.land (m_flags m) DSF_MASK_TYPE ∈ types -> others_kept l i h h' ->
  (mem_type (Z.land (m_flags m) DSF_MASK_TYPE) -> buffer_ok h' d1 /\ apart l i (d_data d1)) ->
  published m w v -> holds h' d1 v ->
  let d' := set_d_flags (entry_flags (m_flags m)) (set_d_owner o (set_d_key k d1)) in
  in_use d' /\ type_of d' = Z.land (m_flags m) DSF_MASK_TYPE /\ entry_ok d' /\ tables_ok (<[i := d']> l) h' u.
Proof.
  intros Ht Hkeep Hi Hk Ho Hsrc Hin Hty Hoth Hmem Hpub Hh d'. pose proof Ht as [_ _ Hent _ _ Hrs].
  assert (in_use d') as Hu by apply stored_in_use.
  assert (type_of d' = Z.land (m_flags m) DSF_MASK_TYPE) as Htd by apply stored_type.
  assert (forall x, type_of x = Z.land (m_flags m) DSF_MASK_TYPE -> is_label x ->
    anyset (m_flags m) DSF_TYPE_LABEL = true) as Hflag.
  { intros x Hx [_ Hxl]. rewrite (anyset_type _ DSF_TYPE_LABEL); [done|by repeat constructor..|congruence]. }
  assert (is_label d' -> d_u32 d' = u32 (m_val_in m)) as Hnum.
  { intros [_ Hl]. unfold published in Hpub. case_decide as Hm.
    - exfalso. rewrite <- Htd, Hl in Hm. by destruct Hm.
    - subst v. done. }
  assert (entry_ok d') as Hd'.
  { split_and!; [done|by eapply procname_str_ok|by rewrite Htd|].
    intros Hl. specialize (Hsrc (Hflag _ Htd Hl)). rewrite Hsrc in Ho. unfold rs_ok in Hrs. cbn. congruence. }
  split_and!; [done..|]. eapply tables_insert; [done..| | | |].
  - intros [_ Hm]. apply Hmem. by rewrite <- Htd.
  - intros [Hud Hld]. destruct (Hin Hud) as [? Hdt]. split; [|done]. split; [done|congruence].
  - intros Hl Hn. destruct (Hkeep (Hflag _ Htd Hl)) as [Hname _].
    apply rs_ok_first in Hrs as (j & e & Hj & He & <-); [|done].
    cbn. symmetry. eapply Hname; [|done]. by rewrite <- (Hnum Hl), Hn.
  - intros [Hud Hld] Hn Hkd. destruct (Hin Hud) as [Hk' Hdt].
    assert (is_label d') as Hl by (split; [done|congruence]).
    rewrite (Hnum Hl). destruct (Hkeep (Hflag _ Htd Hl)) as [_ Hrsn]. apply Hrsn. congruence.
Qed.


(** The end of a publication whose value has been written. *)
Lemma publish_end_ok m s s1 i k src o d d1 v w :
  ds_inv s -> keeps_labels m (ds_store s) k -> ds_store s !! i = Some d -> str_ok k ->
  ds_getprocname (ds_store s) (m_source m) = Some src -> procname (ds_store s) (m_source m) = Some o ->
  name_at (ds_store s) src = Some o ->
  (anyset (m_flags m) DSF_TYPE_LABEL = true -> m_source m = RS_PROC_NR) ->
  (in_use d -> d_key d = k /\ type_of d = Z.land (m_flags m) DSF_MASK_TYPE) ->
  (forall j e, (j < i)%nat -> ds_store s !! j = Some e -> anyset (d_flags e) DSF_IN_USE &&
     anyset (d_flags e) (Z.land (m_flags m) DSF_MASK_TYPE) && bool_decide (d_key e = k) = false) ->
  Z.land (m_flags m) DSF_MASK_TYPE ∈ types -> writing i d d1 s s1 ->
  (mem_type (Z.land (m_flags m) DSF_MASK_TYPE) -> buffer_ok (ds_heap s1) d1 /\ apart (ds_store s) i (d_data d1)) ->
  get_key_name m s = Ok (inr k, with_ds_world w s) -> published m w v -> holds (ds_heap s1) d1 v ->
  wp (set_attributes i (m_flags m) k src;; update_subscribers i true;; mret OK)
    (fun r s' => ds_inv s' /\ publishes m s s') s1.
Proof using L.
  intros Hinv Hkl Hi Hk Esrc Ho Hno Hrsrc Hin Hfirst Hty (Hs1 & Hsub1 & Hf1 & Hk1 & Ho1 & Hoth) Hbuf Hgk Hpub Hh.
  pose proof (t_entries _ _ _ Hinv) as Hent. pose proof (lookup_lt_Some _ _ _ Hi) as Hlt.
  destruct (published_entry_ok m _ _ _ k o i d d1 (ds_heap s1) v w Hinv Hkl Hi Hk Ho Hrsrc Hin Hty Hoth Hbuf Hpub Hh)
    as (Hud' & Htd' & Hd' & Hinv'). set (d' := set_d_flags _ _) in *.
  apply wp_bind, (set_attributes_ok i d1 _ _ _ o).
  - by rewrite Hs1, list_lookup_insert_eq.
  - done.
  - by eapply procname_str_ok.
  - rewrite Hs1, list_insert_insert_eq. erewrite name_at_insert; [exact Hno|exact Hent|exact Hi| |exact Esrc].
    intros Hud. cbn. symmetry. by apply Hin.
  - fold d'. rewrite Hs1, list_insert_insert_eq.
    apply wp_bind. eapply wp_mono.
    { pose proof Hinv' as [? ? ? ? ? ?]. apply update_subscribers_ok; cbn; rewrite ?Hsub1; try done. by rewrite length_insert. }
    intros [] s2 Hq. pose proof Hq as (Hs2 & Hh2 & _). cbn in Hs2, Hh2. apply wp_ret. split.
    { eapply quiet_inv; [exact Hq|]. unfold ds_inv. cbn. by rewrite Hsub1. }
    exists i, d', k, w, v. rewrite Hs2, Hh2. split_and!; try done.
    + apply find_slot_spec. split.
      * exists d'. split; [by apply list_lookup_insert_eq|]. rewrite Hud', <- Htd'. cbn.
        rewrite bool_decide_true by done. rewrite (anyset_type _ (type_of d') (type_of d')); [|by rewrite Htd'..|done].
        by rewrite bool_decide_true.
      * intros j e Hj [[-> ->]|[_ He]]%lookup_insert_cases; [lia|]. by eapply Hfirst.
    + by apply list_lookup_insert_eq.
    + intros Hnl. erewrite procname_insert; [exact Ho|exact Hent|exact Hi|exact Hd'| |].
      * intros [Hud Hdl']. destruct (Hin Hud). congruence.
      * intros [_ Hdl']. congruence.
Qed.

Lemma do_publish_ok m s :
  ds_inv s -> publish_ok m s ->
  wp (do_publish m) (fun r s' => (settled m r -> ds_inv s') /\ (r = OK -> publishes m s s')) s.
Proof using L.
  intros Hinv [Hstr Hkey]. pose proof Hinv as [Hl Hu Hent Hmem Hsub Hrs].
  unfold do_publish. apply wp_bind, wp_gets.
  destruct (ds_getprocname (ds_store s) (m_source m)) as [src|] eqn:Esrc; [|by apply wp_ret].
  destruct (getprocname_name _ _ _ Hent Esrc) as (o & Hno & Ho).
  destruct (anyset (m_flags m) DSF_TYPE_LABEL && negb (m_source m =? RS_PROC_NR)) eqn:Elab; [by apply wp_ret|].
  assert (anyset (m_flags m) DSF_TYPE_LABEL = true -> m_source m = RS_PROC_NR) as Hrsrc.
  { intros Hlab. rewrite Hlab in Elab. by apply negb_false_iff, Z.eqb_eq in Elab. }
  apply wp_bind. eapply get_key_name_ok; [exact Hkey|..].
  { intros r s' Hq _ Hr. apply wp_ret. split; [by intros _; eapply quiet_inv|done]. }
  intros k w Hkl Hk Hgk. cbn. change (ds_store (with_ds_world w s)) with (ds_store s).
  destruct (publish_slot (ds_store s) m k) as [r|i] eqn:Eslot.
  { apply wp_ret. split; [done|]. intros ->. unfold publish_slot in Eslot. repeat case_match; by simplify_eq. }
  destruct (publish_slot_ok _ _ _ _ Hent Hkl Eslot) as (d & Hi & Hin & Hfirst).
  apply wp_bind. eapply wp_mono; [apply publish_value_ok; [exact Hmem|exact Hi| |exact Hstr]|].
  { intros Hm Hud. split; [done|]. destruct (Hin Hud) as (_ & _ & Hty). rewrite Hty; [done|].
    destruct Hm as [->| ->]; by repeat constructor. }
  intros r s1 (d1 & Hw & Hr). pose proof Hw as (Hs1 & Hsub1 & Hf1 & Hk1 & Ho1 & Hoth). cbn in Hs1, Hsub1, Hoth.
  case_bool_decide as Er; cbn.
  - subst r. destruct (Hr eq_refl) as (Hty & Hbuf & v & Hpub & Hh).
    eapply wp_mono; [eapply publish_end_ok; try done|by intros r s2 [? ?]].
    intros Hud. destruct (Hin Hud) as (? & _ & ?). auto.
  - apply wp_ret. split; [|done]. intros Hset. unfold settled in Hset.
    assert (~ in_use d) as Hnu.
    { intros Hud. destruct (Hin Hud) as (_ & Hov & _). by apply Er, Hset. }
    unfold ds_inv. rewrite Hs1, Hsub1.
    eapply tables_insert_free; [exact Hinv|exact Hi|exact Hnu| |by unfold in_use; rewrite Hf1|exact Hoth].
    apply (proj1 (Forall_lookup _ _) Hent) in Hi. revert Hi.
    unfold entry_ok, is_label, in_use, type_of. by rewrite Hf1, Hk1, Ho1.
Qed.

(** ** Retrieving *)

(** What a retrieval makes of a value: a number in the reply, or bytes copied out,
    no more than there are and than the client has room for. *)
Definition hand_over (m : ds_msg) (v : ds_value) (w : W) s : result (ecode * ds_reply * ds_state W RX) :=
  match v with
  | value_num n =>
      Ok ((OK, reply_val (if Z.land (m_flags m) DSF_MASK_TYPE =? DSF_TYPE_LABEL then i32 n else n)), with_ds_world w s)
  | value_bytes b =>
      let n := Z.min (u32 (m_val_len m)) (Z.of_nat (length b)) in
      match sys_safecopyto (m_source m) (m_val_in m) (take (Z.to_nat n) b) w with
      | Ok (r, w') => Ok ((r, if bool_decide (r = OK) then reply_len (i32 n) else no_reply), with_ds_world w' s)
      | Err f => Err f
      end
  end.

Lemma retrieve_value_run m d v s :
  Z.land (m_flags m) DSF_MASK_TYPE ∈ types ->
  (exists m0 w0, Z.land (m_flags m0) DSF_MASK_TYPE = Z.land (m_flags m) DSF_MASK_TYPE /\ published m0 w0 v) ->
  holds (ds_heap s) d v -> retrieve_value d m s = hand_over m v (ds_world s) s.
Proof.
  intros Ht (m0 & w0 & Em & Hpub) Hh. unfold published in Hpub. rewrite Em in Hpub.
  unfold retrieve_value, hand_over. set (t := Z.land (m_flags m) DSF_MASK_TYPE) in *.
  assert (with_ds_world (ds_world s) s = s) as Hw by (by destruct s).
  case_decide as Hm.
  - destruct Hpub as (b & w' & _ & ->). destruct Hh as (Hlen & k & Hk & Hb). cbn in Hlen, Hb.
    replace ((t =? DSF_TYPE_STR) || (t =? DSF_TYPE_MEM)) with true by (destruct Hm as [->| ->]; done).
    replace (t =? DSF_TYPE_U32) with false by (destruct Hm as [->| ->]; done).
    replace (t =? DSF_TYPE_LABEL) with false by (destruct Hm as [->| ->]; done).
    set (b' := stored (m_flags m0) b) in *. rewrite Hlen. set (n := Z.min _ _).
    assert (0 <= n <= Z.of_nat (length b')) as Hn by (pose proof (u32_nonneg (m_val_len m)); lia).
    assert (length b' <= length (bdata k))%nat as Hle.
    { rewrite <- Hb at 1. rewrite length_take. lia. }
    erewrite bind_ok.
    2:{ unfold read_block, mbind, M_bind, gets. cbn. rewrite Hk. cbn.
        rewrite (proj2 (Z.leb_le _ _)) by lia. reflexivity. }
    replace (take (Z.to_nat n) (bdata k)) with (take (Z.to_nat n) b').
    2:{ rewrite <- Hb. rewrite take_take. f_equal. lia. }
    unfold outside, mbind, M_bind, gets. cbn. destruct (sys_safecopyto _ _ _ _) as [[r w1]|f]; [|done]. cbn.
    case_bool_decide; by subst.
  - subst v. cbn in Hh. rewrite Hw. rewrite Hh.
    apply elem_of_cons in Ht as [->|Ht]; [done|].
    apply elem_of_cons in Ht as [->|Ht]; [by exfalso; apply Hm; left|].
    apply elem_of_cons in Ht as [->|Ht]; [by exfalso; apply Hm; right|].
    by apply list_elem_of_singleton in Ht as ->.
Qed.

Lemma do_retrieve_ok m s :
  ds_inv s -> key_sat m s (fun _ => True) -> wp (do_retrieve m) (fun _ s' => ds_inv s') s.
Proof using L.
  intros Hinv Hkey. pose proof Hinv as [_ _ Hent [Hbuf _] _ _]. unfold do_retrieve. apply wp_bind.
  eapply get_key_name_ok; [exact Hkey|intros r s' Hq _ _; apply wp_ret; by eapply quiet_inv|].
  intros k w _ _ _. apply wp_bind, wp_gets.
  change (ds_store (with_ds_world w s)) with (ds_store s).
  destruct (lookup_entry (ds_store s) k _) as [i|] eqn:Ei; [|by apply wp_ret].
  destruct (lookup_entry_Some _ _ _ _ Ei) as (d & Hd & Hu & Ht & _).
  apply wp_bind, (wp_get_data i d); [done|]. case_match; [by apply wp_ret|].
  unfold retrieve_value. do 2 (case_match; [by apply wp_ret|]). case_match eqn:Em; [|by apply wp_ret].
  assert (is_mem d) as Hm.
  { split; [done|]. destruct (proj1 (Forall_lookup _ _) Hent _ _ Hd) as (_ & _ & Hty & _).
    unfold mem_type. apply orb_true_iff in Em as [Em%Z.eqb_eq|Em%Z.eqb_eq]; rewrite Em in Ht;
      rewrite (anyset_type _ (type_of d)) in Ht by (try (by apply Hty); try done; by repeat constructor);
      apply bool_decide_eq_true in Ht; auto. }
  destruct (Hbuf _ _ Hd Hm) as (kb & Hkb & _ & _ & Hlen & Hwr).
  apply wp_bind. unfold read_block. apply wp_bind, wp_gets, wp_bind, (wp_deref _ kb); [done|].
  rewrite (proj2 (Z.leb_le _ _)) by lia. apply wp_ret, wp_bind, wp_copyto.
  intros r w' _. case_bool_decide; by apply wp_ret.
Qed.

Lemma do_retrieve_label_ok m s : ds_inv s -> wp (do_retrieve_label m) (fun _ s' => ds_inv s') s.
Proof using L.
  intros Hinv. unfold do_retrieve_label. apply wp_bind, wp_gets.
  destruct (lookup_label_entry (ds_store s) _) as [i|] eqn:Ei; [|by apply wp_ret].
  destruct (lookup_label_entry_Some _ _ _ (t_entries _ _ _ Hinv) Ei) as (d & Hd & _).
  apply wp_bind, (wp_get_data i d); [done|]. apply wp_bind, wp_copyto. intros r w _. by apply wp_ret.
Qed.

(** ** Subscribing *)

Lemma tables_insert_sub l h (u : list (subscription RX)) i p :
  tables_ok l h u -> sub_ok l p -> tables_ok l h (<[i := p]> u).
Proof. intros [? ? ? ? ? ?] Hp. split; try done; [by rewrite length_insert|by apply Forall_insert]. Qed.

Lemma check_sub_match_ok l p d ep s :
  is_Some (s_regex p) -> wp (check_sub_match l p d ep) (fun _ s' => s' = s) s.
Proof. intros [rx Hrx]. unfold check_sub_match. rewrite Hrx. case_match; by wp_steps. Qed.

Lemma initial_list_ok i p t ep l found s :
  ds_subs s !! i = Some p -> is_Some (s_regex p) -> Forall (fun j => (j < length (ds_store s))%nat) l ->
  wp (initial_list i t ep l found) (fun _ s' => quiet s s') s.
Proof.
  intros Hp Hrx Hl. revert found s p Hp Hrx Hl. induction l as [|j l IH]; intros found s p Hp Hrx Hl; [by apply wp_ret|].
  inversion_clear Hl as [|? ? [d Hd]%lookup_lt_is_Some Hl']. cbn. apply wp_bind. unfold initial_match.
  apply wp_bind, wp_gets, wp_bind, (wp_get_data j d); [done|].
  assert (forall f, wp (initial_list i t ep l f) (fun _ s' => quiet s s') s) as Hskip by (intros f; by eapply IH).
  do 2 (case_match; [by apply wp_ret|]).
  apply wp_bind, (wp_get_sub i p); [done|]. apply wp_bind.
  eapply wp_mono; [by apply check_sub_match_ok|]. intros [] s' ->; cbn; [|by apply wp_ret].
  apply wp_bind, (wp_upd_sub i _ p); [done|]. apply wp_ret.
  eapply wp_mono; [eapply IH|].
  - cbn. apply list_lookup_insert_eq. by eapply lookup_lt_Some.
  - done.
  - done.
  - intros b s' Hq. eapply ds_quiet_trans; [|exact Hq]. split_and!; [done..|]. by apply (same_subs_insert _ _ p).
Qed.

Lemma subscribe_slot_ok (u : list (subscription RX)) o flags i :
  subscribe_slot u o flags = inr i ->
  exists p, u !! i = Some p /\ (sub_in_use p -> anyset flags DSF_OVERWRITE = true).
Proof.
  unfold subscribe_slot. destruct (lookup_sub u o) as [j|] eqn:Ej.
  - apply find_slot_spec in Ej as ((p & Hp & _) & _).
    destruct (anyset flags DSF_OVERWRITE); cbn; [|done]. intros [= <-]. by exists p.
  - destruct (alloc_sub_slot u) as [j|] eqn:Ea; [|done]. intros [= <-].
    apply find_slot_spec in Ea as ((p & Hp & Hf) & _). exists p. split; [done|].
    unfold sub_in_use. intros Hu. by rewrite Hu in Hf.
Qed.

Lemma procname_labelled l e o :
  Forall entry_ok l -> e <> DS_PROC_NR -> procname l e = Some o -> labelled l o.
Proof.
  intros Hent He. unfold procname, ds_getprocname. rewrite (proj2 (Z.eqb_neq _ _)) by done.
  destruct (lookup_label_entry l (u32 e)) as [j|] eqn:Ej; cbn; [|done].
  destruct (lookup_label_entry_Some _ _ _ Hent Ej) as (d & Hd & Hl & _). rewrite Hd. intros [= <-].
  by exists j, d.
Qed.

Lemma do_subscribe_ok m s :
  ds_inv s -> key_sat m s (fun _ => True) -> m_source m <> DS_PROC_NR ->
  wp (do_subscribe m) (fun r s' => settled m r -> ds_inv s') s.
Proof using L.
  intros Hinv Hkey Hsrc. pose proof Hinv as [Hl Hu Hent Hmem Hsub Hrs]. unfold do_subscribe.
  apply wp_bind, wp_gets. destruct (procname (ds_store s) (m_source m)) as [o|] eqn:Eo; [|by apply wp_ret].
  pose proof (procname_str_ok _ _ _ Hent Eo) as Hos. unfold str_ok in Hos.
  pose proof (procname_labelled _ _ _ Hent Hsrc Eo) as Hlab.
  apply wp_bind, wp_gets. destruct (subscribe_slot (ds_subs s) o (m_flags m)) as [r|i] eqn:Es; [by apply wp_ret|].
  destruct (subscribe_slot_ok _ _ _ _ Es) as (p & Hp & Hov). pose proof (lookup_lt_Some _ _ _ Hp) as Hlt.
  apply wp_bind. eapply get_key_name_ok; [exact Hkey|intros r s' Hq _ _; apply wp_ret; intros _; by eapply quiet_inv|].
  intros k w _ _ _. cbv zeta. apply wp_bind, (wp_upd_sub i _ p); [done|].
  destruct (regcomp ([94] ++ k ++ [36])) as [rx|].
  - unfold strcpy. rewrite (proj2 (Z.ltb_lt _ _) Hos).
    apply wp_bind, wp_ret, wp_bind. eapply wp_upd_sub; [by apply list_lookup_insert_eq|].
    cbn [with_subs with_ds_world ds_subs ds_store ds_heap ds_world s_regex].
    rewrite list_insert_insert_eq. set (p' := mk_subscription _ _ _ _). apply wp_bind.
    eapply (wp_mono _ (fun _ s' => ds_inv s')); [|by intros ? s' ?; apply wp_ret].
    assert (tables_ok (ds_store s) (ds_heap s) (<[i := p']> (ds_subs s))) as Hinv'.
    { apply tables_insert_sub; [done|]. intros _. by split. }
    apply wp_when; [intros _|done]. apply wp_bind.
    eapply wp_mono; [apply (initial_list_ok i p'); [by apply list_lookup_insert_eq|done|]|].
    { apply Forall_forall. intros j Hj%elem_of_seq. cbn [with_subs with_ds_world ds_store]. rewrite Hl. lia. }
    intros found s' Hq. assert (ds_inv s') as Hs' by (eapply quiet_inv; [exact Hq|exact Hinv']).
    apply wp_when; [intros _; by apply wp_notify|done].
  - apply wp_ret. intros Hset. unfold settled in Hset. apply tables_insert_sub; [done|].
    intros Hu'. unfold sub_in_use in Hov, Hu'. cbn in Hu'. specialize (Hset (Hov Hu')). done.
Qed.

(** ** Checking for updates *)

(** The entries marked in bitmaps have owners that have labels. *)
Definition check_ok s : Prop :=
  forall p i d, p ∈ ds_subs s -> sub_in_use p -> GET_BIT (s_old_subs p) i = true ->
    ds_store s !! i = Some d -> labelled (ds_store s) (d_owner d).

Lemma ds_getprocep_ok k (Q : Z -> ds_state W RX -> Prop) s :
  Forall entry_ok (ds_store s) -> labelled (ds_store s) k -> (forall e, Q e s) -> wp (ds_getprocep k) Q s.
Proof.
  intros Hent Hlab HQ. destruct (labelled_lookup _ _ Hent Hlab) as (i & d & Ei & Hi).
  unfold ds_getprocep. apply wp_bind, wp_gets. rewrite Ei. apply wp_bind, (wp_get_data i d); [done|]. by apply wp_ret.
Qed.

Lemma do_check_ok m s : ds_inv s -> check_ok s -> wp (do_check m) (fun _ s' => ds_inv s') s.
Proof using L.
  intros Hinv Hchk. pose proof Hinv as [Hl _ Hent _ _ _]. unfold do_check. apply wp_bind, wp_gets.
  destruct (procname (ds_store s) (m_source m)) as [o|]; [|by apply wp_ret].
  apply wp_bind, wp_gets. destruct (lookup_sub (ds_subs s) o) as [j|] eqn:Ej; [|by apply wp_ret].
  apply find_slot_spec in Ej as ((p & Hp & Hu) & _). apply andb_true_iff in Hu as [Hu _].
  apply wp_bind, (wp_get_sub j p); [done|].
  destruct (find_slot _ 0 (seq 0 NR_DS_KEYS)) as [i|] eqn:Ei; [|by apply wp_ret].
  apply find_slot_spec in Ei as ((i' & Hi' & Hbit) & _). apply lookup_seq in Hi' as [-> Hlt]. cbn in Hbit.
  destruct (lookup_lt_is_Some_2 (ds_store s) i) as [d Hd]; [by rewrite Hl|].
  apply wp_bind, (wp_get_data i d); [done|]. apply wp_bind, wp_copyto. intros r w _.
  case_bool_decide; cbn; [|by apply wp_ret].
  apply wp_bind, ds_getprocep_ok; [done| |].
  { eapply (Hchk p); [by eapply list_elem_of_lookup_2|done..]. }
  intros e. apply wp_bind, (wp_upd_sub j _ p); [done|]. apply wp_ret.
  eapply tables_ok_same; [|exact Hinv]. by apply (same_subs_insert _ _ p).
Qed.

(** ** Deleting *)

Lemma cleared_free d : ~ in_use (set_d_flags 0 d).
Proof. done. Qed.
Lemma cleared_label d : ~ is_label (set_d_flags 0 d).
Proof. by intros [? _]. Qed.

(** An entry may be cleared unless it is the label of the reincarnation server or of a subscriber. *)
Lemma tables_clear l h (u : list (subscription RX)) i d h' :
  tables_ok l h u -> l !! i = Some d -> others_kept l i h h' ->
  (is_label d -> d_key d <> name_rs /\ forall p, p ∈ u -> sub_in_use p -> s_owner p <> d_key d) ->
  tables_ok (<[i := set_d_flags 0 d]> l) h' u.
Proof.
  intros [? ? Hent Hmem Hsub Hrs] Hi Hkeep Hlab.
  assert (entry_ok (set_d_flags 0 d)) as Hd'.
  { destruct (proj1 (Forall_lookup _ _) Hent _ _ Hi) as (? & ? & _). split_and!; [done..| |]; [by intros ?%cleared_free|by intros ?%cleared_label]. }
  split; try done.
  - by rewrite length_insert.
  - by apply Forall_insert.
  - eapply mem_ok_insert; [done..|]. by intros [?%cleared_free _].
  - apply Forall_forall. intros p Hp Hu. destruct (proj1 (Forall_forall _ _) Hsub p Hp Hu) as [? Hl].
    split; [done|]. eapply labelled_insert; [done| |done].
    intros Hld Hk. destruct (Hlab Hld) as [_ Hno]. by destruct (Hno p Hp Hu).
  - eapply rs_ok_insert; [done..| | |done]; [by intros ?%cleared_label|].
    intros Hld _ Hk. by destruct (Hlab Hld) as [? _].
Qed.

(** Clearing an entry whose subscribers are told first. *)
Lemma clear_entry_ok i d h0 s :
  tables_ok (ds_store s) h0 (ds_subs s) -> ds_store s !! i = Some d ->
  others_kept (ds_store s) i h0 (ds_heap s) ->
  (is_label d -> d_key d <> name_rs /\ forall p, p ∈ ds_subs s -> sub_in_use p -> s_owner p <> d_key d) ->
  wp (update_subscribers i false;; upd_data i (set_d_flags 0))
    (fun _ s' => ds_inv s' /\ ds_store s' = <[i := set_d_flags 0 d]> (ds_store s) /\
       same_subs (ds_subs s) (ds_subs s')) s.
Proof using L.
  intros Hinv Hi Hkeep Hlab. pose proof Hinv as [? ? ? ? ? ?].
  apply wp_bind. eapply wp_mono; [apply update_subscribers_ok; try done; by eapply lookup_lt_Some|].
  intros [] s1 (Hs & Hh & Hv). apply (wp_upd_data i _ d); [by rewrite Hs|].
  unfold ds_inv. cbn. rewrite Hs, Hh. split_and!; [|done|done].
  eapply tables_ok_same; [exact Hv|]. by eapply tables_clear.
Qed.

(** The label [k] without subscriptions; its entries on the way to be cleared. *)
Definition unsubscribed (k : bytes) s : Prop :=
  forall p, p ∈ ds_subs s -> sub_in_use p -> s_owner p <> k.

Lemma delete_subs_ok k s :
  ds_inv s ->
  wp (foreach (seq 0 NR_DS_SUBS) (delete_subs_of k))
    (fun _ s' => ds_inv s' /\ ds_store s' = ds_store s /\ unsubscribed k s') s.
Proof.
  intros Hinv. set (I := fun j s' => ds_inv s' /\ ds_store s' = ds_store s /\
    forall i p, (i < j)%nat -> ds_subs s' !! i = Some p -> sub_in_use p -> s_owner p <> k).
  eapply wp_mono; [apply (wp_foreach_seq I 0 NR_DS_SUBS)|].
  - split_and!; [done..|]. intros. lia.
  - intros i s1 [_ Hi] (Hinv1 & Hs1 & Hdone). cbn in Hi.
    destruct (lookup_lt_is_Some_2 (ds_subs s1) i) as [p Hp]; [by rewrite (t_nsubs _ _ _ Hinv1)|].
    unfold delete_subs_of. apply wp_bind, (wp_get_sub i p); [done|].
    apply wp_when; intros Htest.
    + apply (wp_upd_sub i _ p); [done|]. split_and!; [|done|].
      * by apply tables_insert_sub; [|intros [=]].
      * intros j p' Hj [[-> ->]|[Hne Hj']]%lookup_insert_cases Hu; [done|]. apply (Hdone j p'); [lia|done..].
    + split_and!; [done..|]. intros j p' Hj Hj' Hu Ho. destruct (decide (j = i)) as [->|Hne].
      * assert (p' = p) as -> by congruence. apply andb_false_iff in Htest as [Ht|Ht]; [congruence|].
        by apply bool_decide_eq_false in Ht.
      * apply (Hdone j p'); [lia|done..].
  - intros [] s1 (Hinv1 & Hs1 & Hdone). split_and!; [done..|].
    intros p [j Hj]%list_elem_of_lookup. eapply Hdone; [|exact Hj].
    rewrite Nat.add_0_l, <- (t_nsubs _ _ _ Hinv1). by eapply lookup_lt_Some.
Qed.

Lemma unsubscribed_same k s s' :
  same_subs (ds_subs s) (ds_subs s') -> unsubscribed k s -> unsubscribed k s'.
Proof.
  intros Hv Hu p [j Hj]%list_elem_of_lookup Hp. destruct (same_subs_lookup _ _ _ _ Hv Hj) as (p0 & H0 & Hv0).
  injection Hv0 as Hf Ho Hr. rewrite Ho. apply Hu; [by eapply list_elem_of_lookup_2|].
  unfold sub_in_use in *. congruence.
Qed.

(** The entry [i] keeps its key. *)
Lemma delete_data_ok k i s :
  ds_inv s -> unsubscribed k s -> k <> name_rs -> d_key <$> ds_store s !! i = Some k ->
  wp (foreach (seq 0 NR_DS_KEYS) (delete_data_of k))
    (fun _ s' => ds_inv s' /\ unsubscribed k s' /\ d_key <$> ds_store s' !! i = Some k) s.
Proof using L.
  intros Hinv Hu Hk Hi. apply wp_foreach; [done|].
  intros j s1 Hj%elem_of_seq (Hinv1 & Hu1 & Hi1).
  destruct (lookup_lt_is_Some_2 (ds_store s1) j) as [d Hd]; [rewrite (t_keys _ _ _ Hinv1); lia|].
  unfold delete_data_of. apply wp_bind, (wp_get_data j d); [done|].
  apply wp_when; intros Htest; [|done]. apply andb_true_iff in Htest as [Hud Ho%bool_decide_eq_true].
  eapply wp_mono; [eapply (clear_entry_ok j d); [exact Hinv1|exact Hd|apply others_kept_refl|]|].
  - intros Hl. destruct (proj1 (Forall_lookup _ _) (t_entries _ _ _ Hinv1) _ _ Hd) as (_ & _ & _ & Hrs).
    specialize (Hrs Hl). congruence.
  - intros [] s2 (Hinv2 & Hs2 & Hv). split_and!; [done|by eapply unsubscribed_same|].
    rewrite Hs2. destruct (decide (j = i)) as [->|Hne]; [|by rewrite list_lookup_insert_ne].
    rewrite list_lookup_insert_eq by (by eapply lookup_lt_Some). by rewrite Hd in Hi1.
Qed.

Lemma clear_end_ok i d h0 s :
  tables_ok (ds_store s) h0 (ds_subs s) -> ds_store s !! i = Some d ->
  others_kept (ds_store s) i h0 (ds_heap s) ->
  (is_label d -> d_key d <> name_rs /\ unsubscribed (d_key d) s) ->
  wp (update_subscribers i false;; upd_data i (set_d_flags 0);; mret OK) (fun _ s' => ds_inv s') s.
Proof using L.
  intros Hinv Hi Hk Hl. pose proof (clear_entry_ok i d h0 s Hinv Hi Hk Hl) as Hc.
  apply wp_bind_inv in Hc. apply wp_bind. eapply wp_mono; [exact Hc|]. intros [] s2 Hc2.
  apply wp_bind. eapply wp_mono; [exact Hc2|]. intros [] s3 [? _]. by apply wp_ret.
Qed.

(** A label goes with its subscriptions and the entries it owns. *)
Lemma delete_label_ok i d s :
  ds_inv s -> ds_store s !! i = Some d -> d_key d <> name_rs ->
  wp (foreach (seq 0 NR_DS_SUBS) (delete_subs_of (d_key d));;
      foreach (seq 0 NR_DS_KEYS) (delete_data_of (d_key d));; mret OK)
    (fun r s' => r = OK /\
       wp (update_subscribers i false;; upd_data i (set_d_flags 0);; mret OK) (fun _ s'' => ds_inv s'') s') s.
Proof using L.
  intros Hinv Hd Hk.
  apply wp_bind. eapply wp_mono; [by apply delete_subs_ok|]. intros [] s1 (Hinv1 & Hs1 & Hu1).
  apply wp_bind. eapply wp_mono; [apply (delete_data_ok _ i); [done..|]|].
  { rewrite Hs1. cbn. by rewrite Hd. }
  intros [] s2 (Hinv2 & Hu2 & Hi2). apply wp_ret. split; [done|].
  destruct (ds_store s2 !! i) as [d2|] eqn:Hd2; cbn in Hi2; [|done]. injection Hi2 as Hkey2.
  eapply (clear_end_ok i d2); [exact Hinv2|exact Hd2|apply others_kept_refl|].
  intros _. rewrite Hkey2. done.
Qed.

Lemma do_delete_ok m s :
  ds_inv s ->
  key_sat m s (fun k => Z.land (m_flags m) DSF_MASK_TYPE = DSF_TYPE_LABEL -> k <> name_rs) ->
  wp (do_delete m) (fun _ s' => ds_inv s') s.
Proof using L.
  intros Hinv Hkey. pose proof Hinv as [Hl Hu Hent [Hbuf Hdis] Hsub Hrs]. unfold do_delete. apply wp_bind, wp_gets.
  destruct (procname (ds_store s) (m_source m)) as [o|]; [|by apply wp_ret].
  apply wp_bind. eapply get_key_name_ok; [exact Hkey|intros r s' Hq _ _; apply wp_ret; by eapply quiet_inv|].
  intros k w Hk _ _. set (t := Z.land (m_flags m) DSF_MASK_TYPE) in *. cbv zeta.
  destruct (lookup_entry (ds_store s) k t) as [i|] eqn:Ei; [|by apply wp_ret].
  destruct (lookup_entry_Some _ _ _ _ Ei) as (d & Hd & Hud & Ht & Hdk).
  assert (t ∈ types -> type_of d = t) as Hty.
  { intros Htt. destruct (proj1 (Forall_lookup _ _) Hent _ _ Hd) as (_ & _ & Hdt & _).
    rewrite (anyset_type _ (type_of d)) in Ht by (try apply Hdt; done). by apply bool_decide_eq_true in Ht. }
  apply wp_bind, (wp_get_data i d); [done|]. case_bool_decide as Ho; cbn [negb]; [|by apply wp_ret].
  apply wp_bind. unfold delete_value. apply wp_bind, (wp_get_data i d); [done|].
  case_match eqn:E1; [|case_match eqn:E2; [|case_match eqn:E3]].
  - apply Z.eqb_eq in E1. rewrite E1 in Hty. specialize (Hty ltac:(by repeat constructor)).
    apply wp_ret. cbn. eapply clear_end_ok; [exact Hinv|done|apply others_kept_refl|].
    intros [_ Hlab]. by rewrite Hty in Hlab.
  - apply Z.eqb_eq in E2. specialize (Hk E2). rewrite <- Hdk in Hk.
    eapply wp_mono; [by apply (delete_label_ok i d (with_ds_world w s))|]. by intros r s1 [-> Hend].
  - assert (mem_type t) as Hm by (apply orb_true_iff in E3 as [?%Z.eqb_eq|?%Z.eqb_eq]; [by left|by right]).
    assert (type_of d = t) as Htd by (apply Hty; destruct Hm as [->| ->]; by repeat constructor).
    assert (is_mem d) as Hdm by (split; [done|by rewrite Htd]).
    destruct (Hbuf _ _ Hd Hdm) as (kb & Hkb & Hp & _).
    apply wp_bind, (wp_ds_free _ kb); [done..|]. apply wp_ret. cbn.
    eapply clear_end_ok; [exact Hinv|done|apply others_kept_delete; by eapply apart_own|].
    intros [_ Hlab]. rewrite Htd in Hlab. destruct Hm as [Hm|Hm]; rewrite Hm in Hlab; done.
  - by apply wp_ret.
Qed.

(** ** Requests *)

(** What a client must not do for the server to survive: send a key without
    terminator, publish an empty string, rename labels or delete that of the
    reincarnation server, subscribe in the name of the data store itself, or
    check for an entry whose owner has lost its label. *)
Definition request_ok (callnr : Z) (m : ds_msg) s : Prop :=
  key_sat m s (fun _ => True) /\
  (callnr = DS_PUBLISH -> publish_ok m s) /\
  (callnr = DS_DELETE ->
     key_sat m s (fun k => Z.land (m_flags m) DSF_MASK_TYPE = DSF_TYPE_LABEL -> k <> name_rs)) /\
  (callnr = DS_SUBSCRIBE -> m_source m <> DS_PROC_NR) /\
  (callnr = DS_CHECK -> check_ok s).

Lemma ds_request_ok notify callnr m s :
  ds_inv s -> request_ok callnr m s ->
  wp (ds_request notify callnr m)
    (fun r s' => (callnr = DS_PUBLISH \/ callnr = DS_SUBSCRIBE -> settled m r.1) -> ds_inv s') s.
Proof using L.
  intros Hinv (Hkey & Hpub & Hdel & Hsub & Hchk). unfold ds_request.
  destruct notify; [by apply wp_ret|].
  destruct (Z.eqb_spec callnr DS_PUBLISH) as [E1|E1].
  { apply wp_bind. eapply wp_mono; [apply do_publish_ok; auto|]. intros r s' [Hr _]. apply wp_ret. auto. }
  destruct (Z.eqb_spec callnr DS_RETRIEVE) as [E2|E2].
  { eapply wp_mono; [by apply do_retrieve_ok|done]. }
  destruct (Z.eqb_spec callnr DS_RETRIEVE_LABEL) as [E3|E3].
  { eapply wp_mono; [by apply do_retrieve_label_ok|done]. }
  destruct (Z.eqb_spec callnr DS_DELETE) as [E4|E4].
  { apply wp_bind. eapply wp_mono; [apply do_delete_ok; auto|]. intros r s' Hr. by apply wp_ret. }
  destruct (Z.eqb_spec callnr DS_SUBSCRIBE) as [E5|E5].
  { apply wp_bind. eapply wp_mono; [apply do_subscribe_ok; auto|]. intros r s' Hr. apply wp_ret. auto. }
  destruct (Z.eqb_spec callnr DS_CHECK) as [E6|E6].
  { eapply wp_mono; [apply do_check_ok; auto|done]. }
  by apply wp_ret.
Qed.

(** ** Start-up *)

(** The memory of the server when it starts: all zero. *)
Definition zero_entry : data_store := mk_data_store 0 [] [] 0 0 0 0.
Definition zero_sub : subscription RX := mk_subscription 0 [] None 0.
Definition ds_boot (w : W) : ds_state W RX :=
  mk_ds_state (replicate NR_DS_KEYS zero_entry) (replicate NR_DS_SUBS zero_sub) ∅ w.

(** The services of the boot image have a slot each, names that fit, and the
    reincarnation server is among them. *)
Definition boot_ok (table : list rprocpub) : Prop :=
  (length (filter (fun r => rp_in_use r = true) table) <= NR_DS_KEYS)%nat /\
  Forall (fun r => rp_in_use r = true -> str_ok (rp_label r)) table /\
  (forall r, r ∈ table -> rp_in_use r = true -> u32 (rp_endpoint r) = RS_PROC_NR -> rp_label r = name_rs) /\
  (exists r, r ∈ table /\ rp_in_use r = true /\ u32 (rp_endpoint r) = RS_PROC_NR).

Definition service_entry (r : rprocpub) : data_store :=
  mk_data_store (Z.lor DSF_IN_USE DSF_TYPE_LABEL) (rp_label r) name_rs (u32 (rp_endpoint r)) 0 0 0.
Definition services (done : list rprocpub) : list data_store :=
  let l := service_entry <$> filter (fun r => rp_in_use r = true) done in
  l ++ replicate (NR_DS_KEYS - length l) zero_entry.

Lemma service_label r : is_label (service_entry r).
Proof. done. Qed.

Lemma entry_ok_service r : str_ok (rp_label r) -> entry_ok (service_entry r).
Proof. intros Hr. split_and!; [done..| |done]. intros _. by repeat constructor. Qed.

Lemma entry_ok_zero : entry_ok zero_entry.
Proof. split_and!; [done..| |by intros [? _]]. by intros [=]. Qed.

Lemma services_ok done :
  Forall (fun r => rp_in_use r = true -> str_ok (rp_label r)) done -> Forall entry_ok (services done).
Proof.
  intros Hd. apply Forall_app. split; [|apply Forall_replicate, entry_ok_zero].
  apply Forall_fmap, Forall_forall. intros r [Hu Hr]%list_elem_of_filter.
  apply entry_ok_service. by apply (proj1 (Forall_forall _ _) Hd r Hr).
Qed.

(** One more service takes the first free slot. *)
Lemma services_snoc done r :
  rp_in_use r = true -> (length (filter (fun r => rp_in_use r = true) (done ++ [r])) <= NR_DS_KEYS)%nat ->
  exists i, alloc_data_slot (services done) = Some i /\ services done !! i = Some zero_entry /\
    services (done ++ [r]) = <[i := service_entry r]> (services done).
Proof.
  intros Hr Hlen. unfold services. rewrite filter_app, filter_cons_True, filter_nil in * by done.
  set (l := filter _ done) in *. rewrite length_app in Hlen. cbn [length] in Hlen.
  exists (length l). rewrite fmap_app, !length_app, !length_fmap. cbn [length fmap list_fmap].
  replace (NR_DS_KEYS - length l)%nat with (S (NR_DS_KEYS - (length l + 1))) by lia. cbn [replicate].
  split_and!.
  - apply find_slot_spec. split.
    + exists zero_entry. split; [|done]. apply list_lookup_middle. by rewrite length_fmap.
    + intros j y Hj Hy. rewrite lookup_app_l in Hy by (by rewrite length_fmap).
      apply list_lookup_fmap_Some in Hy as (r' & -> & _). done.
  - apply list_lookup_middle. by rewrite length_fmap.
  - rewrite insert_app_r_alt by (by rewrite length_fmap). rewrite length_fmap, Nat.sub_diag.
    cbn. by rewrite <- app_assoc.
Qed.

Definition no_subs (u : list (subscription RX)) : Prop := Forall (fun p => ~ sub_in_use p) u.

Lemma no_subs_same u u' : same_subs u u' -> no_subs u -> no_subs u'.
Proof.
  intros Hv Hn. apply Forall_lookup. intros i p' Hi.
  destruct (same_subs_lookup _ _ _ _ Hv Hi) as (p & Hp & [= Hf _ _]).
  unfold sub_in_use. rewrite Hf. by eapply (proj1 (Forall_lookup _ _) Hn).
Qed.

(** The tables while the services are registered. *)
Definition starting (done : list rprocpub) s : Prop :=
  ds_store s = services done /\ ds_heap s = ∅ /\ length (ds_subs s) = NR_DS_SUBS /\ no_subs (ds_subs s).

Lemma map_service_ok done r s :
  starting done s -> rp_in_use r = true ->
  (length (filter (fun r => rp_in_use r = true) (done ++ [r])) <= NR_DS_KEYS)%nat ->
  Forall (fun r => rp_in_use r = true -> str_ok (rp_label r)) (done ++ [r]) ->
  wp (map_service r) (fun c s' => c = OK /\ starting (done ++ [r]) s') s.
Proof using L.
  intros (Hs & Hh & Hl & Hn) Hr Hlen Hok. destruct (services_snoc done r Hr Hlen) as (i & Ha & Hi & Hsn).
  assert (Hlt : (i < length (services done))%nat) by (by eapply lookup_lt_Some).
  assert (str_ok (rp_label r)) as Hrl.
  { apply Forall_app in Hok as [_ Hok]. inversion_clear Hok. auto. }
  unfold map_service, strcpy. apply wp_bind, wp_gets. rewrite Hs, Ha. unfold str_ok in Hrl.
  rewrite (proj2 (Z.ltb_lt _ _) Hrl). apply wp_bind, wp_ret.
  apply wp_bind, (wp_upd_data i _ zero_entry); [by rewrite Hs|].
  do 3 (apply wp_bind; eapply wp_upd_data;
    [cbn [with_store ds_store]; rewrite Hs, ?list_insert_insert_eq; by apply list_lookup_insert_eq|]).
  cbn [with_store ds_store ds_subs ds_heap ds_world]. rewrite Hs, !list_insert_insert_eq.
  change (set_d_flags _ _) with (service_entry r). rewrite <- Hsn.
  apply wp_bind. eapply wp_mono; [apply update_subscribers_ok; cbn [with_store ds_store ds_subs]|].
  - rewrite Hsn. by rewrite length_insert.
  - done.
  - by apply services_ok.
  - eapply Forall_impl; [exact Hn|]. by intros p Hp ?.
  - intros [] s2 (Hs2 & Hh2 & Hv). apply wp_ret. split; [done|]. cbn in *. split_and!; [done|congruence| |].
    + by rewrite (same_subs_length _ _ Hv).
    + by eapply no_subs_same.
Qed.

Lemma reset_ok w :
  wp (foreach (seq 0 NR_DS_KEYS) (fun i => upd_data i (set_d_flags 0));;
      foreach (seq 0 NR_DS_SUBS) (fun i => upd_sub i (fun p => mk_subscription 0 (s_owner p) (s_regex p) (s_old_subs p))))
    (fun _ s => starting [] s) (ds_boot w).
Proof.
  apply wp_bind. eapply (wp_mono _ (fun _ s => s = ds_boot w)).
  { apply wp_foreach; [done|]. intros i s Hi%elem_of_seq ->. apply (wp_upd_data i _ zero_entry).
    { apply lookup_replicate. split; [done|lia]. }
    unfold with_store, ds_boot. cbn [ds_store ds_subs ds_heap ds_world]. f_equal.
    apply list_insert_id, lookup_replicate. split; [done|lia]. }
  intros [] ? ->. eapply (wp_mono _ (fun _ s => s = ds_boot w)).
  { apply wp_foreach; [done|]. intros i s Hi%elem_of_seq ->. apply (wp_upd_sub i _ zero_sub).
    { apply lookup_replicate. split; [done|lia]. }
    unfold with_subs, ds_boot. cbn [ds_store ds_subs ds_heap ds_world]. f_equal.
    apply list_insert_id, lookup_replicate. split; [done|lia]. }
  intros [] ? ->. split_and!; [done|done|exact (length_replicate _ _)|].
  apply Forall_replicate. by intros [=].
Qed.

Lemma starting_inv table s : boot_ok table -> starting table s -> ds_inv s.
Proof.
  intros (Hlen & Hok & Hrs & (r & Hr & Hu & Hn)) (Hs & Hh & Hl & Hns). unfold ds_inv. rewrite Hs, Hh.
  pose proof (services_ok _ Hok) as Hent.
  assert (forall i d, services table !! i = Some d -> d = zero_entry \/ exists r, d = service_entry r /\ r ∈ table /\ rp_in_use r = true) as Hcases.
  { intros i d [Hd|[_ Hd]]%lookup_app_Some.
    - right. apply list_lookup_fmap_Some in Hd as (r' & -> & Hr'%list_elem_of_lookup_2).
      apply list_elem_of_filter in Hr' as [? ?]. by exists r'.
    - left. by apply lookup_replicate in Hd as [-> _]. }
  assert (forall i d, services table !! i = Some d -> ~ is_mem d) as Hnm.
  { intros i d [->|(r' & -> & _)]%Hcases; [by intros [? _]|]. intros [_ [?|?]]; done. }
  split; [|done|done|split| |].
  - unfold services. rewrite length_app, length_replicate, length_fmap. lia.
  - intros i d Hd Hm. by destruct (Hnm i d).
  - intros i j d e _ Hd _ Hm _. by destruct (Hnm i d).
  - eapply Forall_impl; [exact Hns|]. by intros p Hp ?.
  - apply rs_ok_first; [done|].
    assert (service_entry r ∈ services table) as [j Hj]%list_elem_of_lookup.
    { apply elem_of_app. left. apply list_elem_of_fmap_2, list_elem_of_filter. done. }
    destruct (find_slot_is_Some (fun d => anyset (d_flags d) DSF_IN_USE && anyset (d_flags d) DSF_TYPE_LABEL &&
      (d_u32 d =? RS_PROC_NR)) _ _ _ Hj) as [i Hi]; [cbn; by rewrite Hn|].
    destruct (lookup_label_entry_Some _ _ _ Hent Hi) as (d & Hd & Hlab & Hnum). exists i, d. split_and!; [done..|].
    destruct (Hcases _ _ Hd) as [->|(r' & -> & Hr' & Hu')]; [by destruct Hlab|]. by apply Hrs.
Qed.

Lemma map_services_ok table pre s :
  starting pre s ->
  (length (filter (fun r => rp_in_use r = true) (pre ++ table)) <= NR_DS_KEYS)%nat ->
  Forall (fun r => rp_in_use r = true -> str_ok (rp_label r)) (pre ++ table) ->
  wp (foreach table (fun rpub =>
        when (rp_in_use rpub) (r ← map_service rpub; when (negb (bool_decide (r = OK))) (fail Panic))))
    (fun _ s' => starting (pre ++ table) s') s.
Proof using L.
  revert pre s. induction table as [|r table IH]; intros pre s Hst Hlen Hok.
  { rewrite app_nil_r. by apply wp_ret. }
  replace (pre ++ r :: table) with ((pre ++ [r]) ++ table) in * by by rewrite <- app_assoc.
  cbn [foreach]. apply wp_bind. eapply (wp_mono _ (fun _ s' => starting (pre ++ [r]) s')); [|intros [] s' Hs'; by apply IH].
  apply wp_when; intros Hr.
  - apply wp_bind. rewrite filter_app, length_app in Hlen. apply Forall_app in Hok as [Hok _].
    eapply wp_mono; [apply map_service_ok; [done..|lia|done]|]. by intros c s' [-> Hs'].
  - destruct Hst as (Hs & Hst). split; [|done]. rewrite Hs. unfold services.
    by rewrite filter_app, filter_cons_False, filter_nil, app_nil_r by congruence.
Qed.

Lemma sef_cb_init_fresh_ok table w :
  boot_ok table -> wp (sef_cb_init_fresh table) (fun r s => r = OK /\ ds_inv s) (ds_boot w).
Proof using L.
  intros Hb. pose proof Hb as (Hlen & Hok & _). unfold sef_cb_init_fresh.
  pose proof (reset_ok w) as Hr. apply wp_bind_inv in Hr. apply wp_bind. eapply wp_mono; [exact Hr|]. clear Hr.
  intros [] s1 Hr. apply wp_bind. eapply wp_mono; [exact Hr|]. clear Hr. intros [] s2 Hst.
  apply wp_bind. eapply wp_mono; [by apply (map_services_ok table [])|].
  intros [] s3 Hs3. apply wp_ret. split; [done|by eapply starting_inv].
Qed.

(** ** A failed overwrite *)

Lemma publish_mem_fails i m d kb r b w' s :
  ds_store s !! i = Some d -> in_use d -> ds_heap s !! d_data d = Some kb -> d_data d <> 0 ->
  u32 (m_val_len m) <= d_reallen d ->
  sys_safecopyfrom (m_source m) (m_val_in m) (u32 (m_val_len m)) (ds_world s) = Ok ((r, b), w') -> r <> OK ->
  publish_mem i m s = Ok (r, with_heap (delete (d_data d) (ds_heap s)) (with_ds_world w' s)).
Proof.
  intros Hd Hu Hkb Hp Hlen Hc Hr. unfold publish_mem, grow_buffer.
  rewrite (bind_ok _ _ s true s).
  2:{ rewrite (bind_ok _ _ _ _ _ (get_data_run i d s Hd)). unfold in_use in Hu. rewrite Hu. cbn.
      by rewrite (proj2 (Z.ltb_ge _ _)). }
  cbn [negb]. rewrite (bind_ok _ _ _ _ _ (get_data_run i d s Hd)).
  rewrite (bind_ok _ _ s (r, b) (with_ds_world w' s)).
  2:{ unfold outside, mbind, M_bind, gets. by rewrite Hc. }
  rewrite bool_decide_false by done. cbn [negb].
  rewrite (bind_ok _ _ _ tt (with_heap (delete (d_data d) (ds_heap s)) (with_ds_world w' s))); [done|].
  unfold ds_free. rewrite (proj2 (Z.eqb_neq _ _)) by done.
  unfold mbind, M_bind, gets, deref, modify. cbn. by rewrite Hkb.
Qed.

(** An entry whose buffer has been freed can be neither retrieved nor deleted. *)
Lemma freed_faults i d k w m s :
  get_key_name m s = Ok (inr k, with_ds_world w s) ->
  mem_type (Z.land (m_flags m) DSF_MASK_TYPE) ->
  lookup_entry (ds_store s) k (Z.land (m_flags m) DSF_MASK_TYPE) = Some i -> ds_store s !! i = Some d ->
  procname (ds_store s) (m_source m) = Some (d_owner d) -> d_data d <> 0 -> ds_heap s !! d_data d = None ->
  do_retrieve m s = Err NullDeref /\ do_delete m s = Err NullDeref.
Proof.
  intros Hk Hm Hi Hd Ho Hp Hfree.
  assert (get_data i (with_ds_world w s) = Ok (d, with_ds_world w s)) as Hget by by apply get_data_run.
  split.
  - unfold do_retrieve. rewrite (bind_ok _ _ _ _ _ Hk). cbv beta iota.
    rewrite (bind_ok (gets ds_store) _ _ _ _ eq_refl). cbv beta.
    change (ds_store (with_ds_world w s)) with (ds_store s). rewrite Hi, (bind_ok _ _ _ _ _ Hget).
    replace (check_auth _ _ _ _) with true.
    2:{ unfold check_auth. rewrite Ho, bool_decide_true by done. by case_match. }
    unfold retrieve_value, read_block. destruct Hm as [->| ->]; cbn [negb Z.eqb Pos.eqb orb];
      apply err_bind_err; unfold mbind, M_bind, gets, deref; cbn; by rewrite Hfree.
  - unfold do_delete. rewrite (bind_ok (gets ds_store) _ _ _ _ eq_refl). cbv beta. rewrite Ho.
    rewrite (bind_ok _ _ _ _ _ Hk). cbv beta iota zeta. rewrite Hi, (bind_ok _ _ _ _ _ Hget).
    rewrite bool_decide_true by done. cbn [negb]. apply err_bind_err. unfold delete_value, ds_free.
    rewrite (bind_ok _ _ _ _ _ Hget), (proj2 (Z.eqb_neq (d_data d) 0) Hp).
    destruct Hm as [->| ->]; cbn [Z.eqb Pos.eqb orb];
      apply err_bind_err; unfold mbind, M_bind, gets, deref; cbn; by rewrite Hfree.
Qed.

End ops.
