(* ===== verification/DsProps.v ===== *)
(** * Properties of the data store

    No request faults and the tables stay in order; what is published can be
    retrieved; a failed overwrite leaves an entry with a freed buffer. *)

From S2P Require Import Prelude KTypes Ds DsFacts.
#[local] Open Scope Z_scope.

Section props.
Context {W RX : Type} {E : DsEnv W RX} {L : DsEnvLaws W RX}.
Implicit Types (s : ds_state W RX).

(** ** The properties *)


(** The client may read what [m] published. *)
Definition may_retrieve (m m' : ds_msg) : Prop :=
  anyset (m_flags m) DSF_PRIV_RETRIEVE = false \/ m_source m' = m_source m.

(** C22 A number, a string or a memory range that was published is what a later retrieval
    under the same key and type returns, to everyone or, if the publisher asked for that, to the publisher:
    the number itself, or the bytes that were copied from the publisher (a string with its last
    byte set to the terminator), cut to the room the client has. *)
Theorem ds_publish_retrieve m s :
  ds_inv s -> publish_ok m s -> Z.land (m_flags m) DSF_MASK_TYPE <> DSF_TYPE_LABEL ->
  exists r s1, do_publish m s = Ok (r, s1) /\
    (r = OK -> exists k w v,
       get_key_name m s = Ok (inr k, with_ds_world w s) /\ published m w v /\
       forall m' w', get_key_name m' s1 = Ok (inr k, with_ds_world w' s1) ->
         Z.land (m_flags m') DSF_MASK_TYPE = Z.land (m_flags m) DSF_MASK_TYPE -> may_retrieve m m' ->
         do_retrieve m' s1 = hand_over m' v w' s1).
Proof using L.
  intros Hinv Hpub Hnl. destruct (wp_elim _ _ _ (do_publish_ok m s Hinv Hpub)) as (r & s1 & Hrun & _ & Hr).
  exists r, s1. split; [done|]. intros Hok.
  destruct (Hr Hok) as (i & d & k & w & v & Hk & Hv & Hi & Hd & Hf & _ & Ho & Hh & Hty).
  exists k, w, v. split_and!; [done..|]. intros m' w' Hk' Ht Hmay.
  unfold do_retrieve. rewrite (bind_ok _ _ _ _ _ Hk').
  cbv beta iota. rewrite (bind_ok (gets ds_store) _ _ _ _ eq_refl). cbv beta.
  change (ds_store (with_ds_world w' s1)) with (ds_store s1). rewrite Ht, Hi.
  rewrite (bind_ok _ _ _ d (with_ds_world w' s1)) by by apply get_data_run. cbv beta.
  assert (check_auth (ds_store s1) d (m_source m') DSF_PRIV_RETRIEVE = true) as ->.
  { unfold check_auth. rewrite Hf. unfold entry_flags. rewrite stored_perm by by repeat constructor.
    destruct Hmay as [->| ->]; [done|]. rewrite (Ho Hnl), bool_decide_true by done. by case_match. }
  apply (retrieve_value_run m' d v (with_ds_world w' s1)); [by rewrite Ht|by exists m, w|done].
Qed.

(** When the copy of new data over a string or memory entry fails, the server frees the
    buffer of the entry but leaves the entry in use: the next retrieval of the entry reads freed
    memory, and its deletion frees the buffer twice. *)
Theorem ds_publish_dangling m s i d k w r b w' :
  ds_inv s -> mem_type (Z.land (m_flags m) DSF_MASK_TYPE) ->
  anyset (m_flags m) DSF_OVERWRITE = true -> m_source m <> DS_PROC_NR ->
  get_key_name m s = Ok (inr k, with_ds_world w s) ->
  lookup_entry (ds_store s) k (Z.land (m_flags m) DSF_MASK_TYPE) = Some i -> ds_store s !! i = Some d ->
  procname (ds_store s) (m_source m) = Some (d_owner d) -> u32 (m_val_len m) <= d_reallen d ->
  sys_safecopyfrom (m_source m) (m_val_in m) (u32 (m_val_len m)) w = Ok ((r, b), w') -> r <> OK ->
  exists s', do_publish m s = Ok (r, s') /\
    lookup_entry (ds_store s') k (Z.land (m_flags m) DSF_MASK_TYPE) = Some i /\
    forall m' w2, m_source m' = m_source m -> Z.land (m_flags m') DSF_MASK_TYPE = Z.land (m_flags m) DSF_MASK_TYPE ->
      get_key_name m' s' = Ok (inr k, with_ds_world w2 s') ->
      do_retrieve m' s' = Err NullDeref /\ do_delete m' s' = Err NullDeref.
Proof using Type.
  intros Hinv Hm Hov Hds Hk Hi Hd Ho Hlen Hc Hr. pose proof Hinv as [_ _ Hent [Hbuf _] _ _].
  destruct (lookup_entry_Some _ _ _ _ Hi) as (d0 & ? & Hu & Ht & _). assert (d0 = d) as -> by congruence.
  set (t := Z.land (m_flags m) DSF_MASK_TYPE) in *.
  assert (t ∈ types) as Htt by (destruct Hm as [->| ->]; by repeat constructor).
  assert (is_mem d) as Hdm.
  { split; [done|]. destruct (proj1 (Forall_lookup _ _) Hent _ _ Hd) as (_ & _ & Hdt & _).
    rewrite (anyset_type _ (type_of d)) in Ht by (try apply Hdt; done). apply bool_decide_eq_true in Ht. by rewrite Ht. }
  destruct (Hbuf _ _ Hd Hdm) as (kb & Hkb & Hp & _).
  assert (anyset (m_flags m) DSF_TYPE_LABEL = false) as Hnl.
  { rewrite (anyset_type _ t) by (try done; by repeat constructor). destruct Hm as [->| ->]; done. }
  assert (forall perm, check_auth (ds_store s) d (m_source m) perm = true) as Hauth.
  { intros perm. unfold check_auth. rewrite Ho, bool_decide_true by done. by case_match. }
  exists (with_heap (delete (d_data d) (ds_heap s)) (with_ds_world w' s)). split; [|split; [done|]].
  - unfold do_publish. unfold procname in Ho. destruct (ds_getprocname (ds_store s) (m_source m)) eqn:En; [|done].
    rewrite (bind_ok (gets ds_store) _ _ _ _ eq_refl). cbv beta. rewrite En, Hnl. cbn [andb].
    rewrite (bind_ok _ _ _ _ _ Hk). cbv beta iota.
    unfold publish_slot. fold t. rewrite Hi, Hov, Hd, Hauth.
    rewrite (bind_ok _ _ _ r (with_heap (delete (d_data d) (ds_heap s)) (with_ds_world w' s))).
    { by rewrite bool_decide_false. }
    unfold publish_value. fold t.
    pose proof (publish_mem_fails i m d kb r b w' (with_ds_world w s) Hd Hu Hkb Hp Hlen Hc Hr) as Hmem.
    destruct Hm as [E1|E1]; rewrite E1; exact Hmem.
  - intros m' w2 Hsrc Ht' Hk'. apply (freed_faults i d k w2); rewrite ?Hsrc, ?Ht'; try done.
    apply lookup_delete_eq.
Qed.

End props.

(** ** A server with four services *)

(** The memory of the clients behind their grants. *)
Definition demo_mem (src g : Z) : option bytes :=
  if g =? 1 then Some [118; 0]                 (* the key "v" *)
  else if (src =? 100) && (g =? 2) then Some [104; 105; 33]
  else None.

(** The world is the list of the data copied out. *)
Definition demo_malloc (h : gmap Z block) (n : Z) : Z := map_fold (fun k _ a => Z.max k a) 0 h + 1.

#[local] Instance demo_env : DsEnv (list (Z * Z * bytes)) bytes := {
  sys_safecopyfrom src g n w :=
    match demo_mem src g with
    | Some b => if n <=? Z.of_nat (length b) then Ok ((OK, take (Z.to_nat n) b), w) else Ok ((EINVAL, []), w)
    | None => Ok ((EPERM, []), w)
    end;
  sys_safecopyto dst g b w := Ok (OK, w ++ [(dst, g, b)]);
  ipc_notify e w := Ok (tt, w);
  regcomp b := Some b;
  regexec rx k := bool_decide (rx = [94] ++ k ++ [36]);
  malloc := demo_malloc;
}.

Lemma demo_malloc_fresh h n : h !! demo_malloc h n = None.
Proof.
  assert (forall k x, h !! k = Some x -> k <= map_fold (fun k _ a => Z.max k a) 0 h) as H.
  { apply (map_fold_weak_ind (fun r m => forall k x, m !! k = Some x -> k <= r)).
    - intros k x. by rewrite lookup_empty.
    - intros i y m r Hi IH k x. destruct (decide (i = k)) as [->|Hne]; [lia|].
      rewrite lookup_insert_ne by done. intros ?%IH. lia. }
  destruct (h !! demo_malloc h n) as [x|] eqn:Ex; [|done]. apply H in Ex. unfold demo_malloc in Ex. lia.
Qed.

#[local] Instance demo_laws : DsEnvLaws (list (Z * Z * bytes)) bytes.
Proof.
  split.
  - intros src g n w. cbn. destruct (demo_mem src g) as [b|]; [|by eexists _, _, _].
    destruct (Z.leb_spec n (Z.of_nat (length b))); [|by eexists _, _, _].
    eexists _, _, _. split; [done|]. intros _ Hn. rewrite length_take. lia.
  - intros. by eexists _, _.
  - intros. by eexists.
  - intros h n _. apply demo_malloc_fresh.
Qed.

Definition state_after {S A} (m : M S A) (s : S) : S :=
  match m s with Ok (_, s') => s' | Err _ => s end.

Definition demo_table : list rprocpub :=
  [mk_rprocpub true name_rs 2; mk_rprocpub false [] 0; mk_rprocpub true [115; 104] 100; mk_rprocpub true [99; 108] 101].

Definition demo_ds : ds_state (list (Z * Z * bytes)) bytes :=
  state_after (sef_cb_init_fresh demo_table) (ds_boot []).

(** Process 100 publishes the string "hi!" under the key "v"; process 101 has room for two bytes. *)
Definition demo_publish : ds_msg := mk_ds_msg 100 1 2 DSF_TYPE_STR 2 3.
Definition demo_retrieve : ds_msg := mk_ds_msg 101 1 2 DSF_TYPE_STR 5 2.
(** The new data are behind a grant that is not valid. *)
Definition demo_overwrite : ds_msg := mk_ds_msg 100 1 2 (Z.lor DSF_TYPE_STR DSF_OVERWRITE) 9 3.

Lemma demo_boot_ok : boot_ok demo_table.
Proof.
  split_and!.
  - by apply Nat.leb_le; vm_compute.
  - repeat constructor.
  - intros r Hr. repeat (apply elem_of_cons in Hr as [->|Hr]; [done|]). by apply elem_of_nil in Hr.
  - exists (mk_rprocpub true name_rs 2). split_and!; [left|done|done].
Qed.

Lemma demo_ds_inv : ds_inv demo_ds.
Proof.
  destruct (wp_elim _ _ _ (sef_cb_init_fresh_ok demo_table [] demo_boot_ok)) as (r & s & Hrun & _ & Hs).
  assert (demo_ds = s) as -> by (unfold demo_ds, state_after; rewrite Hrun; reflexivity). exact Hs.
Qed.

Lemma demo_key m (P : bytes -> Prop) s :
  m_key_grant m = 1 -> m_key_len m = 2 -> P [118] -> key_sat m s P.
Proof.
  intros Hg Hk HP b w' Hc. exists [118]. split; [|exact HP].
  cbn in Hc. rewrite Hg, Hk in Hc. cbn in Hc. injection Hc as <- <-. unfold key_string. by rewrite Hk.
Qed.

Lemma demo_key_run m s :
  m_key_grant m = 1 -> m_key_len m = 2 -> get_key_name m s = Ok (inr [118], with_ds_world (ds_world s) s).
Proof. destruct m. cbn. intros -> ->. reflexivity. Qed.

Lemma demo_publish_ok s : publish_ok demo_publish s.
Proof. split; [intros _; discriminate|]. apply demo_key; [reflexivity..|]. intros Hl. discriminate. Qed.

Lemma demo_request_ok s : request_ok DS_PUBLISH demo_publish s.
Proof.
  split; [apply demo_key; [reflexivity..|exact I]|]. split; [intros _; apply demo_publish_ok|].
  split; [intros H; discriminate|]. split; intros H; discriminate.
Qed.

Definition demo_ds1 : ds_state (list (Z * Z * bytes)) bytes :=
  state_after (do_publish demo_publish) demo_ds.

Lemma demo_run : do_publish demo_publish demo_ds = Ok (OK, demo_ds1).
Proof. vm_compute. reflexivity. Qed.

Lemma demo_ds1_inv : ds_inv demo_ds1.
Proof.
  destruct (wp_elim _ _ _ (do_publish_ok demo_publish demo_ds demo_ds_inv (demo_publish_ok _)))
    as (r & s & Hrun & Hs & _).
  rewrite demo_run in Hrun. apply ok_pair_inj in Hrun as [<- <-]. apply Hs. intros _. reflexivity.
Qed.


Lemma ds_publish_retrieve_witness :
  exists s1 s2, do_publish demo_publish demo_ds = Ok (OK, s1) /\
    do_retrieve demo_retrieve s1 = Ok ((OK, reply_len 2), s2) /\ ds_world s2 = ds_world s1 ++ [(101, 5, [104; 105])].
Proof.
  destruct (ds_publish_retrieve demo_publish demo_ds demo_ds_inv (demo_publish_ok _)) as (r & s1 & Hrun & Hr);
    [discriminate|].
  rewrite demo_run in Hrun. apply ok_pair_inj in Hrun as [<- <-].
  destruct (Hr eq_refl) as (k & w & v & Hk & (b & w' & Hc & ->) & Hget).
  rewrite demo_key_run in Hk by reflexivity. apply ok_pair_inj in Hk as [[= <-] _].
  apply ok_pair_inj in Hc as [[= <-] _].
  exists demo_ds1. eexists. split; [exact demo_run|]. split.
  - rewrite (Hget demo_retrieve (ds_world demo_ds1)); [reflexivity|apply demo_key_run; reflexivity|reflexivity|left; reflexivity].
  - reflexivity.
Defined.

Definition demo_entry : data_store := mk_data_store 0x21 [118] [115; 104] 0 1 3 3.

Lemma demo_ds_lookup : lookup_entry (ds_store demo_ds1) [118] DSF_TYPE_STR = Some 3%nat.
Proof. vm_compute. reflexivity. Qed.
Lemma demo_slot : ds_store demo_ds1 !! 3%nat = Some demo_entry.
Proof. vm_compute. reflexivity. Qed.
Lemma demo_name : procname (ds_store demo_ds1) 100 = Some [115; 104].
Proof. vm_compute. reflexivity. Qed.

Lemma ds_publish_dangling_witness :
  exists s', do_publish demo_overwrite demo_ds1 = Ok (EPERM, s') /\
    do_retrieve demo_publish s' = Err NullDeref /\ do_delete demo_publish s' = Err NullDeref.
Proof.
  destruct (ds_publish_dangling demo_overwrite demo_ds1 3 demo_entry [118] (ds_world demo_ds1) EPERM []
    (ds_world demo_ds1) demo_ds1_inv) as (s' & Hrun & _ & Hbad).
  - left. reflexivity.
  - reflexivity.
  - discriminate.
  - reflexivity.
  - exact demo_ds_lookup.
  - exact demo_slot.
  - exact demo_name.
  - vm_compute. discriminate.
  - reflexivity.
  - discriminate.
  - exists s'. split; [exact Hrun|]. apply (Hbad demo_publish (ds_world s')); [reflexivity|reflexivity|].
    apply demo_key_run; reflexivity.
Defined.
