(* ===== verification/Flock.v ===== *)
(** * Advisory record locks of VFS (servers/vfs/lock.c)

    The table of locks on ranges of files, the three requests of fcntl on it, the
    release of locks when a file is closed (servers/vfs/open.c), and the waking of
    the processes that wait for a lock (servers/vfs/pipe.c). The structure in the
    memory of the caller is an argument; what is copied back to it is part of the result. *)

From S2P Require Import Prelude KTypes.
#[local] Open Scope Z_scope.

(** ** Data *)

(** [off_t] has 64 bits, [long] 32. *)
Definition off_ok (z : Z) : result Z :=
  if decide (- 2 ^ 63 <= z < 2 ^ 63) then Ok z else Err SignedOverflow.

Definition NR_LOCKS : nat := 8.
Definition MAX_FILE_POS : Z := 0x7FFFFFFF.
Definition FP_BLOCKED_ON_NONE : Z := 0.
Definition FP_BLOCKED_ON_LOCK : Z := 2.
Definition FP_REVIVED : Z := 2.
Definition PID_FREE : Z := 0.
Definition R_BIT : Z := 4.
Definition W_BIT : Z := 2.

(** From <fcntl.h>, <unistd.h> and <sys/stat.h>. *)
Definition F_RDLCK : Z := 1.
Definition F_UNLCK : Z := 2.
Definition F_WRLCK : Z := 3.
Inductive lock_req := F_GETLK | F_SETLK | F_SETLKW.
#[global] Instance lock_req_eq_dec : EqDecision lock_req.
Proof. solve_decision. Defined.
Definition SEEK_SET : Z := 0.
Definition SEEK_CUR : Z := 1.
Definition SEEK_END : Z := 2.
Definition S_ISREG (m : Z) : bool := Z.land m 0xF000 =? 0x8000.
Definition S_ISBLK (m : Z) : bool := Z.land m 0xF000 =? 0x6000.

Record file_lock := mk_file_lock {
  lock_type : Z;      (* 0 means unused slot *)
  lock_pid : Z;
  lock_vnode : Z;     (* the number of the vnode *)
  lock_first : Z;
  lock_last : Z;
}.
Definition set_lock_type (v : Z) (l : file_lock) : file_lock :=
  mk_file_lock v (lock_pid l) (lock_vnode l) (lock_first l) (lock_last l).
Definition set_lock_first (v : Z) (l : file_lock) : file_lock :=
  mk_file_lock (lock_type l) (lock_pid l) (lock_vnode l) v (lock_last l).
Definition set_lock_last (v : Z) (l : file_lock) : file_lock :=
  mk_file_lock (lock_type l) (lock_pid l) (lock_vnode l) (lock_first l) v.

(** The fields of the open file, its vnode and the processes that matter here. *)
Record filp := mk_filp { filp_mode : Z; filp_vno : Z; filp_pos : Z; v_mode : Z; v_size : Z }.
Record fproc := mk_fproc { fp_pid : Z; fp_blocked_on : Z; fp_flags : Z }.
Definition set_fp_blocked_on (v : Z) (p : fproc) : fproc := mk_fproc (fp_pid p) v (fp_flags p).
Definition set_fp_flags (v : Z) (p : fproc) : fproc := mk_fproc (fp_pid p) (fp_blocked_on p) v.

(** [struct flock] of the caller. *)
Record flock := mk_flock { l_type : Z; l_whence : Z; l_start : Z; l_len : Z; l_pid : Z }.

Record locks := mk_locks {
  file_locks : list file_lock;
  nr_locks : Z;
  fprocs : list fproc;
  fp : nat;             (* the calling process *)
  reviving : Z;
}.
Definition with_locks (l : list file_lock) (s : locks) : locks :=
  mk_locks l (nr_locks s) (fprocs s) (fp s) (reviving s).
Definition with_nr (n : Z) (s : locks) : locks :=
  mk_locks (file_locks s) n (fprocs s) (fp s) (reviving s).
Definition with_fprocs (l : list fproc) (s : locks) : locks :=
  mk_locks (file_locks s) (nr_locks s) l (fp s) (reviving s).
Definition with_reviving (n : Z) (s : locks) : locks :=
  mk_locks (file_locks s) (nr_locks s) (fprocs s) (fp s) n.

Notation LM := (M locks).

Definition get_lock (i : nat) : LM file_lock := l ← gets file_locks; deref (l !! i).
Definition put_lock (i : nat) (x : file_lock) : LM unit :=
  _ ← get_lock i; modify (fun s => with_locks (<[i := x]> (file_locks s)) s).
Definition count_locks (d : Z) : LM unit :=
  n ← gets nr_locks; n' ← lift (int_ok (n + d)); modify (with_nr n').
Definition get_fproc (i : nat) : LM fproc := l ← gets fprocs; deref (l !! i).
Definition put_fproc (i : nat) (x : fproc) : LM unit := modify (fun s => with_fprocs (<[i := x]> (fprocs s)) s).

(** ** Waking up *)

(** [revive] of a process that waits for a lock. *)
Definition revive (i : nat) : LM unit :=
  p ← get_fproc i;
  if (fp_blocked_on p =? FP_BLOCKED_ON_NONE) || anyset (fp_flags p) FP_REVIVED then skip
  else
    put_fproc i (set_fp_flags (setf (fp_flags p) FP_REVIVED) p);;
    n ← gets reviving; n' ← lift (int_ok (n + 1)); modify (with_reviving n').

Definition revive_one (i : nat) : LM unit :=
  p ← get_fproc i;
  if fp_pid p =? PID_FREE then skip
  else when (fp_blocked_on p =? FP_BLOCKED_ON_LOCK) (revive i).

Definition lock_revive : LM unit :=
  l ← gets fprocs; foreach (seq 0 (length l)) revive_one.

(** [suspend(FP_BLOCKED_ON_LOCK)] *)
Definition suspend : LM unit :=
  i ← gets fp; p ← get_fproc i; put_fproc i (set_fp_blocked_on FP_BLOCKED_ON_LOCK p).

(** ** The request *)

(** The checks of the request and the region it is about. *)
Definition lock_region (f : filp) (req : lock_req) (flk : flock) : result (ecode + Z * Z) :=
  let ltype := l_type flk in
  let getlk := bool_decide (req = F_GETLK) in
  if negb (ltype =? F_UNLCK) && negb (ltype =? F_RDLCK) && negb (ltype =? F_WRLCK) then Ok (inl EINVAL)
  else if getlk && (ltype =? F_UNLCK) then Ok (inl EINVAL)
  else if negb (S_ISREG (v_mode f)) && negb (S_ISBLK (v_mode f)) then Ok (inl EINVAL)
  else if negb getlk && (ltype =? F_RDLCK) && negb (anyset (filp_mode f) R_BIT) then Ok (inl EBADF)
  else if negb getlk && (ltype =? F_WRLCK) && negb (anyset (filp_mode f) W_BIT) then Ok (inl EBADF)
  else
    let base :=
      if l_whence flk =? SEEK_SET then Some 0
      else if l_whence flk =? SEEK_CUR then Some (filp_pos f)
      else if l_whence flk =? SEEK_END then Some (v_size f)
      else None in
    match base with
    | None => Ok (inl EINVAL)
    | Some base =>
        first ← off_ok (base + l_start flk);
        if (0 <? i32 (l_start flk)) && (first <? base) then Ok (inl EINVAL)
        else if (i32 (l_start flk) <? 0) && (base <? first) then Ok (inl EINVAL)
        else
          e ← off_ok (first + l_len flk);
          last ← off_ok (e - 1);
          let last := if l_len flk =? 0 then MAX_FILE_POS else last in
          if last <? first then Ok (inl EINVAL) else Ok (inr (first, last))
    end.

(** How the loop over the table goes on. *)
Inductive scan_end :=
| Scanned (empty : option nat) (unlocking : bool)
| Conflict (flp : nat)
| Returned (r : ecode).

(** The overlap of a lock with a region that is unlocked. *)
Definition unlock_slot (first last : Z) (i : nat) (flp : file_lock) : LM (option ecode) :=
  if (first <=? lock_first flp) && (lock_last flp <=? last) then
    put_lock i (set_lock_type 0 flp);; count_locks (-1);; mret None
  else if first <=? lock_first flp then
    n ← lift (off_ok (last + 1)); put_lock i (set_lock_first n flp);; mret None
  else if lock_last flp <=? last then
    n ← lift (off_ok (first - 1)); put_lock i (set_lock_last n flp);; mret None
  else
    nr ← gets nr_locks;
    if nr =? Z.of_nat NR_LOCKS then mret (Some ENOLCK)
    else
      l ← gets file_locks;
      match list_find (fun x => lock_type x = 0) l with
      | None => fail OutOfBounds      (* [&file_lock[NR_LOCKS]] is written *)
      | Some (j, _) =>
          n1 ← lift (off_ok (last + 1));
          n2 ← lift (off_ok (first - 1));
          put_lock j (mk_file_lock (lock_type flp) (lock_pid flp) (lock_vnode flp) n1 (lock_last flp));;
          put_lock i (set_lock_last n2 flp);;
          count_locks 1;;
          mret None
      end.

Fixpoint scan_locks (l : list nat) (f : filp) (req : lock_req) (ltype pid first last : Z)
    (empty : option nat) (unlocking : bool) : LM scan_end :=
  match l with
  | [] => mret (Scanned empty unlocking)
  | i :: l' =>
      flp ← get_lock i;
      let next := scan_locks l' f req ltype pid first last in
      if lock_type flp =? 0 then next (match empty with None => Some i | Some _ => empty end) unlocking
      else if negb (lock_vnode flp =? filp_vno f) then next empty unlocking
      else if last <? lock_first flp then next empty unlocking
      else if lock_last flp <? first then next empty unlocking
      else if (ltype =? F_RDLCK) && (lock_type flp =? F_RDLCK) then next empty unlocking
      else if negb (ltype =? F_UNLCK) && (lock_pid flp =? pid) then next empty unlocking
      else if bool_decide (req = F_GETLK) then mret (Conflict i)
      else if (ltype =? F_RDLCK) || (ltype =? F_WRLCK) then
        match req with
        | F_SETLK => mret (Returned EAGAIN)
        | _ => suspend;; mret (Returned SUSPEND)
        end
      else
        r ← unlock_slot first last i flp;
        match r with
        | Some e => mret (Returned e)
        | None => next empty true
        end
  end.

(** What follows the scan: the result, and what F_GETLK copies back. *)
Definition lock_finish (f : filp) (req : lock_req) (flk : flock) (copy_out : flock -> ecode) (pid first last : Z)
    (e : scan_end) : LM (ecode * option flock) :=
  match e with
  | Returned r => mret (r, None)
  | Conflict i =>
      flp ← get_lock i;
      len ← lift (d ← off_ok (lock_last flp - lock_first flp); off_ok (d + 1));
      let out := mk_flock (lock_type flp) SEEK_SET (lock_first flp) len (lock_pid flp) in
      mret (copy_out out, Some out)
  | Scanned empty unlocking =>
      when unlocking lock_revive;;
      if bool_decide (req = F_GETLK) then
        let out := mk_flock F_UNLCK (l_whence flk) (l_start flk) (l_len flk) (l_pid flk) in
        mret (copy_out out, Some out)
      else if l_type flk =? F_UNLCK then mret (OK, None)
      else
        match empty with
        | None => mret (ENOLCK, None)
        | Some i =>
            put_lock i (mk_file_lock (l_type flk) pid (filp_vno f) first last);;
            count_locks 1;;
            mret (OK, None)
        end
  end.

(** The structure of the caller, unless it cannot be copied, and the result of
    copying one back. *)
Definition lock_op (f : filp) (req : lock_req) (user : option flock) (copy_out : flock -> ecode)
    : LM (ecode * option flock) :=
  match user with
  | None => mret (EINVAL, None)
  | Some flk =>
      r ← lift (lock_region f req flk);
      match r with
      | inl e => mret (e, None)
      | inr (first, last) =>
          self ← gets fp; p ← get_fproc self;
          e ← scan_locks (seq 0 NR_LOCKS) f req (l_type flk) (fp_pid p) first last None false;
          lock_finish f req flk copy_out (fp_pid p) first last e
      end
  end.

(** ** Closing a file *)

Definition release_slot (vp pid : Z) (i : nat) : LM unit :=
  flp ← get_lock i;
  if lock_type flp =? 0 then skip
  else when ((lock_vnode flp =? vp) && (lock_pid flp =? pid))
    (put_lock i (set_lock_type 0 flp);; count_locks (-1)).

(** The end of [close_fd]: the locks that process [rfp] has on the vnode are released. *)
Definition close_locks (vp : Z) (rfp : nat) : LM unit :=
  n ← gets nr_locks;
  when (0 <? n)
    (p ← get_fproc rfp;
     foreach (seq 0 NR_LOCKS) (release_slot vp (fp_pid p));;
     n' ← gets nr_locks;
     when (n' <? n) lock_revive).
