(* ===== verification/FlockProps.v ===== *)
(** * Correctness of the advisory record locks

    Which process has which kind of lock on which byte of a file: what a request
    adds, removes and refuses, and that write locks exclude other processes. *)

From S2P Require Import Prelude KTypes Flock.
#[local] Open Scope Z_scope.

(** ** The locks on a byte *)

Definition used (x : file_lock) : Prop := lock_type x <> 0.
Definition covers (x : file_lock) (b : Z) : Prop := lock_first x <= b <= lock_last x.

(** Process [pid] has a lock of kind [ty] on byte [b] of vnode [v]. *)
Definition locked (l : list file_lock) (v pid ty b : Z) : Prop :=
  exists x, x ∈ l /\ used x /\ lock_vnode x = v /\ lock_pid x = pid /\ lock_type x = ty /\ covers x b.

Definition count_used (l : list file_lock) : Z := Z.of_nat (length (filter used l)).

Definition slot_ok (x : file_lock) : Prop :=
  used x -> (lock_type x = F_RDLCK \/ lock_type x = F_WRLCK) /\
  - 2 ^ 63 <= lock_first x <= lock_last x /\ lock_last x < 2 ^ 63 - 1 /\ lock_last x - lock_first x + 1 < 2 ^ 63.

(** Locks of different processes on one byte are read locks. *)
Definition exclusive (l : list file_lock) : Prop :=
  forall v b p1 t1 p2 t2, locked l v p1 t1 b -> locked l v p2 t2 b -> p1 <> p2 ->
    t1 = F_RDLCK /\ t2 = F_RDLCK.

Definition unrevived (p : fproc) : Prop := anyset (fp_flags p) FP_REVIVED = false.

Record locks_ok (s : locks) : Prop := {
  lo_slots : length (file_locks s) = NR_LOCKS;
  lo_count : nr_locks s = count_used (file_locks s);
  lo_ok : Forall slot_ok (file_locks s);
  lo_excl : exclusive (file_locks s);
  lo_self : is_Some (fprocs s !! fp s);
  lo_reviving : 0 <= reviving s /\ reviving s + Z.of_nat (length (filter unrevived (fprocs s))) <= INT_MAX;
}.

(** ** Changing a slot *)

Lemma filter_insert_length {A} (P : A -> Prop) `{!forall x, Decision (P x)} (l : list A) i x y :
  l !! i = Some x ->
  Z.of_nat (length (filter P (<[i := y]> l))) =
  Z.of_nat (length (filter P l)) + (if decide (P y) then 1 else 0) - (if decide (P x) then 1 else 0).
Proof.
  intros Hi. pose proof (take_drop_middle l i x Hi) as E. rewrite <- E at 2.
  rewrite insert_take_drop by (by eapply lookup_lt_Some).
  rewrite !filter_app, !filter_cons, !length_app. repeat case_decide; cbn [length]; lia.
Qed.

Lemma elem_of_insert {A} (l : list A) i x y z :
  l !! i = Some x -> z ∈ <[i := y]> l <-> z = y \/ exists j, j <> i /\ l !! j = Some z.
Proof.
  intros Hi. pose proof (lookup_lt_Some _ _ _ Hi) as Hlt. rewrite list_elem_of_lookup. split.
  - intros [j Hj]. destruct (decide (j = i)) as [->|Hne].
    + rewrite list_lookup_insert_eq in Hj by done. left. congruence.
    + rewrite list_lookup_insert_ne in Hj by done. right. by exists j.
  - intros [->|(j & Hne & Hj)]; [exists i; by apply list_lookup_insert_eq|].
    exists j. by rewrite list_lookup_insert_ne.
Qed.

(** What a slot contributes. *)
Definition grants (x : file_lock) (v pid ty b : Z) : Prop :=
  used x /\ lock_vnode x = v /\ lock_pid x = pid /\ lock_type x = ty /\ covers x b.

Lemma locked_insert l i x y v p t b :
  l !! i = Some x ->
  locked (<[i := y]> l) v p t b <-> grants y v p t b \/ exists j z, j <> i /\ l !! j = Some z /\ grants z v p t b.
Proof.
  intros Hi. unfold locked, grants. split.
  - intros (z & Hz & H). apply (elem_of_insert l i x y z Hi) in Hz as [->|(j & Hne & Hj)]; [by left|right; by exists j, z].
  - intros [H|(j & z & Hne & Hj & H)].
    + exists y. split; [|done]. apply (elem_of_insert l i x y y Hi). by left.
    + exists z. split; [|done]. apply (elem_of_insert l i x y z Hi). right. by exists j.
Qed.

Lemma locked_lookup l v p t b : locked l v p t b <-> exists j z, l !! j = Some z /\ grants z v p t b.
Proof.
  unfold locked, grants. split.
  - intros (x & [j Hj]%list_elem_of_lookup & H). by exists j, x.
  - intros (j & z & Hj & H). exists z. split; [by eapply list_elem_of_lookup_2|done].
Qed.

Lemma exclusive_sub l l' :
  (forall v p t b, locked l' v p t b -> locked l v p t b) -> exclusive l -> exclusive l'.
Proof. intros Hsub Hex v b p1 t1 p2 t2 H1%Hsub H2%Hsub. by apply (Hex v b). Qed.

Lemma wp_get_lock i x (Q : file_lock -> locks -> Prop) s :
  file_locks s !! i = Some x -> Q x s -> wp (get_lock i) Q s.
Proof. intros Hx HQ. unfold get_lock. wp_steps; done. Qed.

Lemma wp_put_lock i x y (Q : unit -> locks -> Prop) s :
  file_locks s !! i = Some x -> Q tt (with_locks (<[i := y]> (file_locks s)) s) -> wp (put_lock i y) Q s.
Proof. intros Hx HQ. unfold put_lock. apply wp_bind. by apply (wp_get_lock i x). Qed.

Lemma wp_get_fproc i x (Q : fproc -> locks -> Prop) s :
  fprocs s !! i = Some x -> Q x s -> wp (get_fproc i) Q s.
Proof. intros Hx HQ. unfold get_fproc. wp_steps; done. Qed.

Lemma wp_count d (Q : unit -> locks -> Prop) s :
  INT_MIN <= nr_locks s + d <= INT_MAX -> Q tt (with_nr (nr_locks s + d) s) -> wp (count_locks d) Q s.
Proof.
  intros Hd HQ. unfold count_locks. apply wp_bind, wp_gets, wp_bind.
  apply (wp_lift _ (nr_locks s + d)); [by apply int_ok_in|]. by apply wp_modify.
Qed.

Lemma count_used_range l : 0 <= count_used l <= Z.of_nat (length l).
Proof. unfold count_used. pose proof (length_filter used l). lia. Qed.

Lemma count_used_full l : length l = NR_LOCKS -> count_used l <> Z.of_nat NR_LOCKS ->
  exists j x, list_find (fun x => lock_type x = 0) l = Some (j, x).
Proof.
  intros Hl Hc. destruct (list_find (fun x => lock_type x = 0) l) as [[j x]|] eqn:E; [by exists j, x|].
  exfalso. apply Hc. apply list_find_None in E. unfold count_used. rewrite list_filter_all; [by rewrite Hl|done].
Qed.

(** ** Waking the processes that wait *)

Definition waits (p : fproc) : bool :=
  negb (fp_pid p =? PID_FREE) && (fp_blocked_on p =? FP_BLOCKED_ON_LOCK) && negb (anyset (fp_flags p) FP_REVIVED).
Definition wake (p : fproc) : fproc :=
  if waits p then set_fp_flags (setf (fp_flags p) FP_REVIVED) p else p.

Definition rev_ok s : Prop :=
  0 <= reviving s /\ reviving s + Z.of_nat (length (filter unrevived (fprocs s))) <= INT_MAX.

(** Nothing but the processes has changed. *)
Definition same_table (s s' : locks) : Prop :=
  file_locks s' = file_locks s /\ nr_locks s' = nr_locks s /\ fp s' = fp s /\
  length (fprocs s') = length (fprocs s) /\ (rev_ok s -> rev_ok s').

Lemma same_table_refl s : same_table s s.
Proof. by split_and!. Qed.
Lemma same_table_trans s1 s2 s3 : same_table s1 s2 -> same_table s2 s3 -> same_table s1 s3.
Proof. intros (? & ? & ? & ? & ?) (? & ? & ? & ? & ?). split_and!; try congruence. auto. Qed.

Lemma revived_set p : ~ unrevived (set_fp_flags (setf (fp_flags p) FP_REVIVED) p).
Proof.
  unfold unrevived. cbn. rewrite (anyset_isset _ FP_REVIVED 1) by done. by rewrite isset_setf.
Qed.

Lemma wake_revives p : waits p = true -> unrevived p /\ ~ unrevived (wake p).
Proof.
  intros Hw. unfold wake. rewrite Hw. split; [|apply revived_set].
  unfold waits in Hw. by apply andb_true_iff in Hw as [_ ?%negb_true_iff].
Qed.

Lemma revive_one_ok i p s :
  fprocs s !! i = Some p -> rev_ok s ->
  wp (revive_one i) (fun _ s' => same_table s s' /\ fprocs s' = <[i := wake p]> (fprocs s)) s.
Proof.
  intros Hp Hrev. pose proof Hrev as [H0 H1].
  assert (waits p = false -> same_table s s /\ fprocs s = <[i := wake p]> (fprocs s)) as Hskip.
  { intros Hw. split; [apply same_table_refl|]. unfold wake. rewrite Hw. by rewrite list_insert_id. }
  unfold revive_one. apply wp_bind, (wp_get_fproc i p); [done|].
  unfold waits in Hskip. destruct (fp_pid p =? PID_FREE) eqn:E1; cbn in Hskip.
  { by apply wp_ret, Hskip. }
  destruct (fp_blocked_on p =? FP_BLOCKED_ON_LOCK) eqn:E2; cbn in Hskip |- *.
  2:{ by apply wp_ret, Hskip. }
  unfold revive. apply wp_bind, (wp_get_fproc i p); [done|].
  apply Z.eqb_eq in E2. rewrite E2. cbn [Z.eqb FP_BLOCKED_ON_LOCK FP_BLOCKED_ON_NONE orb].
  destruct (anyset (fp_flags p) FP_REVIVED) eqn:E3; cbn in Hskip |- *.
  { by apply wp_ret, Hskip. }
  assert (waits p = true) as Hw by (unfold waits; by rewrite E1, E2, E3).
  assert (unrevived p) as Hun by done.
  pose proof (filter_insert_length unrevived (fprocs s) i p (wake p) Hp) as Hcount.
  rewrite decide_False, decide_True in Hcount by (done || by apply wake_revives).
  apply wp_bind, wp_modify, wp_bind, wp_gets, wp_bind. cbn.
  apply (wp_lift _ (reviving s + 1)); [apply int_ok_in; unfold INT_MIN, INT_MAX in *; lia|].
  assert (set_fp_flags (setf (fp_flags p) FP_REVIVED) p = wake p) as -> by (unfold wake; by rewrite Hw).
  apply wp_modify. split; [|done]. split_and!; try done; [by cbn; rewrite length_insert|].
  intros _. split; cbn; [lia|]. rewrite Hcount. lia.
Qed.

Lemma lock_revive_ok s :
  rev_ok s -> wp lock_revive (fun _ s' => same_table s s' /\ fprocs s' = wake <$> fprocs s) s.
Proof.
  intros Hrev. unfold lock_revive. apply wp_bind, wp_gets. set (n := length (fprocs s)).
  set (I := fun k s' => same_table s s' /\ fprocs s' = (wake <$> take k (fprocs s)) ++ drop k (fprocs s)).
  eapply wp_mono; [apply (wp_foreach_seq I 0 n)|].
  - split; [apply same_table_refl|done].
  - intros i s1 [_ Hi] [Hst Hf]. cbn in Hi.
    destruct (lookup_lt_is_Some_2 (fprocs s) i) as [p Hp]; [done|].
    assert (fprocs s1 !! i = Some p) as Hp1.
    { rewrite Hf, lookup_app_r by (rewrite length_fmap, length_take; lia).
      rewrite length_fmap, length_take, lookup_drop. replace (i + (i - i `min` length (fprocs s)))%nat with i by lia. done. }
    eapply wp_mono; [apply (revive_one_ok i p); [done|by apply Hst]|].
    intros [] s2 [Hst2 Hf2]. split; [by eapply same_table_trans|]. rewrite Hf2, Hf.
    rewrite Nat.add_1_r, (take_S_r _ _ _ Hp), fmap_app. cbn.
    rewrite (drop_S _ _ _ Hp). rewrite insert_app_r_alt by (rewrite length_fmap, length_take; lia).
    rewrite length_fmap, length_take, Nat.min_l, Nat.sub_diag by (fold n; lia). by rewrite <- app_assoc.
  - intros [] s1 [Hst Hf]. split; [done|]. rewrite Hf. by rewrite take_ge, drop_ge, app_nil_r by (fold n; lia).
Qed.

Lemma same_table_ok s s' : same_table s s' -> locks_ok s -> locks_ok s'.
Proof.
  intros (Hl & Hn & Hf & Hp & Hr) [? ? ? ? Hs ?]. split; rewrite ?Hl, ?Hn, ?Hf; try done.
  - apply lookup_lt_is_Some. rewrite Hp. by apply lookup_lt_is_Some.
  - by apply Hr.
Qed.

(** The caller waits for a lock. *)
Definition suspended (s s' : locks) : Prop :=
  same_table s s' /\ exists p, fprocs s' !! fp s = Some p /\ fp_blocked_on p = FP_BLOCKED_ON_LOCK.

Lemma suspend_ok s :
  is_Some (fprocs s !! fp s) -> wp suspend (fun _ s' => suspended s s') s.
Proof.
  intros [p Hp]. unfold suspend. apply wp_bind, wp_gets, wp_bind, (wp_get_fproc _ p); [done|].
  apply wp_modify. split.
  2:{ exists (set_fp_blocked_on FP_BLOCKED_ON_LOCK p). split; [|done]. cbn. apply list_lookup_insert_eq. by eapply lookup_lt_Some. }
  split_and!; try done; [by cbn; rewrite length_insert|]. intros [? Hr]. split; [done|]. cbn.
  pose proof (filter_insert_length unrevived (fprocs s) (fp s) p (set_fp_blocked_on FP_BLOCKED_ON_LOCK p) Hp) as Hc.
  rewrite Hc. unfold unrevived in *. cbn in *. repeat case_decide; try lia; done.
Qed.

(** ** The scan of the table *)

Section scan.
Context (f : filp) (req : lock_req) (ltype pid first last : Z).

(** A lock that stands in the way of the request. *)
Definition conflicts (x : file_lock) : Prop :=
  used x /\ lock_vnode x = filp_vno f /\ lock_first x <= last /\ first <= lock_last x /\
  ~ (ltype = F_RDLCK /\ lock_type x = F_RDLCK) /\ lock_pid x <> pid.

(** The scan of a request that is not an unlock stops at the first conflict. *)
Definition scan_set_post (l : list nat) (empty : option nat) s (e : scan_end) (s' : locks) : Prop :=
  match e with
  | Scanned em u => s' = s /\ u = false /\
      (forall i x, i ∈ l -> file_locks s !! i = Some x -> ~ conflicts x) /\
      match em with
      | None => empty = None /\ forall i x, i ∈ l -> file_locks s !! i = Some x -> used x
      | Some i => empty = Some i \/ exists x, i ∈ l /\ file_locks s !! i = Some x /\ ~ used x
      end
  | Conflict i => s' = s /\ req = F_GETLK /\ exists x, file_locks s !! i = Some x /\ conflicts x
  | Returned r => (exists i x, file_locks s !! i = Some x /\ conflicts x) /\
      ((req = F_SETLK /\ r = EAGAIN /\ s' = s) \/ (req = F_SETLKW /\ r = SUSPEND /\ suspended s s'))
  end.

Lemma scan_set_cons i x l empty em s e s' :
  file_locks s !! i = Some x -> ~ conflicts x ->
  (em = empty /\ used x \/ em = match empty with None => Some i | Some _ => empty end /\ ~ used x) ->
  scan_set_post l em s e s' -> scan_set_post (i :: l) empty s e s'.
Proof.
  intros Hx Hc Hem. destruct e as [em' u|j|r]; [|done|done].
  intros (-> & -> & Hno & He). split_and!; [done..| |].
  - intros j y [->|Hj]%elem_of_cons Hy; [congruence|by eapply Hno].
  - destruct em' as [j|].
    + destruct He as [->|(y & Hj & Hy)]; [|right; exists y; by split; [right|]].
      destruct Hem as [[Hem _]|[Hem Hu]]; [by left|]. destruct empty as [k|]; [by left|].
      injection Hem as ->. right. exists x. by split; [left|].
    + destruct He as [-> He]. destruct Hem as [[<- Hu]|[Hem Hu]]; [|by destruct empty].
      split; [done|]. intros j y [->|Hj]%elem_of_cons Hy; [congruence|by eapply He].
Qed.

Lemma scan_set_ok l empty s :
  ltype = F_RDLCK \/ ltype = F_WRLCK -> Forall (fun i => (i < length (file_locks s))%nat) l ->
  is_Some (fprocs s !! fp s) ->
  wp (scan_locks l f req ltype pid first last empty false) (scan_set_post l empty s) s.
Proof.
  intros Ht Hl Hself. revert empty. induction Hl as [|i l Hi Hl IH]; intros empty.
  { apply wp_ret. split_and!; [done..| |]; [by intros ? ? ?%elem_of_nil|].
    destruct empty; [by left|]. split; [done|]. by intros ? ? ?%elem_of_nil. }
  apply lookup_lt_is_Some in Hi as [x Hx]. cbn. apply wp_bind, (wp_get_lock i x); [done|].
  assert (ltype =? F_UNLCK = false) as Hnu by (destruct Ht as [->| ->]; done).
  assert ((ltype =? F_RDLCK) || (ltype =? F_WRLCK) = true) as Hset by (destruct Ht as [->| ->]; done).
  assert (forall em, ~ conflicts x -> (em = empty /\ used x \/ em = match empty with None => Some i | Some _ => empty end /\ ~ used x) ->
    wp (scan_locks l f req ltype pid first last em false) (scan_set_post (i :: l) empty s) s) as Hnext.
  { intros em Hc Hem. eapply wp_mono; [apply IH|]. intros e s' He. by eapply scan_set_cons. }
  destruct (Z.eqb_spec (lock_type x) 0) as [E0|E0].
  { apply Hnext; [by intros [? _]|]. right. split; [done|]. by intros ?. }
  assert (used x) as Hu by done.
  destruct (Z.eqb_spec (lock_vnode x) (filp_vno f)) as [E1|E1]; cbn [negb].
  2:{ apply Hnext; [by intros (_ & ? & _)|by left]. }
  destruct (Z.ltb_spec last (lock_first x)) as [E2|E2].
  { apply Hnext; [intros (_ & _ & ? & _); lia|by left]. }
  destruct (Z.ltb_spec (lock_last x) first) as [E3|E3].
  { apply Hnext; [intros (_ & _ & _ & ? & _); lia|by left]. }
  destruct ((ltype =? F_RDLCK) && (lock_type x =? F_RDLCK)) eqn:E4.
  { apply andb_true_iff in E4 as [E4%Z.eqb_eq E5%Z.eqb_eq].
    apply Hnext; [intros (_ & _ & _ & _ & Hn & _); by apply Hn|by left]. }
  rewrite Hnu, Hset. cbn [negb andb]. destruct (Z.eqb_spec (lock_pid x) pid) as [E6|E6].
  { apply Hnext; [by intros (_ & _ & _ & _ & _ & ?)|by left]. }
  assert (conflicts x) as Hc.
  { split_and!; try done. intros [E5 E7]. rewrite E5, E7 in E4. done. }
  case_bool_decide as Eg; [apply wp_ret; split_and!; [done..|by exists x]|].
  assert (req = F_SETLK \/ req = F_SETLKW) as [Er|Er] by (clear - Eg; destruct req; auto; done); rewrite Er.
  { apply wp_ret. split; [by exists i, x|by left]. }
  apply wp_bind. eapply wp_mono; [by apply suspend_ok|]. intros [] s' Hs'. apply wp_ret.
  split; [by exists i, x|by right].
Qed.

(** The region that a request is about. *)
Definition in_region (v b : Z) : Prop := v = filp_vno f /\ first <= b <= last.

(** An unlock after [k] slots: nothing was added, nothing outside the region was lost, and
    the slots seen have no lock in the region. *)
Record unlocking (k : nat) (s0 s : locks) : Prop := {
  u_slots : length (file_locks s) = NR_LOCKS;
  u_count : nr_locks s = count_used (file_locks s);
  u_ok : Forall slot_ok (file_locks s);
  u_sub : forall v p t b, locked (file_locks s) v p t b -> locked (file_locks s0) v p t b;
  u_keep : forall v p t b, locked (file_locks s0) v p t b -> ~ in_region v b -> locked (file_locks s) v p t b;
  u_clear : forall i x, (i < k)%nat -> file_locks s !! i = Some x -> used x -> lock_vnode x = filp_vno f ->
              last < lock_first x \/ lock_last x < first;
  u_rest : fprocs s = fprocs s0 /\ fp s = fp s0 /\ reviving s = reviving s0;
}.

(** The next slot is replaced by [y], a part of [x] outside the region. *)
Lemma unlocking_step k s0 s x y :
  unlocking k s0 s -> file_locks s !! k = Some x ->
  slot_ok y -> (used y -> lock_vnode y = filp_vno f -> last < lock_first y \/ lock_last y < first) ->
  (forall v p t b, grants y v p t b -> grants x v p t b) ->
  (forall v p t b, grants x v p t b -> ~ in_region v b ->
     grants y v p t b \/ exists j z, j <> k /\ file_locks s !! j = Some z /\ grants z v p t b) ->
  unlocking (S k) s0 (mk_locks (<[k := y]> (file_locks s))
    (nr_locks s + (if decide (used y) then 1 else 0) - (if decide (used x) then 1 else 0))
    (fprocs s) (fp s) (reviving s)).
Proof.
  intros [Hl Hn Hok Hsub Hkeep Hclear Hrest] Hx Hy Hfree Hyx Hxy.
  assert (forall v p t b, locked (<[k := y]> (file_locks s)) v p t b -> locked (file_locks s) v p t b) as Hs1.
  { intros v p t b. rewrite (locked_insert _ k x), locked_lookup by done. intros [H|(j & z & _ & ? & ?)]; [|by exists j, z].
    exists k, x. split; [done|by apply Hyx]. }
  split; cbn; try done.
  - by rewrite length_insert.
  - rewrite Hn. unfold count_used. by rewrite (filter_insert_length used _ k x y).
  - by apply Forall_insert.
  - intros v p t b H. by apply Hsub, Hs1.
  - intros v p t b H Hr. specialize (Hkeep v p t b H Hr). apply locked_lookup in Hkeep as (j & z & Hj & Hz).
    apply (locked_insert _ k x); [done|]. destruct (decide (j = k)) as [->|Hne]; [|right; by exists j, z].
    apply Hxy; [congruence|done].
  - intros i z Hi Hz. destruct (decide (i = k)) as [->|Hne].
    + rewrite list_lookup_insert_eq in Hz by (by eapply lookup_lt_Some). injection Hz as <-. done.
    + rewrite list_lookup_insert_ne in Hz by done. apply (Hclear i); [lia|done].
Qed.

Lemma unlocking_skip k s0 s x :
  unlocking k s0 s -> file_locks s !! k = Some x ->
  (used x -> lock_vnode x = filp_vno f -> last < lock_first x \/ lock_last x < first) -> unlocking (S k) s0 s.
Proof.
  intros [] Hx Hfree. split; try done. intros i z Hi Hz. destruct (decide (i = k)) as [->|Hne].
  - assert (z = x) as -> by congruence. done.
  - apply (u_clear0 i); [lia|done].
Qed.

(** The second part of a lock that is split goes to a free slot. *)
Lemma unlocking_piece k s0 s x j z y :
  unlocking k s0 s -> file_locks s !! k = Some x -> file_locks s !! j = Some z -> ~ used z ->
  used y -> slot_ok y -> last < lock_first y ->
  (forall v p t b, grants y v p t b -> grants x v p t b) ->
  unlocking k s0 (mk_locks (<[j := y]> (file_locks s)) (nr_locks s + 1) (fprocs s) (fp s) (reviving s)).
Proof.
  intros [Hl Hn Hok Hsub Hkeep Hclear Hrest] Hx Hz Hfree Hu Hy Hlast Hyx. split; cbn; try done.
  - by rewrite length_insert.
  - rewrite Hn. unfold count_used. rewrite (filter_insert_length used _ j z y) by done.
    rewrite decide_True, decide_False by done. lia.
  - by apply Forall_insert.
  - intros v p t b. rewrite (locked_insert _ j z) by done. intros [H|(i & w & _ & ? & ?)].
    + apply Hsub, locked_lookup. exists k, x. split; [done|by apply Hyx].
    + apply Hsub, locked_lookup. by exists i, w.
  - intros v p t b H Hr. specialize (Hkeep v p t b H Hr). apply locked_lookup in Hkeep as (i & w & Hi & Hw).
    apply (locked_insert _ j z); [done|]. right. exists i, w. split; [|done]. intros ->.
    apply Hfree. assert (w = z) as -> by congruence. apply Hw.
  - intros i w Hi Hw Hused Hv. destruct (decide (i = j)) as [->|Hne].
    + rewrite list_lookup_insert_eq in Hw by (by eapply lookup_lt_Some). injection Hw as <-. by left.
    + rewrite list_lookup_insert_ne in Hw by done. by apply (Hclear i w).
Qed.

Context (Hreg : - 2 ^ 63 <= first <= last) (Hlast : last < 2 ^ 63 - 1).

(** The part of a lock outside the region, on one side of it. *)
Lemma grants_part x y v p t b :
  used x -> lock_type y = lock_type x -> lock_pid y = lock_pid x -> lock_vnode y = lock_vnode x ->
  lock_first x <= lock_first y -> lock_last y <= lock_last x -> grants y v p t b -> grants x v p t b.
Proof.
  unfold grants, used, covers. intros Hu -> -> -> H1 H2 (? & ? & ? & ? & ?). split_and!; try done; lia.
Qed.

Lemma grants_outside x y v p t b :
  lock_vnode x = filp_vno f -> lock_type y = lock_type x -> lock_pid y = lock_pid x -> lock_vnode y = lock_vnode x ->
  ((b < first -> lock_first x <= b <= lock_last x -> lock_first y <= b <= lock_last y) /\
   (last < b -> lock_first x <= b <= lock_last x -> lock_first y <= b <= lock_last y)) ->
  grants x v p t b -> ~ in_region v b -> grants y v p t b.
Proof.
  unfold grants, used, covers, in_region. intros Hv -> -> -> [Hb1 Hb2] (? & <- & ? & ? & ?) Hn.
  split_and!; try done; destruct (decide (b < first)); try (apply Hb1; lia); apply Hb2; try lia;
    destruct (decide (b <= last)); try lia; exfalso; apply Hn; split; try done; lia.
Qed.

Definition slot_post (k : nat) (x : file_lock) (s0 s : locks) (r : option ecode) (s' : locks) : Prop :=
  match r with
  | None => unlocking (S k) s0 s'
  | Some e => e = ENOLCK /\ s' = s /\ nr_locks s = Z.of_nat NR_LOCKS /\ lock_first x < first /\ last < lock_last x
  end.

Lemma nr_locks_range k s0 s : unlocking k s0 s -> 0 <= nr_locks s <= Z.of_nat NR_LOCKS.
Proof. intros H. rewrite (u_count _ _ _ H), <- (u_slots _ _ _ H). apply count_used_range. Qed.

(** A lock that the region splits. *)
Lemma unlock_middle_ok k s0 s x :
  unlocking k s0 s -> file_locks s !! k = Some x -> used x -> lock_vnode x = filp_vno f ->
  lock_first x < first -> last < lock_last x ->
  wp (unlock_slot first last k x) (slot_post k x s0 s) s.
Proof.
  intros Hun Hx Hu Hv F L. pose proof (nr_locks_range _ _ _ Hun) as Hnr. unfold NR_LOCKS in Hnr.
  pose proof (proj1 (Forall_lookup _ _) (u_ok _ _ _ Hun) k x Hx Hu) as (Hty & Hord & Hmax & Hlen).
  unfold unlock_slot.
  replace (first <=? lock_first x) with false by lia. replace (lock_last x <=? last) with false by lia. cbn [andb].
  apply wp_bind, wp_gets. destruct (Z.eqb_spec (nr_locks s) (Z.of_nat NR_LOCKS)) as [E|E].
  { apply wp_ret. by split_and!. }
  apply wp_bind, wp_gets. destruct (count_used_full (file_locks s)) as (j & z & Hj);
    [apply Hun|by rewrite <- (u_count _ _ _ Hun)|]. rewrite Hj.
  apply list_find_Some in Hj as (Hz & Hz0 & _).
  apply wp_bind, (wp_lift _ (last + 1)); [unfold off_ok; by rewrite decide_True by lia|].
  apply wp_bind, (wp_lift _ (first - 1)); [unfold off_ok; by rewrite decide_True by lia|].
  apply wp_bind, (wp_put_lock j z); [done|].
  set (y := mk_file_lock (lock_type x) (lock_pid x) (lock_vnode x) (last + 1) (lock_last x)).
  assert (j <> k) as Hjk by (intros ->; assert (z = x) as -> by congruence; done).
  assert (file_locks (with_locks (<[j := y]> (file_locks s)) s) !! k = Some x) as Hx'
    by (cbn; by rewrite list_lookup_insert_ne).
  apply wp_bind, (wp_put_lock k x); [done|]. apply wp_bind, wp_count; [cbn; unfold INT_MIN, INT_MAX; lia|]. apply wp_ret.
  assert (forall v p t b, grants y v p t b -> grants x v p t b) as Hyx.
  { intros v p t b. apply grants_part; try done; cbn; lia. }
  assert (slot_ok y) as Hy by (intros _; cbn; split_and!; try done; lia).
  pose proof (unlocking_piece k s0 s x j z y Hun Hx Hz (fun H => H Hz0) Hu Hy ltac:(cbn; lia) Hyx) as Hun2.
  pose proof (unlocking_step k s0 _ x (set_lock_last (first - 1) x) Hun2 Hx') as Hs. cbn in Hs.
  rewrite !decide_True in Hs by done. replace (nr_locks s + 1 + 1 - 1) with (nr_locks s + 1) in Hs by lia. apply Hs.
  + intros _. cbn. split_and!; try done; lia.
  + intros _ _. right. cbn. lia.
  + intros v p t b. apply grants_part; try done; cbn; lia.
  + intros v p t b Hg Hr. destruct (decide (b < first)) as [Hb|Hb].
    * left. revert Hg Hr. apply grants_outside; try done. cbn. split; lia.
    * right. exists j, y. split_and!; [done|by rewrite list_lookup_insert_eq by (by eapply lookup_lt_Some)|].
      revert Hg Hr. apply grants_outside; try done. cbn. split; lia.
Qed.

Lemma unlock_slot_ok k s0 s x :
  unlocking k s0 s -> file_locks s !! k = Some x -> used x -> lock_vnode x = filp_vno f ->
  lock_first x <= last -> first <= lock_last x ->
  wp (unlock_slot first last k x) (slot_post k x s0 s) s.
Proof.
  intros Hun Hx Hu Hv H1 H2. pose proof (nr_locks_range _ _ _ Hun) as Hnr. unfold NR_LOCKS in Hnr.
  pose proof (proj1 (Forall_lookup _ _) (u_ok _ _ _ Hun) k x Hx Hu) as (Hty & Hord & Hmax & Hlen).
  destruct (decide (lock_first x < first /\ last < lock_last x)) as [[??]|Hmid]; [by apply unlock_middle_ok|].
  unfold unlock_slot.
  destruct (Z.leb_spec first (lock_first x)) as [F|F]; destruct (Z.leb_spec (lock_last x) last) as [L|L]; cbn [andb].
  - apply wp_bind, (wp_put_lock k x); [done|]. apply wp_bind, wp_count; [cbn; unfold INT_MIN, INT_MAX; lia|].
    apply wp_ret. cbn. replace (nr_locks s + -1) with (nr_locks s + 0 - 1) by lia.
    assert (~ used (set_lock_type 0 x)) as Hnu by (intros Hn; by apply Hn).
    pose proof (unlocking_step k s0 s x (set_lock_type 0 x) Hun Hx) as Hs.
    rewrite decide_False, decide_True in Hs by done. apply Hs.
    + by intros Hn.
    + by intros Hn.
    + by intros v p t b [Hn _].
    + intros v p t b (_ & Hv' & _ & _ & Hc) Hr. exfalso. apply Hr. unfold in_region, covers in *. split; [congruence|lia].
  - apply wp_bind, (wp_lift _ (last + 1)); [unfold off_ok; by rewrite decide_True by lia|].
    apply wp_bind, (wp_put_lock k x); [done|]. apply wp_ret.
    pose proof (unlocking_step k s0 s x (set_lock_first (last + 1) x) Hun Hx) as Hs.
    rewrite !decide_True in Hs by done. replace (nr_locks s + 1 - 1) with (nr_locks s) in Hs by lia. apply Hs.
    + intros _. cbn. split_and!; try done; lia.
    + intros _ _. left. cbn. lia.
    + intros v p t b. apply grants_part; try done; cbn; lia.
    + intros v p t b Hg Hr. left. revert Hg Hr. apply grants_outside; try done. cbn. split; lia.
  - apply wp_bind, (wp_lift _ (first - 1)); [unfold off_ok; by rewrite decide_True by lia|].
    apply wp_bind, (wp_put_lock k x); [done|]. apply wp_ret.
    pose proof (unlocking_step k s0 s x (set_lock_last (first - 1) x) Hun Hx) as Hs.
    rewrite !decide_True in Hs by done. replace (nr_locks s + 1 - 1) with (nr_locks s) in Hs by lia. apply Hs.
    + intros _. cbn. split_and!; try done; lia.
    + intros _ _. right. cbn. lia.
    + intros v p t b. apply grants_part; try done; cbn; lia.
    + intros v p t b Hg Hr. left. revert Hg Hr. apply grants_outside; try done. cbn. split; lia.
  - exfalso. by apply Hmid.
Qed.

(** The scan of an unlock from slot [k] on. *)
Definition scan_unlock_post (unl : bool) (s0 s : locks) (e : scan_end) (s' : locks) : Prop :=
  match e with
  | Scanned _ u => unlocking NR_LOCKS s0 s' /\ (unl = true -> u = true) /\ (u = false -> s' = s)
  | Conflict _ => False
  | Returned r => r = ENOLCK /\ nr_locks s' = Z.of_nat NR_LOCKS /\ exists k x, unlocking k s0 s' /\
      file_locks s' !! k = Some x /\ used x /\ lock_vnode x = filp_vno f /\ lock_first x < first /\ last < lock_last x
  end.

Lemma scan_unlock_ok n k s0 s empty unl :
  ltype = F_UNLCK -> req <> F_GETLK -> (k + n = NR_LOCKS)%nat -> unlocking k s0 s ->
  wp (scan_locks (seq k n) f req ltype pid first last empty unl) (scan_unlock_post unl s0 s) s.
Proof.
  intros Ht Hreq. revert k s empty unl. induction n as [|n IH]; intros k s empty unl Hk Hun.
  { apply wp_ret. cbn [scan_unlock_post]. replace NR_LOCKS with k by lia. by split_and!. }
  destruct (lookup_lt_is_Some_2 (file_locks s) k) as [x Hx]; [rewrite (u_slots _ _ _ Hun); lia|].
  cbn. apply wp_bind, (wp_get_lock k x); [done|].
  assert (forall em, (used x -> lock_vnode x = filp_vno f -> last < lock_first x \/ lock_last x < first) ->
    wp (scan_locks (seq (S k) n) f req ltype pid first last em unl) (scan_unlock_post unl s0 s) s) as Hskip.
  { intros em Hfree. apply IH; [lia|]. by apply (unlocking_skip k s0 s x). }
  destruct (Z.eqb_spec (lock_type x) 0) as [E0|E0]; [apply Hskip; by intros Hu|].
  destruct (Z.eqb_spec (lock_vnode x) (filp_vno f)) as [E1|E1]; cbn [negb]; [|apply Hskip; by intros _ ?].
  destruct (Z.ltb_spec last (lock_first x)) as [E2|E2]; [apply Hskip; lia|].
  destruct (Z.ltb_spec (lock_last x) first) as [E3|E3]; [apply Hskip; lia|].
  rewrite Ht. cbn [Z.eqb F_UNLCK F_RDLCK F_WRLCK andb orb negb Pos.eqb].
  rewrite bool_decide_eq_false_2 by done. rewrite <- Ht.
  apply wp_bind. eapply wp_mono; [by apply (unlock_slot_ok k s0 s x)|].
  intros [e|] s1; cbn [slot_post].
  { intros (-> & -> & Hn & F & L). apply wp_ret. cbn. split_and!; [done..|]. by exists k, x. }
  intros Hun1. eapply wp_mono; [apply IH; [lia|done]|].
  intros [em u|i|r] s2; cbn [scan_unlock_post]; [|done|done].
  intros (H1 & H2 & _). split_and!; [done|by auto|]. intros ->. by discriminate H2.
Qed.
End scan.

(** ** What a request does to the locks *)

Lemma off_ok_inv z r : off_ok z = Ok r -> r = z /\ - 2 ^ 63 <= z < 2 ^ 63.
Proof. unfold off_ok. case_decide; [|done]. by intros [= ->]. Qed.

(** A region is never empty and fits an [off_t]. *)
Lemma lock_region_inv f req flk first last :
  lock_region f req flk = Ok (inr (first, last)) ->
  (l_type flk = F_UNLCK /\ req <> F_GETLK \/ l_type flk = F_RDLCK \/ l_type flk = F_WRLCK) /\
  - 2 ^ 63 <= first <= last /\ last < 2 ^ 63 - 1.
Proof.
  unfold lock_region. case_match eqn:E1; [done|]. case_match eqn:E2; [done|]. do 3 (case_match; [done|]).
  destruct (if l_whence flk =? SEEK_SET then _ else _) as [base|]; [|done]. destruct (off_ok _) as [a|] eqn:Ea; [|done]. cbn. do 2 (case_match; [done|]).
  destruct (off_ok (a + _)) as [e|] eqn:Ee; [|done]. cbn. destruct (off_ok (e - 1)) as [l|] eqn:El; [|done]. cbn.
  apply off_ok_inv in Ea as [-> Ha], Ee as [-> He], El as [-> Hl].
  case_match eqn:Elt; [done|]. intros Heq. injection Heq as <- <-. split.
  - destruct (decide (l_type flk = F_UNLCK)) as [E|E]; [left; split; [done|]|right].
    { intros ->. by rewrite E in E2. }
    destruct (decide (l_type flk = F_RDLCK)); [by left|]. right. lia.
  - apply Z.ltb_ge in Elt. destruct (l_len flk =? 0); unfold MAX_FILE_POS in *; lia.
Qed.

(** Another process has a lock in the region that excludes a lock of kind [ltype] there. *)
Definition blocked_by (f : filp) (ltype pid first last : Z) (l : list file_lock) : Prop :=
  exists p t b, p <> pid /\ first <= b <= last /\ locked l (filp_vno f) p t b /\ ~ (ltype = F_RDLCK /\ t = F_RDLCK).

Lemma conflicts_blocked f ltype pid first last l i x :
  first <= last -> Forall slot_ok l -> l !! i = Some x -> conflicts f ltype pid first last x ->
  blocked_by f ltype pid first last l.
Proof.
  intros Hreg Hok Hx (Hu & Hv & H1 & H2 & H3 & H4).
  pose proof (proj1 (Forall_lookup _ _) Hok i x Hx Hu) as (_ & Hord & _).
  exists (lock_pid x), (lock_type x), (Z.max first (lock_first x)). split_and!; [done|lia|lia| |done].
  apply locked_lookup. exists i, x. split; [done|]. split_and!; try done. split; lia.
Qed.

Lemma blocked_conflicts f ltype pid first last l :
  blocked_by f ltype pid first last l -> exists i x, l !! i = Some x /\ conflicts f ltype pid first last x.
Proof.
  intros (p & t & b & Hp & Hb & (i & x & Hx & Hu & Hv & <- & <- & Hc)%locked_lookup & Ht).
  exists i, x. split; [done|]. unfold covers in Hc. split_and!; try done; lia.
Qed.

(** What F_GETLK reports. *)
Definition get_spec (f : filp) (flk : flock) (copy_out : flock -> ecode) (pid first last : Z) (s : locks)
    (r : ecode) (out : option flock) (s' : locks) : Prop :=
  s' = s /\ exists o, out = Some o /\ r = copy_out o /\
  ((l_type o = F_UNLCK /\ ~ blocked_by f (l_type flk) pid first last (file_locks s)) \/
   (l_type o <> F_UNLCK /\ l_pid o <> pid /\ l_whence o = SEEK_SET /\ blocked_by f (l_type flk) pid first last (file_locks s) /\
    (forall b, l_start o <= b < l_start o + l_len o -> locked (file_locks s) (filp_vno f) (l_pid o) (l_type o) b))).

(** What a lock adds, and when it is refused. *)
Definition set_spec (f : filp) (req : lock_req) (ltype pid first last : Z) (s : locks) (r : ecode) (s' : locks) : Prop :=
  (r = OK /\ ~ blocked_by f ltype pid first last (file_locks s) /\ fprocs s' = fprocs s /\
     forall v p t b, locked (file_locks s') v p t b <->
       locked (file_locks s) v p t b \/ in_region f first last v b /\ p = pid /\ t = ltype) \/
  (r = ENOLCK /\ ~ blocked_by f ltype pid first last (file_locks s) /\ s' = s /\ nr_locks s = Z.of_nat NR_LOCKS) \/
  (blocked_by f ltype pid first last (file_locks s) /\ file_locks s' = file_locks s /\
     match req with F_SETLK => r = EAGAIN /\ s' = s | _ => r = SUSPEND /\ suspended s s' end).

(** What an unlock removes, and who is woken. *)
Definition unlock_spec (f : filp) (first last : Z) (s : locks) (r : ecode) (s' : locks) : Prop :=
  (r = OK /\ (forall v p t b, locked (file_locks s') v p t b <->
       locked (file_locks s) v p t b /\ ~ in_region f first last v b) /\
     (s' = s \/ fprocs s' = wake <$> fprocs s)) \/
  (r = ENOLCK /\ nr_locks s' = Z.of_nat NR_LOCKS /\ fprocs s' = fprocs s /\
     (exists p t, locked (file_locks s') (filp_vno f) p t (first - 1) /\ locked (file_locks s') (filp_vno f) p t (last + 1)) /\
     (forall v p t b, locked (file_locks s') v p t b -> locked (file_locks s) v p t b) /\
     (forall v p t b, locked (file_locks s) v p t b -> ~ in_region f first last v b -> locked (file_locks s') v p t b)).

Definition lock_spec (f : filp) (req : lock_req) (flk : flock) (copy_out : flock -> ecode) (pid first last : Z)
    (s : locks) (r : ecode) (out : option flock) (s' : locks) : Prop :=
  match req with
  | F_GETLK => get_spec f flk copy_out pid first last s r out s'
  | _ => out = None /\
      if decide (l_type flk = F_UNLCK) then unlock_spec f first last s r s'
      else set_spec f req (l_type flk) pid first last s r s'
  end.

(** *** The three cases *)

Lemma unlocking_0 f first last s : locks_ok s -> unlocking f first last 0 s s.
Proof. intros []. split; try done. intros i x Hi. lia. Qed.

Lemma unlocking_ok f first last k s0 s : unlocking f first last k s0 s -> locks_ok s0 -> locks_ok s.
Proof.
  intros [? ? ? Hsub ? ? (Hf & Hp & Hr)] [? ? ? Hex ? ?]. split; rewrite ?Hf, ?Hp, ?Hr; try done.
  by apply (exclusive_sub (file_locks s0)).
Qed.

(** After the whole scan the region is free. *)
Lemma unlocking_all f first last s0 s : unlocking f first last NR_LOCKS s0 s ->
  forall v p t b, locked (file_locks s) v p t b <-> locked (file_locks s0) v p t b /\ ~ in_region f first last v b.
Proof.
  intros Hun v p t b. split; [|intros [H1 H2]; by apply (u_keep _ _ _ _ _ _ Hun)].
  intros H. split; [by apply (u_sub _ _ _ _ _ _ Hun)|]. intros [-> Hb].
  apply locked_lookup in H as (i & x & Hx & Hu & Hv & _ & _ & Hc). unfold covers in Hc.
  destruct (u_clear _ _ _ _ _ _ Hun i x) as [?|?]; try done; try lia.
  rewrite <- (u_slots _ _ _ _ _ _ Hun). by eapply lookup_lt_Some.
Qed.

(** A new lock in a free slot. *)
Lemma locked_add f ltype pid first last l i z v p t b :
  ltype <> 0 -> l !! i = Some z -> ~ used z ->
  locked (<[i := mk_file_lock ltype pid (filp_vno f) first last]> l) v p t b <->
  locked l v p t b \/ in_region f first last v b /\ p = pid /\ t = ltype.
Proof.
  intros Ht Hz Hnu. rewrite (locked_insert _ i z) by done. rewrite (locked_lookup l). unfold grants, in_region, covers, used.
  cbn. split.
  - intros [(? & <- & <- & <- & ?)|(j & w & _ & Hj & Hw)]; [by right|left; by exists j, w].
  - intros [(j & w & Hj & Hw)|([-> ?] & -> & ->)]; [right|by left].
    exists j, w. split; [|done]. intros ->. assert (w = z) as -> by congruence. by apply Hnu, Hw.
Qed.

Lemma exclusive_add f ltype pid first last l l' :
  ltype = F_RDLCK \/ ltype = F_WRLCK -> exclusive l -> ~ blocked_by f ltype pid first last l ->
  (forall v p t b, locked l' v p t b <-> locked l v p t b \/ in_region f first last v b /\ p = pid /\ t = ltype) ->
  exclusive l'.
Proof.
  intros Hty Hex Hnb Hl.
  assert (forall v b q t, locked l v q t b -> q <> pid -> in_region f first last v b -> ltype = F_RDLCK /\ t = F_RDLCK) as Hnew.
  { intros v b q t Hq Hne [-> Hb]. destruct (decide (ltype = F_RDLCK /\ t = F_RDLCK)); [done|].
    exfalso. apply Hnb. by exists q, t, b. }
  intros v b p1 t1 p2 t2 [H1|(Hr & -> & ->)]%Hl [H2|(Hr2 & -> & ->)]%Hl Hne.
  - by apply (Hex v b p1 t1 p2 t2).
  - apply and_comm. by apply (Hnew v b p1).
  - by apply (Hnew v b p2).
  - done.
Qed.

Section lock_op.
Context (f : filp) (flk : flock) (copy_out : flock -> ecode) (first last : Z) (s : locks) (p : fproc).
Context (Hok : locks_ok s) (Hp : fprocs s !! fp s = Some p).
Context (Hreg : - 2 ^ 63 <= first <= last) (Hlast : last < 2 ^ 63 - 1) (Hlen : last - first + 1 < 2 ^ 63).

Definition lock_post (req : lock_req) (ro : ecode * option flock) (s' : locks) : Prop :=
  locks_ok s' /\ fp s' = fp s /\ length (fprocs s') = length (fprocs s) /\
  lock_spec f req flk copy_out (fp_pid p) first last s (fst ro) (snd ro) s'.

Lemma lock_op_scan req (Q : ecode * option flock -> locks -> Prop) :
  lock_region f req flk = Ok (inr (first, last)) ->
  wp (scan_locks (seq 0 NR_LOCKS) f req (l_type flk) (fp_pid p) first last None false)
    (fun e s1 => wp (lock_finish f req flk copy_out (fp_pid p) first last e) Q s1) s ->
  wp (lock_op f req (Some flk) copy_out) Q s.
Proof using Hp.
  intros Hr H. unfold lock_op. apply wp_bind, (wp_lift _ _ _ _ Hr). cbv zeta.
  apply wp_bind, wp_gets, wp_bind, (wp_get_fproc _ p); [done|]. by apply wp_bind.
Qed.

Lemma slots_in_range : Forall (fun i => (i < length (file_locks s))%nat) (seq 0 NR_LOCKS).
Proof using Hok. apply Forall_forall. intros i Hi%elem_of_seq. rewrite (lo_slots _ Hok). lia. Qed.

(** A scan that saw no conflict. *)
Lemma scan_no_conflict :
  (forall i x, i ∈ seq 0 NR_LOCKS -> file_locks s !! i = Some x -> ~ conflicts f (l_type flk) (fp_pid p) first last x) ->
  ~ blocked_by f (l_type flk) (fp_pid p) first last (file_locks s).
Proof using Hok.
  intros Hno (i & x & Hx & Hc)%blocked_conflicts. revert Hc. apply (Hno i x); [|done].
  apply elem_of_seq. pose proof (lookup_lt_Some _ _ _ Hx) as Hlt. rewrite (lo_slots _ Hok) in Hlt. lia.
Qed.

Lemma lock_add_ok req i x :
  l_type flk = F_RDLCK \/ l_type flk = F_WRLCK -> req <> F_GETLK ->
  ~ blocked_by f (l_type flk) (fp_pid p) first last (file_locks s) ->
  file_locks s !! i = Some x -> ~ used x ->
  wp (lock_finish f req flk copy_out (fp_pid p) first last (Scanned (Some i) false)) (lock_post req) s.
Proof using Hok Hp Hreg Hlast Hlen.
  intros Hty Hreq Hnb Hx Hnu. cbn [lock_finish]. apply wp_bind, wp_ret.
  assert (l_type flk <> F_UNLCK /\ l_type flk <> 0) as [Hn1 Hn2] by (destruct Hty as [->| ->]; done).
  rewrite bool_decide_eq_false_2, (proj2 (Z.eqb_neq _ _) Hn1) by done.
  apply wp_bind, (wp_put_lock i x); [done|]. set (y := mk_file_lock _ _ _ _ _).
  destruct Hok as [Hl Hn Hf Hex Hself Hrev].
  apply wp_bind, wp_count; [cbn; rewrite Hn; pose proof (count_used_range (file_locks s)); unfold INT_MIN, INT_MAX, NR_LOCKS in *; lia|].
  apply wp_ret.
  assert (forall v q t b, locked (<[i := y]> (file_locks s)) v q t b <->
    locked (file_locks s) v q t b \/ in_region f first last v b /\ q = fp_pid p /\ t = l_type flk) as Hlk.
  { intros v q t b. by apply (locked_add f _ _ _ _ _ _ x). }
  split; [split; cbn|split; [done|split; [done|]]].
  - by rewrite length_insert.
  - rewrite Hn. unfold count_used. rewrite (filter_insert_length used _ i x y) by done.
    rewrite decide_True, decide_False by done. lia.
  - apply Forall_insert; [done|]. intros _. cbn. split_and!; try done; lia.
  - by eapply exclusive_add.
  - done.
  - done.
  - assert (set_spec f req (l_type flk) (fp_pid p) first last s OK
      (with_nr (nr_locks s + 1) (with_locks (<[i := y]> (file_locks s)) s))) as Hspec by (left; split_and!; done).
    unfold lock_spec. cbn [fst snd]. rewrite decide_False by done. by destruct req.
Qed.

Lemma lock_set_ok req :
  l_type flk = F_RDLCK \/ l_type flk = F_WRLCK -> req <> F_GETLK ->
  lock_region f req flk = Ok (inr (first, last)) -> wp (lock_op f req (Some flk) copy_out) (lock_post req) s.
Proof using Hok Hp Hreg Hlast Hlen.
  intros Hty Hreq Hr. apply lock_op_scan; [done|].
  assert (l_type flk <> F_UNLCK) as Hn1 by (destruct Hty as [->| ->]; done).
  assert (forall r s', locks_ok s' -> fp s' = fp s -> length (fprocs s') = length (fprocs s) ->
    set_spec f req (l_type flk) (fp_pid p) first last s r s' -> lock_post req (r, None) s') as Hpost.
  { intros r s' H1 H2 H3 H4. split_and!; try done. unfold lock_spec. cbn [fst snd]. rewrite decide_False by done. by destruct req. }
  eapply wp_mono; [apply (scan_set_ok f req (l_type flk) (fp_pid p) first last); [done|apply slots_in_range|by apply Hok]|].
  intros [em u|i|r] s1; [|by intros (_ & ? & _)|].
  - intros (-> & -> & Hno%scan_no_conflict & Hem). destruct em as [i|].
    + destruct Hem as [?|(x & _ & Hx & Hnu)]; [done|]. by apply (lock_add_ok req i x).
    + destruct Hem as [_ Hall]. cbn [lock_finish]. apply wp_bind, wp_ret.
      rewrite bool_decide_eq_false_2, (proj2 (Z.eqb_neq _ _) Hn1) by done. apply wp_ret, Hpost; try done.
      right. left. split_and!; try done. rewrite (lo_count _ Hok). unfold count_used.
      rewrite list_filter_all; [by rewrite (lo_slots _ Hok)|]. apply Forall_lookup. intros i x Hx. apply (Hall i x); [|done].
      apply elem_of_seq. pose proof (lookup_lt_Some _ _ _ Hx) as Hlt. rewrite (lo_slots _ Hok) in Hlt. lia.
  - intros [(i & x & Hx & Hc) Hres]. apply wp_ret.
    pose proof (conflicts_blocked _ _ _ _ _ _ _ _ (proj2 Hreg) (lo_ok _ Hok) Hx Hc) as Hb.
    destruct Hres as [(-> & -> & ->)|(-> & -> & Hs)]; apply Hpost; try done.
    + right. right. split_and!; done.
    + by apply (same_table_ok s), Hok; apply Hs.
    + apply Hs.
    + apply Hs.
    + right. right. split_and!; try done. apply Hs.
Qed.

Lemma lock_get_ok :
  l_type flk = F_RDLCK \/ l_type flk = F_WRLCK ->
  lock_region f F_GETLK flk = Ok (inr (first, last)) -> wp (lock_op f F_GETLK (Some flk) copy_out) (lock_post F_GETLK) s.
Proof using Hok Hp Hreg.
  intros Hty Hr. apply lock_op_scan; [done|].
  eapply wp_mono; [apply (scan_set_ok f F_GETLK (l_type flk) (fp_pid p) first last); [done|apply slots_in_range|by apply Hok]|].
  intros [em u|i|r] s1; [| |by intros [_ [(? & _)|(? & _)]]].
  - intros (-> & -> & Hno%scan_no_conflict & _). cbn [lock_finish]. apply wp_bind, wp_ret.
    rewrite bool_decide_eq_true_2 by done. apply wp_ret. split_and!; try done.
    cbn [lock_spec]. split; [done|]. eexists. split_and!; [done..|]. by left.
  - intros (-> & _ & x & Hx & Hc). cbn [lock_finish]. apply wp_bind, (wp_get_lock i x); [done|].
    pose proof Hc as (Hu & Hv & _ & _ & _ & Hpid).
    pose proof (proj1 (Forall_lookup _ _) (lo_ok _ Hok) i x Hx Hu) as (Hxt & Hord & Hmax & Hxlen).
    apply wp_bind, (wp_lift _ (lock_last x - lock_first x + 1)).
    { unfold off_ok. rewrite decide_True by lia. cbn. by rewrite decide_True by lia. }
    apply wp_ret. split_and!; try done. cbn [lock_spec]. split; [done|]. eexists. split_and!; [done..|]. right. cbn.
    split_and!; try done; [by destruct Hxt as [->| ->]|by eapply conflicts_blocked; [apply Hreg|apply Hok|..]|].
    intros b Hb. apply locked_lookup. exists i, x. split; [done|]. split_and!; try done. split; lia.
Qed.

Lemma lock_unlock_ok req :
  l_type flk = F_UNLCK -> req <> F_GETLK ->
  lock_region f req flk = Ok (inr (first, last)) -> wp (lock_op f req (Some flk) copy_out) (lock_post req) s.
Proof using Hok Hp Hreg Hlast.
  intros Hty Hreq Hr. apply lock_op_scan; [done|].
  assert (forall r s', locks_ok s' -> fp s' = fp s -> length (fprocs s') = length (fprocs s) ->
    unlock_spec f first last s r s' -> lock_post req (r, None) s') as Hpost.
  { intros r s' H1 H2 H3 H4. split_and!; try done. unfold lock_spec. cbn [fst snd]. rewrite decide_True by done. by destruct req. }
  eapply wp_mono; [apply (scan_unlock_ok f req (l_type flk) (fp_pid p) first last Hreg Hlast NR_LOCKS 0 s s None false);
    [done..|by apply unlocking_0]|].
  intros [em u|i|r] s1; [|done|].
  - intros (Hun & _ & Hu). pose proof (unlocking_ok _ _ _ _ _ _ Hun Hok) as Hok1. cbn [lock_finish].
    pose proof (u_rest _ _ _ _ _ _ Hun) as (Hrf & Hrp & Hrr).
    apply wp_bind. eapply (wp_mono _ (fun _ s2 => same_table s1 s2 /\ (s2 = s \/ fprocs s2 = wake <$> fprocs s))).
    { destruct u; cbn [when].
      - eapply wp_mono; [apply lock_revive_ok, Hok1|]. intros [] s2 [H1 H2]. split; [done|]. right. by rewrite H2, Hrf.
      - apply wp_ret. split; [apply same_table_refl|]. left. by apply Hu. }
    intros [] s2 [Hst Hw]. rewrite bool_decide_eq_false_2, (proj2 (Z.eqb_eq _ _) Hty) by done. apply wp_ret.
    pose proof Hst as (Hf & _ & Hsf & Hlf & _). apply Hpost; [by eapply same_table_ok|congruence|congruence|].
    left. split_and!; [done| |done]. rewrite Hf. by apply unlocking_all.
  - intros (-> & Hn & k & x & Hun & Hx & Hu & Hv & F & L). apply wp_ret.
    pose proof (u_rest _ _ _ _ _ _ Hun) as (Hrf & Hrp & _).
    apply Hpost; [by eapply unlocking_ok|done|congruence|]. right. split_and!; try done; [|apply Hun..].
    exists (lock_pid x), (lock_type x). split; apply locked_lookup; exists k, x; (split; [done|]); split_and!; try done; split; lia.
Qed.

Lemma lock_op_ok req :
  lock_region f req flk = Ok (inr (first, last)) -> wp (lock_op f req (Some flk) copy_out) (lock_post req) s.
Proof using Type*.
  intros Hr. destruct (lock_region_inv _ _ _ _ _ Hr) as ([[Hty Hreq]|Hty] & _ & _); [by apply lock_unlock_ok|].
  destruct (decide (req = F_GETLK)) as [->|Hreq]; [by apply lock_get_ok|by apply lock_set_ok].
Qed.
End lock_op.

(** ** Closing a file *)

Section close.
Context (vp pid : Z).

Definition owned (x : file_lock) : bool :=
  negb (lock_type x =? 0) && (lock_vnode x =? vp) && (lock_pid x =? pid).
Definition released (x : file_lock) : file_lock := if owned x then set_lock_type 0 x else x.

Lemma released_grants x v p t b : grants (released x) v p t b <-> grants x v p t b /\ ~ (v = vp /\ p = pid).
Proof.
  unfold released, owned, grants, used.
  destruct (Z.eqb_spec (lock_type x) 0) as [E|E]; cbn [negb andb]; [tauto|].
  destruct (Z.eqb_spec (lock_vnode x) vp) as [E1|E1]; cbn [andb].
  2:{ split; [|tauto]. intros H. split; [done|]. intros [-> _]. by apply E1, H. }
  destruct (Z.eqb_spec (lock_pid x) pid) as [E2|E2].
  2:{ split; [|tauto]. intros H. split; [done|]. intros [_ ->]. by apply E2, H. }
  cbn. split; [by intros [? _]|]. intros [(_ & <- & <- & _) Hn]. exfalso. by apply Hn.
Qed.

Lemma released_count i x l : l !! i = Some x ->
  count_used (<[i := released x]> l) = count_used l - (if owned x then 1 else 0).
Proof.
  intros Hx. unfold count_used. rewrite (filter_insert_length used l i x) by done. unfold released.
  destruct (owned x) eqn:Ho; [|case_decide; lia].
  unfold owned in Ho. rewrite decide_False, decide_True; [lia| |by intros Hn].
  intros H0. by rewrite H0 in Ho.
Qed.

Lemma release_slot_ok i x s :
  file_locks s !! i = Some x -> nr_locks s = count_used (file_locks s) -> (length (file_locks s) <= NR_LOCKS)%nat ->
  wp (release_slot vp pid i) (fun _ s' => s' = mk_locks (<[i := released x]> (file_locks s))
    (count_used (<[i := released x]> (file_locks s))) (fprocs s) (fp s) (reviving s)) s.
Proof.
  intros Hx Hn Hlen. pose proof (count_used_range (file_locks s)) as Hr. unfold NR_LOCKS in *.
  rewrite (released_count i x) by done. unfold release_slot. apply wp_bind, (wp_get_lock i x); [done|].
  assert (owned x = false -> s = mk_locks (<[i := released x]> (file_locks s))
    (count_used (file_locks s) - 0) (fprocs s) (fp s) (reviving s)) as Hskip.
  { intros Ho. unfold released. rewrite Ho, list_insert_id, Z.sub_0_r, <- Hn by done. by destruct s. }
  unfold owned in *. destruct (Z.eqb_spec (lock_type x) 0) as [E|E]; [by apply wp_ret, Hskip|]. cbn [negb andb] in *.
  destruct ((lock_vnode x =? vp) && (lock_pid x =? pid)) eqn:E2; [|by apply wp_ret, Hskip].
  apply wp_bind, (wp_put_lock i x); [done|]. apply wp_count; [cbn; unfold INT_MIN, INT_MAX; lia|].
  cbn. rewrite Hn. unfold released, owned. rewrite (proj2 (Z.eqb_neq _ _) E). cbn [negb andb]. by rewrite E2.
Qed.

Lemma release_all_ok s :
  locks_ok s ->
  wp (foreach (seq 0 NR_LOCKS) (release_slot vp pid)) (fun _ s' => s' = mk_locks (released <$> file_locks s)
    (count_used (released <$> file_locks s)) (fprocs s) (fp s) (reviving s)) s.
Proof.
  intros Hok. pose proof (lo_slots _ Hok) as Hl.
  set (T := fun k => (released <$> take k (file_locks s)) ++ drop k (file_locks s)).
  assert (forall k, length (T k) = length (file_locks s)) as HT.
  { intros k. unfold T. rewrite length_app, length_fmap, <- length_app. by rewrite take_drop. }
  set (I := fun k s' => s' = mk_locks (T k) (count_used (T k)) (fprocs s) (fp s) (reviving s)).
  eapply wp_mono; [apply (wp_foreach_seq I 0 NR_LOCKS)|].
  - unfold I. change (T 0%nat) with (file_locks s). rewrite <- (lo_count _ Hok). by destruct s.
  - intros i s1 [_ Hi] ->. cbn in Hi. destruct (lookup_lt_is_Some_2 (file_locks s) i) as [x Hx]; [lia|].
    assert (T i !! i = Some x) as Hx1.
    { unfold T. rewrite lookup_app_r, length_fmap, length_take, lookup_drop by (rewrite length_fmap, length_take; lia).
      by replace (i + (i - i `min` length (file_locks s)))%nat with i by lia. }
    eapply wp_mono; [apply (release_slot_ok i x); [done|done|cbn; rewrite HT; lia]|].
    intros [] s2 ->. unfold I. cbn. assert (<[i:=released x]> (T i) = T (i + 1)%nat) as ->; [|done].
    unfold T. rewrite Nat.add_1_r, (take_S_r _ _ _ Hx), fmap_app, (drop_S _ _ _ Hx). cbn.
    rewrite insert_app_r_alt by (rewrite length_fmap, length_take; lia).
    rewrite length_fmap, length_take, Nat.min_l, Nat.sub_diag by lia. by rewrite <- app_assoc.
  - intros [] s1 ->. unfold I, T. rewrite take_ge, drop_ge, app_nil_r by lia. done.
Qed.

Lemma released_unused x : owned x = true -> used x /\ ~ used (released x).
Proof.
  intros Ho. unfold released. rewrite Ho. split; [|by intros Hn]. intros E. unfold owned in Ho. by rewrite E in Ho.
Qed.

Lemma released_fewer l : released <$> l = l \/ count_used (released <$> l) < count_used l.
Proof.
  unfold count_used. induction l as [|x l IH]; [by left|]. cbn [fmap list_fmap]. rewrite !filter_cons.
  destruct (owned x) eqn:Ho.
  - apply released_unused in Ho as [Hu Hn]. right. rewrite decide_False, decide_True by done. cbn [length].
    destruct IH as [->|IH]; lia.
  - assert (released x = x) as -> by (unfold released; by rewrite Ho).
    destruct IH as [->|IH]; [by left|right]. case_decide; cbn [length]; lia.
Qed.

Lemma released_locked l v p t b :
  locked (released <$> l) v p t b <-> locked l v p t b /\ ~ (v = vp /\ p = pid).
Proof.
  rewrite !locked_lookup. split.
  - intros (i & x & Hx & Hg). rewrite list_lookup_fmap in Hx. destruct (l !! i) as [z|] eqn:Hz; [|done].
    injection Hx as <-. apply released_grants in Hg as [Hg Hn]. split; [by exists i, z|done].
  - intros [(i & z & Hz & Hg) Hn]. exists i, (released z). rewrite list_lookup_fmap, Hz. split; [done|]. by apply released_grants.
Qed.

Lemma released_ok s : locks_ok s ->
  locks_ok (mk_locks (released <$> file_locks s) (count_used (released <$> file_locks s)) (fprocs s) (fp s) (reviving s)).
Proof.
  intros [Hl Hn Hf Hex Hself Hrev]. split; cbn; try done.
  - by rewrite length_fmap.
  - apply Forall_fmap. eapply Forall_impl; [done|]. intros x Hx. cbn. unfold released.
    destruct (owned x); [by intros Hu|done].
  - eapply exclusive_sub; [|done]. intros v p t b. rewrite released_locked. tauto.
Qed.

Lemma close_locks_ok s rfp p :
  locks_ok s -> fprocs s !! rfp = Some p -> fp_pid p = pid ->
  wp (close_locks vp rfp) (fun _ s' => locks_ok s' /\ fp s' = fp s /\ length (fprocs s') = length (fprocs s) /\
    (forall v q t b, locked (file_locks s') v q t b <-> locked (file_locks s) v q t b /\ ~ (v = vp /\ q = pid)) /\
    (file_locks s' = file_locks s \/ fprocs s' = wake <$> fprocs s)) s.
Proof.
  intros Hok Hp Hpid. unfold close_locks. apply wp_bind, wp_gets.
  destruct (Z.ltb_spec 0 (nr_locks s)) as [Hpos|Hzero]; cbn [when].
  2:{ apply wp_ret. split_and!; try done; [|by left]. intros v q t b. split; [|tauto].
      intros (x & Hx & Hu & _). rewrite (lo_count _ Hok) in Hzero. unfold count_used in Hzero.
      assert (x ∈ filter used (file_locks s)) as Hin by (by apply list_elem_of_filter).
      destruct (filter used (file_locks s)) as [|y l]; [by apply elem_of_nil in Hin|]. cbn in Hzero. lia. }
  apply wp_bind, (wp_get_fproc _ p); [done|]. rewrite Hpid.
  apply wp_bind. eapply wp_mono; [by apply release_all_ok|].
  intros [] s1 Hs1. pose proof (released_ok s Hok) as Hok1. rewrite <- Hs1 in Hok1.
  apply wp_bind, wp_gets. destruct (released_fewer (file_locks s)) as [E|E].
  - replace (nr_locks s1 <? nr_locks s) with false by (rewrite Hs1, (lo_count _ Hok); cbn; rewrite E; lia).
    apply wp_ret. split; [done|]. rewrite Hs1. cbn. split_and!; [done..|apply released_locked|by left].
  - replace (nr_locks s1 <? nr_locks s) with true by (rewrite Hs1, (lo_count _ Hok); cbn; lia). cbn [when].
    eapply wp_mono; [apply lock_revive_ok, Hok1|]. intros [] s2 [Hst Hw].
    split; [by eapply same_table_ok|]. destruct Hst as (Hf & _ & Hsf & Hlf & _).
    rewrite Hf, Hw, Hsf. rewrite Hs1. cbn. split_and!; [done|by rewrite length_fmap|apply released_locked|by right].
Qed.
End close.
