(* ===== verification/FlockSystem.v ===== *)
(** * The record locks as processes use them

    What a request does, as one contract for every request and every outcome, what
    closing a file does, and that from the empty table on no sequence of requests and
    closes lets two processes hold locks that exclude each other. *)

From S2P Require Import Prelude KTypes Flock FlockProps.
#[local] Open Scope Z_scope.

(** ** Requests *)

(** The region of a request can be computed, and the number of its bytes is an [off_t]. *)
Definition request_ok (f : filp) (req : lock_req) (user : option flock) : Prop :=
  match user with
  | None => True
  | Some flk =>
      match lock_region f req flk with
      | Err _ => False
      | Ok (inl _) => True
      | Ok (inr (first, last)) => last - first + 1 < 2 ^ 63
      end
  end.

(** A request that is refused at once changes nothing. *)
Definition request_spec (f : filp) (req : lock_req) (user : option flock) (copy_out : flock -> ecode) (pid : Z)
    (s : locks) (r : ecode) (out : option flock) (s' : locks) : Prop :=
  match user with
  | None => r = EINVAL /\ out = None /\ s' = s
  | Some flk =>
      match lock_region f req flk with
      | Err _ => False
      | Ok (inl e) => r = e /\ out = None /\ s' = s
      | Ok (inr (first, last)) => lock_spec f req flk copy_out pid first last s r out s'
      end
  end.

Lemma request_keeps f req user copy_out s p :
  locks_ok s -> fprocs s !! fp s = Some p -> request_ok f req user ->
  wp (lock_op f req user copy_out) (fun ro s' => locks_ok s' /\ fp s' = fp s /\ length (fprocs s') = length (fprocs s) /\
    request_spec f req user copy_out (fp_pid p) s (fst ro) (snd ro) s') s.
Proof.
  intros Hok Hp Hreq. destruct user as [flk|]; cbn [request_ok request_spec] in *; [|by apply wp_ret].
  destruct (lock_region f req flk) as [[e|[first last]]|] eqn:Hr; [| |done].
  - unfold lock_op. apply wp_bind, (wp_lift _ _ _ _ Hr). by apply wp_ret.
  - destruct (lock_region_inv _ _ _ _ _ Hr) as (_ & Hreg & Hlast). by apply (lock_op_ok f flk copy_out first last s p).
Qed.

(** ** The claims *)


(** When a process closes a file, exactly its locks on the file are released, and if
    there were any, every process that waits for a lock is woken. *)
Theorem close_locks_contract vp rfp s p :
  locks_ok s -> fprocs s !! rfp = Some p ->
  wp (close_locks vp rfp) (fun _ s' => locks_ok s' /\
    (forall v q t b, locked (file_locks s') v q t b <-> locked (file_locks s) v q t b /\ ~ (v = vp /\ q = fp_pid p)) /\
    (file_locks s' = file_locks s \/ fprocs s' = wake <$> fprocs s)) s.
Proof.
  intros Hok Hp. eapply wp_mono; [by apply (close_locks_ok vp (fp_pid p) s rfp p)|].
  intros _ s' (? & _ & _ & ? & ?). done.
Qed.

(** ** Runs *)

Definition with_fp (i : nat) (s : locks) : locks :=
  mk_locks (file_locks s) (nr_locks s) (fprocs s) i (reviving s).

(** The table at boot, with any processes. *)
Definition locks_boot (l : list fproc) : locks := mk_locks (replicate NR_LOCKS (mk_file_lock 0 0 0 0 0)) 0 l 0 0.

(** Processes make requests and close files in any order. Between two of them VFS may
    change its process table and the number of processes to revive. *)
Inductive fl_step : locks -> locks -> Prop :=
| fl_lock i f req user copy_out ro s s' :
    (i < length (fprocs s))%nat -> request_ok f req user ->
    lock_op f req user copy_out (with_fp i s) = Ok (ro, s') -> fl_step s s'
| fl_close vp rfp s s' :
    (rfp < length (fprocs s))%nat -> close_locks vp rfp s = Ok (tt, s') -> fl_step s s'
| fl_procs l n s :
    length l = length (fprocs s) -> rev_ok (with_reviving n (with_fprocs l s)) ->
    fl_step s (with_reviving n (with_fprocs l s)).

Definition fl_reachable (l : list fproc) (s : locks) : Prop := rtc fl_step (locks_boot l) s.

Lemma locks_boot_ok l : l <> [] -> Z.of_nat (length l) <= INT_MAX -> locks_ok (locks_boot l).
Proof.
  intros Hl Hlen. split; try done.
  - by repeat constructor.
  - intros v b p1 t1 p2 t2 (x & Hx & Hu & _). apply elem_of_replicate in Hx as [-> _]. by destruct Hu.
  - destruct l; [done|by eexists].
  - cbn. pose proof (length_filter unrevived l). lia.
Qed.

Lemma with_fp_ok i s : (i < length (fprocs s))%nat -> locks_ok s -> locks_ok (with_fp i s).
Proof. intros Hi []. split; try done. by apply lookup_lt_is_Some. Qed.

Lemma fl_step_ok s s' : fl_step s s' -> locks_ok s -> locks_ok s'.
Proof.
  intros Hstep Hok. destruct Hstep as [i f req user copy_out ro s s' Hi Hreq Hrun|vp rfp s s' Hi Hrun|l n s Hl Hrev].
  - destruct (lookup_lt_is_Some_2 (fprocs s) i Hi) as [p Hp].
    pose proof (request_keeps f req user copy_out (with_fp i s) p (with_fp_ok i s Hi Hok) Hp Hreq) as Hwp.
    unfold wp in Hwp. rewrite Hrun in Hwp. apply Hwp.
  - destruct (lookup_lt_is_Some_2 (fprocs s) rfp Hi) as [p Hp].
    pose proof (close_locks_ok vp (fp_pid p) s rfp p Hok Hp eq_refl) as Hwp.
    unfold wp in Hwp. rewrite Hrun in Hwp. apply Hwp.
  - destruct Hok as [? ? ? ? Hself ?]. split; try done; [|apply Hrev..].
    cbn. apply lookup_lt_is_Some. rewrite Hl. by apply lookup_lt_is_Some.
Qed.

Lemma fl_reachable_ok l s : l <> [] -> Z.of_nat (length l) <= INT_MAX -> fl_reachable l s -> locks_ok s.
Proof.
  intros Hl Hlen Hr. pose proof (locks_boot_ok l Hl Hlen) as Hok. unfold fl_reachable in Hr.
  induction Hr as [|s1 s2 s3 Hstep _ IH]; [done|]. apply IH. by eapply fl_step_ok.
Qed.


(** ** Concrete runs *)

Definition fl_demo_procs : list fproc := [mk_fproc 5 0 0; mk_fproc 7 FP_BLOCKED_ON_LOCK 0].
Definition fl_demo_filp : filp := mk_filp (R_BIT + W_BIT) 1 0 0x8180 1000.
Definition fl_demo_copied (_ : flock) : ecode := OK.
(** Process 5 locks the bytes 10 to 29 for writing. *)
Definition fl_demo_flock : flock := mk_flock F_WRLCK SEEK_SET 10 20 0.
Definition fl_demo_locks : locks :=
  mk_locks (<[0%nat := mk_file_lock F_WRLCK 5 1 10 29]> (replicate NR_LOCKS (mk_file_lock 0 0 0 0 0))) 1 fl_demo_procs 0 0.

Example fl_demo_lock : lock_op fl_demo_filp F_SETLK (Some fl_demo_flock) fl_demo_copied (locks_boot fl_demo_procs) = Ok ((OK, None), fl_demo_locks).
Proof. vm_compute. reflexivity. Qed.

(** Process 7 clears the bytes 15 to 19 in the lock of process 5, and is woken. *)
Example fl_demo_unlock_other :
  match lock_op fl_demo_filp F_SETLK (Some (mk_flock F_UNLCK SEEK_SET 15 5 0)) fl_demo_copied (with_fp 1 fl_demo_locks) with
  | Ok (r, s) => r = (OK, None) /\
      take 2 (file_locks s) = [mk_file_lock F_WRLCK 5 1 10 14; mk_file_lock F_WRLCK 5 1 20 29] /\
      fprocs s = [mk_fproc 5 0 0; mk_fproc 7 FP_BLOCKED_ON_LOCK FP_REVIVED]
  | Err _ => False
  end.
Proof. vm_compute. split; [reflexivity|split; reflexivity]. Qed.

Lemma fl_demo_boot_ok : locks_ok (locks_boot fl_demo_procs).
Proof. apply locks_boot_ok; [discriminate|vm_compute; discriminate]. Qed.

Lemma fl_demo_request_ok : request_ok fl_demo_filp F_SETLK (Some fl_demo_flock).
Proof. vm_compute. reflexivity. Qed.

Lemma fl_demo_reachable : fl_reachable fl_demo_procs fl_demo_locks.
Proof.
  apply rtc_once. eapply (fl_lock 0 fl_demo_filp F_SETLK (Some fl_demo_flock) fl_demo_copied); [cbn; lia|apply fl_demo_request_ok|].
  exact fl_demo_lock.
Qed.



