(* ===== verification/Sysv.v ===== *)
(** * System V semaphores and shared memory (servers/ipc)

    The server of IPC calls: its tables of semaphore sets (sem.c) and of shared
    memory segments (shm.c), permissions (utility.c) and the main loop (main.c). A
    pointer into a table is an index. The lists of waiting processes are memory from [realloc] that only their
    semaphore points to: [None] is NULL, [Some l] an array with contents [l]. The constants of the
    headers of the C library, the calls to the kernel, to PM and to VM,
    and memory are an interface. Replies and wake-ups are recorded in the order they are sent. *)

From S2P Require Import Prelude KTypes.
#[local] Open Scope Z_scope.

(** ** What the server is compiled with *)

Class IpcConst := {
  SEMMNI : Z; SEMMSL : Z; SEMOPM : Z; SEMVMX : Z; SHMMNI : Z;
  IPC_PRIVATE : Z; IPC_CREAT : Z; IPC_EXCL : Z; IPC_NOWAIT : Z;
  SHM_RND : Z; SHM_RDONLY : Z; SHM_DEST : Z;
  IPC_STAT : Z; IPC_SET : Z; IPC_RMID : Z; IPC_INFO : Z;
  SEM_INFO : Z; SEM_STAT : Z; SHM_INFO : Z; SHM_STAT : Z;
  GETALL : Z; GETNCNT : Z; GETPID : Z; GETVAL : Z; GETZCNT : Z; SETALL : Z; SETVAL : Z;
}.

Definition MAX_SHM_NR : Z := 1024.
Definition IPC_PAGE_SIZE : Z := 4096.   (* PAGE_SIZE *)
Definition IPC_BASE : Z := 0xD00.
Definition IPC_SHMGET : Z := IPC_BASE + 1.
Definition IPC_SHMAT : Z := IPC_BASE + 2.
Definition IPC_SHMDT : Z := IPC_BASE + 3.
Definition IPC_SHMCTL : Z := IPC_BASE + 4.
Definition IPC_SEMGET : Z := IPC_BASE + 5.
Definition IPC_SEMCTL : Z := IPC_BASE + 6.
Definition IPC_SEMOP : Z := IPC_BASE + 7.
Definition VM_PROC_NR : Z := 8.

(** ** Data *)

Record waiting := mk_waiting { who : Z; val : Z }.

Record semaphore := mk_semaphore {
  semval : Z;
  semzcnt : Z;
  semncnt : Z;
  zlist : option (list waiting);
  nlist : option (list waiting);
  sempid : Z;
}.
Definition set_semval (v : Z) (s : semaphore) : semaphore := mk_semaphore v (semzcnt s) (semncnt s) (zlist s) (nlist s) (sempid s).
Definition set_sempid (v : Z) (s : semaphore) : semaphore := mk_semaphore (semval s) (semzcnt s) (semncnt s) (zlist s) (nlist s) v.
Definition set_zero (n : Z) (l : option (list waiting)) (s : semaphore) : semaphore :=
  mk_semaphore (semval s) n (semncnt s) l (nlist s) (sempid s).
Definition set_inc (n : Z) (l : option (list waiting)) (s : semaphore) : semaphore :=
  mk_semaphore (semval s) (semzcnt s) n (zlist s) l (sempid s).

Record ipc_perm := mk_ipc_perm { uid : Z; gid : Z; cuid : Z; cgid : Z; mode : Z }.

Record semid_ds := mk_semid_ds { sem_perm : ipc_perm; sem_nsems : Z; sem_otime : Z; sem_ctime : Z }.

Record sem_struct := mk_sem_struct { sem_key : Z; sem_id : Z; sem_ds : semid_ds; sems : list semaphore }.
Definition set_sem_ds (d : semid_ds) (s : sem_struct) : sem_struct := mk_sem_struct (sem_key s) (sem_id s) d (sems s).
Definition set_sems (l : list semaphore) (s : sem_struct) : sem_struct := mk_sem_struct (sem_key s) (sem_id s) (sem_ds s) l.
Definition sem_nr (s : sem_struct) : Z := sem_nsems (sem_ds s).

(** The operations of a request: [sem_num] is unsigned, [sem_op] signed, both of 16 bits. *)
Record sembuf := mk_sembuf { sem_num : Z; sem_op : Z; sem_flg : Z }.

Record shmid_ds := mk_shmid_ds {
  shm_perm : ipc_perm;
  shm_segsz : Z;
  shm_atime : Z;
  shm_dtime : Z;
  shm_ctime : Z;
  shm_cpid : Z;
  shm_lpid : Z;
  shm_nattch : Z;
}.
Record shm_struct := mk_shm_struct { shm_key : Z; shm_id : Z; shm_ds : shmid_ds; page : Z; vm_id : Z }.
Definition set_shm_ds (d : shmid_ds) (s : shm_struct) : shm_struct := mk_shm_struct (shm_key s) (shm_id s) d (page s) (vm_id s).
Definition set_nattch (n : Z) (d : shmid_ds) : shmid_ds :=
  mk_shmid_ds (shm_perm d) (shm_segsz d) (shm_atime d) (shm_dtime d) (shm_ctime d) (shm_cpid d) (shm_lpid d) n.
Definition set_access (t pid : Z) (d : shmid_ds) : shmid_ds :=
  mk_shmid_ds (shm_perm d) (shm_segsz d) t (shm_dtime d) (shm_ctime d) (shm_cpid d) pid (shm_nattch d).
Definition set_shm_perm (p : ipc_perm) (t : Z) (d : shmid_ds) : shmid_ds :=
  mk_shmid_ds p (shm_segsz d) (shm_atime d) (shm_dtime d) t (shm_cpid d) (shm_lpid d) (shm_nattch d).

(** The fields of a request, those of the seven calls side by side; [m_ret] is the field of the result ([retid], [ret], [retaddr]). *)
Record ipc_msg := mk_ipc_msg {
  m_source : Z;
  m_type : Z;
  m_key : Z;
  m_nr : Z;
  m_flag : Z;
  m_id : Z;
  m_num : Z;
  m_cmd : Z;
  m_opt : Z;     (* a number or an address *)
  m_addr : Z;    (* an address *)
  m_size : Z;
  m_ret : Z;
}.
Definition set_m_ret (v : Z) (m : ipc_msg) : ipc_msg :=
  mk_ipc_msg (m_source m) (m_type m) (m_key m) (m_nr m) (m_flag m) (m_id m) (m_num m) (m_cmd m) (m_opt m) (m_addr m) (m_size m) v.

(** A message that the server sends: to whom, the code and, in a reply, the result. *)
Record ipc_out := mk_ipc_out { o_to : Z; o_code : ecode; o_ret : option Z }.

(** What is copied out to a process. *)
Inductive out_data :=
| OutSem (d : semid_ds)
| OutVals (l : list Z)
| OutShm (d : shmid_ds)
| OutShmLimits
| OutShmUse (used_ids tot : Z).

(** ** What the server calls *)

Class IpcEnv (W : Type) := {
  getnuid : W -> Z -> Z;
  getngid : W -> Z -> Z;
  getnpid : W -> Z -> Z;
  time : W -> Z;
  malloc_ok : Z -> M W bool;                        (* malloc or realloc of a size *)
  copy_ops : Z -> Z -> Z -> M W (ecode * list sembuf);   (* process, address, number *)
  copy_vals : Z -> Z -> Z -> M W (ecode * list Z);
  copy_perm : Z -> Z -> M W (ecode * ipc_perm);      (* of a semid_ds or shmid_ds *)
  copy_out : Z -> Z -> out_data -> M W ecode;
  vm_watch_exit : Z -> M W ecode;
  vm_query_exit : M W (Z * Z);                      (* result, endpoint *)
  vm_getrefcount : Z -> M W Z;                      (* page; 8 bits *)
  vm_getphys : option Z -> Z -> M W Z;              (* process or the server itself, address *)
  vm_remap : Z -> Z -> Z -> Z -> M W (option Z);     (* process, address, page, size *)
  vm_unmap : Z -> Z -> M W unit;
  mmap : Z -> M W (option Z);
  munmap : Z -> Z -> M W unit;
}.

Section ipc.
Context {W : Type} `{IpcConst, IpcEnv W}.

Record ipc := mk_ipc {
  sem_list : list sem_struct;
  sem_list_nr : Z;
  shm_list : list shm_struct;
  shm_list_nr : Z;
  identifier : Z;
  who_e : Z;
  outbox : list ipc_out;
  world : W;
}.
Definition with_sems (l : list sem_struct) (n : Z) (s : ipc) : ipc :=
  mk_ipc l n (shm_list s) (shm_list_nr s) (identifier s) (who_e s) (outbox s) (world s).
Definition with_shms (l : list shm_struct) (n : Z) (s : ipc) : ipc :=
  mk_ipc (sem_list s) (sem_list_nr s) l n (identifier s) (who_e s) (outbox s) (world s).
Definition with_identifier (n : Z) (s : ipc) : ipc :=
  mk_ipc (sem_list s) (sem_list_nr s) (shm_list s) (shm_list_nr s) n (who_e s) (outbox s) (world s).
Definition with_who (e : Z) (s : ipc) : ipc :=
  mk_ipc (sem_list s) (sem_list_nr s) (shm_list s) (shm_list_nr s) (identifier s) e (outbox s) (world s).
Definition with_outbox (l : list ipc_out) (s : ipc) : ipc :=
  mk_ipc (sem_list s) (sem_list_nr s) (shm_list s) (shm_list_nr s) (identifier s) (who_e s) l (world s).
Definition with_world (w : W) (s : ipc) : ipc :=
  mk_ipc (sem_list s) (sem_list_nr s) (shm_list s) (shm_list_nr s) (identifier s) (who_e s) (outbox s) w.

Notation IM := (M ipc).

Definition external {A} (m : M W A) : IM A :=
  w ← gets world;
  match m w with
  | Ok (a, w') => modify (with_world w');; mret a
  | Err f => fail f
  end.

(** [ipc_sendnb], whose result is only printed. *)
Definition ipc_sendnb (to : Z) (code : ecode) (ret : option Z) : IM unit :=
  modify (fun s => with_outbox (outbox s ++ [mk_ipc_out to code ret]) s).

(** ** Permissions (utility.c) *)

Definition check_perm (w : W) (req : ipc_perm) (e mode_ : Z) : bool :=
  let u := getnuid w e in
  let g := getngid w e in
  let mode_ := Z.land mode_ 0x1B6 in     (* 0666 *)
  if u =? 0 then true
  else
    let sh :=
      if (u =? uid req) || (u =? cuid req) then 6
      else if (g =? gid req) || (g =? cgid req) then 3 else 0 in
    let req_mode := Z.land (Z.shiftr (mode req) sh) 7 in
    let cur_mode := Z.land (Z.shiftr mode_ sh) 7 in
    negb (cur_mode =? 0) && (Z.land cur_mode req_mode =? cur_mode).

Definition R_ALL : Z := 0x124.    (* 0444 *)
Definition W_ALL : Z := 0x92.     (* 0222 *)
Definition RW_ALL : Z := 0x1B6.   (* 0666 *)
Definition RWX_ALL : Z := 0x1FF.  (* 0777 *)

Definition check (req : ipc_perm) (mode_ : Z) : IM bool :=
  w ← gets world; e ← gets who_e; mret (check_perm w req e mode_).

(** Owner, creator or root. *)
Definition may_change (req : ipc_perm) : IM bool :=
  w ← gets world; e ← gets who_e;
  let u := getnuid w e in
  mret ((u =? cuid req) || (u =? uid req) || (u =? 0)).

(** [IPC_SET]: owner, group and mode from the process. *)
Definition change_perm (req new : ipc_perm) : ipc_perm :=
  mk_ipc_perm (uid new) (gid new) (cuid req) (cgid req) (Z.lor (clearf (mode req) RWX_ALL) (Z.land (mode new) RW_ALL)).

(** ** The table of semaphore sets (sem.c) *)

Definition find_index {A} (P : A -> Prop) `{!forall x, Decision (P x)} (l : list A) (n : Z) : option nat :=
  fst <$> list_find P (take (Z.to_nat n) l).

Definition sem_find_key (key : Z) : IM (option nat) :=
  l ← gets sem_list; n ← gets sem_list_nr;
  mret (if key =? IPC_PRIVATE then None else find_index (fun s => sem_key s = key) l n).
Definition sem_find_id (i : Z) : IM (option nat) :=
  l ← gets sem_list; n ← gets sem_list_nr; mret (find_index (fun s => sem_id s = i) l n).

Definition get_sem (k : nat) : IM sem_struct := l ← gets sem_list; lift (aget l (Z.of_nat k)).
Definition upd_sem (k : nat) (f : sem_struct -> sem_struct) : IM unit :=
  x ← get_sem k; modify (fun s => with_sems (<[k := f x]> (sem_list s)) (sem_list_nr s) s).
Definition get_semaphore (k : nat) (i : Z) : IM semaphore := x ← get_sem k; lift (aget (sems x) i).
Definition upd_semaphore (k : nat) (i : Z) (f : semaphore -> semaphore) : IM unit :=
  x ← get_sem k; a ← lift (aget (sems x) i); l ← lift (aset (sems x) i (f a)); upd_sem k (set_sems l).

Definition zero_semaphore : semaphore := mk_semaphore 0 0 0 None None 0.

Definition do_semget (m : ipc_msg) : IM (ecode * ipc_msg) :=
  o ← sem_find_key (m_key m);
  match o with
  | Some k =>
      x ← get_sem k;
      if anyset (m_flag m) IPC_CREAT && anyset (m_flag m) IPC_EXCL then mret (EEXIST, m)
      else
        p ← check (sem_perm (sem_ds x)) (m_flag m);
        if negb p then mret (EACCES, m)
        else if sem_nr x <? m_nr m then mret (EINVAL, m)
        else mret (OK, set_m_ret (sem_id x) m)
  | None =>
      if negb (anyset (m_flag m) IPC_CREAT) then mret (ENOENT, m)
      else if (m_nr m <? 0) || (SEMMSL <=? m_nr m) then mret (EINVAL, m)
      else
        n ← gets sem_list_nr;
        if n =? SEMMNI then mret (ENOSPC, m)
        else
          w ← gets world; e ← gets who_e; i ← gets identifier;
          let u := getnuid w e in
          let g := getngid w e in
          let d := mk_semid_ds (mk_ipc_perm u g u g (Z.land (m_flag m) RWX_ALL)) (m_nr m) 0 (time w) in
          i' ← lift (iadd i 1);
          modify (with_identifier i');;
          l ← gets sem_list;
          l ← lift (aset l n (mk_sem_struct (m_key m) i d (replicate (Z.to_nat SEMMSL) zero_semaphore)));
          modify (with_sems l (n + 1));;
          mret (OK, set_m_ret i m)
  end.

(** ** Waiting processes *)

Definition send_message_to_process (e : Z) (ret : ecode) : IM unit := ipc_sendnb e ret None.

(** [memmove(l + k, l + k + 1, n)]; a negative number of elements is a huge one. *)
Definition close_gap {A} (l : list A) (k : nat) (n : Z) : result (list A) :=
  if (0 <=? n) && (Z.of_nat k + 1 + n <=? Z.of_nat (length l)) then
    Ok (take k l ++ take (Z.to_nat n) (drop (S k) l) ++ drop (k + Z.to_nat n) l)
  else Err OutOfBounds.

(** The first of the entries from [k] on, [n] of them, that satisfies [P]. *)
Fixpoint scan_waiting (n : nat) (l : list waiting) (P : waiting -> bool) (k : nat) : result (option nat) :=
  match n with
  | O => Ok None
  | S n' =>
      x ← aget l (Z.of_nat k);
      if P x then Ok (Some k) else scan_waiting n' l P (S k)
  end.
(** The list is only read when the counter is not 0. *)
Definition find_waiting (o : option (list waiting)) (cnt : Z) (P : waiting -> bool) : IM (option nat) :=
  if cnt <=? 0 then mret None
  else l ← deref o; lift (scan_waiting (Z.to_nat cnt) l P 0).

Definition remove_zero (k : nat) (j : Z) (i : nat) : IM waiting :=
  a ← get_semaphore k j;
  l ← deref (zlist a);
  x ← lift (aget l (Z.of_nat i));
  l' ← lift (close_gap l i (semzcnt a - Z.of_nat i - 1));
  upd_semaphore k j (set_zero (u16 (semzcnt a - 1)) (Some l'));;
  mret x.
Definition remove_inc (k : nat) (j : Z) (i : nat) : IM waiting :=
  a ← get_semaphore k j;
  l ← deref (nlist a);
  x ← lift (aget l (Z.of_nat i));
  l' ← lift (close_gap l i (semncnt a - Z.of_nat i - 1));
  upd_semaphore k j (set_inc (u16 (semncnt a - 1)) (Some l'));;
  mret x.

(** One semaphore forgets a process, which is told so. *)
Definition remove_process_from (pt : Z) (k : nat) (j : Z) : IM unit :=
  a ← get_semaphore k j;
  o ← find_waiting (zlist a) (semzcnt a) (fun x => who x =? pt);
  match o with
  | Some i => x ← remove_zero k j i; send_message_to_process (who x) EINTR
  | None => skip
  end;;
  a ← get_semaphore k j;
  o ← find_waiting (nlist a) (semncnt a) (fun x => who x =? pt);
  match o with
  | Some i => x ← remove_inc k j i; send_message_to_process (who x) EINTR
  | None => skip
  end.

(** For every semaphore of every set. *)
Definition each_semaphore (body : nat -> Z -> IM unit) (k : nat) : IM unit :=
  x ← get_sem k; foreach (seqZ 0 (sem_nr x)) (body k).
Definition each_set (body : nat -> IM unit) : IM unit :=
  n ← gets sem_list_nr; foreach (seq 0 (Z.to_nat n)) body.

Definition remove_process (pt : Z) : IM unit := each_set (each_semaphore (remove_process_from pt)).

(** ** Waking up *)

Definition wake_zero (k : nat) (j : Z) : IM unit :=
  a ← get_semaphore k j;
  match zlist a with
  | Some _ =>
      if semval a =? 0 then x ← remove_zero k j 0; send_message_to_process (who x) OK else skip
  | None => skip
  end.

Definition wake_inc (k : nat) (j : Z) : IM unit :=
  a ← get_semaphore k j;
  match nlist a with
  | Some _ =>
      o ← find_waiting (nlist a) (semncnt a) (fun x => val x <=? semval a);
      match o with
      | Some i =>
          x ← remove_inc k j i;
          upd_semaphore k j (fun a => set_semval (u16 (semval a - val x)) a);;
          send_message_to_process (who x) OK
      | None => skip
      end
  | None => skip
  end.

Definition update_one_semaphore (k : nat) : IM unit :=
  each_semaphore (fun k j => wake_zero k j;; wake_inc k j) k.
Definition update_semaphores : IM unit := each_set update_one_semaphore.

(** ** Removing a set *)

Definition dismiss (o : option (list waiting)) (cnt : Z) : IM unit :=
  if cnt <=? 0 then skip
  else
    l ← deref o;
    foreach (seqZ 0 cnt) (fun i => x ← lift (aget l i); send_message_to_process (who x) EIDRM).
Definition dismiss_semaphore (k : nat) (j : Z) : IM unit :=
  a ← get_semaphore k j;
  dismiss (zlist a) (semzcnt a);;
  dismiss (nlist a) (semncnt a).

(** The last set of the table takes the place of the one that goes. *)
Definition remove_semaphore (k : nat) : IM unit :=
  n ← gets sem_list_nr;
  if Z.of_nat k <? n then
    l ← gets sem_list;
    if n - 1 =? Z.of_nat k then modify (with_sems l (n - 1))
    else
      x ← lift (aget l (n - 1));
      l' ← lift (aset l (Z.of_nat k) x);
      modify (with_sems l' (n - 1))
  else skip.

(** [update_one_semaphore(sem, 1)] *)
Definition remove_set (k : nat) : IM unit := each_semaphore dismiss_semaphore k;; remove_semaphore k.

(** ** semctl *)

Fixpoint set_all (k : nat) (j : Z) (l : list Z) : IM ecode :=
  match l with
  | [] => mret OK
  | v :: l' =>
      if SEMVMX <? v then mret ERANGE
      else upd_semaphore k j (set_semval v);; set_all k (j + 1) l'
  end.

(** Whether the command takes [opt] from the message. *)
Definition takes_opt (cmd : Z) : bool :=
  (cmd =? IPC_STAT) || (cmd =? IPC_SET) || (cmd =? IPC_INFO) || (cmd =? SEM_INFO) || (cmd =? SEM_STAT) ||
  (cmd =? GETALL) || (cmd =? SETALL) || (cmd =? SETVAL).

(** The commands that read one number of a semaphore. *)
Definition get_number (m : ipc_msg) (k : nat) (f : semaphore -> Z) : IM (ecode * ipc_msg) :=
  x ← get_sem k;
  if (m_num m <? 0) || (sem_nr x <=? m_num m) then mret (EINVAL, m)
  else a ← get_semaphore k (m_num m); mret (OK, set_m_ret (f a) m).

Definition do_semctl (m : ipc_msg) : IM (ecode * ipc_msg) :=
  let cmd := m_cmd m in
  let opt := if takes_opt cmd then m_opt m else 0 in
  o ← sem_find_id (m_id m);
  match o with
  | None => mret (EINVAL, m)
  | Some k =>
      x ← get_sem k;
      e ← gets who_e;
      let perm := sem_perm (sem_ds x) in
      p ← (if (cmd =? IPC_SET) || (cmd =? IPC_RMID) then mret true else check perm R_ALL);
      if negb p then mret (EACCES, m)
      else if cmd =? IPC_STAT then
        if opt =? 0 then mret (EFAULT, m)
        else
          r ← external (copy_out e opt (OutSem (sem_ds x)));
          mret (if bool_decide (r = OK) then OK else EINVAL, m)
      else if cmd =? IPC_SET then
        q ← may_change perm;
        if negb q then mret (EPERM, m)
        else
          c ← external (copy_perm e opt);
          if negb (bool_decide (c.1 = OK)) then mret (EINVAL, m)
          else
            w ← gets world;
            upd_sem k (set_sem_ds (mk_semid_ds (change_perm perm c.2) (sem_nsems (sem_ds x)) (sem_otime (sem_ds x)) (time w)));;
            mret (OK, m)
      else if cmd =? IPC_RMID then
        q ← may_change perm;
        if negb q then mret (EPERM, m) else remove_set k;; mret (OK, m)
      else if (cmd =? IPC_INFO) || (cmd =? SEM_INFO) || (cmd =? SEM_STAT) then mret (OK, m)
      else if cmd =? GETALL then
        a ← external (malloc_ok (2 * sem_nr x));
        if negb a then mret (ENOMEM, m)
        else
          r ← external (copy_out e opt (OutVals (semval <$> take (Z.to_nat (sem_nr x)) (sems x))));
          mret (if bool_decide (r = OK) then OK else EINVAL, m)
      else if cmd =? GETNCNT then get_number m k semncnt
      else if cmd =? GETPID then get_number m k sempid
      else if cmd =? GETVAL then get_number m k semval
      else if cmd =? GETZCNT then get_number m k semzcnt
      else if cmd =? SETALL then
        a ← external (malloc_ok (2 * sem_nr x));
        if negb a then mret (ENOMEM, m)
        else
          c ← external (copy_vals e opt (sem_nr x));
          if negb (bool_decide (c.1 = OK)) then mret (EINVAL, m)
          else
            r ← set_all k 0 c.2;
            update_semaphores;;
            mret (r, m)
      else if cmd =? SETVAL then
        p ← check perm W_ALL;
        if negb p then mret (EACCES, m)
        else if (m_num m <? 0) || (sem_nr x <=? m_num m) then mret (EINVAL, m)
        else if (opt <? 0) || (SEMVMX <? opt) then mret (ERANGE, m)
        else
          upd_semaphore k (m_num m) (set_semval opt);;
          w ← gets world;
          upd_sem k (fun x => set_sem_ds (mk_semid_ds (sem_perm (sem_ds x)) (sem_nsems (sem_ds x)) (sem_otime (sem_ds x)) (time w)) x);;
          update_semaphores;;
          mret (OK, m)
      else mret (EINVAL, m)
  end.

(** ** semop *)

(** An array is extended to [n] elements, and its last one is written. *)
Definition append_waiting (o : option (list waiting)) (n : Z) (x : waiting) : result (list waiting) :=
  aset (resize (Z.to_nat n) (mk_waiting 0 0) (default [] o)) (n - 1) x.

(** The caller joins a list; not when there is no memory, which loses the list. *)
Definition sleep_zero (k : nat) (j : Z) : IM bool :=
  a ← get_semaphore k j; e ← gets who_e;
  let n := u16 (semzcnt a + 1) in
  b ← external (malloc_ok (8 * n));
  if (b : bool) then
    l ← lift (append_waiting (zlist a) n (mk_waiting e 0));
    upd_semaphore k j (set_zero n (Some l));; mret true
  else upd_semaphore k j (set_zero n None);; mret false.
Definition sleep_inc (k : nat) (j v : Z) : IM bool :=
  a ← get_semaphore k j; e ← gets who_e;
  let n := u16 (semncnt a + 1) in
  b ← external (malloc_ok (8 * n));
  if (b : bool) then
    l ← lift (append_waiting (nlist a) n (mk_waiting e v));
    upd_semaphore k j (set_inc n (Some l));; mret true
  else upd_semaphore k j (set_inc n None);; mret false.

(** The operations one after the other; the code, and how often the caller was put to sleep. *)
Fixpoint perform (k : nat) (sops : list sembuf) (no_reply : Z) : IM (ecode * Z) :=
  match sops with
  | [] => mret (OK, no_reply)
  | op :: sops' =>
      let j := sem_num op in
      let op_n := sem_op op in
      w ← gets world; e ← gets who_e;
      upd_semaphore k j (set_sempid (getnpid w e));;
      x ← get_sem k;
      a ← get_semaphore k j;
      if 0 <? op_n then
        p ← check (sem_perm (sem_ds x)) W_ALL;
        if negb p then mret (EACCES, no_reply)
        else upd_semaphore k j (fun a => set_semval (u16 (semval a + op_n)) a);; perform k sops' no_reply
      else if op_n =? 0 then
        if semval a =? 0 then perform k sops' no_reply
        else
          b ← sleep_zero k j;
          if (b : bool) then perform k sops' (no_reply + 1) else mret (OK, no_reply)
      else
        p ← check (sem_perm (sem_ds x)) W_ALL;
        if negb p then mret (EACCES, no_reply)
        else if - op_n <=? semval a then
          upd_semaphore k j (fun a => set_semval (u16 (semval a + op_n)) a);; perform k sops' no_reply
        else
          b ← sleep_inc k j (- op_n);
          if (b : bool) then perform k sops' (no_reply + 1) else mret (OK, no_reply)
  end.

(** Would the operation wait, though it must not? *)
Definition refuses (x : sem_struct) (op : sembuf) : result bool :=
  a ← aget (sems x) (sem_num op);
  Ok (anyset (sem_flg op) IPC_NOWAIT &&
      ((sem_op op =? 0) && negb (semval a =? 0) || (sem_op op <? 0) && (semval a <? - sem_op op))).
Fixpoint any_refuses (x : sem_struct) (sops : list sembuf) : result bool :=
  match sops with
  | [] => Ok false
  | op :: sops' => b ← refuses x op; if (b : bool) then Ok true else any_refuses x sops'
  end.

Fixpoint has_dup (sops : list sembuf) : bool :=
  match sops with
  | [] => false
  | op :: sops' => existsb (fun op' => sem_num op =? sem_num op') sops' || has_dup sops'
  end.

(** Up to the label [out]: the code and [no_reply]. *)
Definition semop_work (m : ipc_msg) : IM (ecode * Z) :=
  o ← sem_find_id (m_id m);
  match o with
  | None => mret (EINVAL, 0)
  | Some k =>
      if m_size m <=? 0 then mret (EINVAL, 0)
      else if SEMOPM <? m_size m then mret (E2BIG, 0)
      else
        x ← get_sem k;
        p ← check (sem_perm (sem_ds x)) R_ALL;
        if negb p then mret (EACCES, 0)
        else
          b ← external (malloc_ok (6 * m_size m));
          if negb b then mret (ENOMEM, 0)
          else
            e ← gets who_e;
            c ← external (copy_ops e (m_addr m) (m_size m));
            if negb (bool_decide (c.1 = OK)) then mret (EINVAL, 0)
            else if existsb (fun op => sem_nr x <=? sem_num op) c.2 then mret (EFBIG, 0)
            else if has_dup c.2 then mret (EINVAL, 0)
            else
              b ← lift (any_refuses x c.2);
              if (b : bool) then mret (EAGAIN, 0) else perform k c.2 0
  end.

Definition do_semop (m : ipc_msg) : IM unit :=
  r ← semop_work m;
  e ← gets who_e;
  when (negb (bool_decide (r.1 = OK)) || (r.2 =? 0)) (ipc_sendnb e r.1 None);;
  update_semaphores.

Definition is_sem_nil : IM bool := n ← gets sem_list_nr; mret (n =? 0).

(** The processes that VM saw exiting. *)
Fixpoint sem_process_vm_notify (fuel : nat) : IM unit :=
  match fuel with
  | O => fail OutOfFuel
  | S fuel' =>
      q ← external vm_query_exit;
      if q.1 <? 0 then skip
      else
        remove_process q.2;;
        if q.1 =? 0 then skip else sem_process_vm_notify fuel'
  end.

(** ** Shared memory (shm.c) *)

Definition shm_find_key (key : Z) : IM (option nat) :=
  l ← gets shm_list; n ← gets shm_list_nr;
  mret (if key =? IPC_PRIVATE then None else find_index (fun s => shm_key s = key) l n).
Definition shm_find_id (i : Z) : IM (option nat) :=
  l ← gets shm_list; n ← gets shm_list_nr; mret (find_index (fun s => shm_id s = i) l n).
Definition get_shm (k : nat) : IM shm_struct := l ← gets shm_list; lift (aget l (Z.of_nat k)).
Definition upd_shm (k : nat) (f : shm_struct -> shm_struct) : IM unit :=
  x ← get_shm k; modify (fun s => with_shms (<[k := f x]> (shm_list s)) (shm_list_nr s) s).

(** The next multiple of the size of a page, in signed arithmetic. *)
Definition page_round (size : Z) : result Z :=
  let r := Z.rem size IPC_PAGE_SIZE in
  if r =? 0 then Ok size else iadd size (IPC_PAGE_SIZE - r).

Definition do_shmget (m : ipc_msg) : IM (ecode * ipc_msg) :=
  let size := i32 (m_size m) in
  o ← shm_find_key (m_key m);
  match o with
  | Some k =>
      x ← get_shm k;
      p ← check (shm_perm (shm_ds x)) (m_flag m);
      if negb p then mret (EACCES, m)
      else if anyset (m_flag m) IPC_CREAT && anyset (m_flag m) IPC_EXCL then mret (EEXIST, m)
      else if negb (size =? 0) && (shm_segsz (shm_ds x) <? u32 size) then mret (EINVAL, m)
      else mret (OK, set_m_ret (shm_id x) m)
  | None =>
      if negb (anyset (m_flag m) IPC_CREAT) then mret (ENOENT, m)
      else if size <=? 0 then mret (EINVAL, m)
      else
        rsize ← lift (page_round size);
        if rsize <=? 0 then mret (EINVAL, m)
        else
          n ← gets shm_list_nr;
          i ← gets identifier;
          if n =? MAX_SHM_NR then mret (ENOMEM, m)
          else if i =? SHMMNI then mret (ENOSPC, m)
          else
            o ← external (mmap rsize);
            match (o : option Z) with
            | None => mret (ENOMEM, m)
            | Some pg =>
                v ← external (vm_getphys None pg);
                w ← gets world; e ← gets who_e;
                let u := getnuid w e in
                let g := getngid w e in
                let d := mk_shmid_ds (mk_ipc_perm u g u g (Z.land (m_flag m) RWX_ALL)) size 0 0 (time w) (getnpid w e) 0 0 in
                i' ← lift (iadd i 1);
                modify (with_identifier i');;
                l ← gets shm_list;
                l ← lift (aset l n (mk_shm_struct (m_key m) i d pg v));
                modify (with_shms l (n + 1));;
                mret (OK, set_m_ret i m)
            end
  end.

Definition do_shmat (m : ipc_msg) : IM (ecode * ipc_msg) :=
  let off := m_addr m `mod` IPC_PAGE_SIZE in
  if negb (m_addr m =? 0) && negb (off =? 0) && negb (anyset (m_flag m) SHM_RND) then mret (EINVAL, m)
  else
    let addr := if m_addr m =? 0 then m_addr m else m_addr m - off in
    o ← shm_find_id (m_id m);
    match o with
    | None => mret (EINVAL, m)
    | Some k =>
        x ← get_shm k;
        p ← check (shm_perm (shm_ds x)) (if anyset (m_flag m) SHM_RDONLY then R_ALL else RW_ALL);
        if negb p then mret (EACCES, m)
        else
          e ← gets who_e;
          o ← external (vm_remap e addr (page x) (shm_segsz (shm_ds x)));
          match (o : option Z) with
          | None => mret (ENOMEM, m)
          | Some a =>
              w ← gets world;
              upd_shm k (fun x => set_shm_ds (set_access (time w) (getnpid w e) (shm_ds x)) x);;
              mret (OK, set_m_ret a m)
          end
    end.

(** The segments that are attached or not to be destroyed move to the front, from index [i] to [j]. *)
Fixpoint sweep (n : nat) (i j : nat) : IM nat :=
  match n with
  | O => mret j
  | S n' =>
      x ← get_shm i;
      rc ← external (vm_getrefcount (page x));
      if rc =? 255 then sweep n' (S i) j
      else
        upd_shm i (fun x => set_shm_ds (set_nattch (u32 (rc - 1)) (shm_ds x)) x);;
        x ← get_shm i;
        if negb (shm_nattch (shm_ds x) =? 0) || negb (anyset (mode (shm_perm (shm_ds x))) SHM_DEST) then
          when (negb (bool_decide (i = j))) (upd_shm j (fun _ => x));;
          sweep n' (S i) (S j)
        else
          size ← lift (page_round (i32 (shm_segsz (shm_ds x))));
          external (munmap (page x) size);;
          sweep n' (S i) j
  end.
Definition update_refcount_and_destroy : IM unit :=
  n ← gets shm_list_nr;
  j ← sweep (Z.to_nat n) 0 0;
  modify (fun s => with_shms (shm_list s) (Z.of_nat j) s).

Definition do_shmdt (m : ipc_msg) : IM (ecode * ipc_msg) :=
  e ← gets who_e;
  v ← external (vm_getphys (Some e) (m_addr m));
  if v =? 0 then mret (EINVAL, m)
  else
    l ← gets shm_list; n ← gets shm_list_nr;
    match find_index (fun x => vm_id x = v) l n with
    | Some k =>
        w ← gets world;
        upd_shm k (fun x => set_shm_ds (set_access (time w) (getnpid w e) (shm_ds x)) x);;
        external (vm_unmap e (m_addr m))
    | None => skip
    end;;
    update_refcount_and_destroy;;
    mret (OK, m).

(** [m_ret] of a table of [n] entries: the index of the last one. *)
Definition last_index (n : Z) : Z := if n - 1 <? 0 then 0 else n - 1.

Definition do_shmctl (m : ipc_msg) : IM (ecode * ipc_msg) :=
  let cmd := m_cmd m in
  let ds := m_addr m in
  when (cmd =? IPC_STAT) update_refcount_and_destroy;;
  o ← (if (cmd =? IPC_STAT) || (cmd =? IPC_SET) || (cmd =? IPC_RMID) then shm_find_id (m_id m) else mret None);
  e ← gets who_e;
  if ((cmd =? IPC_STAT) || (cmd =? IPC_SET) || (cmd =? IPC_RMID)) && negb (bool_decide (is_Some o)) then mret (EINVAL, m)
  else if cmd =? IPC_STAT then
    k ← deref o;
    if ds =? 0 then mret (EFAULT, m)
    else
      x ← get_shm k;
      p ← check (shm_perm (shm_ds x)) R_ALL;
      if negb p then mret (EACCES, m)
      else
        r ← external (copy_out e ds (OutShm (shm_ds x)));
        mret (if bool_decide (r = OK) then OK else EFAULT, m)
  else if cmd =? IPC_SET then
    k ← deref o;
    x ← get_shm k;
    q ← may_change (shm_perm (shm_ds x));
    if negb q then mret (EPERM, m)
    else
      c ← external (copy_perm e ds);
      if negb (bool_decide (c.1 = OK)) then mret (EFAULT, m)
      else
        w ← gets world;
        upd_shm k (fun x => set_shm_ds (set_shm_perm (change_perm (shm_perm (shm_ds x)) c.2) (time w) (shm_ds x)) x);;
        mret (OK, m)
  else if cmd =? IPC_RMID then
    k ← deref o;
    x ← get_shm k;
    q ← may_change (shm_perm (shm_ds x));
    if negb q then mret (EPERM, m)
    else
      upd_shm k (fun x =>
        let p := shm_perm (shm_ds x) in
        set_shm_ds (set_shm_perm (mk_ipc_perm (uid p) (gid p) (cuid p) (cgid p) (setf (mode p) SHM_DEST)) (shm_ctime (shm_ds x)) (shm_ds x)) x);;
      update_refcount_and_destroy;;
      mret (OK, m)
  else if cmd =? IPC_INFO then
    if ds =? 0 then mret (EFAULT, m)
    else
      r ← external (copy_out e ds OutShmLimits);
      if negb (bool_decide (r = OK)) then mret (EFAULT, m)
      else n ← gets shm_list_nr; mret (OK, set_m_ret (last_index n) m)
  else if cmd =? SHM_INFO then
    if ds =? 0 then mret (EFAULT, m)
    else
      n ← gets shm_list_nr; l ← gets shm_list;
      let tot := foldl (fun t x => u32 (t + shm_segsz (shm_ds x) / IPC_PAGE_SIZE)) 0 (take (Z.to_nat n) l) in
      r ← external (copy_out e ds (OutShmUse n tot));
      if negb (bool_decide (r = OK)) then mret (EFAULT, m)
      else mret (OK, set_m_ret (last_index n) m)
  else if cmd =? SHM_STAT then
    n ← gets shm_list_nr;
    if (m_id m <? 0) || (n <=? m_id m) then mret (EINVAL, m)
    else
      x ← get_shm (Z.to_nat (m_id m));
      r ← external (copy_out e ds (OutShm (shm_ds x)));
      if negb (bool_decide (r = OK)) then mret (EFAULT, m)
      else mret (OK, set_m_ret (shm_id x) m)
  else mret (EINVAL, m).

Definition is_shm_nil : IM bool := n ← gets shm_list_nr; mret (n =? 0).

(** ** The main loop (main.c) *)

(** The table of calls; [do_semop] replies by itself. *)
Definition handle (m : ipc_msg) : IM (option (ecode * ipc_msg)) :=
  let n := m_type m - (IPC_BASE + 1) in
  if n =? 0 then r ← do_shmget m; mret (Some r)
  else if n =? 1 then r ← do_shmat m; mret (Some r)
  else if n =? 2 then r ← do_shmdt m; mret (Some r)
  else if n =? 3 then r ← do_shmctl m; mret (Some r)
  else if n =? 4 then r ← do_semget m; mret (Some r)
  else if n =? 5 then r ← do_semctl m; mret (Some r)
  else do_semop m;; mret None.

(** One round for a message; [fuel] bounds the exits that VM reports at once. *)
Definition ipc_round (fuel : nat) (m : ipc_msg) : IM unit :=
  modify (with_who (m_source m));;
  if anyset (m_type m) NOTIFY_MESSAGE then
    when (m_source m =? VM_PROC_NR) (sem_process_vm_notify fuel)
  else
    let n := m_type m - (IPC_BASE + 1) in
    (if (0 <=? n) && (n <? 7) then
       external (vm_watch_exit (m_source m));;
       r ← handle m;
       match r with
       | Some (code, m') => ipc_sendnb (m_source m) code (Some (m_ret m'))
       | None => skip
       end
     else skip);;
    update_refcount_and_destroy.
End ipc.
Arguments ipc : clear implicits.
