(* ===== verification/SysvFacts.v ===== *)
(** * Facts about the System V server

    A loop over the semaphores of a set, or of all sets, whose body works on one
    semaphore at a time is a map over the table. What the wake-up, the dismissal
    and the removal of a process do to one semaphore. *)

From S2P Require Import Prelude KTypes Sysv.
#[local] Open Scope Z_scope.

(** ** Lists *)

Lemma seqZ_seq n : seqZ 0 (Z.of_nat n) = Z.of_nat <$> seq 0 n.
Proof. unfold seqZ. rewrite Nat2Z.id. apply list_fmap_ext. intros i x _. lia. Qed.


(** The elements before [n] are mapped. *)
Definition map_first {A} (f : A -> A) (n : nat) (l : list A) : list A := (f <$> take n l) ++ drop n l.

Lemma map_first_0 {A} (f : A -> A) l : map_first f 0 l = l.
Proof. unfold map_first. by rewrite take_0, drop_0. Qed.
Lemma map_first_length {A} (f : A -> A) n l : length (map_first f n l) = length l.
Proof. unfold map_first. rewrite length_app, length_fmap, length_take, length_drop. lia. Qed.
Lemma map_first_lookup {A} (f : A -> A) n l i :
  map_first f n l !! i = (fun x => if decide (i < n)%nat then f x else x) <$> l !! i.
Proof.
  unfold map_first. destruct (decide (i < length (take n l))%nat) as [Hi|Hi].
  - rewrite lookup_app_l by (by rewrite length_fmap). rewrite length_take in Hi. rewrite list_lookup_fmap, lookup_take_lt by lia.
    destruct (l !! i); [|done]. cbn. by rewrite decide_True by lia.
  - rewrite lookup_app_r by (rewrite length_fmap; lia). rewrite length_fmap, lookup_drop, length_take. rewrite length_take in Hi.
    destruct (decide (i < length l)%nat) as [Hl|Hl].
    + replace (n + (i - n `min` length l))%nat with i by lia. destruct (l !! i); [|done]. cbn. by rewrite decide_False by lia.
    + rewrite (lookup_ge_None_2 l i), lookup_ge_None_2 by lia. done.
Qed.
Lemma map_first_S {A} (f : A -> A) n l x : l !! n = Some x -> map_first f (S n) l = <[n := f x]> (map_first f n l).
Proof.
  intros Hx. apply list_eq. intros i. rewrite map_first_lookup. destruct (decide (i = n)) as [->|Hne].
  - rewrite list_lookup_insert_eq by (rewrite map_first_length; by eapply lookup_lt_Some). rewrite Hx. cbn. by rewrite decide_True by lia.
  - rewrite list_lookup_insert_ne, map_first_lookup by done. destruct (l !! i); [|done]. cbn. f_equal. repeat case_decide; try done; lia.
Qed.

Lemma list_alter_insert {A} (f : A -> A) (l : list A) k x : l !! k = Some x -> alter f k l = <[k := f x]> l.
Proof.
  intros Hk. apply list_eq. intros i. destruct (decide (i = k)) as [->|Hne].
  - rewrite list_lookup_alter_eq, list_lookup_insert_eq by (by eapply lookup_lt_Some). by rewrite Hk.
  - by rewrite list_lookup_alter_ne, list_lookup_insert_ne by done.
Qed.

Section facts.
Context {W : Type} `{IpcConst, IpcEnv W}.
Implicit Types (s : ipc W) (a : semaphore) (x : sem_struct).
Notation IM := (M (ipc W)).

Definition emit (o : list ipc_out) s : ipc W := with_outbox (outbox s ++ o) s.

Lemma emit_nil s : emit [] s = s.
Proof. destruct s. unfold emit, with_outbox. cbn. by rewrite app_nil_r. Qed.
Lemma emit_emit o1 o2 s : emit o2 (emit o1 s) = emit (o1 ++ o2) s.
Proof. destruct s. unfold emit, with_outbox. cbn. by rewrite app_assoc. Qed.

(** ** One semaphore of the table *)

Definition put_at (k j : nat) a s : ipc W :=
  with_sems (alter (fun x => set_sems (<[j := a]> (sems x)) x) k (sem_list s)) (sem_list_nr s) s.

Lemma get_sem_ok s k x : sem_list s !! k = Some x -> get_sem k s = Ok (x, s).
Proof. intros Hk. unfold get_sem, gets, lift, mbind, M_bind. by rewrite (aget_nat _ _ _ Hk). Qed.
Lemma get_semaphore_ok s k x j a : sem_list s !! k = Some x -> sems x !! j = Some a -> get_semaphore k (Z.of_nat j) s = Ok (a, s).
Proof. intros Hk Hj. unfold get_semaphore, lift. rewrite (bind_ok _ _ _ _ _ (get_sem_ok s k x Hk)). by rewrite (aget_nat _ _ _ Hj). Qed.

Lemma put_at_eq s k x j a : sem_list s !! k = Some x ->
  put_at k j a s = with_sems (<[k := set_sems (<[j := a]> (sems x)) x]> (sem_list s)) (sem_list_nr s) s.
Proof. intros Hk. unfold put_at. by rewrite (list_alter_insert _ _ _ _ Hk). Qed.

Lemma upd_semaphore_ok s k x j a f : sem_list s !! k = Some x -> sems x !! j = Some a ->
  upd_semaphore k (Z.of_nat j) f s = Ok (tt, put_at k j (f a) s).
Proof.
  intros Hk Hj. unfold upd_semaphore, upd_sem. rewrite (bind_ok _ _ _ _ _ (get_sem_ok s k x Hk)).
  unfold lift at 1, mbind at 1, M_bind. rewrite (aget_nat _ _ _ Hj). unfold lift at 1, mbind at 1, M_bind.
  rewrite aset_nat by (by eapply lookup_lt_Some). rewrite (bind_ok _ _ _ _ _ (get_sem_ok s k x Hk)). unfold modify.
  by rewrite (put_at_eq _ _ _ _ _ Hk).
Qed.

Lemma put_at_lookup s k x j a : sem_list s !! k = Some x -> sem_list (put_at k j a s) !! k = Some (set_sems (<[j := a]> (sems x)) x).
Proof. intros Hk. rewrite (put_at_eq _ _ _ _ _ Hk). cbn. by rewrite list_lookup_insert_eq by (by eapply lookup_lt_Some). Qed.

Lemma put_at_put_at s k j a b : put_at k j b (put_at k j a s) = put_at k j b s.
Proof.
  destruct s. unfold put_at, with_sems. cbn. f_equal. apply list_eq. intros i. destruct (decide (i = k)) as [->|].
  - rewrite !list_lookup_alter_eq. destruct (_ !! k); [|done]. cbn. unfold set_sems. cbn. by rewrite list_insert_insert_eq.
  - by rewrite !list_lookup_alter_ne.
Qed.

(** A body that works on one semaphore: what becomes of it and what is sent. *)
Definition local_op (body : nat -> Z -> IM unit) (P : semaphore -> Prop) (g : semaphore -> semaphore) (o : semaphore -> list ipc_out) : Prop :=
  forall s k x j a, sem_list s !! k = Some x -> sems x !! j = Some a -> P a ->
    body k (Z.of_nat j) s = Ok (tt, emit (o a) (put_at k j (g a) s)).

Lemma local_seq b1 b2 P Q g1 g2 o1 o2 :
  local_op b1 P g1 o1 -> local_op b2 Q g2 o2 -> (forall a, P a -> Q (g1 a)) ->
  local_op (fun k j => b1 k j;; b2 k j) P (fun a => g2 (g1 a)) (fun a => o1 a ++ o2 (g1 a)).
Proof.
  intros H1 H2 HPQ s k x j a Hk Hj HP. rewrite (bind_ok _ _ _ _ _ (H1 s k x j a Hk Hj HP)).
  erewrite H2; [|unfold emit; cbn; by apply put_at_lookup|cbn; apply list_lookup_insert_eq; by eapply lookup_lt_Some|by apply HPQ].
  f_equal. f_equal. rewrite <- emit_emit. transitivity (emit (o2 (g1 a)) (emit (o1 a) (put_at k j (g2 (g1 a)) (put_at k j (g1 a) s)))); [done|].
  by rewrite put_at_put_at.
Qed.

Definition put_set (k : nat) x s : ipc W := with_sems (<[k := x]> (sem_list s)) (sem_list_nr s) s.
Definition map_set (g : semaphore -> semaphore) x : sem_struct := set_sems (map_first g (Z.to_nat (sem_nr x)) (sems x)) x.
Definition set_outs (o : semaphore -> list ipc_out) x : list ipc_out := concat (o <$> take (Z.to_nat (sem_nr x)) (sems x)).
Definition set_fits x : Prop := 0 <= sem_nr x <= Z.of_nat (length (sems x)).

Lemma foreach_snoc {A} (l : list A) y (f : A -> IM unit) s : foreach (l ++ [y]) f s = (foreach l f;; f y) s.
Proof.
  revert s. induction l as [|z l IH]; intros s.
  - change ((f y;; skip) s = f y s). unfold mbind, M_bind. by destruct (f y s) as [[[] s1]|].
  - change ((f z;; foreach (l ++ [y]) f) s = ((f z;; foreach l f);; f y) s). unfold mbind, M_bind.
    destruct (f z s) as [[[] s1]|]; [|done]. apply IH.
Qed.

Lemma each_loop body P g o k n : local_op body P g o -> forall s x,
  sem_list s !! k = Some x -> (n <= length (sems x))%nat -> Forall P (take n (sems x)) ->
  foreach (Z.of_nat <$> seq 0 n) (body k) s =
    Ok (tt, emit (concat (o <$> take n (sems x))) (put_set k (set_sems (map_first g n (sems x)) x) s)).
Proof.
  intros Hb. induction n as [|n IH]; intros s x Hk Hn HP.
  - cbn. rewrite emit_nil, map_first_0. unfold put_set. rewrite list_insert_id; [by destruct s|]. rewrite Hk. by destruct x.
  - destruct (lookup_lt_is_Some_2 (sems x) n ltac:(lia)) as [a Ha].
    rewrite (take_S_r _ _ _ Ha) in HP. apply Forall_app in HP as [HP HPa]. apply Forall_inv in HPa.
    rewrite seq_S, fmap_app. change (Z.of_nat <$> [(0 + n)%nat]) with [Z.of_nat n].
    rewrite foreach_snoc. erewrite bind_ok by (apply (IH s x); [done|lia|done]).
    set (s1 := emit _ _). assert (sem_list s1 !! k = Some (set_sems (map_first g n (sems x)) x)) as Hk1.
    { unfold s1, emit, put_set. cbn. by rewrite list_lookup_insert_eq by (by eapply lookup_lt_Some). }
    assert (map_first g n (sems x) !! n = Some a) as Ha1 by (rewrite map_first_lookup, Ha; cbn; by rewrite decide_False by lia).
    rewrite (Hb s1 k _ n a Hk1 Ha1 HPa). f_equal. f_equal.
    rewrite (take_S_r _ _ _ Ha), fmap_app, concat_app, <- emit_emit. cbn [fmap list_fmap concat]. rewrite app_nil_r. unfold s1.
    rewrite (put_at_eq _ _ _ _ _ Hk1). unfold s1, emit, put_set, with_outbox, with_sems. cbn. f_equal.
    rewrite list_insert_insert_eq. f_equal. unfold set_sems. cbn. f_equal. by rewrite (map_first_S _ _ _ _ Ha).
Qed.

Lemma each_semaphore_ok body P g o s k x : local_op body P g o ->
  sem_list s !! k = Some x -> set_fits x -> Forall P (take (Z.to_nat (sem_nr x)) (sems x)) ->
  each_semaphore body k s = Ok (tt, emit (set_outs o x) (put_set k (map_set g x) s)).
Proof.
  intros Hb Hk Hf HP. unfold each_semaphore. rewrite (bind_ok _ _ _ _ _ (get_sem_ok s k x Hk)).
  rewrite <- (Z2Nat.id (sem_nr x)) at 1 by (unfold set_fits in Hf; lia). rewrite seqZ_seq.
  apply (each_loop body P g o k); [done|done| |done]. unfold set_fits in Hf. lia.
Qed.

(** ** All sets *)

Definition set_ready (P : semaphore -> Prop) x : Prop := set_fits x /\ Forall P (take (Z.to_nat (sem_nr x)) (sems x)).
Definition live s : list sem_struct := take (Z.to_nat (sem_list_nr s)) (sem_list s).
Definition all_outs (o : semaphore -> list ipc_out) s : list ipc_out := concat (set_outs o <$> live s).
Definition map_all (g : semaphore -> semaphore) s : ipc W :=
  with_sems (map_first (map_set g) (Z.to_nat (sem_list_nr s)) (sem_list s)) (sem_list_nr s) s.

Lemma each_set_ok body P g o s : local_op body P g o ->
  0 <= sem_list_nr s <= Z.of_nat (length (sem_list s)) -> Forall (set_ready P) (live s) ->
  each_set (each_semaphore body) s = Ok (tt, emit (all_outs o s) (map_all g s)).
Proof.
  intros Hb Hn HP. unfold each_set, mbind, M_bind, gets. unfold all_outs, map_all, live in *.
  set (n := Z.to_nat (sem_list_nr s)) in *. assert (n <= length (sem_list s))%nat as Hle by lia. clearbody n. clear Hn.
  induction n as [|n IH].
  - cbn. rewrite emit_nil, map_first_0. by destruct s.
  - destruct (lookup_lt_is_Some_2 (sem_list s) n ltac:(lia)) as [x Hx].
    rewrite (take_S_r _ _ _ Hx) in HP. apply Forall_app in HP as [HP HPx]. apply Forall_inv in HPx as [Hf HPx].
    rewrite seq_S, foreach_snoc. erewrite bind_ok by (apply IH; [done|lia]). cbn [Nat.add].
    set (s1 := emit _ _). assert (sem_list s1 !! n = Some x) as Hx1.
    { unfold s1, emit. cbn. rewrite map_first_lookup, Hx. cbn. by rewrite decide_False by lia. }
    rewrite (each_semaphore_ok body P g o s1 n x Hb Hx1 Hf HPx). f_equal. f_equal.
    rewrite (take_S_r _ _ _ Hx), fmap_app, concat_app, <- emit_emit. cbn [fmap list_fmap concat]. rewrite app_nil_r.
    unfold s1, emit, put_set, with_outbox, with_sems. cbn. f_equal. by rewrite (map_first_S _ _ _ _ Hx).
Qed.

(** ** The waiting processes of one semaphore *)

(** Those that wait for an increase, in order. *)
Definition queue a : list waiting := take (Z.to_nat (semncnt a)) (default [] (nlist a)).

(** No process ever waited for zero. *)
Definition calm a : Prop := zlist a = None /\ semzcnt a = 0.

Record sem_ok a : Prop := {
  ok_val : 0 <= semval a < 65536;
  ok_calm : calm a;
  ok_cnt : 0 <= semncnt a < 65536;
  ok_list : semncnt a <= Z.of_nat (length (default [] (nlist a)));
  ok_wants : Forall (fun w => 0 < val w <= 32768) (queue a);
}.

Lemma squeue_length a : sem_ok a -> Z.of_nat (length (queue a)) = semncnt a.
Proof. intros [_ _ ? ? _]. unfold queue. rewrite length_take. lia. Qed.

Lemma put_at_id s k x j a : sem_list s !! k = Some x -> sems x !! j = Some a -> put_at k j a s = s.
Proof.
  intros Hk Hj. rewrite (put_at_eq _ _ _ _ _ Hk), (list_insert_id (sems x) j a Hj). destruct x, s. unfold set_sems, with_sems. cbn in *.
  by rewrite list_insert_id.
Qed.

Lemma local_skip P : local_op (fun _ _ => skip) P (fun a => a) (fun _ => []).
Proof. intros s k x j a Hk Hj _. rewrite (put_at_id _ _ _ _ _ Hk Hj), emit_nil. done. Qed.

Lemma scan_waiting_ok (P : waiting -> bool) l n k : (k + n <= length l)%nat ->
  scan_waiting n l P k = Ok ((fun ix => (k + ix.1)%nat) <$> list_find P (take n (drop k l))).
Proof.
  revert k. induction n as [|n IH]; intros k Hn; [done|]. destruct (lookup_lt_is_Some_2 l k ltac:(lia)) as [x Hx]. cbn [scan_waiting].
  rewrite (aget_nat _ _ _ Hx). rewrite (drop_S _ _ _ Hx). cbn [take list_find]. rsimpl. destruct (decide (P x)) as [HP|HP].
  - destruct (P x); [|done]. cbn. by rewrite Nat.add_0_r.
  - destruct (P x); [by exfalso; apply HP|]. rewrite IH by lia. destruct (list_find P _) as [[i y]|]; [|done]. cbn. do 2 f_equal. lia.
Qed.

Lemma find_waiting_ok (P : waiting -> bool) s a : sem_ok a ->
  find_waiting (nlist a) (semncnt a) P s = Ok (fst <$> list_find P (queue a), s).
Proof.
  intros [_ _ Hc Hl _]. unfold find_waiting, queue. destruct (Z.leb_spec (semncnt a) 0) as [Hle|Hlt].
  - replace (semncnt a) with 0 by lia. done.
  - destruct (nlist a) as [l|]; cbn [default] in *; [|cbn in Hl; lia]. rewrite (bind_ok (deref _) _ s l s) by done. unfold lift.
    rewrite scan_waiting_ok by (cbn in Hl; lia). rewrite drop_0. cbn [default id]. destruct (list_find P _) as [[i y]|]; done.
Qed.

(** The entry [i] of the list is taken out. *)
Definition gap (l : list waiting) (i n : nat) : list waiting := take i l ++ take (n - i - 1) (drop (S i) l) ++ drop (n - 1) l.
Definition unqueue (i : nat) a : semaphore :=
  set_inc (semncnt a - 1) (Some (gap (default [] (nlist a)) i (Z.to_nat (semncnt a)))) a.

Lemma gap_length l i n : (i < n <= length l)%nat -> length (gap l i n) = length l.
Proof. intros Hi. unfold gap. rewrite !length_app, !length_take, !length_drop. lia. Qed.

Lemma take_gap l i n : (i < n <= length l)%nat -> take (n - 1) (gap l i n) = delete i (take n l).
Proof.
  intros Hi. rewrite delete_take_drop. unfold gap. rewrite take_take, Nat.min_l by lia. rewrite skipn_firstn_comm.
  replace (n - S i)%nat with (n - i - 1)%nat by lia.
  rewrite app_assoc, take_app_le by (rewrite length_app, !length_take, length_drop; lia).
  rewrite take_ge by (rewrite length_app, !length_take, length_drop; lia). done.
Qed.

Lemma remove_inc_ok s k x j a i w : sem_list s !! k = Some x -> sems x !! j = Some a -> sem_ok a -> queue a !! i = Some w ->
  remove_inc k (Z.of_nat j) i s = Ok (w, put_at k j (unqueue i a) s).
Proof.
  intros Hk Hj Hok Hi. pose proof (squeue_length a Hok) as Hql. pose proof (lookup_lt_Some _ _ _ Hi) as Hlt. destruct Hok as [_ _ Hc Hl _].
  unfold remove_inc. rewrite (bind_ok _ _ _ _ _ (get_semaphore_ok s k x j a Hk Hj)). unfold queue in Hi, Hlt.
  destruct (nlist a) as [l|] eqn:El; cbn [default id] in *; [|by rewrite take_nil in Hi].
  rewrite length_take in Hlt. rewrite lookup_take_lt in Hi by lia. rewrite (bind_ok (deref _) _ s l s) by done.
  rewrite (lift_bind _ _ _ _ (aget_nat _ _ _ Hi)). erewrite lift_bind.
  2:{ unfold close_gap. rewrite (proj2 (andb_true_iff _ _)) by (split; apply Z.leb_le; lia). done. }
  rewrite (bind_ok _ _ _ _ _ (upd_semaphore_ok s k x j a _ Hk Hj)). unfold mret, M_ret. do 3 f_equal. unfold unqueue. rewrite El. cbn [default id]. f_equal.
  { unfold u16. by rewrite Z.mod_small by lia. }
  f_equal. unfold gap. f_equal. f_equal; f_equal; lia.
Qed.

Lemma queue_unqueue i a : sem_ok a -> (i < length (queue a))%nat -> queue (unqueue i a) = delete i (queue a).
Proof.
  intros Hok Hi. pose proof (squeue_length a Hok) as Hql. destruct Hok as [_ _ Hc Hl _]. unfold queue, unqueue. cbn [semncnt nlist set_inc default id].
  rewrite <- take_gap by lia. f_equal. lia.
Qed.

Lemma unqueue_ok i a : sem_ok a -> (i < length (queue a))%nat -> sem_ok (unqueue i a).
Proof.
  intros Hok Hi. pose proof (queue_unqueue i a Hok Hi) as Hq. pose proof (squeue_length a Hok) as Hql. destruct Hok as [Hv Hca Hc Hl Hw]. split; [done|done| | |].
  - cbn. lia.
  - cbn [unqueue set_inc semncnt nlist default id]. rewrite gap_length; lia.
  - rewrite Hq. by apply Forall_delete.
Qed.

(** ** Wake-up *)

(** The first process that [P] selects is taken from the queue. *)
Definition pick (P : waiting -> bool) a : option (waiting * semaphore) :=
  (fun ix => (ix.2, unqueue ix.1 a)) <$> list_find P (queue a).

Definition wake a : semaphore :=
  match pick (fun w => val w <=? semval a) a with Some (w, a') => set_semval (semval a - val w) a' | None => a end.
Definition wake_outs a : list ipc_out :=
  match pick (fun w => val w <=? semval a) a with Some (w, _) => [mk_ipc_out (who w) OK None] | None => [] end.
Definition leave (pt : Z) a : semaphore := match pick (fun w => who w =? pt) a with Some (_, a') => a' | None => a end.
Definition leave_outs (pt : Z) a : list ipc_out :=
  match pick (fun w => who w =? pt) a with Some (w, _) => [mk_ipc_out (who w) EINTR None] | None => [] end.

Lemma send_ok e r s : send_message_to_process e r s = Ok (tt, emit [mk_ipc_out e r None] s).
Proof. done. Qed.

Lemma wake_zero_local : local_op wake_zero sem_ok (fun a => a) (fun _ => []).
Proof.
  intros s k x j a Hk Hj Hok. unfold wake_zero. rewrite (bind_ok _ _ _ _ _ (get_semaphore_ok s k x j a Hk Hj)).
  rewrite (proj1 (ok_calm _ Hok)). by apply (local_skip sem_ok s k x j a Hk Hj Hok).
Qed.

Lemma wake_inc_local : local_op wake_inc sem_ok wake wake_outs.
Proof.
  intros s k x j a Hk Hj Hok. unfold wake_inc. rewrite (bind_ok _ _ _ _ _ (get_semaphore_ok s k x j a Hk Hj)). unfold wake, wake_outs, pick.
  pose proof (find_waiting_ok (fun w => val w <=? semval a) s a Hok) as Hf.
  destruct (list_find (fun w : waiting => val w <=? semval a) (queue a)) as [[i w]|] eqn:E; cbn [fmap option_fmap option_map fst snd] in *.
  - apply list_find_Some in E as (Hi & Hw & _). apply Is_true_true, Z.leb_le in Hw. destruct (nlist a) as [l|] eqn:El.
    2:{ unfold queue in Hi. rewrite El in Hi. cbn in Hi. by rewrite take_nil in Hi. }
    rewrite (bind_ok _ _ _ _ _ Hf). erewrite bind_ok by (by eapply remove_inc_ok).
    erewrite bind_ok.
    2:{ eapply upd_semaphore_ok; [by apply put_at_lookup|]. cbn. apply list_lookup_insert_eq. by eapply lookup_lt_Some. }
    rewrite send_ok, put_at_put_at. do 4 f_equal. unfold set_semval. f_equal. cbn [unqueue set_inc semval].
    pose proof (ok_val _ Hok). pose proof (proj1 (Forall_lookup _ _) (ok_wants _ Hok) i w Hi) as [? _]. unfold u16. apply Z.mod_small. lia.
  - destruct (nlist a); [rewrite (bind_ok _ _ _ _ _ Hf)|]; by apply (local_skip sem_ok s k x j a Hk Hj Hok).
Qed.

Lemma pick_ok P a w a' : sem_ok a -> pick P a = Some (w, a') -> sem_ok a' /\ semval a' = semval a /\ P w = true /\
  exists q1 q2, queue a = q1 ++ w :: q2 /\ queue a' = q1 ++ q2 /\ Forall (fun w => P w = false) q1.
Proof.
  intros Hok. unfold pick. destruct (list_find P (queue a)) as [[i y]|] eqn:E; [|done]. intros [= -> <-].
  apply list_find_Some in E as (Hi & Hw & Hmin). assert (i < length (queue a))%nat as Hlt by (by eapply lookup_lt_Some).
  split; [by apply unqueue_ok|]. split; [done|]. split; [by apply Is_true_true|].
  exists (take i (queue a)), (drop (S i) (queue a)). split; [by rewrite (take_drop_middle _ _ _ Hi)|]. cbn [snd fst].
  split; [by rewrite queue_unqueue, delete_take_drop by done|].
  apply Forall_lookup. intros n z Hz. apply lookup_take_Some in Hz as [Hz Hn]. destruct (P z) eqn:EP; [|done].
  exfalso. eapply Hmin; [exact Hz|exact Hn|]. by rewrite EP.
Qed.

Lemma set_semval_ok v a : 0 <= v < 65536 -> sem_ok a -> sem_ok (set_semval v a).
Proof. intros Hv [? ? ? ? ?]. by split. Qed.

Lemma wake_ok a : sem_ok a -> sem_ok (wake a).
Proof.
  intros Hok. unfold wake. destruct (pick _ a) as [[w a']|] eqn:E; [|done].
  destruct (pick_ok _ _ _ _ Hok E) as (Hok' & Hv & Hw%Z.leb_le & q1 & q2 & Eq & _). apply set_semval_ok; [|done].
  pose proof (ok_val _ Hok). pose proof (ok_wants _ Hok) as Hq. rewrite Eq in Hq. apply Forall_app in Hq as [_ [? _]%Forall_cons]. lia.
Qed.

Lemma leave_ok pt a : sem_ok a -> sem_ok (leave pt a).
Proof. intros Hok. unfold leave. destruct (pick _ a) as [[w a']|] eqn:E; [|done]. by destruct (pick_ok _ _ _ _ Hok E) as (? & _). Qed.

Lemma remove_process_local pt : local_op (remove_process_from pt) sem_ok (leave pt) (leave_outs pt).
Proof.
  intros s k x j a Hk Hj Hok. unfold remove_process_from. rewrite (bind_ok _ _ _ _ _ (get_semaphore_ok s k x j a Hk Hj)).
  rewrite (proj1 (ok_calm _ Hok)), (proj2 (ok_calm _ Hok)). rewrite (bind_ok (find_waiting None 0 _) _ s None s) by done. rewrite (bind_ok skip _ s tt s) by done.
  rewrite (bind_ok _ _ _ _ _ (get_semaphore_ok s k x j a Hk Hj)). rewrite (bind_ok _ _ _ _ _ (find_waiting_ok _ s a Hok)).
  unfold leave, leave_outs, pick. destruct (list_find (fun w : waiting => who w =? pt) (queue a)) as [[i w]|] eqn:E; cbn [fmap option_fmap option_map fst snd].
  - apply list_find_Some in E as (Hi & _ & _). erewrite bind_ok by (by eapply remove_inc_ok). apply send_ok.
  - by apply (local_skip sem_ok s k x j a Hk Hj Hok).
Qed.

(** ** A set that is removed *)

Definition dismiss_outs a : list ipc_out := (fun w => mk_ipc_out (who w) EIDRM None) <$> queue a.

Lemma dismiss_loop (l : list waiting) s n : (n <= length l)%nat ->
  foreach (Z.of_nat <$> seq 0 n) (fun i => x ← lift (aget l i); send_message_to_process (who x) EIDRM) s =
  Ok (tt, emit ((fun w => mk_ipc_out (who w) EIDRM None) <$> take n l) s).
Proof.
  induction n as [|n IH]; intros Hn; [by cbn; rewrite emit_nil|].
  destruct (lookup_lt_is_Some_2 l n ltac:(lia)) as [w Hw]. rewrite seq_S, fmap_app. change (Z.of_nat <$> [(0 + n)%nat]) with [Z.of_nat n].
  rewrite foreach_snoc. erewrite bind_ok by (apply IH; lia). rewrite (lift_bind _ _ _ _ (aget_nat _ _ _ Hw)), send_ok, emit_emit.
  by rewrite (take_S_r _ _ _ Hw), fmap_app.
Qed.

Lemma dismiss_local : local_op dismiss_semaphore sem_ok (fun a => a) dismiss_outs.
Proof.
  intros s k x j a Hk Hj Hok. unfold dismiss_semaphore. rewrite (bind_ok _ _ _ _ _ (get_semaphore_ok s k x j a Hk Hj)).
  rewrite (proj2 (ok_calm _ Hok)). rewrite (bind_ok (dismiss (zlist a) 0) _ s tt s) by done.
  rewrite (put_at_id _ _ _ _ _ Hk Hj). destruct Hok as [_ _ Hc Hl _]. unfold dismiss, dismiss_outs, queue. destruct (Z.leb_spec (semncnt a) 0).
  - replace (semncnt a) with 0 by lia. cbn. by rewrite emit_nil.
  - destruct (nlist a) as [l|]; cbn [default id] in *; [|cbn in Hl; lia]. rewrite (bind_ok (deref _) _ s l s) by done.
    rewrite <- (Z2Nat.id (semncnt a)) at 1 by lia. rewrite seqZ_seq. apply dismiss_loop. lia.
Qed.
End facts.
