(* ===== verification/SysvSem.v ===== *)
(** * The semaphores of the System V server

    What the server may assume of its surroundings, the invariant of its tables, and
    what the calls on semaphores do to the table, seen as a list of sets with
    their values and queues. *)

From S2P Require Import Prelude KTypes Sysv SysvFacts.
#[local] Open Scope Z_scope.

(** ** The surroundings *)

Definition op_ok (op : sembuf) : Prop := 0 <= sem_num op < 65536 /\ -32768 <= sem_op op < 32768.

(** A call returns, and the result satisfies [Q]. *)
Definition returns {W A} (m : M W A) (w : W) (Q : A -> W -> Prop) : Prop := exists a w', m w = Ok (a, w') /\ Q a w'.

(** The calls return; a copy delivers as many numbers of 16 bits as asked for; the caller, who waits
    for the answer, keeps its identity and its memory. VM reports finitely many exits. *)
Class IpcEnvLaws (W : Type) `{IpcEnv W} := {
  ops_at : W -> Z -> Z -> Z -> list sembuf;
  pending : W -> nat;
  same_user (w w' : W) : Prop :=
    forall e, getnuid w' e = getnuid w e /\ getngid w' e = getngid w e /\ forall a n, ops_at w' e a n = ops_at w e a n;
  malloc_law n w : returns (malloc_ok n) w (fun _ w' => same_user w w');
  watch_law e w : returns (vm_watch_exit e) w (fun _ w' => same_user w w');
  ops_at_law w e a n : 0 <= n -> Z.of_nat (length (ops_at w e a n)) = n /\ Forall op_ok (ops_at w e a n);
  ops_law e a n w : returns (copy_ops e a n) w (fun r w' => same_user w w' /\ (r.1 = OK -> r.2 = ops_at w e a n));
  vals_law e a n w : 0 <= n -> returns (copy_vals e a n) w (fun r _ => r.1 = OK -> Z.of_nat (length r.2) = n /\ Forall (fun v => 0 <= v < 65536) r.2);
  perm_law e a w : returns (copy_perm e a) w (fun _ _ => True);
  out_law e a d w : returns (copy_out e a d) w (fun _ _ => True);
  exit_law w : returns vm_query_exit w (fun r w' => 0 < r.1 -> (pending w' < pending w)%nat);
  ref_law p w : returns (vm_getrefcount p) w (fun rc _ => 0 <= rc < 256);
  phys_law o a w : returns (vm_getphys o a) w (fun _ _ => True);
  remap_law e a p n w : returns (vm_remap e a p n) w (fun _ _ => True);
  unmap_law e a w : returns (vm_unmap e a) w (fun _ _ => True);
  mmap_law n w : returns (mmap n) w (fun _ _ => True);
  munmap_law a n w : returns (munmap a n) w (fun _ _ => True);
}.

Lemma same_user_refl {W} `{IpcEnvLaws W} (w : W) : same_user w w.
Proof. done. Qed.
Lemma same_user_trans {W} `{IpcEnvLaws W} (w1 w2 w3 : W) : same_user w1 w2 -> same_user w2 w3 -> same_user w1 w3.
Proof.
  intros H1 H2 e. destruct (H1 e) as (A1 & B1 & C1), (H2 e) as (A2 & B2 & C2). split; [by rewrite A2|]. split; [by rewrite B2|]. intros a n. by rewrite C2.
Qed.

(** The constants of the headers. *)
Class IpcConstLaws `{IpcConst} : Prop := {
  semmni_law : 0 <= SEMMNI;
  semmsl_law : 0 <= SEMMSL;
  semvmx_law : SEMVMX < 65536;
  cmds_law : NoDup [IPC_STAT; IPC_SET; IPC_RMID; IPC_INFO; SEM_INFO; SEM_STAT; GETALL; GETNCNT; GETPID; GETVAL; GETZCNT; SETALL; SETVAL];
}.

Section sem.
Context {W : Type} `{IpcConst, IpcEnv W} `{!IpcConstLaws, !IpcEnvLaws W}.
Implicit Types (s : ipc W) (a : semaphore) (x : sem_struct).
Notation IM := (M (ipc W)).

(** ** The invariant *)

Definition shm_fits (x : shm_struct) : Prop := 0 < shm_segsz (shm_ds x) <= INT_MAX - 4095.

Record inv s : Prop := {
  inv_sems : length (sem_list s) = Z.to_nat SEMMNI;
  inv_nr : 0 <= sem_list_nr s <= SEMMNI;
  inv_sets : Forall (set_ready sem_ok) (live s);
  inv_ids : NoDup (sem_id <$> live s);
  inv_old : Forall (fun x => sem_id x < identifier s) (live s);
  inv_ident : 0 <= identifier s <= INT_MAX;
  inv_shms : length (shm_list s) = Z.to_nat MAX_SHM_NR;
  inv_shm_nr : 0 <= shm_list_nr s <= MAX_SHM_NR;
  inv_fits : Forall shm_fits (take (Z.to_nat (shm_list_nr s)) (shm_list s));
}.

(** The semaphores as lists: value and queue. *)
Definition sview a : Z * list waiting := (semval a, queue a).
Definition set_view x : Z * list (Z * list waiting) := (sem_id x, sview <$> take (Z.to_nat (sem_nr x)) (sems x)).
Definition table s : list (Z * list (Z * list waiting)) := set_view <$> live s.

Lemma inv_frame s s' : inv s -> sem_list s' = sem_list s -> sem_list_nr s' = sem_list_nr s -> identifier s' = identifier s ->
  shm_list s' = shm_list s -> shm_list_nr s' = shm_list_nr s -> inv s' /\ table s' = table s.
Proof.
  intros [] E1 E2 E3 E4 E5. unfold table, live in *. rewrite E1, E2. split; [|done]. split; unfold live; rewrite ?E1, ?E2, ?E3, ?E4, ?E5; done.
Qed.

(** ** Calls to the outside *)

Lemma wp_external {A} (m : M W A) Q R s :
  returns m (world s) R -> (forall r w, R r w -> Q r (with_world w s)) -> wp (external m) Q s.
Proof.
  intros (r & w & E & HR) HQ. unfold external. apply wp_bind, wp_gets. unfold wp. rewrite E. by apply HQ.
Qed.

Lemma inv_world s w : inv s -> inv (with_world w s) /\ table (with_world w s) = table s.
Proof. intros Hi. by apply (inv_frame s). Qed.
Lemma inv_who s e : inv s -> inv (with_who e s) /\ table (with_who e s) = table s.
Proof. intros Hi. by apply (inv_frame s). Qed.
Lemma inv_emit s o : inv s -> inv (emit o s) /\ table (emit o s) = table s.
Proof. intros Hi. by apply (inv_frame s). Qed.

(** ** The table *)

Lemma live_lookup s k x : live s !! k = Some x <-> sem_list s !! k = Some x /\ (k < Z.to_nat (sem_list_nr s))%nat.
Proof. unfold live. apply lookup_take_Some. Qed.

Lemma inv_bound s : inv s -> 0 <= sem_list_nr s <= Z.of_nat (length (sem_list s)).
Proof. intros Hi. rewrite (inv_sems _ Hi). pose proof (inv_nr _ Hi). lia. Qed.

Lemma live_length s : inv s -> Z.of_nat (length (live s)) = sem_list_nr s.
Proof. intros Hi. unfold live. rewrite length_take. pose proof (inv_bound s Hi). lia. Qed.

Lemma find_index_ok {A} (P : A -> Prop) `{!forall y, Decision (P y)} (l : list A) n :
  match find_index P l n with
  | Some k => exists y, take (Z.to_nat n) l !! k = Some y /\ P y
  | None => Forall (fun y => ~ P y) (take (Z.to_nat n) l)
  end.
Proof.
  unfold find_index. destruct (list_find P _) as [[k y]|] eqn:E; cbn.
  - apply list_find_Some in E as (Hk & HP & _). eauto.
  - by apply list_find_None in E.
Qed.

Lemma find_id_ok s i (Q : option nat -> ipc W -> Prop) :
  (forall k x, live s !! k = Some x -> sem_id x = i -> Q (Some k) s) ->
  (Forall (fun x => sem_id x <> i) (live s) -> Q None s) -> wp (sem_find_id i) Q s.
Proof.
  intros Hs Hn. unfold sem_find_id. apply wp_bind, wp_gets, wp_bind, wp_gets, wp_ret.
  pose proof (find_index_ok (fun x => sem_id x = i) (sem_list s) (sem_list_nr s)) as Hf. destruct (find_index _ _ _) as [k|].
  - destruct Hf as (x & Hk & Hx). by eapply Hs.
  - by apply Hn.
Qed.

Lemma wp_get_sem s k x (Q : sem_struct -> ipc W -> Prop) : sem_list s !! k = Some x -> Q x s -> wp (get_sem k) Q s.
Proof. intros Hk HQ. unfold wp. by rewrite (get_sem_ok s k x Hk). Qed.
Lemma wp_get_semaphore s k x j a (Q : semaphore -> ipc W -> Prop) : sem_list s !! k = Some x -> sems x !! j = Some a -> Q a s ->
  wp (get_semaphore k (Z.of_nat j)) Q s.
Proof. intros Hk Hj HQ. unfold wp. by rewrite (get_semaphore_ok s k x j a Hk Hj). Qed.
Lemma wp_upd_semaphore s k x j a f (Q : unit -> ipc W -> Prop) : sem_list s !! k = Some x -> sems x !! j = Some a ->
  Q tt (put_at k j (f a) s) -> wp (upd_semaphore k (Z.of_nat j) f) Q s.
Proof. intros Hk Hj HQ. unfold wp. by rewrite (upd_semaphore_ok s k x j a f Hk Hj). Qed.
Lemma wp_check s req md (Q : bool -> ipc W -> Prop) : Q (check_perm (world s) req (who_e s) md) s -> wp (check req md) Q s.
Proof. done. Qed.

(** A set of the table is replaced by one with the same number. *)
Lemma put_set_ok s k x x' : inv s -> live s !! k = Some x -> sem_id x' = sem_id x -> set_ready sem_ok x' ->
  inv (put_set k x' s) /\ table (put_set k x' s) = <[k := set_view x']> (table s).
Proof.
  intros Hi Hk Eid Hx'. assert (live (put_set k x' s) = <[k := x']> (live s)) as El.
  { unfold live, put_set. cbn [sem_list sem_list_nr with_sems]. apply take_insert_lt. by apply live_lookup in Hk as [_ ?]. }
  split.
  - destruct Hi. split; rewrite ?El; try done.
    + unfold put_set. cbn. by rewrite length_insert.
    + by apply Forall_insert.
    + rewrite list_fmap_insert, Eid, list_insert_id; [done|]. by rewrite list_lookup_fmap, Hk.
    + apply Forall_insert; [done|]. rewrite Eid. cbn. by apply (proj1 (Forall_lookup _ _) inv_old0 k x).
  - unfold table. by rewrite El, list_fmap_insert.
Qed.

(** ** Wake-up *)

Definition select (P : waiting -> bool) (q : list waiting) : option (waiting * list waiting) :=
  (fun ix => (ix.2, delete ix.1 q)) <$> list_find P q.
Definition wake_view (vq : Z * list waiting) : Z * list waiting :=
  match select (fun w => val w <=? vq.1) vq.2 with Some (w, q) => (vq.1 - val w, q) | None => vq end.
Definition wake_msg (vq : Z * list waiting) : list ipc_out :=
  match select (fun w => val w <=? vq.1) vq.2 with Some (w, q) => [mk_ipc_out (who w) OK None] | None => [] end.
Definition leave_view (pt : Z) (vq : Z * list waiting) : Z * list waiting :=
  match select (fun w => who w =? pt) vq.2 with Some (_, q) => (vq.1, q) | None => vq end.
Definition leave_msg (pt : Z) (vq : Z * list waiting) : list ipc_out :=
  match select (fun w => who w =? pt) vq.2 with Some (w, _) => [mk_ipc_out (who w) EINTR None] | None => [] end.

Lemma pick_select P a : sem_ok a -> (fun wa => (wa.1, queue wa.2)) <$> pick P a = select P (queue a).
Proof.
  intros Hok. unfold pick, select. destruct (list_find P (queue a)) as [[i w]|] eqn:E; [|done]. cbn. do 2 f_equal.
  apply queue_unqueue; [done|]. apply list_find_Some in E as (Hi & _). by eapply lookup_lt_Some.
Qed.

Lemma wake_sview a : sem_ok a -> sview (wake a) = wake_view (sview a) /\ wake_outs a = wake_msg (sview a).
Proof.
  intros Hok. unfold wake, wake_outs, wake_view, wake_msg, sview. cbn [fst snd]. rewrite <- pick_select by done.
  destruct (pick _ a) as [[w a']|] eqn:E; cbn; [|done]. done.
Qed.
Lemma leave_sview pt a : sem_ok a -> sview (leave pt a) = leave_view pt (sview a) /\ leave_outs pt a = leave_msg pt (sview a).
Proof.
  intros Hok. unfold leave, leave_outs, leave_view, leave_msg, sview. cbn [fst snd]. rewrite <- pick_select by done.
  destruct (pick _ a) as [[w a']|] eqn:E; cbn; [|done]. destruct (pick_ok _ _ _ _ Hok E) as (_ & -> & _). done.
Qed.

(** A pass over all semaphores. *)
Definition each_view (g : Z * list waiting -> Z * list waiting) (t : list (Z * list (Z * list waiting))) : list (Z * list (Z * list waiting)) :=
  (fun il : Z * list (Z * list waiting) => (il.1, g <$> il.2)) <$> t.
Definition each_msg (o : Z * list waiting -> list ipc_out) (t : list (Z * list (Z * list waiting))) : list ipc_out :=
  concat ((fun il : Z * list (Z * list waiting) => concat (o <$> il.2)) <$> t).

Lemma map_set_view g o gv ov x :
  (forall a, sem_ok a -> sem_ok (g a)) -> (forall a, sem_ok a -> sview (g a) = gv (sview a) /\ o a = ov (sview a)) -> set_ready sem_ok x ->
  set_view (map_set g x) = (sem_id x, gv <$> (set_view x).2) /\ set_outs o x = concat (ov <$> (set_view x).2) /\ set_ready sem_ok (map_set g x).
Proof.
  intros Hg Hv [Hf Hx]. assert (take (Z.to_nat (sem_nr x)) (map_first g (Z.to_nat (sem_nr x)) (sems x)) = g <$> take (Z.to_nat (sem_nr x)) (sems x)) as Et.
  { unfold set_fits in Hf. unfold map_first. rewrite take_app_le, take_ge; [done| |]; rewrite length_fmap, length_take; lia. }
  assert (take (Z.to_nat (sem_nr (map_set g x))) (sems (map_set g x)) = g <$> take (Z.to_nat (sem_nr x)) (sems x)) as Et' by exact Et.
  unfold set_view, set_outs. cbn [snd]. rewrite Et', <- !list_fmap_compose. split; [|split].
  - f_equal. apply list_fmap_ext. intros i a Ha. cbn. by apply Hv, (proj1 (Forall_lookup _ _) Hx i).
  - f_equal. apply list_fmap_ext. intros i a Ha. cbn. by apply Hv, (proj1 (Forall_lookup _ _) Hx i).
  - split.
    + unfold set_fits in *. change (0 <= sem_nr x <= Z.of_nat (length (map_first g (Z.to_nat (sem_nr x)) (sems x)))). by rewrite map_first_length.
    + rewrite Et'. apply Forall_fmap. eapply Forall_impl; [exact Hx|]. intros a Ha. by apply Hg.
Qed.

Lemma pass_ok body g o gv ov s :
  local_op body sem_ok g o -> (forall a, sem_ok a -> sem_ok (g a)) -> (forall a, sem_ok a -> sview (g a) = gv (sview a) /\ o a = ov (sview a)) ->
  inv s -> exists s', each_set (each_semaphore body) s = Ok (tt, emit (each_msg ov (table s)) s') /\ inv s' /\ table s' = each_view gv (table s) /\
    outbox s' = outbox s /\ world s' = world s /\ who_e s' = who_e s /\ identifier s' = identifier s.
Proof.
  intros Hb Hg Hv Hi. exists (map_all g s). pose proof (inv_sets _ Hi) as HP.
  assert (live (map_all g s) = map_set g <$> live s) as El.
  { unfold live, map_all, map_first. cbn [sem_list sem_list_nr with_sems]. rewrite take_app_le, take_ge; [done| |]; rewrite length_fmap, length_take; pose proof (inv_bound s Hi); lia. }
  pose proof (fun x => map_set_view g o gv ov x Hg Hv) as Hset.
  split; [|split; [|split; [|done]]].
  - rewrite (each_set_ok body sem_ok g o s Hb (inv_bound s Hi) HP). do 3 f_equal. unfold all_outs, each_msg, table. f_equal.
    rewrite <- list_fmap_compose. apply list_fmap_ext. intros i x Hx. cbn. by apply Hset, (proj1 (Forall_lookup _ _) HP i).
  - destruct Hi. split; rewrite ?El; try done.
    + unfold map_all. cbn. by rewrite map_first_length.
    + apply Forall_fmap. eapply Forall_impl; [exact HP|]. intros x Hx. by apply Hset.
    + rewrite <- list_fmap_compose. erewrite list_fmap_ext; [exact inv_ids0|]. done.
    + apply Forall_fmap. by eapply Forall_impl; [exact inv_old0|].
  - unfold table, each_view. rewrite El, <- !list_fmap_compose. apply list_fmap_ext. intros i x Hx. cbn. by apply Hset, (proj1 (Forall_lookup _ _) HP i).
Qed.

Lemma wake_step_local : local_op (W := W) (fun k j => wake_zero k j;; wake_inc k j) sem_ok (fun a => wake a) (fun a => [] ++ wake_outs a).
Proof. apply (local_seq wake_zero wake_inc sem_ok sem_ok (fun a => a) wake (fun _ => []) wake_outs); [apply wake_zero_local|apply wake_inc_local|done]. Qed.

(** Relates the states before and after a pass. *)
Definition passed s s' (t : list (Z * list (Z * list waiting))) (o : list ipc_out) : Prop :=
  inv s' /\ table s' = t /\ outbox s' = outbox s ++ o /\ world s' = world s /\ who_e s' = who_e s /\ identifier s' = identifier s.

Lemma update_semaphores_ok s : inv s -> exists s', update_semaphores s = Ok (tt, s') /\ passed s s' (each_view wake_view (table s)) (each_msg wake_msg (table s)).
Proof.
  intros Hi. destruct (pass_ok _ _ _ _ _ s wake_step_local wake_ok wake_sview Hi) as (s' & E & Hi' & Ht & Ho & Hw & He & Hid).
  eexists. split; [exact E|]. destruct (inv_emit s' (each_msg wake_msg (table s)) Hi') as [? ?]. split; [done|]. split; [by rewrite <- Ht|].
  split; [by rewrite <- Ho|]. done.
Qed.

Lemma remove_process_ok pt s : inv s -> exists s', remove_process pt s = Ok (tt, s') /\ passed s s' (each_view (leave_view pt) (table s)) (each_msg (leave_msg pt) (table s)).
Proof.
  intros Hi. destruct (pass_ok _ _ _ _ _ s (remove_process_local pt) (leave_ok pt) (leave_sview pt) Hi) as (s' & E & Hi' & Ht & Ho & Hw & He & Hid).
  eexists. split; [exact E|]. destruct (inv_emit s' (each_msg (leave_msg pt) (table s)) Hi') as [? ?]. split; [done|]. split; [by rewrite <- Ht|].
  split; [by rewrite <- Ho|]. done.
Qed.

(** ** Performing operations *)

Lemma put_at_live s k x j a a' : inv s -> live s !! k = Some x -> sems x !! j = Some a -> Z.of_nat j < sem_nr x -> sem_ok a' ->
  inv (put_at k j a' s) /\ live (put_at k j a' s) !! k = Some (set_sems (<[j := a']> (sems x)) x) /\
  table (put_at k j a' s) = <[k := (sem_id x, <[j := sview a']> (set_view x).2)]> (table s).
Proof.
  intros Hi Hk Hj Hn Ha'. pose proof Hk as Hkl. apply live_lookup in Hkl as [Hks Hkn]. rewrite (put_at_eq _ _ _ _ _ Hks).
  set (x' := set_sems (<[j := a']> (sems x)) x). change (with_sems _ _ s) with (put_set k x' s).
  pose proof (proj1 (Forall_lookup _ _) (inv_sets _ Hi) k x Hk) as [Hf Hx].
  assert (set_ready sem_ok x') as Hx'.
  { split; [unfold set_fits, x' in *; cbn; by rewrite length_insert|]. unfold x'. cbn [sems set_sems sem_nr sem_ds]. unfold sem_nr in *. cbn [sem_ds set_sems].
    rewrite take_insert_lt by lia. by apply Forall_insert. }
  destruct (put_set_ok s k x x' Hi Hk eq_refl Hx') as [Hi' Ht]. split; [done|]. split.
  - apply live_lookup. cbn. split; [|done]. apply list_lookup_insert_eq. by eapply lookup_lt_Some.
  - rewrite Ht. f_equal. unfold set_view, x', sem_nr. cbn [sem_id sems sem_ds set_sems snd]. unfold sem_nr in Hn. rewrite take_insert_lt by lia. by rewrite list_fmap_insert.
Qed.

(** A waiting process joins a queue. *)
Lemma append_ok a w : sem_ok a -> semncnt a < 65535 -> 0 < val w <= 32768 -> exists l, append_waiting (nlist a) (semncnt a + 1) w = Ok l /\
  sem_ok (set_inc (semncnt a + 1) (Some l) a) /\ sview (set_inc (semncnt a + 1) (Some l) a) = (semval a, queue a ++ [w]).
Proof.
  intros Hok Hn Hw. pose proof (squeue_length a Hok) as Hql. pose proof Hok as [Hv Hca Hc Hl Hq]. unfold append_waiting. set (n := Z.to_nat (semncnt a)).
  replace (Z.to_nat (semncnt a + 1)) with (S n) by lia. replace (semncnt a + 1 - 1) with (Z.of_nat n) by lia. unfold queue in Hql, Hq. fold n in Hql, Hq.
  rewrite aset_nat by (rewrite length_resize; lia). eexists. split; [done|].
  set (l := default [] (nlist a)) in *. assert (<[n := w]> (resize (S n) (mk_waiting 0 0) l) = take n l ++ [w]) as El.
  { apply list_eq. intros i. destruct (decide (i = n)) as [->|Hne].
    - rewrite list_lookup_insert_eq by (rewrite length_resize; lia). rewrite lookup_app_r by (rewrite length_take; lia). rewrite length_take, Nat.min_l by lia.
      by rewrite Nat.sub_diag.
    - rewrite list_lookup_insert_ne by done. destruct (decide (i < n)%nat).
      + rewrite lookup_app_l by (rewrite length_take; lia). rewrite lookup_take_lt by lia. rewrite lookup_resize by lia. done.
      + rewrite lookup_ge_None_2 by (rewrite length_resize; lia). rewrite lookup_ge_None_2; [done|]. rewrite length_app, length_take. cbn. lia. }
  rewrite El. assert (queue (set_inc (semncnt a + 1) (Some (take n l ++ [w])) a) = queue a ++ [w]) as Eq.
  { unfold queue at 1. cbn [semncnt nlist set_inc default id]. rewrite take_ge; [done|]. rewrite length_app, length_take. cbn. lia. }
  split; [|unfold sview; by rewrite Eq]. split; [done|done| | |].
  - cbn. lia.
  - cbn [semncnt nlist set_inc default id]. rewrite length_app, length_take. cbn. lia.
  - rewrite Eq. apply Forall_app. split; [done|]. by apply Forall_singleton.
Qed.

Definition op_sleeps (op : sembuf) (vq : Z * list waiting) : bool := (sem_op op <? 0) && (vq.1 <? - sem_op op).
Definition op_view (e : Z) (op : sembuf) (vq : Z * list waiting) : Z * list waiting :=
  if op_sleeps op vq then (vq.1, vq.2 ++ [mk_waiting e (- sem_op op)]) else (u16 (vq.1 + sem_op op), vq.2).

(** The operations on the values and queues of a set, and how often the caller sleeps. *)
Fixpoint perform_view (e : Z) (ops : list sembuf) (l : list (Z * list waiting)) : list (Z * list waiting) * Z :=
  match ops with
  | [] => (l, 0)
  | op :: ops' =>
      let j := Z.to_nat (sem_num op) in
      let r := perform_view e ops' (alter (op_view e op) j l) in
      (r.1, r.2 + match l !! j with Some vq => if op_sleeps op vq then 1 else 0 | None => 0 end)
  end.

Context (memory : forall n w b w', malloc_ok n w = Ok (b, w') -> b = true).

Lemma sleep_inc_ok s k x j a v : inv s -> live s !! k = Some x -> sems x !! j = Some a -> Z.of_nat j < sem_nr x -> semncnt a < 65535 -> 0 < v <= 32768 ->
  wp (sleep_inc k (Z.of_nat j) v) (fun b s' => b = true /\ inv s' /\ (exists a', live s' !! k = Some (set_sems (<[j := a']> (sems x)) x) /\ sem_ok a') /\
    table s' = <[k := (sem_id x, <[j := (semval a, queue a ++ [mk_waiting (who_e s) v])]> (set_view x).2)]> (table s) /\
    outbox s' = outbox s /\ who_e s' = who_e s /\ identifier s' = identifier s /\ same_user (world s) (world s')) s.
Proof.
  intros Hi Hk Hj Hn Hc Hv. pose proof Hk as Hkl. apply live_lookup in Hkl as [Hks Hkn].
  assert (sem_ok a) as Hok.
  { pose proof (proj1 (Forall_lookup _ _) (inv_sets _ Hi) k x Hk) as [Hf Hx]. apply (proj1 (Forall_lookup _ _) Hx j). rewrite lookup_take_lt by lia. done. }
  unfold sleep_inc. apply wp_bind. eapply wp_get_semaphore; [done|done|]. apply wp_bind, wp_gets.
  replace (u16 (semncnt a + 1)) with (semncnt a + 1) by (unfold u16; rewrite Z.mod_small; pose proof (ok_cnt _ Hok); lia).
  apply wp_bind. eapply wp_external; [destruct (malloc_law (8 * (semncnt a + 1)) (world s)) as (b & w & E & Hu); exists b, w; split; [exact E|exact (conj (memory _ _ _ _ E) Hu)]|].
  intros b w [-> Hu]. destruct (append_ok a (mk_waiting (who_e s) v) Hok Hc Hv) as (l & El & Hok' & Hsv).
  apply wp_bind. eapply wp_lift; [exact El|]. destruct (inv_world s w Hi) as [Hi1 Ht1].
  destruct (put_at_live (with_world w s) k x j a _ Hi1 Hk Hj Hn Hok') as (Hi2 & Hk2 & Ht2).
  apply wp_bind. eapply wp_upd_semaphore; [exact Hks|exact Hj|]. apply wp_ret.
  split; [done|]. split; [exact Hi2|]. split; [eexists; split; [exact Hk2|exact Hok']|]. split; [rewrite Ht2, Hsv, Ht1; done|]. done.
Qed.

Definition op_fits x (op : sembuf) : Prop := op_ok op /\ sem_num op < sem_nr x /\ sem_op op <> 0.

Lemma set_view_lookup x j a : sems x !! j = Some a -> Z.of_nat j < sem_nr x -> (set_view x).2 !! j = Some (sview a).
Proof. intros Hj Hn. unfold set_view. cbn [snd]. rewrite list_lookup_fmap, lookup_take_lt by lia. by rewrite Hj. Qed.

(** The state after the operations, with the values and queues [v.1], after [v.2] of which the caller sleeps. *)
Definition performed s k x (v : list (Z * list waiting) * Z) (n : Z) (r : ecode * Z) s' : Prop :=
  r = (OK, n + v.2) /\ inv s' /\ table s' = <[k := (sem_id x, v.1)]> (table s) /\
  outbox s' = outbox s /\ who_e s' = who_e s /\ identifier s' = identifier s /\ same_user (world s) (world s').

Definition may_perform s k x ops : Prop :=
  inv s /\ live s !! k = Some x /\ check_perm (world s) (sem_perm (sem_ds x)) (who_e s) W_ALL = true /\
  Forall (op_fits x) ops /\ NoDup (sem_num <$> ops) /\ (forall op a, op ∈ ops -> sems x !! Z.to_nat (sem_num op) = Some a -> semncnt a < 65535).

(** What one operation makes of its semaphore. *)
Definition op_done s k x j (b : semaphore) op (r : bool) s' : Prop :=
  r = op_sleeps op (sview b) /\ inv s' /\ (exists a', live s' !! k = Some (set_sems (<[j := a']> (sems x)) x)) /\
  table s' = <[k := (sem_id x, <[j := op_view (who_e s) op (sview b)]> (set_view x).2)]> (table s) /\
  outbox s' = outbox s /\ who_e s' = who_e s /\ identifier s' = identifier s /\ same_user (world s) (world s').

(** The rest of the operations, after the first. *)
Lemma perform_rest k x op ops s s2 n sl a j : may_perform s k x (op :: ops) -> j = Z.to_nat (sem_num op) -> sems x !! j = Some a ->
  op_done s k x j a op sl s2 ->
  (forall s x n, may_perform s k x ops -> wp (perform k ops n) (performed s k x (perform_view (who_e s) ops (set_view x).2) n) s) ->
  wp (perform k ops (n + if sl then 1 else 0)) (performed s k x (perform_view (who_e s) (op :: ops) (set_view x).2) n) s2.
Proof.
  intros (Hi & Hk & Hperm & Hfit & Hnd & Hroom) -> Ha (-> & Hi2 & (a2 & Hk2) & Ht2 & Ho2 & Hw2 & Hid2 & Hu2) IH. set (j := Z.to_nat (sem_num op)) in *.
  apply Forall_cons in Hfit as [((Hnum & _) & Hlt & _) Hfit]. rewrite fmap_cons in Hnd. apply NoDup_cons in Hnd as [Hni Hnd].
  assert ((set_view x).2 !! j = Some (sview a)) as Hvj by (apply set_view_lookup; [done|lia]).
  set (x2 := set_sems (<[j := a2]> (sems x)) x) in *. assert (set_view x2 = (sem_id x, alter (op_view (who_e s) op) j (set_view x).2)) as Ev2.
  { assert (table s2 !! k = Some (set_view x2)) as E1 by (unfold table; by rewrite list_lookup_fmap, Hk2).
    rewrite Ht2, list_lookup_insert_eq in E1 by (unfold table; rewrite length_fmap; by eapply lookup_lt_Some).
    apply (inj Some) in E1. by rewrite (list_alter_insert _ _ _ _ Hvj). }
  eapply wp_mono; [apply (IH s2 x2)|].
  - split; [done|]. split; [done|]. split; [|split; [done|split; [done|]]].
    + cbn [sem_ds set_sems x2]. rewrite Hw2. destruct (Hu2 (who_e s)) as (U1 & U2 & _). unfold check_perm in *. by rewrite U1, U2.
    + intros op' a' Hin Ha'. assert (Z.to_nat (sem_num op') <> j) as Hne.
      { intros E. apply Hni. apply list_elem_of_fmap. exists op'. split; [|done]. apply (proj1 (Forall_forall _ _) Hfit) in Hin as ((? & _) & _). lia. }
      cbn [sems set_sems x2] in Ha'. rewrite list_lookup_insert_ne in Ha' by done. eapply Hroom; [by right|exact Ha'].
  - intros r s' (-> & Hi' & Ht' & Ho' & Hw' & Hid' & Hu'). rewrite Hw2, Ev2 in *. unfold performed. cbn [perform_view fst snd]. fold j. rewrite Hvj in *.
    split; [f_equal; cbn [snd]; lia|]. split; [done|]. split; [rewrite Ht', Ht2, list_insert_insert_eq; done|].
    split; [by rewrite Ho'|]. split; [done|]. split; [by rewrite Hid'|]. by eapply same_user_trans.
Qed.

(** One operation, from the test of its sign on. *)
Lemma one_op s k x j b op : inv s -> live s !! k = Some x -> sems x !! j = Some b -> Z.of_nat j < sem_nr x -> semncnt b < 65535 ->
  check_perm (world s) (sem_perm (sem_ds x)) (who_e s) W_ALL = true -> op_ok op -> sem_op op <> 0 ->
  forall (c : Z -> IM (ecode * Z)) n Q, (forall sl s2, op_done s k x j b op sl s2 -> wp (c (n + if sl then 1 else 0)) Q s2) ->
  wp (if 0 <? sem_op op then
        p ← check (sem_perm (sem_ds x)) W_ALL;
        if negb p then mret (EACCES, n) else upd_semaphore k (Z.of_nat j) (fun a => set_semval (u16 (semval a + sem_op op)) a);; c n
      else if sem_op op =? 0 then
        if semval b =? 0 then c n else b ← sleep_zero k (Z.of_nat j); if (b : bool) then c (n + 1) else mret (OK, n)
      else
        p ← check (sem_perm (sem_ds x)) W_ALL;
        if negb p then mret (EACCES, n)
        else if - sem_op op <=? semval b then upd_semaphore k (Z.of_nat j) (fun a => set_semval (u16 (semval a + sem_op op)) a);; c n
        else b ← sleep_inc k (Z.of_nat j) (- sem_op op); if (b : bool) then c (n + 1) else mret (OK, n)) Q s.
Proof.
  intros Hi Hk Hb Hjn Hroom Hperm [Hnum Hrange] Hnz c n Q HQ. pose proof Hk as Hkl. apply live_lookup in Hkl as [Hks Hkn].
  assert (sem_ok b) as Hokb.
  { pose proof (proj1 (Forall_lookup _ _) (inv_sets _ Hi) k x Hk) as [Hf Hx]. apply (proj1 (Forall_lookup _ _) Hx j). rewrite lookup_take_lt by lia. done. }
  assert (op_sleeps op (sview b) = false -> wp (upd_semaphore k (Z.of_nat j) (fun a => set_semval (u16 (semval a + sem_op op)) a);; c n) Q s) as Hset.
  { intros Hns. assert (sem_ok (set_semval (u16 (semval b + sem_op op)) b)) as Hokc by (apply set_semval_ok; [unfold u16; apply Z.mod_pos_bound; lia|done]).
    destruct (put_at_live s k x j b _ Hi Hk Hb Hjn Hokc) as (Hi2 & Hk2 & Ht2). apply wp_bind. eapply wp_upd_semaphore; [exact Hks|exact Hb|].
    rewrite <- (Z.add_0_r n). apply (HQ false). split; [done|]. split; [done|]. split; [by eexists|]. split; [|done]. rewrite Ht2. unfold op_view. by rewrite Hns. }
  assert (op_sleeps op (sview b) = (sem_op op <? 0) && (semval b <? - sem_op op)) as Esl by done.
  destruct (Z.ltb_spec 0 (sem_op op)) as [Hpos|Hneg].
  - apply wp_bind, wp_check. rewrite Hperm. cbn [negb]. apply Hset. rewrite Esl. by rewrite (proj2 (Z.ltb_ge _ _)) by lia.
  - rewrite (proj2 (Z.eqb_neq _ _)) by done. apply wp_bind, wp_check. rewrite Hperm. cbn [negb]. rewrite (proj2 (Z.ltb_lt (sem_op op) 0)) in Esl by lia.
    destruct (Z.leb_spec (- sem_op op) (semval b)) as [Hle|Hgt].
    + apply Hset. rewrite Esl. cbn. apply Z.ltb_ge. lia.
    + assert (op_sleeps op (sview b) = true) as Hs by (rewrite Esl; cbn; apply Z.ltb_lt; lia).
      apply wp_bind. eapply wp_mono; [eapply (sleep_inc_ok s k x j b); [exact Hi|exact Hk|exact Hb|exact Hjn|exact Hroom|lia]|].
      intros r s2 (-> & Hi2 & (a2 & Hk2 & _) & Ht2 & Hr2). apply (HQ true). split; [done|]. split; [done|]. split; [by exists a2|]. split; [|exact Hr2].
      rewrite Ht2. unfold op_view. by rewrite Hs.
Qed.

(** The process of the last operation is noted. *)
Lemma note_pid s k x j a p : inv s -> live s !! k = Some x -> sems x !! j = Some a -> Z.of_nat j < sem_nr x ->
  let x1 := set_sems (<[j := set_sempid p a]> (sems x)) x in let s1 := put_at k j (set_sempid p a) s in
  inv s1 /\ live s1 !! k = Some x1 /\ sems x1 !! j = Some (set_sempid p a) /\ table s1 = table s /\ set_view x1 = set_view x.
Proof.
  intros Hi Hk Ha Hjn x1 s1. pose proof (proj1 (Forall_lookup _ _) (inv_sets _ Hi) k x Hk) as [Hf Hx].
  assert (sem_ok a) as Hok by (apply (proj1 (Forall_lookup _ _) Hx j); rewrite lookup_take_lt by lia; done).
  assert (sem_ok (set_sempid p a)) as Hokb by (destruct Hok; by split). destruct (put_at_live s k x j a _ Hi Hk Ha Hjn Hokb) as (Hi1 & Hk1 & Ht1).
  assert ((set_view x).2 !! j = Some (sview a)) as Hvj by (by apply set_view_lookup). change (sview (set_sempid p a)) with (sview a) in Ht1.
  fold s1 x1 in Hi1, Hk1, Ht1. rewrite (list_insert_id _ j) in Ht1 by done. split; [done|]. split; [done|]. split; [apply list_lookup_insert_eq; by eapply lookup_lt_Some|].
  assert (table s1 = table s) as Et by (etransitivity; [exact Ht1|]; apply list_insert_id; unfold table; by rewrite list_lookup_fmap, Hk). split; [done|].
  assert (table s1 !! k = Some (set_view x1)) as E1 by (unfold table; by rewrite list_lookup_fmap, Hk1). rewrite Et in E1. unfold table in E1. rewrite list_lookup_fmap, Hk in E1.
  cbn in E1. by apply (inj Some) in E1.
Qed.

Lemma perform_ok k ops : forall s x n, may_perform s k x ops ->
  wp (perform k ops n) (performed s k x (perform_view (who_e s) ops (set_view x).2) n) s.
Proof.
  induction ops as [|op ops IH]; intros s x n Hmay.
  { destruct Hmay as (Hi & Hk & _). split; [cbn; by rewrite Z.add_0_r|]. split; [done|]. split; [|done].
    cbn. unfold table. rewrite list_insert_id; [done|]. by rewrite list_lookup_fmap, Hk. }
  pose proof Hmay as (Hi & Hk & Hperm & Hfit & Hnd & Hroom). pose proof (Forall_cons_1 _ _ _ Hfit) as [(Hop & Hlt & Hnz) _].
  pose proof (proj1 (Forall_lookup _ _) (inv_sets _ Hi) k x Hk) as [Hf Hx]. unfold set_fits in Hf. pose proof Hop as [Hnum _].
  set (j := Z.to_nat (sem_num op)). assert (Z.of_nat j = sem_num op) as Ej by lia. assert (Z.of_nat j < sem_nr x) as Hjn by lia.
  destruct (lookup_lt_is_Some_2 (sems x) j) as [a Ha]; [lia|].
  destruct (note_pid s k x j a (getnpid (world s) (who_e s)) Hi Hk Ha Hjn) as (Hi1 & Hk1 & Hb1 & Ht1 & Ev1).
  set (x1 := set_sems _ x) in *. pose proof Hk as Hkl. apply live_lookup in Hkl as [Hks _]. pose proof Hk1 as Hkl1. apply live_lookup in Hkl1 as [Hks1 _].
  cbn [perform]. rewrite <- Ej. apply wp_bind, wp_gets, wp_bind, wp_gets, wp_bind. eapply wp_upd_semaphore; [exact Hks|exact Ha|].
  set (s1 := put_at k j _ s) in *. apply wp_bind. eapply wp_get_sem; [exact Hks1|]. apply wp_bind. eapply wp_get_semaphore; [exact Hks1|exact Hb1|].
  apply (one_op s1 k x1 j _ op Hi1 Hk1 Hb1 Hjn (Hroom op a ltac:(left) Ha) Hperm Hop Hnz (perform k ops)). intros sl s2 (-> & Hi2 & (a2 & Hk2) & Ht2 & Hr2).
  change (sem_id x1) with (sem_id x) in Ht2. rewrite Ht1, Ev1 in Ht2.
  apply (perform_rest k x op ops s s2 n _ a j Hmay eq_refl Ha); [|exact IH]. split; [done|]. split; [done|]. split; [|split; [exact Ht2|exact Hr2]].
  exists a2. rewrite Hk2. unfold x1, set_sems. cbn. by rewrite list_insert_insert_eq.
Qed.

(** ** semop *)

Lemma has_dup_NoDup ops : has_dup ops = false -> NoDup (sem_num <$> ops).
Proof.
  induction ops as [|op ops IH]; cbn [has_dup]; intros E; [constructor|]. apply orb_false_iff in E as [E1 E2]. rewrite fmap_cons. apply NoDup_cons. split; [|by apply IH].
  intros (op' & En & Hin)%list_elem_of_fmap. apply not_true_iff_false in E1. apply E1, existsb_exists. exists op'. split; [by apply list_elem_of_In|]. by apply Z.eqb_eq.
Qed.

(** Would the operation wait, though it must not? *)
Definition refuses_view (l : list (Z * list waiting)) (op : sembuf) : bool :=
  match l !! Z.to_nat (sem_num op) with
  | Some vq => anyset (sem_flg op) IPC_NOWAIT && ((sem_op op =? 0) && negb (vq.1 =? 0) || (sem_op op <? 0) && (vq.1 <? - sem_op op))
  | None => false
  end.

Lemma any_refuses_ok x ops : set_fits x -> Forall (fun op => 0 <= sem_num op < sem_nr x) ops ->
  any_refuses x ops = Ok (existsb (refuses_view (set_view x).2) ops).
Proof.
  intros Hf. induction 1 as [|op ops Hop _ IH]; [done|]. cbn [any_refuses existsb]. unfold set_fits in Hf.
  destruct (lookup_lt_is_Some_2 (sems x) (Z.to_nat (sem_num op))) as [a Ha]; [lia|].
  unfold refuses. rewrite <- (Z2Nat.id (sem_num op)) at 1 by lia. rewrite (aget_nat _ _ _ Ha). rsimpl.
  unfold refuses_view at 1. rewrite (set_view_lookup x _ a Ha) by lia. cbn [fst sview]. destruct (_ && _); [done|]. exact IH.
Qed.

(** What a request does to the table before the wake-up: the code, the table, whether the caller sleeps. [copied] says
    whether its operations could be read. *)
Definition semop_view s (m : ipc_msg) (copied : bool) : ecode * list (Z * list (Z * list waiting)) * bool :=
  let t := table s in
  match list_find (fun x => sem_id x = m_id m) (live s) with
  | None => (EINVAL, t, false)
  | Some (k, x) =>
      let l := (set_view x).2 in
      let perm := sem_perm (sem_ds x) in
      let ops := ops_at (world s) (who_e s) (m_addr m) (m_size m) in
      if m_size m <=? 0 then (EINVAL, t, false)
      else if SEMOPM <? m_size m then (E2BIG, t, false)
      else if negb (check_perm (world s) perm (who_e s) R_ALL) then (EACCES, t, false)
      else if negb copied then (EINVAL, t, false)
      else if existsb (fun op => sem_nr x <=? sem_num op) ops then (EFBIG, t, false)
      else if has_dup ops then (EINVAL, t, false)
      else if existsb (refuses_view l) ops then (EAGAIN, t, false)
      else if negb (check_perm (world s) perm (who_e s) W_ALL) then (EACCES, t, false)
      else
        let v := perform_view (who_e s) ops l in
        (OK, <[k := (sem_id x, v.1)]> t, 0 <? v.2)
  end.

(** No queue is as long as its counter can count. *)
Definition room s : Prop := forall il vq, il ∈ table s -> vq ∈ il.2 -> Z.of_nat (length vq.2) < 65535.

Lemma perform_view_sleeps e ops l : 0 <= (perform_view e ops l).2.
Proof. revert l. induction ops as [|op ops IH]; intros l; cbn; [done|]. specialize (IH (alter (op_view e op) (Z.to_nat (sem_num op)) l)). repeat case_match; lia. Qed.

Context (no_zero_ops : forall (w : W) (e adr n : Z), Forall (fun op => sem_op op <> 0) (ops_at w e adr n)).

(** The state after the work of a request. *)
Definition worked s s' (t : list (Z * list (Z * list waiting))) : Prop :=
  inv s' /\ table s' = t /\ outbox s' = outbox s /\ who_e s' = who_e s /\ identifier s' = identifier s.

Lemma worked_world s w : inv s -> worked s (with_world w s) (table s).
Proof. intros Hi. destruct (inv_world s w Hi). done. Qed.

(** Without the right to alter nothing is done at all. *)
Lemma perform_denied k x s ops n : inv s -> live s !! k = Some x -> check_perm (world s) (sem_perm (sem_ds x)) (who_e s) W_ALL = false ->
  Forall (op_fits x) ops -> ops <> [] -> wp (perform k ops n) (fun r s' => r = (EACCES, n) /\ worked s s' (table s)) s.
Proof.
  intros Hi Hk Hperm Hfit Hne. destruct ops as [|op ops]; [done|]. apply Forall_cons in Hfit as [((Hnum & Hrange) & Hlt & Hnz) Hfit].
  pose proof Hk as Hkl. apply live_lookup in Hkl as [Hks Hkn]. pose proof (proj1 (Forall_lookup _ _) (inv_sets _ Hi) k x Hk) as [Hf Hx]. unfold set_fits in Hf.
  set (j := Z.to_nat (sem_num op)). assert (Z.of_nat j = sem_num op) as Ej by lia. destruct (lookup_lt_is_Some_2 (sems x) j) as [a Ha]; [lia|].
  assert (sem_ok a) as Hok by (apply (proj1 (Forall_lookup _ _) Hx j); rewrite lookup_take_lt by lia; done).
  set (b := set_sempid (getnpid (world s) (who_e s)) a). assert (sem_ok b) as Hokb by (destruct Hok; by split).
  destruct (put_at_live s k x j a b Hi Hk Ha ltac:(lia) Hokb) as (Hi1 & Hk1 & Ht1).
  pose proof Hk1 as Hk1l. apply live_lookup in Hk1l as [Hks1 _].
  cbn [perform]. rewrite <- Ej. apply wp_bind, wp_gets, wp_bind, wp_gets, wp_bind. eapply wp_upd_semaphore; [exact Hks|exact Ha|]. fold b.
  apply wp_bind. eapply wp_get_sem; [exact Hks1|]. apply wp_bind. eapply wp_get_semaphore; [exact Hks1|cbn; apply list_lookup_insert_eq; by eapply lookup_lt_Some|].
  assert (worked s (put_at k j b s) (table s)) as Hwk.
  { split; [done|]. split; [|done]. rewrite Ht1. change (sview b) with (sview a). rewrite (list_insert_id _ j) by (apply set_view_lookup; [done|lia]).
    apply list_insert_id. unfold table. by rewrite list_lookup_fmap, Hk. }
  destruct (Z.ltb_spec 0 (sem_op op)); [|rewrite (proj2 (Z.eqb_neq _ _)) by done]; apply wp_bind, wp_check; change (check_perm _ _ _ _) with (check_perm (world s) (sem_perm (sem_ds x)) (who_e s) W_ALL); rewrite Hperm; by apply wp_ret.
Qed.

Lemma semop_work_ok s m : inv s -> room s -> wp (semop_work m) (fun r s' => exists copied,
  let v := semop_view s m copied in r.1 = v.1.1 /\ worked s s' v.1.2 /\ (r.2 =? 0) = negb v.2 /\ (r.1 <> OK -> v.2 = false)) s.
Proof.
  intros Hi Hroom. unfold semop_work, semop_view. apply wp_bind. unfold sem_find_id. apply wp_bind, wp_gets, wp_bind, wp_gets, wp_ret. unfold find_index.
  change (take (Z.to_nat (sem_list_nr s)) (sem_list s)) with (live s). destruct (list_find _ (live s)) as [[k x]|] eqn:Ef; cbn [fmap option_fmap option_map fst snd].
  2:{ apply wp_ret. exists true. by split_and!. }
  apply list_find_Some in Ef as (Hk & Hid & _). pose proof Hk as Hkl. apply live_lookup in Hkl as [Hks Hkn].
  destruct (Z.leb_spec (m_size m) 0) as [|Hsz]; [apply wp_ret; exists true; by split_and!|].
  destruct (SEMOPM <? m_size m); [apply wp_ret; exists true; by split_and!|].
  apply wp_bind. eapply wp_get_sem; [done|]. apply wp_bind, wp_check. destruct (check_perm (world s) _ _ R_ALL); cbn [negb]; [|apply wp_ret; exists true; by split_and!].
  apply wp_bind. eapply wp_external; [destruct (malloc_law (6 * m_size m) (world s)) as (b & w & E & Hu); exists b, w; split; [exact E|exact (conj (memory _ _ _ _ E) Hu)]|].
  intros b w [-> Hu]. cbn [negb]. apply wp_bind, wp_gets. apply wp_bind. eapply wp_external; [apply ops_law|]. intros [rc ops] w' [Hu' Hops]. cbn [fst snd] in *.
  set (s1 := with_world w' (with_world w s)). assert (worked s s1 (table s)) as Hw1 by (unfold s1; change (with_world w' (with_world w s)) with (with_world w' s); by apply worked_world).
  assert (same_user (world s) w') as Huw by (by eapply same_user_trans).
  destruct (decide (rc = OK)) as [->|Hrc].
  2:{ rewrite bool_decide_false by done. apply wp_ret. exists false. by split_and!. }
  rewrite bool_decide_true by done. cbn [negb]. pose proof (Hops eq_refl) as Eops. destruct (Hu (who_e s)) as (_ & _ & Ew).
  change (world (with_world w s)) with w in Eops. change (who_e (with_world w s)) with (who_e s) in Eops. rewrite Ew in Eops.
  destruct (ops_at_law (world s) (who_e s) (m_addr m) (m_size m)) as [Hlen Hok]; [lia|]. rewrite <- Eops in Hlen, Hok.
  assert (Forall (fun op => sem_op op <> 0) ops) as Hnz by (rewrite Eops; apply no_zero_ops). rewrite <- Eops.
  destruct (existsb (fun op => sem_nr x <=? sem_num op) ops) eqn:Ebig; [apply wp_ret; exists true;  by split_and!|].
  destruct (has_dup ops) eqn:Edup; [apply wp_ret; exists true;  by split_and!|].
  assert (Forall (op_fits x) ops) as Hfit.
  { apply Forall_forall. intros op Hin. split; [by apply (proj1 (Forall_forall _ _) Hok)|]. split; [|by apply (proj1 (Forall_forall _ _) Hnz)].
    destruct (Z.leb_spec (sem_nr x) (sem_num op)) as [Hge|]; [|done]. apply not_true_iff_false in Ebig. destruct Ebig. apply existsb_exists.
    exists op. split; [by apply list_elem_of_In|]. by apply Z.leb_le. }
  pose proof (proj1 (Forall_lookup _ _) (inv_sets _ Hi) k x Hk) as [Hf Hx].
  apply wp_bind. eapply wp_lift.
  { apply any_refuses_ok; [done|]. eapply Forall_impl; [exact Hfit|]. intros op ((? & ?) & ? & ?). lia. }
  destruct (existsb (refuses_view (set_view x).2) ops) eqn:Eref; [apply wp_ret; exists true;  by split_and!|].
  assert (check_perm (world s1) (sem_perm (sem_ds x)) (who_e s1) W_ALL = check_perm (world s) (sem_perm (sem_ds x)) (who_e s) W_ALL) as Ecp.
  { destruct (Huw (who_e s)) as (U1 & U2 & _). unfold check_perm. cbn [world with_world who_e s1]. by rewrite U1, U2. }
  destruct Hw1 as (Hi1 & Ht1 & _). destruct (check_perm (world s) (sem_perm (sem_ds x)) (who_e s) W_ALL) eqn:Ep.
  - eapply wp_mono; [apply (perform_ok k ops s1 x 0)|].
    { split; [exact Hi1|]. split; [exact Hk|]. split; [exact Ecp|]. split; [exact Hfit|]. split; [exact (has_dup_NoDup _ Edup)|]. intros op a Hin Ha. rewrite <- (squeue_length a).
      - apply (Hroom (set_view x) (sview a)); [apply list_elem_of_lookup; exists k; unfold table; by rewrite list_lookup_fmap, Hk|].
        apply list_elem_of_lookup. exists (Z.to_nat (sem_num op)). apply set_view_lookup; [done|]. apply (proj1 (Forall_forall _ _) Hfit) in Hin as ((? & ?) & ? & ?). lia.
      - apply (proj1 (Forall_lookup _ _) Hx (Z.to_nat (sem_num op))). apply (proj1 (Forall_forall _ _) Hfit) in Hin as ((? & ?) & ? & ?). rewrite lookup_take_lt by lia. done. }
    intros r s' (-> & Hi' & Ht' & Ho' & Hw' & Hid' & _). exists true. cbn [negb fst snd]. rewrite Z.add_0_l.
    change (who_e s1) with (who_e s) in *. split; [done|]. split; [split; [done|]; split; [by rewrite Ht', Ht1|]; done|]. split; [|done].
    pose proof (perform_view_sleeps (who_e s) ops (set_view x).2). destruct (Z.ltb_spec 0 (perform_view (who_e s) ops (set_view x).2).2); apply Z.eqb_neq || apply Z.eqb_eq; lia.
  - eapply wp_mono; [apply (perform_denied k x s1 ops 0 Hi1 Hk Ecp Hfit)|].
    { intros ->. cbn in Hlen. lia. }
    intros r s' (-> & Hi' & Ht' & Ho' & Hw' & Hid'). exists true. cbn [negb fst snd]. split; [done|]. split; [|done].
    split; [done|]. split; [by rewrite Ht'|]. done.
Qed.

(** The answer of a request and the wake-up after it. *)
Definition semop_done s (v : ecode * list (Z * list (Z * list waiting)) * bool) s' : Prop :=
  inv s' /\ table s' = each_view wake_view v.1.2 /\
  outbox s' = outbox s ++ (if v.2 then [] else [mk_ipc_out (who_e s) v.1.1 None]) ++ each_msg wake_msg v.1.2 /\
  who_e s' = who_e s /\ identifier s' = identifier s.

Lemma do_semop_ok s m : inv s -> room s -> wp (do_semop m) (fun _ s' => exists copied, semop_done s (semop_view s m copied) s') s.
Proof.
  intros Hi Hroom. unfold do_semop. apply wp_bind. eapply wp_mono; [by apply semop_work_ok|]. intros [r n] s1 (copied & Er & (Hi1 & Ht1 & Ho1 & Hw1 & Hid1) & En & Hs).
  apply (wp_mono _ (fun _ s' => semop_done s (semop_view s m copied) s')); [|intros [] s' HQ; by exists copied]. destruct (semop_view s m copied) as [[code t] sl]. cbn [fst snd] in *. subst code.
  apply wp_bind, wp_gets.
  assert (forall s2, inv s2 -> table s2 = t -> who_e s2 = who_e s -> identifier s2 = identifier s ->
    outbox s2 = outbox s ++ (if sl then [] else [mk_ipc_out (who_e s) r None]) ->
    wp update_semaphores (fun _ s' => semop_done s (r, t, sl) s') s2) as Hfin.
  { intros s2 Hi2 Ht2 Hw2 Hid2 Ho2. destruct (update_semaphores_ok s2 Hi2) as (s' & E & Hi' & Ht' & Ho' & _ & Hw' & Hid'). unfold wp. rewrite E.
    rewrite Ht2 in Ht', Ho'. split; [done|]. split; [done|]. split; [by rewrite Ho', Ho2, app_assoc|]. split; [by rewrite Hw'|by rewrite Hid']. }
  apply wp_bind, wp_when; intros Ew.
  - assert (sl = false) as -> by (apply orb_true_iff in Ew as [Ew|Ew]; [apply Hs; intros ->; by rewrite bool_decide_true in Ew|rewrite En in Ew; by destruct sl]).
    unfold ipc_sendnb. apply wp_modify. destruct (inv_emit s1 [mk_ipc_out (who_e s1) r None] Hi1) as [Hi2 Ht2].
    apply Hfin; [exact Hi2|by rewrite <- Ht1|exact Hw1|exact Hid1|]. cbn. by rewrite Ho1, Hw1.
  - apply orb_false_iff in Ew as [_ Ew]. rewrite En in Ew. assert (sl = true) as -> by (by destruct sl). apply Hfin; [done|done|done|done|]. by rewrite app_nil_r.
Qed.
End sem.
