(* ===== verification/SysvCalls.v ===== *)
(** * The calls of the System V server

    The sweep over the shared memory segments, and what every call does to the
    tables: nothing that concerns the semaphores, or one of the effects of [effect]. *)

From S2P Require Import Prelude KTypes Sysv SysvFacts SysvSem.
#[local] Open Scope Z_scope.

Section calls.
Context {W : Type} `{IpcConst, IpcEnv W} `{!IpcConstLaws, !IpcEnvLaws W}.
Implicit Types (s : ipc W) (a : semaphore) (x : sem_struct) (y : shm_struct).
Notation IM := (M (ipc W)).

(** ** Shared memory segments *)

Definition shm_live s : list shm_struct := take (Z.to_nat (shm_list_nr s)) (shm_list s).

(** The semaphores are not concerned. *)
Definition quiet s s' : Prop :=
  inv s' /\ table s' = table s /\ outbox s' = outbox s /\ who_e s' = who_e s /\ identifier s <= identifier s'.

Lemma ipc_quiet_refl s : inv s -> quiet s s.
Proof. done. Qed.
Lemma ipc_quiet_trans s1 s2 s3 : quiet s1 s2 -> quiet s2 s3 -> quiet s1 s3.
Proof. intros (? & E1 & E2 & E3 & ?) (? & E4 & E5 & E6 & ?). split; [done|]. split; [congruence|]. split; [congruence|]. split; [congruence|lia]. Qed.
Lemma ipc_quiet_world s w : inv s -> quiet s (with_world w s).
Proof. intros Hi. destruct (inv_world s w Hi). done. Qed.

Lemma wp_quiet_external {A} (m : M W A) R (Q : A -> ipc W -> Prop) s0 s : quiet s0 s -> returns m (world s) R ->
  (forall r w, R r w -> quiet s0 (with_world w s) -> Q r (with_world w s)) -> wp (external m) Q s.
Proof. intros Hq Hm HQ. eapply wp_external; [exact Hm|]. intros r w HR. apply HQ; [done|]. eapply ipc_quiet_trans; [exact Hq|]. apply ipc_quiet_world, Hq. Qed.

(** The segments are replaced by others of the same kind. *)
Lemma shms_quiet s l n : inv s -> length l = Z.to_nat MAX_SHM_NR -> 0 <= n <= MAX_SHM_NR -> Forall shm_fits (take (Z.to_nat n) l) -> quiet s (with_shms l n s).
Proof. intros Hi Hl Hn Hf. split; [|done]. destruct Hi. by split. Qed.

Lemma shm_lookup s k y : shm_live s !! k = Some y -> shm_list s !! k = Some y /\ (k < Z.to_nat (shm_list_nr s))%nat.
Proof. unfold shm_live. apply lookup_take_Some. Qed.

Lemma wp_get_shm s k y (Q : shm_struct -> ipc W -> Prop) : shm_list s !! k = Some y -> Q y s -> wp (get_shm k) Q s.
Proof. intros Hk HQ. unfold get_shm. apply wp_bind, wp_gets. by eapply wp_lift; [apply aget_nat|]. Qed.

Definition put_shm (k : nat) y s : ipc W := with_shms (<[k := y]> (shm_list s)) (shm_list_nr s) s.
Lemma wp_upd_shm s k y f (Q : unit -> ipc W -> Prop) : shm_list s !! k = Some y -> Q tt (put_shm k (f y) s) -> wp (upd_shm k f) Q s.
Proof. intros Hk HQ. unfold upd_shm. apply wp_bind. eapply wp_get_shm; [done|]. by apply wp_modify. Qed.

Lemma put_shm_quiet s k y : inv s -> shm_fits y -> quiet s (put_shm k y s).
Proof.
  intros Hi Hy. apply shms_quiet; [done|rewrite length_insert; apply Hi|apply Hi|]. pose proof (inv_fits _ Hi) as Hf.
  destruct (decide (k < Z.to_nat (shm_list_nr s))%nat).
  - rewrite take_insert_lt by done. by apply Forall_insert.
  - by rewrite take_insert_ge by lia.
Qed.

Lemma shm_fit_live s k y : inv s -> shm_live s !! k = Some y -> shm_fits y.
Proof. intros Hi Hk. exact (proj1 (Forall_lookup _ _) (inv_fits _ Hi) k y Hk). Qed.

Lemma page_round_ok n : 0 < n <= INT_MAX - 4095 -> exists r, page_round n = Ok r /\ n <= r < n + 4096 /\ r mod IPC_PAGE_SIZE = 0.
Proof.
  intros Hn. unfold page_round, IPC_PAGE_SIZE. rewrite Z.rem_mod_nonneg by lia. pose proof (Z.mod_pos_bound n 4096 ltac:(lia)). pose proof (Z.div_mod n 4096 ltac:(lia)) as Ed.
  destruct (Z.eqb_spec (n mod 4096) 0) as [E|E].
  - exists n. split; [done|]. split; [lia|done].
  - exists (n + (4096 - n mod 4096)). split; [apply int_ok_in; unfold INT_MIN, INT_MAX in *; lia|]. split; [lia|].
    replace (n + (4096 - n mod 4096)) with ((n / 4096 + 1) * 4096) by lia. by apply Z.mod_mul.
Qed.

(** What a count of references makes of a segment. *)
Definition keep y (rc : Z) : option shm_struct :=
  if rc =? 255 then None
  else
    let y' := set_shm_ds (set_nattch (u32 (rc - 1)) (shm_ds y)) y in
    if negb (shm_nattch (shm_ds y') =? 0) || negb (anyset (mode (shm_perm (shm_ds y'))) SHM_DEST) then Some y' else None.

(** The answers of VM on the way through the segments. *)
Section sweep.
Context (I : list shm_struct -> W -> Prop) (A : shm_struct -> Z -> Prop).
Context (answers : forall y rest w, I (y :: rest) w -> returns (vm_getrefcount (page y)) w (fun rc w' =>
  A y rc /\ 0 <= rc < 256 /\ I rest w' /\ forall n, returns (munmap (page y) n) w' (fun _ w2 => I rest w2))).

Lemma sweep_ok n : forall s i j l, inv s -> (i + n <= length (shm_list s))%nat -> (j <= i)%nat -> I l (world s) ->
  take n (drop i (shm_list s)) = l -> Forall shm_fits (take j (shm_list s)) -> Forall shm_fits l -> (i + n = Z.to_nat (shm_list_nr s))%nat ->
  wp (sweep n i j) (fun j' s' => exists rcs, Forall2 A l rcs /\
    length (shm_list s') = length (shm_list s) /\ (j' <= i + n)%nat /\ take j' (shm_list s') = take j (shm_list s) ++ omap (fun yr => keep yr.1 yr.2) (zip l rcs) /\
    shm_list_nr s' = shm_list_nr s /\ Forall shm_fits (take j' (shm_list s')) /\
    sem_list s' = sem_list s /\ sem_list_nr s' = sem_list_nr s /\ outbox s' = outbox s /\ who_e s' = who_e s /\ identifier s' = identifier s) s.
Proof.
  induction n as [|n IH]; intros s i j l Hi Hlen Hji HI El Hfj Hfl Hn.
  { cbn in El. subst l. cbn [sweep]. apply wp_ret. exists []. split; [constructor|]. split; [done|]. split; [lia|]. split; [by rewrite app_nil_r|]. done. }
  destruct (lookup_lt_is_Some_2 (shm_list s) i ltac:(lia)) as [y Hy]. rewrite (drop_S _ _ _ Hy) in El. cbn [take] in El. subst l.
  apply Forall_cons in Hfl as [Hfy Hfl]. cbn [sweep]. apply wp_bind. eapply wp_get_shm; [exact Hy|].
  apply wp_bind. eapply wp_external; [by eapply answers|]. intros rc w (HA & Hrc & HIr & Hmun).
  destruct (Z.eqb_spec rc 255) as [->|Hne].
  { eapply wp_mono; [apply (IH (with_world w s) (S i) j (take n (drop (S i) (shm_list s))) (proj1 (inv_world s w Hi))); [cbn; lia|lia|exact HIr|done|done|done|cbn; lia]|].
    intros j' s' (rcs & HF & Hl' & Hj' & Et & Hr). exists (255 :: rcs). split; [by constructor|]. split; [done|]. split; [lia|]. split; [exact Et|exact Hr]. }
  set (y1 := set_shm_ds (set_nattch (u32 (rc - 1)) (shm_ds y)) y). assert (shm_fits y1) as Hfy1 by done.
  apply wp_bind. eapply wp_upd_shm; [exact Hy|]. fold y1. set (s1 := put_shm i y1 (with_world w s)).
  assert (shm_list s1 = <[i := y1]> (shm_list s)) as Es1 by done.
  assert (inv s1) as Hi1 by (by apply put_shm_quiet; [apply inv_world|]).
  assert (take j (shm_list s1) = take j (shm_list s)) as Etj by (rewrite Es1; by apply take_insert_ge).
  assert (drop (S i) (shm_list s1) = drop (S i) (shm_list s)) as Edr by (rewrite Es1; by rewrite drop_insert_lt by lia).
  apply wp_bind. eapply wp_get_shm; [rewrite Es1; apply list_lookup_insert_eq; by eapply lookup_lt_Some|].
  assert (keep y rc = if negb (shm_nattch (shm_ds y1) =? 0) || negb (anyset (mode (shm_perm (shm_ds y1))) SHM_DEST) then Some y1 else None) as Ek
    by (unfold keep; by rewrite (proj2 (Z.eqb_neq _ _) Hne)).
  destruct (negb (shm_nattch (shm_ds y1) =? 0) || negb (anyset (mode (shm_perm (shm_ds y1))) SHM_DEST)).
  - (* the segment stays *)
    set (s2 := put_shm j y1 s1). assert (wp (when (negb (bool_decide (i = j))) (upd_shm j (fun _ => y1))) (fun _ s' => s' = s2) s1) as Hmove.
    { apply wp_when; intros Hij.
      - destruct (lookup_lt_is_Some_2 (shm_list s1) j) as [z Hz]; [rewrite Es1, length_insert; lia|]. by eapply wp_upd_shm.
      - apply negb_false_iff, bool_decide_eq_true in Hij as <-. unfold s2, s1, put_shm, with_shms. cbn. by rewrite list_insert_insert_eq. }
    apply wp_bind. eapply wp_mono; [exact Hmove|]. intros [] s' ->.
    assert (shm_list s2 = <[j := y1]> (shm_list s1)) as Es2 by done.
    assert (inv s2) as Hi2 by (by apply put_shm_quiet).
    assert (take (S j) (shm_list s2) = take j (shm_list s) ++ [y1]) as Ets.
    { rewrite Es2, (take_S_r _ _ y1) by (apply list_lookup_insert_eq; rewrite Es1, length_insert; lia). by rewrite take_insert_ge, Etj. }
    eapply wp_mono; [apply (IH s2 (S i) (S j) (take n (drop (S i) (shm_list s))) Hi2)|].
    + rewrite Es2, Es1, !length_insert. lia.
    + lia.
    + exact HIr.
    + rewrite Es2, drop_insert_lt by lia. by rewrite Edr.
    + rewrite Ets. apply Forall_app. split; [done|]. by apply Forall_singleton.
    + done.
    + cbn. lia.
    + intros j' s' (rcs & HF & Hl' & Hj' & Et & Hr). exists (rc :: rcs). split; [by constructor|]. split; [rewrite Hl', Es2, Es1, !length_insert; done|]. split; [lia|].
      split; [|exact Hr]. rewrite Et, Ets, <- app_assoc. cbn [zip zip_with omap list_omap fst snd]. by rewrite Ek.
  - (* it goes *)
    destruct (page_round_ok (shm_segsz (shm_ds y1)) Hfy1) as (r & Er & _). apply wp_bind. eapply wp_lift.
    { rewrite i32_small; [exact Er|]. unfold shm_fits, INT_MIN, INT_MAX in *. lia. }
    apply wp_bind. eapply wp_external; [apply Hmun|]. intros u w2 HI2.
    eapply wp_mono; [apply (IH (with_world w2 s1) (S i) j (take n (drop (S i) (shm_list s))) (proj1 (inv_world s1 w2 Hi1)))|].
    + cbn. rewrite length_insert. lia.
    + lia.
    + exact HI2.
    + change (shm_list (with_world w2 s1)) with (shm_list s1). by rewrite Edr.
    + change (shm_list (with_world w2 s1)) with (shm_list s1). by rewrite Etj.
    + done.
    + cbn. lia.
    + intros j' s' (rcs & HF & Hl' & Hj' & Et & Hr). exists (rc :: rcs). split; [by constructor|]. split; [rewrite Hl'; cbn; by rewrite length_insert|]. split; [lia|].
      split; [|exact Hr]. change (shm_list (with_world w2 s1)) with (shm_list s1) in Et. rewrite Et, Etj. cbn [zip zip_with omap list_omap fst snd]. by rewrite Ek.
Qed.

Lemma update_refcount_ok s : inv s -> I (shm_live s) (world s) ->
  wp update_refcount_and_destroy (fun _ s' => quiet s s' /\ identifier s' = identifier s /\ exists rcs, Forall2 A (shm_live s) rcs /\
    shm_live s' = omap (fun yr => keep yr.1 yr.2) (zip (shm_live s) rcs)) s.
Proof.
  intros Hi HI. pose proof (inv_shm_nr _ Hi) as Hn. pose proof (inv_shms _ Hi) as Hl. unfold update_refcount_and_destroy. apply wp_bind, wp_gets, wp_bind.
  eapply wp_mono; [apply (sweep_ok (Z.to_nat (shm_list_nr s)) s 0 0 (shm_live s) Hi)|].
  - lia.
  - lia.
  - exact HI.
  - by rewrite drop_0.
  - constructor.
  - apply (inv_fits _ Hi).
  - done.
  - intros j s' (rcs & HF & Hl' & Hj & Et & Hnr & Hfit & E1 & E2 & E3 & E4 & E5). apply wp_modify. rewrite take_0, app_nil_l in Et.
    assert (shm_live (with_shms (shm_list s') (Z.of_nat j) s') = take j (shm_list s')) as El by (unfold shm_live; cbn; by rewrite Nat2Z.id).
    split; [|split; [exact E5|exists rcs; split; [done|by rewrite El]]].
    assert (inv (with_shms (shm_list s') (Z.of_nat j) s')) as Hi'.
    { destruct Hi. split; unfold live in *; cbn [sem_list sem_list_nr identifier shm_list shm_list_nr with_shms]; rewrite ?E1, ?E2, ?E5; try done.
      - by rewrite Hl'.
      - lia.
      - by rewrite Nat2Z.id. }
    split; [done|]. split; [|split; [done|split; [done|cbn; lia]]]. unfold table, live. cbn. by rewrite E1, E2.
Qed.
End sweep.

Lemma update_refcount_quiet s : inv s -> wp update_refcount_and_destroy (fun _ s' => quiet s s' /\ identifier s' = identifier s) s.
Proof.
  intros Hi. eapply wp_mono; [apply (update_refcount_ok (fun _ _ => True) (fun _ _ => True))|].
  - intros y rest w _. destruct (ref_law (page y) w) as (rc & w' & E & Hrc). exists rc, w'. split; [done|]. split; [done|]. split; [done|]. split; [done|].
    intros n. destruct (munmap_law (page y) n w') as (u & w2 & E2 & _). by exists u, w2.
  - done.
  - done.
  - intros [] s' (Hq & Hid & _). done.
Qed.

(** ** The calls on shared memory *)

Definition size_ok (m : ipc_msg) : Prop := i32 (m_size m) <= INT_MAX - 4095.

Lemma identifier_quiet s n : inv s -> identifier s <= n <= INT_MAX -> quiet s (with_identifier n s).
Proof.
  intros Hi Hn. split; [|split; [done|]; split; [done|]; split; [done|cbn; lia]]. pose proof (inv_old _ Hi) as Hold. destruct Hi. split; try done; cbn; try lia.
  eapply Forall_impl; [exact Hold|]. cbn. intros x Hx. lia.
Qed.

Lemma shm_find_ok s (Pb : shm_struct -> Prop) `{!forall y, Decision (Pb y)} k : find_index Pb (shm_list s) (shm_list_nr s) = Some k ->
  exists y, shm_list s !! k = Some y /\ (k < Z.to_nat (shm_list_nr s))%nat.
Proof. intros E. pose proof (find_index_ok Pb (shm_list s) (shm_list_nr s)) as Hf. rewrite E in Hf. destruct Hf as (y & Hy & _). exists y. by apply lookup_take_Some in Hy. Qed.

Lemma shm_fit_at s k y : inv s -> shm_list s !! k = Some y -> (k < Z.to_nat (shm_list_nr s))%nat -> shm_fits y.
Proof. intros Hi Hk Hlt. apply (shm_fit_live s k); [done|]. unfold shm_live. by rewrite lookup_take_lt. Qed.

Lemma do_shmget_quiet s m : inv s -> identifier s < INT_MAX -> size_ok m -> wp (do_shmget m) (fun _ s' => quiet s s') s.
Proof.
  intros Hi Hid Hsz. unfold do_shmget. apply wp_bind. unfold shm_find_key. apply wp_bind, wp_gets, wp_bind, wp_gets, wp_ret.
  destruct (if m_key m =? IPC_PRIVATE then None else _) as [k|] eqn:Ek.
  { assert (find_index (fun y => shm_key y = m_key m) (shm_list s) (shm_list_nr s) = Some k) as Hf by (by destruct (m_key m =? IPC_PRIVATE)).
    destruct (shm_find_ok s _ k Hf) as (y & Hy & _). apply wp_bind. eapply wp_get_shm; [exact Hy|]. apply wp_bind, wp_check. repeat case_match; by apply wp_ret. }
  destruct (negb (anyset (m_flag m) IPC_CREAT)); [by apply wp_ret|]. destruct (Z.leb_spec (i32 (m_size m)) 0) as [|Hpos]; [by apply wp_ret|].
  destruct (page_round_ok (i32 (m_size m))) as (rs & Er & Hr & _); [unfold size_ok in Hsz; lia|]. apply wp_bind. eapply wp_lift; [exact Er|].
  rewrite (proj2 (Z.leb_gt rs 0)) by lia. apply wp_bind, wp_gets, wp_bind, wp_gets. destruct (Z.eqb_spec (shm_list_nr s) MAX_SHM_NR) as [|Hnr]; [by apply wp_ret|].
  destruct (identifier s =? SHMMNI); [by apply wp_ret|]. apply wp_bind. eapply wp_quiet_external; [by apply ipc_quiet_refl|apply mmap_law|]. intros [pg|] w _ Hq1; [|by apply wp_ret].
  apply wp_bind. eapply wp_quiet_external; [exact Hq1|apply phys_law|]. intros v w2 _ Hq2. apply wp_bind, wp_gets, wp_bind, wp_gets. apply wp_bind. eapply wp_lift.
  { unfold iadd. apply int_ok_in. pose proof (inv_ident _ Hi). unfold INT_MIN, INT_MAX in *. cbn. lia. }
  apply wp_bind, wp_modify. apply wp_bind, wp_gets. pose proof (inv_shm_nr _ Hi) as Hn. pose proof (inv_shms _ Hi) as Hl.
  set (sh := mk_shm_struct _ _ _ _ _). set (s2 := with_world w2 (with_world w s)) in *. apply wp_bind. eapply wp_lift.
  { change (shm_list (with_identifier (identifier s + 1) s2)) with (shm_list s). rewrite <- (Z2Nat.id (shm_list_nr s)) by lia. apply aset_nat. lia. }
  apply wp_bind, wp_modify, wp_ret. destruct (identifier_quiet s2 (identifier s + 1) (proj1 Hq2)) as (Hi3 & Hq3); [cbn; lia|].
  eapply ipc_quiet_trans; [exact Hq2|]. eapply ipc_quiet_trans; [split; [exact Hi3|exact Hq3]|].
  apply shms_quiet; [exact Hi3|by rewrite length_insert|lia|].
  replace (Z.to_nat (shm_list_nr s + 1)) with (S (Z.to_nat (shm_list_nr s))) by lia. rewrite (take_S_r _ _ sh) by (apply list_lookup_insert_eq; lia).
  rewrite take_insert_ge by done. apply Forall_app. split; [apply (inv_fits _ Hi)|]. apply Forall_singleton. unfold shm_fits, sh, size_ok in *. cbn. lia.
Qed.

Lemma set_access_fits y t p : shm_fits y -> shm_fits (set_shm_ds (set_access t p (shm_ds y)) y).
Proof. done. Qed.

Lemma do_shmat_quiet s m : inv s -> wp (do_shmat m) (fun _ s' => quiet s s') s.
Proof.
  intros Hi. unfold do_shmat. destruct (_ && _); [by apply wp_ret|]. apply wp_bind. unfold shm_find_id. apply wp_bind, wp_gets, wp_bind, wp_gets, wp_ret.
  destruct (find_index _ _ _) as [k|] eqn:Ek; [|by apply wp_ret]. destruct (shm_find_ok s _ k Ek) as (y & Hy & Hk). apply wp_bind. eapply wp_get_shm; [exact Hy|].
  apply wp_bind, wp_check. destruct (negb _); [by apply wp_ret|]. apply wp_bind, wp_gets. apply wp_bind.
  eapply wp_quiet_external; [by apply ipc_quiet_refl|apply remap_law|]. intros [a|] w _ Hq; [|by apply wp_ret]. apply wp_bind, wp_gets. apply wp_bind.
  eapply wp_upd_shm; [exact Hy|]. apply wp_ret. eapply ipc_quiet_trans; [exact Hq|]. apply put_shm_quiet; [apply Hq|]. exact (shm_fit_at s k y Hi Hy Hk).
Qed.

Lemma do_shmdt_quiet s m : inv s -> wp (do_shmdt m) (fun _ s' => quiet s s') s.
Proof.
  intros Hi. unfold do_shmdt. apply wp_bind, wp_gets. apply wp_bind. eapply wp_quiet_external; [by apply ipc_quiet_refl|apply phys_law|]. intros v w _ Hq.
  destruct (v =? 0); [by apply wp_ret|]. apply wp_bind, wp_gets, wp_bind, wp_gets, wp_bind.
  assert (forall s2, quiet s s2 -> wp (update_refcount_and_destroy;; mret (OK, m)) (fun _ s' => quiet s s') s2) as Hend.
  { intros s2 Hq2. apply wp_bind. eapply wp_mono; [apply update_refcount_quiet, Hq2|]. intros [] s3 [Hq3 _]. apply wp_ret. by eapply ipc_quiet_trans. }
  destruct (find_index _ _ _) as [k|] eqn:Ek; [|by apply wp_ret, Hend]. destruct (shm_find_ok _ _ k Ek) as (y & Hy & Hk).
  apply wp_bind, wp_gets. apply wp_bind. eapply wp_upd_shm; [exact Hy|]. eapply wp_quiet_external; [|apply unmap_law|].
  - eapply ipc_quiet_trans; [exact Hq|]. apply put_shm_quiet; [apply Hq|]. exact (shm_fit_at s k y Hi Hy Hk).
  - intros [] w2 _ Hq2. by apply Hend.
Qed.

Lemma wp_may_change s req (Q : bool -> ipc W -> Prop) : (forall b, Q b s) -> wp (may_change req) Q s.
Proof. intros HQ. unfold may_change. apply wp_bind, wp_gets, wp_bind, wp_gets, wp_ret. apply HQ. Qed.

Lemma do_shmctl_quiet s m : inv s -> wp (do_shmctl m) (fun _ s' => quiet s s') s.
Proof.
  intros Hi0. unfold do_shmctl. set (needs := (m_cmd m =? IPC_STAT) || (m_cmd m =? IPC_SET) || (m_cmd m =? IPC_RMID)). apply wp_bind.
  eapply (wp_mono _ (fun _ s1 => quiet s s1)).
  { apply wp_when; intros _. 2:{ by apply ipc_quiet_refl. } eapply wp_mono; [by apply update_refcount_quiet|]. by intros [] s1 [? _]. }
  intros [] s1 Hq. pose proof (proj1 Hq) as Hi. apply wp_bind.
  eapply (wp_mono _ (fun o s2 => s2 = s1 /\ forall k, o = Some k -> exists y, shm_list s1 !! k = Some y /\ (k < Z.to_nat (shm_list_nr s1))%nat)).
  { destruct needs; [|by apply wp_ret]. unfold shm_find_id. apply wp_bind, wp_gets, wp_bind, wp_gets, wp_ret. split; [done|]. intros k. apply shm_find_ok. }
  intros o s2 [-> Ho]. apply wp_bind, wp_gets.
  destruct (needs && negb (bool_decide (is_Some o))) eqn:En; [by apply wp_ret|].
  assert (needs = true -> exists k y, o = Some k /\ shm_list s1 !! k = Some y /\ (k < Z.to_nat (shm_list_nr s1))%nat) as Hk.
  { intros Hn. rewrite Hn in En. apply negb_false_iff, bool_decide_eq_true in En as [k ->]. destruct (Ho k eq_refl) as (y & ? & ?). by exists k, y. }
  destruct (m_cmd m =? IPC_STAT) eqn:E1; cbn [orb] in needs; [|destruct (m_cmd m =? IPC_SET) eqn:E2; cbn [orb] in needs; [|destruct (m_cmd m =? IPC_RMID) eqn:E3; cbn [orb] in needs]].
  - destruct (Hk eq_refl) as (k & y & -> & Hy & Hlt). apply wp_bind. eapply wp_deref; [done|]. destruct (m_addr m =? 0); [by apply wp_ret|].
    apply wp_bind. eapply wp_get_shm; [exact Hy|]. apply wp_bind, wp_check. destruct (check_perm _ _ _ _); cbn [negb]; [|by apply wp_ret].
    apply wp_bind. eapply wp_quiet_external; [exact Hq|apply out_law|]. intros r w _ Hq2. by apply wp_ret.
  - destruct (Hk eq_refl) as (k & y & -> & Hy & Hlt). apply wp_bind. eapply wp_deref; [done|]. apply wp_bind. eapply wp_get_shm; [exact Hy|].
    apply wp_bind, wp_may_change. intros q. destruct (negb q); [by apply wp_ret|]. apply wp_bind. eapply wp_quiet_external; [exact Hq|apply perm_law|]. intros r w _ Hq2.
    destruct (bool_decide (r.1 = OK)); cbn [negb]; [|by apply wp_ret]. apply wp_bind, wp_gets. apply wp_bind. eapply wp_upd_shm; [exact Hy|]. apply wp_ret.
    eapply ipc_quiet_trans; [exact Hq2|]. apply put_shm_quiet; [apply Hq2|]. exact (shm_fit_at s1 k y Hi Hy Hlt).
  - destruct (Hk eq_refl) as (k & y & -> & Hy & Hlt). apply wp_bind. eapply wp_deref; [done|]. apply wp_bind. eapply wp_get_shm; [exact Hy|].
    apply wp_bind, wp_may_change. intros q. destruct (negb q); [by apply wp_ret|]. apply wp_bind. eapply wp_upd_shm; [exact Hy|].
    apply wp_bind. eapply wp_mono; [apply update_refcount_quiet, (put_shm_quiet s1 k); [done|exact (shm_fit_at s1 k y Hi Hy Hlt)]|].
    intros [] s3 [Hq3 _]. apply wp_ret. eapply ipc_quiet_trans; [exact Hq|]. eapply ipc_quiet_trans; [apply (put_shm_quiet s1 k); [done|exact (shm_fit_at s1 k y Hi Hy Hlt)]|exact Hq3].
  - clear Hk. destruct (m_cmd m =? IPC_INFO).
    { destruct (m_addr m =? 0); [by apply wp_ret|]. apply wp_bind. eapply wp_quiet_external; [exact Hq|apply out_law|]. intros r w _ Hq2.
      destruct (bool_decide (r = OK)); cbn [negb]; [|by apply wp_ret]. apply wp_bind, wp_gets. by apply wp_ret. }
    destruct (m_cmd m =? SHM_INFO).
    { destruct (m_addr m =? 0); [by apply wp_ret|]. apply wp_bind, wp_gets, wp_bind, wp_gets, wp_bind. eapply wp_quiet_external; [exact Hq|apply out_law|]. intros r w _ Hq2.
      destruct (bool_decide (r = OK)); by apply wp_ret. }
    destruct (m_cmd m =? SHM_STAT); [|by apply wp_ret]. apply wp_bind, wp_gets. destruct (Z.ltb_spec (m_id m) 0); [by apply wp_ret|]. cbn [orb].
    destruct (Z.leb_spec (shm_list_nr s1) (m_id m)); [by apply wp_ret|].
    destruct (lookup_lt_is_Some_2 (shm_list s1) (Z.to_nat (m_id m))) as [y Hy]; [rewrite (inv_shms _ Hi); pose proof (inv_shm_nr _ Hi); lia|].
    apply wp_bind. eapply wp_get_shm; [exact Hy|]. apply wp_bind. eapply wp_quiet_external; [exact Hq|apply out_law|]. intros r w _ Hq2. destruct (bool_decide (r = OK)); by apply wp_ret.
Qed.

(** ** The other calls on semaphores *)

Definition dismiss_msg (vq : Z * list waiting) : list ipc_out := (fun w => mk_ipc_out (who w) EIDRM None) <$> vq.2.

(** What [semctl] does to the sets of semaphores. *)
Inductive effect s (m : ipc_msg) : ecode -> ipc W -> Prop :=
| eff_quiet r s' : quiet s s' -> r <> OK \/ m_cmd m <> SETVAL -> effect s m r s'
| eff_remove t0 s' : t0.1 = m_id m -> table s ≡ₚ t0 :: table s' -> inv s' -> m_cmd m = IPC_RMID ->
    outbox s' = outbox s ++ concat (dismiss_msg <$> t0.2) -> who_e s' = who_e s -> identifier s' = identifier s -> effect s m OK s'
| eff_set r k t0 l s' : table s !! k = Some t0 -> t0.1 = m_id m -> inv s' ->
    (m_cmd m = SETVAL -> r = OK /\ exists q, t0.2 !! Z.to_nat (m_num m) = Some q /\ 0 <= m_num m /\ 0 <= m_opt m < 65536 /\ l = <[Z.to_nat (m_num m) := (m_opt m, q.2)]> t0.2) ->
    (m_cmd m <> SETVAL -> m_cmd m = SETALL) -> l.*2 = t0.2.*2 ->
    table s' = each_view wake_view (<[k := (t0.1, l)]> (table s)) ->
    outbox s' = outbox s ++ each_msg wake_msg (<[k := (t0.1, l)]> (table s)) -> who_e s' = who_e s -> identifier s' = identifier s -> effect s m r s'.

Lemma zero_semaphore_ok : sem_ok zero_semaphore.
Proof. by split. Qed.

Lemma live_add s x : inv s -> sem_list_nr s < SEMMNI -> set_ready sem_ok x -> sem_id x = identifier s -> identifier s < INT_MAX ->
  let s' := with_sems (<[Z.to_nat (sem_list_nr s) := x]> (sem_list s)) (sem_list_nr s + 1) (with_identifier (identifier s + 1) s) in
  inv s' /\ table s' = table s ++ [set_view x].
Proof.
  intros Hi Hn Hx Eid Hid s'. pose proof (inv_nr _ Hi) as Hnr. pose proof (inv_sems _ Hi) as Hl.
  assert (live s' = live s ++ [x]) as El.
  { unfold live, s'. cbn [sem_list sem_list_nr with_sems]. replace (Z.to_nat (sem_list_nr s + 1)) with (S (Z.to_nat (sem_list_nr s))) by lia.
    rewrite (take_S_r _ _ x) by (apply list_lookup_insert_eq; lia). by rewrite take_insert_ge. }
  split; [|unfold table; by rewrite El, fmap_app]. pose proof (inv_ident _ Hi). pose proof (inv_old _ Hi) as Hold. destruct Hi. split; rewrite ?El; try done.
  - cbn. by rewrite length_insert.
  - cbn. lia.
  - apply Forall_app. split; [done|]. by apply Forall_singleton.
  - rewrite fmap_app. apply NoDup_app. split; [done|]. split; [|apply NoDup_singleton]. intros i Hin Hi2%list_elem_of_singleton. subst i.
    apply list_elem_of_fmap in Hin as (z & Ez & Hz). apply (proj1 (Forall_forall _ _) Hold) in Hz. rewrite <- Ez in Hz. cbn in Hz. lia.
  - apply Forall_app. split; [eapply Forall_impl; [exact Hold|]; cbn; intros z Hz; lia|]. apply Forall_singleton. cbn. lia.
  - cbn. lia.
Qed.

(** A new set of semaphores with value 0. *)
Definition created s s' : Prop := exists nr, inv s' /\ table s' = table s ++ [(identifier s, replicate nr (0, []))] /\
  outbox s' = outbox s /\ who_e s' = who_e s /\ identifier s' = identifier s + 1.

Lemma do_semget_ok s m : inv s -> identifier s < INT_MAX -> wp (do_semget m) (fun _ s' => quiet s s' \/ created s s') s.
Proof.
  intros Hi Hid. unfold do_semget, sem_find_key. apply wp_bind, wp_bind, wp_gets, wp_bind, wp_gets, wp_ret.
  assert (forall s', quiet s s' -> quiet s s' \/ created s s') as Hq by (intros s' ?; by left).
  destruct (if m_key m =? IPC_PRIVATE then None else _) as [k|] eqn:Ek.
  { assert (find_index (fun x => sem_key x = m_key m) (sem_list s) (sem_list_nr s) = Some k) as Hf by (by destruct (m_key m =? IPC_PRIVATE)).
    pose proof (find_index_ok (fun x => sem_key x = m_key m) (sem_list s) (sem_list_nr s)) as Hk. rewrite Hf in Hk. destruct Hk as (x & Hx & _). apply lookup_take_Some in Hx as [Hx _].
    apply wp_bind. eapply wp_get_sem; [exact Hx|]. destruct (_ && _); [by apply wp_ret, Hq|]. apply wp_bind, wp_check. repeat case_match; by apply wp_ret, Hq. }
  destruct (negb (anyset (m_flag m) IPC_CREAT)); [by apply wp_ret, Hq|]. destruct (Z.ltb_spec (m_nr m) 0); [by apply wp_ret, Hq|]. cbn [orb].
  destruct (Z.leb_spec SEMMSL (m_nr m)); [by apply wp_ret, Hq|]. apply wp_bind, wp_gets. destruct (Z.eqb_spec (sem_list_nr s) SEMMNI) as [|Hne]; [by apply wp_ret, Hq|].
  apply wp_bind, wp_gets, wp_bind, wp_gets, wp_bind, wp_gets. pose proof (inv_ident _ Hi). pose proof (inv_nr _ Hi) as Hnr. apply wp_bind. eapply wp_lift.
  { unfold iadd. apply int_ok_in. unfold INT_MIN, INT_MAX in *. lia. }
  apply wp_bind, wp_modify, wp_bind, wp_gets. set (x := mk_sem_struct _ _ _ _). apply wp_bind. eapply wp_lift.
  { change (sem_list (with_identifier (identifier s + 1) s)) with (sem_list s). rewrite <- (Z2Nat.id (sem_list_nr s)) at 1 by lia. apply aset_nat. rewrite (inv_sems _ Hi). lia. }
  apply wp_bind, wp_modify, wp_ret. assert (set_ready sem_ok x) as Hx.
  { split; [unfold set_fits, x; cbn; rewrite length_replicate; lia|]. apply Forall_take, Forall_replicate, zero_semaphore_ok. }
  destruct (live_add s x Hi ltac:(lia) Hx eq_refl Hid) as [Hi' Ht']. right. exists (Z.to_nat (m_nr m)). split; [exact Hi'|]. split; [|done].
  etransitivity; [exact Ht'|]. f_equal. unfold set_view, x. cbn [sem_id sems sem_nr sem_ds sem_nsems]. f_equal. f_equal. rewrite take_replicate, Nat.min_l by lia. by rewrite fmap_replicate.
Qed.

(** The last set takes the place of the removed one. *)
Lemma swap_remove {A} (l : list A) k z w : l !! k = Some z -> l ++ [w] ≡ₚ z :: <[k := w]> l.
Proof.
  intros Hk. rewrite (insert_take_drop l k w) by (by eapply lookup_lt_Some). rewrite <- (take_drop_middle l k z Hk) at 1.
  rewrite <- app_assoc. cbn [app]. rewrite <- Permutation_middle. constructor. apply Permutation_app_head. by rewrite Permutation_app_comm.
Qed.

Lemma live_remove s k x : inv s -> live s !! k = Some x ->
  exists s', remove_semaphore k s = Ok (tt, s') /\ live s ≡ₚ x :: live s' /\ inv s' /\ outbox s' = outbox s /\ who_e s' = who_e s /\ identifier s' = identifier s.
Proof.
  intros Hi Hk. pose proof Hk as Hkl. apply live_lookup in Hkl as [Hks Hkn]. pose proof (inv_nr _ Hi) as Hnr. pose proof (inv_sems _ Hi) as Hl.
  set (n := Z.to_nat (sem_list_nr s)) in *. destruct (lookup_lt_is_Some_2 (sem_list s) (n - 1)) as [z Hz]; [lia|].
  assert (live s = take (n - 1) (sem_list s) ++ [z]) as El by (unfold live; fold n; replace n with (S (n - 1)) by lia; cbn; rewrite Nat.sub_0_r; by apply take_S_r).
  assert (forall s', sem_list_nr s' = sem_list_nr s - 1 -> length (sem_list s') = length (sem_list s) -> identifier s' = identifier s ->
    shm_list s' = shm_list s -> shm_list_nr s' = shm_list_nr s -> live s ≡ₚ x :: live s' -> inv s') as Hinv.
  { intros s' E1 E2 E3 E4 E5 Hp. pose proof (inv_sets _ Hi) as Is. pose proof (inv_ids _ Hi) as Ii. pose proof (inv_old _ Hi) as Io. rewrite Hp in Is, Ii, Io.
    apply Forall_cons in Is as [_ Is], Io as [_ Io]. rewrite fmap_cons in Ii. apply NoDup_cons in Ii as [_ Ii]. destruct Hi. split; rewrite ?E1, ?E2, ?E3, ?E4, ?E5; try done. lia. }
  unfold remove_semaphore. rewrite (bind_ok (gets _) _ s (sem_list_nr s) s) by done. rewrite (proj2 (Z.ltb_lt _ _)) by lia. rewrite (bind_ok (gets _) _ s (sem_list s) s) by done.
  destruct (Z.eqb_spec (sem_list_nr s - 1) (Z.of_nat k)) as [E|E].
  - eexists. split; [done|]. assert (live s ≡ₚ x :: live (with_sems (sem_list s) (sem_list_nr s - 1) s)) as Hp.
    { rewrite El. unfold live. cbn. replace (Z.to_nat (sem_list_nr s - 1)) with (n - 1)%nat by lia. rewrite Permutation_app_comm. cbn.
      assert (z = x) as -> by (replace (n - 1)%nat with k in Hz by lia; congruence). done. }
    split; [exact Hp|]. split; [by apply Hinv|]. done.
  - rewrite (lift_bind _ _ z) by (replace (sem_list_nr s - 1) with (Z.of_nat (n - 1)) by lia; by apply aget_nat).
    rewrite (lift_bind _ _ (<[k := z]> (sem_list s))) by (apply aset_nat; lia). eexists. split; [done|].
    assert (live s ≡ₚ x :: live (with_sems (<[k := z]> (sem_list s)) (sem_list_nr s - 1) s)) as Hp.
    { rewrite El. unfold live. cbn. replace (Z.to_nat (sem_list_nr s - 1)) with (n - 1)%nat by lia. rewrite take_insert_lt by lia. apply swap_remove.
      by rewrite lookup_take_lt by lia. }
    split; [exact Hp|]. split; [apply Hinv; try done; cbn; by rewrite length_insert|]. done.
Qed.

Lemma map_first_id {A} n (l : list A) : map_first (fun z => z) n l = l.
Proof. unfold map_first. by rewrite list_fmap_id, take_drop. Qed.

Lemma remove_set_ok s k x : inv s -> live s !! k = Some x ->
  exists s', remove_set k s = Ok (tt, s') /\ table s ≡ₚ set_view x :: table s' /\ inv s' /\
    outbox s' = outbox s ++ concat (dismiss_msg <$> (set_view x).2) /\ who_e s' = who_e s /\ identifier s' = identifier s.
Proof.
  intros Hi Hk. pose proof Hk as Hkl. apply live_lookup in Hkl as [Hks Hkn]. pose proof (proj1 (Forall_lookup _ _) (inv_sets _ Hi) k x Hk) as [Hf Hx].
  unfold remove_set. rewrite (bind_ok _ _ _ _ _ (each_semaphore_ok _ sem_ok (fun a => a) dismiss_outs s k x dismiss_local Hks Hf Hx)).
  assert (put_set k (map_set (fun a => a) x) s = s) as ->.
  { unfold map_set. rewrite map_first_id. unfold put_set. destruct s, x. unfold set_sems, with_sems. cbn in *. by rewrite list_insert_id. }
  destruct (inv_emit s (set_outs dismiss_outs x) Hi) as [Hi1 Ht1]. destruct (live_remove (emit (set_outs dismiss_outs x) s) k x Hi1 Hk) as (s' & E & Hp & Hi' & Ho & Hw & Hid).
  exists s'. split; [exact E|]. split; [unfold table; by rewrite Hp|]. split; [done|]. split; [|done]. rewrite Ho. cbn. f_equal.
  unfold set_outs, set_view. cbn [snd]. rewrite <- list_fmap_compose. done.
Qed.

(** ** semctl *)

(** The set [k] gets the values and queues [l]. *)
Definition revalued s k x l s' : Prop :=
  inv s' /\ (exists x', live s' !! k = Some x' /\ sem_id x' = sem_id x /\ sem_nr x' = sem_nr x /\ (set_view x').2 = l) /\
  table s' = <[k := (sem_id x, l)]> (table s) /\ outbox s' = outbox s /\ who_e s' = who_e s /\ identifier s' = identifier s.

Lemma sems_lookup s k x j : inv s -> live s !! k = Some x -> Z.of_nat j < sem_nr x -> exists a, sems x !! j = Some a /\ sem_ok a.
Proof.
  intros Hi Hk Hj. pose proof (proj1 (Forall_lookup _ _) (inv_sets _ Hi) k x Hk) as [Hf Hx]. unfold set_fits in Hf.
  destruct (lookup_lt_is_Some_2 (sems x) j) as [a Ha]; [lia|]. exists a. split; [done|]. apply (proj1 (Forall_lookup _ _) Hx j). by rewrite lookup_take_lt by lia.
Qed.

Lemma put_value_ok s k x j v : inv s -> live s !! k = Some x -> Z.of_nat j < sem_nr x -> 0 <= v < 65536 ->
  wp (upd_semaphore k (Z.of_nat j) (set_semval v)) (fun _ s' => exists q, (set_view x).2 !! j = Some q /\ revalued s k x (<[j := (v, q.2)]> (set_view x).2) s') s.
Proof.
  intros Hi Hk Hj Hv. destruct (sems_lookup s k x j Hi Hk Hj) as (a & Ha & Hok). pose proof Hk as Hkl. apply live_lookup in Hkl as [Hks Hkn].
  eapply wp_upd_semaphore; [exact Hks|exact Ha|]. exists (sview a). split; [by apply set_view_lookup|].
  destruct (put_at_live s k x j a _ Hi Hk Ha Hj (set_semval_ok v a Hv Hok)) as (Hi' & Hk' & Ht'). split; [exact Hi'|]. split; [|split; [exact Ht'|done]].
  eexists. split; [exact Hk'|]. split; [done|]. split; [done|]. unfold set_view, sem_nr. cbn [snd sems sem_ds set_sems]. unfold sem_nr in Hj. rewrite take_insert_lt by lia.
  by rewrite list_fmap_insert.
Qed.

Lemma snd_insert {A B} (l : list (A * B)) j v q : l !! j = Some q -> (<[j := (v, q.2)]> l).*2 = l.*2.
Proof. intros Hq. rewrite list_fmap_insert. cbn. apply list_insert_id. by rewrite list_lookup_fmap, Hq. Qed.

Lemma set_all_ok k vs : forall s x j, inv s -> live s !! k = Some x -> Z.of_nat (j + length vs) <= sem_nr x -> Forall (fun v => 0 <= v < 65536) vs ->
  wp (set_all k (Z.of_nat j) vs) (fun _ s' => exists l, l.*2 = (set_view x).2.*2 /\ revalued s k x l s') s.
Proof.
  induction vs as [|v vs IH]; intros s x j Hi Hk Hj Hv; cbn [set_all].
  - apply wp_ret. exists (set_view x).2. split; [done|]. split; [done|]. split; [by exists x|]. split; [|done].
    symmetry. apply list_insert_id. unfold table. by rewrite list_lookup_fmap, Hk.
  - cbn [length] in Hj. apply Forall_cons in Hv as [Hv Hvs]. destruct (SEMVMX <? v).
    { apply wp_ret. exists (set_view x).2. split; [done|]. split; [done|]. split; [by exists x|]. split; [|done].
      symmetry. apply list_insert_id. unfold table. by rewrite list_lookup_fmap, Hk. }
    apply wp_bind. eapply wp_mono; [apply (put_value_ok s k x j v Hi Hk); [lia|done]|].
    intros [] s1 (q & Hq & Hi1 & (x1 & Hk1 & Eid & Enr & Ev) & Ht1 & Ho1 & Hw1 & Hid1).
    replace (Z.of_nat j + 1) with (Z.of_nat (S j)) by lia. eapply wp_mono; [apply (IH s1 x1 (S j) Hi1 Hk1); [lia|done]|].
    intros r s2 (l & El & Hi2 & (x2 & Hk2 & Eid2 & Enr2 & Ev2) & Ht2 & Ho2 & Hw2 & Hid2). exists l. split; [by rewrite El, Ev, snd_insert|].
    split; [done|]. split; [exists x2; split; [done|]; split; [congruence|]; split; [congruence|done]|].
    split; [by rewrite Ht2, Ht1, list_insert_insert_eq, Eid|]. split; [congruence|]. split; congruence.
Qed.

Lemma set_perm_quiet s k x d : inv s -> live s !! k = Some x -> sem_nsems d = sem_nr x -> quiet s (put_set k (set_sem_ds d x) s).
Proof.
  intros Hi Hk Hd. pose proof (proj1 (Forall_lookup _ _) (inv_sets _ Hi) k x Hk) as [Hf Hx].
  assert (set_view (set_sem_ds d x) = set_view x) as Ev by (unfold set_view, sem_nr; cbn [sem_id sems sem_ds set_sem_ds]; by rewrite Hd).
  destruct (put_set_ok s k x (set_sem_ds d x) Hi Hk eq_refl) as [Hi' Ht'].
  { split; [unfold set_fits, sem_nr in *; cbn [sems sem_ds set_sem_ds]; by rewrite Hd|]. unfold sem_nr. cbn [sems sem_ds set_sem_ds]. by rewrite Hd. }
  split; [done|]. split; [|done]. rewrite Ht', Ev. apply list_insert_id. unfold table. by rewrite list_lookup_fmap, Hk.
Qed.

(** The wake-up after the values of a set have changed. *)
Lemma wake_after s k x l s1 : live s !! k = Some x -> revalued s k x l s1 ->
  wp update_semaphores (fun _ s' => inv s' /\ table s' = each_view wake_view (<[k := (sem_id x, l)]> (table s)) /\
    outbox s' = outbox s ++ each_msg wake_msg (<[k := (sem_id x, l)]> (table s)) /\ who_e s' = who_e s /\ identifier s' = identifier s) s1.
Proof.
  intros Hk (Hi1 & _ & Ht1 & Ho1 & Hw1 & Hid1). destruct (update_semaphores_ok s1 Hi1) as (s' & E & Hi' & Ht' & Ho' & _ & Hw' & Hid'). unfold wp. rewrite E.
  split; [done|]. rewrite Ht1 in Ht', Ho'. split; [done|]. split; [by rewrite Ho', Ho1|]. split; congruence.
Qed.

Lemma get_number_quiet s0 s m k x f : quiet s0 s -> live s !! k = Some x -> wp (get_number m k f) (fun _ s' => quiet s0 s') s.
Proof.
  intros Hq Hk. pose proof Hk as Hkl. apply live_lookup in Hkl as [Hks Hkn]. unfold get_number. apply wp_bind. eapply wp_get_sem; [exact Hks|].
  destruct (Z.ltb_spec (m_num m) 0); [by apply wp_ret|]. cbn [orb]. destruct (Z.leb_spec (sem_nr x) (m_num m)); [by apply wp_ret|].
  destruct (sems_lookup s k x (Z.to_nat (m_num m)) (proj1 Hq) Hk ltac:(lia)) as (a & Ha & _). apply wp_bind. rewrite <- (Z2Nat.id (m_num m)) by lia.
  eapply wp_get_semaphore; [exact Hks|exact Ha|]. by apply wp_ret.
Qed.

(** No other command has the number of SETVAL. *)
Lemma setval_last c : c ∈ [IPC_STAT; IPC_SET; IPC_RMID; IPC_INFO; SEM_INFO; SEM_STAT; GETALL; GETNCNT; GETPID; GETVAL; GETZCNT; SETALL] -> c <> SETVAL.
Proof.
  intros Hc ->. pose proof cmds_law as Hn. change (NoDup ([IPC_STAT; IPC_SET; IPC_RMID; IPC_INFO; SEM_INFO; SEM_STAT; GETALL; GETNCNT; GETPID; GETVAL; GETZCNT; SETALL] ++ [SETVAL])) in Hn.
  apply NoDup_app in Hn as (_ & Hn & _). by apply (Hn SETVAL Hc), list_elem_of_singleton.
Qed.
Ltac not_setval := right; match goal with E : (?c =? ?d) = true |- _ => apply Z.eqb_eq in E; rewrite E; apply setval_last; repeat first [apply list_elem_of_here | apply list_elem_of_further] end.

Lemma do_semctl_ok s m : inv s -> wp (do_semctl m) (fun r s' => effect s m r.1 s') s.
Proof.
  intros Hi. unfold do_semctl. apply wp_bind. apply find_id_ok; [|intros _; apply wp_ret, eff_quiet; [done|by left]]. intros k x Hk Eid.
  pose proof Hk as Hkl. apply live_lookup in Hkl as [Hks Hkn]. apply wp_bind. eapply wp_get_sem; [exact Hks|]. apply wp_bind, wp_gets. apply wp_bind.
  eapply (wp_mono _ (fun _ s' => s' = s)); [destruct (_ || _); by apply wp_ret|]. intros p s' ->.
  assert (forall e s', e <> OK -> quiet s s' -> wp (mret (e, m)) (fun r s' => effect s m r.1 s') s') as Hbad by (intros e s' He Hq; apply wp_ret, eff_quiet; [done|by left]).
  pose proof (proj1 (Forall_lookup _ _) (inv_sets _ Hi) k x Hk) as [Hf Hx]. pose proof (ipc_quiet_refl s Hi) as Hq0.
  assert (table s !! k = Some (set_view x)) as Htk by (unfold table; by rewrite list_lookup_fmap, Hk).
  destruct (negb p); [by apply Hbad|]. set (opt := if takes_opt (m_cmd m) then m_opt m else 0).
  destruct (m_cmd m =? IPC_STAT) eqn:C1.
  { destruct (opt =? 0); [by apply Hbad|]. apply wp_bind. eapply wp_quiet_external; [exact Hq0|apply out_law|]. intros r w _ Hq. apply wp_ret, eff_quiet; [done|not_setval]. }
  destruct (m_cmd m =? IPC_SET) eqn:C2.
  { apply wp_bind, wp_may_change. intros q. destruct (negb q); [by apply Hbad|]. apply wp_bind. eapply wp_quiet_external; [exact Hq0|apply perm_law|]. intros r w _ Hq.
    destruct (negb (bool_decide (r.1 = OK))); [by apply Hbad|]. apply wp_bind, wp_gets. apply wp_bind. unfold upd_sem. apply wp_bind. eapply wp_get_sem; [exact Hks|]. apply wp_modify, wp_ret.
    apply eff_quiet; [|not_setval]. eapply ipc_quiet_trans; [exact Hq|]. exact (set_perm_quiet _ k x (mk_semid_ds _ (sem_nsems (sem_ds x)) _ _) (proj1 Hq) Hk eq_refl). }
  destruct (m_cmd m =? IPC_RMID) eqn:C3.
  { apply wp_bind, wp_may_change. intros q. destruct (negb q); [by apply Hbad|]. apply wp_bind. destruct (remove_set_ok s k x Hi Hk) as (s' & E & Hp & Hi' & Ho & Hw & Hid).
    unfold wp at 1. rewrite E. apply wp_ret. apply (eff_remove _ _ (set_view x)); try done. by apply Z.eqb_eq. }
  destruct ((m_cmd m =? IPC_INFO) || (m_cmd m =? SEM_INFO) || (m_cmd m =? SEM_STAT)) eqn:C4.
  { apply wp_ret, eff_quiet; [done|]. apply orb_true_iff in C4 as [[C4|C4]%orb_true_iff|C4]; not_setval. }
  destruct (m_cmd m =? GETALL) eqn:C5.
  { apply wp_bind. eapply wp_quiet_external; [exact Hq0|apply malloc_law|]. intros b w _ Hq. destruct (negb b); [by apply Hbad|]. apply wp_bind.
    eapply wp_quiet_external; [exact Hq|apply out_law|]. intros r w2 _ Hq2. apply wp_ret, eff_quiet; [done|not_setval]. }
  destruct (m_cmd m =? GETNCNT) eqn:C6; [eapply wp_mono; [by apply (get_number_quiet s s m k x)|]; intros r s' Hq; apply eff_quiet; [done|not_setval]|].
  destruct (m_cmd m =? GETPID) eqn:C7; [eapply wp_mono; [by apply (get_number_quiet s s m k x)|]; intros r s' Hq; apply eff_quiet; [done|not_setval]|].
  destruct (m_cmd m =? GETVAL) eqn:C8; [eapply wp_mono; [by apply (get_number_quiet s s m k x)|]; intros r s' Hq; apply eff_quiet; [done|not_setval]|].
  destruct (m_cmd m =? GETZCNT) eqn:C9; [eapply wp_mono; [by apply (get_number_quiet s s m k x)|]; intros r s' Hq; apply eff_quiet; [done|not_setval]|].
  destruct (m_cmd m =? SETALL) eqn:C10.
  { apply wp_bind. eapply wp_quiet_external; [exact Hq0|apply malloc_law|]. intros b w _ Hq. destruct (negb b); [by apply Hbad|]. apply wp_bind.
    eapply wp_quiet_external; [exact Hq|apply vals_law, Hf|]. intros [rc vs] w2 Hvs Hq2. cbn [fst snd] in *. destruct (decide (rc = OK)) as [->|Hrc].
    2:{ rewrite bool_decide_false by done. by apply Hbad. }
    rewrite bool_decide_true by done. destruct (Hvs eq_refl) as [Hlen Hvr]. cbn [negb]. apply wp_bind.
    set (s2 := with_world w2 (with_world w s)) in *. eapply wp_mono; [apply (set_all_ok k vs s2 x 0 (proj1 Hq2) Hk); [lia|done]|].
    intros r s3 (l & El & Hrv). apply wp_bind. eapply wp_mono; [by apply (wake_after s2 k x l s3)|]. intros [] s4 (Hi4 & Ht4 & Ho4 & Hw4 & Hid4). apply wp_ret. cbn [fst].
    destruct Hq2 as (_ & Et2 & Eo2 & Ew2 & _). rewrite Et2 in Ht4, Ho4. apply Z.eqb_eq in C10.
    apply (eff_set s m r k (set_view x) l); try done. intros Hsv. exfalso. apply (setval_last SETALL); [repeat first [apply list_elem_of_here | apply list_elem_of_further]|congruence]. }
  destruct (m_cmd m =? SETVAL) eqn:C11; [|apply wp_ret, eff_quiet; [done|by left]].
  apply wp_bind, wp_check. destruct (check_perm _ _ _ _); cbn [negb]; [|by apply Hbad]. destruct (Z.ltb_spec (m_num m) 0) as [|Hn0]; [by apply Hbad|]. cbn [orb].
  destruct (Z.leb_spec (sem_nr x) (m_num m)) as [|Hn1]; [by apply Hbad|]. destruct (Z.ltb_spec opt 0) as [|Ho0]; [by apply Hbad|]. cbn [orb].
  destruct (Z.ltb_spec SEMVMX opt) as [|Ho1]; [by apply Hbad|]. pose proof semvmx_law as Hmx.
  apply wp_bind. rewrite <- (Z2Nat.id (m_num m)) by lia. eapply wp_mono; [apply (put_value_ok s k x (Z.to_nat (m_num m)) opt Hi Hk); lia|].
  intros [] s1 (q & Hq & Hrv). apply wp_bind, wp_gets. pose proof Hrv as (Hi1 & (x1 & Hk1 & Eid1 & Enr1 & Ev1) & Ht1 & Ho1' & Hw1 & Hid1).
  pose proof Hk1 as Hkl1. apply live_lookup in Hkl1 as [Hks1 Hkn1]. apply wp_bind. unfold upd_sem. apply wp_bind. eapply wp_get_sem; [exact Hks1|]. apply wp_modify.
  set (s2 := with_sems _ _ s1). assert (quiet s1 s2) as Hq2 by exact (set_perm_quiet s1 k x1 (mk_semid_ds _ (sem_nsems (sem_ds x1)) _ _) Hi1 Hk1 eq_refl).
  assert (opt = m_opt m) as Eopt by (unfold opt, takes_opt; rewrite C11; by rewrite !orb_true_r).
  apply wp_bind. eapply (wp_mono _ (fun _ s' => inv s' /\ table s' = each_view wake_view (<[k := (sem_id x, <[Z.to_nat (m_num m) := (opt, q.2)]> (set_view x).2)]> (table s)) /\
    outbox s' = outbox s ++ each_msg wake_msg (<[k := (sem_id x, <[Z.to_nat (m_num m) := (opt, q.2)]> (set_view x).2)]> (table s)) /\ who_e s' = who_e s /\ identifier s' = identifier s)).
  { destruct (update_semaphores_ok s2 (proj1 Hq2)) as (s' & E & Hi' & Ht' & Ho' & _ & Hw' & Hid'). unfold wp. rewrite E. destruct Hq2 as (_ & Et2 & Eo2 & Ew2 & _).
    rewrite Et2, Ht1 in Ht', Ho'. split; [done|]. split; [done|]. split; [by rewrite Ho', Eo2, Ho1'|]. split; [congruence|]. rewrite Hid'. exact Hid1. }
  intros [] s' (Hi' & Ht' & Ho' & Hw' & Hid'). apply wp_ret. cbn [fst]. refine (eff_set s m OK k (set_view x) _ s' Htk Eid Hi' _ _ _ Ht' Ho' Hw' Hid').
  - intros _. split; [done|]. exists q. rewrite <- Eopt. split; [done|]. split; [done|]. split; [lia|done].
  - intros Hc. by apply Z.eqb_eq in C11.
  - by apply snd_insert.
Qed.

(** ** Exits *)

(** Processes are taken out of all queues. *)
Inductive exits : list (Z * list (Z * list waiting)) -> list ipc_out -> list (Z * list (Z * list waiting)) -> Prop :=
| exits_nil t : exits t [] t
| exits_cons pt t o t' : exits (each_view (leave_view pt) t) o t' -> exits t (each_msg (leave_msg pt) t ++ o) t'.

Lemma vm_notify_ok fuel : forall s, inv s -> (pending (world s) < fuel)%nat ->
  wp (sem_process_vm_notify fuel) (fun _ s' => inv s' /\ who_e s' = who_e s /\ identifier s' = identifier s /\
    exists o, exits (table s) o (table s') /\ outbox s' = outbox s ++ o) s.
Proof.
  induction fuel as [|fuel IH]; intros s Hi Hf; [lia|]. cbn [sem_process_vm_notify]. apply wp_bind. eapply wp_quiet_external; [by apply ipc_quiet_refl|apply exit_law|].
  intros [r pt] w Hr (Hi1 & Ht1 & Ho1 & Hw1 & _). cbn [fst snd] in *. destruct (Z.ltb_spec r 0).
  { apply wp_ret. split; [done|]. split; [done|]. split; [done|]. exists []. split; [rewrite Ht1; constructor|]. by rewrite app_nil_r. }
  apply wp_bind. destruct (remove_process_ok pt _ Hi1) as (s2 & E & Hi2 & Ht2 & Ho2 & Hww & Hw2 & Hid2). unfold wp at 1. rewrite E. rewrite Ht1 in Ht2, Ho2.
  destruct (Z.eqb_spec r 0) as [|Hne].
  { apply wp_ret. split; [done|]. split; [done|]. split; [done|]. exists (each_msg (leave_msg pt) (table s) ++ []). split; [|by rewrite app_nil_r].
    apply (exits_cons pt). rewrite Ht2. constructor. }
  destruct (decide (0 < r)) as [Hpos|].
  2:{ exfalso. lia. }
  eapply wp_mono; [apply (IH s2 Hi2)|].
  - rewrite Hww. cbn. specialize (Hr Hpos). lia.
  - intros [] s3 (Hi3 & Hw3 & Hid3 & o & Hex & Ho3). split; [done|]. split; [by rewrite Hw3|]. split; [by rewrite Hid3|].
    exists (each_msg (leave_msg pt) (table s) ++ o). split; [apply (exits_cons pt); by rewrite <- Ht2|]. by rewrite Ho3, Ho2, app_assoc.
Qed.
End calls.
