(* ===== verification/SysvSystem.v ===== *)
(** * Runs of the System V server

    An observer keeps books on the messages alone: who asked for what, and what was
    granted. The theory of the books, and that they agree with the values and the queues of the server. *)

From S2P Require Import Prelude KTypes Sysv SysvFacts SysvSem SysvCalls.
#[local] Open Scope Z_scope.

Notation sem_table := (list (Z * list (Z * list waiting))).

(** ** The books *)

(** What has been put into each semaphore less what was taken out, and the requests without an answer: the set,
    the number of the semaphore and how much is asked for (negative when the value is to be raised). *)
Record ledger := mk_ledger { bal : gmap (Z * nat) Z; pend : gmap Z (Z * nat * Z) }.

Definition balance (L : ledger) (i : Z) (j : nat) : Z := default 0 (bal L !! (i, j)).
Definition set_balance (i : Z) (j : nat) (v : Z) (L : ledger) : ledger := mk_ledger (<[(i, j) := v]> (bal L)) (pend L).
Definition forget (e : Z) (L : ledger) : ledger := mk_ledger (bal L) (delete e (pend L)).

(** A request of process [e]. *)
Definition ask (e i : Z) (op : sembuf) (L : ledger) : ledger :=
  mk_ledger (bal L) (<[e := (i, Z.to_nat (sem_num op), - sem_op op)]> (pend L)).
(** An answer: OK means that it was granted. *)
Definition hear (L : ledger) (o : ipc_out) : ledger :=
  match o_ret o, pend L !! o_to o with
  | None, Some (i, j, n) =>
      let L' := if bool_decide (o_code o = OK) then set_balance i j (balance L i j - n) L else L in forget (o_to o) L'
  | _, _ => L
  end.
Definition hears : list ipc_out -> ledger -> ledger := flip (foldl hear).

Lemma hears_app o1 o2 L : hears (o1 ++ o2) L = hears o2 (hears o1 L).
Proof. unfold hears. cbn. by rewrite foldl_app. Qed.

Lemma balance_set i j v L i' j' : balance (set_balance i j v L) i' j' = if decide ((i', j') = (i, j)) then v else balance L i' j'.
Proof.
  unfold balance, set_balance. cbn. case_decide as E.
  - injection E as -> ->. by rewrite lookup_insert_eq.
  - rewrite lookup_insert_ne by congruence. done.
Qed.

(** ** Agreement *)

(** Semaphore [j] of set [i] has a value and a queue. *)
Definition slot (t : sem_table) (i : Z) (j : nat) (vq : Z * list waiting) : Prop := exists l, (i, l) ∈ t /\ l !! j = Some vq.

Record books (t : sem_table) (next : Z) (L : ledger) : Prop := {
  b_ids : NoDup t.*1;
  b_old : forall i, i ∈ t.*1 -> i < next;
  b_value : forall i j v q, slot t i j (v, q) -> v = u16 (balance L i j);
  b_queue : forall i j v q w, slot t i j (v, q) -> w ∈ q -> pend L !! who w = Some (i, j, val w) /\ 0 < val w;
  b_once : forall i j v q, slot t i j (v, q) -> NoDup (who <$> q);
  b_sleeps : forall e i j n, pend L !! e = Some (i, j, n) -> exists v q, slot t i j (v, q) /\ mk_waiting e n ∈ q;
  b_new : forall i j, next <= i -> balance L i j = 0;
}.

Lemma slot_unique t i j x y : NoDup t.*1 -> slot t i j x -> slot t i j y -> x = y.
Proof.
  intros Hn (l & Hl & Hx) (l' & Hl' & Hy). assert (l = l') as ->; [|congruence].
  apply list_elem_of_lookup in Hl as [a Ha], Hl' as [b Hb].
  assert (a = b) as ->; [|congruence]. eapply NoDup_lookup; [exact Hn| |]; rewrite list_lookup_fmap; [by rewrite Ha|by rewrite Hb].
Qed.

(** One semaphore changes. *)
Definition reslot (t t' : sem_table) (i : Z) (j : nat) (y : Z * list waiting) : Prop :=
  t'.*1 = t.*1 /\ forall i' j' z, slot t' i' j' z <-> (i' = i /\ j' = j /\ z = y) \/ ((i', j') <> (i, j) /\ slot t i' j' z).

Lemma reslot_middle t1 t2 i l1 l2 x y : NoDup (t1 ++ (i, l1 ++ x :: l2) :: t2).*1 ->
  reslot (t1 ++ (i, l1 ++ x :: l2) :: t2) (t1 ++ (i, l1 ++ y :: l2) :: t2) i (length l1) y.
Proof.
  intros Hn. split; [by rewrite !fmap_app, !fmap_cons|]. rewrite fmap_app, fmap_cons in Hn. cbn in Hn. apply NoDup_app in Hn as (_ & Hn1 & [Hn2 _]%NoDup_cons).
  assert (forall l, (i, l) ∉ t1) as N1.
  { intros l Hl. apply (Hn1 i); [apply list_elem_of_fmap; by exists (i, l)|left]. }
  assert (forall l, (i, l) ∉ t2) as N2.
  { intros l Hl. apply Hn2, list_elem_of_fmap. by exists (i, l). }
  intros i' j' z. unfold slot. split.
  - intros (l & Hl & Hz). destruct (decide ((i', j') = (i, length l1))) as [[= -> ->]|Hne].
    + left. split; [done|]. split; [done|]. apply elem_of_app in Hl as [Hl|[[= ->]|Hl]%elem_of_cons]; [by destruct (N1 _ Hl)| |by destruct (N2 _ Hl)].
      rewrite list_lookup_middle in Hz by done. congruence.
    + right. split; [done|]. apply elem_of_app in Hl as [Hl|[[= -> ->]|Hl]%elem_of_cons].
      * exists l. split; [apply elem_of_app; by left|done].
      * exists (l1 ++ x :: l2). split; [apply elem_of_app; right; left|].
        destruct (decide (j' < length l1)%nat); [by rewrite lookup_app_l in Hz |- * by done|]. rewrite lookup_app_r in Hz |- * by lia.
        destruct (j' - length l1)%nat eqn:E; [|done]. destruct Hne. f_equal. lia.
      * exists l. split; [apply elem_of_app; right; by right|done].
  - intros [(-> & -> & ->)|(Hne & l & Hl & Hz)].
    + exists (l1 ++ y :: l2). split; [apply elem_of_app; right; left|]. by apply list_lookup_middle.
    + apply elem_of_app in Hl as [Hl|[[= -> ->]|Hl]%elem_of_cons].
      * exists l. split; [apply elem_of_app; by left|done].
      * exists (l1 ++ y :: l2). split; [apply elem_of_app; right; left|].
        destruct (decide (j' < length l1)%nat); [by rewrite lookup_app_l in Hz |- * by done|]. rewrite lookup_app_r in Hz |- * by lia.
        destruct (j' - length l1)%nat eqn:E; [|done]. destruct Hne. f_equal. lia.
      * exists l. split; [apply elem_of_app; right; by right|done].
Qed.

Lemma reslot_insert (t : sem_table) k i l j x y : NoDup t.*1 -> t !! k = Some (i, l) -> l !! j = Some x ->
  reslot t (<[k := (i, <[j := y]> l)]> t) i j y.
Proof.
  intros Hn Hk Hj. pose proof (take_drop_middle t k _ Hk) as Et. pose proof (take_drop_middle l j _ Hj) as El.
  rewrite (insert_take_drop t) by (by eapply lookup_lt_Some). rewrite (insert_take_drop l) by (by eapply lookup_lt_Some).
  assert (j = length (take j l)) as Ej by (rewrite length_take; apply lookup_lt_Some in Hj; lia).
  rewrite <- Et at 1. rewrite <- El at 1. rewrite Ej at 5. apply (reslot_middle (take k t) (drop (S k) t) i (take j l) (drop (S j) l) x y). by rewrite El, Et.
Qed.

Section books.
Implicit Types (t : sem_table) (L : ledger).

Lemma books_frame t t' next L L' i j x y : books t next L -> slot t i j x -> reslot t t' i j y -> NoDup (who <$> y.2) ->
  y.1 = u16 (balance L' i j) -> (forall i' j', (i', j') <> (i, j) -> balance L' i' j' = balance L i' j') ->
  (forall w, w ∈ y.2 -> pend L' !! who w = Some (i, j, val w) /\ 0 < val w) ->
  (forall i' j' v q w, (i', j') <> (i, j) -> slot t i' j' (v, q) -> w ∈ q -> pend L' !! who w = pend L !! who w) ->
  (forall e i' j' n, pend L' !! e = Some (i', j', n) -> (pend L !! e = Some (i', j', n) /\ (i', j') <> (i, j)) \/ (i' = i /\ j' = j /\ mk_waiting e n ∈ y.2)) ->
  books t' next L'.
Proof.
  intros Hb Hx [Eid Hsl] Hnd Hv Hbal Hq Hoth Hconv. destruct Hb as [B1 B2 B3 B4 B5 B6 B7]. split.
  - by rewrite Eid.
  - intros i'. rewrite Eid. apply B2.
  - intros i' j' v q [(-> & -> & <-)|[Hne Hs]]%Hsl; [done|]. rewrite Hbal by done. by eapply B3.
  - intros i' j' v q w [(-> & -> & <-)|[Hne Hs]]%Hsl Hw; [by apply Hq|]. rewrite (Hoth _ _ _ _ _ Hne Hs Hw). by eapply B4.
  - intros i' j' v q [(-> & -> & <-)|[Hne Hs]]%Hsl; [done|]. by eapply B5.
  - intros e i' j' n [[Hp Hne]|(-> & -> & Hin)]%Hconv.
    + destruct (B6 _ _ _ _ Hp) as (v & q & Hs & Hin). exists v, q. split; [|done]. apply Hsl. by right.
    + exists y.1, y.2. split; [|done]. apply Hsl. left. by destruct y.
  - intros i' j' Hi'. destruct (decide ((i', j') = (i, j))) as [[= -> ->]|Hne]; [|rewrite Hbal by done; by apply B7].
    exfalso. destruct Hx as (l & Hl & _). assert (i ∈ t.*1) as Hin by (apply list_elem_of_fmap; by exists (i, l)). apply B2 in Hin. lia.
Qed.

(** A waiting process gets an answer and leaves the queue. *)
Lemma books_answer t t' next L i j v q1 w q2 code v' : books t next L -> slot t i j (v, q1 ++ w :: q2) -> reslot t t' i j (v', q1 ++ q2) ->
  v' = (if bool_decide (code = OK) then v - val w else v) -> (code = OK -> val w <= v) -> books t' next (hear L (mk_ipc_out (who w) code None)).
Proof.
  intros Hb Hs Hr -> Hle. pose proof (b_once _ _ _ Hb _ _ _ _ Hs) as Hnd. pose proof (b_value _ _ _ Hb _ _ _ _ Hs) as Hv.
  destruct (b_queue _ _ _ Hb _ _ _ _ w Hs) as [Hp Hpos]; [apply elem_of_app; right; left|].
  rewrite fmap_app, fmap_cons in Hnd. pose proof Hnd as Hnd'. rewrite <- Permutation_middle in Hnd'. apply NoDup_cons in Hnd' as [Hwn Hnd'].
  assert (forall w', w' ∈ q1 ++ q2 -> who w' <> who w) as Hne.
  { intros w' Hw' E. apply Hwn. rewrite <- fmap_app. rewrite <- E. by apply list_elem_of_fmap_2. }
  unfold hear. cbn [o_ret o_to o_code]. rewrite Hp. eapply (books_frame t t' next L _ i j _ _ Hb Hs Hr); cbn [fst snd].
  - by rewrite fmap_app.
  - unfold forget. case_bool_decide; unfold balance in *; cbn; [|done]. rewrite lookup_insert_eq. cbn. unfold u16 in *. specialize (Hle ltac:(done)).
    rewrite Zminus_mod, <- Hv. rewrite (Z.mod_small (v - val w mod 65536)); [|]; pose proof (Z.mod_pos_bound (default 0 (bal L !! (i, j))) 65536 ltac:(lia)); rewrite (Z.mod_small (val w)) by lia; lia.
  - intros i' j' Hij. unfold forget. case_bool_decide; unfold balance; cbn; [|done]. by rewrite lookup_insert_ne by congruence.
  - intros w' Hw'. assert (w' ∈ q1 ++ w :: q2) as Hin by (apply elem_of_app in Hw' as [?|?]; apply elem_of_app; [by left|right; by right]).
    destruct (b_queue _ _ _ Hb _ _ _ _ w' Hs Hin) as [Hp' Hpos']. split; [|done]. unfold forget. cbn. rewrite lookup_delete_ne by (symmetry; by apply Hne). by case_bool_decide.
  - intros i' j' v1 q w' Hij Hs' Hw'. destruct (b_queue _ _ _ Hb _ _ _ _ w' Hs' Hw') as [Hp' _]. unfold forget. cbn. rewrite lookup_delete_ne; [by case_bool_decide|].
    intros E. rewrite <- E, Hp in Hp'. congruence.
  - intros e i' j' n He. unfold forget in He. cbn in He. apply lookup_delete_Some in He as [Hne' He].
    assert (pend L !! e = Some (i', j', n)) as He' by (by case_bool_decide). destruct (decide ((i', j') = (i, j))) as [[= -> ->]|]; [|by left]. right. split; [done|]. split; [done|].
    destruct (b_sleeps _ _ _ Hb _ _ _ _ He') as (v2 & q' & Hs' & Hin). pose proof (slot_unique _ _ _ _ _ (b_ids _ _ _ Hb) Hs Hs') as [= -> <-].
    apply elem_of_app in Hin as [?|[Ew|?]%elem_of_cons]; [apply elem_of_app; by left| |apply elem_of_app; by right]. subst w. done.
Qed.

(** ** Passes over all semaphores *)

Lemma books_pass g o next :
  (forall t t' L i j x, books t next L -> slot t i j x -> reslot t t' i j (g x) -> books t' next (hears (o x) L)) ->
  forall t L, books t next L -> books (each_view g t) next (hears (each_msg o t) L).
Proof.
  intros Hstep.
  assert (forall t1 t2 i l l1 L, books (t1 ++ (i, l1 ++ l) :: t2) next L -> books (t1 ++ (i, l1 ++ (g <$> l)) :: t2) next (hears (concat (o <$> l)) L)) as Hrow.
  { intros t1 t2 i l. induction l as [|x l IH]; intros l1 L Hb; [done|]. cbn [fmap list_fmap concat]. rewrite hears_app.
    replace (l1 ++ g x :: (g <$> l)) with ((l1 ++ [g x]) ++ (g <$> l)) by (by rewrite <- app_assoc). apply IH. rewrite <- app_assoc. cbn [app].
    eapply Hstep; [exact Hb| |apply reslot_middle, Hb]. exists (l1 ++ x :: l). split; [apply elem_of_app; right; left|by apply list_lookup_middle]. }
  assert (forall t t1 L, books (t1 ++ t) next L -> books (t1 ++ each_view g t) next (hears (each_msg o t) L)) as Hall.
  { intros t. induction t as [|[i l] t IH]; intros t1 L Hb; [done|]. cbn [each_view each_msg fmap list_fmap concat fst snd]. rewrite hears_app.
    replace (t1 ++ (i, g <$> l) :: each_view g t) with ((t1 ++ [(i, g <$> l)]) ++ each_view g t) by (by rewrite <- app_assoc). apply IH. rewrite <- app_assoc. cbn [app].
    apply (Hrow t1 t i l [] L Hb). }
  intros t L Hb. by apply (Hall t []).
Qed.

Lemma select_some (Ps : waiting -> bool) q w q' : select Ps q = Some (w, q') -> Ps w = true /\ exists q1 q2, q = q1 ++ w :: q2 /\ q' = q1 ++ q2.
Proof.
  unfold select. destruct (list_find Ps q) as [[n y]|] eqn:E; [|done]. cbn. intros [= -> <-]. apply list_find_Some in E as (Hn & HP & _).
  split; [by apply Is_true_true|]. exists (take n q), (drop (S n) q). split; [by rewrite take_drop_middle|]. by rewrite delete_take_drop.
Qed.

(** A change that is none. *)
Lemma books_same t t' next L i j x : books t next L -> slot t i j x -> reslot t t' i j x -> books t' next L.
Proof.
  intros Hb Hs [Eid Hsl]. assert (forall i' j' z, slot t' i' j' z <-> slot t i' j' z) as Heq.
  { intros i' j' z. rewrite Hsl. split.
    - by intros [(-> & -> & ->)|[_ ?]].
    - intros Hz. destruct (decide ((i', j') = (i, j))) as [[= -> ->]|Hne]; [left|by right]. split; [done|]. split; [done|]. by eapply slot_unique; [apply Hb| |]. }
  destruct Hb as [B1 B2 B3 B4 B5 B6 B7]. split; [by rewrite Eid|intros i'; rewrite Eid; apply B2| | | | |done].
  - intros i' j' v q Hz%Heq. by eapply B3.
  - intros i' j' v q w Hz%Heq. by eapply B4.
  - intros i' j' v q Hz%Heq. by eapply B5.
  - intros e i' j' n Hp. destruct (B6 _ _ _ _ Hp) as (v & q & Hz & ?). exists v, q. split; [by apply Heq|done].
Qed.

Lemma wake_books next t L : books t next L -> books (each_view wake_view t) next (hears (each_msg wake_msg t) L).
Proof.
  apply books_pass. clear t L. intros t t' L i j [v q] Hb Hs Hr. unfold wake_view, wake_msg in *. cbn [fst snd] in *.
  destruct (select _ q) as [[w q']|] eqn:E; [|by eapply books_same]. apply select_some in E as (Hw%Z.leb_le & q1 & q2 & -> & ->). cbn [hears foldl flip].
  by eapply (books_answer t t' next L i j v q1 w q2 OK).
Qed.

Lemma leave_books pt next t L : books t next L -> books (each_view (leave_view pt) t) next (hears (each_msg (leave_msg pt) t) L).
Proof.
  apply books_pass. clear t L. intros t t' L i j [v q] Hb Hs Hr. unfold leave_view, leave_msg in *. cbn [fst snd] in *.
  destruct (select _ q) as [[w q']|] eqn:E; [|by eapply books_same]. apply select_some in E as (Hw & q1 & q2 & -> & ->). cbn [hears foldl flip].
  by eapply (books_answer t t' next L i j v q1 w q2 EINTR).
Qed.

Lemma exits_books next t o t' : exits t o t' -> forall L, books t next L -> books t' next (hears o L).
Proof. induction 1 as [|pt t o t' _ IH]; intros L Hb; [done|]. rewrite hears_app. by apply IH, leave_books. Qed.

(** ** Removal of a set *)

Lemma dismiss_books next t1 t2 i l L : books (t1 ++ (i, l) :: t2) next L ->
  books (t1 ++ (i, (fun vq => (vq.1, [])) <$> l) :: t2) next (hears (concat (dismiss_msg <$> l)) L).
Proof.
  assert (forall q l1 v l2 L, books (t1 ++ (i, l1 ++ (v, q) :: l2) :: t2) next L -> books (t1 ++ (i, l1 ++ (v, []) :: l2) :: t2) next (hears (dismiss_msg (v, q)) L)) as Hq.
  { intros q. induction q as [|w q IH]; intros l1 v l2 L' Hb; [done|].
    change (hears (dismiss_msg (v, w :: q)) L') with (hears (dismiss_msg (v, q)) (hear L' (mk_ipc_out (who w) EIDRM None))). apply IH.
    eapply (books_answer _ _ next L' i (length l1) v [] w q EIDRM); [exact Hb| | |done|done].
    - exists (l1 ++ (v, w :: q) :: l2). split; [apply elem_of_app; right; left|by apply list_lookup_middle].
    - apply reslot_middle, Hb. }
  assert (forall l l1 L, books (t1 ++ (i, l1 ++ l) :: t2) next L ->
    books (t1 ++ (i, l1 ++ ((fun vq => (vq.1, [])) <$> l)) :: t2) next (hears (concat (dismiss_msg <$> l)) L)) as Hl.
  { intros l'. induction l' as [|[v q] l' IH]; intros l1 L' Hb; [done|]. cbn [fmap list_fmap concat fst]. rewrite hears_app.
    replace (l1 ++ (v, []) :: ((fun vq : Z * list waiting => (vq.1, [])) <$> l')) with ((l1 ++ [(v, [])]) ++ ((fun vq : Z * list waiting => (vq.1, [])) <$> l')) by (by rewrite <- app_assoc).
    apply IH. rewrite <- app_assoc. by apply Hq. }
  apply (Hl l []).
Qed.

(** The order of the sets is of no concern. *)
Lemma books_perm t t' next L : t ≡ₚ t' -> books t next L -> books t' next L.
Proof.
  intros Hp Hb. assert (forall i j x, slot t i j x <-> slot t' i j x) as Hs by (intros i j x; unfold slot; by setoid_rewrite Hp).
  destruct Hb as [B1 B2 B3 B4 B5 B6 B7]. split.
  - by rewrite <- Hp.
  - intros i. rewrite <- Hp. apply B2.
  - intros i j v q Hz%Hs. by eapply B3.
  - intros i j v q w Hz%Hs. by eapply B4.
  - intros i j v q Hz%Hs. by eapply B5.
  - intros e i j n He. destruct (B6 _ _ _ _ He) as (v & q & Hz & ?). exists v, q. split; [by apply Hs|done].
  - done.
Qed.

Lemma drop_books i l t next L : (forall vq, vq ∈ l -> vq.2 = []) -> books ((i, l) :: t) next L -> books t next L.
Proof.
  intros He [B1 B2 B3 B4 B5 B6 B7]. assert (forall i' j x, slot t i' j x -> slot ((i, l) :: t) i' j x) as Hs by (intros i' j x (l' & Hl' & Hx); exists l'; split; [by right|done]).
  cbn in B1. apply NoDup_cons in B1 as [Hni Hn]. split; [done| | | | | |done].
  - intros i' Hi'. apply B2. by right.
  - intros i' j v q Hz%Hs. by eapply B3.
  - intros i' j v q w Hz%Hs. by eapply B4.
  - intros i' j v q Hz%Hs. by eapply B5.
  - intros e i' j n Hp. destruct (B6 _ _ _ _ Hp) as (v & q & (l' & [[= -> ->]|Hl']%elem_of_cons & Hx) & Hin).
    + apply list_elem_of_lookup_2 in Hx. apply He in Hx. cbn in Hx. subst q. by apply elem_of_nil in Hin.
    + exists v, q. split; [by exists l'|done].
Qed.

Lemma remove_books (il : Z * list (Z * list waiting)) t t' next L : t ≡ₚ il :: t' -> books t next L -> books t' next (hears (concat (dismiss_msg <$> il.2)) L).
Proof.
  intros Hp Hb. destruct il as [i l]. apply (books_perm _ _ _ _ Hp) in Hb. apply (dismiss_books next [] t' i l L) in Hb. cbn [app] in Hb.
  eapply drop_books; [|exact Hb]. intros vq (y & -> & _)%list_elem_of_fmap. done.
Qed.

(** ** New sets, new values, requests *)

Lemma create_books t next L nr : books t next L -> books (t ++ [(next, replicate nr (0, []))]) (next + 1) L.
Proof.
  intros [B1 B2 B3 B4 B5 B6 B7].
  assert (forall i j x, slot (t ++ [(next, replicate nr (0, []))]) i j x -> slot t i j x \/ (i = next /\ x = (0, []))) as Hs.
  { intros i j x (l & [Hl|Hl%list_elem_of_singleton]%elem_of_app & Hx); [left; by exists l|]. right. injection Hl as -> ->. split; [done|]. by apply lookup_replicate in Hx as [-> _]. }
  split.
  - rewrite fmap_app. apply NoDup_app. split; [done|]. split; [|apply NoDup_singleton]. intros i Hi ->%list_elem_of_singleton. apply B2 in Hi. cbn in Hi. lia.
  - intros i. rewrite fmap_app. intros [Hi| ->%list_elem_of_singleton]%elem_of_app; [apply B2 in Hi|cbn]; lia.
  - intros i j v q [Hz|[-> [= -> ->]]]%Hs; [by eapply B3|]. by rewrite B7.
  - intros i j v q w [Hz|[-> [= -> ->]]]%Hs; [by eapply B4|]. by intros ?%elem_of_nil.
  - intros i j v q [Hz|[-> [= -> ->]]]%Hs; [by eapply B5|]. constructor.
  - intros e i j n Hp. destruct (B6 _ _ _ _ Hp) as (v & q & (l & Hl & Hx) & Hin). exists v, q. split; [|done]. exists l. split; [apply elem_of_app; by left|done].
  - intros i j Hi. apply B7. lia.
Qed.

(** The value of a semaphore is set, in the books too. *)
Lemma set_books t t' next L i j v q v' : books t next L -> slot t i j (v, q) -> reslot t t' i j (v', q) -> 0 <= v' < 65536 -> books t' next (set_balance i j v' L).
Proof.
  intros Hb Hs Hr Hv. eapply (books_frame t t' next L _ i j _ _ Hb Hs Hr); cbn [fst snd].
  - exact (b_once _ _ _ Hb _ _ _ _ Hs).
  - rewrite balance_set, decide_True by done. unfold u16. by rewrite Z.mod_small.
  - intros i' j' Hne. by rewrite balance_set, decide_False by done.
  - intros w Hw. exact (b_queue _ _ _ Hb _ _ _ _ w Hs Hw).
  - done.
  - intros e i' j' n He. destruct (decide ((i', j') = (i, j))) as [[= -> ->]|]; [right|by left]. split; [done|]. split; [done|].
    destruct (b_sleeps _ _ _ Hb _ _ _ _ He) as (v2 & q' & Hs' & Hin). by pose proof (slot_unique _ _ _ _ _ (b_ids _ _ _ Hb) Hs Hs') as [= -> <-].
Qed.

(** A request that is granted at once. *)
Lemma grant_books t t' next L i e op v q : books t next L -> pend L !! e = None -> slot t i (Z.to_nat (sem_num op)) (v, q) ->
  reslot t t' i (Z.to_nat (sem_num op)) (u16 (v + sem_op op), q) -> books t' next (hear (ask e i op L) (mk_ipc_out e OK None)).
Proof.
  intros Hb He Hs Hr. set (j := Z.to_nat (sem_num op)) in *. unfold hear, ask. cbn [o_ret o_to o_code bal pend]. rewrite lookup_insert_eq. fold j. rewrite bool_decide_true by done.
  unfold forget, set_balance. cbn [bal pend]. rewrite delete_insert_id by done. pose proof (b_value _ _ _ Hb _ _ _ _ Hs) as Hv.
  replace (balance _ i j - - sem_op op) with (balance L i j + sem_op op) by (unfold balance; cbn; lia).
  eapply (books_frame t t' next L _ i j _ _ Hb Hs Hr); cbn [fst snd].
  - exact (b_once _ _ _ Hb _ _ _ _ Hs).
  - unfold balance at 1. cbn. rewrite lookup_insert_eq. cbn. rewrite Hv. unfold u16. by rewrite Zplus_mod_idemp_l.
  - intros i' j' Hne. unfold balance. cbn. by rewrite lookup_insert_ne by congruence.
  - intros w Hw. exact (b_queue _ _ _ Hb _ _ _ _ w Hs Hw).
  - done.
  - intros e' i' j' n He'. destruct (decide ((i', j') = (i, j))) as [[= -> ->]|]; [right|by left]. split; [done|]. split; [done|].
    destruct (b_sleeps _ _ _ Hb _ _ _ _ He') as (v2 & q' & Hs' & Hin). by pose proof (slot_unique _ _ _ _ _ (b_ids _ _ _ Hb) Hs Hs') as [= -> <-].
Qed.

(** A request that has to wait. *)
Lemma join_books t t' next L i e op v q : books t next L -> pend L !! e = None -> slot t i (Z.to_nat (sem_num op)) (v, q) -> sem_op op < 0 ->
  reslot t t' i (Z.to_nat (sem_num op)) (v, q ++ [mk_waiting e (- sem_op op)]) -> books t' next (ask e i op L).
Proof.
  intros Hb He Hs Hneg Hr. set (j := Z.to_nat (sem_num op)) in *. assert (forall i' j' v' q' w, slot t i' j' (v', q') -> w ∈ q' -> who w <> e) as Hne.
  { intros i' j' v' q' w Hs' Hw Ew. destruct (b_queue _ _ _ Hb _ _ _ _ w Hs' Hw) as [Hp _]. congruence. }
  eapply (books_frame t t' next L _ i j _ _ Hb Hs Hr); cbn [fst snd].
  - rewrite fmap_app. apply NoDup_app. split; [exact (b_once _ _ _ Hb _ _ _ _ Hs)|]. split; [|apply NoDup_singleton].
    intros w (y & -> & Hy)%list_elem_of_fmap Hw%list_elem_of_singleton. by apply (Hne _ _ _ _ y Hs Hy).
  - exact (b_value _ _ _ Hb _ _ _ _ Hs).
  - done.
  - intros w [Hw| ->%list_elem_of_singleton]%elem_of_app.
    + destruct (b_queue _ _ _ Hb _ _ _ _ w Hs Hw) as [Hp Hpos]. split; [|done]. cbn. rewrite lookup_insert_ne; [done|]. intros E. by apply (Hne _ _ _ _ w Hs Hw).
    + cbn. rewrite lookup_insert_eq. split; [done|lia].
  - intros i' j' v' q' w _ Hs' Hw. cbn. rewrite lookup_insert_ne; [done|]. intros E. by apply (Hne _ _ _ _ w Hs' Hw).
  - intros e' i' j' n He'. cbn in He'. destruct (decide (e' = e)) as [->|Hee].
    + rewrite lookup_insert_eq in He'. injection He' as <- <- <-. right. split; [done|]. split; [done|]. apply elem_of_app. right. by apply list_elem_of_singleton.
    + rewrite lookup_insert_ne in He' by done. destruct (decide ((i', j') = (i, j))) as [[= -> ->]|]; [right|by left]. split; [done|]. split; [done|].
      destruct (b_sleeps _ _ _ Hb _ _ _ _ He') as (v2 & q' & Hs' & Hin). pose proof (slot_unique _ _ _ _ _ (b_ids _ _ _ Hb) Hs Hs') as [= -> <-]. apply elem_of_app. by left.
Qed.

(** A request that is refused leaves no trace. *)
Lemma refuse_ledger L e i op code : pend L !! e = None -> code <> OK -> hear (ask e i op L) (mk_ipc_out e code None) = L.
Proof.
  intros He Hc. unfold hear, ask. cbn [o_ret o_to o_code bal pend]. rewrite lookup_insert_eq, bool_decide_false by done. unfold forget. cbn [bal pend].
  rewrite delete_insert_id by done. by destruct L.
Qed.
End books.

(** ** Rounds *)

Section rounds.
Context {W : Type} `{IpcConst, IpcEnv W} `{!IpcConstLaws, !IpcEnvLaws W}.
Context (memory : forall n w b w', malloc_ok n w = Ok (b, w') -> b = true).
Context (no_zero_ops : forall (w : W) (e adr n : Z), Forall (fun op => sem_op op <> 0) (ops_at w e adr n)).
Implicit Types (s : ipc W) (L : ledger).
Notation IM := (M (ipc W)).

(** The books after a round with message [m] and the messages [news] of the server. *)
Definition ledger_round (w : W) (m : ipc_msg) (news : list ipc_out) (L : ledger) : ledger :=
  if anyset (m_type m) NOTIFY_MESSAGE then hears news L
  else if m_type m =? IPC_SEMOP then
    hears news (match ops_at w (m_source m) (m_addr m) 1 with op :: _ => ask (m_source m) (m_id m) op L | [] => L end)
  else if (m_type m =? IPC_SEMCTL) && (m_cmd m =? SETVAL) && bool_decide ((o_code <$> last news) = Some OK) then
    hears news (set_balance (m_id m) (Z.to_nat (m_num m)) (m_opt m) L)
  else hears news L.

Lemma semop_books s L m copied op : inv s -> books (table s) (identifier s) L -> pend L !! who_e s = None -> m_size m = 1 ->
  ops_at (world s) (who_e s) (m_addr m) 1 = [op] -> let v := semop_view s m copied in
  books v.1.2 (identifier s) (hears (if v.2 then [] else [mk_ipc_out (who_e s) v.1.1 None]) (ask (who_e s) (m_id m) op L)).
Proof.
  intros Hi Hb He Hsz Hops. pose proof (ops_at_law (world s) (who_e s) (m_addr m) 1 ltac:(lia)) as [_ Hok]. rewrite Hops in Hok. apply Forall_singleton in Hok as [Hnum Hrange].
  pose proof (no_zero_ops (world s) (who_e s) (m_addr m) 1) as Hnz. rewrite Hops in Hnz. apply Forall_singleton in Hnz.
  assert (forall code, code <> OK -> books (table s) (identifier s) (hears [mk_ipc_out (who_e s) code None] (ask (who_e s) (m_id m) op L))) as Hbad.
  { intros code Hc. cbn [hears flip foldl]. by rewrite refuse_ledger. }
  unfold semop_view. destruct (list_find _ (live s)) as [[k x]|] eqn:Ef; [|by apply Hbad]. apply list_find_Some in Ef as (Hk & Hid & _).
  rewrite Hsz. cbn [Z.leb Z.compare]. destruct (SEMOPM <? 1); [by apply Hbad|]. destruct (negb (check_perm _ _ _ R_ALL)); [by apply Hbad|].
  destruct (negb copied); [by apply Hbad|]. rewrite Hops. cbn [existsb has_dup orb]. rewrite orb_false_r. destruct (Z.leb_spec (sem_nr x) (sem_num op)) as [|Hlt]; [by apply Hbad|].
  rewrite orb_false_r. destruct (refuses_view _ op); [by apply Hbad|]. destruct (negb (check_perm _ _ _ W_ALL)); [by apply Hbad|]. cbn [fst snd perform_view]. rewrite Z.add_0_l.
  set (j := Z.to_nat (sem_num op)). destruct (sems_lookup s k x j Hi Hk ltac:(lia)) as (a & Ha & Hoka).
  assert ((set_view x).2 !! j = Some (sview a)) as Hj by (apply set_view_lookup; [done|lia]). rewrite Hj.
  assert (table s !! k = Some (sem_id x, (set_view x).2)) as Htk by (unfold table; by rewrite list_lookup_fmap, Hk).
  assert (slot (table s) (m_id m) j (semval a, queue a)) as Hs by (exists (set_view x).2; split; [rewrite <- Hid; by eapply list_elem_of_lookup_2|done]).
  rewrite (list_alter_insert _ _ _ _ Hj). pose proof (reslot_insert (table s) k (sem_id x) _ j _ (op_view (who_e s) op (sview a)) (b_ids _ _ _ Hb) Htk Hj) as Hr.
  rewrite Hid in Hr |- *. unfold op_view in Hr |- *. destruct (op_sleeps op (sview a)) eqn:Es; cbn [Z.ltb Z.compare fst snd sview] in *.
  - cbn [hears flip foldl]. unfold op_sleeps in Es. apply andb_true_iff in Es as [Hneg%Z.ltb_lt _]. by eapply join_books.
  - cbn [hears flip foldl]. by eapply grant_books.
Qed.

(** What the environment keeps to: a process with an open request sends nothing, a request has one operation,
    values are set one at a time, sizes and numbers are in range. *)
Record polite s L (m : ipc_msg) : Prop := {
  p_waits : pend L !! m_source m = None;
  p_single : m_type m = IPC_SEMOP -> m_size m = 1;
  p_setall : m_type m = IPC_SEMCTL -> m_cmd m <> SETALL;
  p_size : size_ok m;
  p_room : room s;
  p_ident : identifier s < INT_MAX;
}.

Lemma quiet_hears s s' L : quiet s s' -> books (table s) (identifier s) L -> books (table s') (identifier s') L.
Proof.
  intros (_ & -> & _ & _ & Hle) [B1 B2 B3 B4 B5 B6 B7]. split; try done.
  - intros i Hi. apply B2 in Hi. lia.
  - intros i j Hi. apply B7. lia.
Qed.

(** The state after a call, with the messages it has sent. *)
Definition answered s (L : ledger) (f : list ipc_out -> ledger) (s' : ipc W) : Prop :=
  inv s' /\ exists news, outbox s' = outbox s ++ news /\ books (table s') (identifier s') (f news).

(** A reply from the main loop changes nothing in the books. *)
Lemma reply_hears news e c r L : hears (news ++ [mk_ipc_out e c (Some r)]) L = hears news L.
Proof. rewrite hears_app. done. Qed.

Lemma quiet_answered s s' L f : quiet s s' -> books (table s) (identifier s) L -> f [] = L -> answered s L f s'.
Proof.
  intros Hq Hb Hf. split; [apply Hq|]. exists []. split; [destruct Hq as (_ & _ & -> & _); by rewrite app_nil_r|]. rewrite Hf. by eapply quiet_hears.
Qed.

Lemma answered_quiet s s1 s2 L f : answered s L f s1 -> quiet s1 s2 -> answered s L f s2.
Proof.
  intros (Hi & news & Ho & Hb) Hq. split; [apply Hq|]. exists news. split; [destruct Hq as (_ & _ & -> & _); done|]. by eapply quiet_hears.
Qed.

(** ** The calls in the main loop *)

Lemma semop_answered s L m op : inv s -> books (table s) (identifier s) L -> pend L !! who_e s = None -> m_size m = 1 -> room s ->
  ops_at (world s) (who_e s) (m_addr m) 1 = [op] -> wp (do_semop m) (fun _ s' => answered s L (fun news => hears news (ask (who_e s) (m_id m) op L)) s') s.
Proof.
  intros Hi Hb He Hsz Hroom Hops. eapply wp_mono; [by apply (do_semop_ok memory no_zero_ops)|]. intros [] s' (copied & Hi' & Ht & Ho & _ & Hid). split; [done|].
  eexists. split; [exact Ho|]. rewrite Ht, Hid, hears_app. apply wake_books. by apply semop_books.
Qed.

(** The state after [semctl], with the reply that the main loop adds. *)
Lemma semctl_books s L m r s' e v : effect s m r s' -> books (table s) (identifier s) L -> m_cmd m <> SETALL ->
  inv s' /\ exists news, outbox s' = outbox s ++ news /\
    books (table s') (identifier s') (if (m_cmd m =? SETVAL) && bool_decide ((o_code <$> last (news ++ [mk_ipc_out e r (Some v)])) = Some OK)
      then hears (news ++ [mk_ipc_out e r (Some v)]) (set_balance (m_id m) (Z.to_nat (m_num m)) (m_opt m) L) else hears (news ++ [mk_ipc_out e r (Some v)]) L).
Proof.
  intros Heff Hb Hns. destruct Heff as [r s' Hq Hr|[i l] s' Eid Hp Hi Hc Ho _ Hid|r k [i l0] l s' Hk Eid Hi Hsv Hnsv El Ht Ho _ Hid].
  - split; [apply Hq|]. exists []. split; [destruct Hq as (_ & _ & -> & _); by rewrite app_nil_r|]. cbn [app last fmap option_fmap option_map o_code].
    replace (_ && _) with false; [by eapply quiet_hears|]. symmetry. apply andb_false_iff. destruct Hr as [Hr|Hr]; [right|left; by apply Z.eqb_neq].
    apply bool_decide_eq_false. congruence.
  - split; [done|]. eexists. split; [exact Ho|]. assert (m_cmd m <> SETVAL) as Hc' by (rewrite Hc; apply setval_last; repeat first [apply list_elem_of_here | apply list_elem_of_further]).
    rewrite (proj2 (Z.eqb_neq _ _)) by done. cbn [andb]. rewrite reply_hears, Hid. by eapply (remove_books (i, l)).
  - split; [done|]. eexists. split; [exact Ho|]. destruct (decide (m_cmd m = SETVAL)) as [Hc|Hc]; [|by destruct Hns; apply Hnsv].
    destruct (Hsv Hc) as (-> & [v0 q0] & Hq & Hn0 & Hopt & ->). cbn [fst snd] in *. rewrite last_snoc. cbn [fmap option_fmap option_map o_code].
    rewrite (proj2 (Z.eqb_eq _ _)) by done. cbn [andb]. rewrite bool_decide_true by done. rewrite reply_hears, Hid, Ht. apply wake_books. subst i.
    eapply set_books; [exact Hb| |exact (reslot_insert (table s) k (m_id m) l0 _ _ (m_opt m, q0) (b_ids _ _ _ Hb) Hk Hq)|done]. exists l0. split; [by eapply list_elem_of_lookup_2|exact Hq].
Qed.

Definition booked (w : W) s L (m : ipc_msg) (s' : ipc W) : Prop := answered s L (fun news => ledger_round w m news L) s'.

(** A call that leaves the semaphores alone, and its reply. *)
Lemma reply_quiet w s0 s1 L m e r v : quiet s0 s1 -> books (table s0) (identifier s0) L ->
  anyset (m_type m) NOTIFY_MESSAGE = false -> m_type m <> IPC_SEMOP -> m_type m <> IPC_SEMCTL -> booked w s0 L m (emit [mk_ipc_out e r (Some v)] s1).
Proof.
  intros Hq Hb Hn H1' H2'. destruct (inv_emit s1 [mk_ipc_out e r (Some v)] (proj1 Hq)) as [Hi Ht]. split; [done|]. exists [mk_ipc_out e r (Some v)].
  split; [cbn; by destruct Hq as (_ & _ & -> & _)|]. unfold ledger_round. rewrite Hn, (proj2 (Z.eqb_neq _ _) H1'), (proj2 (Z.eqb_neq _ _) H2'). cbn [andb].
  rewrite Ht. exact (quiet_hears s0 s1 L Hq Hb).
Qed.

Lemma handle_ok s L m : inv s -> books (table s) (identifier s) L -> who_e s = m_source m -> polite s L m ->
  anyset (m_type m) NOTIFY_MESSAGE = false -> 0 <= m_type m - (IPC_BASE + 1) < 7 ->
  wp (r ← handle m; match r with Some (code, m') => ipc_sendnb (m_source m) code (Some (m_ret m')) | None => skip end) (fun _ s' => booked (world s) s L m s') s.
Proof.
  intros Hi Hb He Hp Hnot Hn. destruct Hp as [Hpe Hsing Hsa Hsz Hroom Hid]. rewrite <- He in Hpe. unfold handle.
  assert (forall (c : IM (ecode * ipc_msg)) s1, m_type m <> IPC_SEMOP -> m_type m <> IPC_SEMCTL -> wp c (fun _ s' => quiet s s') s1 ->
    wp ((r ← c; mret (Some r)) ≫= fun r => match r with Some (code, m') => ipc_sendnb (m_source m) code (Some (m_ret m')) | None => skip end) (fun _ s' => booked (world s) s L m s') s1) as Hquiet.
  { intros c s1 N1 N2 Hc. apply wp_bind, wp_bind. eapply wp_mono; [exact Hc|]. intros [code m'] s2 Hq. apply wp_ret, wp_modify. by apply reply_quiet. }
  unfold IPC_BASE in *. assert (IPC_SEMOP = 3335 /\ IPC_SEMCTL = 3334) as [Eop Ectl] by done.
  destruct (Z.eqb_spec (m_type m - (3328 + 1)) 0); [apply Hquiet; [lia|lia|by apply do_shmget_quiet]|].
  destruct (Z.eqb_spec (m_type m - (3328 + 1)) 1); [apply Hquiet; [lia|lia|by apply do_shmat_quiet]|].
  destruct (Z.eqb_spec (m_type m - (3328 + 1)) 2); [apply Hquiet; [lia|lia|by apply do_shmdt_quiet]|].
  destruct (Z.eqb_spec (m_type m - (3328 + 1)) 3); [apply Hquiet; [lia|lia|by apply do_shmctl_quiet]|].
  destruct (Z.eqb_spec (m_type m - (3328 + 1)) 4) as [E4|].
  { apply wp_bind, wp_bind. eapply wp_mono; [by apply do_semget_ok|]. intros [code m'] s1 [Hq|(nr & Hi1 & Ht1 & Ho1 & Hw1 & Hid1)]; apply wp_ret, wp_modify.
    - apply reply_quiet; [done|done|done|lia|lia].
    - destruct (inv_emit s1 [mk_ipc_out (m_source m) code (Some (m_ret m'))] Hi1) as [Hi2 Ht2]. split; [done|]. eexists. split; [cbn; by rewrite Ho1|].
      unfold ledger_round. rewrite Hnot, (proj2 (Z.eqb_neq _ IPC_SEMOP)), (proj2 (Z.eqb_neq _ IPC_SEMCTL)) by lia. cbn [andb].
      change (hears [_] L) with L. change (books (table (emit [mk_ipc_out (m_source m) code (Some (m_ret m'))] s1)) (identifier s1) L). rewrite Ht2, Ht1, Hid1. by apply create_books. }
  destruct (Z.eqb_spec (m_type m - (3328 + 1)) 5) as [E5|].
  { apply wp_bind, wp_bind. eapply wp_mono; [by apply do_semctl_ok|]. intros [code m'] s1 Heff. apply wp_ret, wp_modify.
    destruct (semctl_books s L m code s1 (m_source m) (m_ret m') Heff Hb (Hsa ltac:(lia))) as (Hi1 & news & Ho1 & Hb1).
    destruct (inv_emit s1 [mk_ipc_out (m_source m) code (Some (m_ret m'))] Hi1) as [Hi2 Ht2]. split; [done|].
    exists (news ++ [mk_ipc_out (m_source m) code (Some (m_ret m'))]). split; [cbn; by rewrite Ho1, app_assoc|].
    unfold ledger_round. rewrite Hnot, (proj2 (Z.eqb_neq _ IPC_SEMOP)), (proj2 (Z.eqb_eq _ IPC_SEMCTL)) by lia. cbn [andb]. rewrite <- Ht2 in Hb1. exact Hb1. }
  apply wp_bind, wp_bind. destruct (ops_at_law (world s) (who_e s) (m_addr m) 1 ltac:(lia)) as [Hlen _].
  destruct (ops_at (world s) (who_e s) (m_addr m) 1) as [|op [|]] eqn:Eops; cbn in Hlen; [lia| |lia].
  assert (m_type m = IPC_SEMOP) as Et by lia. eapply wp_mono; [by apply (semop_answered s L m op Hi Hb Hpe (Hsing Et) Hroom)|]. intros [] s1 Ha. apply wp_ret, wp_ret.
  destruct Ha as (Hi1 & news & Ho1 & Hb1). split; [done|]. exists news. split; [done|]. unfold ledger_round. rewrite Hnot, (proj2 (Z.eqb_eq _ _) Et). rewrite He in Eops, Hb1. by rewrite Eops.
Qed.

Lemma polite_who s L m e : polite s L m -> polite (with_who e s) L m.
Proof. by intros [? ? ? ? ? ?]. Qed.
Lemma polite_world s L m w : polite s L m -> polite (with_world w s) L m.
Proof. by intros [? ? ? ? ? ?]. Qed.

Lemma ledger_round_user w w' m news L : same_user w w' -> ledger_round w' m news L = ledger_round w m news L.
Proof. intros Hu. unfold ledger_round. destruct (Hu (m_source m)) as (_ & _ & E). by rewrite E. Qed.

Lemma ipc_round_ok s L m fuel : inv s -> books (table s) (identifier s) L -> polite s L m -> (pending (world s) < fuel)%nat ->
  wp (ipc_round fuel m) (fun _ s' => booked (world s) s L m s') s.
Proof.
  intros Hi Hb Hp Hf. unfold ipc_round. apply wp_bind, wp_modify. destruct (inv_who s (m_source m) Hi) as [Hi0 Ht0]. set (s0 := with_who (m_source m) s) in *.
  assert (books (table s0) (identifier s0) L) as Hb0 by (by rewrite Ht0). destruct (anyset (m_type m) NOTIFY_MESSAGE) eqn:En.
  - assert (forall news, ledger_round (world s) m news L = hears news L) as El by (intros news; unfold ledger_round; by rewrite En).
    apply wp_when; intros _.
    + eapply wp_mono; [by apply (vm_notify_ok fuel s0)|]. intros [] s' (Hi' & _ & Hid & o & Hex & Ho). split; [done|]. exists o. split; [done|]. rewrite El, Hid. by eapply exits_books.
    + split; [done|]. exists []. split; [by rewrite app_nil_r|]. by rewrite El.
  - destruct ((0 <=? m_type m - (IPC_BASE + 1)) && (m_type m - (IPC_BASE + 1) <? 7)) eqn:Er.
    2:{ apply wp_bind, wp_ret. eapply wp_mono; [by apply update_refcount_quiet|]. intros [] s' [Hq _]. eapply (quiet_answered s0); [exact Hq|exact Hb0|].
        assert (m_type m <> IPC_SEMOP /\ m_type m <> IPC_SEMCTL) as [N1 N2]
          by (unfold IPC_SEMOP, IPC_SEMCTL, IPC_BASE in *; apply andb_false_iff in Er as [Er%Z.leb_gt|Er%Z.ltb_ge]; lia).
        unfold ledger_round. by rewrite En, (proj2 (Z.eqb_neq _ _) N1), (proj2 (Z.eqb_neq _ _) N2). }
    apply andb_true_iff in Er as [Er1%Z.leb_le Er2%Z.ltb_lt]. apply wp_bind, wp_bind. eapply wp_external; [apply watch_law|]. intros rw w Hu.
    destruct (inv_world s0 w Hi0) as [Hi1 Ht1]. eapply wp_mono; [apply (handle_ok (with_world w s0) L m Hi1)|].
    + by rewrite Ht1.
    + done.
    + by apply polite_world, polite_who.
    + done.
    + lia.
    + intros [] s2 Ha. eapply wp_mono; [apply update_refcount_quiet, Ha|]. intros [] s3 [Hq _].
      assert (booked (world s) s L m s2) as Ha'.
      { destruct Ha as (Hi2 & news & Ho & Hbk). split; [done|]. exists news. split; [done|]. by rewrite <- (ledger_round_user (world s) w m news L Hu). }
      by eapply (answered_quiet s s2 s3).
Qed.
End rounds.
