(* ===== verification/SysvDemo.v ===== *)
(** * A concrete System V server

    Surroundings in which every process is root and an address stands for what is
    stored there, the constants of a small configuration, and the server after its start. *)

From S2P Require Import Prelude KTypes Sysv SysvFacts SysvSem SysvCalls SysvSystem.
#[local] Open Scope Z_scope.

Module SysvDemo.

#[global] Instance demo_const : IpcConst := {
  SEMMNI := 3; SEMMSL := 4; SEMOPM := 5; SEMVMX := 32767; SHMMNI := 100000;
  IPC_PRIVATE := 0; IPC_CREAT := 512; IPC_EXCL := 1024; IPC_NOWAIT := 2048;
  SHM_RND := 8192; SHM_RDONLY := 4096; SHM_DEST := 512;
  IPC_STAT := 2; IPC_SET := 1; IPC_RMID := 0; IPC_INFO := 500;
  SEM_INFO := 501; SEM_STAT := 502; SHM_INFO := 503; SHM_STAT := 504;
  GETALL := 6; GETNCNT := 3; GETPID := 4; GETVAL := 5; GETZCNT := 7; SETALL := 9; SETVAL := 8;
}.

#[global] Instance demo_const_laws : IpcConstLaws.
Proof. split; [done|done|done|]. cbn. repeat (apply NoDup_cons; split; [set_solver|]). constructor. Qed.

(** The operations at an address: all alike, on the first semaphore. The world is the list of the processes that have died. *)
Definition demo_ops (f : Z -> Z) (adr n : Z) : list sembuf := replicate (Z.to_nat n) (mk_sembuf 0 (f adr) 0).
Definition demo_refs (w : list Z) (p : Z) : Z := if p =? 8192 then 2 else 1.

Definition demo_env (f : Z -> Z) : IpcEnv (list Z) := {|
  getnuid _ _ := 0; getngid _ _ := 0; getnpid _ e := e; time _ := 0;
  malloc_ok _ w := Ok (true, w);
  copy_ops _ adr n w := Ok ((OK, demo_ops f adr n), w);
  copy_vals _ _ n w := Ok ((OK, replicate (Z.to_nat n) 1), w);
  copy_perm _ _ w := Ok ((OK, mk_ipc_perm 0 0 0 0 438), w);
  copy_out _ _ _ w := Ok (OK, w);
  vm_watch_exit _ w := Ok (OK, w);
  vm_query_exit w := match w with [] => Ok ((-1, 0), []) | [e] => Ok ((0, e), []) | e :: w' => Ok ((1, e), w') end;
  vm_getrefcount p w := Ok (demo_refs w p, w);
  vm_getphys _ a w := Ok (a, w);
  vm_remap _ a p _ w := Ok (Some p, w);
  vm_unmap _ _ w := Ok (tt, w);
  mmap n w := Ok (Some 4096, w);
  munmap _ _ w := Ok (tt, w);
|}.

(** At address 2 one unit is taken, elsewhere one is given. *)
Definition give_take (a : Z) : Z := if a =? 2 then -1 else 1.
(** At address 3 there is a wait for zero. *)
Definition give_take_zero (a : Z) : Z := if a =? 3 then 0 else give_take a.

#[global] Instance demo : IpcEnv (list Z) := demo_env give_take.

#[global, refine] Instance demo_laws : IpcEnvLaws (list Z) := {
  ops_at _ _ adr n := demo_ops give_take adr n;
  pending w := length w;
}.
Proof.
  - intros n w. by eexists _, _.
  - intros e w. by eexists _, _.
  - intros w e adr n Hn. unfold demo_ops. rewrite length_replicate. split; [lia|]. apply Forall_replicate. unfold give_take, op_ok. cbn. destruct (_ =? 2); lia.
  - intros e a n w. by eexists _, _.
  - intros e a n w Hn. eexists _, _. split; [done|]. intros _. cbn. rewrite length_replicate. split; [lia|]. by apply Forall_replicate.
  - intros e a w. by eexists _, _.
  - intros e a d w. by eexists _, _.
  - intros [|e [|e2 w]]; eexists _, _; (split; [done|]); cbn; lia.
  - intros p w. eexists _, _. split; [done|]. unfold demo_refs. destruct (_ =? _); lia.
  - intros o a w. by eexists _, _.
  - intros e a p n w. by eexists _, _.
  - intros e a w. by eexists _, _.
  - intros n w. by eexists _, _.
  - intros a n w. by eexists _, _.
Defined.

Lemma demo_memory n (w : list Z) b w' : malloc_ok n w = Ok (b, w') -> b = true.
Proof. by intros [= <- _]. Qed.
Lemma demo_nonzero (w : list Z) (e adr n : Z) : Forall (fun op => sem_op op <> 0) (ops_at w e adr n).
Proof. change (Forall (fun op => sem_op op <> 0) (demo_ops give_take adr n)). apply Forall_replicate. cbn. unfold give_take. by destruct (_ =? 2). Qed.

(** ** The server *)

Definition no_perm : ipc_perm := mk_ipc_perm 0 0 0 0 0.
Definition no_set : sem_struct := mk_sem_struct 0 0 (mk_semid_ds no_perm 0 0 0) [].
Definition no_shm : shm_struct := mk_shm_struct 0 0 (mk_shmid_ds no_perm 0 0 0 0 0 0 0) 0 0.
Definition fresh (l : list shm_struct) : ipc (list Z) :=
  mk_ipc (replicate 3 no_set) 0 (l ++ replicate (1024 - length l) no_shm) (Z.of_nat (length l)) 4660 0 [] [].
Definition s0 : ipc (list Z) := fresh [].

Lemma fresh_inv l : Forall shm_fits l -> (length l <= 1024)%nat -> inv (fresh l).
Proof.
  intros Hf Hl. split; try done; try (cbn; lia).
  - cbn. constructor.
  - cbn. rewrite length_app, length_replicate. unfold MAX_SHM_NR. lia.
  - cbn. unfold MAX_SHM_NR. lia.
  - cbn [shm_list_nr shm_list fresh]. rewrite Nat2Z.id, take_app_length. done.
Qed.
Lemma s0_inv : inv s0.
Proof. apply fresh_inv; [constructor|cbn; lia]. Qed.

(** A set of one semaphore, a unit given, a unit taken, and a process that waits. *)
Definition msg (e type adr : Z) : ipc_msg := mk_ipc_msg e type 5 1 (512 + 438) 4660 0 0 0 adr 1 0.
Definition m_get : ipc_msg := msg 10 IPC_SEMGET 0.
Definition m_give : ipc_msg := msg 10 IPC_SEMOP 1.
Definition m_take (e : Z) : ipc_msg := msg e IPC_SEMOP 2.

(** The state after a round, when it ends. *)
Definition after (m : ipc_msg) (s : ipc (list Z)) : ipc (list Z) :=
  match ipc_round 1 m s with Ok (_, s') => s' | Err _ => s end.
Definition s1 : ipc (list Z) := after m_get s0.
Definition s2 : ipc (list Z) := after m_give s1.
Definition s3 : ipc (list Z) := after (m_take 11) s2.
Definition s4 : ipc (list Z) := after (m_take 12) s3.

Example s4_table : table s4 = [(4660, [(0, [mk_waiting 12 1])])].
Proof. vm_compute. done. Qed.
Example s4_outbox : outbox s4 = [mk_ipc_out 10 OK (Some 4660); mk_ipc_out 10 OK None; mk_ipc_out 11 OK None].
Proof. vm_compute. done. Qed.
End SysvDemo.
