(* ===== verification/SysvProps.v ===== *)
(** * Properties of the System V server

    Any request is served without a fault as long as nobody waits for zero; what [semop] does; the
    books of an observer balance in every run; what a wait for zero leads to; which segments of shared memory are destroyed. *)

From S2P Require Import Prelude KTypes Sysv SysvFacts SysvSem SysvCalls SysvSystem SysvDemo.
#[local] Open Scope Z_scope.

Section props.
Context {W : Type} `{IpcConst, IpcEnv W} `{!IpcConstLaws, !IpcEnvLaws W}.
Context (memory : forall n w b w', malloc_ok n w = Ok (b, w') -> b = true).
Context (no_zero_ops : forall (w : W) (e adr n : Z), Forall (fun op => sem_op op <> 0) (ops_at w e adr n)).
Implicit Types (s : ipc W) (L : ledger).

Lemma effect_inv s m r s' : effect s m r s' -> inv s'.
Proof. by intros [r' s2 Hq _|t0 s2 _ _ Hi _ _ _ _|r' k t0 l s2 _ _ Hi _ _ _ _ _ _ _]; [apply Hq| |]. Qed.

Lemma handle_inv s m : inv s -> room s -> identifier s < INT_MAX -> size_ok m -> wp (handle m) (fun _ s' => inv s') s.
Proof.
  intros Hi Hroom Hid Hsz. unfold handle.
  assert (forall A (c : M (ipc W) A) (Q : ipc W -> Prop), wp c (fun _ s' => Q s') s -> (forall s', Q s' -> inv s') ->
    wp (r ← c; mret (Some r)) (fun _ s' => inv s') s) as Hret.
  { intros A c Q Hc HQ. apply wp_bind. eapply wp_mono; [exact Hc|]. intros r s' Hs'. apply wp_ret. by apply HQ. }
  assert (forall s', quiet s s' -> inv s') as Hq by (intros s' Hq; apply Hq).
  destruct (_ =? 0); [apply (Hret _ _ (quiet s)); [by apply do_shmget_quiet|done]|]. destruct (_ =? 1); [apply (Hret _ _ (quiet s)); [by apply do_shmat_quiet|done]|].
  destruct (_ =? 2); [apply (Hret _ _ (quiet s)); [by apply do_shmdt_quiet|done]|]. destruct (_ =? 3); [apply (Hret _ _ (quiet s)); [by apply do_shmctl_quiet|done]|].
  destruct (_ =? 4); [apply (Hret _ _ (fun s' => quiet s s' \/ created s s')); [by apply do_semget_ok|intros s' [?|(nr & ? & _)]; [by apply Hq|done]]|].
  destruct (_ =? 5).
  - apply wp_bind. eapply wp_mono; [by apply do_semctl_ok|]. intros r s' He. apply wp_ret. exact (effect_inv _ _ _ _ He).
  - apply wp_bind. eapply wp_mono; [by apply (do_semop_ok memory no_zero_ops)|]. intros [] s' (copied & Hs' & _). by apply wp_ret.
Qed.



(** Runs of the server among polite processes; between the rounds the world changes as it likes. *)
Inductive runs s0 : ipc W -> ledger -> Prop :=
| runs_start : runs s0 s0 (mk_ledger ∅ ∅)
| runs_world s L w : runs s0 s L -> runs s0 (with_world w s) L
| runs_round s L m fuel s' news : runs s0 s L -> polite s L m -> (pending (world s) < fuel)%nat ->
    ipc_round fuel m s = Ok (tt, s') -> outbox s' = outbox s ++ news -> runs s0 s' (ledger_round (world s) m news L).

Lemma runs_books s0 s L : inv s0 -> sem_list_nr s0 = 0 -> runs s0 s L -> inv s /\ books (table s) (identifier s) L.
Proof.
  intros Hi0 Hn Hr. induction Hr as [|s L w Hr [Hi Hb]|s L m fuel s' news Hr [Hi Hb] Hp Hf E Ho].
  - split; [done|]. assert (table s0 = []) as -> by (unfold table, live; by rewrite Hn).
    split; try done; try (intros; unfold slot in *; repeat match goal with E : exists _, _ |- _ => destruct E as [? E] end; destruct_and?; by match goal with E : _ ∈ [] |- _ => apply elem_of_nil in E end).
    + constructor.
    + intros i Hi. by apply elem_of_nil in Hi.
  - destruct (inv_world s w Hi) as [Hi' Ht']. split; [done|]. by rewrite Ht'.
  - pose proof (ipc_round_ok memory no_zero_ops s L m fuel Hi Hb Hp Hf) as Hw. unfold wp in Hw. rewrite E in Hw. destruct Hw as (Hi' & news' & Ho' & Hb').
    split; [done|]. assert (news' = news) as -> by (rewrite Ho in Ho'; by apply app_inv_head in Ho'). done.
Qed.

End props.

(** ** Waiting for zero *)

Section zero.
Context {W : Type} `{IpcConst, IpcEnv W}.
Context (k j : nat) (i nr : Z) (a : semaphore).
Implicit Types (s : ipc W).

(** The semaphore [j] of the set [k] is as it was. *)
Definition stays s : Prop := (k < Z.to_nat (sem_list_nr s))%nat /\
  exists x, sem_list s !! k = Some x /\ sem_id x = i /\ sem_nr x = nr /\ sems x !! j = Some a.

Definition keeps {A} (m : M (ipc W) A) : Prop := forall s r s', stays s -> m s = Ok (r, s') -> stays s'.

Lemma keeps_bind {A B} (m : M (ipc W) A) (f : A -> M (ipc W) B) : keeps m -> (forall r, keeps (f r)) -> keeps (m ≫= f).
Proof.
  intros Hm Hf s r s' Hs. unfold mbind, M_bind. destruct (m s) as [[b s1]|] eqn:E; [|done]. intros Hr. eapply Hf; [|exact Hr]. by eapply Hm.
Qed.
Lemma keeps_ret {A} (r : A) : keeps (mret r).
Proof. intros s r' s' Hs E. unfold mret, M_ret in E. by simplify_eq. Qed.
Lemma keeps_gets {A} (f : ipc W -> A) : keeps (gets f).
Proof. intros s r' s' Hs E. unfold gets in E. by simplify_eq. Qed.
Lemma keeps_lift {A} (r : result A) : keeps (lift r).
Proof. intros s r' s' Hs. unfold lift. destruct r; [|done]. by intros [= <- <-]. Qed.
Lemma keeps_deref {A} (o : option A) : keeps (deref o).
Proof. intros s r' s' Hs. unfold deref. destruct o; [|done]. by intros [= <- <-]. Qed.
Lemma keeps_external {A} (m : M W A) : keeps (external m).
Proof.
  intros s r s' Hs. unfold external, mbind, M_bind, gets. destruct (m (world s)) as [[b w]|]; [|done]. by intros [= <- <-].
Qed.
Lemma keeps_send e c v : keeps (ipc_sendnb e c v).
Proof. intros s r s' Hs E. unfold ipc_sendnb, modify in E. by simplify_eq. Qed.
Lemma keeps_foreach {A} (l : list A) (f : A -> M (ipc W) unit) : (forall x, x ∈ l -> keeps (f x)) -> keeps (foreach l f).
Proof.
  induction l as [|x l IH]; intros Hf; [apply keeps_ret|]. apply keeps_bind; [apply Hf; left|]. intros _. apply IH. intros y Hy. apply Hf. by right.
Qed.

Lemma keeps_upd k' j' f : (k' <> k \/ j' <> Z.of_nat j) -> keeps (upd_semaphore k' j' f).
Proof.
  intros Hne s r s' (Hk & x & Hx & Hi & Hn & Ha). unfold upd_semaphore, upd_sem, get_sem. intros E.
  destruct (decide (k' = k)) as [->|Hkk].
  - destruct Hne as [?|Hj]; [done|]. unfold gets, lift, mbind, M_bind, modify in E. rewrite (aget_nat _ _ _ Hx) in E. destruct (aget (sems x) j'); [|done].
    destruct (aset (sems x) j' _) as [l|] eqn:El; [|done]. rewrite (aget_nat _ _ _ Hx) in E. simplify_eq. split; [done|]. cbn. rewrite list_lookup_insert_eq by (by eapply lookup_lt_Some).
    eexists. split; [done|]. split; [done|]. split; [done|]. cbn. unfold aset in El. case_decide as Hr; [|done]. injection El as <-. rewrite list_lookup_insert_ne by lia. done.
  - unfold gets, lift, mbind, M_bind, modify in E. destruct (aget (sem_list s) (Z.of_nat k')) as [y|] eqn:Ey; [|done]. destruct (aget (sems y) j'); [|done].
    destruct (aset (sems y) j' _) as [l|]; [|done]. rewrite Ey in E. simplify_eq. split; [done|]. cbn. rewrite list_lookup_insert_ne by done. by exists x.
Qed.
Hint Resolve keeps_ret keeps_gets keeps_lift keeps_deref keeps_external keeps_send keeps_upd : keeps.
Ltac keep := repeat first [solve [eauto with keeps] | apply keeps_bind; [|intros] | match goal with |- keeps (match ?x with _ => _ end) => destruct x end
  | progress unfold get_semaphore, get_sem, check, send_message_to_process, skip].

Lemma keeps_get_sem k' : keeps (get_sem k').
Proof. keep. Qed.
Lemma keeps_get_semaphore k' j' : keeps (get_semaphore k' j').
Proof. keep. Qed.

Lemma keeps_wake k' j' : (k' <> k \/ j' <> Z.of_nat j) -> keeps (wake_zero k' j';; wake_inc k' j').
Proof. intros Hne. unfold wake_zero, wake_inc, remove_zero, remove_inc, find_waiting. keep. Qed.

Lemma keeps_perform k' ops n : k' <> k -> keeps (perform k' ops n).
Proof.
  intros Hne. revert n. induction ops as [|op ops IH]; intros n; cbn [perform]; [apply keeps_ret|]. unfold sleep_zero, sleep_inc. keep.
Qed.

Lemma semop_work_keeps s m r s' : m_id m <> i -> stays s -> semop_work m s = Ok (r, s') -> stays s'.
Proof.
  intros Hm Hs. pose proof Hs as (Hk & x & Hx & Hi & _). unfold semop_work, sem_find_id.
  pose proof (find_index_ok (fun x => sem_id x = m_id m) (sem_list s) (sem_list_nr s)) as Hf. unfold mbind at 1, M_bind at 1. unfold mbind at 1, M_bind at 1, gets at 1.
  unfold mbind at 1, M_bind at 1, gets at 1, mret at 1, M_ret.
  assert (forall (c : M (ipc W) (ecode * Z)), keeps c -> c s = Ok (r, s') -> stays s') as Hc by (intros c Hc E; by eapply Hc).
  destruct (find_index _ _ _) as [k'|]; [|apply Hc, keeps_ret]. destruct Hf as (y & Hy & Hyi). apply lookup_take_Some in Hy as [Hy _].
  assert (k' <> k) as Hne by (intros ->; congruence). apply Hc. clear Hc. keep; by apply keeps_perform.
Qed.

Lemma foreach_stuck {A} `{EqDecision A} (l : list A) (y : A) (f : A -> M (ipc W) unit) s r : y ∈ l -> (forall z, z <> y -> keeps (f z)) ->
  (forall s r, stays s -> f y s <> Ok r) -> stays s -> foreach l f s <> Ok r.
Proof.
  intros Hy Hf Hst. revert s. induction l as [|z l IH]; intros s Hs; [by apply elem_of_nil in Hy|]. cbn [foreach]. unfold mbind, M_bind.
  destruct (f z s) as [[[] s1]|] eqn:E; [|done]. destruct (decide (z = y)) as [->|Hne]; [by destruct (Hst s (tt, s1) Hs)|].
  apply elem_of_cons in Hy as [->|Hy]; [done|]. apply IH; [done|]. by eapply (Hf z).
Qed.

Lemma wake_zero_stuck s r : stays s -> zlist a <> None -> semzcnt a <= 0 -> semval a = 0 -> wake_zero k (Z.of_nat j) s <> Ok r.
Proof.
  intros (Hk & x & Hx & _ & _ & Ha) Hz Hn Hv. unfold wake_zero. rewrite (bind_ok _ _ _ _ _ (get_semaphore_ok s k x j a Hx Ha)). destruct (zlist a) as [l|] eqn:El; [|done].
  rewrite Hv. cbn [Z.eqb]. unfold remove_zero. unfold mbind at 1, M_bind at 1. rewrite (bind_ok _ _ _ _ _ (get_semaphore_ok s k x j a Hx Ha)), El.
  rewrite (bind_ok (deref _) _ s l s) by done. unfold lift at 1, mbind at 1, M_bind at 1. destruct (aget l _); [|done].
  unfold lift at 1, mbind at 1, M_bind at 1, close_gap. by rewrite (proj2 (Z.leb_gt 0 _)) by lia.
Qed.

Lemma update_stuck s r : stays s -> Z.of_nat j < nr -> zlist a <> None -> semzcnt a <= 0 -> semval a = 0 -> update_semaphores s <> Ok r.
Proof.
  intros Hs Hj Hz Hn Hv. unfold update_semaphores, each_set. unfold mbind at 1, M_bind at 1, gets at 1.
  apply (foreach_stuck _ k); [apply elem_of_seq; pose proof (proj1 Hs); lia| | |done].
  - intros k' Hk'. unfold update_one_semaphore, each_semaphore. apply keeps_bind; [apply keeps_get_sem|]. intros x. apply keeps_foreach. intros j' _. apply keeps_wake. by left.
  - clear s r Hs. intros s r Hs. pose proof Hs as (_ & x & Hx & _ & Enr & _). unfold update_one_semaphore, each_semaphore. rewrite (bind_ok _ _ _ _ _ (get_sem_ok s k x Hx)), Enr.
    apply (foreach_stuck _ (Z.of_nat j)); [apply elem_of_seqZ; lia| | |done].
    + intros j' Hj'. apply keeps_wake. by right.
    + clear s r Hs x Hx Enr. intros s r Hs. unfold mbind at 1, M_bind at 1. destruct (wake_zero k (Z.of_nat j) s) as [[[] s1]|] eqn:E; [|done].
      by destruct (wake_zero_stuck s (tt, s1) Hs Hz Hn Hv).
Qed.
End zero.

Lemma stuck_fault {S A} (c : M S A) s : (forall r, c s <> Ok r) -> exists f, c s = Err f.
Proof. destruct (c s) as [r|f]; intros Hc; [by destruct (Hc r)|by exists f]. Qed.

(** C30: Once a process that waited for zero has been woken, or has died, the server is doomed: the list stays allocated without entries,
    and while the value is 0 the next request on any other set, even one that is refused, by any process,
    makes the server move a negative number of entries. The server does not survive such a request. *)
Theorem zero_wait_crashes {W : Type} `{IpcConst, IpcEnv W} (s : ipc W) k x j a l m :
  sem_list s !! k = Some x -> Z.of_nat k < sem_list_nr s -> sems x !! j = Some a -> Z.of_nat j < sem_nr x ->
  zlist a = Some l -> semzcnt a = 0 -> semval a = 0 -> m_id m <> sem_id x -> exists f, do_semop m s = Err f.
Proof.
  intros Hx Hk Ha Hj Hz Hn Hv Hm. apply stuck_fault. intros r. assert (stays k j (sem_id x) (sem_nr x) a s) as Hs by (split; [lia|by exists x]).
  unfold do_semop. unfold mbind at 1, M_bind at 1. destruct (semop_work m s) as [[rc s1]|] eqn:E; [|done].
  pose proof (semop_work_keeps k j (sem_id x) (sem_nr x) a s m rc s1 Hm Hs E) as Hs1. unfold mbind at 1, M_bind at 1, gets at 1.
  unfold mbind, M_bind. destruct (when _ _ s1) as [[[] s2]|] eqn:E2; [|done].
  assert (stays k j (sem_id x) (sem_nr x) a s2) as Hs2.
  { unfold when in E2. destruct (_ || _); [by eapply keeps_send|]. by injection E2 as <-. }
  apply (update_stuck k j (sem_id x) (sem_nr x) a); [exact Hs2|done|by rewrite Hz|lia|done].
Qed.

(** ** Segments that are destroyed *)

Section shm.
Context {W : Type} `{IpcConst, IpcEnv W} `{!IpcConstLaws, !IpcEnvLaws W}.
Implicit Types (s : ipc W).
(** VM counts the references to a page; the question changes no count, and giving a page back changes no other one's. *)
Context (refs : W -> Z -> Z).
Context (refs_law : forall p w, exists w', vm_getrefcount p w = Ok (refs w p, w') /\ forall p', refs w' p' = refs w p').
Context (munmap_refs : forall p n w w', munmap p n w = Ok (tt, w') -> forall p', p' <> p -> refs w' p' = refs w p').

End shm.

(** ** Witnesses *)

Import SysvDemo.

Lemma room_of (s : ipc (list Z)) t : table s = t -> Forall (fun il => Forall (fun vq => Z.of_nat (length vq.2) < 65535) il.2) t -> room s.
Proof. intros <- Hf il vq Hil Hvq. exact (proj1 (Forall_forall _ _) (proj1 (Forall_forall _ _) Hf il Hil) vq Hvq). Qed.


Lemma run_step s L m news : runs s0 s L -> polite s L m -> world s = [] -> outbox (after m s) = outbox s ++ news -> runs s0 (after m s) (ledger_round (world s) m news L).
Proof.
  intros Hr Hp Hw Ho. assert (exists s', ipc_round 1 m s = Ok (tt, s')) as [s' E].
  { destruct (runs_books demo_memory demo_nonzero s0 s L s0_inv eq_refl Hr) as [Hi Hb].
    destruct (wp_elim _ _ _ (ipc_round_ok demo_memory demo_nonzero s L m 1 Hi Hb Hp ltac:(rewrite Hw; apply Nat.lt_0_succ))) as ([] & s' & E & _). by exists s'. }
  assert (after m s = s') as Ea by (unfold after; by rewrite E). rewrite Ea in *. eapply runs_round; [done|done| |exact E|done]. rewrite Hw. apply Nat.lt_0_succ.
Qed.

Lemma polite_msg (s : ipc (list Z)) L e type adr t : table s = t -> Forall (fun il => Forall (fun vq => Z.of_nat (length vq.2) < 65535) il.2) t ->
  pend L !! e = None -> identifier s < INT_MAX -> polite s L (msg e type adr).
Proof. intros Ht Hf Hp Hid. split; try done. by eapply room_of. Qed.

Definition books1 : ledger := ledger_round [] m_get [mk_ipc_out 10 OK (Some 4660)] (mk_ledger ∅ ∅).
Definition books2 : ledger := ledger_round [] m_give [mk_ipc_out 10 OK None] books1.
Definition books3 : ledger := ledger_round [] (m_take 11) [mk_ipc_out 11 OK None] books2.
Definition books4 : ledger := ledger_round [] (m_take 12) [] books3.

Lemma run1 : runs s0 s1 books1.
Proof. apply (run_step s0 _ m_get); [apply runs_start|by eapply polite_msg|done|by vm_compute]. Qed.
Lemma run2 : runs s0 s2 books2.
Proof. apply (run_step s1 _ m_give); [apply run1|eapply (polite_msg _ _ _ _ _ [(4660, [(0, [])])]); [by vm_compute|by repeat constructor|by vm_compute|by vm_compute]|by vm_compute|by vm_compute]. Qed.
Lemma run3 : runs s0 s3 books3.
Proof. apply (run_step s2 _ (m_take 11)); [apply run2|eapply (polite_msg _ _ _ _ _ [(4660, [(1, [])])]); [by vm_compute|by repeat constructor|by vm_compute|by vm_compute]|by vm_compute|by vm_compute]. Qed.
Lemma run4 : runs s0 s4 books4.
Proof. apply (run_step s3 _ (m_take 12)); [apply run3|eapply (polite_msg _ _ _ _ _ [(4660, [(0, [])])]); [by vm_compute|by repeat constructor|by vm_compute|by vm_compute]|by vm_compute|by vm_compute]. Qed.
Lemma s3_inv : inv s3.
Proof. exact (proj1 (runs_books demo_memory demo_nonzero s0 s3 books3 s0_inv eq_refl run3)). Qed.
Lemma s3_room : room s3.
Proof. apply (room_of s3 [(4660, [(0, [])])]); [by vm_compute|by repeat constructor]. Qed.



(** A unit is given, process 11 waits for zero, the unit is taken, and process 11 is woken. *)
Definition after_zero (m : ipc_msg) (s : ipc (list Z)) : ipc (list Z) :=
  match @ipc_round _ demo_const (demo_env give_take_zero) 1 m s with Ok (_, s') => s' | Err _ => s end.
Definition z4 : ipc (list Z) := after_zero (msg 10 IPC_SEMOP 2) (after_zero (msg 11 IPC_SEMOP 3) (after_zero m_give (after_zero m_get s0))).
Example z4_outbox : outbox z4 = [mk_ipc_out 10 OK (Some 4660); mk_ipc_out 10 OK None; mk_ipc_out 10 OK None; mk_ipc_out 11 OK None].
Proof. vm_compute. done. Qed.
Definition xz : sem_struct := default no_set (sem_list z4 !! 0%nat).
Definition az : semaphore := default zero_semaphore (sems xz !! 0%nat).
Definition m_other : ipc_msg := mk_ipc_msg 13 IPC_SEMOP 0 0 0 77 0 0 0 0 1 0.

Lemma zero_wait_crashes_witness : exists f, @do_semop _ demo_const (demo_env give_take_zero) m_other z4 = Err f.
Proof.
  refine (@zero_wait_crashes _ demo_const (demo_env give_take_zero) z4 0 xz 0 az (default [] (zlist az)) m_other _ _ _ _ _ _ _ _); try (vm_compute; reflexivity).
  vm_compute. discriminate.
Defined.

(** Two segments to be destroyed, of which the second is attached, and one that stays. *)
Definition segment (i pg md : Z) : shm_struct := mk_shm_struct i i (mk_shmid_ds (mk_ipc_perm 0 0 0 0 md) 100 0 0 0 0 0 0) pg pg.
Definition segments : list shm_struct := [segment 1 4096 512; segment 2 8192 512; segment 3 12288 438].
Lemma segments_inv : inv (fresh segments).
Proof. apply fresh_inv; [repeat constructor; vm_compute; discriminate|cbn; lia]. Qed.
Lemma demo_refs_law p (w : list Z) : exists w', vm_getrefcount p w = Ok (demo_refs w p, w') /\ forall p', demo_refs w' p' = demo_refs w p'.
Proof. by exists w. Qed.
Lemma demo_munmap_refs p n (w w' : list Z) : munmap p n w = Ok (tt, w') -> forall p', p' <> p -> demo_refs w' p' = demo_refs w p'.
Proof. done. Qed.

