(* ===== verification/BufCache.v ===== *)
(** * Blocks, and the interface of the buffer cache to the file systems

    A block is the list of its bytes. The operations of the buffer cache that a file
    system uses (include/minix/libminixfs.h) are the class [BufCache]; what they promise is the
    class [BufCacheLaws], over an abstract state: the contents [V] of the blocks
    of the device as far as they are certain, of those blocks that only the client of the
    interface writes ([own]), the buffers [H] in use with the blocks
    they hold, and the blocks [T] whose buffers have contents that may get lost,
    because they are not marked dirty. *)

From S2P Require Import Prelude.
#[local] Open Scope Z_scope.

(** ** Words in a block *)

Definition byte_ok (b : Z) : Prop := 0 <= b < 256.
#[global] Instance byte_ok_dec b : Decision (byte_ok b).
Proof. unfold byte_ok. apply _. Defined.

Definition le32 (l : list Z) : Z :=
  match l with
  | [b0; b1; b2; b3] => b0 + 256 * (b1 + 256 * (b2 + 256 * b3))
  | _ => 0
  end.
Definition bytes32 (w : Z) : list Z :=
  [w `mod` 256; (w / 256) `mod` 256; (w / 65536) `mod` 256; (w / 16777216) `mod` 256].

Definition nwords (d : list Z) : Z := Z.of_nat (length d) / 4.
(** The word at index [i] of an array of 32-bit numbers. *)
Definition word (d : list Z) (i : Z) : Z := le32 (take 4 (drop (Z.to_nat (4 * i)) d)).
Definition put_word (d : list Z) (i w : Z) : list Z :=
  take (Z.to_nat (4 * i)) d ++ bytes32 w ++ drop (Z.to_nat (4 * i + 4)) d.

Definition word_ok (w : Z) : Prop := 0 <= w < 2 ^ 32.

Lemma byte_ok_mod z : byte_ok (z `mod` 256).
Proof. unfold byte_ok. by apply Z.mod_pos_bound. Qed.
#[global] Hint Resolve byte_ok_mod : core.

Lemma bytes32_ok w : Forall byte_ok (bytes32 w).
Proof. unfold bytes32. repeat (apply Forall_cons_2; [apply byte_ok_mod|]). apply Forall_nil_2. Qed.

Lemma le32_bytes32 w : word_ok w -> le32 (bytes32 w) = w.
Proof.
  unfold word_ok, bytes32, le32. intros Hw.
  replace (w / 65536) with (w / 256 / 256) by (rewrite Z.div_div by lia; done).
  replace (w / 16777216) with (w / 256 / 256 / 256) by (rewrite !Z.div_div by lia; done).
  pose proof (Z.div_mod w 256 ltac:(lia)). pose proof (Z.div_mod (w / 256) 256 ltac:(lia)).
  pose proof (Z.div_mod (w / 256 / 256) 256 ltac:(lia)).
  rewrite (Z.mod_small (w / 256 / 256 / 256) 256); [lia|].
  rewrite !Z.div_div by lia. split; [apply Z.div_pos; lia|]. apply Z.div_lt_upper_bound; lia.
Qed.

Lemma word_range d i : Forall byte_ok d -> word_ok (word d i).
Proof.
  intros Hd. unfold word, word_ok. assert (Forall byte_ok (take 4 (drop (Z.to_nat (4 * i)) d))) as H.
  { by apply Forall_take, Forall_drop. }
  destruct (take 4 _) as [|b0 [|b1 [|b2 [|b3 [|? ?]]]]]; cbn [le32]; try lia.
  repeat match goal with H : Forall _ (_ :: _) |- _ => apply Forall_cons in H as [? H] end. unfold byte_ok in *. lia.
Qed.

Lemma nwords_lt d i : 0 <= i < nwords d -> 0 <= i /\ 4 * i + 4 <= Z.of_nat (length d).
Proof. unfold nwords. intros H. pose proof (Z.mul_div_le (Z.of_nat (length d)) 4 ltac:(lia)). lia. Qed.

Lemma put_word_length d i w : 0 <= i < nwords d -> length (put_word d i w) = length d.
Proof.
  intros Hi%nwords_lt. unfold put_word. rewrite !length_app, length_take, length_drop. cbn [length bytes32]. lia.
Qed.

Lemma put_word_bytes d i w : Forall byte_ok d -> Forall byte_ok (put_word d i w).
Proof. intros Hd. unfold put_word. rewrite !Forall_app. split_and!; [by apply Forall_take|apply bytes32_ok|by apply Forall_drop]. Qed.

Lemma word_put d i w : 0 <= i < nwords d -> word_ok w -> word (put_word d i w) i = w.
Proof.
  intros Hi%nwords_lt Hw. unfold word, put_word.
  rewrite drop_app_length' by (rewrite length_take; lia). rewrite take_app_length' by done. by apply le32_bytes32.
Qed.

Lemma word_put_ne d i j w : 0 <= i < nwords d -> 0 <= j -> i <> j -> word (put_word d i w) j = word d j.
Proof.
  intros Hi%nwords_lt Hj Hne. unfold word, put_word. destruct (decide (j < i)) as [Hlt|Hlt].
  - rewrite drop_app_le by (rewrite length_take; lia).
    rewrite take_app_le by (rewrite length_drop, length_take; lia).
    rewrite skipn_firstn_comm. rewrite take_take, Nat.min_l by lia. done.
  - rewrite drop_app_ge by (rewrite length_take; lia).
    rewrite drop_app_ge by (rewrite length_take; cbn [length bytes32]; lia).
    rewrite drop_drop, length_take. cbn [length bytes32].
    replace (Z.to_nat (4 * i + 4) + _)%nat with (Z.to_nat (4 * j)) by lia. done.
Qed.

Lemma bytes32_le32 b0 b1 b2 b3 : Forall byte_ok [b0; b1; b2; b3] -> bytes32 (le32 [b0; b1; b2; b3]) = [b0; b1; b2; b3].
Proof.
  rewrite !Forall_cons. unfold byte_ok. intros (H0 & H1 & H2 & H3 & _). unfold bytes32, le32.
  replace ((b0 + 256 * (b1 + 256 * (b2 + 256 * b3))) / 65536) with (b2 + 256 * b3)
    by (apply Z.div_unique with (b0 + 256 * b1); lia).
  replace ((b0 + 256 * (b1 + 256 * (b2 + 256 * b3))) / 16777216) with b3
    by (apply Z.div_unique with (b0 + 256 * b1 + 65536 * b2); lia).
  replace ((b0 + 256 * (b1 + 256 * (b2 + 256 * b3))) / 256) with (b1 + 256 * (b2 + 256 * b3))
    by (apply Z.div_unique with b0; lia).
  rewrite (Z.mod_small b3) by lia. repeat f_equal; symmetry; [apply Z.mod_unique with (b1 + 256 * (b2 + 256 * b3))|
    apply Z.mod_unique with (b2 + 256 * b3)|apply Z.mod_unique with b3]; lia.
Qed.

(** A word that is written back changes nothing. *)
Lemma put_word_id d i : 0 <= i < nwords d -> Forall byte_ok d -> put_word d i (word d i) = d.
Proof.
  intros Hi%nwords_lt Hd. unfold put_word, word. rewrite <- (take_drop (Z.to_nat (4 * i)) d) at 4. f_equal.
  set (l := drop (Z.to_nat (4 * i)) d). replace (drop (Z.to_nat (4 * i + 4)) d) with (drop 4 l)
    by (unfold l; rewrite drop_drop; f_equal; lia).
  assert (4 <= length l)%nat as Hl by (unfold l; rewrite length_drop; lia).
  assert (Forall byte_ok l) as Hlb by (by apply Forall_drop). clearbody l.
  destruct l as [|b0 [|b1 [|b2 [|b3 l]]]]; cbn [length] in Hl; try lia.
  change (take 4 (b0 :: b1 :: b2 :: b3 :: l)) with [b0; b1; b2; b3]. rewrite bytes32_le32; [done|].
  apply (Forall_take _ 4 _ Hlb).
Qed.

Lemma word_ge d i : Z.of_nat (length d) <= 4 * i -> word d i = 0.
Proof. intros H. unfold word. rewrite drop_ge by lia. done. Qed.

(** ** The operations of the cache *)

Definition NO_BLOCK : Z := 0.
Definition VMC_NO_INODE : Z := 0.

(** The argument [only_search]. *)
Inductive get_mode := NORMAL | NO_READ | PREFETCH.
#[global] Instance get_mode_eq_dec : EqDecision get_mode.
Proof. solve_decision. Defined.

Definition INODE_BLOCK : Z := 0.
Definition DIRECTORY_BLOCK : Z := 1.
Definition INDIRECT_BLOCK : Z := 2.
Definition MAP_BLOCK : Z := 3.
Definition FULL_DATA_BLOCK : Z := 5.
Definition PARTIAL_DATA_BLOCK : Z := 6.

(** A pointer to a buffer is a number. *)
Class BufCache (C : Type) := {
  get_block_ino : Z -> Z -> get_mode -> Z -> Z -> M C nat;   (* device, block, mode, inode, offset *)
  put_buf : nat -> Z -> M C unit;
  mark_dirty : nat -> M C unit;
  mark_clean : nat -> M C unit;
  buf_dev : nat -> M C Z;
  buf_data : nat -> M C (list Z);
  set_buf_data : nat -> list Z -> M C unit;
  blocks_change : Z -> Z -> M C unit;
  fs_block_size : M C Z;
}.

(** ** What the cache promises *)

Definition MINBUFS : nat := 6.

(** A block of the device. *)
Definition block_ok (bs : Z) (d : list Z) : Prop := Z.of_nat (length d) = bs /\ Forall byte_ok d.

(** A block with contents that were not certain may lose those that it is given. *)
Definition after_get (V : gmap Z (list Z)) (T : gset Z) (mode : get_mode) (b : Z) : gset Z :=
  if decide (mode = NORMAL /\ is_Some (V !! b)) then T else {[b]} ∪ T.

Class BufCacheLaws (C : Type) `{BufCache C} (dev bs : Z) (own : Z -> Prop) := {
  cache_rep : C -> gmap Z (list Z) -> list (nat * Z) -> gset Z -> Prop;
  rep_perm c V H H' T : cache_rep c V H T -> H ≡ₚ H' -> cache_rep c V H' T;
  rep_block c V H T b d : cache_rep c V H T -> V !! b = Some d -> block_ok bs d;
  (** A block of the device in a buffer. *)
  get_law c V H T b mode ino off :
    cache_rep c V H T -> own b -> (length H < MINBUFS)%nat -> mode <> PREFETCH ->
    wp (get_block_ino dev b mode ino off) (fun bp c' => exists d, block_ok bs d /\
      (mode = NORMAL -> forall d0, V !! b = Some d0 -> d = d0) /\
      cache_rep c' (<[b := d]> V) ((bp, b) :: H) (after_get V T mode b)) c;
  (** A buffer that is no longer used: what was not marked dirty is uncertain. *)
  put_law c V H T bp b ty :
    cache_rep c V ((bp, b) :: H) T ->
    wp (put_buf bp ty) (fun _ c' =>
      (b ∉ T \/ b ∈ H.*2 -> cache_rep c' V H T) /\
      (b ∈ T -> b ∉ H.*2 -> cache_rep c' (delete b V) H (T ∖ {[b]}))) c;
  data_law c V H T bp b :
    cache_rep c V H T -> (bp, b) ∈ H ->
    exists d, V !! b = Some d /\ wp (buf_data bp) (fun d' c' => d' = d /\ c' = c) c;
  set_data_law c V H T bp b d :
    cache_rep c V H T -> (bp, b) ∈ H -> block_ok bs d ->
    wp (set_buf_data bp d) (fun _ c' => cache_rep c' (<[b := d]> V) H ({[b]} ∪ T)) c;
  dirty_law c V H T bp b :
    cache_rep c V H T -> (bp, b) ∈ H -> wp (mark_dirty bp) (fun _ c' => cache_rep c' V H (T ∖ {[b]})) c;
  clean_law c V H T bp b :
    cache_rep c V H T -> (bp, b) ∈ H -> wp (mark_clean bp) (fun _ c' => cache_rep c' V H ({[b]} ∪ T)) c;
  dev_law c V H T bp b :
    cache_rep c V H T -> (bp, b) ∈ H -> wp (buf_dev bp) (fun r c' => r = dev /\ c' = c) c;
  change_law c V H T n :
    Z.abs n <= 1 ->
    cache_rep c V H T -> wp (blocks_change dev n) (fun _ c' => cache_rep c' V H T) c;
  size_law c V H T :
    cache_rep c V H T -> wp fs_block_size (fun r c' => r = bs /\ c' = c) c;
}.
