(* ===== verification/Cache.v ===== *)
(** * The buffer cache (lib/libminixfs/cache.c)

    The buffers of a file system: an array, whose elements are linked in chains
    by the hash of their block number, and in a list of those not in use, with the least recently
    used one in front. A pointer to a buffer is its index. The driver of the disk, the
    memory of the process and the secondary cache of the memory server are the interface [CacheHost];
    [fs_sync] is the call back into the file system. *)

From S2P Require Import Prelude KTypes BufCache.
#[local] Open Scope Z_scope.

(** ** Constants *)

Definition PAGE_SIZE : Z := 4096.
Definition NR_IOREQS : Z := 64.
Definition NO_DEVICE : Z := 0.          (* NO_DEV *)
Definition DEV_RAM : Z := 0x0100.
Definition ONE_SHOT : Z := 0x80.
Definition VMMC_DIRTY : Z := 0x02.
Definition VMMC_EVICTED : Z := 0x04.
Definition VMMC_BLOCK_LOCKED : Z := 0x08.
Definition END_OF_FILE : Z := -104.
Definition BANDKB : Z := 10 * 1024.
Definition i8 (z : Z) : Z := (z + 128) `mod` 256 - 128.

Inductive rw_flag := READING | WRITING.

(** ** Data *)

Record buf := mk_buf {
  data : option (list Z);
  lmfs_next : option nat;
  lmfs_prev : option nat;
  lmfs_hash : option nat;
  lmfs_blocknr : Z;
  lmfs_dev : Z;
  lmfs_count : Z;
  lmfs_needsetcache : Z;
  lmfs_bytes : Z;
  lmfs_flags : Z;
  lmfs_inode : Z;
  lmfs_inode_offset : Z;
}.
Definition set_data (v : option (list Z)) (b : buf) : buf :=
  mk_buf v (lmfs_next b) (lmfs_prev b) (lmfs_hash b) (lmfs_blocknr b) (lmfs_dev b) (lmfs_count b) (lmfs_needsetcache b)
    (lmfs_bytes b) (lmfs_flags b) (lmfs_inode b) (lmfs_inode_offset b).
Definition set_next (v : option nat) (b : buf) : buf :=
  mk_buf (data b) v (lmfs_prev b) (lmfs_hash b) (lmfs_blocknr b) (lmfs_dev b) (lmfs_count b) (lmfs_needsetcache b)
    (lmfs_bytes b) (lmfs_flags b) (lmfs_inode b) (lmfs_inode_offset b).
Definition set_prev (v : option nat) (b : buf) : buf :=
  mk_buf (data b) (lmfs_next b) v (lmfs_hash b) (lmfs_blocknr b) (lmfs_dev b) (lmfs_count b) (lmfs_needsetcache b)
    (lmfs_bytes b) (lmfs_flags b) (lmfs_inode b) (lmfs_inode_offset b).
Definition set_hash (v : option nat) (b : buf) : buf :=
  mk_buf (data b) (lmfs_next b) (lmfs_prev b) v (lmfs_blocknr b) (lmfs_dev b) (lmfs_count b) (lmfs_needsetcache b)
    (lmfs_bytes b) (lmfs_flags b) (lmfs_inode b) (lmfs_inode_offset b).
Definition set_blocknr (v : Z) (b : buf) : buf :=
  mk_buf (data b) (lmfs_next b) (lmfs_prev b) (lmfs_hash b) v (lmfs_dev b) (lmfs_count b) (lmfs_needsetcache b)
    (lmfs_bytes b) (lmfs_flags b) (lmfs_inode b) (lmfs_inode_offset b).
Definition set_dev (v : Z) (b : buf) : buf :=
  mk_buf (data b) (lmfs_next b) (lmfs_prev b) (lmfs_hash b) (lmfs_blocknr b) v (lmfs_count b) (lmfs_needsetcache b)
    (lmfs_bytes b) (lmfs_flags b) (lmfs_inode b) (lmfs_inode_offset b).
Definition set_count (v : Z) (b : buf) : buf :=
  mk_buf (data b) (lmfs_next b) (lmfs_prev b) (lmfs_hash b) (lmfs_blocknr b) (lmfs_dev b) v (lmfs_needsetcache b)
    (lmfs_bytes b) (lmfs_flags b) (lmfs_inode b) (lmfs_inode_offset b).
Definition set_needsetcache (v : Z) (b : buf) : buf :=
  mk_buf (data b) (lmfs_next b) (lmfs_prev b) (lmfs_hash b) (lmfs_blocknr b) (lmfs_dev b) (lmfs_count b) v
    (lmfs_bytes b) (lmfs_flags b) (lmfs_inode b) (lmfs_inode_offset b).
Definition set_bytes (v : Z) (b : buf) : buf :=
  mk_buf (data b) (lmfs_next b) (lmfs_prev b) (lmfs_hash b) (lmfs_blocknr b) (lmfs_dev b) (lmfs_count b) (lmfs_needsetcache b)
    v (lmfs_flags b) (lmfs_inode b) (lmfs_inode_offset b).
Definition set_flags (v : Z) (b : buf) : buf :=
  mk_buf (data b) (lmfs_next b) (lmfs_prev b) (lmfs_hash b) (lmfs_blocknr b) (lmfs_dev b) (lmfs_count b) (lmfs_needsetcache b)
    (lmfs_bytes b) v (lmfs_inode b) (lmfs_inode_offset b).
Definition set_inode (ino off : Z) (b : buf) : buf :=
  mk_buf (data b) (lmfs_next b) (lmfs_prev b) (lmfs_hash b) (lmfs_blocknr b) (lmfs_dev b) (lmfs_count b) (lmfs_needsetcache b)
    (lmfs_bytes b) (lmfs_flags b) ino off.

(** What [calloc] leaves in an element of the array. *)
Definition zero_buf : buf := mk_buf None None None None 0 0 0 0 0 0 0 0.

(** The services that the cache calls: the driver of the disk, memory, the
    memory server, and the numbers of blocks of the file system. *)
Class CacheHost (D : Type) := {
  bdev_read : Z -> Z -> Z -> M D (Z * list Z);                 (* device, position, bytes *)
  bdev_gather : Z -> Z -> list Z -> M D (Z * list Z);          (* the sizes of the pieces *)
  bdev_scatter : Z -> Z -> list (list Z) -> M D Z;
  mmap_anon : Z -> M D (option (list Z));
  calloc_fits : Z -> M D bool;
  vm_info_stats : M D (option (Z * Z * Z));                     (* free and cached pages, page size *)
  vm_map_cacheblock : Z -> Z -> Z -> Z -> Z -> M D (option (list Z));
  vm_set_cacheblock : Z -> Z -> Z -> Z -> Z -> M D ecode;
  vm_clear_cache : Z -> M D unit;
  fs_blockstats : M D (Z * Z);                                  (* blocks, free blocks *)
}.

Section cache.
Context {D : Type} `{CacheHost D}.

Record cache := mk_cache {
  bufs : list buf;
  buf_hash : list (option nat);
  front : option nat;
  rear : option nat;
  bufs_in_use : Z;
  block_size : Z;      (* fs_block_size *)
  rdwt_err : Z;
  bitdelta : Z;
  vmcache : Z;
  may_use_vmcache : Z;
  host : D;
}.
Definition with_bufs (v : list buf) (c : cache) : cache :=
  mk_cache v (buf_hash c) (front c) (rear c) (bufs_in_use c) (block_size c) (rdwt_err c) (bitdelta c) (vmcache c) (may_use_vmcache c) (host c).
Definition with_hash (v : list (option nat)) (c : cache) : cache :=
  mk_cache (bufs c) v (front c) (rear c) (bufs_in_use c) (block_size c) (rdwt_err c) (bitdelta c) (vmcache c) (may_use_vmcache c) (host c).
Definition with_front (v : option nat) (c : cache) : cache :=
  mk_cache (bufs c) (buf_hash c) v (rear c) (bufs_in_use c) (block_size c) (rdwt_err c) (bitdelta c) (vmcache c) (may_use_vmcache c) (host c).
Definition with_rear (v : option nat) (c : cache) : cache :=
  mk_cache (bufs c) (buf_hash c) (front c) v (bufs_in_use c) (block_size c) (rdwt_err c) (bitdelta c) (vmcache c) (may_use_vmcache c) (host c).
Definition with_in_use (v : Z) (c : cache) : cache :=
  mk_cache (bufs c) (buf_hash c) (front c) (rear c) v (block_size c) (rdwt_err c) (bitdelta c) (vmcache c) (may_use_vmcache c) (host c).
Definition with_block_size (v : Z) (c : cache) : cache :=
  mk_cache (bufs c) (buf_hash c) (front c) (rear c) (bufs_in_use c) v (rdwt_err c) (bitdelta c) (vmcache c) (may_use_vmcache c) (host c).
Definition with_rdwt_err (v : Z) (c : cache) : cache :=
  mk_cache (bufs c) (buf_hash c) (front c) (rear c) (bufs_in_use c) (block_size c) v (bitdelta c) (vmcache c) (may_use_vmcache c) (host c).
Definition with_bitdelta (v : Z) (c : cache) : cache :=
  mk_cache (bufs c) (buf_hash c) (front c) (rear c) (bufs_in_use c) (block_size c) (rdwt_err c) v (vmcache c) (may_use_vmcache c) (host c).
Definition with_vmcache (v : Z) (c : cache) : cache :=
  mk_cache (bufs c) (buf_hash c) (front c) (rear c) (bufs_in_use c) (block_size c) (rdwt_err c) (bitdelta c) v (may_use_vmcache c) (host c).
Definition with_may_use (v : Z) (c : cache) : cache :=
  mk_cache (bufs c) (buf_hash c) (front c) (rear c) (bufs_in_use c) (block_size c) (rdwt_err c) (bitdelta c) (vmcache c) v (host c).
Definition with_host (v : D) (c : cache) : cache :=
  mk_cache (bufs c) (buf_hash c) (front c) (rear c) (bufs_in_use c) (block_size c) (rdwt_err c) (bitdelta c) (vmcache c) (may_use_vmcache c) v.

Notation CM := (M cache).

Definition nr_bufs (c : cache) : Z := Z.of_nat (length (bufs c)).
Definition BUFHASH (c : cache) (b : Z) : Z := b `mod` nr_bufs c.

Definition getb (bp : nat) : CM buf := l ← gets bufs; deref (l !! bp).
Definition updb (bp : nat) (f : buf -> buf) : CM unit :=
  b ← getb bp; modify (fun c => with_bufs (<[bp := f b]> (bufs c)) c).
Definition hosted {A} (m : M D A) : CM A :=
  d ← gets host;
  match m d with
  | Ok (a, d') => modify (with_host d');; mret a
  | Err f => fail f
  end.

(** ** Flags and small operations *)

Definition lmfs_markdirty (bp : nat) : CM unit := updb bp (fun b => set_flags (setf (lmfs_flags b) VMMC_DIRTY) b).
Definition lmfs_markclean (bp : nat) : CM unit := updb bp (fun b => set_flags (clearf (lmfs_flags b) VMMC_DIRTY) b).
Definition isclean (b : buf) : bool := negb (anyset (lmfs_flags b) VMMC_DIRTY).
Definition lmfs_dev_of (bp : nat) : CM Z := b ← getb bp; mret (lmfs_dev b).

Definition raisecount (bp : nat) : CM unit :=
  b ← getb bp;
  c_assert (0 <=? lmfs_count b);;
  updb bp (set_count (i8 (lmfs_count b + 1)));;
  b ← getb bp;
  when (lmfs_count b =? 1) (modify (fun c => with_in_use (u32 (bufs_in_use c + 1)) c));;
  n ← gets bufs_in_use;
  c_assert (0 <? n).

Definition lowercount (bp : nat) : CM unit :=
  n ← gets bufs_in_use;
  c_assert (0 <? n);;
  b ← getb bp;
  c_assert (0 <? lmfs_count b);;
  updb bp (set_count (i8 (lmfs_count b - 1)));;
  b ← getb bp;
  when (lmfs_count b =? 0) (modify (fun c => with_in_use (u32 (bufs_in_use c - 1)) c)).

(** A buffer is removed from the list of those not in use. *)
Definition rm_lru (bp : nat) : CM unit :=
  b ← getb bp;
  let next_ptr := lmfs_next b in
  let prev_ptr := lmfs_prev b in
  match prev_ptr with
  | Some p => updb p (set_next next_ptr)
  | None => modify (with_front next_ptr)
  end;;
  match next_ptr with
  | Some n => updb n (set_prev prev_ptr)
  | None => modify (with_rear prev_ptr)
  end.

(** ** Transfers *)

(** The sizes, or the contents, of the pages of a block. *)
Fixpoint page_sizes (fuel : nat) (blockrem : Z) : list Z :=
  match fuel with
  | O => []
  | S fuel' =>
      if negb (0 <? blockrem) then []
      else
        let chunk := if PAGE_SIZE <=? blockrem then PAGE_SIZE else blockrem in
        chunk :: page_sizes fuel' (blockrem - chunk)
  end.
Fixpoint pages (n : nat) (d : list Z) (blockrem : Z) : list (list Z) :=
  match n with
  | O => []
  | S n' =>
      let chunk := if blockrem <? PAGE_SIZE then blockrem else PAGE_SIZE in
      take (Z.to_nat chunk) d :: pages n' (drop (Z.to_nat PAGE_SIZE) d) (blockrem - chunk)
  end.

Definition read_block (bp : nat) : CM unit :=
  b ← getb bp;
  let dev := lmfs_dev b in
  c_assert (negb (dev =? NO_DEVICE));;
  bs ← gets block_size;
  c_assert (lmfs_bytes b =? bs);;
  c_assert (0 <? bs);;
  let pos := lmfs_blocknr b * bs in
  r ← (if PAGE_SIZE <? bs then hosted (bdev_gather dev pos (page_sizes (Z.to_nat bs) bs)) else hosted (bdev_read dev pos bs));
  (* what was read is in the buffer, whatever the result *)
  updb bp (set_data (Some (r.2)));;
  let failed :=
    if r.1 <? 0 then Some (r.1) else if negb (r.1 =? bs) then Some END_OF_FILE else None in
  match failed with
  | Some e => updb bp (set_dev NO_DEVICE);; modify (with_rdwt_err e)
  | None => skip
  end.

(** *** Sorting (Shell) *)

Fixpoint gap_start (fuel : nat) (gap size : Z) : Z :=
  match fuel with
  | O => gap
  | S fuel' => let gap := 3 * gap + 1 in if gap <=? size then gap_start fuel' gap size else gap
  end.

Definition blocknr_at (q : list nat) (i : Z) : CM Z :=
  bp ← lift (aget q i); b ← getb bp; mret (lmfs_blocknr b).

Fixpoint sift (fuel : nat) (q : list nat) (gap i : Z) : CM (list nat) :=
  match fuel with
  | O => fail OutOfFuel
  | S fuel' =>
      if negb (0 <=? i) then mret q
      else
        b1 ← blocknr_at q i;
        b2 ← blocknr_at q (i + gap);
        if negb (b2 <? b1) then mret q
        else
          x ← lift (aget q i);
          y ← lift (aget q (i + gap));
          q ← lift (aset q i y);
          q ← lift (aset q (i + gap) x);
          sift fuel' q gap (i - gap)
  end.
Fixpoint sift_all (n : nat) (q : list nat) (gap j : Z) : CM (list nat) :=
  match n with
  | O => mret q
  | S n' => q ← sift (S (Z.to_nat j)) q gap (j - gap); sift_all n' q gap (j + 1)
  end.
Fixpoint shell (fuel : nat) (q : list nat) (gap : Z) : CM (list nat) :=
  match fuel with
  | O => fail OutOfFuel
  | S fuel' =>
      if gap =? 1 then mret q
      else
        let gap := Z.quot gap 3 in
        q ← sift_all (Z.to_nat (Z.of_nat (length q) - gap)) q gap gap;
        shell fuel' q gap
  end.

(** *** The request *)

(** The buffers from the front of the queue that go into one request: consecutive
    blocks, as many as there is room for, and their pages. *)
Fixpoint collect (q : list nat) (first nblocks niovecs iov_per_block bs : Z) : CM (list (list Z)) :=
  match q with
  | [] => mret []
  | bp :: q' =>
      b ← getb bp;
      if negb (lmfs_blocknr b =? u32 (first + nblocks)) then mret []
      else if NR_IOREQS - iov_per_block <=? niovecs then mret []
      else
        d ← deref (data b);
        l ← collect q' first (nblocks + 1) (niovecs + iov_per_block) iov_per_block bs;
        mret (pages (Z.to_nat iov_per_block) d bs ++ l)
  end.

(** The results of a request for the first [n] buffers; the number of those done. *)
Fixpoint harvest (put : nat -> CM unit) (n : nat) (q : list nat) (dev r i bs : Z) (f : rw_flag) : CM Z :=
  match n, q with
  | S n', bp :: q' =>
      if r <? bs then when (i =? 0) (updb bp (set_dev NO_DEVICE));; mret i
      else
        match f with
        | READING => updb bp (set_dev dev);; put bp
        | WRITING => lmfs_markclean bp
        end;;
        harvest put n' q' dev (r - bs) (i + 1) bs f
  | _, _ => mret i
  end.

(** What was read goes into the buffers of the request. *)
Fixpoint store (q : list nat) (n : nat) (l : list Z) (bs : Z) : CM unit :=
  match n, q with
  | S n', bp :: q' => updb bp (set_data (Some (take (Z.to_nat bs) l)));; store q' n' (drop (Z.to_nat bs) l) bs
  | _, _ => skip
  end.

Fixpoint put_all (put : nat -> CM unit) (q : list nat) : CM unit :=
  match q with [] => skip | bp :: q' => put bp;; put_all put q' end.

Fixpoint rw_loop (put : nat -> CM unit) (fuel : nat) (dev : Z) (q : list nat) (f : rw_flag) : CM unit :=
  match fuel with
  | O => fail OutOfFuel
  | S fuel' =>
      match q with
      | [] => skip
      | bp :: _ =>
          bs ← gets block_size;
          let iov_per_block := (bs + PAGE_SIZE - 1) / PAGE_SIZE in
          b ← getb bp;
          l ← collect q (lmfs_blocknr b) 0 0 iov_per_block bs;
          let nblocks := (length l / Z.to_nat iov_per_block)%nat in
          c_assert (0 <? Z.of_nat nblocks);;
          let pos := lmfs_blocknr b * bs in
          r ← match f with
              | READING => rd ← hosted (bdev_gather dev pos (Z.of_nat ∘ length <$> l)); store q nblocks (rd.2) bs;; mret (rd.1)
              | WRITING => hosted (bdev_scatter dev pos l)
              end;
          i ← harvest put nblocks q dev r 0 bs f;
          let q := drop (Z.to_nat i) q in
          match f with
          | READING => put_all put q
          | WRITING => if i =? 0 then skip else rw_loop put fuel' dev q f
          end
      end
  end.

Fixpoint all_held (q : list nat) : CM unit :=
  match q with [] => skip | bp :: q' => b ← getb bp; c_assert (0 <? lmfs_count b);; all_held q' end.

(** ** Putting a block back *)

(** The end of the list that a buffer joins. *)
Definition lru_front (bp : nat) : CM unit :=
  f ← gets front;
  updb bp (fun b => set_next f (set_prev None b));;
  match f with
  | None => modify (with_rear (Some bp))
  | Some p => updb p (set_prev (Some bp))
  end;;
  modify (with_front (Some bp)).
Definition lru_rear (bp : nat) : CM unit :=
  r ← gets rear;
  updb bp (fun b => set_next None (set_prev r b));;
  match r with
  | None => modify (with_front (Some bp))
  | Some p => updb p (set_next (Some bp))
  end;;
  modify (with_rear (Some bp)).

Definition lmfs_put_block (bp : nat) (block_type : Z) : CM unit :=
  b ← getb bp;
  bs ← gets block_size;
  let dev := lmfs_dev b in
  let dev_off := lmfs_blocknr b * bs in
  lowercount bp;;
  b ← getb bp;
  if negb (lmfs_count b =? 0) then skip
  else
    (if (dev =? DEV_RAM) || anyset block_type ONE_SHOT then lru_front bp else lru_rear bp);;
    b ← getb bp;
    c_assert (anyset (lmfs_flags b) VMMC_BLOCK_LOCKED);;
    updb bp (fun b => set_flags (clearf (lmfs_flags b) VMMC_BLOCK_LOCKED) b);;
    v ← gets vmcache;
    b ← getb bp;
    when (negb (v =? 0) && negb (lmfs_needsetcache b =? 0) && negb (dev =? NO_DEVICE))
      (r ← hosted (vm_set_cacheblock dev dev_off (lmfs_inode b) (lmfs_inode_offset b) bs);
       when (negb (bool_decide (r = OK)))
         (if bool_decide (r = ENOSYS) then modify (with_vmcache 0) else fail Panic));;
    updb bp (set_needsetcache 0).

(** ** Scattered transfers and flushing *)

Definition lmfs_rw_scattered (dev : Z) (bufq : list nat) (f : rw_flag) : CM unit :=
  start_in_use ← gets bufs_in_use;
  match bufq with
  | [] => skip
  | _ =>
      match f with
      | READING => all_held bufq;; c_assert (Z.of_nat (length bufq) <=? start_in_use)
      | WRITING => skip
      end;;
      c_assert (negb (dev =? NO_DEVICE));;
      bs ← gets block_size;
      c_assert (0 <? bs);;
      c_assert ((bs + PAGE_SIZE - 1) / PAGE_SIZE <? NR_IOREQS);;
      let size := Z.of_nat (length bufq) in
      q ← shell (S (length bufq)) bufq (gap_start (S (length bufq)) 1 size);
      rw_loop (fun bp => lmfs_put_block bp PARTIAL_DATA_BLOCK) (S (length q)) dev q f;;
      match f with
      | READING => n ← gets bufs_in_use; c_assert (start_in_use - size =? n)
      | WRITING => skip
      end
  end.

Definition indices (c : cache) : list nat := seq 0 (length (bufs c)).
Definition dirty_on (dev : Z) (l : list buf) (i : nat) : bool :=
  match l !! i with Some b => negb (isclean b) && (lmfs_dev b =? dev) | None => false end.
Definition flushall (dev : Z) : CM unit :=
  l ← gets bufs;
  lmfs_rw_scattered dev (filter (fun i => dirty_on dev l i = true) (seq 0 (length l))) WRITING.

Definition lmfs_flushall : CM unit :=
  l ← gets indices;
  foreach l (fun bp => b ← getb bp; when (negb (lmfs_dev b =? NO_DEVICE) && negb (isclean b)) (flushall (lmfs_dev b))).

(** ** Getting a block *)

Definition freeblock (bp : nat) : CM unit :=
  b ← getb bp;
  c_assert (lmfs_count b =? 0);;
  when (negb (lmfs_dev b =? NO_DEVICE))
    (when (negb (isclean b)) (flushall (lmfs_dev b));;
     bs ← gets block_size;
     c_assert (lmfs_bytes b =? bs);;
     updb bp (set_dev NO_DEVICE));;
  lmfs_markclean bp;;
  b ← getb bp;
  if 0 <? lmfs_bytes b then
    c_assert (bool_decide (is_Some (data b)));;
    updb bp (fun b => set_data None (set_bytes 0 b))
  else c_assert (bool_decide (data b = None)).

Definition free_unused_blocks : CM unit :=
  l ← gets indices;
  foreach l (fun bp => b ← getb bp; when ((0 <? lmfs_bytes b) && (lmfs_count b =? 0)) (freeblock bp)).

Definition lmfs_alloc_block (bp : nat) : CM unit :=
  b ← getb bp;
  c_assert (bool_decide (data b = None));;
  c_assert (lmfs_bytes b =? 0);;
  bs ← gets block_size;
  d ← hosted (mmap_anon bs);
  d ← match d with
      | Some d => mret d
      | None =>
          free_unused_blocks;;
          d ← hosted (mmap_anon bs);
          match d with Some d => mret d | None => fail Panic end
      end;
  updb bp (fun b => set_needsetcache 1 (set_bytes bs (set_data (Some d) b))).

Inductive found := NOT_FOUND | FOUND (bp : nat) | EVICTED (bp : nat).

(** The search of a hash chain. *)
Fixpoint hash_search (fuel : nat) (dev block : Z) (bp : option nat) : CM found :=
  match fuel with
  | O => fail OutOfFuel
  | S fuel' =>
      match bp with
      | None => mret NOT_FOUND
      | Some bp =>
          b ← getb bp;
          if (lmfs_blocknr b =? block) && (lmfs_dev b =? dev) then
            mret (if anyset (lmfs_flags b) VMMC_EVICTED then EVICTED bp else FOUND bp)
          else hash_search fuel' dev block (lmfs_hash b)
      end
  end.

(** A buffer is removed from its chain: after [prev_ptr], which is not the buffer. *)
Fixpoint hash_unlink (fuel : nat) (bp : nat) (prev_ptr : option nat) : CM unit :=
  match fuel with
  | O => fail OutOfFuel
  | S fuel' =>
      p ← deref prev_ptr;
      pb ← getb p;
      match lmfs_hash pb with
      | None => skip
      | Some h =>
          if bool_decide (h = bp) then b ← getb bp; updb p (set_hash (lmfs_hash b))
          else hash_unlink fuel' bp (Some h)
      end
  end.

Definition hash_get (i : Z) : CM (option nat) := l ← gets buf_hash; lift (aget l i).
Definition hash_set (i : Z) (v : option nat) : CM unit :=
  l ← gets buf_hash; l ← lift (aset l i v); modify (with_hash l).

Definition hash_remove (bp : nat) : CM unit :=
  b ← getb bp;
  n ← gets nr_bufs;
  let i := lmfs_blocknr b `mod` n in
  prev_ptr ← hash_get i;
  if bool_decide (prev_ptr = Some bp) then hash_set i (lmfs_hash b)
  else hash_unlink (S (Z.to_nat n)) bp prev_ptr.
Definition hash_insert (bp : nat) : CM unit :=
  b ← getb bp;
  n ← gets nr_bufs;
  let i := lmfs_blocknr b `mod` n in
  h ← hash_get i;
  updb bp (set_hash h);;
  hash_set i (Some bp).

(** A block that is in the cache. *)
Definition get_found (bp : nat) (dev ino ino_off : Z) : CM unit :=
  b ← getb bp;
  when (lmfs_count b =? 0)
    (rm_lru bp;;
     c_assert (lmfs_needsetcache b =? 0);;
     c_assert (negb (anyset (lmfs_flags b) VMMC_BLOCK_LOCKED));;
     updb bp (fun b => set_flags (setf (lmfs_flags b) VMMC_BLOCK_LOCKED) b));;
  raisecount bp;;
  b ← getb bp;
  bs ← gets block_size;
  c_assert (lmfs_bytes b =? bs);;
  c_assert (lmfs_dev b =? dev);;
  c_assert (negb (lmfs_dev b =? NO_DEVICE));;
  c_assert (anyset (lmfs_flags b) VMMC_BLOCK_LOCKED);;
  c_assert (bool_decide (is_Some (data b)));;
  when (negb (ino =? VMC_NO_INODE))
    (when ((lmfs_inode b =? VMC_NO_INODE) || negb (lmfs_inode b =? ino) || negb (lmfs_inode_offset b =? ino_off))
       (updb bp (fun b => set_needsetcache 1 (set_inode ino ino_off b)))).

(** A free buffer is taken for a block. *)
Definition get_new (bp : nat) (dev block ino ino_off : Z) : CM unit :=
  rm_lru bp;;
  hash_remove bp;;
  freeblock bp;;
  updb bp (fun b => set_blocknr block (set_dev dev (set_needsetcache 0 (set_flags VMMC_BLOCK_LOCKED (set_inode ino ino_off b)))));;
  b ← getb bp;
  c_assert (lmfs_count b =? 0);;
  raisecount bp;;
  hash_insert bp;;
  c_assert (negb (dev =? NO_DEVICE));;
  b ← getb bp;
  c_assert (bool_decide (data b = None));;
  c_assert (lmfs_bytes b =? 0).

Definition lmfs_get_block_ino (dev block : Z) (only_search : get_mode) (ino ino_off : Z) : CM nat :=
  n ← gets nr_bufs;
  bs ← gets block_size;
  c_assert (0 <? n);;
  c_assert (0 <? bs);;
  c_assert (negb (dev =? NO_DEVICE));;
  h ← hash_get (block `mod` n);
  r ← hash_search (S (Z.to_nat n)) dev block h;
  match r with
  | FOUND bp => get_found bp dev ino ino_off;; mret bp
  | _ =>
      bp ← match r with
           | EVICTED bp =>
               b ← getb bp;
               c_assert (lmfs_count b =? 0);;
               c_assert (negb (anyset (lmfs_flags b) VMMC_BLOCK_LOCKED));;
               c_assert (isclean b);;
               updb bp (fun b => set_data None (set_bytes 0 (set_dev NO_DEVICE b)));;
               mret bp
           | _ => f ← gets front; match f with Some bp => mret bp | None => fail Panic end
           end;
      get_new bp dev block ino ino_off;;
      v ← gets vmcache;
      m ← (if negb (v =? 0) then hosted (vm_map_cacheblock dev (block * bs) ino ino_off bs) else mret None);
      match m with
      | Some d =>
          updb bp (fun b => set_bytes bs (set_data (Some d) b));;
          b ← getb bp;
          c_assert (lmfs_needsetcache b =? 0);;
          mret bp
      | None =>
          updb bp (set_data None);;
          lmfs_alloc_block bp;;
          match only_search with
          | PREFETCH => updb bp (set_dev NO_DEVICE)
          | NORMAL => read_block bp
          | NO_READ => skip
          end;;
          mret bp
      end
  end.

(** ** Invalidating, and the size of the pool *)

Definition lmfs_invalidate (device : Z) : CM unit :=
  l ← gets indices;
  foreach l (fun bp =>
    b ← getb bp;
    when (lmfs_dev b =? device)
      (c_assert (bool_decide (is_Some (data b)));;
       c_assert (0 <? lmfs_bytes b);;
       updb bp (fun b => set_data None (set_bytes 0 (set_dev NO_DEVICE b)))));;
  hosted (vm_clear_cache device).

(** The call back into the file system. *)
Variable fs_sync : CM unit.

(** The buffer [i] of a new pool of [n]. *)
Definition new_buf (n i : nat) : buf :=
  let next := if (S i <? n)%nat then Some (S i) else None in
  set_hash next (set_next next (set_prev (match i with O => None | S p => Some p end) zero_buf)).

Definition lmfs_buf_pool (new_nr_bufs : Z) : CM unit :=
  c_assert (Z.of_nat MINBUFS <=? new_nr_bufs);;
  n ← gets nr_bufs;
  when (0 <? n)
    (fs_sync;;
     l ← gets bufs;
     foreach l (fun b => when (bool_decide (is_Some (data b))) (c_assert (0 <? lmfs_bytes b))));;
  ok ← hosted (calloc_fits new_nr_bufs);
  if negb ok then fail Panic
  else
    ok ← hosted (calloc_fits new_nr_bufs);
    if negb ok then fail Panic
    else
      let k := Z.to_nat new_nr_bufs in
      modify (fun c => with_front (Some 0%nat) (with_rear (Some (k - 1)%nat) (with_in_use 0
        (with_hash (<[0%nat := Some 0%nat]> (replicate k None)) (with_bufs (new_buf k <$> seq 0 k) c))))).

Definition cache_resize (blocksize bufs' : Z) : CM unit :=
  c_assert (0 <? blocksize);;
  c_assert (Z.of_nat MINBUFS <=? bufs');;
  l ← gets bufs;
  foreach l (fun b => if negb (lmfs_count b =? 0) then fail Panic else skip);;
  lmfs_buf_pool bufs';;
  modify (with_block_size blocksize).

(** The square root (lib/libsys/sqrt_approx.c), from the highest bit down. *)
Fixpoint sqrt_bits (n : nat) (inp v : Z) : Z :=
  match n with
  | O => v
  | S n' =>
      let m := u32 (Z.lor v (Z.shiftl 1 (Z.of_nat n'))) in
      sqrt_bits n' inp (if u32 (m * m) <=? inp then m else v)
  end.
Definition sqrt_approx (inp : Z) : Z := sqrt_bits 16 inp 0.

Definition u64 (z : Z) : Z := z `mod` 18446744073709551616.

Definition fs_bufs_heuristic (minbufs btotal bfree blocksize : Z) : CM Z :=
  let bused := u64 (btotal - bfree) in
  v ← hosted vm_info_stats;
  match v with
  | None => mret 1024
  | Some (vfree, vcached, pagesize) =>
      let kbytes_remain_mem := u32 (u64 (u32 (vfree + vcached) * pagesize) / 1024) in
      let kbytes_used_fs := u32 (u64 (bused * blocksize) / 1024) in
      let kbytes_total_fs := u32 (u64 (btotal * blocksize) / 1024) in
      let kb_fsmax := u32 (sqrt_approx kbytes_used_fs * 40) in
      let kb_fsmax := Z.min kb_fsmax (kbytes_total_fs / 2) in
      let kbcache := Z.min (kbytes_remain_mem / 10) kb_fsmax in
      let bufs := i32 (u32 (kbcache * 1024) / blocksize) in
      mret (if bufs <? minbufs then minbufs else bufs)
  end.

Definition cache_heuristic_check : CM unit :=
  st ← hosted fs_blockstats;
  bs ← gets block_size;
  bufs ← fs_bufs_heuristic 10 (u32 (st.1)) (st.2) bs;
  n ← gets nr_bufs;
  let d := i32 (u32 (bufs - n)) in
  d ← (if d <? 0 then lift (int_ok (- d)) else mret d);
  d100 ← lift (int_ok (d * 100));
  (* the division is one of unsigned numbers *)
  when (10 <? d100 / n) (cache_resize bs bufs).

Definition lmfs_cache_reevaluate (dev : Z) : CM unit :=
  n ← gets bufs_in_use;
  when ((n =? 0) && negb (dev =? NO_DEVICE)) cache_heuristic_check.

Definition lmfs_blockschange (dev delta : Z) : CM unit :=
  b ← gets bitdelta;
  b ← lift (int_ok (b + delta));
  modify (with_bitdelta b);;
  bs ← gets block_size;
  k ← lift (int_ok (b * bs));
  when ((BANDKB <? Z.quot k 1024) || (Z.quot k 1024 <? - BANDKB))
    (lmfs_cache_reevaluate dev;; modify (with_bitdelta 0)).

Definition lmfs_set_blocksize (new_block_size : Z) : CM unit :=
  cache_resize new_block_size (Z.of_nat MINBUFS);;
  cache_heuristic_check;;
  modify (with_vmcache 0);;
  m ← gets may_use_vmcache;
  when (negb (m =? 0) && (Z.rem new_block_size PAGE_SIZE =? 0)) (modify (with_vmcache 1)).

(** ** The interface *)

Definition buf_contents (bp : nat) : CM (list Z) := b ← getb bp; deref (data b).
Definition set_buf_contents (bp : nat) (d : list Z) : CM unit :=
  b ← getb bp; _ ← deref (data b); updb bp (set_data (Some d)).

Instance lmfs_cache : BufCache cache := {
  get_block_ino := lmfs_get_block_ino;
  put_buf := lmfs_put_block;
  mark_dirty := lmfs_markdirty;
  mark_clean := lmfs_markclean;
  buf_dev := lmfs_dev_of;
  buf_data := buf_contents;
  set_buf_data := set_buf_contents;
  blocks_change := lmfs_blockschange;
  fs_block_size := gets block_size;
}.
End cache.
