(* ===== verification/CacheView.v ===== *)
(** * The buffer cache as lists

    The pointers between the buffers as lists: those not in use in their order, the
    chains of the hash table, and the rest of each buffer. What each
    small operation does to the three. *)

From S2P Require Import Prelude Links KTypes BufCache Cache.
#[local] Open Scope Z_scope.

(** ** Doubly linked lists *)

Section dll.
Context {A : Type} `{EqDecision A}.
Implicit Types (nx pv : A -> option (option A)) (l : list A).

Definition dll nx pv (f r : option A) l : Prop := NoDup l /\ chain nx f l /\ chain pv r (reverse l).

Lemma last_reverse l : last (reverse l) = head l.
Proof. destruct l as [|x l]; [done|]. by rewrite reverse_cons, last_snoc. Qed.
Lemma head_reverse l : head (reverse l) = last l.
Proof. by rewrite <- last_reverse, reverse_involutive. Qed.

Lemma dll_links nx pv f r l1 x l2 : dll nx pv f r (l1 ++ x :: l2) -> nx x = Some (head l2) /\ pv x = Some (last l1).
Proof.
  intros (_ & Hn & Hp). split; [by eapply chain_app|]. rewrite reverse_app, reverse_cons, <- app_assoc in Hp. cbn in Hp.
  apply chain_app in Hp. by rewrite head_reverse in Hp.
Qed.

Lemma dll_ends nx pv f r l : dll nx pv f r l -> f = head l /\ r = last l.
Proof. intros (_ & Hn & Hp). split; [by eapply chain_head|]. rewrite <- head_reverse. by eapply chain_head. Qed.

Lemma dll_ext nx pv nx' pv' f r l : (forall x, x ∈ l -> nx' x = nx x /\ pv' x = pv x) -> dll nx pv f r l -> dll nx' pv' f r l.
Proof.
  intros He (Hnd & Hn & Hp). split; [done|]. split; (eapply chain_ext; [|done]); intros x Hx; apply He; [done|]. by apply elem_of_reverse.
Qed.

Lemma nodup_reverse l : NoDup l -> NoDup (reverse l).
Proof. by rewrite reverse_Permutation. Qed.

(** One chain after a node is taken out. *)
Lemma chain_remove nx nx' h l1 x l2 : chain nx h (l1 ++ x :: l2) -> NoDup (l1 ++ x :: l2) ->
  (forall y, y ∈ l1 ++ l2 -> nx' y = if decide (last l1 = Some y) then Some (head l2) else nx y) ->
  chain nx' (match last l1 with None => head l2 | Some _ => h end) (l1 ++ l2).
Proof.
  intros Hc Hnd He. apply NoDup_app in Hnd as (Hnd1 & Hdis & Hnd2). apply NoDup_cons in Hnd2 as [Hx Hnd2].
  assert (chain nx' (head l2) l2) as H2.
  { apply (chain_ext nx). { intros y Hy. rewrite He by (apply elem_of_app; by right). rewrite decide_False; [done|].
      intros E. apply last_Some_elem_of in E. apply (Hdis y E). by right. }
    change (l1 ++ x :: l2) with (l1 ++ ([x] ++ l2)) in Hc. rewrite app_assoc in Hc. by eapply chain_suffix. }
  pose proof (chain_splice nx nx' h l1 (x :: l2) l2 Hc Hnd1) as Hs. destruct l1 as [|y l1]; [exact H2|].
  rewrite bool_decide_eq_false_2 in Hs by done.
  destruct (last (y :: l1)) as [z|] eqn:El; [|by apply last_None in El]. apply Hs; [|exact H2].
  intros w Hw. rewrite He by (apply elem_of_app; by left). destruct (decide (Some z = Some w)) as [E|E];
    [by rewrite bool_decide_eq_true_2|by rewrite bool_decide_eq_false_2].
Qed.

Lemma dll_remove nx pv nx' pv' f r l1 x l2 : dll nx pv f r (l1 ++ x :: l2) ->
  (forall y, y ∈ l1 ++ l2 -> nx' y = (if decide (last l1 = Some y) then Some (head l2) else nx y) /\
                           pv' y = (if decide (head l2 = Some y) then Some (last l1) else pv y)) ->
  dll nx' pv' (match last l1 with None => head l2 | Some _ => f end) (match head l2 with None => last l1 | Some _ => r end) (l1 ++ l2).
Proof.
  intros (Hnd & Hn & Hp) He. split; [|split].
  - apply NoDup_app in Hnd as (? & Hdis & [_ ?]%NoDup_cons). apply NoDup_app. split; [done|]. split; [|done].
    intros y Hy Hy2. apply (Hdis y Hy). by right.
  - eapply chain_remove; [exact Hn|done|]. intros y Hy. by apply He.
  - rewrite reverse_app. rewrite reverse_app, reverse_cons, <- app_assoc in Hp. cbn [app] in Hp.
    rewrite <- head_reverse, <- (last_reverse l2). eapply chain_remove; [exact Hp| |].
    + apply (nodup_reverse (l1 ++ x :: l2)) in Hnd. by rewrite reverse_app, reverse_cons, <- app_assoc in Hnd.
    + intros y Hy. rewrite last_reverse, head_reverse. apply He. rewrite elem_of_app, !elem_of_reverse in Hy. apply elem_of_app. tauto.
Qed.

Lemma chain_push nx nx' h l x : chain nx h l -> nx' x = Some h -> (forall y, y ∈ l -> nx' y = nx y) -> chain nx' (Some x) (x :: l).
Proof. intros Hc Hx He. split; [done|]. exists h. split; [done|]. by eapply chain_ext. Qed.

Lemma chain_back nx nx' h l x : chain nx h l -> NoDup l -> x ∉ l -> nx' x = Some None ->
  (forall y, y ∈ l -> nx' y = if decide (last l = Some y) then Some (Some x) else nx y) ->
  chain nx' (match last l with None => Some x | Some _ => h end) (l ++ [x]).
Proof.
  intros Hc Hnd Hx Hxn He. destruct (last l) as [y|] eqn:El.
  - eapply (chain_snoc nx nx' h l y x); [done|done|done| |done|].
    + rewrite He, decide_True by (by apply last_Some_elem_of || done). done.
    + intros z Hz Hne. rewrite He, decide_False by (done || congruence). done.
  - apply last_None in El as ->. split; [done|]. by exists None.
Qed.

(** A node joins the front, or the back. *)
Lemma dll_push nx pv nx' pv' f r l x : dll nx pv f r l -> x ∉ l -> nx' x = Some f -> pv' x = Some None ->
  (forall y, y ∈ l -> nx' y = nx y /\ pv' y = if decide (head l = Some y) then Some (Some x) else pv y) ->
  dll nx' pv' (Some x) (match head l with None => Some x | Some _ => r end) (x :: l).
Proof.
  intros (Hnd & Hn & Hp) Hx Hxn Hxp He. split; [by constructor|]. split.
  - eapply chain_push; [exact Hn|done|]. intros y Hy. by apply He.
  - rewrite reverse_cons, <- last_reverse. apply (chain_back pv); [done|by apply nodup_reverse|by rewrite elem_of_reverse|done|].
    intros y Hy. rewrite last_reverse. apply He. by apply elem_of_reverse.
Qed.

Lemma dll_back nx pv nx' pv' f r l x : dll nx pv f r l -> x ∉ l -> nx' x = Some None -> pv' x = Some r ->
  (forall y, y ∈ l -> pv' y = pv y /\ nx' y = if decide (last l = Some y) then Some (Some x) else nx y) ->
  dll nx' pv' (match last l with None => Some x | Some _ => f end) (Some x) (l ++ [x]).
Proof.
  intros (Hnd & Hn & Hp) Hx Hxn Hxp He. split; [|split].
  - apply NoDup_app. split; [done|]. split; [|apply NoDup_singleton]. intros y Hy ->%list_elem_of_singleton. done.
  - apply (chain_back nx); [done..|]. intros y Hy. by apply He.
  - rewrite reverse_snoc. eapply chain_push; [exact Hp|done|]. intros y Hy. apply He. by apply elem_of_reverse.
Qed.
End dll.

(** ** The view *)

(** A buffer without its pointers. *)
Definition pay (b : buf) : buf := set_next None (set_prev None (set_hash None b)).

Section pay.
Context (b p : buf) (E : pay b = p).
Lemma pay_data : data b = data p. Proof using E. by subst p. Qed.
Lemma pay_blocknr : lmfs_blocknr b = lmfs_blocknr p. Proof using E. by subst p. Qed.
Lemma pay_dev : lmfs_dev b = lmfs_dev p. Proof using E. by subst p. Qed.
Lemma pay_count : lmfs_count b = lmfs_count p. Proof using E. by subst p. Qed.
Lemma pay_needsetcache : lmfs_needsetcache b = lmfs_needsetcache p. Proof using E. by subst p. Qed.
Lemma pay_bytes : lmfs_bytes b = lmfs_bytes p. Proof using E. by subst p. Qed.
Lemma pay_flags : lmfs_flags b = lmfs_flags p. Proof using E. by subst p. Qed.
Lemma pay_clean : isclean b = isclean p. Proof using E. by subst p. Qed.
End pay.

(** Fields of a buffer that was read are those of the view. *)
Ltac paid E :=
  rewrite ?(pay_data _ _ E), ?(pay_blocknr _ _ E), ?(pay_dev _ _ E), ?(pay_count _ _ E), ?(pay_needsetcache _ _ E),
    ?(pay_bytes _ _ E), ?(pay_flags _ _ E), ?(pay_clean _ _ E).

(** A change of a buffer that leaves its pointers alone. *)
Definition plain (f : buf -> buf) : Prop := forall b,
  pay (f b) = f (pay b) /\ lmfs_next (f b) = lmfs_next b /\ lmfs_prev (f b) = lmfs_prev b /\ lmfs_hash (f b) = lmfs_hash b.

Section view.
Context {D : Type} `{CacheHost D} (bs bd : Z).
Implicit Types (c : @cache D) (l : list nat) (ch : nat -> list nat) (ps : list buf) (u : Z) (d : D).

Definition nextp c (i : nat) : option (option nat) := lmfs_next <$> bufs c !! i.
Definition prevp c (i : nat) : option (option nat) := lmfs_prev <$> bufs c !! i.
Definition hashp c (i : nat) : option (option nat) := lmfs_hash <$> bufs c !! i.

(** The buffers not in use are [l] from the front to the rear, the chains [ch], the rest of the buffers [ps]. *)
Record view c l ch ps u d : Prop := {
  v_pay : pay <$> bufs c = ps;
  v_lru : dll (nextp c) (prevp c) (front c) (rear c) l;
  v_heads : length (buf_hash c) = length (bufs c);
  v_hash j : (j < length (bufs c))%nat -> exists h, buf_hash c !! j = Some h /\ chain (hashp c) h (ch j);
  v_nodup j : (j < length (bufs c))%nat -> NoDup (ch j);
  v_one j j' i : i ∈ ch j -> i ∈ ch j' -> j = j';
  v_in_use : bufs_in_use c = u;
  v_host : host c = d;
  v_size : block_size c = bs;
  v_vm : vmcache c = 0;
  v_delta : bitdelta c = bd;
}.

Lemma view_length c l ch ps u d : view c l ch ps u d -> length (bufs c) = length ps.
Proof using. intros Hv. rewrite <- (v_pay _ _ _ _ _ _ Hv). by rewrite length_fmap. Qed.

Lemma cview_lookup c l ch ps u d i p : view c l ch ps u d -> ps !! i = Some p -> exists b, bufs c !! i = Some b /\ pay b = p.
Proof using.
  intros Hv Hp. rewrite <- (v_pay _ _ _ _ _ _ Hv), list_lookup_fmap in Hp. destruct (bufs c !! i) as [b|]; [|done]. exists b. split; [done|]. by injection Hp.
Qed.

Lemma view_lru_lt c l ch ps u d i : view c l ch ps u d -> i ∈ l -> (i < length ps)%nat.
Proof using.
  intros Hv Hi. rewrite <- (view_length _ _ _ _ _ _ Hv). destruct (v_lru _ _ _ _ _ _ Hv) as (_ & Hn & _).
  destruct (chain_lookup _ _ _ _ Hn Hi) as [x Hx]. unfold nextp in Hx. destruct (bufs c !! i) as [b|] eqn:Eb; [|done]. by eapply lookup_lt_Some.
Qed.

Lemma view_getb c l ch ps u d i p (Q : buf -> cache -> Prop) : view c l ch ps u d -> ps !! i = Some p ->
  (forall b, pay b = p -> bufs c !! i = Some b -> Q b c) -> wp (getb i) Q c.
Proof using.
  intros Hv Hp HQ. destruct (cview_lookup _ _ _ _ _ _ _ _ Hv Hp) as (b & Hb & Eb). unfold getb. apply wp_bind, wp_gets.
  eapply wp_deref; [exact Hb|]. by apply HQ.
Qed.

(** What changes of single buffers do to the pointers. *)
Lemma ptr_insert {A} (f : buf -> A) (bl : list buf) i b j : (i < length bl)%nat ->
  (f <$> <[i := b]> bl !! j) = if decide (j = i) then Some (f b) else f <$> bl !! j.
Proof using.
  intros Hi. destruct (decide (j = i)) as [->|Hj]; [by rewrite list_lookup_insert_eq|by rewrite list_lookup_insert_ne].
Qed.

Lemma ptr_same {A} (f : buf -> A) (bl : list buf) i b b' j : bl !! i = Some b -> f b' = f b ->
  (f <$> <[i := b']> bl !! j) = f <$> bl !! j.
Proof using.
  intros Hi E. rewrite ptr_insert by by eapply lookup_lt_Some. case_decide as Ej; [|done]. subst j. rewrite Hi. cbn. by rewrite E.
Qed.

Lemma view_updp c l ch ps u d i p f (Q : unit -> cache -> Prop) : view c l ch ps u d -> ps !! i = Some p -> plain f ->
  (forall c', view c' l ch (<[i := f p]> ps) u d -> Q tt c') -> wp (updb i f) Q c.
Proof using.
  intros Hv Hp Hf HQ. destruct (cview_lookup _ _ _ _ _ _ _ _ Hv Hp) as (b & Hb & Eb). unfold updb. apply wp_bind.
  eapply view_getb; [exact Hv|exact Hp|]. intros b0 _ Hb0. assert (b0 = b) as -> by congruence. apply wp_modify, HQ.
  destruct (Hf b) as (E1 & E2 & E3 & E4). destruct Hv as [Hpay Hlru Hlen Hh Hnd H1 Hu Hd Hbs Hvm Hdl].
  split; cbn; [|eapply dll_ext; [|exact Hlru]|by rewrite length_insert| |intros j; rewrite length_insert; apply Hnd|done..].
  - rewrite list_fmap_insert, Hpay, E1, Eb. done.
  - intros j _. unfold nextp, prevp. cbn. by rewrite !(ptr_same _ _ _ b).
  - intros j. rewrite length_insert. intros Hj. destruct (Hh j Hj) as (h & Hhj & Hc). exists h. split; [done|].
    eapply chain_ext; [|exact Hc]. intros k _. unfold hashp. cbn. by rewrite (ptr_same _ _ _ b).
Qed.

Lemma view_gets {A} (f : @cache D -> A) c (Q : A -> cache -> Prop) : Q (f c) c -> wp (gets f) Q c.
Proof using. apply wp_gets. Qed.

Lemma view_in_use c l ch ps u d u' : view c l ch ps u d -> view (with_in_use u' c) l ch ps u' d.
Proof using. intros []. by split. Qed.
Lemma view_host c l ch ps u d d' : view c l ch ps u d -> view (with_host d' c) l ch ps u d'.
Proof using. intros []. by split. Qed.
Lemma view_err c l ch ps u d e : view c l ch ps u d -> view (with_rdwt_err e c) l ch ps u d.
Proof using. intros []. by split. Qed.

Lemma view_hosted {A} (m : M D A) c l ch ps u d (Q : A -> cache -> Prop) : view c l ch ps u d ->
  wp m (fun a d' => forall c', view c' l ch ps u d' -> Q a c') d -> wp (hosted m) Q c.
Proof using.
  intros Hv Hm. unfold hosted. apply wp_bind, wp_gets. rewrite (v_host _ _ _ _ _ _ Hv). unfold wp in Hm. destruct (m d) as [[a d']|]; [|done].
  apply wp_bind, wp_modify, wp_ret, Hm. by eapply view_host.
Qed.
(** ** The list of buffers not in use *)

(** All but the list and the pointers for it is the same. *)
Record relinked c c' : Prop := {
  rl_pay : pay <$> bufs c' = pay <$> bufs c;
  rl_hash j : hashp c' j = hashp c j;
  rl_rest : buf_hash c' = buf_hash c /\ bufs_in_use c' = bufs_in_use c /\ host c' = host c /\ block_size c' = block_size c /\
    vmcache c' = vmcache c /\ bitdelta c' = bitdelta c;
}.

Lemma crelinked_refl c : relinked c c.
Proof using. done. Qed.
Lemma crelinked_trans c1 c2 c3 : relinked c1 c2 -> relinked c2 c3 -> relinked c1 c3.
Proof using.
  intros [H1 H2 (A1 & A2 & A3 & A4 & A5 & A6)] [H3 H4 (B1 & B2 & B3 & B4 & B5 & B6)]. split; [congruence|intros j; by rewrite H4, H2|].
  split_and!; congruence.
Qed.

Lemma relinked_length c c' : relinked c c' -> length (bufs c') = length (bufs c).
Proof using. intros [E _ _]. apply (f_equal length) in E. by rewrite !length_fmap in E. Qed.

Lemma view_relinked c c' l l' ch ps u d : view c l ch ps u d -> relinked c c' ->
  dll (nextp c') (prevp c') (front c') (rear c') l' -> view c' l' ch ps u d.
Proof using.
  intros [Hpay Hlru Hlen Hh Hnd H1 Hu Hd Hbs Hvm Hdl] Hr Hl'. pose proof (relinked_length _ _ Hr) as El.
  destruct Hr as [E1 E2 (A1 & A2 & A3 & A4 & A5 & A6)].
  split; [congruence|done|by rewrite A1, El| |rewrite El; exact Hnd|done|congruence|congruence|congruence|congruence|by rewrite A6].
  rewrite El, A1. intros j Hj. destruct (Hh j Hj) as (h & Hhj & Hc). exists h. split; [done|].
  eapply chain_ext; [|exact Hc]. intros k _. by rewrite E2.
Qed.

Definition link_next (o v : option nat) : M (@cache D) unit :=
  match o with Some p => updb p (set_next v) | None => modify (with_front v) end.
Definition link_prev (o v : option nat) : M (@cache D) unit :=
  match o with Some p => updb p (set_prev v) | None => modify (with_rear v) end.

Lemma wp_updb c i b f (Q : unit -> cache -> Prop) : bufs c !! i = Some b -> Q tt (with_bufs (<[i := f b]> (bufs c)) c) -> wp (updb i f) Q c.
Proof using. intros Hb HQ. unfold updb, getb. apply wp_bind, wp_bind, wp_gets. eapply wp_deref; [exact Hb|]. by apply wp_modify. Qed.

Lemma relinked_upd c i b b' : bufs c !! i = Some b -> pay b' = pay b -> lmfs_hash b' = lmfs_hash b -> relinked c (with_bufs (<[i := b']> (bufs c)) c).
Proof using.
  intros Hb Ep Eh. split; [| |done].
  - cbn. rewrite list_fmap_insert, Ep. apply list_insert_id. by rewrite list_lookup_fmap, Hb.
  - intros j. unfold hashp. cbn. by rewrite (ptr_same _ _ _ b).
Qed.

Lemma wp_link_next o v c (Q : unit -> cache -> Prop) : (forall p, o = Some p -> (p < length (bufs c))%nat) ->
  (forall c', relinked c c' -> (forall j, nextp c' j = if decide (o = Some j) then Some v else nextp c j) -> (forall j, prevp c' j = prevp c j) ->
     front c' = (match o with None => v | Some _ => front c end) -> rear c' = rear c -> Q tt c') -> wp (link_next o v) Q c.
Proof using.
  intros Ho HQ. destruct o as [p|]; cbn [link_next].
  - destruct (lookup_lt_is_Some_2 (bufs c) p) as [b Hb]; [by apply Ho|]. eapply wp_updb; [exact Hb|]. apply HQ; [by eapply relinked_upd| | |done|done].
    + intros j. unfold nextp. cbn. rewrite ptr_insert by by apply Ho. destruct (decide (j = p)) as [->|Hj]; [by rewrite decide_True|by rewrite decide_False by congruence].
    + intros j. unfold prevp. cbn. by rewrite (ptr_same _ _ _ b).
  - apply wp_modify, HQ; [done| |done|done|done]. intros j. by rewrite decide_False.
Qed.

Lemma wp_link_prev o v c (Q : unit -> cache -> Prop) : (forall p, o = Some p -> (p < length (bufs c))%nat) ->
  (forall c', relinked c c' -> (forall j, prevp c' j = if decide (o = Some j) then Some v else prevp c j) -> (forall j, nextp c' j = nextp c j) ->
     rear c' = (match o with None => v | Some _ => rear c end) -> front c' = front c -> Q tt c') -> wp (link_prev o v) Q c.
Proof using.
  intros Ho HQ. destruct o as [p|]; cbn [link_prev].
  - destruct (lookup_lt_is_Some_2 (bufs c) p) as [b Hb]; [by apply Ho|]. eapply wp_updb; [exact Hb|]. apply HQ; [by eapply relinked_upd| | |done|done].
    + intros j. unfold prevp. cbn. rewrite ptr_insert by by apply Ho. destruct (decide (j = p)) as [->|Hj]; [by rewrite decide_True|by rewrite decide_False by congruence].
    + intros j. unfold nextp. cbn. by rewrite (ptr_same _ _ _ b).
  - apply wp_modify, HQ; [done| |done|done|done]. intros j. by rewrite decide_False.
Qed.

Lemma view_rm_lru c l1 i l2 ch ps u d (Q : unit -> cache -> Prop) : view c (l1 ++ i :: l2) ch ps u d ->
  (forall c', view c' (l1 ++ l2) ch ps u d -> Q tt c') -> wp (rm_lru i) Q c.
Proof using.
  intros Hv HQ. pose proof (v_lru _ _ _ _ _ _ Hv) as Hl. destruct (dll_links _ _ _ _ _ _ _ Hl) as [En Ep].
  assert (forall k, k ∈ l1 ++ i :: l2 -> (k < length (bufs c))%nat) as Hlt by (intros k Hk; rewrite (view_length _ _ _ _ _ _ Hv); by eapply view_lru_lt).
  unfold nextp in En. unfold prevp in Ep. destruct (bufs c !! i) as [b|] eqn:Eb; [|done]. injection En as En. injection Ep as Ep.
  unfold rm_lru, getb. apply wp_bind, wp_bind, wp_gets. eapply wp_deref; [exact Eb|]. cbv zeta. rewrite En, Ep.
  apply wp_bind. apply (wp_link_next (last l1) (head l2)). { intros p Hp. apply Hlt, elem_of_app. left. by apply last_Some_elem_of. }
  intros c1 R1 N1 P1 F1 E1. apply (wp_link_prev (head l2) (last l1)).
  { intros p Hp. rewrite (relinked_length _ _ R1). apply Hlt, elem_of_app. right. right. destruct l2; [done|]. injection Hp as ->. left. }
  intros c2 R2 P2 N2 E2 F2. apply HQ. eapply view_relinked; [exact Hv|by eapply crelinked_trans|].
  rewrite F2, F1, E2, E1. eapply dll_remove; [exact Hl|]. intros y Hy. rewrite N2, N1, P2, P1. done.
Qed.

Lemma plain_link_upd c l ch ps u d i nx pv : view c l ch ps u d -> (i < length ps)%nat -> exists b, bufs c !! i = Some b /\
  forall (Q : unit -> cache -> Prop),
  (forall c', relinked c c' -> (forall j, nextp c' j = if decide (j = i) then Some nx else nextp c j) ->
     (forall j, prevp c' j = if decide (j = i) then Some pv else prevp c j) -> front c' = front c -> rear c' = rear c -> Q tt c') ->
  wp (updb i (fun b => set_next nx (set_prev pv b))) Q c.
Proof using.
  intros Hv Hi. rewrite <- (view_length _ _ _ _ _ _ Hv) in Hi. destruct (lookup_lt_is_Some_2 (bufs c) i Hi) as [b Hb]. exists b. split; [done|].
  intros Q HQ. eapply wp_updb; [exact Hb|]. apply HQ; [by eapply relinked_upd| | |done|done]; intros j; unfold nextp, prevp; cbn; by rewrite ptr_insert.
Qed.

Lemma view_lru_front c l i ch ps u d (Q : unit -> cache -> Prop) : view c l ch ps u d -> i ∉ l -> (i < length ps)%nat ->
  (forall c', view c' (i :: l) ch ps u d -> Q tt c') -> wp (lru_front i) Q c.
Proof using.
  intros Hv Hil Hi HQ. pose proof (v_lru _ _ _ _ _ _ Hv) as Hl. destruct (dll_ends _ _ _ _ _ Hl) as [Ef Er].
  unfold lru_front. apply wp_bind, wp_gets, wp_bind. destruct (plain_link_upd c l ch ps u d i (front c) None Hv Hi) as (b & Hb & Hupd).
  apply Hupd. intros c1 R1 N1 P1 F1 E1.
  assert (wp (match front c with None => modify (with_rear (Some i)) | Some p => updb p (set_prev (Some i)) end)
    (fun _ c' => wp (modify (with_front (Some i))) Q c') c1) as Hwp; [|apply wp_bind; exact Hwp].
  apply (wp_link_prev (front c) (Some i)). { intros p Hp. rewrite (relinked_length _ _ R1), (view_length _ _ _ _ _ _ Hv).
    eapply view_lru_lt; [exact Hv|]. rewrite Ef in Hp. destruct l; [done|]. injection Hp as ->. left. }
  intros c2 R2 P2 N2 E2 F2. apply wp_modify, HQ.
  eapply view_relinked; [exact Hv| |].
  { destruct (crelinked_trans _ _ _ R1 R2) as [? ? ?]. by split. }
  cbn [front rear with_front nextp prevp]. rewrite E2, E1, Ef. eapply dll_push; [rewrite Ef in Hl; exact Hl|done| | |].
  - change (nextp c2 i = Some (head l)). by rewrite N2, N1, decide_True, Ef.
  - change (prevp c2 i = Some None). rewrite P2, P1. rewrite decide_False, decide_True; [done|done|]. rewrite Ef. intros E. destruct l; [done|]. injection E as ->. apply Hil. left.
  - intros y Hy. assert (y <> i) as Hne by by intros ->. change (nextp c2 y = nextp c y /\ prevp c2 y = if decide (head l = Some y) then Some (Some i) else prevp c y).
    rewrite N2, N1, P2, P1, Ef, !(decide_False (P := y = i)) by done. done.
Qed.

Lemma view_lru_rear c l i ch ps u d (Q : unit -> cache -> Prop) : view c l ch ps u d -> i ∉ l -> (i < length ps)%nat ->
  (forall c', view c' (l ++ [i]) ch ps u d -> Q tt c') -> wp (lru_rear i) Q c.
Proof using.
  intros Hv Hil Hi HQ. pose proof (v_lru _ _ _ _ _ _ Hv) as Hl. destruct (dll_ends _ _ _ _ _ Hl) as [Ef Er].
  unfold lru_rear. apply wp_bind, wp_gets, wp_bind. destruct (plain_link_upd c l ch ps u d i None (rear c) Hv Hi) as (b & Hb & Hupd).
  apply Hupd. intros c1 R1 N1 P1 F1 E1.
  assert (wp (match rear c with None => modify (with_front (Some i)) | Some p => updb p (set_next (Some i)) end)
    (fun _ c' => wp (modify (with_rear (Some i))) Q c') c1) as Hwp; [|apply wp_bind; exact Hwp].
  apply (wp_link_next (rear c) (Some i)). { intros p Hp. rewrite (relinked_length _ _ R1), (view_length _ _ _ _ _ _ Hv).
    eapply view_lru_lt; [exact Hv|]. rewrite Er in Hp. by apply last_Some_elem_of. }
  intros c2 R2 N2 P2 F2 E2. apply wp_modify, HQ.
  eapply view_relinked; [exact Hv| |].
  { destruct (crelinked_trans _ _ _ R1 R2) as [? ? ?]. by split. }
  cbn [front rear with_rear nextp prevp]. rewrite F2, F1, Er. eapply dll_back; [rewrite Er in Hl; exact Hl|done| | |].
  - change (nextp c2 i = Some None). rewrite N2, N1. rewrite decide_False, decide_True; [done|done|]. rewrite Er. intros E. by apply Hil, last_Some_elem_of.
  - change (prevp c2 i = Some (last l)). by rewrite P2, P1, decide_True, Er.
  - intros y Hy. assert (y <> i) as Hne by by intros ->. change (prevp c2 y = prevp c y /\ nextp c2 y = if decide (last l = Some y) then Some (Some i) else nextp c y).
    rewrite N2, N1, P2, P1, Er, !(decide_False (P := y = i)) by done. done.
Qed.
(** ** The chains of the hash table *)

Definition set_chain ch (j : nat) (l : list nat) : nat -> list nat := fun k => if decide (k = j) then l else ch k.

(** All but the heads and the pointers of the chains is the same. *)
Record rehashed c c' : Prop := {
  rh_pay : pay <$> bufs c' = pay <$> bufs c;
  rh_ptr j : nextp c' j = nextp c j /\ prevp c' j = prevp c j;
  rh_rest : front c' = front c /\ rear c' = rear c /\ bufs_in_use c' = bufs_in_use c /\ host c' = host c /\ block_size c' = block_size c /\
    vmcache c' = vmcache c /\ bitdelta c' = bitdelta c;
}.

Lemma view_rehashed c c' l ch ch' ps u d : view c l ch ps u d -> rehashed c c' -> length (buf_hash c') = length (bufs c') ->
  (forall j, (j < length (bufs c'))%nat -> exists h, buf_hash c' !! j = Some h /\ chain (hashp c') h (ch' j)) ->
  (forall j, (j < length (bufs c'))%nat -> NoDup (ch' j)) -> (forall j j' i, i ∈ ch' j -> i ∈ ch' j' -> j = j') -> view c' l ch' ps u d.
Proof using.
  intros [Hpay Hlru Hlen Hh Hnd H1 Hu Hd Hbs Hvm Hdl] [E1 E2 (A1 & A2 & A3 & A4 & A5 & A6 & A7)] Hl Hc Hn Ho.
  split; [congruence|rewrite A1, A2; eapply dll_ext; [|exact Hlru]; intros x _; apply E2|done..|congruence|congruence|congruence|congruence|by rewrite A7].
Qed.

Lemma view_chain_lt c l ch ps u d j i : view c l ch ps u d -> (j < length ps)%nat -> i ∈ ch j -> (i < length ps)%nat.
Proof using.
  intros Hv Hj Hi. rewrite <- (view_length _ _ _ _ _ _ Hv) in *. destruct (v_hash _ _ _ _ _ _ Hv j Hj) as (h & _ & Hc).
  destruct (chain_lookup _ _ _ _ Hc Hi) as [x Hx]. unfold hashp in Hx. destruct (bufs c !! i) as [b|] eqn:Eb; [|done]. by eapply lookup_lt_Some.
Qed.

Lemma chain_length c l ch ps u d j : view c l ch ps u d -> (j < length ps)%nat -> (length (ch j) <= length ps)%nat.
Proof using.
  intros Hv Hj. cut (length (ch j) <= length (seq 0 (length ps)))%nat; [by rewrite length_seq|]. apply submseteq_length, NoDup_submseteq.
  - apply (v_nodup _ _ _ _ _ _ Hv). by rewrite (view_length _ _ _ _ _ _ Hv).
  - intros i Hi. apply elem_of_seq. pose proof (view_chain_lt _ _ _ _ _ _ _ _ Hv Hj Hi). lia.
Qed.

Lemma view_hash_get c l ch ps u d j (Q : option nat -> cache -> Prop) : view c l ch ps u d -> 0 <= j < Z.of_nat (length ps) ->
  (forall h, chain (hashp c) h (ch (Z.to_nat j)) -> Q h c) -> wp (hash_get j) Q c.
Proof using.
  intros Hv Hj HQ. rewrite <- (view_length _ _ _ _ _ _ Hv) in Hj. destruct (v_hash _ _ _ _ _ _ Hv (Z.to_nat j)) as (h & Hh & Hc); [lia|].
  unfold hash_get. apply wp_bind, wp_gets. apply (wp_lift _ h); [|by apply HQ]. apply aget_Ok. split; [lia|done].
Qed.

(** The search finds a buffer of the block if the chain has one. *)
Lemma view_hash_search fuel dev block : forall c l ch ps u d h cl, view c l ch ps u d -> chain (hashp c) h cl -> (length cl < fuel)%nat ->
  (forall i p, i ∈ cl -> ps !! i = Some p -> anyset (lmfs_flags p) VMMC_EVICTED = false) -> (forall i, i ∈ cl -> (i < length ps)%nat) ->
  wp (hash_search fuel dev block h) (fun r c' => c' = c /\ match r with
    | FOUND i => i ∈ cl /\ exists p, ps !! i = Some p /\ lmfs_blocknr p = block /\ lmfs_dev p = dev
    | NOT_FOUND => forall i p, i ∈ cl -> ps !! i = Some p -> ~ (lmfs_blocknr p = block /\ lmfs_dev p = dev)
    | EVICTED _ => False
    end) c.
Proof using.
  induction fuel as [|fuel IH]; intros c l ch ps u d h cl Hv Hc Hf Hev Hlt; [lia|]. cbn [hash_search]. destruct cl as [|i cl].
  - cbn in Hc. subst h. apply wp_ret. split; [done|]. by intros i p ?%elem_of_nil.
  - destruct Hc as (-> & n & Hn & Hc). destruct (lookup_lt_is_Some_2 ps i) as [p Hp]; [apply Hlt; left|].
    apply wp_bind. eapply view_getb; [exact Hv|exact Hp|]. intros b Eb Hb. paid Eb.
    destruct ((lmfs_blocknr p =? block) && (lmfs_dev p =? dev)) eqn:E.
    + rewrite (Hev i p) by (done || left). apply wp_ret. split; [done|]. apply andb_true_iff in E as [E1 E2].
      split; [left|]. exists p. split; [done|]. lia.
    + assert (lmfs_hash b = n) as -> by (unfold hashp in Hn; rewrite Hb in Hn; by injection Hn).
      eapply wp_mono; [apply (IH c l ch ps u d n cl Hv Hc); [cbn in Hf; lia| |]|].
      * intros j q Hj. apply Hev. by right.
      * intros j Hj. apply Hlt. by right.
      * intros r c' [-> Hr]. split; [done|]. destruct r as [|j|j]; [|destruct Hr as [? Hr]; split; [by right|done]|done].
        intros j q [->|Hj]%elem_of_cons Hq; [|by apply Hr with j]. assert (q = p) as -> by congruence. apply andb_false_iff in E. intros [? ?]. lia.
Qed.

Lemma hash_unlink_ok fuel i : forall a l1 l2 c nx, chain (hashp c) (Some a) (a :: l1 ++ i :: l2) -> NoDup (a :: l1 ++ i :: l2) ->
  (length l1 < fuel)%nat -> hashp c i = Some nx ->
  exists z b, last (a :: l1) = Some z /\ bufs c !! z = Some b /\ forall (Q : unit -> cache -> Prop),
    Q tt (with_bufs (<[z := set_hash nx b]> (bufs c)) c) -> wp (hash_unlink fuel i (Some a)) Q c.
Proof using.
  induction fuel as [|fuel IH]; intros a l1 l2 c nx Hc Hnd Hf Hi; [lia|]. destruct Hc as (_ & n & Hn & Hc).
  unfold hashp in Hn. destruct (bufs c !! a) as [b|] eqn:Eb; [|done]. injection Hn as Hn. cbn [hash_unlink].
  unfold hashp in Hi. destruct (bufs c !! i) as [bi|] eqn:Ei; [|done]. injection Hi as Hi.
  destruct l1 as [|a' l1].
  - cbn in Hc. destruct Hc as (-> & _). exists a, b. split; [done|]. split; [done|]. intros Q HQ.
    apply wp_bind, (wp_deref _ a); [done|]. unfold getb. apply wp_bind, wp_bind, wp_gets. eapply wp_deref; [exact Eb|]. rewrite Hn.
    rewrite bool_decide_eq_true_2 by done. apply wp_bind, wp_bind, wp_gets. eapply wp_deref; [exact Ei|]. rewrite Hi. by eapply wp_updb.
  - assert (n = Some a') as -> by (by destruct Hc as (-> & _)). apply NoDup_cons in Hnd as [_ Hnd].
    destruct (IH a' l1 l2 c nx Hc Hnd) as (z & bz & Hz & Hbz & Hwp); [cbn in Hf; lia|unfold hashp; by rewrite Ei; cbn; rewrite Hi|].
    exists z, bz. split; [done|]. split; [done|]. intros Q HQ.
    apply wp_bind, (wp_deref _ a); [done|]. unfold getb. apply wp_bind, wp_bind, wp_gets. eapply wp_deref; [exact Eb|]. rewrite Hn.
    rewrite bool_decide_eq_false_2; [by apply Hwp|]. intros ->. cbn in Hnd. apply NoDup_cons in Hnd as [Hnd _]. apply Hnd, elem_of_app. right. left.
Qed.

Lemma rehashed_upd c z b v : bufs c !! z = Some b -> rehashed c (with_bufs (<[z := set_hash v b]> (bufs c)) c).
Proof using.
  intros Hb. split; [| |done].
  - cbn. rewrite list_fmap_insert. apply list_insert_id. by rewrite list_lookup_fmap, Hb.
  - intros j. unfold nextp, prevp. cbn. by rewrite !(ptr_same _ _ _ b).
Qed.

Lemma set_chain_one c l ch ps u d j l' : view c l ch ps u d -> (forall i, i ∈ l' -> i ∈ ch j \/ forall k, i ∉ ch k) ->
  forall k k' i, i ∈ set_chain ch j l' k -> i ∈ set_chain ch j l' k' -> k = k'.
Proof using.
  intros Hv Hl k k' i. unfold set_chain. destruct (decide (k = j)) as [->|], (decide (k' = j)) as [->|]; [done| | |by eapply v_one].
  - intros Hi Hi'. destruct (Hl i Hi) as [Hi2|Hi2]; [by eapply v_one|]. by destruct (Hi2 k').
  - intros Hi' Hi. destruct (Hl i Hi) as [Hi2|Hi2]; [by eapply v_one|]. by destruct (Hi2 k).
Qed.

Lemma view_hash_remove c l ch ps u d i p l1 l2 (Q : unit -> cache -> Prop) : view c l ch ps u d -> ps !! i = Some p ->
  let j := Z.to_nat (lmfs_blocknr p `mod` Z.of_nat (length ps)) in
  ch j = l1 ++ i :: l2 ->
  (forall c', view c' l (set_chain ch j (l1 ++ l2)) ps u d -> Q tt c') -> wp (hash_remove i) Q c.
Proof using.
  intros Hv Hp j Hj HQ. pose proof (lookup_lt_Some _ _ _ Hp) as Hlt. pose proof (view_length _ _ _ _ _ _ Hv) as Elen.
  assert (0 <= lmfs_blocknr p `mod` Z.of_nat (length ps) < Z.of_nat (length ps)) as Hb by (apply Z.mod_pos_bound; lia).
  assert (j < length (bufs c))%nat as Hjl by lia.
  destruct (v_hash _ _ _ _ _ _ Hv j Hjl) as (h & Hh & Hc). rewrite Hj in Hc. pose proof (v_nodup _ _ _ _ _ _ Hv j Hjl) as Hnd. rewrite Hj in Hnd.
  pose proof (chain_app _ _ _ _ _ Hc) as Hi.
  assert (forall c', rehashed c c' -> length (buf_hash c') = length (bufs c') -> chain (hashp c') (match last l1 with None => head l2 | Some _ => h end) (l1 ++ l2) ->
    (forall k, k <> j -> buf_hash c' !! k = buf_hash c !! k) -> (forall k, k ∉ ch j -> hashp c' k = hashp c k) ->
    buf_hash c' !! j = Some (match last l1 with None => head l2 | Some _ => h end) -> Q tt c') as Hend.
  { intros c' Hr Hl' Hc' Hk Hk' Hj'. apply HQ. assert (length (bufs c') = length (bufs c)) as El.
    { pose proof (rh_pay _ _ Hr) as E. apply (f_equal length) in E. by rewrite !length_fmap in E. }
    eapply view_rehashed; [exact Hv|exact Hr|done| | |].
    - intros k Hkl. unfold set_chain. destruct (decide (k = j)) as [->|Hne]; [by eexists|]. rewrite El in Hkl.
      destruct (v_hash _ _ _ _ _ _ Hv k Hkl) as (h' & Hh' & Hc2). exists h'. split; [by rewrite Hk|]. eapply chain_ext; [|exact Hc2].
      intros x Hx. apply Hk'. intros Hxj. apply Hne. by eapply v_one.
    - intros k Hkl. unfold set_chain. destruct (decide (k = j)) as [->|Hne]; [|rewrite El in Hkl; by eapply v_nodup].
      apply NoDup_app in Hnd as (? & Hdis & [_ ?]%NoDup_cons). apply NoDup_app. split; [done|]. split; [|done].
      intros x Hx Hx2. apply (Hdis x Hx). by right.
    - eapply set_chain_one; [exact Hv|]. intros x Hx. left. rewrite Hj. rewrite elem_of_app in Hx. rewrite elem_of_app, elem_of_cons. tauto. }
  unfold hash_remove. apply wp_bind. eapply view_getb; [exact Hv|exact Hp|]. intros b Eb Hbi. apply wp_bind, wp_gets. unfold nr_bufs. rewrite Elen. paid Eb.
  unfold hash_get. apply wp_bind, wp_bind, wp_gets. apply (wp_lift _ h). { apply aget_Ok. split; [lia|exact Hh]. }
  unfold hashp in Hi. rewrite Hbi in Hi. injection Hi as Hi. pose proof (chain_head _ _ _ Hc) as Eh.
  destruct l1 as [|a l1].
  - cbn in Eh. subst h. rewrite bool_decide_eq_true_2 by done. unfold hash_set. apply wp_bind, wp_gets. rewrite Hi.
    apply wp_bind, (wp_lift _ (<[j := head l2]> (buf_hash c))). { unfold aset. rewrite decide_True; [done|]. rewrite (v_heads _ _ _ _ _ _ Hv). lia. }
    apply wp_modify, Hend; [by split| | | | |].
    + cbn. rewrite length_insert. apply (v_heads _ _ _ _ _ _ Hv).
    + cbn [last app]. destruct Hc as (_ & n & Hn & Hc). rewrite (chain_head _ _ _ Hc) in Hc. exact Hc.
    + intros k Hk. cbn. by rewrite list_lookup_insert_ne.
    + done.
    + cbn. apply list_lookup_insert_eq. by rewrite (v_heads _ _ _ _ _ _ Hv).
  - cbn in Eh. subst h. cbn [app] in Hc, Hnd. rewrite bool_decide_eq_false_2.
    2:{ intros [= ->]. apply NoDup_cons in Hnd as [Hnd _]. apply Hnd, elem_of_app. right. left. }
    destruct (hash_unlink_ok (S (Z.to_nat (Z.of_nat (length ps)))) i a l1 l2 c (head l2) Hc Hnd) as (z & bz & Hz & Hbz & Hwp).
    { pose proof (chain_length _ _ _ _ _ _ j Hv ltac:(lia)) as Hcl. rewrite Hj, length_app in Hcl. cbn in Hcl. lia. }
    { unfold hashp. rewrite Hbi. cbn. by rewrite Hi. }
    apply Hwp, Hend; [by apply rehashed_upd| | |done| |].
    + cbn. rewrite length_insert. apply (v_heads _ _ _ _ _ _ Hv).
    + eapply chain_remove; [exact Hc|exact Hnd|]. intros y Hy. unfold hashp. cbn. rewrite ptr_insert by by eapply lookup_lt_Some. rewrite Hz.
      destruct (decide (y = z)) as [->|Hne]; [by rewrite decide_True|by rewrite decide_False by congruence].
    + intros k Hk. unfold hashp. cbn. rewrite ptr_insert by by eapply lookup_lt_Some. rewrite decide_False; [done|]. intros ->. apply Hk.
      rewrite Hj. apply elem_of_app. left. by apply last_Some_elem_of.
    + rewrite Hz. exact Hh.
Qed.

Lemma view_hash_insert c l ch ps u d i p (Q : unit -> cache -> Prop) : view c l ch ps u d -> ps !! i = Some p ->
  let j := Z.to_nat (lmfs_blocknr p `mod` Z.of_nat (length ps)) in
  (forall k, i ∉ ch k) ->
  (forall c', view c' l (set_chain ch j (i :: ch j)) ps u d -> Q tt c') -> wp (hash_insert i) Q c.
Proof using.
  intros Hv Hp j Hi HQ. pose proof (lookup_lt_Some _ _ _ Hp) as Hlt. pose proof (view_length _ _ _ _ _ _ Hv) as Elen.
  assert (0 <= lmfs_blocknr p `mod` Z.of_nat (length ps) < Z.of_nat (length ps)) as Hb by (apply Z.mod_pos_bound; lia).
  assert (j < length (bufs c))%nat as Hjl by lia. pose proof (v_heads _ _ _ _ _ _ Hv) as Hhl.
  destruct (v_hash _ _ _ _ _ _ Hv j Hjl) as (h & Hh & Hc).
  unfold hash_insert. apply wp_bind. eapply view_getb; [exact Hv|exact Hp|]. intros b Eb Hbi. apply wp_bind, wp_gets. unfold nr_bufs. rewrite Elen. paid Eb.
  unfold hash_get. apply wp_bind, wp_bind, wp_gets. apply (wp_lift _ h). { apply aget_Ok. split; [lia|exact Hh]. }
  apply wp_bind. eapply wp_updb; [exact Hbi|]. unfold hash_set. apply wp_bind, wp_gets. cbn [buf_hash with_bufs].
  apply wp_bind, (wp_lift _ (<[j := Some i]> (buf_hash c))). { unfold aset. rewrite decide_True; [done|]. lia. }
  apply wp_modify, HQ. pose proof (rehashed_upd c i b h Hbi) as [R1 R2 R3].
  eapply view_rehashed; [exact Hv|by split| | | |].
  - cbn. by rewrite !length_insert.
  - cbn. rewrite length_insert. intros k Hk. unfold set_chain. destruct (decide (k = j)) as [->|Hne].
    + exists (Some i). split; [apply list_lookup_insert_eq; lia|]. split; [done|]. exists h. unfold hashp. cbn. split; [by rewrite ptr_insert, decide_True by lia|].
      eapply chain_ext; [|exact Hc]. intros x Hx. rewrite ptr_insert, decide_False by (lia || (intros ->; by apply (Hi j))). done.
    + destruct (v_hash _ _ _ _ _ _ Hv k Hk) as (h' & Hh' & Hc2). exists h'. split; [by rewrite list_lookup_insert_ne|].
      eapply chain_ext; [|exact Hc2]. intros x Hx. unfold hashp. cbn. rewrite ptr_insert, decide_False by (lia || (intros ->; by apply (Hi k))). done.
  - cbn. rewrite length_insert. intros k Hk. unfold set_chain. destruct (decide (k = j)) as [->|]; [|by eapply v_nodup].
    constructor; [apply Hi|by eapply v_nodup].
  - eapply set_chain_one; [exact Hv|]. intros x [->|Hx]%elem_of_cons; [by right|by left].
Qed.
End view.
