(* ===== verification/CacheFlush.v ===== *)
(** * Writing the blocks of the cache back

    What the cache relies on of the disk and the memory, and that the flush writes every dirty
    buffer of the device: the sort only permutes the queue, every request takes
    at least one block from it, and what is written is what the buffers have. *)

From S2P Require Import Prelude Links KTypes BufCache Cache CacheView.
#[local] Open Scope Z_scope.

(** ** What the cache relies on *)

(** A device of [nb] blocks that serves every request in full, and enough memory. *)
Class CacheHostLaws (D : Type) `{CacheHost D} (dev bs nb : Z) := {
  disk : D -> Z -> list Z;
  disk_ok d b : 0 <= b < nb -> block_ok bs (disk d b);
  read_law d b : 0 <= b < nb -> bs <= PAGE_SIZE ->
    wp (bdev_read dev (b * bs) bs) (fun r d' => r = (bs, disk d b) /\ forall x, disk d' x = disk d x) d;
  gather_law d b : 0 <= b < nb -> PAGE_SIZE < bs ->
    wp (bdev_gather dev (b * bs) (page_sizes (Z.to_nat bs) bs)) (fun r d' => r = (bs, disk d b) /\ forall x, disk d' x = disk d x) d;
  scatter_law d b (l segs : list (list Z)) : 0 <= b -> b + Z.of_nat (length l) <= nb -> Forall (block_ok bs) l -> concat segs = concat l ->
    wp (bdev_scatter dev (b * bs) segs) (fun r d' => r = bs * Z.of_nat (length l) /\
      (forall j x, l !! j = Some x -> disk d' (b + Z.of_nat j) = x) /\
      forall x, x < b \/ b + Z.of_nat (length l) <= x -> disk d' x = disk d x) d;
  mmap_law d : wp (mmap_anon bs) (fun r d' => (exists x, r = Some x /\ block_ok bs x) /\ forall x, disk d' x = disk d x) d;
  calloc_law d n : wp (calloc_fits n) (fun r d' => r = true /\ forall x, disk d' x = disk d x) d;
  info_law d : wp vm_info_stats (fun _ d' => forall x, disk d' x = disk d x) d;
  stats_law d : wp fs_blockstats (fun _ d' => forall x, disk d' x = disk d x) d;
}.

(** ** Shell sort *)

Fixpoint gap (k : nat) : Z := match k with O => 1 | S k' => 3 * gap k' + 1 end.

Lemma gap_ge k : Z.of_nat k + 1 <= gap k.
Proof. induction k; cbn [gap]; lia. Qed.

Lemma gap_quot k : Z.quot (gap (S k)) 3 = gap k.
Proof. pose proof (gap_ge k). cbn [gap]. rewrite Z.quot_div_nonneg by lia. symmetry. apply Z.div_unique with 1; lia. Qed.

Lemma gap_start_ok fuel k size : exists k', gap_start fuel (gap k) size = gap k' /\ (k <= k')%nat /\
  Z.of_nat k' <= Z.max (Z.of_nat k + 1) size.
Proof.
  revert k. induction fuel as [|fuel IH]; intros k; cbn [gap_start]; [exists k; split; [done|lia]|].
  change (3 * gap k + 1) with (gap (S k)). destruct (Z.leb_spec (gap (S k)) size) as [Hle|Hgt].
  - destruct (IH (S k)) as (k' & E & H1 & H2). exists k'. split; [done|]. pose proof (gap_ge (S k)). lia.
  - exists (S k). split; [done|lia].
Qed.

(** ** The buffers *)

(** A buffer that is not dirty any more. *)
Definition clean (p : buf) : buf := set_flags (clearf (lmfs_flags p) VMMC_DIRTY) p.
Definition cleaned (q : list nat) (ps : list buf) : list buf :=
  imap (fun i p => if decide (i ∈ q) then clean p else p) ps.

Lemma clean_idem p : clean (clean p) = clean p.
Proof.
  unfold clean, clearf, set_flags. cbn. f_equal. apply Z.bits_inj'. intros n Hn. rewrite !Z.ldiff_spec.
  by destruct (Z.testbit (lmfs_flags p) n), (Z.testbit VMMC_DIRTY n).
Qed.

Lemma clean_plain : plain (fun b => set_flags (clearf (lmfs_flags b) VMMC_DIRTY) b).
Proof. done. Qed.

Lemma cleaned_lookup q ps i : cleaned q ps !! i = (fun p => if decide (i ∈ q) then clean p else p) <$> ps !! i.
Proof. unfold cleaned. by rewrite list_lookup_imap. Qed.

Lemma cleaned_nil ps : cleaned [] ps = ps.
Proof. apply list_eq. intros i. rewrite cleaned_lookup. destruct (ps !! i); [|done]. cbn. by rewrite decide_False by apply not_elem_of_nil. Qed.

Lemma cleaned_ext q q' ps : (forall i, i ∈ q <-> i ∈ q') -> cleaned q ps = cleaned q' ps.
Proof.
  intros Hq. apply list_eq. intros i. rewrite !cleaned_lookup. destruct (ps !! i); [|done]. cbn. f_equal.
  specialize (Hq i). destruct (decide (i ∈ q)), (decide (i ∈ q')); tauto.
Qed.

Lemma cleaned_app q1 q2 ps : cleaned q2 (cleaned q1 ps) = cleaned (q1 ++ q2) ps.
Proof.
  apply list_eq. intros i. rewrite !cleaned_lookup. destruct (ps !! i); [|done]. cbn. f_equal. rewrite (decide_ext (i ∈ q1 ++ q2) (i ∈ q1 \/ i ∈ q2)) by apply elem_of_app.
  destruct (decide (i ∈ q1)), (decide (i ∈ q2)), (decide (_ \/ _)); rewrite ?clean_idem; tauto.
Qed.

Lemma cleaned_cons i q ps p : ps !! i = Some p -> cleaned q (<[i := clean p]> ps) = cleaned (i :: q) ps.
Proof.
  intros Hp. change (i :: q) with ([i] ++ q). rewrite <- cleaned_app. f_equal. apply list_eq. intros j.
  rewrite cleaned_lookup. destruct (decide (j = i)) as [->|Hne].
  - rewrite list_lookup_insert_eq by by eapply lookup_lt_Some. rewrite Hp. cbn. by rewrite decide_True by left.
  - rewrite list_lookup_insert_ne by done. destruct (ps !! j); [|done]. cbn. by rewrite decide_False by (by intros ->%list_elem_of_singleton).
Qed.

(** ** Pages *)

Lemma pages_length n d bs : length (pages n d bs) = n.
Proof. revert d bs. induction n as [|n IH]; intros d bs; [done|]. cbn [pages length]. by rewrite IH. Qed.

Lemma pages_concat n : forall d r, Z.of_nat (length d) = r -> r <= Z.of_nat n * PAGE_SIZE -> concat (pages n d r) = d.
Proof.
  induction n as [|n IH]; intros d r Hd Hr; cbn [pages concat].
  - destruct d; [done|]. cbn in Hd. lia.
  - unfold PAGE_SIZE in *. destruct (Z.ltb_spec r 4096) as [Hlt|Hge].
    + rewrite take_ge by lia. rewrite (drop_ge d) by lia. rewrite (IH [] (r - r)) by (cbn; lia). apply app_nil_r.
    + rewrite IH; [apply take_drop|rewrite length_drop; lia|lia].
Qed.

Section flush.
Context {D : Type} `{CacheHost D} (dev bs nb bd : Z) `{!CacheHostLaws D dev bs nb}.
Context (Hbs : 0 < bs < 65536) (Hdev : dev <> NO_DEVICE) (Hnb : nb < 2 ^ 32).
Implicit Types (c : @cache D) (l : list nat) (ch : nat -> list nat) (ps : list buf) (u : Z) (d : D) (q : list nat).
Notation view := (view bs bd).

(** *** The sort permutes the queue *)

Definition indexed q ps : Prop := Forall (fun i => (i < length ps)%nat) q.

Lemma wp_blocknr_at c l ch ps u d q i (Q : Z -> cache -> Prop) : view c l ch ps u d -> indexed q ps -> 0 <= i < Z.of_nat (length q) ->
  (forall z, Q z c) -> wp (blocknr_at q i) Q c.
Proof using.
  intros Hv Hq Hi HQ. unfold blocknr_at. destruct (lookup_lt_is_Some_2 q (Z.to_nat i)) as [x Hx]; [lia|].
  apply wp_bind, (wp_lift _ x). { apply aget_Ok. split; [lia|done]. }
  destruct (lookup_lt_is_Some_2 ps x) as [p Hp]. { by apply (Forall_lookup_1 _ _ _ _ Hq Hx). }
  apply wp_bind. eapply view_getb; [exact Hv|exact Hp|]. intros b _ _. apply wp_ret, HQ.
Qed.

Lemma wp_sift fuel : forall c l ch ps u d q gap i, view c l ch ps u d -> indexed q ps -> 1 <= gap -> - gap <= i -> i + gap < Z.of_nat (length q) ->
  (Z.to_nat (i + 1) < fuel)%nat -> wp (sift fuel q gap i) (fun q' c' => c' = c /\ q' ≡ₚ q) c.
Proof using.
  induction fuel as [|fuel IH]; intros c l ch ps u d q gap i Hv Hq Hg Hi1 Hi Hf; [lia|]. cbn [sift].
  destruct (Z.leb_spec 0 i) as [Hi0|Hi0]; cbn [negb]; [|by apply wp_ret].
  apply wp_bind. eapply wp_blocknr_at; [exact Hv|done|lia|]. intros b1. apply wp_bind. eapply wp_blocknr_at; [exact Hv|done|lia|]. intros b2.
  destruct (negb (b2 <? b1)); [by apply wp_ret|].
  destruct (lookup_lt_is_Some_2 q (Z.to_nat i)) as [x Hx]; [lia|]. destruct (lookup_lt_is_Some_2 q (Z.to_nat (i + gap))) as [y Hy]; [lia|].
  apply wp_bind, (wp_lift _ x). { apply aget_Ok. split; [lia|done]. }
  apply wp_bind, (wp_lift _ y). { apply aget_Ok. split; [lia|done]. }
  apply wp_bind, (wp_lift _ (<[Z.to_nat i := y]> q)). { unfold aset. rewrite decide_True by lia. done. }
  apply wp_bind, (wp_lift _ (<[Z.to_nat (i + gap) := x]> (<[Z.to_nat i := y]> q))).
  { unfold aset. rewrite decide_True by (rewrite length_insert; lia). done. }
  set (q' := <[_ := x]> _). assert (q' ≡ₚ q) as Hp.
  { unfold q'. rewrite list_insert_insert_ne by lia. by apply Permutation_insert_swap. }
  eapply wp_mono; [apply (IH c l ch ps u d q' gap (i - gap) Hv)|].
  - unfold indexed. by rewrite Hp.
  - done.
  - lia.
  - rewrite (Permutation_length Hp). lia.
  - lia.
  - intros q2 c' [-> Hq2]. split; [done|]. by rewrite Hq2.
Qed.

Lemma wp_sift_all n : forall c l ch ps u d q gap j, view c l ch ps u d -> indexed q ps -> 1 <= gap -> 0 <= j ->
  (n = 0%nat \/ j + Z.of_nat n <= Z.of_nat (length q)) -> wp (sift_all n q gap j) (fun q' c' => c' = c /\ q' ≡ₚ q) c.
Proof using.
  induction n as [|n IH]; intros c l ch ps u d q gap j Hv Hq Hg Hj Hn; [by apply wp_ret|]. cbn [sift_all]. apply wp_bind.
  eapply wp_mono; [apply (wp_sift _ c l ch ps u d q gap (j - gap) Hv Hq Hg); lia|].
  intros q1 c' [-> Hp]. eapply wp_mono; [apply (IH c l ch ps u d q1 gap (j + 1) Hv)|].
  - unfold indexed. by rewrite Hp.
  - done.
  - lia.
  - right. rewrite (Permutation_length Hp). lia.
  - intros q2 c' [-> Hp2]. split; [done|]. by rewrite Hp2.
Qed.

Lemma wp_shell fuel : forall c l ch ps u d q k, view c l ch ps u d -> indexed q ps -> (k < fuel)%nat ->
  wp (shell fuel q (gap k)) (fun q' c' => c' = c /\ q' ≡ₚ q) c.
Proof using.
  induction fuel as [|fuel IH]; intros c l ch ps u d q k Hv Hq Hk; [lia|]. cbn [shell]. destruct (Z.eqb_spec (gap k) 1) as [E|E]; [by apply wp_ret|].
  destruct k as [|k]; [done|]. rewrite gap_quot. pose proof (gap_ge k). apply wp_bind. eapply wp_mono; [apply (wp_sift_all _ c l ch ps u d q (gap k) (gap k) Hv Hq); lia|].
  intros q1 c' [-> Hp]. eapply wp_mono; [apply (IH c l ch ps u d q1 k Hv)|].
  - unfold indexed. by rewrite Hp.
  - lia.
  - intros q2 c' [-> Hp2]. split; [done|]. by rewrite Hp2.
Qed.

(** *** The request *)

(** A buffer with a block of the device that can be written. *)
Definition full (p : buf) : Prop := 0 <= lmfs_blocknr p < nb /\ exists x, data p = Some x /\ block_ok bs x.
Definition fulls q ps : Prop := Forall (fun i => exists p, ps !! i = Some p /\ full p) q.

Definition iovs : Z := (bs + PAGE_SIZE - 1) / PAGE_SIZE.
Lemma iovs_bounds : 1 <= iovs < NR_IOREQS /\ bs <= iovs * PAGE_SIZE.
Proof using Hbs.
  unfold iovs, PAGE_SIZE, NR_IOREQS. pose proof (Z.div_mod (bs + 4096 - 1) 4096 ltac:(lia)). pose proof (Z.mod_pos_bound (bs + 4096 - 1) 4096 ltac:(lia)). lia.
Qed.

(** The queue starts with the blocks [b] ... of contents [xs]. *)
Fixpoint run ps q (b : Z) (xs : list (list Z)) : Prop :=
  match xs, q with
  | [], _ => True
  | x :: xs', i :: q' => (exists p, ps !! i = Some p /\ lmfs_blocknr p = b /\ data p = Some x) /\ run ps q' (b + 1) xs'
  | _ :: _, [] => False
  end.

Lemma wp_collect q : forall c l ch ps u d b n nio, view c l ch ps u d -> fulls q ps -> 0 <= b + n <= nb -> 0 <= nio ->
  wp (collect q b n nio iovs bs) (fun segs c' => c' = c /\ exists xs, length segs = (length xs * Z.to_nat iovs)%nat /\ concat segs = concat xs /\
    Forall (block_ok bs) xs /\ run ps q (b + n) xs /\ b + n + Z.of_nat (length xs) <= nb /\
    (nio = 0 -> (exists i q' p, q = i :: q' /\ ps !! i = Some p /\ lmfs_blocknr p = b + n) -> xs <> [])) c.
Proof using Hbs Hnb.
  pose proof iovs_bounds as [Hio Hio2].
  assert (forall b n q ps (X : Prop), 0 <= b + n <= nb -> X -> length (@nil (list Z)) = (length (@nil (list Z)) * Z.to_nat iovs)%nat /\
    concat (@nil (list Z)) = concat [] /\ Forall (block_ok bs) [] /\ run ps q (b + n) [] /\ b + n + Z.of_nat (length (@nil (list Z))) <= nb /\ X) as Hnil.
  { clear. intros b n q ps X Hb HX. split; [done|]. split; [done|]. split; [constructor|]. split; [by destruct q|]. split; [cbn [length]; lia|done]. }
  induction q as [|i q IH]; intros c l ch ps u d b n nio Hv Hq Hb Hnio; cbn [collect].
  { apply wp_ret. split; [done|]. exists []. apply Hnil; [done|]. by intros _ (? & ? & ? & ? & _). }
  apply Forall_cons in Hq as [(p & Hp & Hbp & x & Hx & Hxok) Hq]. apply wp_bind. eapply view_getb; [exact Hv|exact Hp|]. intros bf Ebf _. paid Ebf.
  assert (u32 (b + n) = b + n) as -> by (unfold u32; rewrite Z.mod_small; lia).
  destruct (Z.eqb_spec (lmfs_blocknr p) (b + n)) as [E|E]; cbn [negb].
  2:{ apply wp_ret. split; [done|]. exists []. apply Hnil; [done|]. intros _ (? & ? & p' & [= <- <-] & Hp' & E'). congruence. }
  destruct (Z.leb_spec (NR_IOREQS - iovs) nio) as [Hfull|Hroom].
  { apply wp_ret. split; [done|]. exists []. apply Hnil; [done|]. intros ->. lia. }
  apply wp_bind, (wp_deref _ x); [done|]. apply wp_bind. eapply wp_mono; [apply (IH c l ch ps u d b (n + 1) (nio + iovs) Hv Hq); lia|].
  intros segs c' (-> & xs & Hl & Hc & Hok & Hrun & Hle & _). apply wp_ret. split; [done|]. exists (x :: xs).
  rewrite length_app, pages_length, concat_app, Hl, Hc. destruct Hxok as [Hxl Hxb]. rewrite pages_concat by (rewrite ?Z2Nat.id by lia; done).
  replace (b + (n + 1)) with (b + n + 1) in Hrun, Hle by lia. split; [done|]. split; [done|]. split; [by constructor|].
  split; [split; [by exists p|done]|]. split; [cbn [length]; lia|]. done.
Qed.

Lemma run_take ps q b xs : run ps q b xs -> (length xs <= length q)%nat /\
  forall j i, take (length xs) q !! j = Some i -> exists p x, ps !! i = Some p /\ lmfs_blocknr p = b + Z.of_nat j /\ data p = Some x /\ xs !! j = Some x.
Proof using.
  revert q b. induction xs as [|x xs IH]; intros q b; cbn [run]; [intros _; split; [cbn; lia|by intros j i]|].
  destruct q as [|i q]; [done|]. intros [(p & Hp & Hb & Hx) Hr]. destruct (IH q (b + 1) Hr) as [Hl Hj]. split; [cbn; lia|].
  intros [|j] k Hk; cbn in Hk.
  - injection Hk as <-. exists p, x. split_and!; [done|lia|done|done].
  - destruct (Hj j k Hk) as (p' & x' & H1 & H2 & H3 & H4). exists p', x'. split_and!; [done|lia|done|done].
Qed.

Lemma wp_harvest put k : forall c l ch ps u d q i, view c l ch ps u d -> indexed q ps -> (k <= length q)%nat ->
  wp (harvest put k q dev (bs * Z.of_nat k) i bs WRITING) (fun r c' => r = i + Z.of_nat k /\ view c' l ch (cleaned (take k q) ps) u d) c.
Proof using Hbs.
  induction k as [|k IH]; intros c l ch ps u d q i Hv Hq Hk; cbn [harvest].
  { apply wp_ret. rewrite cleaned_nil. split; [lia|done]. }
  destruct q as [|bp q]; [cbn in Hk; lia|]. apply Forall_cons in Hq as [Hbp Hq].
  destruct (Z.ltb_spec (bs * Z.of_nat (S k)) bs) as [Hlt|_]; [nia|]. unfold lmfs_markclean.
  destruct (lookup_lt_is_Some_2 ps bp Hbp) as [p Hp]. apply wp_bind. eapply view_updp; [exact Hv|exact Hp|done|]. intros c' Hv'.
  replace (bs * Z.of_nat (S k) - bs) with (bs * Z.of_nat k) by lia. cbn [take].
  eapply wp_mono; [apply (IH c' l ch _ u d q (i + 1) Hv')|].
  - unfold indexed. by rewrite length_insert.
  - cbn in Hk. lia.
  - intros r c2 [-> Hv2]. split; [lia|]. by rewrite <- (cleaned_cons bp _ ps p).
Qed.

(** The disk has the blocks of the buffers; its other blocks are the same. *)
Definition written ps q d d' : Prop :=
  (forall i p x, i ∈ q -> ps !! i = Some p -> data p = Some x -> disk d' (lmfs_blocknr p) = x) /\
  forall b, (forall i p, i ∈ q -> ps !! i = Some p -> lmfs_blocknr p <> b) -> disk d' b = disk d b.

(** No two buffers of the queue have the same block. *)
Definition distinct q ps : Prop := forall i j p p', i ∈ q -> j ∈ q -> ps !! i = Some p -> ps !! j = Some p' -> lmfs_blocknr p = lmfs_blocknr p' -> i = j.

Lemma fulls_indexed q ps : fulls q ps -> indexed q ps.
Proof using. intros Hq. eapply Forall_impl; [exact Hq|]. intros i (p & Hp & _). by eapply lookup_lt_Some. Qed.

Lemma cleaned_same q ps i p : cleaned q ps !! i = Some p -> exists p0, ps !! i = Some p0 /\ data p = data p0 /\ lmfs_blocknr p = lmfs_blocknr p0.
Proof using. rewrite cleaned_lookup. destruct (ps !! i) as [p0|]; [|done]. cbn. intros [= <-]. exists p0. by destruct (decide (i ∈ q)). Qed.

Lemma cleaned_full q q' ps : fulls q ps -> fulls q (cleaned q' ps).
Proof using.
  intros Hq. eapply Forall_impl; [exact Hq|]. intros i (p & Hp & Hf). rewrite cleaned_lookup, Hp. cbn. eexists. split; [done|]. by destruct (decide (i ∈ q')).
Qed.

Lemma written_app q1 q2 ps d1 d2 d3 : written ps q1 d1 d2 -> written (cleaned q1 ps) q2 d2 d3 -> NoDup (q1 ++ q2) -> distinct (q1 ++ q2) ps ->
  written ps (q1 ++ q2) d1 d3.
Proof using.
  intros [H1 H2] [H3 H4] Hnd Hdis. apply NoDup_app in Hnd as (_ & Hd & _). split.
  - intros i p x [Hi|Hi]%elem_of_app Hp Hx.
    + rewrite H4; [by eapply H1|]. intros j p' Hj Hp' E. destruct (cleaned_same _ _ _ _ Hp') as (p0 & Hp0 & _ & E0).
      assert (i = j) as <-; [|by apply (Hd i)]. apply (Hdis i j p p0); [apply elem_of_app; by left|apply elem_of_app; by right|done|done|congruence].
    + specialize (H3 i (if decide (i ∈ q1) then clean p else p) x Hi). rewrite cleaned_lookup, Hp in H3. specialize (H3 eq_refl).
      rewrite decide_False in H3 by (intros Hi1; by apply (Hd i)). by apply H3.
  - intros b Hb. rewrite H4.
    + apply H2. intros i p Hi. apply Hb. apply elem_of_app. by left.
    + intros i p Hi Hp. destruct (cleaned_same _ _ _ _ Hp) as (p0 & Hp0 & _ & ->). apply (Hb i p0); [apply elem_of_app; by right|done].
Qed.

Lemma wp_rw_loop put fuel : forall c l ch ps u d q, view c l ch ps u d -> fulls q ps -> NoDup q -> distinct q ps -> (length q < fuel)%nat ->
  wp (rw_loop put fuel dev q WRITING) (fun _ c' => exists d', view c' l ch (cleaned q ps) u d' /\ written ps q d d') c.
Proof using All.
  pose proof iovs_bounds as [Hio _].
  induction fuel as [|fuel IH]; intros c l ch ps u d q Hv Hq Hnd Hdis Hf; [lia|]. cbn [rw_loop].
  destruct q as [|bp q].
  { apply wp_ret. exists d. rewrite cleaned_nil. split; [done|]. split; [by intros i p x ?%elem_of_nil|done]. }
  apply wp_bind, wp_gets. rewrite (v_size _ _ _ _ _ _ _ _ Hv). fold iovs.
  pose proof Hq as [(p & Hp & Hfull) _]%Forall_cons. destruct Hfull as [Hb _].
  apply wp_bind. eapply view_getb; [exact Hv|exact Hp|]. intros b Eb _. paid Eb.
  apply wp_bind. eapply wp_mono; [apply (wp_collect (bp :: q) c l ch ps u d (lmfs_blocknr p) 0 0 Hv Hq); lia|].
  intros segs c' (-> & xs & Hl & Hcc & Hok & Hrun & Hle & Hne). rewrite Z.add_0_r in Hrun, Hle, Hne.
  assert (xs <> []) as Hxs by (apply Hne; [done|]; by exists bp, q, p).
  assert (length segs / Z.to_nat iovs = length xs)%nat as -> by (rewrite Hl; apply Nat.div_mul; lia).
  assert (0 < length xs)%nat as Hk by (destruct xs; [done|cbn; lia]).
  apply wp_bind, wp_assert; [lia|]. apply wp_bind.
  eapply (view_hosted bs bd); [exact Hv|]. eapply wp_mono; [apply (scatter_law d (lmfs_blocknr p) xs segs); [lia|lia|done|done]|].
  intros r d' (-> & Hw & Hsame) c1 Hv1. destruct (run_take _ _ _ _ Hrun) as [Hlen Htake].
  apply wp_bind. eapply wp_mono; [apply (wp_harvest put (length xs) c1 l ch ps u d' (bp :: q) 0 Hv1); [by apply fulls_indexed|done]|].
  intros i c2 [-> Hv2]. rewrite Z.add_0_l, Nat2Z.id. replace (Z.of_nat (length xs) =? 0) with false by lia.
  set (q1 := take (length xs) (bp :: q)) in *. set (q2 := drop (length xs) (bp :: q)) in *.
  assert (bp :: q = q1 ++ q2) as Eq by (unfold q1, q2; by rewrite take_drop).
  rewrite Eq in Hq, Hnd, Hdis. apply Forall_app in Hq as [Hq1 Hq2].
  eapply wp_mono; [apply (IH c2 l ch (cleaned q1 ps) u d' q2 Hv2)|].
  - by apply cleaned_full.
  - by apply NoDup_app in Hnd as (_ & _ & ?).
  - intros i j p1 p2 Hi Hj (p10 & H10 & _ & ->)%cleaned_same (p20 & H20 & _ & ->)%cleaned_same E.
    apply (Hdis i j p10 p20); [apply elem_of_app; by right|apply elem_of_app; by right|done|done|done].
  - unfold q2. rewrite length_drop. cbn [length] in Hf |- *. lia.
  - intros [] c3 (d3 & Hv3 & Hw3). exists d3. rewrite Eq, <- cleaned_app. split; [done|]. eapply written_app; [|exact Hw3|done|done].
    split.
    + intros j pj x Hj Hpj Hx. apply list_elem_of_lookup in Hj as [k Hk']. destruct (Htake k j Hk') as (p' & x' & Hp' & Hb' & Hx' & Hxk).
      assert (p' = pj) as -> by congruence. rewrite Hb'. assert (x' = x) as -> by congruence. by apply Hw.
    + intros b' Hb'. apply Hsame. destruct (decide (b' < lmfs_blocknr p \/ lmfs_blocknr p + Z.of_nat (length xs) <= b')) as [?|Hin]; [done|].
      exfalso. destruct (lookup_lt_is_Some_2 q1 (Z.to_nat (b' - lmfs_blocknr p))) as [j Hj]. { unfold q1. rewrite length_take. lia. }
      destruct (Htake _ j Hj) as (p' & x' & Hp' & Hbp' & _). apply (Hb' j p'); [by eapply list_elem_of_lookup_2|done|lia].
Qed.

Lemma wp_rw_scattered c l ch ps u d q : view c l ch ps u d -> fulls q ps -> NoDup q -> distinct q ps ->
  wp (lmfs_rw_scattered dev q WRITING) (fun _ c' => exists d', view c' l ch (cleaned q ps) u d' /\ written ps q d d') c.
Proof using All.
  intros Hv Hq Hnd Hdis. pose proof iovs_bounds as [Hio _]. unfold lmfs_rw_scattered. apply wp_bind, wp_gets.
  destruct q as [|bp q].
  { apply wp_ret. exists d. rewrite cleaned_nil. split; [done|]. split; [by intros i p x ?%elem_of_nil|done]. }
  apply wp_bind. apply wp_ret. apply wp_bind, wp_assert; [by apply negb_true_iff, Z.eqb_neq|]. apply wp_bind, wp_gets. rewrite (v_size _ _ _ _ _ _ _ _ Hv).
  apply wp_bind, wp_assert; [lia|]. fold iovs. apply wp_bind, wp_assert; [lia|].
  destruct (gap_start_ok (S (length (bp :: q))) 0 (Z.of_nat (length (bp :: q)))) as (k & Ek & _ & Hk). change (gap 0) with 1 in Ek. rewrite Ek.
  apply wp_bind. eapply wp_mono; [apply (wp_shell _ c l ch ps u d (bp :: q) k Hv); [by apply fulls_indexed|]|].
  { cbn [length] in *. lia. }
  intros q' c' [-> Hp]. apply wp_bind. eapply wp_mono; [apply (wp_rw_loop _ (S (length q')) c l ch ps u d q' Hv)|].
  - unfold fulls. by rewrite Hp.
  - by rewrite Hp.
  - intros i j p p'. rewrite Hp. apply Hdis.
  - lia.
  - intros [] c1 (d1 & Hv1 & Hw). apply wp_ret. exists d1. rewrite (cleaned_ext q' (bp :: q)) in Hv1 by (intros i; by rewrite Hp).
    split; [done|]. destruct Hw as [Hw1 Hw2]. split; [intros i p x Hi; apply Hw1; by rewrite Hp|].
    intros b Hb. apply Hw2. intros i p Hi. apply Hb. by rewrite <- Hp.
Qed.

(** *** All the dirty buffers of the device *)

Definition dirties ps : list nat := filter (fun i => dirty_on dev ps i = true) (seq 0 (length ps)).

Lemma dirties_elem ps i : i ∈ dirties ps <-> exists p, ps !! i = Some p /\ isclean p = false /\ lmfs_dev p = dev.
Proof using.
  unfold dirties. rewrite list_elem_of_filter, elem_of_seq. unfold dirty_on. split.
  - intros [Hd Hi]. destruct (ps !! i) as [p|]; [|done]. exists p. split; [done|]. apply andb_true_iff in Hd as [H1 H2]. apply negb_true_iff in H1. split; [done|lia].
  - intros (p & Hp & H1 & H2). rewrite Hp, H1, H2, Z.eqb_refl. split; [done|]. apply lookup_lt_Some in Hp. lia.
Qed.

Lemma wp_flushall c l ch ps u d : view c l ch ps u d -> fulls (dirties ps) ps -> distinct (dirties ps) ps ->
  wp (flushall dev) (fun _ c' => exists d', view c' l ch (cleaned (dirties ps) ps) u d' /\ written ps (dirties ps) d d') c.
Proof using All.
  intros Hv Hq Hdis. unfold flushall. apply wp_bind, wp_gets.
  assert (filter (fun i => dirty_on dev (bufs c) i = true) (seq 0 (length (bufs c))) = dirties ps) as ->.
  { unfold dirties. rewrite (view_length _ _ _ _ _ _ _ _ Hv). apply list_filter_iff. intros i. unfold dirty_on.
    rewrite <- (v_pay _ _ _ _ _ _ _ _ Hv), list_lookup_fmap. by destruct (bufs c !! i). }
  eapply wp_rw_scattered; [exact Hv|done| |done]. apply NoDup_filter, NoDup_seq.
Qed.
End flush.
