(* ===== verification/CacheStore.v ===== *)
(** * The contents of the cache

    The invariant of the buffers and the disk behind the abstract state of the
    interface, and what the changes of one buffer, and the flush, do to it. The pointers are
    left to the view. *)

From S2P Require Import Prelude Links KTypes BufCache Cache CacheView CacheFlush.
#[local] Open Scope Z_scope.

(** ** Flags *)

Lemma dirty_isset w : anyset w VMMC_DIRTY = isset w VMMC_DIRTY.
Proof. by apply (anyset_isset _ _ 1). Qed.
Lemma evicted_isset w : anyset w VMMC_EVICTED = isset w VMMC_EVICTED.
Proof. by apply (anyset_isset _ _ 2). Qed.
Lemma locked_isset w : anyset w VMMC_BLOCK_LOCKED = isset w VMMC_BLOCK_LOCKED.
Proof. by apply (anyset_isset _ _ 3). Qed.

Create HintDb flags.
#[export] Hint Rewrite dirty_isset evicted_isset locked_isset : flags.
#[export] Hint Rewrite isset_setf : flags.
#[export] Hint Rewrite isset_clearf_disjoint isset_setf_disjoint isset_clearf using done : flags.

(** ** Counting *)

Section count.
Context {A : Type} (P : A -> Prop) `{!forall x, Decision (P x)}.

Lemma filter_length_insert (l : list A) i x y : l !! i = Some x ->
  (length (filter P (<[i := y]> l)) + (if decide (P x) then 1 else 0) = length (filter P l) + (if decide (P y) then 1 else 0))%nat.
Proof.
  intros Hi. rewrite insert_take_drop by by eapply lookup_lt_Some.
  replace (filter P l) with (filter P (take i l ++ x :: drop (S i) l)) by by rewrite take_drop_middle.
  rewrite !filter_app, !filter_cons, !length_app. destruct (decide (P x)), (decide (P y)); cbn [length]; lia.
Qed.

Lemma filter_length_le (l : list A) : (length (filter P l) <= length l)%nat.
Proof. induction l as [|x l IH]; [done|]. rewrite filter_cons. destruct (decide (P x)); cbn [length]; lia. Qed.
End count.

(** How often a buffer is in use. *)
Definition occ (i : nat) (L : list (nat * Z)) : Z := Z.of_nat (length (filter (fun x => x.1 = i) L)).

Lemma occ_cons i j b L : occ i ((j, b) :: L) = (if decide (j = i) then 1 else 0) + occ i L.
Proof. unfold occ. rewrite filter_cons. cbn [fst]. destruct (decide (j = i)); cbn [length]; lia. Qed.
Lemma occ_perm i L L' : L ≡ₚ L' -> occ i L = occ i L'.
Proof. intros Hp. unfold occ. by rewrite Hp. Qed.
Lemma occ_le i L : 0 <= occ i L <= Z.of_nat (length L).
Proof. unfold occ. pose proof (filter_length_le (fun x : nat * Z => x.1 = i) L). lia. Qed.
Lemma occ_pos i L : 0 < occ i L <-> exists b, (i, b) ∈ L.
Proof.
  induction L as [|[j b] L IH].
  - unfold occ. cbn. split; [lia|]. by intros [? ?%elem_of_nil].
  - rewrite occ_cons. pose proof (occ_le i L). destruct (decide (j = i)) as [->|Hne].
    + split; [|lia]. intros _. exists b. left.
    + replace (0 + occ i L) with (occ i L) by lia. rewrite IH. split; intros [b' Hb]; exists b'; [by right|].
      apply elem_of_cons in Hb as [[=]|?]; [done|done].
Qed.

(** ** The invariant *)

Section store.
Context {D : Type} `{CacheHost D} (dev bs nb : Z) (own : Z -> Prop) `{!CacheHostLaws D dev bs nb}.
Implicit Types (ps : list buf) (d : D) (V : gmap Z (list Z)) (L : list (nat * Z)) (T : gset Z).

Record buf_ok (p : buf) : Prop := {
  bo_dev : lmfs_dev p = NO_DEVICE \/ lmfs_dev p = dev;
  bo_block : 0 <= lmfs_blocknr p < nb;
  bo_evicted : anyset (lmfs_flags p) VMMC_EVICTED = false;
  bo_locked : anyset (lmfs_flags p) VMMC_BLOCK_LOCKED = negb (lmfs_count p =? 0);
  bo_need : lmfs_count p = 0 -> lmfs_needsetcache p = 0;
  bo_data : match data p with None => lmfs_bytes p = 0 /\ lmfs_dev p = NO_DEVICE | Some x => lmfs_bytes p = bs /\ block_ok bs x end;
}.

(** The buffer [i] has the block [b] of the device. *)
Definition holds ps (i : nat) (b : Z) : Prop := exists p, ps !! i = Some p /\ lmfs_dev p = dev /\ lmfs_blocknr p = b.

Record store_ok ps d V L T : Prop := {
  so_bufs i p : ps !! i = Some p -> buf_ok p /\ lmfs_count p = occ i L;
  so_held i b : (i, b) ∈ L -> holds ps i b;
  so_one i j b : holds ps i b -> holds ps j b -> i = j;
  so_own b : is_Some (V !! b) -> own b;
  so_in b : b ∈ L.*2 -> is_Some (V !! b);
  so_buf i p x : ps !! i = Some p -> lmfs_dev p = dev -> V !! lmfs_blocknr p = Some x ->
    data p = Some x /\ (isclean p = true -> lmfs_blocknr p ∉ T -> disk d (lmfs_blocknr p) = x);
  so_disk b x : V !! b = Some x -> (forall i, ~ holds ps i b) -> disk d b = x;
}.

Context (Hdev : dev <> NO_DEVICE).

Lemma so_data ps d V L T i p : store_ok ps d V L T -> ps !! i = Some p -> lmfs_dev p = dev -> exists x, data p = Some x /\ block_ok bs x /\ lmfs_bytes p = bs.
Proof using Hdev.
  intros Hs Hp Hd. destruct (so_bufs _ _ _ _ _ Hs i p Hp) as [Hok _]. pose proof (bo_data _ Hok) as Hx.
  destruct (data p) as [x|]; [destruct Hx as [? ?]; by exists x|]. destruct Hx as [_ Hn]. congruence.
Qed.

Lemma holds_held ps d V L T i b p : store_ok ps d V L T -> (i, b) ∈ L -> ps !! i = Some p -> lmfs_dev p = dev /\ lmfs_blocknr p = b /\ 0 < lmfs_count p.
Proof using.
  intros Hs Hin Hp. destruct (so_held _ _ _ _ _ Hs _ _ Hin) as (p' & Hp' & Hd & Hb). assert (p' = p) as -> by congruence.
  split; [done|]. split; [done|]. destruct (so_bufs _ _ _ _ _ Hs i p Hp) as [_ ->]. apply occ_pos. by exists b.
Qed.

Lemma store_perm ps d V L L' T : store_ok ps d V L T -> L ≡ₚ L' -> store_ok ps d V L' T.
Proof using.
  intros [H1 H2 H3 H4 H5 H6 H7] Hp. split; try done.
  - intros i p Hi. rewrite <- (occ_perm i L L' Hp). by apply H1.
  - intros i b. rewrite <- Hp. apply H2.
  - intros b. rewrite <- Hp. apply H5.
Qed.

Lemma store_disk ps d d' V L T : store_ok ps d V L T -> (forall b, disk d' b = disk d b) -> store_ok ps d' V L T.
Proof using.
  intros [H1 H2 H3 H4 H5 H6 H7] Hd. split; try done.
  - intros i p x. rewrite Hd. apply H6.
  - intros b x. rewrite Hd. apply H7.
Qed.

(** The buffers that hold blocks of the device stay the same when one that holds a block changes. *)
Lemma holds_insert ps i p p' j b : ps !! i = Some p -> lmfs_dev p' = lmfs_dev p -> lmfs_blocknr p' = lmfs_blocknr p ->
  holds (<[i := p']> ps) j b <-> holds ps j b.
Proof using.
  intros Hp Hd Hb. unfold holds. destruct (decide (j = i)) as [->|Hne]; [|by rewrite list_lookup_insert_ne].
  rewrite list_lookup_insert_eq by by eapply lookup_lt_Some. rewrite Hp.
  split; intros (q & [= <-] & ? & ?); eexists; (split; [done|]); by rewrite ?Hd, ?Hb in *.
Qed.

(** A change of one buffer that keeps its block. *)
Lemma store_upd ps d V V' L L' T T' i p p' : store_ok ps d V L T -> ps !! i = Some p -> lmfs_dev p = dev ->
  lmfs_dev p' = dev -> lmfs_blocknr p' = lmfs_blocknr p -> buf_ok p' ->
  lmfs_count p' = occ i L' -> (forall j, j <> i -> occ j L' = occ j L) ->
  (forall j b, (j, b) ∈ L' -> (j, b) ∈ L \/ j = i /\ b = lmfs_blocknr p) ->
  (forall b, b <> lmfs_blocknr p -> V' !! b = V !! b /\ (b ∈ T -> b ∈ T')) ->
  (is_Some (V' !! lmfs_blocknr p) -> own (lmfs_blocknr p)) -> (lmfs_blocknr p ∈ L'.*2 -> is_Some (V' !! lmfs_blocknr p)) ->
  (forall x, V' !! lmfs_blocknr p = Some x -> data p' = Some x /\ (isclean p' = true -> lmfs_blocknr p ∉ T' -> disk d (lmfs_blocknr p) = x)) ->
  store_ok (<[i := p']> ps) d V' L' T'.
Proof using.
  intros [H1 H2 H3 H4 H5 H6 H7] Hp Hpd Hd Hb Hok Hc Hocc HL Hne Hown Hin Hx.
  assert (forall j b, holds (<[i := p']> ps) j b <-> holds ps j b) as Hh by (intros j b; apply (holds_insert ps i p p' j b Hp); congruence).
  pose proof (lookup_lt_Some _ _ _ Hp) as Hlt. split.
  - intros j q Hq. destruct (decide (j = i)) as [->|Hji].
    + rewrite list_lookup_insert_eq in Hq by done. injection Hq as <-. by split.
    + rewrite list_lookup_insert_ne in Hq by done. rewrite Hocc by done. by apply H1.
  - intros j b Hj. apply Hh. destruct (HL j b Hj) as [?|[-> ->]]; [by apply H2|by exists p].
  - intros j j' b. rewrite !Hh. apply H3.
  - intros b Hsm. destruct (decide (b = lmfs_blocknr p)) as [->|Hn]; [by apply Hown|]. apply H4. by destruct (Hne b Hn) as [<- _].
  - intros b Hbl. destruct (decide (b = lmfs_blocknr p)) as [->|Hn]; [by apply Hin|]. destruct (Hne b Hn) as [-> _]. apply H5.
    apply list_elem_of_fmap in Hbl as ([j b'] & -> & Hj). apply list_elem_of_fmap. exists (j, b'). split; [done|].
    destruct (HL j b' Hj) as [?|[_ E]]; [done|]. by cbn in Hn.
  - intros j q x Hq Hqd Hqx. destruct (decide (j = i)) as [->|Hji].
    + rewrite list_lookup_insert_eq in Hq by done. injection Hq as <-. rewrite Hb in *. by apply Hx.
    + rewrite list_lookup_insert_ne in Hq by done.
      assert (lmfs_blocknr q <> lmfs_blocknr p) as Hnb. { intros E. apply Hji, (H3 j i (lmfs_blocknr p)); eexists; split; done. }
      destruct (Hne _ Hnb) as [HV' HT]. rewrite HV' in Hqx. destruct (H6 j q x Hq Hqd Hqx) as [? Hcl]. split; [done|].
      intros Hc1 Hn. apply Hcl; [done|]. intros Hjn. by apply Hn, HT.
  - intros b x Hbx Hno. destruct (decide (b = lmfs_blocknr p)) as [->|Hn].
    + exfalso. apply (Hno i). apply Hh. by exists p.
    + destruct (Hne b Hn) as [HV' _]. rewrite HV' in Hbx. apply H7; [done|]. intros j Hj. apply (Hno j). by apply Hh.
Qed.

(** A change of the flags or the contents of a buffer in use. *)
Lemma store_set ps d V L T T' i b p p' x : store_ok ps d V L T -> (i, b) ∈ L -> ps !! i = Some p ->
  lmfs_dev p' = lmfs_dev p -> lmfs_blocknr p' = lmfs_blocknr p -> lmfs_count p' = lmfs_count p -> buf_ok p' -> data p' = Some x ->
  (forall b', b' <> b -> b' ∈ T -> b' ∈ T') -> (isclean p' = true -> b ∉ T' -> disk d b = x) ->
  store_ok (<[i := p']> ps) d (<[b := x]> V) L T'.
Proof using.
  intros Hs Hin Hp Hd Hb Hc Hok Hx HT Hdisk. destruct (holds_held _ _ _ _ _ _ _ _ Hs Hin Hp) as (Hpd & Hpb & _).
  apply (store_upd ps d V _ L L T T' i p p' Hs Hp Hpd); rewrite ?Hpb; try congruence; try done.
  - rewrite Hc. by apply (so_bufs _ _ _ _ _ Hs).
  - intros j b' ?. by left.
  - intros b' Hne. rewrite lookup_insert_ne by done. split; [done|]. by apply HT.
  - intros _. apply (so_own _ _ _ _ _ Hs), (so_in _ _ _ _ _ Hs). apply list_elem_of_fmap. by exists (i, b).
  - intros _. rewrite lookup_insert_eq. by eexists.
  - intros x'. rewrite lookup_insert_eq. intros [= <-]. done.
Qed.

(** *** The flush *)

Lemma store_fulls ps d V L T : store_ok ps d V L T -> fulls bs nb (dirties dev ps) ps /\ distinct (dirties dev ps) ps.
Proof using Hdev.
  intros Hs. split.
  - apply Forall_forall. intros i (p & Hp & _ & Hd)%dirties_elem. exists p. split; [done|]. destruct (so_bufs _ _ _ _ _ Hs i p Hp) as [Hok _].
    split; [apply (bo_block _ Hok)|]. destruct (so_data _ _ _ _ _ _ _ Hs Hp Hd) as (x & ? & ? & _). by exists x.
  - intros i j p p' (q & Hq & _ & Hd)%dirties_elem (q' & Hq' & _ & Hd')%dirties_elem Hp Hp' E.
    apply (so_one _ _ _ _ _ Hs i j (lmfs_blocknr p)); eexists; (split; [done|]); split; congruence.
Qed.

Lemma clean_clean p : isclean (clean p) = true.
Proof using. unfold isclean, clean. cbn [lmfs_flags set_flags]. by autorewrite with flags. Qed.

Lemma clean_buf_ok p : buf_ok p -> buf_ok (clean p).
Proof using. intros [H1 H2 H3 H4 H5 H6]. split; try done; unfold clean; cbn [lmfs_flags set_flags lmfs_count]; revert H3 H4; by autorewrite with flags. Qed.

Lemma store_flush ps d d' V L T : store_ok ps d V L T -> written dev bs nb ps (dirties dev ps) d d' ->
  store_ok (cleaned (dirties dev ps) ps) d' V L T.
Proof using Hdev.
  intros Hs [Hw1 Hw2]. pose proof Hs as [H1 H2 H3 H4 H5 H6 H7]. set (q := dirties dev ps) in *.
  assert (forall i b, holds (cleaned q ps) i b <-> holds ps i b) as Hh.
  { intros i b. unfold holds. rewrite cleaned_lookup. split.
    - intros (p & Hp & Hd & Hb). destruct (ps !! i) as [p0|]; [|done]. injection Hp as <-. exists p0. by destruct (decide (i ∈ q)).
    - intros (p & -> & Hd & Hb). eexists. split; [done|]. by destruct (decide (i ∈ q)). }
  split; try done.
  - intros i p Hp. rewrite cleaned_lookup in Hp. destruct (ps !! i) as [p0|] eqn:E; [|done]. injection Hp as <-. destruct (H1 i p0 E) as [Hok Hc].
    destruct (decide (i ∈ q)); [|done]. split; [by apply clean_buf_ok|done].
  - intros i b. rewrite Hh. apply H2.
  - intros i j b. rewrite !Hh. apply H3.
  - intros i p x Hp Hd Hx. rewrite cleaned_lookup in Hp. destruct (ps !! i) as [p0|] eqn:E; [|done]. injection Hp as <-.
    assert (lmfs_dev p0 = dev /\ V !! lmfs_blocknr p0 = Some x) as [Hd0 Hx0] by by destruct (decide (i ∈ q)).
    destruct (H6 i p0 x E Hd0 Hx0) as [Hdx Hcl]. destruct (decide (i ∈ q)) as [Hi|Hi].
    + split; [done|]. intros _ _. by apply (Hw1 i p0 x).
    + split; [done|]. intros Hc Hn. rewrite Hw2; [by apply Hcl|]. intros j pj Hj Hpj Eb. apply Hi.
      assert (j = i) as ->; [|done]. apply dirties_elem in Hj as Hj'. destruct Hj' as (pj' & Hpj' & _ & Hdj). assert (pj' = pj) as -> by congruence.
      apply (H3 j i (lmfs_blocknr p0)); eexists; (split; [done|]); by split.
  - intros b x Hx Hno. rewrite Hw2.
    + apply H7; [done|]. intros i Hi. apply (Hno i). by apply Hh.
    + intros i p (p' & Hp' & _ & Hd)%dirties_elem Hp Eb. apply (Hno i), Hh. exists p. assert (p' = p) as -> by congruence. by split.
Qed.

(** *** A buffer for another block *)

Lemma store_drop ps d V L T i p p' : store_ok ps d V L T -> (forall b, b ∈ T -> b ∈ L.*2) -> ps !! i = Some p -> lmfs_count p = 0 ->
  lmfs_dev p = NO_DEVICE \/ isclean p = true -> lmfs_dev p' = NO_DEVICE -> lmfs_count p' = 0 -> buf_ok p' ->
  store_ok (<[i := p']> ps) d V L T.
Proof using Hdev.
  intros Hs HT Hp Hc Hcl Hd' Hc' Hok. pose proof Hs as [H1 H2 H3 H4 H5 H6 H7]. pose proof (lookup_lt_Some _ _ _ Hp) as Hlt.
  assert (occ i L = 0) as Hocc by (rewrite <- Hc; symmetry; by apply (H1 i p)).
  assert (forall j b, holds (<[i := p']> ps) j b <-> holds ps j b /\ j <> i) as Hh.
  { intros j b. unfold holds. destruct (decide (j = i)) as [->|Hne].
    - rewrite list_lookup_insert_eq by done. split; [|by intros [_ ?]]. intros (q & [= <-] & Hq & _). congruence.
    - rewrite list_lookup_insert_ne by done. tauto. }
  split; try done.
  - intros j q Hq. destruct (decide (j = i)) as [->|Hne].
    + rewrite list_lookup_insert_eq in Hq by done. injection Hq as <-. split; [done|]. by rewrite Hocc.
    + rewrite list_lookup_insert_ne in Hq by done. by apply H1.
  - intros j b Hin. apply Hh. split; [by apply H2|]. intros ->. assert (0 < occ i L); [|lia]. apply occ_pos. by exists b.
  - intros j j' b [Hj _]%Hh [Hj' _]%Hh. by eapply H3.
  - intros j q x Hq Hd Hx. destruct (decide (j = i)) as [->|Hne].
    + rewrite list_lookup_insert_eq in Hq by done. injection Hq as <-. congruence.
    + rewrite list_lookup_insert_ne in Hq by done. by eapply H6.
  - intros b x Hx Hno. destruct (decide (lmfs_dev p = dev /\ lmfs_blocknr p = b)) as [[Hpd Hpb]|Hnp].
    + subst b. destruct (H6 i p x Hp Hpd Hx) as [_ Hdisk]. destruct Hcl as [?|Hcl]; [congruence|]. apply Hdisk; [done|].
      intros Hin%HT. apply list_elem_of_fmap in Hin as ([j b'] & Eb & Hj). cbn in Eb. subst b'.
      assert (j = i) as ->. { apply (H3 j i (lmfs_blocknr p)); [by apply H2|by exists p]. }
      assert (0 < occ i L); [|lia]. apply occ_pos. by eexists.
    + apply H7; [done|]. intros j Hj. apply (Hno j), Hh. split; [done|]. intros ->. destruct Hj as (q & Hq & ?). assert (q = p) as -> by congruence. by apply Hnp.
Qed.

Lemma store_take ps d V L T T' i p p' b x : store_ok ps d V L T -> ps !! i = Some p -> lmfs_count p = 0 -> lmfs_dev p = NO_DEVICE ->
  (forall j, ~ holds ps j b) -> own b -> lmfs_dev p' = dev -> lmfs_blocknr p' = b -> lmfs_count p' = 1 -> buf_ok p' -> data p' = Some x ->
  (forall b', b' ∈ T -> b' ∈ T') -> (isclean p' = true -> b ∉ T' -> disk d b = x) ->
  store_ok (<[i := p']> ps) d (<[b := x]> V) ((i, b) :: L) T'.
Proof using Hdev.
  intros Hs Hp Hc Hd Hno Hown Hd' Hb' Hc' Hok Hx HT Hdisk. pose proof Hs as [H1 H2 H3 H4 H5 H6 H7]. pose proof (lookup_lt_Some _ _ _ Hp) as Hlt.
  assert (occ i L = 0) as Hocc by (rewrite <- Hc; symmetry; by apply (H1 i p)).
  assert (forall j b', holds (<[i := p']> ps) j b' <-> (j = i /\ b' = b) \/ (j <> i /\ b' <> b /\ holds ps j b')) as Hh.
  { intros j b'. unfold holds at 1. destruct (decide (j = i)) as [->|Hne].
    - rewrite list_lookup_insert_eq by done. split; [intros (q & [= <-] & ? & <-); by left|]. intros [[_ ->]|[? _]]; [by exists p'|done].
    - rewrite list_lookup_insert_ne by done. split.
      + intros Hj. right. split; [done|]. split; [|done]. intros ->. by apply (Hno j).
      + intros [[? _]|(_ & _ & Hj)]; [done|exact Hj]. }
  split.
  - intros j q Hq. rewrite occ_cons. destruct (decide (i = j)) as [<-|Hne].
    + rewrite list_lookup_insert_eq in Hq by done. injection Hq as <-. split; [done|lia].
    + rewrite list_lookup_insert_ne in Hq by done. replace (0 + occ j L) with (occ j L) by lia. by apply H1.
  - intros j b' [[= -> ->]|Hin]%elem_of_cons; apply Hh; [by left|]. right. split; [|split; [|by apply H2]].
    + intros ->. assert (0 < occ i L); [|lia]. apply occ_pos. by exists b'.
    + intros ->. by apply (Hno j), H2.
  - intros j j' b' Hj%Hh Hj'%Hh. destruct Hj as [[-> ->]|(? & ? & Hj)], Hj' as [[-> ?]|(? & ? & Hj')]; try done. by eapply H3.
  - intros b' Hsm. destruct (decide (b' = b)) as [->|Hne]; [done|]. rewrite lookup_insert_ne in Hsm by done. by apply H4.
  - intros b'. cbn. destruct (decide (b' = b)) as [->|Hne]; [intros _; rewrite lookup_insert_eq; by eexists|].
    intros [?|Hin]%elem_of_cons; [done|]. rewrite lookup_insert_ne by done. by apply H5.
  - intros j q y Hq Hqd Hy. destruct (decide (j = i)) as [->|Hne].
    + rewrite list_lookup_insert_eq in Hq by done. injection Hq as <-. rewrite Hb', lookup_insert_eq in *. injection Hy as <-. by split.
    + rewrite list_lookup_insert_ne in Hq by done. assert (lmfs_blocknr q <> b) as Hnb by (intros E; apply (Hno j); by exists q).
      rewrite lookup_insert_ne in Hy by done. destruct (H6 j q y Hq Hqd Hy) as [? Hcl]. split; [done|]. intros Hc1 Hn. apply Hcl; [done|]. intros ?. by apply Hn, HT.
  - intros b' y Hy Hn. destruct (decide (b' = b)) as [->|Hne]; [exfalso; apply (Hn i), Hh; by left|]. rewrite lookup_insert_ne in Hy by done.
    apply H7; [done|]. intros j Hj. apply (Hn j), Hh. right. split; [|by split]. intros ->. destruct Hj as (q & Hq & ? & _). assert (q = p) as -> by congruence. congruence.
Qed.

(** *** One more use of a buffer, and one less *)

Lemma store_hold ps d V L T T' i p p' b x : store_ok ps d V L T -> ps !! i = Some p -> lmfs_dev p = dev -> lmfs_blocknr p = b -> own b ->
  lmfs_dev p' = dev -> lmfs_blocknr p' = b -> lmfs_count p' = lmfs_count p + 1 -> buf_ok p' -> data p = Some x -> data p' = Some x ->
  isclean p' = isclean p -> (forall b', b' ∈ T -> b' ∈ T') -> (b ∈ T' \/ is_Some (V !! b)) ->
  store_ok (<[i := p']> ps) d (<[b := x]> V) ((i, b) :: L) T'.
Proof using.
  intros Hs Hp Hd Hb Hown Hd' Hb' Hc' Hok Hx Hx' Hcl HT Hsome.
  apply (store_upd ps d V _ L _ T T' i p p' Hs Hp Hd Hd'); rewrite ?Hb; try done.
  - rewrite occ_cons, decide_True by done. destruct (so_bufs _ _ _ _ _ Hs i p Hp) as [_ Hc]. lia.
  - intros j Hj. rewrite occ_cons, decide_False by done. lia.
  - intros j b' [[= -> ->]|?]%elem_of_cons; [by right|by left].
  - intros b' Hne. rewrite lookup_insert_ne by done. split; [done|apply HT].
  - intros _. rewrite lookup_insert_eq. by eexists.
  - intros y. rewrite lookup_insert_eq. intros [= <-]. split; [done|]. rewrite Hcl. intros Hc Hn. destruct Hsome as [?|[y Hy]]; [done|].
    rewrite <- Hb in Hy. destruct (so_buf _ _ _ _ _ Hs i p y Hp Hd Hy) as [Ey Hdisk]. rewrite Hb in *. assert (y = x) as -> by congruence.
    apply Hdisk; [done|]. intros ?. by apply Hn, HT.
Qed.

(** What is left of the contents and the uncertain blocks when a buffer of block [b] is put back. *)
Definition put_V V L T (b : Z) : gmap Z (list Z) := if decide (b ∈ T /\ b ∉ L.*2) then delete b V else V.
Definition put_T L T (b : Z) : gset Z := if decide (b ∈ T /\ b ∉ L.*2) then T ∖ {[b]} else T.

Lemma put_T_in L T b : (forall b', b' ∈ T -> b' ∈ b :: L.*2) -> forall b', b' ∈ put_T L T b -> b' ∈ L.*2.
Proof using.
  intros HT b'. unfold put_T. destruct (decide _) as [[Hb Hn]|Hn].
  - intros [Hin Hne]%elem_of_difference. apply HT in Hin as [->|?]%elem_of_cons; [|done]. by rewrite elem_of_singleton in Hne.
  - intros Hin. destruct (decide (b' ∈ L.*2)) as [?|Hn']; [done|]. pose proof (HT _ Hin) as [->|?]%elem_of_cons; [|done]. exfalso. by apply Hn.
Qed.

Lemma store_put ps d V L T i p p' b : store_ok ps d V ((i, b) :: L) T -> ps !! i = Some p -> 
  lmfs_dev p' = dev -> lmfs_blocknr p' = b -> lmfs_count p' = lmfs_count p - 1 -> buf_ok p' -> data p' = data p -> isclean p' = isclean p ->
  store_ok (<[i := p']> ps) d (put_V V L T b) L (put_T L T b).
Proof using.
  intros Hs Hp Hd' Hb' Hc' Hok Hx Hcl. destruct (holds_held _ _ _ _ _ i b p Hs ltac:(left) Hp) as (Hd & Hb & _).
  assert (is_Some (V !! b)) as Hsome by (apply (so_in _ _ _ _ _ Hs); left).
  apply (store_upd ps d V _ ((i, b) :: L) L T _ i p p' Hs Hp Hd Hd'); rewrite ?Hb; try done.
  - destruct (so_bufs _ _ _ _ _ Hs i p Hp) as [_ Hc]. rewrite occ_cons, decide_True in Hc by done. lia.
  - intros j Hj. rewrite occ_cons, decide_False by done. lia.
  - intros j b' ?. left. by right.
  - intros b' Hne. unfold put_V, put_T. destruct (decide _); [|done]. rewrite lookup_delete_ne by done. split; [done|]. intros ?.
    apply elem_of_difference. split; [done|]. by rewrite elem_of_singleton.
  - intros _. by apply (so_own _ _ _ _ _ Hs).
  - intros Hin. unfold put_V. destruct (decide _) as [[_ ?]|?]; done.
  - intros x. unfold put_V, put_T. destruct (decide _) as [Hdel|Hn]; [by rewrite lookup_delete_eq|]. intros Hxv. rewrite <- Hb in Hxv.
    rewrite Hx, Hcl. destruct (so_buf _ _ _ _ _ Hs i p x Hp Hd Hxv) as [? Hdisk]. split; [done|]. rewrite Hb in Hdisk. done.
Qed.
End store.
