(* ===== verification/CacheProps.v ===== *)
(** * The buffer cache keeps its promises

    The cache of cache.c implements the interface [BufCacheLaws]: the invariant of the whole
    cache, and every operation of the interface against it. *)

From S2P Require Import Prelude Links KTypes BufCache Cache CacheView CacheFlush CacheStore.
#[local] Open Scope Z_scope.

(** ** Pointers and counts *)

Definition slot (n : nat) (p : buf) : nat := Z.to_nat (lmfs_blocknr p `mod` Z.of_nat n).

Record links_ok (ps : list buf) (l : list nat) (ch : nat -> list nat) : Prop := {
  lk_lru i : i ∈ l <-> exists p, ps !! i = Some p /\ lmfs_count p = 0;
  lk_hash i p : ps !! i = Some p -> i ∈ ch (slot (length ps) p);
}.

Definition in_use (ps : list buf) : Z := Z.of_nat (length (filter (fun p => lmfs_count p <> 0) ps)).

Lemma in_use_insert ps i p p' : ps !! i = Some p ->
  in_use (<[i := p']> ps) = in_use ps + (if lmfs_count p' =? 0 then 0 else 1) - (if lmfs_count p =? 0 then 0 else 1).
Proof.
  intros Hp. unfold in_use. pose proof (filter_length_insert (fun p => lmfs_count p <> 0) ps i p p' Hp) as E.
  destruct (decide (lmfs_count p <> 0)), (decide (lmfs_count p' <> 0)), (Z.eqb_spec (lmfs_count p) 0), (Z.eqb_spec (lmfs_count p') 0); lia.
Qed.

Lemma in_use_pos ps i p : ps !! i = Some p -> lmfs_count p <> 0 -> 0 < in_use ps.
Proof.
  intros Hp Hc. unfold in_use. assert (p ∈ filter (fun p => lmfs_count p <> 0) ps) as Hin.
  { apply list_elem_of_filter. split; [done|]. by eapply list_elem_of_lookup_2. }
  destruct (filter _ ps); [by apply elem_of_nil in Hin|]. cbn [length]. lia.
Qed.

Lemma in_use_bounds ps : 0 <= in_use ps <= Z.of_nat (length ps).
Proof. unfold in_use. pose proof (filter_length_le (fun p => lmfs_count p <> 0) ps). lia. Qed.

Lemma in_use_imap (g : nat -> buf -> buf) ps : (forall i p, lmfs_count (g i p) = lmfs_count p) -> in_use (imap g ps) = in_use ps.
Proof.
  unfold in_use. intros Hg. f_equal. revert g Hg. induction ps as [|p ps IH]; intros g Hg; [done|]. cbn [imap]. rewrite !filter_cons.
  rewrite (decide_ext (lmfs_count (g 0%nat p) <> 0) (lmfs_count p <> 0)) by by rewrite Hg.
  destruct (decide (lmfs_count p <> 0)); cbn [length]; rewrite (IH (g ∘ S)); try done; intros i p0; apply Hg.
Qed.

Lemma in_use_cleaned q ps : in_use (cleaned q ps) = in_use ps.
Proof. apply in_use_imap. intros i p. by destruct (decide (i ∈ q)). Qed.

Lemma cleaned_length q ps : length (cleaned q ps) = length ps.
Proof. apply length_imap. Qed.

Lemma links_insert ps l l' ch i p p' : links_ok ps l ch -> ps !! i = Some p -> lmfs_blocknr p' = lmfs_blocknr p ->
  (forall j, j <> i -> j ∈ l' <-> j ∈ l) -> (i ∈ l' <-> lmfs_count p' = 0) -> links_ok (<[i := p']> ps) l' ch.
Proof.
  intros [H1 H2] Hp Hb Hl Hi. pose proof (lookup_lt_Some _ _ _ Hp) as Hlt. split.
  - intros j. destruct (decide (j = i)) as [->|Hne].
    + rewrite list_lookup_insert_eq by done. rewrite Hi. split; [intros ?; by exists p'|]. by intros (? & [= <-] & ?).
    + rewrite list_lookup_insert_ne by done. by rewrite Hl.
  - intros j q Hq. unfold slot. rewrite length_insert. destruct (decide (j = i)) as [->|Hne].
    + rewrite list_lookup_insert_eq in Hq by done. injection Hq as <-. rewrite Hb. by apply H2.
    + rewrite list_lookup_insert_ne in Hq by done. by apply H2.
Qed.

Lemma links_cleaned ps l ch q : links_ok ps l ch -> links_ok (cleaned q ps) l ch.
Proof.
  intros [H1 H2]. split.
  - intros i. rewrite H1, cleaned_lookup. split.
    + intros (p & -> & Hc). eexists. split; [done|]. by destruct (decide (i ∈ q)).
    + intros (p & Hp & Hc). destruct (ps !! i) as [p0|]; [|done]. injection Hp as <-. exists p0. by destruct (decide (i ∈ q)).
  - intros i p Hp. rewrite cleaned_length. rewrite cleaned_lookup in Hp. destruct (ps !! i) as [p0|] eqn:E; [|done]. injection Hp as <-.
    specialize (H2 i p0 E). unfold slot in *. by destruct (decide (i ∈ q)).
Qed.

Lemma i8_small z : 0 <= z <= 127 -> i8 z = z.
Proof. intros Hz. unfold i8. rewrite Z.mod_small; lia. Qed.

Section counts.
Context {D : Type} `{CacheHost D} (bs bd : Z).
Implicit Types (c : @cache D).

Lemma view_raisecount c l ch ps u d i p (Q : unit -> cache -> Prop) : view bs bd c l ch ps u d -> ps !! i = Some p -> 0 <= lmfs_count p < 127 ->
  0 <= u < 2 ^ 32 - 1 -> (lmfs_count p <> 0 -> 0 < u) ->
  (forall c', view bs bd c' l ch (<[i := set_count (lmfs_count p + 1) p]> ps) (if lmfs_count p =? 0 then u + 1 else u) d -> Q tt c') -> wp (raisecount i) Q c.
Proof using.
  intros Hv Hp Hc Hu Hpos HQ. pose proof (lookup_lt_Some _ _ _ Hp) as Hlt. unfold raisecount.
  apply wp_bind. eapply view_getb; [exact Hv|exact Hp|]. intros b Eb _. paid Eb. apply wp_bind, wp_assert; [lia|]. rewrite i8_small by lia.
  apply wp_bind. eapply view_updp; [exact Hv|exact Hp|done|]. intros c1 Hv1.
  apply wp_bind. eapply view_getb; [exact Hv1|by apply list_lookup_insert_eq|]. intros b1 Eb1 _. paid Eb1. cbn [lmfs_count set_count].
  assert (u32 (u + 1) = u + 1) as Eu by (unfold u32; rewrite Z.mod_small; lia).
  destruct (Z.eqb_spec (lmfs_count p) 0) as [E|E].
  - replace (lmfs_count p + 1 =? 1) with true by lia. apply wp_bind, wp_modify. apply wp_bind, wp_gets. cbn [bufs_in_use with_in_use]. rewrite (v_in_use _ _ _ _ _ _ _ _ Hv1), Eu.
    apply wp_assert; [lia|]. apply HQ. eapply view_in_use. exact Hv1.
  - replace (lmfs_count p + 1 =? 1) with false by lia. apply wp_bind, wp_ret, wp_bind, wp_gets. rewrite (v_in_use _ _ _ _ _ _ _ _ Hv1).
    apply wp_assert; [|by apply HQ]. specialize (Hpos E). lia.
Qed.

Lemma view_lowercount c l ch ps u d i p (Q : unit -> cache -> Prop) : view bs bd c l ch ps u d -> ps !! i = Some p -> 0 < lmfs_count p <= 127 ->
  0 < u < 2 ^ 32 ->
  (forall c', view bs bd c' l ch (<[i := set_count (lmfs_count p - 1) p]> ps) (if lmfs_count p - 1 =? 0 then u - 1 else u) d -> Q tt c') -> wp (lowercount i) Q c.
Proof using.
  intros Hv Hp Hc Hu HQ. pose proof (lookup_lt_Some _ _ _ Hp) as Hlt. unfold lowercount.
  apply wp_bind, wp_gets. rewrite (v_in_use _ _ _ _ _ _ _ _ Hv). apply wp_bind, wp_assert; [lia|].
  apply wp_bind. eapply view_getb; [exact Hv|exact Hp|]. intros b Eb _. paid Eb. apply wp_bind, wp_assert; [lia|]. rewrite i8_small by lia.
  apply wp_bind. eapply view_updp; [exact Hv|exact Hp|done|]. intros c1 Hv1.
  apply wp_bind. eapply view_getb; [exact Hv1|by apply list_lookup_insert_eq|]. intros b1 Eb1 _. paid Eb1. cbn [lmfs_count set_count].
  destruct (lmfs_count p - 1 =? 0); [|apply wp_ret; by apply HQ].
  apply wp_modify, HQ. rewrite (v_in_use _ _ _ _ _ _ _ _ Hv1). replace (u32 (u - 1)) with (u - 1) by (unfold u32; rewrite Z.mod_small; lia).
  by eapply view_in_use.
Qed.
End counts.

(** ** The invariant of the cache *)

Section props.
Context {D : Type} `{CacheHost D} (dev bs nb bd : Z) (own : Z -> Prop) `{!CacheHostLaws D dev bs nb}.
Context (Hbs : 1024 <= bs < 65536) (Hdev : dev <> NO_DEVICE) (Hnb : 0 < nb < 2 ^ 32) (Hown : forall b, own b -> 0 <= b < nb).
Implicit Types (c : @cache D) (l : list nat) (ch : nat -> list nat) (ps : list buf) (u : Z) (d : D)
  (V : gmap Z (list Z)) (L : list (nat * Z)) (T : gset Z).
Notation view := (view bs bd).
Notation store_ok := (store_ok dev bs nb own).
Notation buf_ok := (buf_ok dev bs nb).
Notation holds := (holds dev).

Record cache_parts c l ch ps d V L T : Prop := {
  ci_view : view c l ch ps (in_use ps) d;
  ci_store : store_ok ps d V L T;
  ci_links : links_ok ps l ch;
  ci_size : Z.of_nat MINBUFS <= Z.of_nat (length ps) <= 2 ^ 22;
  ci_T b : b ∈ T -> b ∈ L.*2;
  ci_few : (length L <= MINBUFS)%nat;
}.
Definition cache_inv c V L T : Prop := exists l ch ps d, cache_parts c l ch ps d V L T.

Lemma inv_count c l ch ps d V L T i p : cache_parts c l ch ps d V L T -> ps !! i = Some p -> 0 <= lmfs_count p <= 6.
Proof using.
  intros Hi Hp. destruct (so_bufs _ _ _ _ _ _ _ _ _ (ci_store _ _ _ _ _ _ _ _ Hi) i p Hp) as [_ ->]. pose proof (occ_le i L).
  pose proof (ci_few _ _ _ _ _ _ _ _ Hi). unfold MINBUFS in *. lia.
Qed.

(** A buffer in use. *)
Lemma inv_held c l ch ps d V L T i b : cache_parts c l ch ps d V L T -> (i, b) ∈ L ->
  exists p x, ps !! i = Some p /\ lmfs_dev p = dev /\ lmfs_blocknr p = b /\ 0 < lmfs_count p /\ data p = Some x /\ V !! b = Some x /\ buf_ok p.
Proof using.
  intros Hi Hin. pose proof (ci_store _ _ _ _ _ _ _ _ Hi) as Hs. destruct (so_held _ _ _ _ _ _ _ _ _ Hs i b Hin) as (p & Hp & Hd & Hb).
  destruct (holds_held _ _ _ _ _ _ _ _ _ _ _ _ Hs Hin Hp) as (_ & _ & Hc).
  assert (b ∈ L.*2) as Hbl by (apply list_elem_of_fmap; by exists (i, b)). apply (so_in _ _ _ _ _ _ _ _ _ Hs) in Hbl as [x Hx].
  rewrite <- Hb in Hx. destruct (so_buf _ _ _ _ _ _ _ _ _ Hs i p x Hp Hd Hx) as [Hdx _]. rewrite Hb in Hx.
  exists p, x. split_and!; try done. by destruct (so_bufs _ _ _ _ _ _ _ _ _ Hs i p Hp).
Qed.

(** The flags or the contents of a buffer in use change. *)
Lemma inv_set c l ch ps d V L T T' i b p p' x f (Q : unit -> cache -> Prop) : cache_parts c l ch ps d V L T -> (i, b) ∈ L -> ps !! i = Some p -> f p = p' -> plain f ->
  lmfs_dev p' = lmfs_dev p -> lmfs_blocknr p' = lmfs_blocknr p -> lmfs_count p' = lmfs_count p -> buf_ok p' -> data p' = Some x ->
  (forall b', b' <> b -> b' ∈ T -> b' ∈ T') -> (isclean p' = true -> b ∉ T' -> disk d b = x) -> (forall b', b' ∈ T' -> b' ∈ L.*2) ->
  (forall c', cache_inv c' (<[b := x]> V) L T' -> Q tt c') -> wp (updb i f) Q c.
Proof using.
  intros [Hv Hs Hk Hsz HT Hfew] Hin Hp Hf Hplain Hd Hb Hc Hok Hx HT1 Hdisk HT2 HQ. eapply view_updp; [exact Hv|exact Hp|done|].
  intros c' Hv'. apply HQ. rewrite Hf in Hv'. exists l, ch, (<[i := p']> ps), d. split; try done.
  - rewrite (in_use_insert ps i p p' Hp), Hc. replace (_ + _ - _) with (in_use ps) by lia. done.
  - by eapply store_set.
  - eapply links_insert; [done..|]. rewrite Hc. rewrite (lk_lru _ _ _ Hk). rewrite Hp. split; [by intros (? & [= <-] & ?)|intros ?; by exists p].
  - by rewrite length_insert.
Qed.

Lemma buf_ok_flags p f : buf_ok p -> anyset f VMMC_EVICTED = anyset (lmfs_flags p) VMMC_EVICTED ->
  anyset f VMMC_BLOCK_LOCKED = anyset (lmfs_flags p) VMMC_BLOCK_LOCKED -> buf_ok (set_flags f p).
Proof using. intros [H1 H2 H3 H4 H5 H6] E1 E2. split; try done; cbn [lmfs_flags set_flags lmfs_count]; congruence. Qed.

(** ** The operations *)

Lemma lmfs_markdirty_ok c V L T i b : cache_inv c V L T -> (i, b) ∈ L -> wp (lmfs_markdirty i) (fun _ c' => cache_inv c' V L (T ∖ {[b]})) c.
Proof using.
  intros (l & ch & ps & d & Hi) Hin. destruct (inv_held _ _ _ _ _ _ _ _ _ _ Hi Hin) as (p & x & Hp & Hd & Hb & Hc & Hx & HVx & Hok).
  eapply (inv_set _ _ _ _ _ _ _ _ (T ∖ {[b]}) i b p _ x); [exact Hi|exact Hin|exact Hp|done|done|done|done|done| |done| | | |].
  - apply buf_ok_flags; [done|by autorewrite with flags..].
  - intros b' Hne Hb'. apply elem_of_difference. split; [done|]. by rewrite elem_of_singleton.
  - unfold isclean. cbn [lmfs_flags set_flags]. by autorewrite with flags.
  - intros b' [Hb' _]%elem_of_difference. by apply (ci_T _ _ _ _ _ _ _ _ Hi).
  - intros c'. by rewrite insert_id.
Qed.

Lemma lmfs_markclean_ok c V L T i b : cache_inv c V L T -> (i, b) ∈ L -> wp (lmfs_markclean i) (fun _ c' => cache_inv c' V L ({[b]} ∪ T)) c.
Proof using.
  intros (l & ch & ps & d & Hi) Hin. destruct (inv_held _ _ _ _ _ _ _ _ _ _ Hi Hin) as (p & x & Hp & Hd & Hb & Hc & Hx & HVx & Hok).
  eapply (inv_set _ _ _ _ _ _ _ _ ({[b]} ∪ T) i b p _ x); [exact Hi|exact Hin|exact Hp|done|done|done|done|done| |done| | | |].
  - apply buf_ok_flags; [done|by autorewrite with flags..].
  - intros b' _ Hb'. apply elem_of_union. by right.
  - intros _ Hn. exfalso. apply Hn, elem_of_union. left. by apply elem_of_singleton.
  - intros b' [->%elem_of_singleton|Hb']%elem_of_union; [|by apply (ci_T _ _ _ _ _ _ _ _ Hi)]. apply list_elem_of_fmap. by exists (i, b).
  - intros c'. by rewrite insert_id.
Qed.

Lemma set_buf_contents_ok c V L T i b y : cache_inv c V L T -> (i, b) ∈ L -> block_ok bs y ->
  wp (set_buf_contents i y) (fun _ c' => cache_inv c' (<[b := y]> V) L ({[b]} ∪ T)) c.
Proof using.
  intros (l & ch & ps & d & Hi) Hin Hy. destruct (inv_held _ _ _ _ _ _ _ _ _ _ Hi Hin) as (p & x & Hp & Hd & Hb & Hc & Hx & HVx & Hok).
  unfold set_buf_contents. apply wp_bind. eapply view_getb; [apply (ci_view _ _ _ _ _ _ _ _ Hi)|exact Hp|]. intros bf Ebf _. paid Ebf.
  apply wp_bind, (wp_deref _ x); [done|].
  eapply (inv_set _ _ _ _ _ _ _ _ ({[b]} ∪ T) i b p _ y); [exact Hi|exact Hin|exact Hp|done|done|done|done|done| |done| | | |done].
  - destruct Hok as [H1 H2 H3 H4 H5 H6]. split; try done. cbn [data set_data lmfs_bytes]. rewrite Hx in H6. by destruct H6.
  - intros b' _ Hb'. apply elem_of_union. by right.
  - intros _ Hn. exfalso. apply Hn, elem_of_union. left. by apply elem_of_singleton.
  - intros b' [->%elem_of_singleton|Hb']%elem_of_union; [|by apply (ci_T _ _ _ _ _ _ _ _ Hi)]. apply list_elem_of_fmap. by exists (i, b).
Qed.

Lemma buf_contents_ok c V L T i b : cache_inv c V L T -> (i, b) ∈ L ->
  exists x, V !! b = Some x /\ wp (buf_contents i) (fun x' c' => x' = x /\ c' = c) c.
Proof using.
  intros (l & ch & ps & d & Hi) Hin. destruct (inv_held _ _ _ _ _ _ _ _ _ _ Hi Hin) as (p & x & Hp & Hd & Hb & Hc & Hx & HVx & Hok).
  exists x. split; [done|]. unfold buf_contents. apply wp_bind. eapply view_getb; [apply (ci_view _ _ _ _ _ _ _ _ Hi)|exact Hp|].
  intros bf Ebf _. paid Ebf. apply (wp_deref _ x); done.
Qed.

Lemma lmfs_dev_ok c V L T i b : cache_inv c V L T -> (i, b) ∈ L -> wp (lmfs_dev_of i) (fun r c' => r = dev /\ c' = c) c.
Proof using.
  intros (l & ch & ps & d & Hi) Hin. destruct (inv_held _ _ _ _ _ _ _ _ _ _ Hi Hin) as (p & x & Hp & Hd & Hb & Hc & Hx & HVx & Hok).
  unfold lmfs_dev_of. apply wp_bind. eapply view_getb; [apply (ci_view _ _ _ _ _ _ _ _ Hi)|exact Hp|].
  intros bf Ebf _. paid Ebf. by apply wp_ret.
Qed.

(** *** Putting a block back *)

Lemma lmfs_put_block_ok c V L T i b ty : cache_inv c V ((i, b) :: L) T ->
  wp (lmfs_put_block i ty) (fun _ c' => cache_inv c' (put_V V L T b) L (put_T L T b)) c.
Proof using All.
  intros (l & ch & ps & d & Hi). destruct (inv_held _ _ _ _ _ _ _ _ i b Hi ltac:(left)) as (p & x & Hp & Hd & Hb & Hc & Hx & HVx & Hok).
  pose proof (lookup_lt_Some _ _ _ Hp) as Hlt. pose proof (inv_count _ _ _ _ _ _ _ _ _ _ Hi Hp) as Hc6.
  pose proof (in_use_bounds ps) as Hu. pose proof (in_use_pos ps i p Hp ltac:(lia)) as Hu1.
  destruct Hi as [Hv Hs Hk Hsz HT Hfew].
  (* the end, with the buffer of the new count *)
  assert (forall c' l' p', view c' l' ch (<[i := p']> ps) (if lmfs_count p - 1 =? 0 then in_use ps - 1 else in_use ps) d ->
    lmfs_dev p' = dev -> lmfs_blocknr p' = b -> lmfs_count p' = lmfs_count p - 1 -> buf_ok p' -> data p' = data p -> isclean p' = isclean p ->
    (forall j, j <> i -> j ∈ l' <-> j ∈ l) -> (i ∈ l' <-> lmfs_count p' = 0) -> cache_inv c' (put_V V L T b) L (put_T L T b)) as Hend.
  { intros c' l' p' Hv' Hd' Hb' Hc' Hok' Hx' Hcl Hl Hil. exists l', ch, (<[i := p']> ps), d. split.
    - rewrite (in_use_insert ps i p p' Hp), Hc'. replace (lmfs_count p =? 0) with false by lia. destruct (lmfs_count p - 1 =? 0); [|].
      + by replace (in_use ps + 0 - 1) with (in_use ps - 1) by lia.
      + by replace (in_use ps + 1 - 1) with (in_use ps) by lia.
    - by eapply store_put.
    - eapply links_insert; [done..| |done|done]. congruence.
    - by rewrite length_insert.
    - by apply put_T_in.
    - cbn in Hfew. lia. }
  unfold lmfs_put_block. apply wp_bind. eapply view_getb; [exact Hv|exact Hp|]. intros bf Ebf _. apply wp_bind, wp_gets. paid Ebf.
  apply wp_bind. eapply view_lowercount; [exact Hv|exact Hp|lia|lia|]. intros c1 Hv1. set (u := if lmfs_count p - 1 =? 0 then _ else _) in *.
  apply wp_bind. eapply view_getb; [exact Hv1|by apply list_lookup_insert_eq|]. intros b1 Eb1 _. paid Eb1. cbn [lmfs_count set_count].
  destruct (Z.eqb_spec (lmfs_count p - 1) 0) as [E|E]; cbn [negb].
  2:{ apply wp_ret. eapply (Hend c1 l _ Hv1); try done.
      - destruct Hok as [H1 H2 H3 H4 H5 H6]. split; try done; cbn [lmfs_flags set_count lmfs_count].
        rewrite H4. f_equal. lia.
      - rewrite (lk_lru _ _ _ Hk), Hp. cbn [lmfs_count set_count]. split; [|done]. intros (? & [= <-] & ?). lia. }
  set (p1 := set_count (lmfs_count p - 1) p) in *.
  assert (i ∉ l) as Hil. { rewrite (lk_lru _ _ _ Hk), Hp. intros (? & [= <-] & ?). lia. }
  assert (forall (Q : unit -> cache -> Prop), (forall c' l', view c' l' ch (<[i := p1]> ps) u d -> (forall j, j <> i -> j ∈ l' <-> j ∈ l) -> i ∈ l' -> Q tt c') ->
    wp (if (lmfs_dev p =? DEV_RAM) || anyset ty ONE_SHOT then lru_front i else lru_rear i) Q c1) as Hlru.
  { intros Q HQ. destruct ((lmfs_dev p =? DEV_RAM) || anyset ty ONE_SHOT).
    - eapply view_lru_front; [exact Hv1|done|by rewrite length_insert|]. intros c' Hv'. eapply HQ; [exact Hv'| |left].
      intros j Hne. rewrite elem_of_cons. split; [by intros [?|?]|by right].
    - eapply view_lru_rear; [exact Hv1|done|by rewrite length_insert|]. intros c' Hv'. eapply HQ; [exact Hv'| |apply elem_of_app; right; left].
      intros j Hne. rewrite elem_of_app, list_elem_of_singleton. split; [by intros [?|?]|by left]. }
  apply wp_bind. apply Hlru. intros c2 l2 Hv2 Hl2 Hi2.
  apply wp_bind. eapply view_getb; [exact Hv2|by apply list_lookup_insert_eq|]. intros b2 Eb2 _. paid Eb2. unfold p1 at 1. cbn [lmfs_flags set_count].
  apply wp_bind, wp_assert; [rewrite (bo_locked _ _ _ _ Hok); lia|].
  apply wp_bind. eapply view_updp; [exact Hv2|by apply list_lookup_insert_eq|done|]. intros c3 Hv3. rewrite list_insert_insert_eq in Hv3.
  apply wp_bind, wp_gets. rewrite (v_vm _ _ _ _ _ _ _ _ Hv3).
  apply wp_bind. eapply view_getb; [exact Hv3|by apply list_lookup_insert_eq|]. intros b3 Eb3 _. cbn [Z.eqb negb andb].
  apply wp_bind, wp_ret. eapply view_updp; [exact Hv3|by apply list_lookup_insert_eq|done|]. intros c4 Hv4. rewrite list_insert_insert_eq in Hv4.
  eapply (Hend c4 l2 _ Hv4); try done.
  - destruct Hok as [H1 H2 H3 H4 H5 H6]. split; try done; unfold p1; cbn [lmfs_flags set_flags set_count lmfs_count set_needsetcache]; autorewrite with flags in *; [done|].
    rewrite E. done.
  - unfold isclean, p1. cbn [lmfs_flags set_flags set_count set_needsetcache]. by autorewrite with flags.
Qed.
End props.
