(* ===== verification/CacheGet.v ===== *)
(** * Getting a block

    [lmfs_get_block_ino] finds the buffer of a block, or takes the least recently used one: its
    chain, the flush of dirty contents before they are dropped, and the read. *)

From S2P Require Import Prelude Links KTypes BufCache Cache CacheView CacheFlush CacheStore CacheProps.
#[local] Open Scope Z_scope.

(** The same blocks and counts. *)
Definition alike (ps ps' : list buf) : Prop := Forall2 (fun p p' => lmfs_blocknr p' = lmfs_blocknr p /\ lmfs_count p' = lmfs_count p) ps ps'.

Lemma alike_in_use ps ps' : alike ps ps' -> in_use ps' = in_use ps.
Proof.
  unfold in_use. intros Ha. f_equal. induction Ha as [|p p' ps ps' [_ Hc] _ IH]; [done|]. rewrite !filter_cons.
  rewrite (decide_ext (lmfs_count p' <> 0) (lmfs_count p <> 0)) by by rewrite Hc. destruct (decide _); cbn [length]; by rewrite IH.
Qed.
Lemma alike_refl ps : alike ps ps.
Proof. unfold alike. induction ps; by constructor. Qed.
Lemma alike_lookup ps ps' i p' : alike ps ps' -> ps' !! i = Some p' -> exists p, ps !! i = Some p /\ lmfs_blocknr p' = lmfs_blocknr p /\ lmfs_count p' = lmfs_count p.
Proof. intros Ha Hp. destruct (Forall2_lookup_r _ _ _ _ _ Ha Hp) as (p & Hpp & E). by exists p. Qed.
Lemma alike_cleaned q ps : alike ps (cleaned q ps).
Proof.
  apply Forall2_lookup. intros i. rewrite cleaned_lookup. destruct (ps !! i) as [p|]; [|constructor]. constructor. by destruct (decide (i ∈ q)).
Qed.
Lemma alike_insert ps ps' i p p' : alike ps ps' -> ps !! i = Some p -> lmfs_blocknr p' = lmfs_blocknr p -> lmfs_count p' = lmfs_count p -> alike ps (<[i := p']> ps').
Proof. intros Ha Hp Hb Hc. rewrite <- (list_insert_id ps i p Hp). by apply Forall2_insert. Qed.

Section get.
Context {D : Type} `{CacheHost D} (dev bs nb bd : Z) (own : Z -> Prop) `{!CacheHostLaws D dev bs nb}.
Context (Hbs : 1024 <= bs < 65536) (Hdev : dev <> NO_DEVICE) (Hnb : 0 < nb < 2 ^ 32) (Hown : forall b, own b -> 0 <= b < nb).
Implicit Types (c : @cache D) (l : list nat) (ch : nat -> list nat) (ps : list buf) (u : Z) (d : D)
  (V : gmap Z (list Z)) (L : list (nat * Z)) (T : gset Z).
Notation view := (view bs bd).
Notation store_ok := (store_ok dev bs nb own).
Notation buf_ok := (buf_ok dev bs nb).
Notation holds := (holds dev).
Notation cache_parts := (cache_parts dev bs nb bd own).
Notation cache_inv := (cache_inv dev bs nb bd own).
Notation same_disk d d' := (forall x, disk (dev := dev) (bs := bs) (nb := nb) d' x = disk (dev := dev) (bs := bs) (nb := nb) d x).

(** *** A block in the cache *)

Lemma get_found_ok c l ch ps d V L T T' i p b ino off : cache_parts c l ch ps d V L T -> (length L < MINBUFS)%nat ->
  ps !! i = Some p -> lmfs_dev p = dev -> lmfs_blocknr p = b -> own b -> (forall b', b' ∈ T -> b' ∈ T') -> (forall b', b' ∈ T' -> b' ∈ b :: L.*2) ->
  (b ∈ T' \/ is_Some (V !! b)) ->
  wp (get_found i dev ino off) (fun _ c' => exists x, data p = Some x /\ block_ok bs x /\ cache_inv c' (<[b := x]> V) ((i, b) :: L) T') c.
Proof using All.
  intros Hi Hlen Hp Hd Hb Hob HT1 HT2 Hsome. pose proof (lookup_lt_Some _ _ _ Hp) as Hlt. pose proof (inv_count _ _ _ _ _ _ _ _ _ _ _ _ _ _ _ Hi Hp) as Hc.
  pose proof (in_use_bounds ps) as Hu. pose proof (in_use_pos ps i p Hp) as Hu1.
  destruct Hi as [Hv Hs Hk Hsz HT Hfew]. destruct (so_bufs _ _ _ _ _ _ _ _ _ Hs i p Hp) as [Hok _].
  destruct (so_data _ _ _ _ Hdev _ _ _ _ _ _ _ Hs Hp Hd) as (x & Hx & Hxok & Hbytes).
  (* the end *)
  assert (forall c' l' p', view c' l' ch (<[i := p']> ps) (if lmfs_count p =? 0 then in_use ps + 1 else in_use ps) d ->
    lmfs_dev p' = dev -> lmfs_blocknr p' = b -> lmfs_count p' = lmfs_count p + 1 -> buf_ok p' -> data p' = Some x -> isclean p' = isclean p ->
    (forall j, j ∈ l' <-> j ∈ l /\ j <> i) -> cache_inv c' (<[b := x]> V) ((i, b) :: L) T') as Hend.
  { intros c' l' p' Hv' Hd' Hb' Hc' Hok' Hx' Hcl Hl. exists l', ch, (<[i := p']> ps), d. split.
    - rewrite (in_use_insert ps i p p' Hp), Hc'. replace (lmfs_count p + 1 =? 0) with false by lia. destruct (lmfs_count p =? 0).
      + by replace (in_use ps + 1 - 0) with (in_use ps + 1) by lia.
      + by replace (in_use ps + 1 - 1) with (in_use ps) by lia.
    - by eapply store_hold.
    - eapply links_insert; [done..|congruence| |].
      + intros j Hj. rewrite Hl. tauto.
      + rewrite Hl, Hc'. split; [by intros [_ ?]|lia].
    - by rewrite length_insert.
    - done.
    - cbn. lia. }
  unfold get_found. apply wp_bind. eapply view_getb; [exact Hv|exact Hp|]. intros bf Ebf _. paid Ebf.
  (* the buffer leaves the list of those not in use *)
  assert (forall (Q : unit -> cache -> Prop),
    (forall c' l' p1, view c' l' ch (<[i := p1]> ps) (in_use ps) d -> (forall j, j ∈ l' <-> j ∈ l /\ j <> i) ->
      (exists f, p1 = set_flags f p) -> anyset (lmfs_flags p1) VMMC_BLOCK_LOCKED = true ->
      anyset (lmfs_flags p1) VMMC_EVICTED = anyset (lmfs_flags p) VMMC_EVICTED -> isclean p1 = isclean p -> Q tt c') ->
    wp (when (lmfs_count p =? 0) (rm_lru i;; c_assert (lmfs_needsetcache p =? 0);; c_assert (negb (anyset (lmfs_flags p) VMMC_BLOCK_LOCKED));;
      updb i (fun b => set_flags (setf (lmfs_flags b) VMMC_BLOCK_LOCKED) b))) Q c) as Hrm.
  { intros Q HQ. apply wp_when; intros E.
    - assert (i ∈ l) as Hil by (apply (lk_lru _ _ _ Hk); exists p; split; [done|lia]).
      apply list_elem_of_split in Hil as (l1 & l2 & ->). pose proof (v_lru _ _ _ _ _ _ _ _ Hv) as [Hnd _].
      apply wp_bind. eapply view_rm_lru; [exact Hv|]. intros c1 Hv1.
      apply wp_bind, wp_assert; [rewrite (bo_need _ _ _ _ Hok); lia|].
      apply wp_bind, wp_assert; [rewrite (bo_locked _ _ _ _ Hok); by rewrite E|].
      eapply view_updp; [exact Hv1|exact Hp|done|]. intros c2 Hv2. eapply HQ; [exact Hv2| |by eexists| | |].
      + intros j. rewrite !elem_of_app, elem_of_cons. apply NoDup_app in Hnd as (_ & Hdis & [Hni _]%NoDup_cons).
        split; [|tauto]. intros [Hj|Hj]; (split; [tauto|]); intros ->; [by apply (Hdis i Hj); left|done].
      + cbn [lmfs_flags set_flags]. by autorewrite with flags.
      + cbn [lmfs_flags set_flags]. by autorewrite with flags.
      + unfold isclean. cbn [lmfs_flags set_flags]. by autorewrite with flags.
    - assert (p = set_flags (lmfs_flags p) p) as Ep by by destruct p.
      apply (HQ c l p); [by rewrite list_insert_id| |by eexists|rewrite (bo_locked _ _ _ _ Hok), E; done|done|done].
      intros j. split; [|by intros [? _]]. intros Hj. split; [done|]. intros ->. apply (lk_lru _ _ _ Hk) in Hj as (q & Hq & ?).
      assert (q = p) as -> by congruence. lia. }
  apply wp_bind. apply Hrm. intros c1 l1 p1 Hv1 Hl1 [f Ep1] Hlk Hev Hcl. clear Hrm.
  assert (lmfs_count p1 = lmfs_count p) as Ec1 by by rewrite Ep1.
  apply wp_bind. eapply (view_raisecount bs bd c1); [exact Hv1|by apply list_lookup_insert_eq|lia|lia|lia|]. rewrite Ec1, list_insert_insert_eq. intros c2 Hv2.
  set (p2 := set_count (lmfs_count p + 1) p1) in *.
  assert (buf_ok p2) as Hok2.
  { destruct Hok as [H1 H2 H3 H4 H5 H6]. unfold p2. split; rewrite ?Ep1 in *; try done; cbn [lmfs_flags set_flags set_count lmfs_count] in *.
    - congruence.
    - rewrite Hlk. lia.
    - lia. }
  apply wp_bind. eapply view_getb; [exact Hv2|by apply list_lookup_insert_eq|]. intros b2 Eb2 _. apply wp_bind, wp_gets. rewrite (v_size _ _ _ _ _ _ _ _ Hv2).
  assert (lmfs_bytes p2 = bs /\ lmfs_dev p2 = dev /\ data p2 = Some x /\ lmfs_blocknr p2 = b /\ isclean p2 = isclean p) as (E1 & E2 & E3 & E4 & E5).
  { unfold p2. rewrite <- Hcl. rewrite Ep1. done. }
  paid Eb2. rewrite E1, E2, E3. apply wp_bind, wp_assert; [lia|]. apply wp_bind, wp_assert; [lia|].
  apply wp_bind, wp_assert; [by apply negb_true_iff, Z.eqb_neq|]. apply wp_bind, wp_assert; [done|]. apply wp_bind, wp_assert; [done|].
  apply wp_when; intros _.
  - apply wp_when; intros _.
    + eapply view_updp; [exact Hv2|by apply list_lookup_insert_eq|done|]. intros c3 Hv3. rewrite list_insert_insert_eq in Hv3. exists x. split; [done|].
      split; [done|]. eapply (Hend c3 l1 _ Hv3); try done. destruct Hok2 as [H1 H2 H3 H4 H5 H6]. split; try done. cbn. lia.
    + exists x. split; [done|]. split; [done|]. by eapply Hend.
  - exists x. split; [done|]. split; [done|]. by eapply Hend.
Qed.

(** *** A block that is not *)

Lemma wp_freeblock c l ch ps u d V L T i p : view c l ch ps u d -> store_ok ps d V L T -> (forall b, b ∈ T -> b ∈ L.*2) ->
  ps !! i = Some p -> lmfs_count p = 0 ->
  wp (freeblock i) (fun _ c' => exists ps' d' p', view c' l ch ps' u d' /\ store_ok ps' d' V L T /\ alike ps ps' /\
    (forall j b, holds ps' j b -> holds ps j b) /\ ps' !! i = Some p' /\ lmfs_dev p' = NO_DEVICE /\ data p' = None /\ lmfs_bytes p' = 0) c.
Proof using Hdev Hbs Hnb.
  intros Hv Hs HT Hp Hc. pose proof (lookup_lt_Some _ _ _ Hp) as Hlt.
  unfold freeblock. apply wp_bind. eapply view_getb; [exact Hv|exact Hp|]. intros bf Ebf _. paid Ebf.
  apply wp_bind, wp_assert; [lia|].
  (* the state with a buffer without device *)
  assert (forall (Q : unit -> cache -> Prop),
    (forall c' ps1 d1 p1, view c' l ch (<[i := set_dev NO_DEVICE p1]> ps1) u d1 -> store_ok ps1 d1 V L T -> alike ps ps1 -> ps1 !! i = Some p1 ->
      (forall j b, holds ps1 j b -> holds ps j b) -> lmfs_dev p1 = NO_DEVICE \/ isclean p1 = true -> Q tt c') ->
    wp (when (negb (lmfs_dev p =? NO_DEVICE)) (when (negb (isclean p)) (flushall (lmfs_dev p));; bs ← gets block_size; c_assert (lmfs_bytes p =? bs);;
       updb i (set_dev NO_DEVICE))) Q c) as Hfl.
  { intros Q HQ. destruct (so_bufs _ _ _ _ _ _ _ _ _ Hs i p Hp) as [Hok _]. apply wp_when; intros E.
    - apply negb_true_iff, Z.eqb_neq in E. assert (lmfs_dev p = dev) as Hd by (by destruct (bo_dev _ _ _ _ Hok)).
      destruct (so_data _ _ _ _ Hdev _ _ _ _ _ _ _ Hs Hp Hd) as (x & Hx & _ & Hbytes).
      apply wp_bind, wp_when; intros Ecl.
      + destruct (store_fulls _ _ _ _ Hdev _ _ _ _ _ Hs) as [Hf Hdis]. rewrite Hd.
        eapply wp_mono; [apply (wp_flushall dev bs nb bd ltac:(lia) Hdev ltac:(lia) c l ch ps u d Hv Hf Hdis)|]. intros [] c1 (d1 & Hv1 & Hw).
        apply wp_bind, wp_gets. rewrite (v_size _ _ _ _ _ _ _ _ Hv1). apply wp_bind, wp_assert; [lia|].
        assert (i ∈ dirties dev ps) as Hin. { apply dirties_elem. exists p. split; [done|]. split; [by apply negb_true_iff|done]. }
        assert (cleaned (dirties dev ps) ps !! i = Some (clean p)) as Hp1 by (rewrite cleaned_lookup, Hp; cbn; by rewrite decide_True).
        eapply view_updp; [exact Hv1|exact Hp1|done|]. intros c2 Hv2. eapply HQ; [exact Hv2|by eapply store_flush|apply alike_cleaned|exact Hp1| |right; apply clean_clean].
        intros j b (q & Hq & Hqd & Hqb). rewrite cleaned_lookup in Hq. destruct (ps !! j) as [q0|] eqn:Eq; [|done]. injection Hq as <-. exists q0.
        split; [done|]. by destruct (decide _).
      + apply negb_false_iff in Ecl. apply wp_bind, wp_gets. rewrite (v_size _ _ _ _ _ _ _ _ Hv). apply wp_bind, wp_assert; [lia|].
        eapply view_updp; [exact Hv|exact Hp|done|]. intros c2 Hv2. eapply HQ; [exact Hv2|done|apply alike_refl|done|done|by right].
    - apply negb_false_iff, Z.eqb_eq in E. assert (set_dev NO_DEVICE p = p) as Ep by (destruct p; cbn in *; by subst).
      eapply (HQ c ps d p); [by rewrite Ep, list_insert_id|done|apply alike_refl|done|done|by left]. }
  apply wp_bind, Hfl. intros c1 ps1 d1 p1 Hv1 Hs1 Ha1 Hp1 Hh1 Hcl1. clear Hfl.
  pose proof (lookup_lt_Some _ _ _ Hp1) as Hlt1. destruct (so_bufs _ _ _ _ _ _ _ _ _ Hs1 i p1 Hp1) as [Hok1 _].
  destruct (alike_lookup _ _ _ _ Ha1 Hp1) as (p0 & Hp0 & Eb1 & Ec1). assert (p0 = p) as -> by congruence.
  assert (forall c' p2, view c' l ch (<[i := p2]> ps1) u d1 -> lmfs_dev p2 = NO_DEVICE -> lmfs_blocknr p2 = lmfs_blocknr p -> lmfs_count p2 = 0 ->
    data p2 = None -> lmfs_bytes p2 = 0 -> buf_ok p2 -> exists ps' d' p', view c' l ch ps' u d' /\ store_ok ps' d' V L T /\ alike ps ps' /\
    (forall j b, holds ps' j b -> holds ps j b) /\ ps' !! i = Some p' /\ lmfs_dev p' = NO_DEVICE /\ data p' = None /\ lmfs_bytes p' = 0) as Hend.
  { intros c' p2 Hv2 Hd2 Hb2 Hc2 Hx2 Hy2 Hok2. exists (<[i := p2]> ps1), d1, p2. split; [done|]. split; [eapply store_drop; try done; lia|].
    split; [eapply alike_insert; try done; lia|]. split; [|split; [by apply list_lookup_insert_eq|done]].
    intros j b (q & Hq & Hqd & Hqb). destruct (decide (j = i)) as [->|Hne].
    - rewrite list_lookup_insert_eq in Hq by done. injection Hq as <-. congruence.
    - rewrite list_lookup_insert_ne in Hq by done. apply Hh1. by exists q. }
  unfold lmfs_markclean. apply wp_bind. eapply view_updp; [exact Hv1|by apply list_lookup_insert_eq|done|]. intros c2 Hv2. rewrite list_insert_insert_eq in Hv2.
  apply wp_bind. eapply view_getb; [exact Hv2|by apply list_lookup_insert_eq|]. intros b2 Eb2 _. paid Eb2. cbn [data lmfs_bytes set_flags set_dev].
  pose proof (bo_data _ _ _ _ Hok1) as Hdata. apply clean_buf_ok in Hok1 as [H1 H2 H3 H4 H5 H6].
  destruct (data p1) as [x|] eqn:Ex.
  - destruct Hdata as [-> _]. replace (0 <? bs) with true by lia. apply wp_bind, wp_assert; [done|].
    eapply view_updp; [exact Hv2|by apply list_lookup_insert_eq|done|]. intros c3 Hv3. rewrite list_insert_insert_eq in Hv3.
    eapply Hend; [exact Hv3|done|done|cbn; lia|done|done|]. split; try done. by left.
  - destruct Hdata as [Ey _]. rewrite Ey. cbn [Z.ltb Z.compare]. apply wp_assert; [done|].
    eapply Hend; [exact Hv2|done|done|cbn; lia|done|done|]. split; try done; [by left|]. cbn. by rewrite Ex.
Qed.
(** The buffer [i] has been taken out of the lists, and into the chain of [b]; all but it is as before. *)
Record taking (l : list nat) ch ps d V L T (i : nat) (b : Z) : Prop := {
  tk_store : store_ok ps d V L T;
  tk_free : exists p, ps !! i = Some p /\ lmfs_dev p = NO_DEVICE /\ lmfs_count p = 0;
  tk_lru j : j ∈ l <-> j <> i /\ exists p, ps !! j = Some p /\ lmfs_count p = 0;
  tk_hash j p : ps !! j = Some p -> j <> i -> j ∈ ch (slot (length ps) p);
  tk_hash_i : i ∈ ch (Z.to_nat (b `mod` Z.of_nat (length ps)));
  tk_size : Z.of_nat MINBUFS <= Z.of_nat (length ps) <= 2 ^ 22;
  tk_T b' : b' ∈ T -> b' ∈ L.*2;
  tk_few : (length L < MINBUFS)%nat;
  tk_none j : ~ holds ps j b;
}.

(** The buffer with a block is a buffer in use. *)
Lemma taking_done c l ch ps d d' V L T T' i b p' x : taking l ch ps d V L T i b -> own b -> view c l ch (<[i := p']> ps) (in_use ps + 1) d' -> same_disk d d' ->
  lmfs_dev p' = dev -> lmfs_blocknr p' = b -> lmfs_count p' = 1 -> buf_ok p' -> data p' = Some x ->
  (forall b', b' ∈ T -> b' ∈ T') -> (forall b', b' ∈ T' -> b' = b \/ b' ∈ T) -> (isclean p' = true -> b ∉ T' -> disk d b = x) ->
  cache_inv c (<[b := x]> V) ((i, b) :: L) T'.
Proof using Hdev Hbs Hnb.
  intros [Hs (p & Hp & Hpd & Hpc) Hl Hh Hhi Hsz HT Hfew Hno] Hob Hv Hsame Hd Hb Hc Hok Hx HT1 HT2 Hdisk.
  pose proof (lookup_lt_Some _ _ _ Hp) as Hlt. exists l, ch, (<[i := p']> ps), d'. split.
  - rewrite (in_use_insert ps i p p' Hp), Hc, Hpc. cbn [Z.eqb]. by replace (in_use ps + 1 - 0) with (in_use ps + 1) by lia.
  - eapply store_disk; [|exact Hsame]. by eapply store_take.
  - split.
    + intros j. rewrite Hl. destruct (decide (j = i)) as [->|Hne].
      * rewrite list_lookup_insert_eq by done. split; [by intros [? _]|]. intros (? & [= <-] & ?). lia.
      * rewrite list_lookup_insert_ne by done. tauto.
    + intros j q Hq. rewrite length_insert. destruct (decide (j = i)) as [->|Hne].
      * rewrite list_lookup_insert_eq in Hq by done. injection Hq as <-. unfold slot. by rewrite Hb.
      * rewrite list_lookup_insert_ne in Hq by done. by apply Hh.
  - by rewrite length_insert.
  - intros b' Hb'. cbn. apply elem_of_cons. destruct (HT2 b' Hb') as [?|?]; [by left|right; by apply HT].
  - cbn. lia.
Qed.

Lemma wp_get_new c i l ch ps d V L T b ino off (Q : unit -> cache -> Prop) : cache_parts c (i :: l) ch ps d V L T -> own b -> (length L < MINBUFS)%nat ->
  (forall j, ~ holds ps j b) ->
  (forall c' ch' ps' d' p', taking l ch' ps' d' V L T i b -> view c' l ch' (<[i := p']> ps') (in_use ps' + 1) d' ->
    lmfs_dev p' = dev -> lmfs_blocknr p' = b -> lmfs_count p' = 1 -> lmfs_flags p' = VMMC_BLOCK_LOCKED -> data p' = None -> lmfs_bytes p' = 0 -> Q tt c') ->
  wp (get_new i dev b ino off) Q c.
Proof using All.
  intros [Hv Hs Hk Hsz HT Hfew] Hob Hlen Hno HQ.
  assert (exists p, ps !! i = Some p /\ lmfs_count p = 0) as (p & Hp & Hc) by (apply (lk_lru _ _ _ Hk); left).
  pose proof (v_lru _ _ _ _ _ _ _ _ Hv) as [Hnd _]. apply NoDup_cons in Hnd as [Hil Hnd].
  pose proof (lookup_lt_Some _ _ _ Hp) as Hlt. set (j := slot (length ps) p).
  assert (j < length ps)%nat as Hj. { unfold j, slot. pose proof (Z.mod_pos_bound (lmfs_blocknr p) (Z.of_nat (length ps)) ltac:(lia)). lia. }
  pose proof (lk_hash _ _ _ Hk i p Hp) as Hich. fold j in Hich. apply list_elem_of_split in Hich as (l1 & l2 & Ech).
  unfold get_new. apply wp_bind. eapply (view_rm_lru bs bd c [] i l); [exact Hv|]. cbn [app]. intros c1 Hv1.
  apply wp_bind. eapply view_hash_remove; [exact Hv1|exact Hp|exact Ech|]. intros c2 Hv2. fold j in Hv2. fold (slot (length ps) p) in Hv2. fold j in Hv2.
  set (ch2 := set_chain ch j (l1 ++ l2)) in *.
  assert (forall k, i ∉ ch2 k) as Hni.
  { intros k Hik. assert (NoDup (ch j)) as Hndj by (apply (v_nodup _ _ _ _ _ _ _ _ Hv); by rewrite (view_length _ _ _ _ _ _ _ _ Hv)).
    unfold ch2, set_chain in Hik. destruct (decide (k = j)) as [->|Hne].
    - rewrite Ech in Hndj. apply NoDup_app in Hndj as (_ & Hdis & [Hn2 _]%NoDup_cons). apply elem_of_app in Hik as [Hik|Hik]; [|done].
      apply (Hdis i Hik). left.
    - apply Hne. eapply (v_one _ _ _ _ _ _ _ _ Hv); [exact Hik|]. rewrite Ech. apply elem_of_app. right. left. }
  assert (forall k q, ps !! k = Some q -> k <> i -> k ∈ ch2 (slot (length ps) q)) as Hch2.
  { intros k q Hq Hne. pose proof (lk_hash _ _ _ Hk k q Hq) as Hin. unfold ch2, set_chain. destruct (decide _) as [E|]; [|done].
    rewrite E, Ech in Hin. rewrite elem_of_app, elem_of_cons in Hin. apply elem_of_app. tauto. }
  apply wp_bind. eapply wp_mono; [apply (wp_freeblock c2 l ch2 ps (in_use ps) d V L T i p Hv2 Hs HT Hp Hc)|].
  intros [] c3 (ps3 & d3 & p3 & Hv3 & Hs3 & Ha3 & Hh3 & Hp3 & Hd3 & Hx3 & Hy3). cbn beta.
  pose proof (lookup_lt_Some _ _ _ Hp3) as Hlt3. assert (length ps3 = length ps) as Elen by (symmetry; by eapply Forall2_length).
  assert (lmfs_count p3 = 0) as Hc3. { destruct (alike_lookup _ _ _ _ Ha3 Hp3) as (p0 & Hp0 & _ & Ec). assert (p0 = p) as -> by congruence. lia. }
  apply wp_bind. eapply view_updp; [exact Hv3|exact Hp3|done|]. intros c4 Hv4.
  apply wp_bind. eapply view_getb; [exact Hv4|by apply list_lookup_insert_eq|]. intros b4 Eb4 _. paid Eb4.
  apply wp_bind, wp_assert; [cbn; lia|]. pose proof (in_use_bounds ps) as Hu. apply wp_bind.
  eapply (view_raisecount bs bd c4); [exact Hv4|by apply list_lookup_insert_eq|cbn; lia|lia|cbn; lia|]. rewrite list_insert_insert_eq. intros c5 Hv5.
  replace (lmfs_count _ =? 0) with true in Hv5 by (cbn; lia). set (p5 := set_count _ _) in Hv5.
  apply wp_bind. eapply (view_hash_insert bs bd c5); [exact Hv5|by apply list_lookup_insert_eq|exact Hni|]. intros c6 Hv6.
  rewrite length_insert in Hv6. change (lmfs_blocknr p5) with b in Hv6. set (j6 := Z.to_nat _) in Hv6.
  apply wp_bind, wp_assert; [by apply negb_true_iff, Z.eqb_neq|].
  apply wp_bind. eapply view_getb; [exact Hv6|by apply list_lookup_insert_eq|]. intros b6 Eb6 _. paid Eb6.
  assert (data p5 = None /\ lmfs_bytes p5 = 0 /\ lmfs_count p5 = 1) as (Hx5 & Hy5 & Hc5) by (unfold p5; cbn; rewrite Hc3; done).
  rewrite Hx5, Hy5. apply wp_bind, wp_assert; [done|]. apply wp_assert; [done|].
  eapply (HQ c6 _ ps3 d3 p5); [|rewrite (alike_in_use _ _ Ha3); exact Hv6|done|done|done|done|done|done].
  split; [exact Hs3|by exists p3| | | |by rewrite Elen|done|done|].
  - intros k. pose proof (lk_lru _ _ _ Hk k) as Hlk. rewrite elem_of_cons in Hlk. split.
    + intros Hkl. split; [by intros ->|]. destruct (proj1 Hlk ltac:(by right)) as (q & Hq & Hqc).
      destruct (Forall2_lookup_l _ _ _ _ _ Ha3 Hq) as (q' & Hq' & _ & Ec). exists q'. split; [done|lia].
    + intros (Hne & q' & Hq' & Hqc). destruct (alike_lookup _ _ _ _ Ha3 Hq') as (q & Hq & _ & Ec).
      destruct (proj2 Hlk) as [?|?]; [exists q; split; [done|lia]|done|done].
  - intros k q' Hq' Hne. destruct (alike_lookup _ _ _ _ Ha3 Hq') as (q & Hq & Eb & _). unfold slot. rewrite Elen, Eb. fold (slot (length ps) q).
    specialize (Hch2 k q Hq Hne). unfold set_chain. destruct (decide _) as [E|]; [|done]. right. by rewrite <- E.
  - unfold set_chain. fold j6. rewrite decide_True by done. left.
  - intros k Hhk. apply (Hno k). by apply Hh3.
Qed.

Lemma wp_read_block c l ch ps u d i p (Q : unit -> cache -> Prop) : view c l ch ps u d -> ps !! i = Some p -> lmfs_dev p = dev -> lmfs_bytes p = bs ->
  0 <= lmfs_blocknr p < nb ->
  (forall c' d', same_disk d d' -> view c' l ch (<[i := set_data (Some (disk d (lmfs_blocknr p))) p]> ps) u d' -> Q tt c') -> wp (read_block i) Q c.
Proof using All.
  intros Hv Hp Hd Hy Hb HQ. unfold read_block. apply wp_bind. eapply view_getb; [exact Hv|exact Hp|]. intros bf Ebf _. paid Ebf. rewrite Hd, Hy.
  apply wp_bind, wp_assert; [by apply negb_true_iff, Z.eqb_neq|]. apply wp_bind, wp_gets. rewrite (v_size _ _ _ _ _ _ _ _ Hv).
  apply wp_bind, wp_assert; [lia|]. apply wp_bind, wp_assert; [lia|].
  assert (forall (R : Z * list Z -> cache -> Prop), (forall c' d', same_disk d d' -> view c' l ch ps u d' -> R (bs, disk d (lmfs_blocknr p)) c') ->
    wp (if PAGE_SIZE <? bs then hosted (bdev_gather dev (lmfs_blocknr p * bs) (page_sizes (Z.to_nat bs) bs)) else hosted (bdev_read dev (lmfs_blocknr p * bs) bs)) R c) as Hrd.
  { intros R HR. destruct (Z.ltb_spec PAGE_SIZE bs).
    - eapply (view_hosted bs bd); [exact Hv|]. eapply wp_mono; [apply (gather_law d (lmfs_blocknr p)); done|]. intros r d' [-> Hsame] c' Hv'. by eapply HR.
    - eapply (view_hosted bs bd); [exact Hv|]. eapply wp_mono; [apply (read_law d (lmfs_blocknr p)); done|]. intros r d' [-> Hsame] c' Hv'. by eapply HR. }
  apply wp_bind, Hrd. intros c1 d1 Hsame Hv1. apply wp_bind. eapply view_updp; [exact Hv1|exact Hp|done|]. intros c2 Hv2. cbv zeta. cbn [fst snd].
  replace (bs <? 0) with false by lia. rewrite Z.eqb_refl. cbn [negb]. apply wp_ret. by eapply HQ.
Qed.

Lemma after_get_in V T mode b b' : b' ∈ T -> b' ∈ after_get V T mode b.
Proof using. intros Hb. unfold after_get. destruct (decide _); [done|]. apply elem_of_union. by right. Qed.
Lemma after_get_inv V T mode b b' : b' ∈ after_get V T mode b -> b' = b \/ b' ∈ T.
Proof using. unfold after_get. destruct (decide _); [by right|]. intros [?%elem_of_singleton|?]%elem_of_union; [by left|by right]. Qed.
Lemma after_get_known V T mode b : b ∈ after_get V T mode b \/ mode = NORMAL /\ is_Some (V !! b).
Proof using. unfold after_get. destruct (decide _) as [?|?]; [by right|left]. apply elem_of_union. left. by apply elem_of_singleton. Qed.

Lemma free_buffer c l ch ps d V L T : cache_parts c l ch ps d V L T -> (length L < MINBUFS)%nat -> exists i l', l = i :: l'.
Proof using.
  intros [Hv Hs Hk Hsz HT Hfew] Hlen. destruct l as [|i l]; [|by exists i, l]. exfalso.
  assert (seq 0 (length ps) ⊆+ L.*1) as Hsub.
  { apply NoDup_submseteq; [apply NoDup_seq|]. intros i Hi%elem_of_seq. destruct (lookup_lt_is_Some_2 ps i) as [p Hp]; [lia|].
    destruct (so_bufs _ _ _ _ _ _ _ _ _ Hs i p Hp) as [_ Ec]. pose proof (occ_le i L). destruct (decide (occ i L = 0)) as [E0|].
    - assert (i ∈ []) as Hn; [|by apply elem_of_nil in Hn]. apply (lk_lru _ _ _ Hk). exists p. split; [done|lia].
    - destruct (proj1 (occ_pos i L)) as [b Hb]; [lia|]. apply list_elem_of_fmap. by exists (i, b). }
  apply submseteq_length in Hsub. rewrite length_seq, length_fmap in Hsub. lia.
Qed.

Lemma lmfs_get_block_ino_ok c V L T b mode ino off : cache_inv c V L T -> own b -> (length L < MINBUFS)%nat -> mode <> PREFETCH ->
  wp (lmfs_get_block_ino dev b mode ino off) (fun i c' => exists x, block_ok bs x /\
    (mode = NORMAL -> forall x0, V !! b = Some x0 -> x = x0) /\ cache_inv c' (<[b := x]> V) ((i, b) :: L) (after_get V T mode b)) c.
Proof using All.
  intros (l & ch & ps & d & Hi) Hob Hlen Hmode. pose proof (Hown b Hob) as Hb. pose proof Hi as [Hv Hs Hk Hsz HT Hfew].
  unfold lmfs_get_block_ino. apply wp_bind, wp_gets, wp_bind, wp_gets. unfold nr_bufs. rewrite (view_length _ _ _ _ _ _ _ _ Hv), (v_size _ _ _ _ _ _ _ _ Hv).
  unfold MINBUFS in Hsz. apply wp_bind, wp_assert; [lia|]. apply wp_bind, wp_assert; [lia|]. apply wp_bind, wp_assert; [by apply negb_true_iff, Z.eqb_neq|].
  pose proof (Z.mod_pos_bound b (Z.of_nat (length ps)) ltac:(lia)) as Hm. set (j := b `mod` Z.of_nat (length ps)) in *.
  apply wp_bind. eapply view_hash_get; [exact Hv|exact Hm|]. intros h Hch.
  apply wp_bind. eapply wp_mono.
  { apply (view_hash_search bs bd (S (Z.to_nat (Z.of_nat (length ps)))) dev b c l ch ps (in_use ps) d h _ Hv Hch).
    - pose proof (chain_length bs bd c l ch ps (in_use ps) d (Z.to_nat j) Hv ltac:(lia)). lia.
    - intros i p _ Hp. destruct (so_bufs _ _ _ _ _ _ _ _ _ Hs i p Hp) as [Hok _]. by apply (bo_evicted _ _ _ _ Hok).
    - intros i. eapply view_chain_lt; [exact Hv|lia]. }
  intros r c' [-> Hr]. cbn beta. destruct r as [|i|i]; [|clear Hch|done].
  2:{ destruct Hr as (Hil & p & Hp & Hpb & Hpd). apply wp_bind.
      eapply wp_mono; [apply (get_found_ok c l ch ps d V L T (after_get V T mode b) i p b ino off Hi Hlen Hp Hpd Hpb Hob)|].
      - intros b'. apply after_get_in.
      - intros b' [->|?]%after_get_inv; [left|right; by apply HT].
      - destruct (after_get_known V T mode b) as [?|[_ ?]]; [by left|by right].
      - intros [] c' (x & Hx & Hxok & Hinv). apply wp_ret. exists x. split; [done|]. split; [|done]. intros _ x0 Hx0. rewrite <- Hpb in Hx0.
        destruct (so_buf _ _ _ _ _ _ _ _ _ Hs i p x0 Hp Hpd Hx0) as [E _]. congruence. }
  assert (forall k, ~ holds ps k b) as Hno.
  { intros k (p & Hp & Hpd & Hpb). apply (Hr k p); [|done|done]. pose proof (lk_hash _ _ _ Hk k p Hp) as Hin. unfold slot in Hin. by rewrite Hpb in Hin. }
  destruct (free_buffer _ _ _ _ _ _ _ _ Hi Hlen) as (i & l' & ->).
  apply wp_bind, wp_bind, wp_gets. destruct (dll_ends _ _ _ _ _ (v_lru _ _ _ _ _ _ _ _ Hv)) as [-> _]. cbn [head]. apply wp_ret.
  apply wp_bind. eapply wp_get_new; [exact Hi|done|done|done|]. intros c1 ch1 ps1 d1 p1 Htk Hv1 Hd1 Hb1 Hc1 Hf1 Hx1 Hy1.
  destruct (tk_free _ _ _ _ _ _ _ _ _ Htk) as (p0 & Hp0 & _). pose proof (lookup_lt_Some _ _ _ Hp0) as Hlt.
  apply wp_bind, wp_gets. rewrite (v_vm _ _ _ _ _ _ _ _ Hv1). cbn [Z.eqb negb]. apply wp_bind, wp_ret.
  apply wp_bind. eapply view_updp; [exact Hv1|by apply list_lookup_insert_eq|done|]. rewrite list_insert_insert_eq. intros c2 Hv2.
  assert (forall p' x, lmfs_flags p' = VMMC_BLOCK_LOCKED -> lmfs_dev p' = dev -> lmfs_blocknr p' = b -> lmfs_count p' = 1 -> data p' = Some x -> block_ok bs x ->
    lmfs_bytes p' = bs -> buf_ok p') as Hok.
  { intros p' x Ef Ed Eb Ec Ex Hxok Ey. split; [by right|by rewrite Eb|by rewrite Ef|by rewrite Ef, Ec|rewrite Ec; lia|by rewrite Ex]. }
  apply wp_bind. unfold lmfs_alloc_block. apply wp_bind. eapply view_getb; [exact Hv2|by apply list_lookup_insert_eq|]. intros b2 Eb2 _. paid Eb2.
  cbn [data set_data lmfs_bytes]. apply wp_bind, wp_assert; [done|]. apply wp_bind, wp_assert; [by rewrite Hy1|]. apply wp_bind, wp_gets. rewrite (v_size _ _ _ _ _ _ _ _ Hv2).
  apply wp_bind. eapply (view_hosted bs bd); [exact Hv2|]. eapply wp_mono; [apply (mmap_law (dev := dev) (nb := nb) d1)|].
  intros r d3 [(x & -> & Hxok) Hsame3] c3 Hv3. cbn beta. apply wp_bind, wp_ret. eapply view_updp; [exact Hv3|by apply list_lookup_insert_eq|done|].
  rewrite list_insert_insert_eq. intros c4 Hv4. set (p4 := set_needsetcache 1 _) in Hv4.
  assert (forall V', (forall x0, V !! b = Some x0 -> disk d1 b = x0)) as Hdb.
  { intros _ x0 Hx0. by apply (so_disk _ _ _ _ _ _ _ _ _ (tk_store _ _ _ _ _ _ _ _ _ Htk) b x0 Hx0), (tk_none _ _ _ _ _ _ _ _ _ Htk). }
  specialize (Hdb V). destruct mode; [| |done].
  - apply wp_bind. eapply (wp_read_block c4); [exact Hv4|by apply list_lookup_insert_eq|done|done|unfold p4; cbn; by rewrite Hb1|].
    intros c5 d5 Hsame5 Hv5. rewrite list_insert_insert_eq in Hv5. change (lmfs_blocknr p4) with (lmfs_blocknr p1) in Hv5. rewrite Hb1, Hsame3 in Hv5.
    apply wp_ret. exists (disk d1 b). split; [by apply disk_ok|]. split; [intros _ x0 Hx0; by apply Hdb|].
    eapply taking_done; [exact Htk|done|exact Hv5|by intros y; rewrite Hsame5, Hsame3|done|done|done| |done|apply after_get_in|apply after_get_inv|done].
    apply (Hok _ (disk d1 b)); try done. by apply disk_ok.
  - apply wp_bind, wp_ret, wp_ret. exists x. split; [done|]. split; [done|].
    eapply taking_done; [exact Htk|done|exact Hv4|done|done|done|done|by apply (Hok _ x)|done|apply after_get_in|apply after_get_inv|].
    intros _ Hn. destruct (after_get_known V T NO_READ b) as [?|[? _]]; done.
Qed.
End get.
