(* ===== verification/CacheLaws.v ===== *)
(** * The buffer cache implements its interface

    The flush of the whole cache, the pool of buffers that is made anew when the
    use of the file system has changed, and the instance of [BufCacheLaws]. *)

From S2P Require Import Prelude Links KTypes BufCache Cache CacheView CacheFlush CacheStore CacheProps CacheGet.
#[local] Open Scope Z_scope.

(** ** Lists of a new pool *)

Lemma chain_seq nx a n : (0 < n)%nat -> (forall i, (a <= i < a + n)%nat -> nx i = Some (if (S i <? a + n)%nat then Some (S i) else None)) ->
  chain nx (Some a) (seq a n).
Proof.
  revert a. induction n as [|n IH]; intros a Hn Hx; [lia|]. cbn [seq]. split; [done|]. rewrite Hx by lia. eexists. split; [done|].
  destruct n as [|n].
  - destruct (Nat.ltb_spec (S a) (a + 1)); [lia|done].
  - destruct (Nat.ltb_spec (S a) (a + S (S n))); [|lia]. apply IH; [lia|]. intros i Hi. rewrite Hx by lia.
    by replace (a + S (S n))%nat with (S a + S n)%nat by lia.
Qed.

Lemma chain_seq_back pv n : (forall i, (i < S n)%nat -> pv i = Some (match i with O => None | S k => Some k end)) -> chain pv (Some n) (reverse (seq 0 (S n))).
Proof.
  induction n as [|n IH]; intros Hx.
  - cbn. split; [done|]. exists None. split; [by rewrite Hx by lia|done].
  - rewrite seq_S, reverse_snoc. cbn [Nat.add]. split; [done|]. exists (Some n). split; [by rewrite Hx by lia|]. apply IH. intros i Hi. apply Hx. lia.
Qed.

Section laws.
Context {D : Type} `{CacheHost D} (dev bs nb : Z) (own : Z -> Prop) `{!CacheHostLaws D dev bs nb}.
Context (Hbs : 1024 <= bs < 65536) (Hdev : dev <> NO_DEVICE) (Hnb : 0 < nb < 2 ^ 32) (Hown : forall b, own b -> 0 <= b < nb).
Implicit Types (c : @cache D) (l : list nat) (ch : nat -> list nat) (ps : list buf) (u : Z) (d : D)
  (V : gmap Z (list Z)) (L : list (nat * Z)) (T : gset Z).
Notation cache_parts := (cache_parts dev bs nb).
Notation cache_inv := (cache_inv dev bs nb).
Notation disk := (disk (dev := dev) (bs := bs) (nb := nb)).

(** ** The flush of the whole cache *)

(** The certain contents are on the disk. *)
Definition synced c V T : Prop := forall b x, V !! b = Some x -> b ∉ T -> disk (host c) b = x.

Lemma lmfs_flushall_ok bd c V L T : cache_inv bd own c V L T -> wp lmfs_flushall (fun _ c' => cache_inv bd own c' V L T /\ synced c' V T) c.
Proof using Hdev Hbs Hnb.
  intros (l & ch & ps & d & Hi). unfold lmfs_flushall. apply wp_bind, wp_gets. unfold indices.
  rewrite (view_length _ _ _ _ _ _ _ _ (ci_view _ _ _ _ _ _ _ _ _ _ _ _ _ Hi)). remember (length ps) as n eqn:En.
  set (I := fun k c => exists l ch ps d, cache_parts bd own c l ch ps d V L T /\ length ps = n /\
    forall j p, (j < k)%nat -> ps !! j = Some p -> lmfs_dev p = dev -> isclean p = true).
  eapply wp_mono; [apply (wp_foreach_seq I 0 n)|].
  - exists l, ch, ps, d. split; [done|]. split; [done|]. intros j p Hj. lia.
  - clear c l ch ps d Hi En. subst I. intros k c Hk (l & ch & ps & d & [Hv Hs Hkk Hsz HT Hfew] & Hn & Hcl).
    destruct (lookup_lt_is_Some_2 ps k) as [p Hp]; [lia|]. apply wp_bind. eapply view_getb; [exact Hv|exact Hp|]. intros b Eb _. paid Eb.
    destruct (so_bufs _ _ _ _ _ _ _ _ _ Hs k p Hp) as [Hok _]. apply wp_when; intros E.
    + apply andb_true_iff in E as [E1%negb_true_iff E2%negb_true_iff]. destruct (bo_dev _ _ _ _ Hok) as [Ed|Ed]; [lia|]. rewrite Ed.
      destruct (store_fulls _ _ _ _ Hdev _ _ _ _ _ Hs) as [Hf Hdis].
      eapply wp_mono; [apply (wp_flushall dev bs nb bd ltac:(lia) Hdev ltac:(lia) c l ch ps _ d Hv Hf Hdis)|]. intros [] c1 (d1 & Hv1 & Hw).
      exists l, ch, (cleaned (dirties dev ps) ps), d1. rewrite cleaned_length. split; [|split; [done|]].
      * split; [by rewrite in_use_cleaned|by eapply store_flush|by apply links_cleaned|by rewrite cleaned_length|done|done].
      * intros j q Hj Hq Hqd. rewrite cleaned_lookup in Hq. destruct (ps !! j) as [q0|] eqn:E0; [|done]. injection Hq as <-.
        destruct (decide (j ∈ dirties dev ps)) as [Hin|Hin]; [apply clean_clean|]. destruct (isclean q0) eqn:Ec; [done|]. exfalso.
        apply Hin, dirties_elem. by exists q0.
    + exists l, ch, ps, d. split; [done|]. split; [done|]. intros j q Hj Hq Hqd. destruct (decide (j = k)) as [->|]; [|apply (Hcl j q); [lia|done|done]].
      assert (q = p) as -> by congruence. destruct (isclean p); [done|]. rewrite andb_true_r in E. apply negb_false_iff, Z.eqb_eq in E. congruence.
  - intros [] c' (l' & ch' & ps' & d' & Hi' & Hn' & Hcl). split; [by exists l', ch', ps', d'|].
    intros b x Hx Hb. destruct Hi' as [Hv Hs Hkk Hsz HT Hfew]. rewrite (v_host _ _ _ _ _ _ _ _ Hv).
    destruct (decide (Exists (fun p => lmfs_dev p = dev /\ lmfs_blocknr p = b) ps')) as [Hex|Hno].
    + apply Exists_exists in Hex as (p & [i Hp]%list_elem_of_lookup & Hpd & Hpb). subst b.
      destruct (so_buf _ _ _ _ _ _ _ _ _ Hs i p x Hp Hpd Hx) as [_ Hdk]. apply Hdk; [|done]. eapply Hcl; [|exact Hp|done]. apply lookup_lt_Some in Hp. lia.
    + apply (so_disk _ _ _ _ _ _ _ _ _ Hs); [done|]. intros i (p & Hp & Hpd & Hpb). apply Hno, Exists_exists. exists p. split; [|done]. by eapply list_elem_of_lookup_2.
Qed.

(** ** A new pool *)

Lemma inv_fresh bd c V k : (MINBUFS <= k)%nat -> Z.of_nat k <= 2 ^ 22 -> block_size c = bs -> vmcache c = 0 -> bitdelta c = bd ->
  (forall b x, V !! b = Some x -> own b /\ disk (host c) b = x) ->
  cache_inv bd own (with_front (Some 0%nat) (with_rear (Some (k - 1)%nat) (with_in_use 0
        (with_hash (<[0%nat := Some 0%nat]> (replicate k None)) (with_bufs (new_buf k <$> seq 0 k) c))))) V [] ∅.
Proof using Hdev Hbs Hnb.
  intros Hk Hk2 Hsz Hvm Hbd HV. unfold MINBUFS in Hk. set (c' := with_front _ _).
  assert (forall i, (i < k)%nat -> bufs c' !! i = Some (new_buf k i)) as Hb.
  { intros i Hi. cbn. rewrite list_lookup_fmap, lookup_seq_lt by done. done. }
  assert (length (bufs c') = k) as Hlen by (cbn; by rewrite length_fmap, length_seq).
  assert (pay <$> bufs c' = replicate k zero_buf) as Hpay.
  { apply list_eq. intros i. rewrite list_lookup_fmap. destruct (decide (i < k)%nat) as [Hi|Hi].
    - rewrite Hb, lookup_replicate_2 by done. done.
    - rewrite !lookup_ge_None_2 by (rewrite ?length_replicate; lia). done. }
  assert (forall i p, replicate k zero_buf !! i = Some p -> p = zero_buf) as Hz by (intros i p [? _]%lookup_replicate; done).
  assert (chain (hashp c') (Some 0%nat) (seq 0 k)) as Hhash.
  { apply chain_seq; [lia|]. intros i Hi. unfold hashp. rewrite Hb by lia. done. }
  exists (seq 0 k), (fun j => if decide (j = 0%nat) then seq 0 k else []), (replicate k zero_buf), (host c). split.
  - split; [done| | | | | | | |done|done|done].
    + split; [apply NoDup_seq|]. split.
      * apply chain_seq; [lia|]. intros i Hi. unfold nextp. rewrite Hb by lia. done.
      * destruct k as [|k]; [lia|]. change (rear c') with (Some (S k - 1)%nat). replace (S k - 1)%nat with k by lia. apply chain_seq_back. intros i Hi.
        unfold prevp. rewrite Hb by lia. done.
    + rewrite Hlen. cbn. by rewrite length_insert, length_replicate.
    + intros j Hj. rewrite Hlen in Hj. change (buf_hash c') with (<[0%nat := Some 0%nat]> (replicate k (@None nat))). destruct (decide (j = 0%nat)) as [->|Hne].
      * exists (Some 0%nat). split; [apply list_lookup_insert_eq; rewrite length_replicate; lia|done].
      * exists None. split; [|done]. rewrite list_lookup_insert_ne by done. by apply lookup_replicate_2.
    + intros j _. destruct (decide (j = 0%nat)); [apply NoDup_seq|constructor].
    + intros j j' i. destruct (decide (j = 0%nat)), (decide (j' = 0%nat)); try (by intros ?%elem_of_nil); try (by intros _ ?%elem_of_nil). congruence.
    + change (bufs_in_use c') with 0. unfold in_use. rewrite list_filter_none; [done|]. apply Forall_replicate. cbn. intros Hn. by apply Hn.
    + done.
  - assert (forall i b, ~ holds dev (replicate k zero_buf) i b) as Hno by (intros i b (p & ->%Hz & Hd & _); by apply Hdev).
    split.
    + intros i p ->%Hz. split; [|done]. split; [by left|cbn; lia|done|done|done|done].
    + intros i b Hin. by apply elem_of_nil in Hin.
    + intros i j b Hi. by apply Hno in Hi.
    + intros b [x Hx]. by apply (HV b x).
    + intros b Hin. by apply elem_of_nil in Hin.
    + intros i p x ->%Hz Hd. by destruct Hdev.
    + intros b x Hx _. by apply HV.
  - split.
    + intros i. rewrite elem_of_seq. split.
      * intros Hi. exists zero_buf. split; [apply lookup_replicate_2; lia|done].
      * intros (p & Hp & _). apply lookup_lt_Some in Hp. rewrite length_replicate in Hp. lia.
    + intros i p Hp. pose proof (Hz _ _ Hp) as ->. apply lookup_lt_Some in Hp. rewrite length_replicate in *. unfold slot. cbn [lmfs_blocknr zero_buf].
      rewrite Zmod_0_l. cbn. apply elem_of_seq. lia.
  - rewrite length_replicate. unfold MINBUFS. lia.
  - intros b Hin. by apply not_elem_of_empty in Hin.
  - cbn. lia.
Qed.

(** The call back writes what the cache has, and leaves what only the client writes. *)
Class FsSyncLaws (fs_sync : M (@cache D) unit) := {
  fs_sync_law bd c V : cache_inv bd own c V [] ∅ -> wp fs_sync (fun _ c' => cache_inv bd own c' V [] ∅ /\ synced c' V ∅) c;
}.
Context (fs_sync : M (@cache D) unit) `{!FsSyncLaws fs_sync}.

Lemma cache_resize_ok bd c V n : cache_inv bd own c V [] ∅ -> Z.of_nat MINBUFS <= n <= 2 ^ 22 ->
  wp (cache_resize fs_sync bs n) (fun _ c' => cache_inv bd own c' V [] ∅) c.
Proof using All.
  intros Hinv Hn. unfold cache_resize. apply wp_bind, wp_assert; [lia|]. apply wp_bind, wp_assert; [lia|].
  apply wp_bind, wp_gets. apply wp_bind. eapply wp_mono; [apply (wp_foreach (fun c' => c' = c))|].
  - done.
  - intros b c' Hb ->. destruct Hinv as (l & ch & ps & d & [Hv Hs Hkk Hsz HT Hfew]).
    apply list_elem_of_lookup in Hb as [i Hb]. assert (ps !! i = Some (pay b)) as Hp by (rewrite <- (v_pay _ _ _ _ _ _ _ _ Hv), list_lookup_fmap, Hb; done).
    destruct (so_bufs _ _ _ _ _ _ _ _ _ Hs i _ Hp) as [_ Hc]. change (lmfs_count (pay b)) with (lmfs_count b) in Hc. cbn in Hc. rewrite Hc. by apply wp_ret.
  - intros [] c' ->. apply wp_bind. unfold lmfs_buf_pool. apply wp_bind, wp_assert; [lia|]. apply wp_bind, wp_gets.
    assert (forall (Q : unit -> cache -> Prop), (forall c', cache_inv bd own c' V [] ∅ -> synced c' V ∅ -> Q tt c') ->
      wp (when (0 <? nr_bufs c) (fs_sync;; l ← gets bufs; foreach l (fun b => when (bool_decide (is_Some (data b))) (c_assert (0 <? lmfs_bytes b))))) Q c) as Hsync.
    { intros Q HQ. apply wp_when; intros E.
      - apply wp_bind. eapply wp_mono; [by apply fs_sync_law|]. intros [] c1 [Hinv1 Hs1]. apply wp_bind, wp_gets.
        eapply wp_mono; [apply (wp_foreach (fun c' => c' = c1))|].
        + done.
        + intros b c' Hb ->. destruct Hinv1 as (l & ch & ps & d & [Hv Hs Hkk Hsz HT Hfew]).
          apply list_elem_of_lookup in Hb as [i Hb]. assert (ps !! i = Some (pay b)) as Hp by (rewrite <- (v_pay _ _ _ _ _ _ _ _ Hv), list_lookup_fmap, Hb; done).
          destruct (so_bufs _ _ _ _ _ _ _ _ _ Hs i _ Hp) as [Hok _]. pose proof (bo_data _ _ _ _ Hok) as Hx. cbn in Hx.
          apply wp_when; intros Ed; [|done]. apply bool_decide_eq_true in Ed as [x Ex]. rewrite Ex in Hx. apply wp_assert; [lia|done].
        + intros [] c' ->. by apply HQ.
      - exfalso. destruct Hinv as (l & ch & ps & d & [Hv Hs Hkk Hsz HT Hfew]). unfold nr_bufs, MINBUFS in *. rewrite (view_length _ _ _ _ _ _ _ _ Hv) in E. lia. }
    apply wp_bind, Hsync. intros c1 (l & ch & ps & d & Hi) Hsy.
    apply wp_bind. eapply (view_hosted bs bd); [apply (ci_view _ _ _ _ _ _ _ _ _ _ _ _ _ Hi)|]. eapply wp_mono; [apply (calloc_law (dev := dev) (nb := nb))|].
    intros r d2 [-> Hd2] c2 Hv2. cbn [negb]. apply wp_bind. eapply (view_hosted bs bd); [exact Hv2|]. eapply wp_mono; [apply (calloc_law (dev := dev) (nb := nb))|].
    intros r d3 [-> Hd3] c3 Hv3. cbn [negb]. apply wp_modify, wp_modify.
    match goal with |- cache_inv _ _ ?x _ _ _ => set (cn := x) end.
    assert (cn = with_front (Some 0%nat) (with_rear (Some (Z.to_nat n - 1)%nat) (with_in_use 0 (with_hash (<[0%nat := Some 0%nat]> (replicate (Z.to_nat n) None))
      (with_bufs (new_buf (Z.to_nat n) <$> seq 0 (Z.to_nat n)) c3))))) as ->.
    { unfold cn. pose proof (v_size _ _ _ _ _ _ _ _ Hv3) as E. destruct c3; cbn in *. by rewrite E. }
    apply inv_fresh; [unfold MINBUFS in *; lia|lia|apply (v_size _ _ _ _ _ _ _ _ Hv3)|apply (v_vm _ _ _ _ _ _ _ _ Hv3)|apply (v_delta _ _ _ _ _ _ _ _ Hv3)|].
    intros b x Hx. rewrite (v_host _ _ _ _ _ _ _ _ Hv3), Hd3, Hd2. split.
    + apply (so_own _ _ _ _ _ _ _ _ _ (ci_store _ _ _ _ _ _ _ _ _ _ _ _ _ Hi)). by eexists.
    + rewrite <- (v_host _ _ _ _ _ _ _ _ (ci_view _ _ _ _ _ _ _ _ _ _ _ _ _ Hi)). apply Hsy; [done|]. by apply not_elem_of_empty.
Qed.
(** ** The size of the pool *)

Lemma inv_hosted {A} bd (m : M D A) c V L T (Q : A -> cache -> Prop) : cache_inv bd own c V L T ->
  (forall d, wp m (fun _ d' => forall x, disk d' x = disk d x) d) -> (forall a c', cache_inv bd own c' V L T -> Q a c') -> wp (hosted m) Q c.
Proof using.
  intros (l & ch & ps & d & [Hv Hs Hkk Hsz HT Hfew]) Hm HQ. eapply (view_hosted bs bd); [exact Hv|]. eapply wp_mono; [apply Hm|].
  intros a d' Hd' c' Hv'. apply HQ. exists l, ch, ps, d'. split; try done. by eapply store_disk.
Qed.

Lemma fs_bufs_heuristic_ok bd c V L T bt bf : cache_inv bd own c V L T ->
  wp (fs_bufs_heuristic 10 bt bf bs) (fun r c' => 10 <= r <= 2 ^ 22 /\ cache_inv bd own c' V L T) c.
Proof using Hbs.
  intros Hi. unfold fs_bufs_heuristic. apply wp_bind. eapply inv_hosted; [exact Hi|apply (info_law (dev := dev) (nb := nb))|].
  intros [[[vfree vcached] pagesize]|] c' Hi'; apply wp_ret; [|split; [lia|done]]. split; [|done].
  set (x := u32 (_ * 1024)). assert (0 <= x < 2 ^ 32) as Hx by (unfold x, u32; apply Z.mod_pos_bound; lia). clearbody x.
  assert (0 <= x / bs <= 2 ^ 22) as Hq.
  { split; [apply Z.div_pos; lia|]. apply Z.div_le_upper_bound; [lia|]. nia. }
  rewrite i32_small by (unfold INT_MIN, INT_MAX; lia). destruct (Z.ltb_spec (x / bs) 10); lia.
Qed.

Lemma cache_heuristic_check_ok bd c V : cache_inv bd own c V [] ∅ -> wp (cache_heuristic_check fs_sync) (fun _ c' => cache_inv bd own c' V [] ∅) c.
Proof using All.
  intros Hi. unfold cache_heuristic_check. apply wp_bind. eapply inv_hosted; [exact Hi|apply (stats_law (dev := dev) (nb := nb))|].
  intros st c1 Hi1. apply wp_bind, wp_gets. assert (block_size c1 = bs) as -> by (destruct Hi1 as (? & ? & ? & ? & [Hv]); apply (v_size _ _ _ _ _ _ _ _ Hv)).
  apply wp_bind. eapply wp_mono; [by apply fs_bufs_heuristic_ok|]. intros r c2 [Hr Hi2]. apply wp_bind, wp_gets.
  assert (6 <= nr_bufs c2 <= 2 ^ 22) as Hn.
  { destruct Hi2 as (? & ? & ? & ? & [Hv _ _ Hsz]). unfold nr_bufs, MINBUFS in *. rewrite (view_length _ _ _ _ _ _ _ _ Hv). done. }
  set (n := nr_bufs c2) in *.
  assert (i32 (u32 (r - n)) = r - n) as ->.
  { unfold i32, u32. rewrite Zplus_mod_idemp_l, Z.mod_small; lia. }
  apply wp_bind. apply (wp_mono _ (fun a c' => a = Z.abs (r - n) /\ c' = c2)).
  { destruct (Z.ltb_spec (r - n) 0); [eapply wp_lift; [apply int_ok_in; unfold INT_MIN, INT_MAX; lia|]|apply wp_ret]; split; [lia|done|lia|done]. }
  intros a c3 [-> ->]. apply wp_bind. eapply wp_lift; [apply int_ok_in; unfold INT_MIN, INT_MAX; lia|].
  apply wp_when; intros _; [|done]. apply cache_resize_ok; [done|]. unfold MINBUFS. lia.
Qed.

Lemma inv_nil bd c V L T : cache_inv bd own c V L T -> bufs_in_use c = 0 -> L = [] /\ T = ∅.
Proof using.
  intros (l & ch & ps & d & [Hv Hs Hkk Hsz HT Hfew]) E. rewrite (v_in_use _ _ _ _ _ _ _ _ Hv) in E.
  assert (L = []) as ->.
  { destruct L as [|[i b] L]; [done|]. exfalso. destruct (so_held _ _ _ _ _ _ _ _ _ Hs i b ltac:(left)) as (p & Hp & _).
    destruct (so_bufs _ _ _ _ _ _ _ _ _ Hs i p Hp) as [_ Hc]. rewrite occ_cons, decide_True in Hc by done. pose proof (occ_le i L).
    pose proof (in_use_pos ps i p Hp ltac:(lia)). lia. }
  split; [done|]. apply set_eq. intros b. split; [intros Hb%HT; by apply elem_of_nil in Hb|]. by intros ?%not_elem_of_empty.
Qed.

(** The change of blocks since the last look at the pool is in the band. *)
Definition in_band (bd : Z) : Prop := - BANDKB <= Z.quot (bd * bs) 1024 <= BANDKB.
Definition lmfs_rep c V L T : Prop := exists bd, in_band bd /\ cache_inv bd own c V L T.

Lemma inv_bitdelta bd bd' c V L T : cache_inv bd own c V L T -> cache_inv bd' own (with_bitdelta bd' c) V L T.
Proof using. intros (l & ch & ps & d & [[] ? ? ? ? ?]). exists l, ch, ps, d. by split. Qed.

Lemma lmfs_blockschange_ok c V L T n : Z.abs n <= 1 -> lmfs_rep c V L T -> wp (lmfs_blockschange fs_sync dev n) (fun _ c' => lmfs_rep c' V L T) c.
Proof using All.
  intros Hn (bd & Hbd & Hi). unfold lmfs_blockschange. apply wp_bind, wp_gets.
  assert (bitdelta c = bd) as -> by (destruct Hi as (? & ? & ? & ? & [Hv]); apply (v_delta _ _ _ _ _ _ _ _ Hv)).
  unfold in_band, BANDKB in Hbd. pose proof (Z.quot_rem' (bd * bs) 1024). pose proof (Z.rem_bound_abs (bd * bs) 1024 ltac:(lia)).
  assert (- 10486783 <= bd * bs <= 10486783) as Hx by lia. assert (- 10486783 <= bd <= 10486783) as Hb by nia.
  apply wp_bind. eapply wp_lift; [apply int_ok_in; unfold INT_MIN, INT_MAX; lia|]. apply wp_bind, wp_modify.
  apply (inv_bitdelta bd (bd + n)) in Hi. set (c1 := with_bitdelta _ c) in *. apply wp_bind, wp_gets.
  assert (block_size c1 = bs) as -> by (destruct Hi as (? & ? & ? & ? & [Hv]); apply (v_size _ _ _ _ _ _ _ _ Hv)).
  apply wp_bind. eapply wp_lift; [apply int_ok_in; unfold INT_MIN, INT_MAX; nia|].
  apply wp_when; intros E.
  - apply wp_bind. unfold lmfs_cache_reevaluate. apply wp_bind, wp_gets.
    apply (wp_mono _ (fun _ c' => cache_inv (bd + n) own c' V L T)); [|intros [] c2 Hi2; apply wp_modify; exists 0; split; [done|by eapply inv_bitdelta]].
    apply wp_when; intros E2; [|done]. apply andb_true_iff in E2 as [E2%Z.eqb_eq _]. destruct (inv_nil _ _ _ _ _ Hi E2) as [-> ->].
    by apply cache_heuristic_check_ok.
  - exists (bd + n). split; [|done]. apply orb_false_iff in E as [? ?]. unfold in_band. lia.
Qed.

(** ** The instance *)

#[local] Existing Instance lmfs_cache.

Lemma lmfs_laws : @BufCacheLaws (@cache D) (lmfs_cache fs_sync) dev bs own.
Proof using All.
  refine {| cache_rep := lmfs_rep |}.
  - intros c V L L' T (bd & Hbd & l & ch & ps & d & [Hv Hs Hkk Hsz HT Hfew]) Hp. exists bd. split; [done|]. exists l, ch, ps, d. split; try done.
    + by eapply store_perm.
    + intros b. rewrite <- Hp. apply HT.
    + by rewrite <- Hp.
  - intros c V L T b x (bd & Hbd & l & ch & ps & d & [Hv Hs Hkk Hsz HT Hfew]) Hx.
    destruct (decide (Exists (fun p => lmfs_dev p = dev /\ lmfs_blocknr p = b) ps)) as [Hex|Hno].
    + apply Exists_exists in Hex as (p & [i Hp]%list_elem_of_lookup & Hpd & Hpb). subst b.
      destruct (so_buf _ _ _ _ _ _ _ _ _ Hs i p x Hp Hpd Hx) as [E _].
      destruct (so_data _ _ _ _ Hdev _ _ _ _ _ _ _ Hs Hp Hpd) as (y & Hy & Hyok & _). congruence.
    + rewrite <- (so_disk _ _ _ _ _ _ _ _ _ Hs b x Hx); [apply disk_ok, Hown, (so_own _ _ _ _ _ _ _ _ _ Hs); by eexists|].
      intros i (p & Hp & Hpd & Hpb). apply Hno, Exists_exists. exists p. split; [|done]. by eapply list_elem_of_lookup_2.
  - intros c V L T b mode ino off (bd & Hbd & Hi) Hb Hlen Hm. eapply wp_mono; [by apply (lmfs_get_block_ino_ok dev bs nb bd own)|].
    intros i c' (x & Hx & Hx0 & Hi'). exists x. split; [done|]. split; [done|]. by exists bd.
  - intros c V L T i b ty (bd & Hbd & Hi). eapply wp_mono; [by apply (lmfs_put_block_ok dev bs nb bd own)|]. intros [] c' Hi'. split.
    + intros Hor. exists bd. split; [done|]. unfold put_V, put_T in Hi'. rewrite !decide_False in Hi'; [done|tauto..].
    + intros Hin Hn. exists bd. split; [done|]. unfold put_V, put_T in Hi'. by rewrite !decide_True in Hi'.
  - intros c V L T i b (bd & Hbd & Hi) Hin. by apply (buf_contents_ok dev bs nb bd own c V L T i b).
  - intros c V L T i b x (bd & Hbd & Hi) Hin Hx. eapply wp_mono; [by apply (set_buf_contents_ok dev bs nb bd own c V L T i b)|]. intros [] c' Hi'. by exists bd.
  - intros c V L T i b (bd & Hbd & Hi) Hin. eapply wp_mono; [by apply (lmfs_markdirty_ok dev bs nb bd own c V L T i b)|]. intros [] c' Hi'. by exists bd.
  - intros c V L T i b (bd & Hbd & Hi) Hin. eapply wp_mono; [by apply (lmfs_markclean_ok dev bs nb bd own c V L T i b)|]. intros [] c' Hi'. by exists bd.
  - intros c V L T i b (bd & Hbd & Hi) Hin. by apply (lmfs_dev_ok dev bs nb bd own c V L T i b).
  - intros c V L T n Hn Hr. by apply lmfs_blockschange_ok.
  - intros c V L T (bd & Hbd & l & ch & ps & d & [Hv _ _ _ _ _]). apply wp_gets. split; [apply (v_size _ _ _ _ _ _ _ _ Hv)|done].
Defined.
End laws.
