(* ===== verification/CacheDemo.v ===== *)
(** * A cache on a disk

    A disk that keeps blocks of 1024 bytes in memory, and a cache of ten empty buffers on it: the
    assumptions on the host and on the call back hold together. *)

From S2P Require Import Prelude KTypes BufCache Cache CacheView CacheFlush CacheStore CacheProps CacheGet CacheLaws.
#[local] Open Scope Z_scope.

Module CacheDemo.
Definition BS : Z := 1024.
Definition DEV : Z := 7.
Definition NB : Z := 20.
Definition DISK : Type := Z -> list Z.

#[global] Instance block_ok_dec bs d : Decision (block_ok bs d).
Proof. unfold block_ok. apply _. Defined.

Definition blank : list Z := replicate (Z.to_nat BS) 0.
(** A block of the disk. *)
Definition norm (x : list Z) : list Z := if decide (block_ok BS x) then x else blank.

Lemma blank_ok : block_ok BS blank.
Proof. split; [unfold blank, BS; rewrite length_replicate; lia|]. apply Forall_replicate. unfold byte_ok. lia. Qed.
Lemma norm_ok x : block_ok BS (norm x).
Proof. unfold norm. case_decide; [done|apply blank_ok]. Qed.
Lemma norm_id x : block_ok BS x -> norm x = x.
Proof. intros Hx. unfold norm. by rewrite decide_True. Qed.

Definition put_blocks (b : Z) (x : list Z) (d : DISK) : DISK := fun k =>
  if (b <=? k) && (k <? b + Z.of_nat (length x) / BS) then take (Z.to_nat BS) (drop (Z.to_nat (BS * (k - b))) x) else d k.

#[global] Instance host : CacheHost DISK := {
  bdev_read _ pos n := fun d => Ok ((n, norm (d (pos / BS))), d);
  bdev_gather _ pos l := fun d => Ok ((foldr Z.add 0 l, norm (d (pos / BS))), d);
  bdev_scatter _ pos l := fun d => Ok (Z.of_nat (length (concat l)), put_blocks (pos / BS) (concat l) d);
  mmap_anon n := mret (Some (replicate (Z.to_nat n) 0));
  calloc_fits _ := mret true;
  vm_info_stats := mret (Some (1000, 1000, 4096));
  vm_map_cacheblock _ _ _ _ _ := mret None;
  vm_set_cacheblock _ _ _ _ _ := mret OK;
  vm_clear_cache _ := skip;
  fs_blockstats := mret (20, 10);
}.

Lemma concat_length (l : list (list Z)) : Forall (block_ok BS) l -> Z.of_nat (length (concat l)) = BS * Z.of_nat (length l).
Proof.
  induction 1 as [|x l [Hx _] _ IH]; [done|]. cbn [concat length]. rewrite length_app. unfold BS in *. lia.
Qed.

Lemma concat_block (l : list (list Z)) j x : Forall (block_ok BS) l -> l !! j = Some x -> take (Z.to_nat BS) (drop (Z.to_nat (BS * Z.of_nat j)) (concat l)) = x.
Proof.
  intros Hl. revert j. induction Hl as [|y l [Hy _] Hl IH]; intros j Hj; [done|]. destruct j as [|j]; cbn in Hj.
  - injection Hj as <-. cbn [concat]. rewrite Z.mul_0_r. cbn [drop Z.to_nat]. apply take_app_length'. unfold BS in *. lia.
  - cbn [concat]. rewrite drop_app_ge by (unfold BS in *; lia). rewrite <- (IH j Hj). do 2 f_equal. unfold BS in *. lia.
Qed.

Lemma put_blocks_same b l (d : DISK) : Forall (block_ok BS) l ->
  (forall j x, l !! j = Some x -> put_blocks b (concat l) d (b + Z.of_nat j) = x) /\
  forall k, k < b \/ b + Z.of_nat (length l) <= k -> put_blocks b (concat l) d k = d k.
Proof.
  intros Hl. unfold put_blocks. rewrite (concat_length l Hl), (Z.mul_comm BS), Z.div_mul by done. split.
  - intros j x Hj. pose proof (lookup_lt_Some _ _ _ Hj). replace (_ && _) with true by lia.
    replace (b + Z.of_nat j - b) with (Z.of_nat j) by lia. by apply concat_block.
  - intros k Hk. by replace (_ && _) with false by lia.
Qed.

Lemma demo_laws : CacheHostLaws DISK DEV BS NB.
Proof.
  refine {| disk := fun d b => norm (d b) |}.
  - intros d b _. apply norm_ok.
  - intros d b _ _. unfold wp, bdev_read. cbn. by rewrite Z.div_mul.
  - intros d b _ Hb. by unfold PAGE_SIZE, BS in Hb.
  - intros d b l segs Hb Hl Hok Hc. unfold wp. cbn [bdev_scatter host]. rewrite Hc, Z.div_mul by done.
    destruct (put_blocks_same b l d Hok) as [H1 H2]. split; [by apply concat_length|]. split.
    + intros j x Hj. rewrite (H1 j x Hj). apply norm_id. by eapply Forall_lookup_1.
    + intros k Hk. by rewrite H2.
  - intros d. apply wp_ret. split; [|done]. eexists. split; [done|]. apply blank_ok.
  - intros d n. by apply wp_ret.
  - intros d. by apply wp_ret.
  - intros d. by apply wp_ret.
Defined.
#[global] Existing Instance demo_laws.

(** The file system writes back what the cache has. *)
Definition fs_sync : M (@cache DISK) unit := lmfs_flushall.
#[global] Instance demo_sync own : FsSyncLaws DEV BS NB own fs_sync.
Proof.
  split. intros bd c V Hc. apply (lmfs_flushall_ok DEV BS NB own); [done|done|done|exact Hc].
Qed.

(** An empty cache. *)
Definition cache_on (d : DISK) : @cache DISK :=
  mk_cache (new_buf 10 <$> seq 0 10) (<[0%nat := Some 0%nat]> (replicate 10 None)) (Some 0%nat) (Some 9%nat) 0 BS 0 0 0 0 d.

Lemma cache_on_inv own (d : DISK) V : (forall b x, V !! b = Some x -> own b /\ norm (d b) = x) ->
  lmfs_rep DEV BS NB own (cache_on d) V [] ∅.
Proof.
  intros HV. exists 0. split; [by unfold in_band|].
  apply (inv_fresh DEV BS NB own ltac:(done) ltac:(done) ltac:(done) 0 (mk_cache [] [] None None 0 BS 0 0 0 0 d) V 10); try done. unfold MINBUFS. lia.
Qed.

Definition own (b : Z) : Prop := 2 <= b < 4 \/ 5 <= b < NB.
Lemma own_nb b : own b -> 0 <= b < NB.
Proof. unfold own, NB. lia. Qed.
#[global] Instance own_dec b : Decision (own b).
Proof. unfold own. apply _. Defined.

(** The cache on a disk of zeros, of which one block is known. *)
Definition c0 : @cache DISK := cache_on (fun _ => blank).
Definition V0 : gmap Z (list Z) := {[5 := blank]}.
Lemma c0_rep : lmfs_rep DEV BS NB own c0 V0 [] ∅.
Proof.
  apply cache_on_inv. intros b x Hx. unfold V0 in Hx. apply lookup_singleton_Some in Hx as [<- <-]. split; [unfold own, NB; lia|]. apply norm_id, blank_ok.
Qed.

Lemma bs_range : 1024 <= BS < 65536.
Proof. done. Qed.
Lemma dev_some : DEV <> NO_DEVICE.
Proof. done. Qed.
Lemma nb_range : 0 < NB < 2 ^ 32.
Proof. done. Qed.
End CacheDemo.
