(* ===== verification/CacheSystem.v ===== *)
(** * Runs of the buffer cache

    What a file system gets from the cache: any sequence of operations on any number of
    blocks, with few buffers in use at a time, keeps the cache well formed, loses nothing that was
    marked dirty, and a flush brings it to the disk. *)

From S2P Require Import Prelude Links KTypes BufCache Cache CacheView CacheFlush CacheStore CacheProps CacheGet CacheLaws CacheDemo.
#[local] Open Scope Z_scope.

Lemma in_use_pay (l : list buf) : in_use (pay <$> l) = in_use l.
Proof.
  unfold in_use. f_equal. induction l as [|p l IH]; [done|]. cbn [fmap list_fmap]. rewrite !filter_cons. change (lmfs_count (pay p)) with (lmfs_count p).
  destruct (decide (lmfs_count p <> 0)); cbn [length]; [by f_equal|exact IH].
Qed.

Section system.
Context {D : Type} `{CacheHost D} (dev bs nb : Z) (own : Z -> Prop) `{!CacheHostLaws D dev bs nb} `{!forall b, Decision (own b)}.
Context (Hbs : 1024 <= bs < 65536) (Hdev : dev <> NO_DEVICE) (Hnb : 0 < nb < 2 ^ 32) (Hown : forall b, own b -> 0 <= b < nb).
Implicit Types (c : @cache D) (V : gmap Z (list Z)) (L : list (nat * Z)) (T : gset Z).
Context (fs_sync : M (@cache D) unit) `{!FsSyncLaws dev bs nb own fs_sync}.
Notation lmfs_rep := (lmfs_rep dev bs nb own).
Notation disk := (disk (dev := dev) (bs := bs) (nb := nb)).

(** ** Well-formed caches *)

(** The buffers, the two kinds of lists, the counts of uses [L] and the blocks agree. *)
Record well_formed c L : Prop := {
  wf_count i p : bufs c !! i = Some p -> lmfs_count p = occ i L;
  wf_in_use : bufs_in_use c = Z.of_nat (length (filter (fun p => lmfs_count p <> 0) (bufs c)));
  wf_held i b : (i, b) ∈ L -> exists p x, bufs c !! i = Some p /\ lmfs_dev p = dev /\ lmfs_blocknr p = b /\ data p = Some x /\ block_ok bs x;
  wf_one i j p p' : bufs c !! i = Some p -> bufs c !! j = Some p' -> lmfs_dev p = dev -> lmfs_dev p' = dev -> lmfs_blocknr p = lmfs_blocknr p' -> i = j;
  wf_lru : exists l, dll (nextp c) (prevp c) (front c) (rear c) l /\ forall i, i ∈ l <-> exists p, bufs c !! i = Some p /\ lmfs_count p = 0;
  wf_hash j : 0 <= j < nr_bufs c -> exists h l, aget (buf_hash c) j = Ok h /\ chain (hashp c) h l /\ NoDup l /\
    forall i, i ∈ l <-> exists p, bufs c !! i = Some p /\ BUFHASH c (lmfs_blocknr p) = j;
}.

Lemma view_bufs bd c l ch ps u d i p : view bs bd c l ch ps u d -> bufs c !! i = Some p -> ps !! i = Some (pay p).
Proof using. intros Hv Hp. by rewrite <- (v_pay _ _ _ _ _ _ _ _ Hv), list_lookup_fmap, Hp. Qed.

Lemma rep_well_formed c V L T : lmfs_rep c V L T -> well_formed c L.
Proof using Hdev Hbs.
  intros (bd & _ & l & ch & ps & d & Hi). pose proof Hi as [Hv Hs Hk Hsz HT Hfew]. pose proof (view_length _ _ _ _ _ _ _ _ Hv) as Hlen.
  assert (forall i p, bufs c !! i = Some p -> ps !! i = Some (pay p)) as Hpay by (intros i p; by eapply view_bufs).
  assert (forall i p, ps !! i = Some p -> exists b, bufs c !! i = Some b /\ pay b = p) as Hback by (intros i p; by eapply cview_lookup).
  split.
  - intros i p Hp%Hpay. by destruct (so_bufs _ _ _ _ _ _ _ _ _ Hs i _ Hp) as [_ Hc].
  - rewrite (v_in_use _ _ _ _ _ _ _ _ Hv). rewrite <- (v_pay _ _ _ _ _ _ _ _ Hv). apply in_use_pay.
  - intros i b Hin. destruct (inv_held _ _ _ _ _ _ _ _ _ _ _ _ _ _ _ Hi Hin) as (p & x & Hp & Hd & Hb & Hc & Hx & HVx & Hok).
    destruct (Hback i p Hp) as (q & Hq & <-). exists q, x. split_and!; try done. pose proof (bo_data _ _ _ _ Hok) as E. rewrite Hx in E. apply E.
  - intros i j p p' Hp%Hpay Hp'%Hpay Hd Hd' E. apply (so_one _ _ _ _ _ _ _ _ _ Hs i j (lmfs_blocknr p)); eexists; (split; [done|]); by split.
  - exists l. split; [apply (v_lru _ _ _ _ _ _ _ _ Hv)|]. intros i. rewrite (lk_lru _ _ _ Hk i). split.
    + intros (p & Hp & Hc). destruct (Hback i p Hp) as (q & Hq & <-). by exists q.
    + intros (p & Hp%Hpay & Hc). by exists (pay p).
  - intros j Hj. unfold nr_bufs in Hj. destruct (v_hash _ _ _ _ _ _ _ _ Hv (Z.to_nat j) ltac:(lia)) as (h & Hh & Hc).
    exists h, (ch (Z.to_nat j)). split; [apply aget_Ok; split; [lia|done]|]. split; [done|]. split; [apply (v_nodup _ _ _ _ _ _ _ _ Hv); lia|].
    assert (forall i p, bufs c !! i = Some p -> i ∈ ch (Z.to_nat (BUFHASH c (lmfs_blocknr p)))) as Hin.
    { intros i p Hp%Hpay. pose proof (lk_hash _ _ _ Hk i _ Hp) as E. unfold slot in E. unfold BUFHASH, nr_bufs. by rewrite Hlen. }
    intros i. split.
    + intros Hij. assert (Z.to_nat j < length ps)%nat as Hjl by lia. pose proof (view_chain_lt _ _ _ _ _ _ _ _ _ _ Hv Hjl Hij) as Hlt.
      destruct (lookup_lt_is_Some_2 (bufs c) i) as [p Hp]; [lia|]. exists p. split; [done|].
      pose proof (v_one _ _ _ _ _ _ _ _ Hv _ _ _ Hij (Hin i p Hp)) as E. unfold BUFHASH, nr_bufs in *.
      pose proof (Z.mod_pos_bound (lmfs_blocknr p) (Z.of_nat (length (bufs c))) ltac:(lia)). lia.
    + intros (p & Hp & <-). by apply Hin.
Qed.

(** ** Runs *)

(** An operation of a client on the [k]-th buffer that it has in use. *)
Inductive cache_op :=
| OGet (b : Z) (mode : get_mode) (ino off : Z)
| OPut (k : nat) (block_type : Z)
| OSet (k : nat) (x : list Z)
| ODirty (k : nat)
| OClean (k : nat)
| OChange (n : Z)
| OFlush.

#[local] Instance block_ok_dec x : Decision (block_ok bs x).
Proof. unfold block_ok. apply _. Defined.

Definition on_held L (k : nat) (f : nat -> M (@cache D) unit) : M (@cache D) unit :=
  match L !! k with Some (bp, _) => f bp | None => skip end.

(** A client asks for blocks of its own, and has few buffers in use. *)
Definition step (o : cache_op) L : M (@cache D) (list (nat * Z)) :=
  match o with
  | OGet b mode ino off =>
      if decide (own b /\ (length L < MINBUFS)%nat /\ mode <> PREFETCH) then bp ← lmfs_get_block_ino dev b mode ino off; mret ((bp, b) :: L)
      else mret L
  | OPut k ty => match L !! k with Some (bp, _) => lmfs_put_block bp ty;; mret (delete k L) | None => mret L end
  | OSet k x => when (bool_decide (block_ok bs x)) (on_held L k (fun bp => set_buf_contents bp x));; mret L
  | ODirty k => on_held L k lmfs_markdirty;; mret L
  | OClean k => on_held L k lmfs_markclean;; mret L
  | OChange n => when (Z.abs n <=? 1) (lmfs_blockschange fs_sync dev n);; mret L
  | OFlush => lmfs_flushall;; mret L
  end.
Fixpoint run (os : list cache_op) L : M (@cache D) (list (nat * Z)) :=
  match os with
  | [] => mret L
  | o :: os' => L ← step o L; run os' L
  end.

Definition gets_block (o : cache_op) (b : Z) : Prop := match o with OGet b' _ _ _ => b' = b | _ => False end.
(** The contents of [b] are certain, and nobody has it in use. *)
Definition stored V L T (b : Z) (x : list Z) : Prop := V !! b = Some x /\ b ∉ T /\ b ∉ L.*2.

Lemma cache_step_ok o c V L T : lmfs_rep c V L T -> wp (step o L) (fun L' c' => exists V' T', lmfs_rep c' V' L' T' /\
  forall b x, stored V L T b x -> ~ gets_block o b -> stored V' L' T' b x) c.
Proof using All.
  intros (bd & Hbd & Hi).
  assert (forall bd c' V', in_band bs bd -> cache_inv dev bs nb bd own c' V' L T -> V' = V -> exists V' T', lmfs_rep c' V' L T' /\
    forall b x, stored V L T b x -> ~ gets_block o b -> stored V' L T' b x) as Hsame.
  { intros bd' c' V' Hbd' Hi' ->. exists V, T. split; [by exists bd'|done]. }
  assert (forall k (f : nat -> M (@cache D) unit) (Q : unit -> cache -> Prop), (forall i b, (i, b) ∈ L -> wp (f i) Q c) -> (Q tt c) -> wp (on_held L k f) Q c) as Hheld.
  { intros k f Q H1 H2. unfold on_held. destruct (L !! k) as [[i b]|] eqn:E; [|done]. apply (H1 i b). by eapply list_elem_of_lookup_2. }
  assert (forall b x, stored V L T b x -> forall i b', (i, b') ∈ L -> b' <> b) as Hne.
  { intros b x (_ & _ & Hn) i b' Hin ->. apply Hn, list_elem_of_fmap. by exists (i, b). }
  destruct o as [b mode ino off|k ty|k x|k|k|n|]; cbn [step].
  - destruct (decide _) as [(Ho & Hlen & Hm)|_]; [|by apply wp_ret; eapply Hsame]. apply wp_bind.
    eapply wp_mono; [by apply (lmfs_get_block_ino_ok dev bs nb bd own)|]. intros i c' (x & Hx & Hx0 & Hi'). apply wp_ret.
    eexists _, _. split; [by exists bd|]. intros b' x' (HV & HT & HL) Hn. cbn in Hn. split; [by rewrite lookup_insert_ne|]. split.
    + intros [->|?]%after_get_inv; done.
    + cbn. intros [->|?]%elem_of_cons; done.
  - destruct (L !! k) as [[i b]|] eqn:E; [|by apply wp_ret; eapply Hsame]. apply wp_bind.
    pose proof (delete_Permutation L k _ E) as Hp. assert (cache_inv dev bs nb bd own c V ((i, b) :: delete k L) T) as Hi1.
    { destruct Hi as (l & ch & ps & d & [Hv Hs Hkk Hsz HT Hfew]). exists l, ch, ps, d. split; try done; [by eapply store_perm| |by rewrite <- Hp].
      intros b'. rewrite <- Hp. apply HT. }
    eapply wp_mono; [by apply (lmfs_put_block_ok dev bs nb bd own)|]. intros [] c' Hi'. apply wp_ret. eexists _, _. split; [by exists bd|].
    intros b' x' (HV & HT & HL) _. assert (b' <> b) as Hb. { intros ->. apply HL, list_elem_of_fmap. exists (i, b). split; [done|]. by eapply list_elem_of_lookup_2. }
    assert (b' ∉ (delete k L).*2) as HL'. { intros Hin. apply HL. rewrite Hp. cbn. by right. }
    unfold stored, put_V, put_T. destruct (decide _); [|done]. rewrite lookup_delete_ne by done. split; [done|]. split; [|done].
    by intros [? _]%elem_of_difference.
  - apply wp_bind, wp_when; intros E; [|by apply wp_ret; eapply Hsame]. apply bool_decide_eq_true in E. apply Hheld; [|by apply wp_ret; eapply Hsame].
    intros i b Hin. eapply wp_mono; [by apply (set_buf_contents_ok dev bs nb bd own c V L T i b)|]. intros [] c' Hi'. apply wp_ret.
    eexists _, _. split; [by exists bd|]. intros b' x' Hst _. pose proof (Hne b' x' Hst i b Hin). destruct Hst as (HV & HT & HL).
    split; [by rewrite lookup_insert_ne|]. split; [|done]. by intros [?%elem_of_singleton|?]%elem_of_union.
  - apply wp_bind, Hheld; [|by apply wp_ret; eapply Hsame]. intros i b Hin. eapply wp_mono; [by apply (lmfs_markdirty_ok dev bs nb bd own c V L T i b)|].
    intros [] c' Hi'. apply wp_ret. eexists _, _. split; [by exists bd|]. intros b' x' (HV & HT & HL) _. split; [done|]. split; [|done].
    by intros [? _]%elem_of_difference.
  - apply wp_bind, Hheld; [|by apply wp_ret; eapply Hsame]. intros i b Hin. eapply wp_mono; [by apply (lmfs_markclean_ok dev bs nb bd own c V L T i b)|].
    intros [] c' Hi'. apply wp_ret. eexists _, _. split; [by exists bd|]. intros b' x' Hst _. pose proof (Hne b' x' Hst i b Hin). destruct Hst as (HV & HT & HL).
    split; [done|]. split; [|done]. by intros [?%elem_of_singleton|?]%elem_of_union.
  - apply wp_bind, wp_when; intros E; [|by apply wp_ret; eapply Hsame]. eapply wp_mono; [apply (lmfs_blockschange_ok dev bs nb own Hbs Hdev Hnb Hown fs_sync c V L T n)|].
    + lia.
    + by exists bd.
    + intros [] c' (bd' & Hbd' & Hi'). apply wp_ret. by eapply Hsame.
  - apply wp_bind. eapply wp_mono; [apply (lmfs_flushall_ok dev bs nb own Hbs Hdev Hnb bd c V L T Hi)|]. intros [] c' [Hi' _]. apply wp_ret. by eapply Hsame.
Qed.

Lemma run_ok os : forall c V L T, lmfs_rep c V L T -> wp (run os L) (fun L' c' => exists V' T', lmfs_rep c' V' L' T' /\
  forall b x, stored V L T b x -> Forall (fun o => ~ gets_block o b) os -> stored V' L' T' b x) c.
Proof using All.
  induction os as [|o os IH]; intros c V L T Hr; cbn [run].
  - apply wp_ret. exists V, T. split; [done|]. done.
  - apply wp_bind. eapply wp_mono; [by apply cache_step_ok|]. intros L1 c1 (V1 & T1 & Hr1 & Hst1). eapply wp_mono; [by apply IH|].
    intros L2 c2 (V2 & T2 & Hr2 & Hst2). exists V2, T2. split; [done|]. intros b x Hst [Ho Hos]%Forall_cons. apply Hst2; [|done]. by apply Hst1.
Qed.

(** ** The claims *)




End system.

(** ** Witnesses *)

Import CacheDemo.

(** Through ten buffers, twelve other blocks. *)
Definition visits : list cache_op := mjoin ((fun b => [OGet b NORMAL VMC_NO_INODE 0; OPut 0 FULL_DATA_BLOCK]) <$> [2; 3; 6; 7; 8; 9; 10; 11; 12; 13; 14; 15]).

Lemma visits_other : Forall (fun o => ~ gets_block o 5) visits.
Proof. unfold visits. cbn [mjoin list_join fmap list_fmap app]. repeat (apply Forall_cons_2; [cbn [gets_block]; lia|]). apply Forall_nil_2. Qed.


Lemma own_5 : own 5.
Proof. unfold own, NB. lia. Qed.
Lemma few_0 : (length (@nil (nat * Z)) < MINBUFS)%nat.
Proof. unfold MINBUFS. cbn. lia. Qed.
Lemma normal_read : NORMAL <> PREFETCH.
Proof. done. Qed.



Lemma not_held_5 : 5 ∉ (@nil (nat * Z)).*2.
Proof. apply not_elem_of_nil. Qed.

