(* ===== verification/Mfs.v ===== *)
(** * The MINIX file system: bit maps and zones (fs/mfs)

    The super block, the bit maps of inodes and zones (super.c) and the allocation of zones
    (cache.c). Inodes are slots of the table in memory. Buffers come from the
    interface [BufCache]. A bit chunk, a zone number and a block number
    have 32 bits without sign, [long] has 32 bits, [off_t] 64. *)

From S2P Require Import Prelude KTypes BufCache.
#[local] Open Scope Z_scope.

(** ** Constants *)

Definition V2_NR_DZONES : Z := 7.
Definition V2_NR_TZONES : nat := 10.
Definition V3 : Z := 3.
Definition NO_BIT : Z := 0.
Definition NO_ZONE : Z := 0.
Definition NO_DEV : Z := 0.
Definition WMAP_FREE : Z := 1.
Definition START_BLOCK : Z := 2.
Definition FS_BITMAP_CHUNKS (b : Z) : Z := b / 4.
Definition FS_BITCHUNK_BITS : Z := 32.
Definition FS_BITS_PER_BLOCK (b : Z) : Z := FS_BITMAP_CHUNKS b * FS_BITCHUNK_BITS.
Definition V2_INDIRECTS (b : Z) : Z := b / 4.
Definition ATIME : Z := 2.
Definition CTIME : Z := 4.
Definition MTIME : Z := 8.
Definition IN_CLEAN : Z := 0.
Definition IN_DIRTY : Z := 1.
Definition I_TYPE : Z := 0xF000.
Definition I_BLOCK_SPECIAL : Z := 0x6000.
Definition I_CHAR_SPECIAL : Z := 0x2000.
Definition BYTE : Z := 0xFF.
Inductive bit_map := IMAP | ZMAP.
#[global] Instance bit_map_eq_dec : EqDecision bit_map.
Proof. solve_decision. Defined.

(** ** Data *)

(** The fields of the super block that the operations use. *)
Record super_block := mk_super_block {
  s_ninodes : Z;
  s_imap_blocks : Z;
  s_zmap_blocks : Z;
  s_log_zone_size : Z;
  s_max_size : Z;
  s_zones : Z;
  s_block_size : Z;
  s_firstdatazone : Z;
  s_dev : Z;
  s_rd_only : Z;
  s_native : Z;
  s_version : Z;
  s_isearch : Z;
  s_zsearch : Z;
}.
Definition set_s_zsearch (v : Z) (s : super_block) : super_block :=
  mk_super_block (s_ninodes s) (s_imap_blocks s) (s_zmap_blocks s) (s_log_zone_size s) (s_max_size s) (s_zones s)
    (s_block_size s) (s_firstdatazone s) (s_dev s) (s_rd_only s) (s_native s) (s_version s) (s_isearch s) v.

Record inode := mk_inode {
  i_mode : Z;
  i_size : Z;
  i_zone : list Z;      (* direct, indirect and double indirect zones *)
  i_dev : Z;
  i_num : Z;
  i_ndzones : Z;
  i_nindirs : Z;
  i_dirt : Z;
  i_zsearch : Z;
  i_update : Z;
}.
Definition set_i_size (v : Z) (r : inode) : inode :=
  mk_inode (i_mode r) v (i_zone r) (i_dev r) (i_num r) (i_ndzones r) (i_nindirs r) (i_dirt r) (i_zsearch r) (i_update r).
Definition set_i_zone (v : list Z) (r : inode) : inode :=
  mk_inode (i_mode r) (i_size r) v (i_dev r) (i_num r) (i_ndzones r) (i_nindirs r) (i_dirt r) (i_zsearch r) (i_update r).
Definition set_i_dirt (v : Z) (r : inode) : inode :=
  mk_inode (i_mode r) (i_size r) (i_zone r) (i_dev r) (i_num r) (i_ndzones r) (i_nindirs r) v (i_zsearch r) (i_update r).
Definition set_i_zsearch (v : Z) (r : inode) : inode :=
  mk_inode (i_mode r) (i_size r) (i_zone r) (i_dev r) (i_num r) (i_ndzones r) (i_nindirs r) (i_dirt r) v (i_update r).
Definition set_i_update (v : Z) (r : inode) : inode :=
  mk_inode (i_mode r) (i_size r) (i_zone r) (i_dev r) (i_num r) (i_ndzones r) (i_nindirs r) (i_dirt r) (i_zsearch r) v.

(** [conv2] and [conv4] of utility.c. *)
Definition conv2 (norm w : Z) : Z :=
  if negb (norm =? 0) then Z.land w 0xFFFF
  else Z.lor (Z.shiftl (Z.land w BYTE) 8) (Z.land (Z.shiftr w 8) BYTE).
Definition conv4 (norm x : Z) : Z :=
  if negb (norm =? 0) then x
  else
    let lo := conv2 0 (Z.land x 0xFFFF) in
    let hi := conv2 0 (Z.land (Z.shiftr x 16) 0xFFFF) in
    i32 (Z.lor (Z.shiftl lo 16) hi).

Section mfs.
Context {C : Type} `{BufCache C}.

Record mfs := mk_mfs {
  fs_cache : C;
  superblock : super_block;
  inodes : list inode;
  err_code : ecode;
  used_blocks : Z;
}.
Definition with_cache (c : C) (s : mfs) : mfs := mk_mfs c (superblock s) (inodes s) (err_code s) (used_blocks s).
Definition with_super (b : super_block) (s : mfs) : mfs := mk_mfs (fs_cache s) b (inodes s) (err_code s) (used_blocks s).
Definition with_inodes (l : list inode) (s : mfs) : mfs := mk_mfs (fs_cache s) (superblock s) l (err_code s) (used_blocks s).
Definition with_err (e : ecode) (s : mfs) : mfs := mk_mfs (fs_cache s) (superblock s) (inodes s) e (used_blocks s).
Definition with_used (n : Z) (s : mfs) : mfs := mk_mfs (fs_cache s) (superblock s) (inodes s) (err_code s) n.

Notation FM := (M mfs).

(** A call to the cache. *)
Definition cached {A} (m : M C A) : FM A :=
  c ← gets fs_cache;
  match m c with
  | Ok (a, c') => modify (with_cache c');; mret a
  | Err f => fail f
  end.

Definition get_block (dev b : Z) (m : get_mode) : FM nat := cached (get_block_ino dev b m VMC_NO_INODE 0).
Definition put_block (bp : nat) (t : Z) : FM unit := cached (put_buf bp t).
(** [put_block(NULL)] does nothing. *)
Definition put_block_opt (bp : option nat) (t : Z) : FM unit :=
  match bp with Some bp => put_block bp t | None => skip end.

(** [b_bitmap(bp)[i]] and [b_v2_ind(bp)[i]] *)
Definition rd_word (bp : nat) (i : Z) : FM Z :=
  d ← cached (buf_data bp);
  if (0 <=? i) && (i <? nwords d) then mret (word d i) else fail OutOfBounds.
Definition wr_word (bp : nat) (i w : Z) : FM unit :=
  d ← cached (buf_data bp);
  if (0 <=? i) && (i <? nwords d) then cached (set_buf_data bp (put_word d i w)) else fail OutOfBounds.

Definition MARKDIRTY (bp : nat) : FM unit :=
  sb ← gets superblock;
  dev ← cached (buf_dev bp);
  if (s_dev sb =? dev) && negb (s_rd_only sb =? 0) then skip else cached (mark_dirty bp).
Definition MARKCLEAN (bp : nat) : FM unit := cached (mark_clean bp).

Definition get_inode_slot (rip : nat) : FM inode := l ← gets inodes; deref (l !! rip).
Definition upd_inode (rip : nat) (f : inode -> inode) : FM unit :=
  r ← get_inode_slot rip; modify (fun s => with_inodes (<[rip := f r]> (inodes s)) s).
Definition IN_MARKDIRTY (rip : nat) : FM unit :=
  sb ← gets superblock;
  if negb (s_rd_only sb =? 0) then skip else upd_inode rip (set_i_dirt IN_DIRTY).

(** [i_zone[i]] *)
Definition get_zone (rip : nat) (i : Z) : FM Z := r ← get_inode_slot rip; lift (aget (i_zone r) i).
Definition set_zone (rip : nat) (i z : Z) : FM unit :=
  r ← get_inode_slot rip; l ← lift (aset (i_zone r) i z); upd_inode rip (set_i_zone l).

(** ** Bit maps (super.c) *)

Definition get_super (dev : Z) : FM super_block :=
  if dev =? NO_DEV then fail Panic
  else
    sb ← gets superblock;
    if negb (s_dev sb =? dev) then fail Panic else mret sb.

(** The lowest bit of [k] that is 0. *)
Fixpoint free_in_word (fuel : nat) (k i : Z) : result Z :=
  match fuel with
  | O => Err OutOfFuel
  | S fuel' => if anyset k (Z.shiftl 1 i) then free_in_word fuel' k (i + 1) else Ok i
  end.

(** What a map is: its first block, its bits and its blocks. *)
Definition map_start (sp : super_block) (map : bit_map) : Z :=
  match map with IMAP => START_BLOCK | ZMAP => START_BLOCK + s_imap_blocks sp end.
Definition map_bits (sp : super_block) (map : bit_map) : Z :=
  match map with
  | IMAP => u32 (s_ninodes sp + 1)
  | ZMAP => u32 (s_zones sp - (s_firstdatazone sp - 1))
  end.
Definition map_blocks (sp : super_block) (map : bit_map) : Z :=
  match map with IMAP => s_imap_blocks sp | ZMAP => s_zmap_blocks sp end.

(** The words from [word] on of one block of the map. *)
Fixpoint alloc_words (n : nat) (sp : super_block) (map : bit_map) (block : Z) (bp : nat) (w : Z) : FM (option Z) :=
  match n with
  | O => mret None
  | S n' =>
      v ← rd_word bp w;
      if v =? 0xFFFFFFFF then alloc_words n' sp map block bp (w + 1)
      else
        let k := u32 (conv4 (s_native sp) (i32 v)) in
        i ← lift (free_in_word 32 k 0);
        let b := u32 (block * FS_BITS_PER_BLOCK (s_block_size sp) + w * FS_BITCHUNK_BITS + i) in
        if map_bits sp map <=? b then mret None
        else
          wr_word bp w (u32 (conv4 (s_native sp) (i32 (Z.lor k (Z.shiftl 1 i)))));;
          MARKDIRTY bp;;
          mret (Some b)
  end.

Fixpoint alloc_blocks (n : nat) (sp : super_block) (map : bit_map) (block w : Z) : FM Z :=
  match n with
  | O => mret NO_BIT
  | S n' =>
      bp ← get_block (s_dev sp) (map_start sp map + block) NORMAL;
      r ← alloc_words (Z.to_nat (FS_BITMAP_CHUNKS (s_block_size sp) - w)) sp map block bp w;
      put_block bp MAP_BLOCK;;
      match r with
      | Some b =>
          when (bool_decide (map = ZMAP))
            (n ← gets used_blocks; modify (with_used (u32 (n + 1)));; cached (blocks_change (s_dev sp) 1));;
          mret b
      | None =>
          let block := if u32 (map_blocks sp map) <=? block + 1 then 0 else block + 1 in
          alloc_blocks n' sp map block 0
      end
  end.

Definition alloc_bit (sp : super_block) (map : bit_map) (origin : Z) : FM Z :=
  if negb (s_rd_only sp =? 0) then fail Panic
  else
    let origin := if map_bits sp map <=? origin then 0 else origin in
    let block := origin / FS_BITS_PER_BLOCK (s_block_size sp) in
    let w := (origin `mod` FS_BITS_PER_BLOCK (s_block_size sp)) / FS_BITCHUNK_BITS in
    (* do ... while (--bcount > 0) *)
    let bcount := u32 (map_blocks sp map + 1) in
    alloc_blocks (S (Z.to_nat (u32 (bcount - 1)))) sp map block w.

Definition free_bit (sp : super_block) (map : bit_map) (bit_returned : Z) : FM unit :=
  if negb (s_rd_only sp =? 0) then fail Panic
  else
    let block := bit_returned / FS_BITS_PER_BLOCK (s_block_size sp) in
    let w := (bit_returned `mod` FS_BITS_PER_BLOCK (s_block_size sp)) / FS_BITCHUNK_BITS in
    let mask := Z.shiftl 1 (bit_returned `mod` FS_BITCHUNK_BITS) in
    bp ← get_block (s_dev sp) (map_start sp map + block) NORMAL;
    v ← rd_word bp w;
    let k := u32 (conv4 (s_native sp) (i32 v)) in
    if negb (anyset k mask) then fail Panic
    else
      wr_word bp w (u32 (conv4 (s_native sp) (i32 (clearf k mask))));;
      MARKDIRTY bp;;
      put_block bp MAP_BLOCK;;
      when (bool_decide (map = ZMAP))
        (n ← gets used_blocks; modify (with_used (u32 (n - 1)));; cached (blocks_change (s_dev sp) (-1))).

(** ** Zones (cache.c) *)

Definition alloc_zone (dev z : Z) : FM Z :=
  sp ← get_super dev;
  let bit := if z =? s_firstdatazone sp then s_zsearch sp else u32 (z - (s_firstdatazone sp - 1)) in
  b ← alloc_bit sp ZMAP bit;
  if b =? NO_BIT then modify (with_err ENOSPC);; mret NO_ZONE
  else
    when (z =? s_firstdatazone sp) (modify (fun s => with_super (set_s_zsearch b (superblock s)) s));;
    mret (u32 (s_firstdatazone sp - 1 + b)).

Definition free_zone (dev numb : Z) : FM unit :=
  sp ← get_super dev;
  if (numb <? s_firstdatazone sp) || (s_zones sp <=? numb) then skip
  else
    let bit := u32 (numb - (s_firstdatazone sp - 1)) in
    free_bit sp ZMAP bit;;
    sp ← gets superblock;
    when (bit <? s_zsearch sp) (modify (fun s => with_super (set_s_zsearch bit (superblock s)) s)).

(** ** Indirect blocks *)

Definition rd_indir (bp : option nat) (index : Z) : FM Z :=
  match bp with
  | None => fail Panic
  | Some bp =>
      dev ← cached (buf_dev bp);
      sp ← get_super dev;
      c_assert (s_version sp =? V3);;
      v ← rd_word bp index;
      let zone := u32 (conv4 (s_native sp) (i32 v)) in
      if negb (zone =? NO_ZONE) && ((zone <? s_firstdatazone sp) || (s_zones sp <=? zone)) then fail Panic
      else mret zone
  end.

Definition wr_indir (bp : option nat) (index zone : Z) : FM unit :=
  match bp with
  | None => fail Panic
  | Some bp =>
      dev ← cached (buf_dev bp);
      sp ← get_super dev;
      c_assert (s_version sp =? V3);;
      wr_word bp index (u32 (conv4 (s_native sp) (i32 zone)))
  end.

Fixpoint empty_words (n : nat) (bp : nat) (i : Z) : FM bool :=
  match n with
  | O => mret true
  | S n' =>
      v ← rd_word bp i;
      if negb (v =? NO_ZONE) then mret false else empty_words n' bp (i + 1)
  end.
Definition empty_indir (bp : option nat) (sb : super_block) : FM bool :=
  bp ← deref bp; empty_words (Z.to_nat (V2_INDIRECTS (s_block_size sb))) bp 0.

Definition zero_block (bp : nat) : FM unit :=
  d ← cached (buf_data bp);
  c_assert (0 <? Z.of_nat (length d));;
  cached (set_buf_data bp (replicate (length d) 0));;
  MARKDIRTY bp.
End mfs.
