(* ===== verification/MfsFile.v ===== *)
(** * The MINIX file system: from the bytes of a file to its zones

    [read_map] finds the block of a position, [write_map] enters a zone or frees one
    (write.c, read.c), with the single and double indirect blocks that this takes;
    [new_block] gives a file a block, [truncate_inode] and [freesp_inode] (link.c) take
    blocks from it. *)

From S2P Require Import Prelude KTypes BufCache Mfs.
#[local] Open Scope Z_scope.

Definition udiv (a b : Z) : result Z := if b =? 0 then Err DivByZero else Ok (a / b).
Definition umod (a b : Z) : result Z := if b =? 0 then Err DivByZero else Ok (a `mod` b).
Definition sdiv (a b : Z) : result Z := if b =? 0 then Err DivByZero else Ok (Z.quot a b).
Definition srem (a b : Z) : result Z := if b =? 0 then Err DivByZero else Ok (Z.rem a b).

(** [write_map] between its steps: whether the zone is found by the single
    indirect block, this block's zone, the old double indirect zone, its
    buffer, and the indices in the two. *)
Record wmap := mk_wmap {
  wm_single : bool;
  wm_z1 : Z;
  wm_z2 : Z;
  wm_dindir : option nat;
  wm_ind_ex : Z;
  wm_excess : Z;
  wm_new_ind : bool;
}.

Section mfs_file.
Context {C : Type} `{BufCache C}.
Notation FM := (M (@mfs C)).

(** ** Reading the map (read.c) *)

(** The entry [index] of a double or single indirect block; nothing when only the cache may be used
    and does not have the block. *)
Definition read_indirect (rip : nat) (b index : Z) (double opportunistic : bool) : FM (option Z) :=
  r ← get_inode_slot rip;
  bp ← get_block (i_dev r) b (if opportunistic then PREFETCH else NORMAL);
  dev ← cached (buf_dev bp);
  if opportunistic && (dev =? NO_DEV) then put_block bp INDIRECT_BLOCK;; mret None
  else
    when double (c_assert (negb (dev =? NO_DEV));; c_assert (dev =? i_dev r));;
    z ← rd_indir (Some bp) index;
    put_block bp INDIRECT_BLOCK;;
    mret (Some z).

Definition read_map (rip : nat) (position : Z) (opportunistic : bool) : FM Z :=
  sb ← gets superblock;
  r ← get_inode_slot rip;
  let scale := s_log_zone_size sb in
  q ← lift (sdiv position (s_block_size sb));
  let block_pos := u32 q in
  let zone := Z.shiftr block_pos scale in
  let boff := i32 (block_pos - Z.shiftl zone scale) in
  let dzones := i_ndzones r in
  let nr_indirects := i_nindirs r in
  if zone <? dzones then
    z ← get_zone rip (i32 zone);
    if z =? NO_ZONE then mret NO_BLOCK else mret (u32 (Z.shiftl z scale + boff))
  else
    let excess := u32 (zone - dzones) in
    (* the zone of the single indirect block and the index into it *)
    s ← (if excess <? nr_indirects then z ← get_zone rip dzones; mret (Some (z, excess))
         else
           z ← get_zone rip (dzones + 1);
           if z =? NO_ZONE then mret None
           else
             let excess := u32 (excess - nr_indirects) in
             c_assert (negb (i_dev r =? NO_DEV));;
             index ← lift (udiv excess nr_indirects);
             if i_nindirs r <? u32 (i32 index) then mret None
             else
               o ← read_indirect rip (u32 (Z.shiftl z scale)) (i32 index) true opportunistic;
               e ← lift (umod excess nr_indirects);
               mret ((fun z => (z, e)) <$> o));
    match s with
    | None => mret NO_BLOCK
    | Some (z, excess) =>
        if z =? NO_ZONE then mret NO_BLOCK
        else
          o ← read_indirect rip (u32 (Z.shiftl z scale)) (i32 excess) false opportunistic;
          match o with
          | None => mret NO_BLOCK
          | Some z => if z =? NO_ZONE then mret NO_BLOCK else mret (u32 (Z.shiftl z scale + boff))
          end
    end.

Definition rounddown (x y : Z) : Z := x - Z.rem x y.

Definition get_block_size (dev : Z) : FM Z := if dev =? NO_DEV then fail Panic else cached fs_block_size.

Definition get_block_map (rip : nat) (position : Z) : FM (option nat) :=
  b ← read_map rip position false;
  r ← get_inode_slot rip;
  block_size ← get_block_size (i_dev r);
  if b =? NO_BLOCK then mret None
  else
    c_assert (negb (i_num r =? VMC_NO_INODE));;
    bp ← cached (get_block_ino (i_dev r) b NORMAL (i_num r) (rounddown position block_size));
    mret (Some bp).

(** ** Writing the map (write.c) *)

Definition is_free (op : Z) : bool := anyset op WMAP_FREE.

(** The single indirect block of the position, as far as it exists. *)
Definition locate_indirect (rip : nat) (op zones nr_indirects excess : Z) : FM (ecode + wmap) :=
  sb ← gets superblock;
  r ← get_inode_slot rip;
  if excess <? nr_indirects then
    z1 ← get_zone rip zones;
    mret (inr (mk_wmap true z1 NO_ZONE None 0 excess false))
  else
    z2 ← get_zone rip (zones + 1);
    (* the double indirect zone, and whether it is new *)
    d ← (if (z2 =? NO_ZONE) && negb (is_free op) then
           z0 ← get_zone rip 0;
           z ← alloc_zone (i_dev r) z0;
           if z =? NO_ZONE then mret None
           else set_zone rip (zones + 1) z;; mret (Some (z, true))
         else mret (Some (z2, false)));
    match d with
    | None => e ← gets err_code; mret (inl e)
    | Some (z, new_dbl) =>
        let excess := excess - nr_indirects in
        q ← lift (sdiv excess nr_indirects);
        let ind_ex := i32 q in
        excess ← lift (srem excess nr_indirects);
        if nr_indirects <=? ind_ex then mret (inl EFBIG)
        else if (z =? NO_ZONE) && is_free op then
          mret (inr (mk_wmap false NO_ZONE z2 None ind_ex excess false))
        else
          bp ← get_block (i_dev r) (u32 (Z.shiftl z (s_log_zone_size sb))) (if new_dbl then NO_READ else NORMAL);
          when new_dbl (zero_block bp);;
          z1 ← rd_indir (Some bp) ind_ex;
          mret (inr (mk_wmap false z1 z2 (Some bp) ind_ex excess false))
    end.

(** A single indirect block is created. *)
Definition create_indirect (rip : nat) (op zones : Z) (w : wmap) : FM (ecode + wmap) :=
  if (wm_z1 w =? NO_ZONE) && negb (is_free op) then
    r ← get_inode_slot rip;
    z0 ← get_zone rip 0;
    z1 ← alloc_zone (i_dev r) z0;
    (if wm_single w then set_zone rip zones z1 else wr_indir (wm_dindir w) (wm_ind_ex w) z1);;
    match wm_dindir w with Some bp => MARKDIRTY bp | None => skip end;;
    if z1 =? NO_ZONE then
      put_block_opt (wm_dindir w) INDIRECT_BLOCK;;
      e ← gets err_code; mret (inl e)
    else mret (inr (mk_wmap (wm_single w) z1 (wm_z2 w) (wm_dindir w) (wm_ind_ex w) (wm_excess w) true))
  else mret (inr w).

(** The entry in the single indirect block; the zone of this block, unless it
    was freed. *)
Definition update_indirect (rip : nat) (op zones new_zone : Z) (w : wmap) : FM Z :=
  sb ← gets superblock;
  r ← get_inode_slot rip;
  let z1 := wm_z1 w in
  if z1 =? NO_ZONE then mret z1
  else
    let ex := i32 (wm_excess w) in
    bp ← get_block (i_dev r) (u32 (Z.shiftl z1 (s_log_zone_size sb))) (if wm_new_ind w then NO_READ else NORMAL);
    when (wm_new_ind w) (zero_block bp);;
    z1 ← (if is_free op then
            old_zone ← rd_indir (Some bp) ex;
            when (negb (old_zone =? NO_ZONE)) (free_zone (i_dev r) old_zone;; wr_indir (Some bp) ex NO_ZONE);;
            e ← empty_indir (Some bp) sb;
            if (e : bool) then
              free_zone (i_dev r) z1;;
              (if wm_single w then set_zone rip zones NO_ZONE
               else
                 wr_indir (wm_dindir w) (wm_ind_ex w) NO_ZONE;;
                 dp ← deref (wm_dindir w); MARKDIRTY dp);;
              mret NO_ZONE
            else mret z1
          else wr_indir (Some bp) ex new_zone;; mret z1);
    (if z1 =? NO_ZONE then MARKCLEAN bp else MARKDIRTY bp);;
    put_block bp INDIRECT_BLOCK;;
    mret z1.

(** The double indirect block is released, and freed with its last entry. *)
Definition release_dindir (rip : nat) (zones z1 : Z) (w : wmap) : FM unit :=
  sb ← gets superblock;
  r ← get_inode_slot rip;
  (if (z1 =? NO_ZONE) && negb (wm_single w) && negb (wm_z2 w =? NO_ZONE) then
     e ← empty_indir (wm_dindir w) sb;
     when (e : bool)
       (dp ← deref (wm_dindir w);
        MARKCLEAN dp;;
        free_zone (i_dev r) (wm_z2 w);;
        set_zone rip (zones + 1) NO_ZONE)
   else skip);;
  put_block_opt (wm_dindir w) INDIRECT_BLOCK.

Definition write_map (rip : nat) (position new_zone op : Z) : FM ecode :=
  IN_MARKDIRTY rip;;
  sb ← gets superblock;
  r ← get_inode_slot rip;
  q ← lift (sdiv position (s_block_size sb));
  let zone := i32 (Z.shiftr q (s_log_zone_size sb)) in
  let zones := i_ndzones r in
  let nr_indirects := i_nindirs r in
  if zone <? zones then
    z ← get_zone rip zone;
    if negb (z =? NO_ZONE) && is_free op then
      free_zone (i_dev r) z;; set_zone rip zone NO_ZONE;; mret OK
    else set_zone rip zone new_zone;; mret OK
  else
    l ← locate_indirect rip op zones nr_indirects (zone - zones);
    match l with
    | inl e => mret e
    | inr w =>
        c ← create_indirect rip op zones w;
        match c with
        | inl e => mret e
        | inr w =>
            z1 ← update_indirect rip op zones new_zone w;
            release_dindir rip zones z1 w;;
            mret OK
        end
    end.

(** [clear_zone] has work only for zones of several blocks, which it excludes. *)
Definition clear_zone (rip : nat) (pos : Z) (flag : Z) : FM unit :=
  sb ← gets superblock; c_assert (s_log_zone_size sb =? 0).

(** A zone for a position that has none; the zone, or [None] and [err_code]. *)
Definition new_zone_at (rip : nat) (position : Z) : FM (option Z) :=
  sb ← gets superblock;
  r ← get_inode_slot rip;
  z ← (if i_zsearch r =? NO_ZONE then
         z ← get_zone rip 0;
         mret (if z =? NO_ZONE then s_firstdatazone sb else z)
       else mret (i_zsearch r));
  z ← alloc_zone (i_dev r) z;
  if z =? NO_ZONE then mret None
  else
    upd_inode rip (set_i_zsearch z);;
    e ← write_map rip position z 0;
    if bool_decide (e = OK) then
      r ← get_inode_slot rip;
      when (negb (position =? i_size r)) (clear_zone rip position 1);;
      mret (Some z)
    else free_zone (i_dev r) z;; modify (with_err e);; mret None.

Definition new_block (rip : nat) (position : Z) : FM (option nat) :=
  sb ← gets superblock;
  b ← read_map rip position false;
  b ← (if b =? NO_BLOCK then
         o ← new_zone_at rip position;
         match o with
         | None => mret None
         | Some z =>
             let scale := s_log_zone_size sb in
             let base_block := u32 (Z.shiftl z scale) in
             let zone_size := u32 (Z.shiftl (s_block_size sb) scale) in
             m ← lift (srem position zone_size);
             q ← lift (sdiv m (s_block_size sb));
             mret (Some (u32 (base_block + u32 q)))
         end
       else mret (Some b));
  match b with
  | None => mret None
  | Some b =>
      r ← get_inode_slot rip;
      bp ← cached (get_block_ino (i_dev r) b NO_READ (i_num r) (rounddown position (s_block_size sb)));
      zero_block bp;;
      mret (Some bp)
  end.

(** ** Freeing (link.c) *)

Definition nextblock (pos zone_size : Z) : result Z :=
  q ← sdiv pos zone_size;
  m ← srem pos zone_size;
  Ok (if m =? 0 then q * zone_size else q * zone_size + zone_size).

Fixpoint zerozone_loop (fuel : nat) (rip : nat) (pos len : Z) : FM unit :=
  match fuel with
  | O => fail OutOfFuel
  | S fuel' =>
      if negb (0 <? len) then skip
      else
        sb ← gets superblock;
        let block_size := s_block_size sb in
        o ← get_block_map rip (rounddown pos block_size);
        match o with
        | None => skip
        | Some bp =>
            offset ← lift (srem pos block_size);
            let bytes := block_size - offset in
            let bytes := if len <? bytes then len else bytes in
            d ← cached (buf_data bp);
            cached (set_buf_data bp (take (Z.to_nat offset) d ++ replicate (Z.to_nat bytes) 0 ++ drop (Z.to_nat (offset + bytes)) d));;
            MARKDIRTY bp;;
            put_block bp FULL_DATA_BLOCK;;
            zerozone_loop fuel' rip (pos + bytes) (len - bytes)
        end
  end.
(** Every round but the first zeroes a whole block. *)
Definition zerozone_range (rip : nat) (pos len : Z) : FM unit :=
  if len =? 0 then skip else zerozone_loop (S (Z.to_nat len)) rip pos len.

Inductive zone_half := FIRST_HALF | LAST_HALF.
Definition zerozone_half (rip : nat) (pos : Z) (half : zone_half) (zone_size : Z) : FM unit :=
  offset ← lift (srem pos zone_size);
  match half with
  | LAST_HALF => zerozone_range rip pos (zone_size - offset)
  | FIRST_HALF => zerozone_range rip (pos - offset) offset
  end.

(** The zones from number [p] on, [n] of them. *)
Fixpoint free_zones (n : nat) (rip : nat) (p zone_size : Z) : FM ecode :=
  match n with
  | O => mret OK
  | S n' =>
      r ← write_map rip (p * zone_size) NO_ZONE WMAP_FREE;
      if bool_decide (r = OK) then free_zones n' rip (p + 1) zone_size else mret r
  end.

Definition freesp_inode (rip : nat) (start end_ : Z) : FM ecode :=
  sb ← gets superblock;
  r ← get_inode_slot rip;
  let end_ := if i_size r <? end_ then i_size r else end_ in
  if end_ <=? start then mret EINVAL
  else
    zone_size ← lift (int_ok (Z.shiftl (s_block_size sb) (s_log_zone_size sb)));
    zero_last ← lift (srem start zone_size);
    em ← lift (srem end_ zone_size);
    let zero_first := negb (em =? 0) && (end_ <? i_size r) in
    sq ← lift (sdiv start zone_size);
    eq ← lift (sdiv (end_ - 1) zone_size);
    e ← (if (sq =? eq) && (negb (zero_last =? 0) || zero_first) then
           zerozone_range rip start (end_ - start);; mret OK
         else
           when (negb (zero_last =? 0)) (zerozone_half rip start LAST_HALF zone_size);;
           when zero_first (zerozone_half rip end_ FIRST_HALF zone_size);;
           q ← lift (sdiv end_ zone_size);
           let e := if (end_ =? i_size r) && negb (em =? 0) then q + 1 else q in
           n ← lift (nextblock start zone_size);
           p ← lift (sdiv n zone_size);
           free_zones (Z.to_nat (e - p)) rip p zone_size);
    if bool_decide (e = OK) then
      upd_inode rip (fun r => set_i_update (setf (i_update r) (Z.lor CTIME MTIME)) r);;
      IN_MARKDIRTY rip;;
      mret OK
    else mret e.

Definition truncate_inode (rip : nat) (newsize : Z) : FM ecode :=
  sb ← gets superblock;
  r ← get_inode_slot rip;
  let file_type := Z.land (i_mode r) I_TYPE in
  if (file_type =? I_CHAR_SPECIAL) || (file_type =? I_BLOCK_SPECIAL) then mret EINVAL
  else if s_max_size sb <? newsize then mret EFBIG
  else
    e ← (if newsize <? i_size r then freesp_inode rip newsize (i_size r) else mret OK);
    if bool_decide (e = OK) then
      when (i_size r <? newsize) (clear_zone rip (i_size r) 0);;
      upd_inode rip (fun r => set_i_update (setf (i_update r) (Z.lor CTIME MTIME)) (set_i_size newsize r));;
      IN_MARKDIRTY rip;;
      mret OK
    else mret e.
End mfs_file.
