(* ===== verification/MfsBits.v ===== *)
(** * The bit maps of the MINIX file system

    The theory of [alloc_bit] and [free_bit]: a bit map is the sequence of the bits of
    its blocks; the allocation finds the first free bit of a cyclic search from a word on,
    or there is none, and changes nothing else. *)

From S2P Require Import Prelude KTypes BufCache Mfs.
#[local] Open Scope Z_scope.

(** ** Bits of words *)

Lemma anyset_shiftl1 k i : 0 <= i -> anyset k (Z.shiftl 1 i) = Z.testbit k i.
Proof.
  intros Hi. rewrite Z.shiftl_1_l. unfold anyset. destruct (Z.testbit k i) eqn:E.
  - apply negb_true_iff, Z.eqb_neq. intros H0. apply (f_equal (fun z => Z.testbit z i)) in H0.
    rewrite Z.land_spec, E, Z.pow2_bits_true, Z.bits_0 in H0 by done. done.
  - apply negb_false_iff, Z.eqb_eq. apply Z.bits_inj'. intros j Hj.
    rewrite Z.land_spec, Z.bits_0, Z.pow2_bits_eqb by done.
    destruct (Z.eqb_spec i j) as [->|]; [by rewrite E|]. by rewrite andb_false_r.
Qed.

Lemma testbit_setf k i j : 0 <= i -> 0 <= j -> Z.testbit (Z.lor k (Z.shiftl 1 i)) j = Z.testbit k j || (i =? j).
Proof. intros Hi Hj. rewrite Z.lor_spec, Z.shiftl_1_l, Z.pow2_bits_eqb by done. done. Qed.

Lemma testbit_clearf k i j : 0 <= i -> 0 <= j -> Z.testbit (clearf k (Z.shiftl 1 i)) j = Z.testbit k j && negb (i =? j).
Proof. intros Hi Hj. unfold clearf. rewrite Z.ldiff_spec, Z.shiftl_1_l, Z.pow2_bits_eqb by done. done. Qed.

Lemma word_ok_bits k : word_ok k <-> 0 <= k /\ forall j, 32 <= j -> Z.testbit k j = false.
Proof.
  unfold word_ok. split.
  - intros Hk. split; [lia|]. intros j Hj. destruct (decide (k = 0)) as [->|Hne]; [apply Z.bits_0|].
    apply Z.bits_above_log2; [lia|]. pose proof (Z.log2_lt_pow2 k 32). lia.
  - intros [H0 Hb]. split; [done|]. destruct (decide (k = 0)) as [->|Hne]; [done|].
    apply Z.log2_lt_pow2; [lia|]. destruct (decide (Z.log2 k < 32)) as [?|Hlt]; [done|].
    pose proof (Z.bit_log2 k ltac:(lia)) as Hl. rewrite Hb in Hl by lia. done.
Qed.

Lemma word_ok_setf k i : word_ok k -> 0 <= i < 32 -> word_ok (Z.lor k (Z.shiftl 1 i)).
Proof.
  rewrite !word_ok_bits. intros [Hk Hb] Hi. split.
  - apply Z.lor_nonneg. split; [done|]. rewrite Z.shiftl_1_l. by apply Z.pow_nonneg.
  - intros j Hj. rewrite testbit_setf by lia. rewrite Hb by done. cbn. lia.
Qed.

Lemma word_ok_clearf k i : word_ok k -> 0 <= i -> word_ok (clearf k (Z.shiftl 1 i)).
Proof.
  rewrite !word_ok_bits. intros [Hk Hb] Hi. split.
  - unfold clearf. apply Z.ldiff_nonneg. by left.
  - intros j Hj. rewrite testbit_clearf by lia. by rewrite Hb.
Qed.

Lemma u32_i32 w : word_ok w -> u32 (i32 w) = w.
Proof.
  unfold word_ok, u32, i32. intros Hw. rewrite Zminus_mod_idemp_l.
  replace (w + 2147483648 - 2147483648) with w by lia. by rewrite Z.mod_small.
Qed.

Lemma full_word k : word_ok k -> k <> 0xFFFFFFFF -> exists i, 0 <= i < 32 /\ Z.testbit k i = false.
Proof.
  intros Hk Hne. destruct (decide (Forall (fun i => Z.testbit k (Z.of_nat i) = true) (seq 0 32))) as [Hall|Hex].
  - exfalso. apply Hne. change 0xFFFFFFFF with (Z.ones 32). apply Z.bits_inj'. intros j Hj.
    destruct (decide (j < 32)) as [Hlt|Hlt].
    + rewrite Z.ones_spec_low by lia. rewrite Forall_forall in Hall. rewrite <- (Z2Nat.id j) by done. apply Hall.
      apply elem_of_seq. lia.
    + rewrite Z.ones_spec_high by lia. apply word_ok_bits in Hk as [_ Hk]. apply Hk. lia.
  - apply not_Forall_Exists in Hex; [|apply _]. apply Exists_exists in Hex as (i & Hi%elem_of_seq & Hb).
    exists (Z.of_nat i). split; [lia|]. by apply not_true_is_false.
Qed.

(** The search for the free bit stops at the lowest one. *)
Lemma free_in_word_ok fuel k i : word_ok k -> 0 <= i ->
  (exists j, i <= j < i + Z.of_nat fuel /\ Z.testbit k j = false) ->
  exists j, free_in_word fuel k i = Ok j /\ i <= j < i + Z.of_nat fuel /\ Z.testbit k j = false /\
    forall j', i <= j' < j -> Z.testbit k j' = true.
Proof.
  intros Hk. revert i. induction fuel as [|fuel IH]; intros i Hi (j & Hj & Hb); [lia|].
  cbn [free_in_word]. rewrite anyset_shiftl1 by done. destruct (Z.testbit k i) eqn:E.
  - destruct (IH (i + 1)) as (j1 & H1 & H2 & H3 & H4); [lia| |].
    { exists j. split; [|done]. destruct (decide (j = i)) as [->|]; [congruence|lia]. }
    exists j1. split_and!; [done|lia|lia|done|]. intros j' Hj'. destruct (decide (j' = i)) as [->|]; [done|]. apply H4. lia.
  - exists i. split_and!; [done|lia|lia|done|]. intros j' Hj'. lia.
Qed.

(** ** The state *)

(** A super block of a writable file system that was made well: the maps have
    room for their bits, the data zones follow the maps and are blocks of the device. *)
Record sb_ok (dev bs : Z) (own : Z -> Prop) (sb : super_block) : Prop := {
  sb_size : s_block_size sb = bs;
  sb_bs : 4 <= bs < 65536 /\ bs `mod` 4 = 0;
  sb_scale : s_log_zone_size sb = 0;
  sb_rw : s_rd_only sb = 0;
  sb_native : s_native sb <> 0;
  sb_version : s_version sb = V3;
  sb_dev : s_dev sb = dev /\ dev <> NO_DEV;
  sb_maps : 0 < s_imap_blocks sb < 32768 /\ 0 < s_zmap_blocks sb < 32768;
  sb_layout : START_BLOCK + s_imap_blocks sb + s_zmap_blocks sb <= s_firstdatazone sb < s_zones sb;
  sb_zones : s_zones sb < 2 ^ 31;
  sb_own b : START_BLOCK <= b < START_BLOCK + s_imap_blocks sb + s_zmap_blocks sb \/ s_firstdatazone sb <= b < s_zones sb -> own b;
  sb_imap : 0 <= s_ninodes sb < s_imap_blocks sb * FS_BITS_PER_BLOCK bs;
  sb_zmap : s_zones sb - (s_firstdatazone sb - 1) <= s_zmap_blocks sb * FS_BITS_PER_BLOCK bs;
  sb_fit : s_imap_blocks sb * FS_BITS_PER_BLOCK bs < 2 ^ 32 /\ s_zmap_blocks sb * FS_BITS_PER_BLOCK bs < 2 ^ 32;
  sb_search : 0 <= s_zsearch sb;
}.

Section theory.
Context {C : Type} `{BufCache C} (dev bs : Z) (own : Z -> Prop) `{!BufCacheLaws C dev bs own}.
Implicit Types (s : @mfs C) (V : gmap Z (list Z)) (L : list (nat * Z)) (T : gset Z).

Definition mrep s V L T : Prop := cache_rep (fs_cache s) V L T /\ sb_ok dev bs own (superblock s).

(** Only the cache and the counter of blocks have changed. *)
Definition same_inodes s s' : Prop := superblock s' = superblock s /\ inodes s' = inodes s /\ err_code s' = err_code s.

Lemma same_inodes_refl s : same_inodes s s.
Proof. done. Qed.
Lemma same_inodes_trans s1 s2 s3 : same_inodes s1 s2 -> same_inodes s2 s3 -> same_inodes s1 s3.
Proof. intros (H1 & H2 & H3) (H4 & H5 & H6). split_and!; congruence. Qed.

Lemma mrep_cache s c V L T : mrep s V L T -> forall V' L' T', cache_rep c V' L' T' -> mrep (with_cache c s) V' L' T'.
Proof. by intros [_ Hsb] V' L' T' Hc. Qed.

Lemma wp_cached {A} (m : M C A) (Q : A -> mfs -> Prop) s :
  wp m (fun a c' => Q a (with_cache c' s)) (fs_cache s) -> wp (cached m) Q s.
Proof. unfold cached, wp, mbind, M_bind, gets. cbn. destruct (m (fs_cache s)) as [[a c']|]; done. Qed.

Lemma wp_get_block s V L T b mode (Q : nat -> mfs -> Prop) :
  mrep s V L T -> own b -> (length L < MINBUFS)%nat -> mode <> PREFETCH ->
  (forall bp s' d, same_inodes s s' -> block_ok bs d -> (mode = NORMAL -> forall d0, V !! b = Some d0 -> d = d0) ->
     mrep s' (<[b := d]> V) ((bp, b) :: L) (after_get V T mode b) -> Q bp s') ->
  wp (get_block dev b mode) Q s.
Proof.
  intros Hs Hb Hlen Hm HQ. apply wp_cached. eapply wp_mono; [apply (get_law _ V L T); [apply Hs|done..]|].
  intros bp c' (d & Hd1 & Hd2 & Hc). eapply HQ; [by split|exact Hd1|done|]. by eapply mrep_cache.
Qed.

(** A block with known contents. *)
Lemma wp_get_known s V L T b d (Q : nat -> mfs -> Prop) :
  mrep s V L T -> own b -> (length L < MINBUFS)%nat -> V !! b = Some d ->
  (forall bp s', same_inodes s s' -> mrep s' V ((bp, b) :: L) T -> Q bp s') ->
  wp (get_block dev b NORMAL) Q s.
Proof.
  intros Hs Hb Hlen HV HQ. eapply wp_get_block; [done..|]. intros bp s' d' Hsame Hok Heq Hs'.
  rewrite (Heq eq_refl d HV), insert_id in Hs' by done.
  unfold after_get in Hs'. rewrite decide_True in Hs' by (by split). by apply HQ.
Qed.

Lemma wp_put_block s V L T bp b ty (Q : unit -> mfs -> Prop) :
  mrep s V ((bp, b) :: L) T -> b ∉ T ->
  (forall s', same_inodes s s' -> mrep s' V L T -> Q tt s') -> wp (put_block bp ty) Q s.
Proof.
  intros Hs Hb HQ. apply wp_cached. eapply wp_mono; [apply (put_law _ V L T bp b); apply Hs|].
  intros [] c' [H1 _]. apply HQ; [by split|]. eapply mrep_cache; [done|]. apply H1. by left.
Qed.

(** A buffer that was marked clean: its contents are lost. *)
Lemma wp_put_lost s V L T bp b ty (Q : unit -> mfs -> Prop) :
  mrep s V ((bp, b) :: L) T -> b ∈ T -> b ∉ L.*2 ->
  (forall s', same_inodes s s' -> mrep s' (delete b V) L (T ∖ {[b]}) -> Q tt s') -> wp (put_block bp ty) Q s.
Proof.
  intros Hs Hb Hn HQ. apply wp_cached. eapply wp_mono; [apply (put_law _ V L T bp b); apply Hs|].
  intros [] c' [_ H1]. apply HQ; [by split|]. eapply mrep_cache; [done|]. by apply H1.
Qed.

Lemma wp_data s V L T bp b d (Q : list Z -> mfs -> Prop) :
  mrep s V L T -> (bp, b) ∈ L -> V !! b = Some d -> Q d s -> wp (cached (buf_data bp)) Q s.
Proof.
  intros [Hs _] Hin HV HQ. apply wp_cached. destruct (data_law _ V L T bp b Hs Hin) as (d' & Hd' & Hwp).
  eapply wp_mono; [exact Hwp|]. intros d2 c' [-> ->]. assert (d' = d) as -> by congruence. by destruct s.
Qed.

Lemma wp_set_data s V L T bp b d (Q : unit -> mfs -> Prop) :
  mrep s V L T -> (bp, b) ∈ L -> block_ok bs d ->
  (forall s', same_inodes s s' -> mrep s' (<[b := d]> V) L ({[b]} ∪ T) -> Q tt s') -> wp (cached (set_buf_data bp d)) Q s.
Proof.
  intros Hs Hin Hok HQ. apply wp_cached. eapply wp_mono; [apply (set_data_law _ V L T bp b d); [apply Hs|done..]|].
  intros [] c' Hc. apply HQ; [by split|]. by eapply mrep_cache.
Qed.

Lemma mrep_block s V L T b d : mrep s V L T -> V !! b = Some d -> block_ok bs d.
Proof. intros [Hs _]. by eapply rep_block. Qed.

Lemma block_words d : block_ok bs d -> nwords d = bs / 4.
Proof. intros [Hl _]. unfold nwords. by rewrite Hl. Qed.

Lemma wp_rd_word s V L T bp b d i (Q : Z -> mfs -> Prop) :
  mrep s V L T -> (bp, b) ∈ L -> V !! b = Some d -> 0 <= i < bs / 4 -> Q (word d i) s -> wp (rd_word bp i) Q s.
Proof.
  intros Hs Hin HV Hi HQ. unfold rd_word. apply wp_bind. eapply wp_data; [done..|].
  rewrite (block_words d) by (by eapply mrep_block). replace ((0 <=? i) && (i <? bs / 4)) with true by lia. done.
Qed.

Lemma put_word_ok d i w : block_ok bs d -> 0 <= i < bs / 4 -> block_ok bs (put_word d i w).
Proof.
  intros Hok Hi. pose proof (block_words d Hok) as Hw. destruct Hok as [Hl Hb]. split; [|by apply put_word_bytes].
  rewrite put_word_length; [done|by rewrite Hw].
Qed.

Lemma wp_wr_word s V L T bp b d i w (Q : unit -> mfs -> Prop) :
  mrep s V L T -> (bp, b) ∈ L -> V !! b = Some d -> 0 <= i < bs / 4 ->
  (forall s', same_inodes s s' -> mrep s' (<[b := put_word d i w]> V) L ({[b]} ∪ T) -> Q tt s') -> wp (wr_word bp i w) Q s.
Proof.
  intros Hs Hin HV Hi HQ. unfold wr_word. apply wp_bind. eapply wp_data; [done..|].
  pose proof (mrep_block _ _ _ _ _ _ Hs HV) as Hok. rewrite (block_words d) by done.
  replace ((0 <=? i) && (i <? bs / 4)) with true by lia. eapply wp_set_data; [done..| |done]. by apply put_word_ok.
Qed.

Lemma wp_buf_dev s V L T bp b (Q : Z -> mfs -> Prop) :
  mrep s V L T -> (bp, b) ∈ L -> Q dev s -> wp (cached (buf_dev bp)) Q s.
Proof.
  intros [Hs _] Hin HQ. apply wp_cached. eapply wp_mono; [by apply (dev_law _ V L T bp b)|].
  intros d c' [-> ->]. by destruct s.
Qed.

Lemma wp_mark_dirty s V L T bp b (Q : unit -> mfs -> Prop) :
  mrep s V L T -> (bp, b) ∈ L ->
  (forall s', same_inodes s s' -> mrep s' V L (T ∖ {[b]}) -> Q tt s') -> wp (MARKDIRTY bp) Q s.
Proof.
  intros Hs Hin HQ. unfold MARKDIRTY. apply wp_bind, wp_gets, wp_bind. eapply wp_buf_dev; [done..|].
  rewrite (sb_rw _ _ _ _ (proj2 Hs)). cbn [Z.eqb negb]. rewrite andb_false_r.
  apply wp_cached. eapply wp_mono; [by apply (dirty_law _ V L T bp b), Hin; apply Hs|].
  intros [] c' Hc. apply HQ; [by split|]. by eapply mrep_cache.
Qed.

Lemma wp_mark_clean s V L T bp b (Q : unit -> mfs -> Prop) :
  mrep s V L T -> (bp, b) ∈ L ->
  (forall s', same_inodes s s' -> mrep s' V L ({[b]} ∪ T) -> Q tt s') -> wp (MARKCLEAN bp) Q s.
Proof.
  intros Hs Hin HQ. apply wp_cached. eapply wp_mono; [by apply (clean_law _ V L T bp b), Hin; apply Hs|].
  intros [] c' Hc. apply HQ; [by split|]. by eapply mrep_cache.
Qed.

Lemma wp_get_super s V L T (Q : super_block -> mfs -> Prop) :
  mrep s V L T -> Q (superblock s) s -> wp (get_super dev) Q s.
Proof.
  intros [_ Hsb] HQ. unfold get_super. destruct (sb_dev _ _ _ _ Hsb) as [Hdv Hne].
  rewrite (proj2 (Z.eqb_neq _ _) Hne). apply wp_bind, wp_gets. rewrite Hdv, Z.eqb_refl. done.
Qed.

(** ** A map of bits *)

Notation bpb := (FS_BITS_PER_BLOCK bs).

Definition map_bit V (start n : Z) : bool :=
  match V !! (start + n / bpb) with
  | Some d => Z.testbit (word d ((n `mod` bpb) / 32)) (n `mod` 32)
  | None => false
  end.
Definition set_map_bit V (start n : Z) (v : bool) : gmap Z (list Z) :=
  match V !! (start + n / bpb) with
  | Some d =>
      let i := (n `mod` bpb) / 32 in
      <[start + n / bpb := put_word d i (if v then Z.lor (word d i) (Z.shiftl 1 (n `mod` 32))
                                         else clearf (word d i) (Z.shiftl 1 (n `mod` 32)))]> V
  | None => V
  end.

(** The [k] blocks of the map from [start] on are known. *)
Definition map_known V (start k : Z) : Prop := forall b, start <= b < start + k -> is_Some (V !! b).

Context (Hbs : 4 <= bs < 65536 /\ bs `mod` 4 = 0).

Lemma bs_words : bs = 4 * (bs / 4) /\ 1 <= bs / 4 < 16384.
Proof using Hbs. pose proof (Z.div_mod bs 4). lia. Qed.

Lemma bpb_pos : 0 < bpb.
Proof using Hbs. pose proof bs_words. unfold FS_BITS_PER_BLOCK, FS_BITMAP_CHUNKS, FS_BITCHUNK_BITS. lia. Qed.

(** The bit at [i] of the word at [w] of a block. *)
Lemma bit_index k w i n : 0 <= w < bs / 4 -> 0 <= i < 32 -> n = k * bpb + w * 32 + i ->
  n / bpb = k /\ (n `mod` bpb) / 32 = w /\ n `mod` 32 = i.
Proof using Hbs.
  intros Hw Hi ->. pose proof bpb_pos as Hp.
  assert (0 <= w * 32 + i < bpb) as Hr by (unfold FS_BITS_PER_BLOCK, FS_BITMAP_CHUNKS, FS_BITCHUNK_BITS; lia).
  split_and!.
  - rewrite <- Z.add_assoc, Z.div_add_l by lia. rewrite Z.div_small by done. lia.
  - rewrite <- Z.add_assoc, Z.add_comm, Z_mod_plus_full, Z.mod_small by done.
    rewrite Z.div_add_l by lia. rewrite Z.div_small by done. lia.
  - replace (k * bpb + w * 32 + i) with (i + (k * (bs / 4) + w) * 32)
      by (unfold FS_BITS_PER_BLOCK, FS_BITMAP_CHUNKS, FS_BITCHUNK_BITS; lia).
    rewrite Z_mod_plus_full. by apply Z.mod_small.
Qed.

Lemma bit_split n : 0 <= n -> exists w i, 0 <= w < bs / 4 /\ 0 <= i < 32 /\ n = (n / bpb) * bpb + w * 32 + i.
Proof using Hbs.
  intros Hn. pose proof bpb_pos as Hp. pose proof (Z.mod_pos_bound n bpb Hp) as Hm.
  exists ((n `mod` bpb) / 32), ((n `mod` bpb) `mod` 32).
  pose proof (Z.mod_pos_bound (n `mod` bpb) 32 ltac:(lia)). split_and!; try lia.
  - apply Z.div_pos; lia.
  - apply Z.div_lt_upper_bound; [lia|]. unfold FS_BITS_PER_BLOCK, FS_BITMAP_CHUNKS, FS_BITCHUNK_BITS in *. lia.
  - pose proof (Z.div_mod n bpb ltac:(lia)). pose proof (Z.div_mod (n `mod` bpb) 32 ltac:(lia)). lia.
Qed.

Lemma map_bit_at V start k w i n d : 0 <= w < bs / 4 -> 0 <= i < 32 -> n = k * bpb + w * 32 + i ->
  V !! (start + k) = Some d -> map_bit V start n = Z.testbit (word d w) i.
Proof using Hbs.
  intros Hw Hi Hn Hd. destruct (bit_index k w i n Hw Hi Hn) as (E1 & E2 & E3).
  unfold map_bit. by rewrite E1, E2, E3, Hd.
Qed.

Lemma set_map_bit_lookup_ne V start n v b : b <> start + n / bpb -> set_map_bit V start n v !! b = V !! b.
Proof. intros Hne. unfold set_map_bit. destruct (V !! (start + n / bpb)); [|done]. by rewrite lookup_insert_ne. Qed.

Lemma set_map_bit_known V start n v b : is_Some (V !! b) <-> is_Some (set_map_bit V start n v !! b).
Proof.
  destruct (decide (b = start + n / bpb)) as [->|Hne]; [|by rewrite set_map_bit_lookup_ne].
  unfold set_map_bit. destruct (V !! (start + n / bpb)) eqn:E; [|by rewrite E]. rewrite lookup_insert_eq. split; by eexists.
Qed.

Lemma map_bit_set V start n m v d :
  0 <= n -> 0 <= m -> V !! (start + n / bpb) = Some d -> block_ok bs d ->
  map_bit (set_map_bit V start n v) start m = if decide (m = n) then v else map_bit V start m.
Proof using Hbs.
  intros Hn Hm Hd Hok. destruct (bit_split n Hn) as (w & i & Hw & Hi & En).
  destruct (bit_split m Hm) as (w' & i' & Hw' & Hi' & Em). set (k1 := n / bpb) in *. set (k2 := m / bpb) in *.
  destruct (bit_index k1 w i n Hw Hi En) as (E1 & E2 & E3). unfold set_map_bit. fold k1. rewrite Hd, E2, E3. cbv zeta.
  pose proof (block_words d Hok) as Hnw.
  assert (word_ok (word d w)) as Hwk by (apply word_range, Hok).
  destruct (decide (k2 = k1)) as [Ek|Ek].
  2:{ rewrite decide_False by (intros ->; done). unfold map_bit. fold k2. by rewrite lookup_insert_ne by lia. }
  rewrite (map_bit_at _ start k1 w' i' m _ Hw' Hi' ltac:(lia) (lookup_insert_eq _ _ _)).
  rewrite (map_bit_at V start k1 w' i' m d Hw' Hi' ltac:(lia) Hd).
  destruct (decide (w' = w)) as [->|Ew].
  2:{ rewrite word_put_ne by lia. rewrite decide_False by lia. done. }
  rewrite word_put; [|lia|destruct v; [apply word_ok_setf|apply word_ok_clearf]; done || lia].
  destruct v; [rewrite testbit_setf by lia|rewrite testbit_clearf by lia];
    destruct (Z.eqb_spec i i') as [->|Ei]; cbn [negb].
  - rewrite decide_True by lia. apply orb_true_r.
  - rewrite decide_False by lia. apply orb_false_r.
  - rewrite decide_True by lia. apply andb_false_r.
  - rewrite decide_False by lia. apply andb_true_r.
Qed.

(** A word is written and its buffer marked dirty. *)
Lemma wp_wr_dirty {A} s V L T bp b d i x (m : M mfs A) Q :
  mrep s V L T -> (bp, b) ∈ L -> V !! b = Some d -> b ∉ T -> 0 <= i < bs / 4 ->
  (forall s', same_inodes s s' -> mrep s' (<[b := put_word d i x]> V) L T -> wp m Q s') ->
  wp (wr_word bp i x;; MARKDIRTY bp;; m) Q s.
Proof.
  intros Hs Hin Hd HnT Hi HQ. apply wp_bind. eapply wp_wr_word; [done..|]. intros s1 Hs1 Hr1.
  apply wp_bind. eapply wp_mark_dirty; [done..|]. intros s2 Hs2 Hr2.
  apply HQ; [by eapply same_inodes_trans|].
  by replace ((({[b]} ∪ T) ∖ {[b]}) : gset Z) with T in Hr2 by set_solver.
Qed.

(** The count of the blocks in use. *)
Lemma wp_count_blocks (z : bool) f n s V L T (Q : unit -> mfs -> Prop) :
  mrep s V L T -> Z.abs n <= 1 -> (forall s', same_inodes s s' -> mrep s' V L T -> Q tt s') ->
  wp (when z (m ← gets used_blocks; modify (with_used (f m));; cached (blocks_change dev n))) Q s.
Proof.
  intros Hs Hn HQ. apply wp_when; [intros _|intros _; by apply HQ].
  apply wp_bind, wp_gets, wp_bind, wp_modify. apply wp_cached.
  eapply wp_mono; [apply (change_law _ V L T); [done|apply Hs]|]. intros [] c' Hc. apply HQ; [done|]. by split; [|apply Hs].
Qed.

(** ** Allocating a bit *)

Lemma conv4_native sp v : s_native sp <> 0 -> conv4 (s_native sp) v = v.
Proof. intros Hn. unfold conv4. by rewrite (proj2 (Z.eqb_neq _ _) Hn). Qed.

Lemma u32_small z : 0 <= z < 2 ^ 32 -> u32 z = z.
Proof. intros Hz. unfold u32. by rewrite Z.mod_small. Qed.

(** All the bits from [lo] to [hi] that the map has are set. *)
Definition map_full V start mb lo hi : Prop := forall m, lo <= m < hi -> m < mb -> map_bit V start m = true.

(** The bit [b] was the first free one from [lo] on, and is set now. *)
Definition allocated V L T start mb lo (b : Z) (s' : mfs) : Prop :=
  lo <= b < mb /\ map_bit V start b = false /\ map_full V start mb lo b /\ mrep s' (set_map_bit V start b true) L T.

Lemma map_full_app V start mb lo mid hi :
  map_full V start mb lo mid -> map_full V start mb mid hi -> map_full V start mb lo hi.
Proof. intros H1 H2 m Hm Hmb. destruct (decide (m < mid)); [apply H1; lia|apply H2; lia]. Qed.

Lemma allocated_from V L T start mb mid lo b s' :
  lo <= mid -> map_full V start mb lo mid -> allocated V L T start mb mid b s' -> allocated V L T start mb lo b s'.
Proof.
  intros Hlo Hf (H1 & H2 & H3 & H4). split; [lia|]. split; [done|]. split; [|done]. by eapply map_full_app.
Qed.

Lemma alloc_words_ok n sp map k bp w s V L T d :
  let start := map_start sp map in
  sb_ok dev bs own sp -> mrep s V L T -> (bp, start + k) ∈ L -> V !! (start + k) = Some d -> start + k ∉ T ->
  0 <= k < map_blocks sp map -> 0 <= w -> w + Z.of_nat n = bs / 4 -> map_blocks sp map * bpb < 2 ^ 32 ->
  wp (alloc_words n sp map k bp w) (fun r s' => same_inodes s s' /\
    match r with
    | None => mrep s' V L T /\ map_full V start (map_bits sp map) (k * bpb + w * 32) ((k + 1) * bpb)
    | Some b => allocated V L T start (map_bits sp map) (k * bpb + w * 32) b s' /\ b < (k + 1) * bpb
    end) s.
Proof using Hbs.
  intros start Hsb Hs Hin Hd HnT Hk. revert w. pose proof bs_words as Hw4. pose proof bpb_pos as Hpos.
  assert (bpb = bs / 4 * 32) as Ebpb by done.
  induction n as [|n IH]; intros w Hw0 Hwn Hfit; cbn [alloc_words].
  { apply wp_ret. split; [done|]. split; [done|]. intros m Hm. lia. }
  apply wp_bind. eapply wp_rd_word; [done..|lia|].
  assert (word_ok (word d w)) as Hwk by (apply word_range; eapply mrep_block; done).
  assert (forall i, 0 <= i < 32 -> map_bit V start (k * bpb + w * 32 + i) = Z.testbit (word d w) i) as Hbit.
  { intros i Hi. eapply map_bit_at; [|exact Hi|reflexivity|exact Hd]. lia. }
  destruct (Z.eqb_spec (word d w) 0xFFFFFFFF) as [E|E].
  { eapply wp_mono; [apply IH; [lia|lia|done]|]. intros r s' [Hsame Hr]. split; [done|].
    assert (map_full V start (map_bits sp map) (k * bpb + w * 32) (k * bpb + (w + 1) * 32)) as Hfull.
    { intros m Hm _. replace m with (k * bpb + w * 32 + (m - k * bpb - w * 32)) by lia. rewrite Hbit by lia.
      rewrite E. change 0xFFFFFFFF with (Z.ones 32). apply Z.ones_spec_low. lia. }
    destruct r as [b|].
    - destruct Hr as [Hr Hb]. split; [|done]. by apply (allocated_from _ _ _ _ _ (k * bpb + (w + 1) * 32)); [lia|..].
    - destruct Hr as [H1 H2]. split; [done|]. by eapply map_full_app. }
  destruct (full_word _ Hwk E) as (j & Hj & Hjb).
  destruct (free_in_word_ok 32 (word d w) 0 Hwk ltac:(lia)) as (i & Ei & Hi & Hib & Hlow); [by exists j|].
  rewrite conv4_native, u32_i32 by (done || apply Hsb). cbv zeta.
  apply wp_bind, (wp_lift _ i); [done|].
  set (b := u32 _). assert (b = k * bpb + w * 32 + i) as Eb.
  { unfold b, FS_BITCHUNK_BITS. rewrite (sb_size _ _ _ _ Hsb). apply u32_small. nia. }
  assert (map_bit V start b = false) as Hfree by (rewrite Eb, Hbit by lia; done).
  assert (forall m, k * bpb + w * 32 <= m < b -> map_bit V start m = true) as Hbefore.
  { intros m Hm. replace m with (k * bpb + w * 32 + (m - k * bpb - w * 32)) by lia. rewrite Hbit by lia. apply Hlow. lia. }
  destruct (Z.leb_spec (map_bits sp map) b) as [Hmb|Hmb].
  { apply wp_ret. split; [done|]. split; [done|]. intros m Hm Hmm. apply Hbefore. lia. }
  assert (set_map_bit V start b true = <[start + k := put_word d w (Z.lor (word d w) (Z.shiftl 1 i))]> V) as Eset.
  { destruct (bit_index k w i b ltac:(lia) ltac:(lia) Eb) as (E1 & E2 & E3). unfold set_map_bit. by rewrite E1, Hd, E2, E3. }
  assert (word_ok (Z.lor (word d w) (Z.shiftl 1 i))) as Hwk' by (apply word_ok_setf; [done|lia]).
  rewrite conv4_native, u32_i32 by (done || apply Hsb).
  eapply wp_wr_dirty; [done..|lia|]. intros s1 Hs1 Hr1. apply wp_ret. split; [done|]. split; [|lia].
  split; [lia|]. split; [done|]. split; [intros m Hm _; by apply Hbefore|]. by rewrite Eset.
Qed.

(** What a well-made super block says of a map. *)
Lemma map_geometry sp map : sb_ok dev bs own sp ->
  0 < map_blocks sp map < 32768 /\ START_BLOCK <= map_start sp map /\
  map_start sp map + map_blocks sp map <= s_firstdatazone sp /\ (forall k, 0 <= k < map_blocks sp map -> own (map_start sp map + k)) /\
  map_blocks sp map * bpb < 2 ^ 32 /\ 0 < map_bits sp map <= map_blocks sp map * bpb.
Proof.
  intros [Hsz Hb _ _ _ _ _ [Hi Hz] Hlay Hz2 Hown Him Hzm [Hf1 Hf2] _]. unfold START_BLOCK in *.
  destruct map; cbn [map_blocks map_start map_bits]; unfold START_BLOCK; rewrite u32_small by lia;
    (split; [lia|]; split; [lia|]; split; [lia|]; split; [intros k Hk; apply Hown; lia|lia]).
Qed.

Definition map_block_ok V T sp map : Prop :=
  map_known V (map_start sp map) (map_blocks sp map) /\
  forall k, 0 <= k < map_blocks sp map -> map_start sp map + k ∉ T.

Section alloc.
Context (sp : super_block) (map : bit_map) (V : gmap Z (list Z)) (L : list (nat * Z)) (T : gset Z).
Context (Hsb : sb_ok dev bs own sp) (Hmap : map_block_ok V T sp map) (HL : (length L < MINBUFS)%nat).
Let start := map_start sp map.
Let mb := map_bits sp map.

Lemma alloc_block_step n k w s (Q : Z -> mfs -> Prop) :
  0 <= k < map_blocks sp map -> 0 <= w <= bs / 4 -> mrep s V L T ->
  (forall b s', same_inodes s s' -> allocated V L T start mb (k * bpb + w * 32) b s' -> Q b s') ->
  (forall s', same_inodes s s' -> mrep s' V L T -> map_full V start mb (k * bpb + w * 32) ((k + 1) * bpb) ->
     wp (alloc_blocks n sp map (if map_blocks sp map <=? k + 1 then 0 else k + 1) 0) Q s') ->
  wp (alloc_blocks (S n) sp map k w) Q s.
Proof using Hbs Hsb Hmap HL.
  intros Hk Hw Hs Hfound Hnext. destruct (map_geometry sp map Hsb) as (Hbl & Hst & Hend & Hown & Hfit & Hmb).
  destruct Hmap as [Hknown HnT]. destruct (Hknown (start + k)) as [d Hd]; [unfold start; lia|].
  destruct (sb_dev _ _ _ _ Hsb) as [Hdev _]. cbn [alloc_blocks]. rewrite Hdev. fold start.
  apply wp_bind. eapply wp_get_known; [done|by apply Hown|done|done|]. intros bp s1 Hs1 Hr1.
  apply wp_bind. unfold FS_BITMAP_CHUNKS. rewrite (sb_size _ _ _ _ Hsb).
  eapply wp_mono; [apply (alloc_words_ok _ sp map k bp w s1 V ((bp, start + k) :: L) T d); try done|].
  - left.
  - by apply HnT.
  - lia.
  - lia.
  - intros r s2 [Hs2 Hr2]. pose proof (same_inodes_trans _ _ _ Hs1 Hs2) as Hs12. destruct r as [b|].
    + destruct Hr2 as [(H1 & H2 & H3 & H4) _].
      apply wp_bind. eapply wp_put_block; [done|by apply HnT|]. intros s3 Hs3 Hr3.
      apply wp_bind. eapply wp_count_blocks; [done|done|]. intros s4 Hs4 Hr4.
      apply wp_ret, Hfound; [|done]. by eapply same_inodes_trans; [|eapply same_inodes_trans].
    + destruct Hr2 as [Hr2 Hfull]. apply wp_bind. eapply wp_put_block; [done|by apply HnT|]. intros s3 Hs3 Hr3.
      rewrite u32_small by lia. apply Hnext; [by eapply same_inodes_trans|done|done].
Qed.

(** The blocks from [k] on, [n] of them, not past the end of the map. *)
Lemma alloc_blocks_run n n' k w s (Q : Z -> mfs -> Prop) :
  0 <= k -> k + Z.of_nat (S n) <= map_blocks sp map -> 0 <= w <= bs / 4 -> mrep s V L T ->
  (forall b s', same_inodes s s' -> allocated V L T start mb (k * bpb + w * 32) b s' -> Q b s') ->
  (forall s', same_inodes s s' -> mrep s' V L T -> map_full V start mb (k * bpb + w * 32) ((k + Z.of_nat (S n)) * bpb) ->
     wp (alloc_blocks n' sp map (if map_blocks sp map <=? k + Z.of_nat (S n) then 0 else k + Z.of_nat (S n)) 0) Q s') ->
  wp (alloc_blocks (S n + n') sp map k w) Q s.
Proof using Hbs Hsb Hmap HL.
  pose proof bs_words as Hbw. pose proof bpb_pos as Hpos.
  revert k w s. induction n as [|n IH]; intros k w s Hk Hkn Hw Hs Hfound Hnext.
  { apply alloc_block_step; [lia|done..]. }
  change (S (S n) + n')%nat with (S (S n + n')). apply alloc_block_step; [lia|done|done|done|].
  intros s1 Hs1 Hr1 Hfull. replace (map_blocks sp map <=? k + 1) with false by lia.
  assert (k * bpb + w * 32 <= (k + 1) * bpb + 0 * 32) as Hlo by (unfold FS_BITS_PER_BLOCK, FS_BITMAP_CHUNKS, FS_BITCHUNK_BITS; lia).
  apply IH; [lia|lia|lia|done| |].
  - intros b s2 Hs2 Hal. apply Hfound; [by eapply same_inodes_trans|].
    eapply allocated_from; [exact Hlo| |exact Hal]. by rewrite Z.mul_0_l, Z.add_0_r.
  - intros s2 Hs2 Hr2 Hfull2. replace (k + 1 + Z.of_nat (S n)) with (k + Z.of_nat (S (S n))) in * by lia.
    apply Hnext; [by eapply same_inodes_trans|done|]. rewrite Z.mul_0_l, Z.add_0_r in Hfull2. by eapply map_full_app.
Qed.

(** The first free bit [b] of the cyclic search from [lo] on, or none. *)
Definition alloc_spec (lo b : Z) (V' : gmap Z (list Z)) : Prop :=
  (b = NO_BIT /\ V' = V /\ map_full V start mb 0 mb) \/
  (0 <= b < mb /\ map_bit V start b = false /\ V' = set_map_bit V start b true /\
   (lo <= b /\ map_full V start mb lo b \/ map_full V start mb lo mb /\ map_full V start mb 0 b)).

Lemma alloc_bit_ok origin s :
  0 <= origin -> mrep s V L T ->
  wp (alloc_bit sp map origin) (fun b s' => same_inodes s s' /\ exists V' lo, mrep s' V' L T /\
    lo <= (if decide (origin < mb) then origin else 0) < lo + 32 /\ 0 <= lo /\ alloc_spec lo b V') s.
Proof using Hbs Hsb Hmap HL.
  intros Ho Hs. destruct (map_geometry sp map Hsb) as (Hbl & Hst & Hend & Hown & Hfit & Hmb).
  pose proof bs_words as Hbw. pose proof bpb_pos as Hpos.
  unfold alloc_bit. rewrite (sb_rw _ _ _ _ Hsb), (sb_size _ _ _ _ Hsb). cbn [Z.eqb negb]. fold mb. cbv zeta.
  set (o := if mb <=? origin then 0 else origin).
  assert (o = if decide (origin < mb) then origin else 0) as <- by (unfold o; case_decide; destruct (Z.leb_spec mb origin); lia).
  assert (0 <= o < mb) as Hor by (unfold o, mb in *; destruct (Z.leb_spec (map_bits sp map) origin); lia).
  destruct (bit_split o ltac:(lia)) as (w & i & Hw & Hi & Eo). set (k := o / bpb) in *.
  destruct (bit_index k w i o Hw Hi Eo) as (_ & Ew & _). unfold FS_BITCHUNK_BITS. rewrite Ew.
  assert (0 <= k < map_blocks sp map) as Hk.
  { split; [apply Z.div_pos; lia|]. apply Z.div_lt_upper_bound; [lia|]. unfold mb in *. lia. }
  rewrite (u32_small (_ + 1)) by lia. rewrite (u32_small (_ + 1 - 1)) by lia.
  assert (S (Z.to_nat (map_blocks sp map + 1 - 1)) = S (Z.to_nat (map_blocks sp map - k - 1)) + S (Z.to_nat k))%nat as -> by lia.
  apply alloc_blocks_run; [lia|lia|lia|done| |].
  - intros b s1 Hs1 (H1 & H2 & H3 & H4). split; [done|]. exists (set_map_bit V start b true), (k * bpb + w * 32).
    split; [done|]. split; [lia|]. split; [lia|]. right. split; [lia|]. split; [done|]. split; [done|]. left. split; [lia|done].
  - intros s1 Hs1 Hr1 Hfull. replace (k + Z.of_nat (S (Z.to_nat (map_blocks sp map - k - 1)))) with (map_blocks sp map) in * by lia.
    rewrite (proj2 (Z.leb_le _ _) (Z.le_refl _)). rewrite <- (Nat.add_0_r (S (Z.to_nat k))).
    assert (map_full V start mb (k * bpb + w * 32) mb) as Hfull'.
    { intros m Hm Hm'. apply Hfull; unfold mb in *; lia. }
    apply alloc_blocks_run; [lia|lia|lia|done| |].
    + intros b s2 Hs2 (H1 & H2 & H3 & H4). split; [by eapply same_inodes_trans|].
      exists (set_map_bit V start b true), (k * bpb + w * 32). split; [done|]. split; [lia|]. split; [lia|].
      right. split; [lia|]. split; [done|]. split; [done|]. by right.
    + intros s2 Hs2 Hr2 Hfull2. apply wp_ret. split; [by eapply same_inodes_trans|]. exists V, (k * bpb + w * 32).
      split; [done|]. split; [lia|]. split; [lia|]. left. split; [done|]. split; [done|].
      eapply (map_full_app _ _ _ _ (k * bpb + w * 32)); [|exact Hfull'].
      intros m Hm Hm'. apply Hfull2; [|exact Hm'].
      replace (0 + Z.of_nat (S (Z.to_nat k))) with (k + 1) by lia.
      assert (w * 32 < bpb) by (unfold FS_BITS_PER_BLOCK, FS_BITMAP_CHUNKS, FS_BITCHUNK_BITS; lia). lia.
Qed.
End alloc.

(** ** Freeing a bit *)

Lemma free_bit_ok sp map V L T n s :
  sb_ok dev bs own sp -> map_block_ok V T sp map -> (length L < MINBUFS)%nat ->
  0 <= n < map_bits sp map -> map_bit V (map_start sp map) n = true -> mrep s V L T ->
  wp (free_bit sp map n) (fun _ s' => same_inodes s s' /\ mrep s' (set_map_bit V (map_start sp map) n false) L T) s.
Proof using Hbs.
  intros Hsb [Hknown HnT] HL Hn Hset Hs. destruct (map_geometry sp map Hsb) as (Hbl & Hst & Hend & Hown & Hfit & Hmb).
  pose proof bs_words as Hbw. pose proof bpb_pos as Hpos. destruct (sb_dev _ _ _ _ Hsb) as [Hdev _].
  destruct (bit_split n ltac:(lia)) as (w & i & Hw & Hi & En). set (k := n / bpb) in *.
  destruct (bit_index k w i n Hw Hi En) as (_ & Ew & Ei).
  assert (0 <= k < map_blocks sp map) as Hk.
  { split; [apply Z.div_pos; lia|]. apply Z.div_lt_upper_bound; lia. }
  destruct (Hknown (map_start sp map + k)) as [d Hd]; [lia|].
  unfold free_bit. rewrite (sb_rw _ _ _ _ Hsb), (sb_size _ _ _ _ Hsb). cbn [Z.eqb negb]. cbv zeta.
  unfold FS_BITCHUNK_BITS. fold k. rewrite Ew, Ei, Hdev.
  apply wp_bind. eapply wp_get_known; [done|by apply Hown|done|done|]. intros bp s1 Hs1 Hr1.
  apply wp_bind. eapply wp_rd_word; [done|left|done|lia|].
  assert (word_ok (word d w)) as Hwk by (apply word_range; eapply mrep_block; done).
  rewrite conv4_native, u32_i32 by (done || apply Hsb).
  rewrite anyset_shiftl1 by lia. rewrite <- (map_bit_at V (map_start sp map) k w i n d Hw Hi En Hd), Hset. cbn [negb].
  assert (word_ok (clearf (word d w) (Z.shiftl 1 i))) as Hwk' by (apply word_ok_clearf; [done|lia]).
  rewrite conv4_native, u32_i32 by (done || apply Hsb).
  eapply wp_wr_dirty; [done|left|done|by apply HnT|lia|]. intros s2 Hs2 Hr2.
  apply wp_bind. eapply wp_put_block; [done|by apply HnT|]. intros s3 Hs3 Hr3.
  assert (set_map_bit V (map_start sp map) n false = <[map_start sp map + k := put_word d w (clearf (word d w) (Z.shiftl 1 i))]> V) as ->.
  { unfold set_map_bit. fold k. by rewrite Hd, Ew, Ei. }
  assert (same_inodes s s3) as Hs13 by (eapply same_inodes_trans; [exact Hs1|by eapply same_inodes_trans]).
  eapply wp_count_blocks; [done|done|]. intros s4 Hs4 Hr4. split; [|done]. by eapply same_inodes_trans.
Qed.
End theory.
