(* ===== verification/MfsZones.v ===== *)
(** * The zones of the MINIX file system

    The zone map as a set of zones in use: what [alloc_zone] and [free_zone] do to it,
    and that all zones below [s_zsearch] are in use. *)

From S2P Require Import Prelude KTypes BufCache Mfs MfsBits.
#[local] Open Scope Z_scope.

Section zones.
Context {C : Type} `{BufCache C} (dev bs : Z) (own : Z -> Prop) `{!BufCacheLaws C dev bs own}.
(** The super block, up to the place where the search for zones starts. *)
Context (G : super_block) (HG : sb_ok dev bs own G).
Implicit Types (s : @mfs C) (V : gmap Z (list Z)) (L : list (nat * Z)) (T : gset Z).

Definition zmap_start : Z := map_start G ZMAP.
Definition zmap_bits : Z := map_bits G ZMAP.
Definition in_zmap (b : Z) : Prop := zmap_start <= b < zmap_start + s_zmap_blocks G.
Definition data_zone (z : Z) : Prop := s_firstdatazone G <= z < s_zones G.
#[global] Instance data_zone_dec z : Decision (data_zone z).
Proof. unfold data_zone. apply _. Defined.

(** The bit of a zone, and whether the zone is in use. *)
Definition zone_bit (z : Z) : Z := z - (s_firstdatazone G - 1).
Definition zone_used V (z : Z) : bool := map_bit bs V zmap_start (zone_bit z).

Record zrep s V L T : Prop := {
  z_cache : cache_rep (fs_cache s) V L T;
  z_super : exists z, 0 <= z /\ superblock s = set_s_zsearch z G;
  z_known : map_block_ok V T G ZMAP;
  z_bit0 : map_bit bs V zmap_start 0 = true;
  z_search : map_full bs V zmap_start zmap_bits 0 (s_zsearch (superblock s));
}.

Lemma sb_ok_search z sb : 0 <= z -> sb_ok dev bs own sb -> sb_ok dev bs own (set_s_zsearch z sb).
Proof. intros Hz []. by split. Qed.

Lemma zrep_mrep s V L T : zrep s V L T -> mrep dev bs own s V L T.
Proof using HG. intros [Hc (z & Hz & Hs) _ _ _]. split; [done|]. rewrite Hs. by apply sb_ok_search. Qed.

Lemma zmap_geometry : START_BLOCK < zmap_start /\ zmap_start + s_zmap_blocks G <= s_firstdatazone G /\
  s_firstdatazone G < s_zones G /\ s_zones G < 2 ^ 31 /\ zmap_bits = s_zones G - s_firstdatazone G + 1 /\ 0 < s_zmap_blocks G.
Proof using HG.
  destruct HG. unfold zmap_start, zmap_bits, map_start, map_bits, START_BLOCK in *. rewrite u32_small by lia. lia.
Qed.

Lemma zone_bit_range z : data_zone z -> 1 <= zone_bit z < zmap_bits.
Proof using HG. pose proof zmap_geometry. unfold data_zone, zone_bit. lia. Qed.

Lemma data_not_zmap z : data_zone z -> ~ in_zmap z.
Proof using HG. pose proof zmap_geometry. unfold data_zone, in_zmap. lia. Qed.

(** The block of a bit is one of the map. *)
Lemma zone_block_in z : 0 <= zone_bit z < zmap_bits -> in_zmap (zmap_start + zone_bit z / FS_BITS_PER_BLOCK bs).
Proof using HG.
  intros Hz. destruct (map_geometry dev bs own G ZMAP HG) as (Hb & _ & _ & _ & _ & Hmb). fold zmap_bits in Hmb.
  pose proof (bpb_pos bs (sb_bs _ _ _ _ HG)). unfold in_zmap. cbn [map_blocks] in *.
  split; [assert (0 <= zone_bit z / FS_BITS_PER_BLOCK bs) by (apply Z.div_pos; lia); lia|].
  assert (zone_bit z / FS_BITS_PER_BLOCK bs < s_zmap_blocks G); [|lia]. apply Z.div_lt_upper_bound; lia.
Qed.

(** A zone is put into use, or taken out of it. *)
Definition mark_zone V (z : Z) (v : bool) : gmap Z (list Z) := set_map_bit bs V zmap_start (zone_bit z) v.

Lemma mark_bit s V L T z v m : zrep s V L T -> data_zone z -> 0 <= m ->
  map_bit bs (mark_zone V z v) zmap_start m = if decide (m = zone_bit z) then v else map_bit bs V zmap_start m.
Proof using HG.
  intros Hs Hz Hm. pose proof (zone_bit_range z Hz) as Hzb. destruct (zone_block_in z ltac:(lia)) as [Hb1 Hb2].
  destruct (proj1 (z_known _ _ _ _ Hs) (zmap_start + zone_bit z / FS_BITS_PER_BLOCK bs)) as [d Hd]; [done|].
  unfold mark_zone. apply (map_bit_set bs (sb_bs _ _ _ _ HG) V _ _ _ v d); [lia|lia|done|].
  eapply mrep_block; [by apply zrep_mrep|done].
Qed.

Lemma mark_zone_used s V L T z z' v : zrep s V L T -> data_zone z -> data_zone z' ->
  zone_used (mark_zone V z v) z' = if decide (z' = z) then v else zone_used V z'.
Proof using HG.
  intros Hs Hz Hz'. pose proof (zone_bit_range z' Hz') as H2. unfold zone_used. rewrite (mark_bit s V L T) by (done || lia).
  unfold zone_bit. destruct (decide (z' = z)) as [->|]; [by rewrite decide_True|by rewrite decide_False by lia].
Qed.

Lemma mark_zone_frame V z v b : 0 <= zone_bit z < zmap_bits -> ~ in_zmap b -> mark_zone V z v !! b = V !! b.
Proof using HG. intros Hz Hb. apply set_map_bit_lookup_ne. intros ->. by apply Hb, zone_block_in. Qed.

(** [zrep] after a change of one bit. *)
Lemma zrep_mark s s' V L T z v : zrep s V L T -> data_zone z ->
  cache_rep (fs_cache s') (mark_zone V z v) L T ->
  (exists q, 0 <= q /\ superblock s' = set_s_zsearch q G /\
     map_full bs (mark_zone V z v) zmap_start zmap_bits 0 q) ->
  zrep s' (mark_zone V z v) L T.
Proof using HG.
  intros Hs Hz Hc (q & Hq & Hsb & Hfull). pose proof (zone_bit_range z Hz) as Hzb.
  split; [done|by exists q| | |by rewrite Hsb].
  - destruct (z_known _ _ _ _ Hs) as [Hk HT]. split; [|done]. intros b Hb. by apply set_map_bit_known, Hk.
  - rewrite (mark_bit s V L T), decide_False by (done || lia). apply Hs.
Qed.


(** ** Allocating and freeing *)

(** Only the zone map and the place of the search have changed. *)
Definition zmap_frame V V' : Prop := forall b, ~ in_zmap b -> V' !! b = V !! b.

Lemma zrep_zmap s V L T map s' V' :
  zrep s V L T -> map = ZMAP -> superblock s' = superblock s -> V' = V -> cache_rep (fs_cache s') V' L T -> zrep s' V' L T.
Proof. intros [Hc Hsb Hk H0 Hz] _ Es -> Hc'. split; [done|by rewrite Es|done|done|by rewrite Es]. Qed.

(** A zone was found: it is put into use, and the search starts there next time if it
    started where the last one had ended. *)
Lemma alloc_zone_found s s1 V L T q lo r (first : bool) :
  zrep s V L T -> 0 <= q -> superblock s = set_s_zsearch q G -> inodes s1 = inodes s -> superblock s1 = superblock s ->
  data_zone r -> cache_rep (fs_cache s1) (mark_zone V r true) L T ->
  map_full bs V zmap_start zmap_bits 0 q -> zone_used V r = false ->
  (first = true -> lo <= (if decide (q < zmap_bits) then q else 0)) ->
  (lo <= zone_bit r /\ map_full bs V zmap_start zmap_bits lo (zone_bit r) \/ map_full bs V zmap_start zmap_bits 0 (zone_bit r)) ->
  wp (when first (modify (fun s => with_super (set_s_zsearch (zone_bit r) (superblock s)) s)))
    (fun _ s2 => inodes s2 = inodes s /\ zrep s2 (mark_zone V r true) L T) s1.
Proof using HG.
  intros Hs Hq Esb Hin Hsb Hr Hc Hfq Hfree Hlo Hord. pose proof (zone_bit_range r Hr) as Hb.
  assert (forall k, 0 <= k -> map_full bs V zmap_start zmap_bits 0 k -> map_full bs (mark_zone V r true) zmap_start zmap_bits 0 k) as Hkeep.
  { intros k Hk Hfk m Hm' Hm2. rewrite (mark_bit s V L T) by (done || lia). destruct (decide (m = zone_bit r)); [done|]. by apply Hfk. }
  apply wp_when.
  - intros ->. specialize (Hlo eq_refl). apply wp_modify. split; [done|]. eapply zrep_mark; [done|done|exact Hc|].
    exists (zone_bit r). split; [lia|]. split; [cbn; by rewrite Hsb, Esb|]. apply Hkeep; [lia|].
    destruct Hord as [[Hle Hlb]|H0b]; [|done]. case_decide as Hqb.
    + intros m Hm1 Hm2. destruct (decide (m < lo)); [apply Hfq; lia|apply Hlb; lia].
    + unfold zone_used in Hfree. rewrite Hfq in Hfree; [done|lia|lia].
  - intros _. split; [done|]. eapply zrep_mark; [done|done|exact Hc|].
    exists q. split; [done|]. split; [by rewrite Hsb|]. by apply Hkeep.
Qed.

Lemma alloc_zone_ok s V L T z :
  zrep s V L T -> (length L < MINBUFS)%nat -> 0 <= z < 2 ^ 32 ->
  wp (alloc_zone dev z) (fun r s' => inodes s' = inodes s /\ exists V', zrep s' V' L T /\
    ((r = NO_ZONE /\ V' = V /\ err_code s' = ENOSPC /\ forall x, data_zone x -> zone_used V x = true) \/
     (data_zone r /\ zone_used V r = false /\ V' = mark_zone V r true))) s.
Proof using HG.
  intros Hs HL Hz. pose proof (zrep_mrep _ _ _ _ Hs) as Hm. pose proof zmap_geometry as Hgeo.
  destruct (z_super _ _ _ _ Hs) as (q & Hq & Esb). pose proof (z_search _ _ _ _ Hs) as Hfull.
  unfold alloc_zone. apply wp_bind. eapply wp_get_super; [done|].
  set (bit := if z =? s_firstdatazone (superblock s) then _ else _).
  assert (0 <= bit) as Hbit.
  { unfold bit. destruct (z =? _); [rewrite Esb; done|]. unfold u32. by apply Z.mod_pos_bound. }
  apply wp_bind. pose proof (sb_bs _ _ _ _ HG) as Hbs.
  eapply wp_mono; [apply (alloc_bit_ok dev bs own Hbs (superblock s) ZMAP V L T); [apply Hm| |done|done|done]|].
  { rewrite Esb. apply (z_known _ _ _ _ Hs). }
  intros b s1 [(Hs1a & Hs1b & _) (V1 & lo & Hr1 & Hlo1 & Hlo0 & Hspec)]. unfold alloc_spec in Hspec.
  assert (map_start (superblock s) ZMAP = zmap_start /\ map_bits (superblock s) ZMAP = zmap_bits) as [Est Emb] by (by rewrite Esb).
  rewrite Est, Emb in Hspec. rewrite Emb in Hlo1.
  destruct Hspec as [(-> & -> & Hall)|(Hb & Hfree & -> & Hord)].
  - rewrite Z.eqb_refl. apply wp_bind, wp_modify, wp_ret. split; [done|]. exists V. split.
    + apply (zrep_zmap s V L T ZMAP); [done..|]. apply Hr1.
    + left. split; [done|]. split; [done|]. split; [done|]. intros x Hx. pose proof (zone_bit_range x Hx).
      apply Hall; lia.
  - assert (b <> NO_BIT) as Hb0.
    { intros ->. unfold NO_BIT in Hfree. by rewrite (z_bit0 _ _ _ _ Hs) in Hfree. }
    rewrite (proj2 (Z.eqb_neq _ _) Hb0). unfold NO_BIT in Hb0. rewrite Esb. cbn [s_firstdatazone set_s_zsearch].
    set (r := u32 (s_firstdatazone G - 1 + b)).
    assert (r = s_firstdatazone G - 1 + b) as Er by (apply u32_small; unfold START_BLOCK in *; lia).
    assert (data_zone r) as Hr by (unfold data_zone; lia).
    assert (b = zone_bit r) as Ebr by (unfold zone_bit; lia). rewrite Ebr in Hfree, Hord |- *. rewrite Ebr in Hr1.
    apply wp_bind. rewrite Esb in Hfull.
    eapply wp_mono; [apply (alloc_zone_found s s1 V L T q lo r); try done; [apply Hr1| |tauto]|].
    + intros Hfirst. unfold bit in Hlo1. rewrite Esb in Hlo1. cbn [s_firstdatazone s_zsearch set_s_zsearch] in Hlo1.
      rewrite Hfirst in Hlo1. lia.
    + intros [] s2 [Hi2 Hr2]. apply wp_ret. split; [done|]. exists (mark_zone V r true). split; [done|]. by right.
Qed.

Lemma free_zone_ok s V L T z :
  zrep s V L T -> (length L < MINBUFS)%nat -> data_zone z -> zone_used V z = true ->
  wp (free_zone dev z) (fun _ s' => inodes s' = inodes s /\ err_code s' = err_code s /\ zrep s' (mark_zone V z false) L T) s.
Proof using HG.
  intros Hs HL Hz Hu. pose proof (zrep_mrep _ _ _ _ Hs) as Hm. pose proof zmap_geometry as Hgeo.
  destruct (z_super _ _ _ _ Hs) as (q & Hq & Esb). pose proof (z_search _ _ _ _ Hs) as Hfull.
  pose proof (zone_bit_range z Hz) as Hzb. pose proof Hz as [Hz1 Hz2].
  unfold free_zone. apply wp_bind. eapply wp_get_super; [done|]. rewrite Esb. cbn [s_firstdatazone s_zones set_s_zsearch].
  replace ((z <? s_firstdatazone G) || (s_zones G <=? z)) with false by lia.
  assert (u32 (z - (s_firstdatazone G - 1)) = zone_bit z) as -> by (apply u32_small; unfold zone_bit, START_BLOCK in *; lia).
  rewrite <- Esb. pose proof (sb_bs _ _ _ _ HG) as Hbs. apply wp_bind.
  assert (map_start (superblock s) ZMAP = zmap_start /\ map_bits (superblock s) ZMAP = zmap_bits) as [Est Emb] by (by rewrite Esb).
  eapply wp_mono; [apply (free_bit_ok dev bs own Hbs (superblock s) ZMAP V L T (zone_bit z)); [apply Hm| |done| | |done]|].
  { rewrite Esb. apply (z_known _ _ _ _ Hs). }
  { rewrite Emb. lia. }
  { by rewrite Est. }
  intros [] s1 [(Hs1 & Hi1 & He1) [Hc1 Hsb1]]. rewrite Est in Hc1. fold (mark_zone V z false) in Hc1.
  rewrite Esb in Hfull. cbn [s_zsearch set_s_zsearch] in Hfull.
  assert (forall k, k <= zone_bit z -> map_full bs V zmap_start zmap_bits 0 k -> map_full bs (mark_zone V z false) zmap_start zmap_bits 0 k) as Hkeep.
  { intros k Hk Hfk m Hm1 Hm2. rewrite (mark_bit s V L T), decide_False by (done || lia). by apply Hfk. }
  apply wp_bind, wp_gets. rewrite Hs1, Esb. cbn [s_zsearch set_s_zsearch]. apply wp_when.
  - intros Hlt. apply wp_modify. split; [done|]. split; [done|]. eapply zrep_mark; [done|done|exact Hc1|].
    exists (zone_bit z). split; [lia|]. split; [cbn; by rewrite Hs1, Esb|]. apply Hkeep; [lia|].
    intros m Hm1 Hm2. apply Hfull; lia.
  - intros Hge. split; [done|]. split; [done|]. eapply zrep_mark; [done|done|exact Hc1|].
    exists q. split; [done|]. split; [by rewrite Hs1|]. apply Hkeep; [lia|done].
Qed.

(** A number that is not a data zone is ignored. *)
Lemma free_zone_none s V L T z :
  zrep s V L T -> ~ data_zone z -> wp (free_zone dev z) (fun _ s' => s' = s) s.
Proof using HG.
  intros Hs Hz. pose proof (zrep_mrep _ _ _ _ Hs) as Hm. destruct (z_super _ _ _ _ Hs) as (q & Hq & Esb).
  unfold free_zone. apply wp_bind. eapply wp_get_super; [done|]. rewrite Esb. cbn [s_firstdatazone s_zones set_s_zsearch].
  unfold data_zone in Hz. replace ((z <? s_firstdatazone G) || (s_zones G <=? z)) with true by lia. done.
Qed.
End zones.
