(* ===== verification/MfsTree.v ===== *)
(** * The tree of zones of a file

    The zones that a file refers to, through its inode, its single indirect block and its
    double indirect block: the zones as a list, the zone of each position, and
    what a change of one reference does to both. *)

From S2P Require Import Prelude BufCache Mfs MfsBits MfsZones.
#[local] Open Scope Z_scope.

(** ** Lists of lists with one element changed *)

Lemma concat_delete {A B} (f : A -> list B) (l : list A) i x :
  l !! i = Some x -> concat (f <$> l) ≡ₚ f x ++ concat (f <$> delete i l).
Proof.
  intros Hi. rewrite <- (take_drop_middle l i x Hi) at 1. rewrite delete_take_drop.
  rewrite !fmap_app, !concat_app. cbn. rewrite !app_assoc. by rewrite (Permutation_app_comm (concat _) (f x)).
Qed.

Lemma delete_insert_list {A} (l : list A) i x : delete i (<[i := x]> l) = delete i l.
Proof.
  destruct (decide (i < length l)%nat) as [Hi|Hi]; [|by rewrite list_insert_ge by lia].
  rewrite !delete_take_drop. by rewrite take_insert_ge, drop_insert_lt by lia.
Qed.

Lemma concat_update {A B} (f f' : A -> list B) (l : list A) i x y :
  l !! i = Some x -> (forall j z, j <> i -> l !! j = Some z -> f' z = f z) ->
  concat (f' <$> <[i := y]> l) ≡ₚ f' y ++ concat (f <$> delete i l).
Proof.
  intros Hi Hf. pose proof (lookup_lt_Some _ _ _ Hi) as Hlt.
  rewrite (concat_delete f' (<[i := y]> l) i y) by (by apply list_lookup_insert_eq). rewrite delete_insert_list.
  f_equiv. apply reflexive_eq. f_equal. apply list_eq. intros j. rewrite !list_lookup_fmap.
  destruct (decide (j < i)%nat) as [Hj|Hj].
  - rewrite list_lookup_delete_lt by done. destruct (l !! j) eqn:E; [|done]. cbn. f_equal. apply (Hf j); [lia|done].
  - rewrite list_lookup_delete_ge by lia. destruct (l !! S j) eqn:E; [|done]. cbn. f_equal. apply (Hf (S j)); [lia|done].
Qed.

Lemma elem_of_concat_fmap {A B} (f : A -> list B) (l : list A) i x b :
  l !! i = Some x -> b ∈ f x -> b ∈ concat (f <$> l).
Proof.
  intros Hi Hb. apply list_elem_of_In, in_concat. exists (f x). split; [|by apply list_elem_of_In].
  apply list_elem_of_In, list_elem_of_fmap. exists x. split; [done|]. by eapply list_elem_of_lookup_2.
Qed.

Section tree.
Context (bs : Z) (Hbs : 4 <= bs < 65536 /\ bs `mod` 4 = 0).
Implicit Types (V : gmap Z (list Z)) (zs : list Z).

(** ** Indirect blocks *)

Notation ni := (bs / 4).

Definition words (d : list Z) : list Z := word d <$> seqZ 0 ni.
Definition ind V (z : Z) : list Z := match V !! z with Some d => words d | None => [] end.

Lemma words_lookup d i : 0 <= i < ni -> words d !! Z.to_nat i = Some (word d i).
Proof. intros Hi. unfold words. rewrite list_lookup_fmap, lookup_seqZ_lt by lia. cbn. do 2 f_equal. lia. Qed.

Lemma words_length d : length (words d) = Z.to_nat ni.
Proof. unfold words. by rewrite length_fmap, length_seqZ. Qed.

Lemma words_put d i w : block_ok bs d -> 0 <= i < ni -> word_ok w -> words (put_word d i w) = <[Z.to_nat i := w]> (words d).
Proof.
  intros Hd Hi Hw. pose proof (block_words bs d Hd) as Hn. apply list_eq. intros j.
  destruct (decide (j < Z.to_nat ni)%nat) as [Hj|Hj].
  2:{ rewrite !lookup_ge_None_2; [done|rewrite length_insert, words_length; lia|rewrite words_length; lia]. }
  rewrite <- (Nat2Z.id j) at 1. rewrite words_lookup by lia. destruct (decide (j = Z.to_nat i)) as [->|Hne].
  - rewrite list_lookup_insert_eq by (rewrite words_length; lia). rewrite Z2Nat.id by lia. f_equal. apply word_put; [lia|done].
  - rewrite list_lookup_insert_ne by done. rewrite <- (Nat2Z.id j) at 2. rewrite words_lookup by lia.
    f_equal. apply word_put_ne; lia.
Qed.

Definition zeros : list Z := replicate (Z.to_nat bs) 0.

Lemma zeros_ok : block_ok bs zeros.
Proof using Hbs. split; [unfold zeros; rewrite length_replicate; lia|]. apply Forall_replicate. unfold byte_ok. lia. Qed.

Lemma word_zeros i : 0 <= i < ni -> word zeros i = 0.
Proof using Hbs.
  intros Hi. pose proof (bs_words bs Hbs). unfold word, zeros. rewrite drop_replicate, take_replicate.
  replace (4 `min` (Z.to_nat bs - Z.to_nat (4 * i)))%nat with 4%nat by lia. done.
Qed.

Lemma words_zeros : words zeros = replicate (Z.to_nat ni) 0.
Proof using Hbs.
  apply list_eq. intros j. destruct (decide (j < Z.to_nat ni)%nat) as [Hj|Hj].
  - rewrite <- (Nat2Z.id j) at 1. rewrite words_lookup, word_zeros by lia. by rewrite lookup_replicate_2.
  - rewrite !lookup_ge_None_2; [done|rewrite length_replicate; lia|rewrite words_length; lia].
Qed.

(** ** The zones of a file *)

Definition leaf (z : Z) : list Z := if z =? 0 then [] else [z].
Definition tree1 V (z : Z) : list Z := if z =? 0 then [] else z :: concat (leaf <$> ind V z).
Definition tree2 V (z : Z) : list Z := if z =? 0 then [] else z :: concat (tree1 V <$> ind V z).

Definition zone_n zs (i : Z) : Z := zs !!! Z.to_nat i.
Definition fp V zs : list Z := concat (leaf <$> take 7 zs) ++ tree1 V (zone_n zs 7) ++ tree2 V (zone_n zs 8).

(** The contents of blocks outside a tree do not matter. *)
Lemma tree1_frame V V' z : (forall b, b ∈ tree1 V z -> V' !! b = V !! b) -> tree1 V' z = tree1 V z.
Proof.
  unfold tree1, ind. destruct (Z.eqb_spec z 0) as [->|Hz]; [done|]. intros Hf. rewrite Hf by left. done.
Qed.

Lemma tree2_frame V V' z : (forall b, b ∈ tree2 V z -> V' !! b = V !! b) -> tree2 V' z = tree2 V z.
Proof.
  unfold tree2. destruct (Z.eqb_spec z 0) as [->|Hz]; [done|]. intros Hf.
  assert (ind V' z = ind V z) as -> by (unfold ind; by rewrite Hf by left).
  f_equal. f_equal. apply list_fmap_ext. intros i x Hx. apply tree1_frame. intros b Hb. apply Hf. right.
  by eapply elem_of_concat_fmap.
Qed.

Lemma fp_frame V V' zs : (forall b, b ∈ fp V zs -> V' !! b = V !! b) -> fp V' zs = fp V zs.
Proof.
  clear Hbs. unfold fp. intros Hf. f_equal. f_equal; [apply tree1_frame|apply tree2_frame]; intros b Hb; apply Hf; set_solver.
Qed.

(** ** Where the zone of a position is *)

(** The reference to a single indirect block: in the inode, or entry [i] of the double
    indirect block. *)
Inductive slot := SInd | SDbl (i : Z).
#[global] Instance slot_eq_dec : EqDecision slot.
Proof. solve_decision. Defined.
Inductive path := PDirect (k : Z) | PVia (sl : slot) (e : Z).
#[global] Instance path_eq_dec : EqDecision path.
Proof. solve_decision. Defined.

Definition path_of (n : Z) : path :=
  if n <? 7 then PDirect n
  else if n - 7 <? ni then PVia SInd (n - 7)
  else PVia (SDbl ((n - 7 - ni) / ni)) ((n - 7 - ni) `mod` ni).

Definition entry V (z e : Z) : Z := if z =? 0 then 0 else default 0 (ind V z !! Z.to_nat e).
Definition slot_zone V zs (sl : slot) : Z :=
  match sl with SInd => zone_n zs 7 | SDbl i => entry V (zone_n zs 8) i end.
(** The zone of position [n], counted in zones; 0 when there is none. *)
Definition zone_at V zs (n : Z) : Z :=
  match path_of n with
  | PDirect k => zone_n zs k
  | PVia sl e => entry V (slot_zone V zs sl) e
  end.

Definition max_zones : Z := 7 + ni + ni * ni.

Definition slot_ok (sl : slot) : Prop := match sl with SInd => True | SDbl i => 0 <= i < ni end.

Lemma path_of_ok n : 0 <= n < max_zones ->
  match path_of n with PDirect k => 0 <= k < 7 | PVia sl e => slot_ok sl /\ 0 <= e < ni end.
Proof using Hbs.
  unfold path_of, max_zones. intros Hn. pose proof (bs_words bs Hbs).
  destruct (Z.ltb_spec n 7); [lia|]. destruct (Z.ltb_spec (n - 7) ni); cbn [slot_ok]; [split; [done|lia]|].
  split; [|apply Z.mod_pos_bound; lia]. split; [apply Z.div_pos; lia|]. apply Z.div_lt_upper_bound; nia.
Qed.

Lemma path_of_inj n m : 0 <= n -> 0 <= m -> path_of n = path_of m -> n = m.
Proof using Hbs.
  unfold path_of. intros Hn Hm. pose proof (bs_words bs Hbs).
  destruct (Z.ltb_spec n 7), (Z.ltb_spec m 7); try done; [by intros [= ->]|destruct (_ <? _); done|destruct (_ <? _); done|].
  destruct (Z.ltb_spec (n - 7) ni), (Z.ltb_spec (m - 7) ni); try done; [intros [=]; lia|].
  intros [= E1 E2]. pose proof (Z.div_mod (n - 7 - ni) ni). pose proof (Z.div_mod (m - 7 - ni) ni). lia.
Qed.

(** ** Well-formed files *)

Context (G : super_block).

Definition ref_ok (z : Z) : Prop := z = 0 \/ data_zone G z.
Definition wf1 V (z : Z) : Prop := z = 0 \/ data_zone G z /\ is_Some (V !! z) /\ Forall ref_ok (ind V z).
Definition wf2 V (z : Z) : Prop := z = 0 \/ data_zone G z /\ is_Some (V !! z) /\ Forall (wf1 V) (ind V z).

Record file_ok V zs : Prop := {
  f_length : length zs = V2_NR_TZONES;
  f_direct : Forall ref_ok (take 7 zs);
  f_single : wf1 V (zone_n zs 7);
  f_double : wf2 V (zone_n zs 8);
  f_distinct : NoDup (fp V zs);
}.

Lemma leaf_frame_empty l : Forall (fun z => z = 0) l -> concat (leaf <$> l) = [].
Proof. induction 1 as [|z l -> _ IH]; [done|]. done. Qed.

Lemma tree1_empty_frame V l : Forall (fun z => z = 0) l -> concat (tree1 V <$> l) = [].
Proof. induction 1 as [|z l -> _ IH]; [done|]. done. Qed.

(** An indirect block without entries. *)
Lemma tree1_empty V z : z <> 0 -> Forall (fun w => w = 0) (ind V z) -> tree1 V z = [z].
Proof. intros Hz He. unfold tree1. rewrite (proj2 (Z.eqb_neq _ _) Hz). by rewrite leaf_frame_empty. Qed.
Lemma tree2_empty V z : z <> 0 -> Forall (fun w => w = 0) (ind V z) -> tree2 V z = [z].
Proof. intros Hz He. unfold tree2. rewrite (proj2 (Z.eqb_neq _ _) Hz). by rewrite tree1_empty_frame. Qed.

Lemma tree1_in V z : z <> 0 -> z ∈ tree1 V z.
Proof. intros Hz. unfold tree1. rewrite (proj2 (Z.eqb_neq _ _) Hz). left. Qed.
Lemma tree2_in V z : z <> 0 -> z ∈ tree2 V z.
Proof. intros Hz. unfold tree2. rewrite (proj2 (Z.eqb_neq _ _) Hz). left. Qed.

Lemma ind_lookup V z i d : V !! z = Some d -> 0 <= i < ni -> ind V z !! Z.to_nat i = Some (word d i).
Proof. intros Hd Hi. unfold ind. rewrite Hd. by apply words_lookup. Qed.

Lemma ind_insert_ne V z b d : b <> z -> ind (<[b := d]> V) z = ind V z.
Proof. intros Hne. unfold ind. by rewrite lookup_insert_ne. Qed.

Lemma entry_insert_ne V z e b d : b <> z -> entry (<[b := d]> V) z e = entry V z e.
Proof. intros Hne. unfold entry. by rewrite ind_insert_ne. Qed.

Context (Hfirst : 0 < s_firstdatazone G).

Lemma data_zone_ne z : data_zone G z -> z <> 0.
Proof using Hbs Hfirst. unfold data_zone. lia. Qed.

Lemma wf1_frame V V' z : (forall b, b ∈ tree1 V z -> V' !! b = V !! b) -> wf1 V z -> wf1 V' z.
Proof using Hbs Hfirst.
  intros Hf [->|(Hz & Hk & Hr)]; [by left|right]. pose proof (Hf z (tree1_in V z (data_zone_ne z Hz))) as E.
  unfold ind in *. by rewrite E.
Qed.

Lemma wf2_frame V V' z : (forall b, b ∈ tree2 V z -> V' !! b = V !! b) -> wf2 V z -> wf2 V' z.
Proof using Hbs Hfirst.
  intros Hf [->|(Hz & Hk & Hr)]; [by left|right]. pose proof (data_zone_ne z Hz) as Hne.
  pose proof (Hf z (tree2_in V z Hne)) as E.
  assert (ind V' z = ind V z) as Ei by (unfold ind; by rewrite E). rewrite Ei. split; [done|]. split; [by rewrite E|].
  apply Forall_lookup. intros i x Hx. eapply wf1_frame; [|by eapply (proj1 (Forall_lookup _ _) Hr)].
  intros b Hb. apply Hf. unfold tree2. rewrite (proj2 (Z.eqb_neq _ _) Hne). right. by eapply elem_of_concat_fmap.
Qed.

Lemma file_ok_frame V V' zs : (forall b, b ∈ fp V zs -> V' !! b = V !! b) -> file_ok V zs -> file_ok V' zs.
Proof using Hbs Hfirst.
  intros Hf [Hl Hd Hs1 Hs2 Hnd]. split; [done|done| | |by rewrite (fp_frame V V')].
  - eapply wf1_frame; [|done]. intros b Hb. apply Hf. unfold fp. set_solver.
  - eapply wf2_frame; [|done]. intros b Hb. apply Hf. unfold fp. set_solver.
Qed.

(** All zones of a file are data zones. *)
Lemma leaf_data l b : Forall ref_ok l -> b ∈ concat (leaf <$> l) -> data_zone G b.
Proof.
  induction 1 as [|z l Hz _ IH]; [by intros ?%elem_of_nil|]. cbn [fmap list_fmap concat].
  rewrite elem_of_app. intros [Hb|Hb]; [|by apply IH]. unfold leaf in Hb. destruct (Z.eqb_spec z 0); [by apply elem_of_nil in Hb|].
  apply list_elem_of_singleton in Hb as ->. by destruct Hz.
Qed.

Lemma tree1_data V z b : wf1 V z -> b ∈ tree1 V z -> data_zone G b.
Proof.
  unfold tree1. intros [->|(Hz & _ & Hr)]; [by intros ?%elem_of_nil|]. destruct (z =? 0); [by intros ?%elem_of_nil|].
  intros [->|Hb]%elem_of_cons; [done|]. by eapply leaf_data.
Qed.

Lemma trees_data V l b : Forall (wf1 V) l -> b ∈ concat (tree1 V <$> l) -> data_zone G b.
Proof.
  induction 1 as [|z l Hz _ IH]; [by intros ?%elem_of_nil|]. cbn [fmap list_fmap concat].
  rewrite elem_of_app. intros [Hb|Hb]; [by eapply tree1_data|by apply IH].
Qed.

Lemma tree2_data V z b : wf2 V z -> b ∈ tree2 V z -> data_zone G b.
Proof.
  unfold tree2. intros [->|(Hz & _ & Hr)]; [by intros ?%elem_of_nil|]. destruct (z =? 0); [by intros ?%elem_of_nil|].
  intros [->|Hb]%elem_of_cons; [done|]. by eapply trees_data.
Qed.

Lemma fp_data V zs b : file_ok V zs -> b ∈ fp V zs -> data_zone G b.
Proof.
  intros [Hl Hd Hs1 Hs2 Hnd]. unfold fp. rewrite !elem_of_app. intros [Hb|[Hb|Hb]];
    [by eapply leaf_data|by eapply tree1_data|by eapply tree2_data].
Qed.

(** ** The reference to a single indirect block *)

Definition slot_rest V zs (sl : slot) : list Z :=
  match sl with
  | SInd => concat (leaf <$> take 7 zs) ++ tree2 V (zone_n zs 8)
  | SDbl i => concat (leaf <$> take 7 zs) ++ tree1 V (zone_n zs 7) ++
      zone_n zs 8 :: concat (tree1 V <$> delete (Z.to_nat i) (ind V (zone_n zs 8)))
  end.
Definition set_slot_blocks V zs (sl : slot) (z : Z) : gmap Z (list Z) :=
  match sl with
  | SInd => V
  | SDbl i => match V !! zone_n zs 8 with Some d => <[zone_n zs 8 := put_word d i z]> V | None => V end
  end.
Definition set_slot_zones zs (sl : slot) (z : Z) : list Z :=
  match sl with SInd => <[7%nat := z]> zs | SDbl _ => zs end.

(** The double indirect block is there if it is needed. *)
Definition slot_there zs (sl : slot) : Prop :=
  match sl with SInd => True | SDbl i => 0 <= i < ni /\ zone_n zs 8 <> 0 end.

Lemma ind_length V z : is_Some (V !! z) -> length (ind V z) = Z.to_nat ni.
Proof. intros [d Hd]. unfold ind. by rewrite Hd, words_length. Qed.

Lemma slot_entry V zs i : wf2 V (zone_n zs 8) -> slot_there zs (SDbl i) ->
  exists d, V !! zone_n zs 8 = Some d /\ slot_zone V zs (SDbl i) = word d i /\
    ind V (zone_n zs 8) !! Z.to_nat i = Some (word d i) /\ wf1 V (word d i).
Proof.
  intros Hf [Hi Hne]. destruct Hf as [?|(Hz & [d Hd] & Hr)]; [done|]. exists d.
  pose proof (ind_lookup V _ i d Hd Hi) as El. split; [done|]. split; [|split; [done|by eapply (proj1 (Forall_lookup _ _) Hr)]].
  cbn [slot_zone]. unfold entry. rewrite (proj2 (Z.eqb_neq _ _) Hne), El. done.
Qed.

Lemma slot_wf V zs sl : file_ok V zs -> slot_there zs sl -> wf1 V (slot_zone V zs sl).
Proof.
  intros Hf Hsl. destruct sl as [|i]; [apply Hf|]. destruct (slot_entry V zs i (f_double _ _ Hf) Hsl) as (d & _ & -> & _ & Hw). done.
Qed.

Lemma fp_slot V zs sl : file_ok V zs -> slot_there zs sl ->
  fp V zs ≡ₚ tree1 V (slot_zone V zs sl) ++ slot_rest V zs sl.
Proof.
  intros Hf Hsl. unfold fp. destruct sl as [|i]; cbn [slot_zone slot_rest].
  - solve_Permutation.
  - destruct (slot_entry V zs i (f_double _ _ Hf) Hsl) as (d & Hd & Ez & El & _). cbn [slot_zone] in Ez. rewrite Ez.
    destruct Hsl as [_ Hne]. unfold tree2 at 1. rewrite (proj2 (Z.eqb_neq _ _) Hne).
    rewrite (concat_delete (tree1 V) _ _ _ El). solve_Permutation.
Qed.

(** ** Changing a single indirect block or the reference to it *)

Definition blocks_ok V : Prop := forall b d, V !! b = Some d -> block_ok bs d.

(** The zone of position [n] when the slot [sl] has the zone [z]. *)
Definition zone_at_slot V zs sl V' z n : Z :=
  match path_of n with
  | PVia sl' e => if decide (sl' = sl) then entry V' z e else zone_at V zs n
  | PDirect _ => zone_at V zs n
  end.

(** After a change the slot [sl] has the zone [z], and the other zones are the same. *)
Definition slot_set_spec V zs sl z V' zs' : Prop :=
  file_ok V' zs' /\ fp V' zs' ≡ₚ tree1 V' z ++ slot_rest V zs sl /\ slot_zone V' zs' sl = z /\
  zone_n zs' 8 = zone_n zs 8 /\ zone_n zs' 0 = zone_n zs 0 /\
  forall n, 0 <= n < max_zones -> zone_at V' zs' n = zone_at_slot V zs sl V' z n.

Lemma zone_n_insert zs i j z : (Z.to_nat i < length zs)%nat -> 0 <= i -> 0 <= j ->
  zone_n (<[Z.to_nat i := z]> zs) j = if decide (j = i) then z else zone_n zs j.
Proof.
  intros Hi Hi0 Hj. unfold zone_n. case_decide as E.
  - rewrite E. by apply list_lookup_total_insert_eq.
  - apply list_lookup_total_insert_ne. lia.
Qed.

Lemma entry_frame V V' z e : (z <> 0 -> V' !! z = V !! z) -> entry V' z e = entry V z e.
Proof. unfold entry, ind. destruct (Z.eqb_spec z 0); [done|]. intros Hf. by rewrite Hf. Qed.

Lemma entry_in V z i : entry V z i <> 0 -> entry V z i ∈ tree2 V z.
Proof.
  unfold entry, tree2. destruct (z =? 0); [done|]. destruct (ind V z !! Z.to_nat i) as [x|] eqn:Ex; [|done].
  change (default 0 (Some x)) with x. intros Hx. right. eapply elem_of_concat_fmap; [exact Ex|]. by apply tree1_in.
Qed.

(** The zone of a position depends only on the blocks of the file. *)
Lemma zone_at_frame V V' zs n : (forall b, b ∈ fp V zs -> V' !! b = V !! b) -> zone_at V' zs n = zone_at V zs n.
Proof using.
  clear Hbs Hfirst G. intros Hf. assert (forall b, b ∈ tree1 V (zone_n zs 7) -> V' !! b = V !! b) as H1 by (intros b Hb; apply Hf; unfold fp; set_solver).
  assert (forall b, b ∈ tree2 V (zone_n zs 8) -> V' !! b = V !! b) as H2 by (intros b Hb; apply Hf; unfold fp; set_solver).
  unfold zone_at. destruct (path_of n) as [k|[|i] e]; [done| |]; cbn [slot_zone].
  - apply entry_frame. intros Hne. by apply H1, tree1_in.
  - rewrite (entry_frame V V' (zone_n zs 8)) by (intros Hne; by apply H2, tree2_in).
    apply entry_frame. intros Hne. by apply H2, entry_in.
Qed.

Lemma set_slot_ind V V' zs zs' z : file_ok V zs -> zs' = <[7%nat := z]> zs ->
  (forall b, b ∈ slot_rest V zs SInd -> V' !! b = V !! b) -> wf1 V' z -> NoDup (tree1 V' z ++ slot_rest V zs SInd) ->
  slot_set_spec V zs SInd z V' zs'.
Proof using Hbs Hfirst.
  intros Hf -> Hag Hz Hnew. destruct Hf as [Hl Hd Hs1 Hs2 Hnd]. cbn [slot_rest] in Hag, Hnew.
  assert (forall j, 0 <= j -> zone_n (<[7%nat := z]> zs) j = if decide (j = 7) then z else zone_n zs j) as En.
  { intros j Hj. apply (zone_n_insert zs 7 j z); [rewrite Hl; unfold V2_NR_TZONES; lia|lia|done]. }
  assert (take 7 (<[7%nat := z]> zs) = take 7 zs) as Et by (by rewrite take_insert_ge by lia).
  assert (forall b, b ∈ tree2 V (zone_n zs 8) -> V' !! b = V !! b) as Hag2 by (intros b Hb; apply Hag, elem_of_app; by right).
  assert (tree2 V' (zone_n zs 8) = tree2 V (zone_n zs 8)) as Et2 by by apply tree2_frame.
  assert (fp V' (<[7%nat := z]> zs) ≡ₚ tree1 V' z ++ slot_rest V zs SInd) as Hfp.
  { unfold fp. rewrite Et, !En by lia. cbn [slot_rest]. rewrite decide_True, decide_False by lia. rewrite Et2. solve_Permutation. }
  split; [|split; [done|split; [|split; [|split]]]].
  - split; [by rewrite length_insert|by rewrite Et|by rewrite En, decide_True by lia| |by rewrite Hfp].
    rewrite En, decide_False by lia. by apply (wf2_frame V).
  - cbn [slot_zone]. by rewrite En, decide_True by lia.
  - by rewrite En, decide_False by lia.
  - by rewrite En, decide_False by lia.
  - intros n Hn. pose proof (path_of_ok n Hn) as Hp. unfold zone_at_slot, zone_at. destruct (path_of n) as [k|sl e].
    + by rewrite En, decide_False by lia.
    + destruct sl as [|i]; cbn [slot_zone].
      * by rewrite En, !decide_True by lia.
      * rewrite En, !decide_False by (done || lia). destruct Hp as [Hi He]. cbn [slot_ok] in Hi.
        assert (entry V' (zone_n zs 8) i = entry V (zone_n zs 8) i) as ->.
        { apply entry_frame. intros Hne. apply Hag2. by apply tree2_in. }
        apply entry_frame. intros Hne. by apply Hag2, entry_in.
Qed.

Lemma delete_lookup_other {A} (l : list A) (i j : nat) x : j <> i -> l !! j = Some x -> exists k, delete i l !! k = Some x.
Proof.
  intros Hne Hx. destruct (decide (j < i)%nat) as [Hj|Hj].
  - exists j. by rewrite list_lookup_delete_lt.
  - exists (j - 1)%nat. rewrite list_lookup_delete_ge by lia. by replace (S (j - 1)) with j by lia.
Qed.

Section dbl.
Context (V V' : gmap Z (list Z)) (zs : list Z) (i z : Z).
Context (Hf : file_ok V zs) (Hsl : slot_there zs (SDbl i)).
Notation z2 := (zone_n zs 8).
Context (Hk : is_Some (V' !! z2)) (Hind : ind V' z2 = <[Z.to_nat i := z]> (ind V z2)).
Context (Hag : forall b, b ∈ slot_rest V zs (SDbl i) -> b <> z2 -> V' !! b = V !! b).
Context (Hz : wf1 V' z) (Hnew : NoDup (tree1 V' z ++ slot_rest V zs (SDbl i))).

Lemma dbl_ne : z2 <> 0.
Proof using Type*. apply Hsl. Qed.

Lemma dbl_old : exists w, ind V z2 !! Z.to_nat i = Some w.
Proof using Type*.
  destruct (slot_entry V zs i (f_double _ _ Hf) Hsl) as (d & _ & _ & Hd & _). by eexists.
Qed.

Lemma dbl_others b :
  b ∈ concat (leaf <$> take 7 zs) ++ tree1 V (zone_n zs 7) ++ concat (tree1 V <$> delete (Z.to_nat i) (ind V z2)) ->
  b <> z2 /\ V' !! b = V !! b.
Proof using Type*.
  intros Hb. assert (b <> z2) as Hne.
  { intros ->. apply NoDup_app in Hnew as (_ & _ & Hnd). cbn [slot_rest] in Hnd.
    assert (concat (leaf <$> take 7 zs) ++ tree1 V (zone_n zs 7) ++ z2 :: concat (tree1 V <$> delete (Z.to_nat i) (ind V z2))
      ≡ₚ z2 :: (concat (leaf <$> take 7 zs) ++ tree1 V (zone_n zs 7) ++ concat (tree1 V <$> delete (Z.to_nat i) (ind V z2)))) as E
      by solve_Permutation.
    rewrite E in Hnd. by apply NoDup_cons in Hnd as [? _]. }
  split; [done|]. apply Hag; [|done]. cbn [slot_rest]. rewrite !elem_of_app in *. rewrite elem_of_cons. tauto.
Qed.

Lemma dbl_single_tree b : b ∈ tree1 V (zone_n zs 7) -> V' !! b = V !! b.
Proof using Type*. intros Hb. apply dbl_others. rewrite !elem_of_app. tauto. Qed.

Lemma dbl_other_tree j x b : j <> Z.to_nat i -> ind V z2 !! j = Some x -> b ∈ tree1 V x -> V' !! b = V !! b.
Proof using Type*.
  intros Hj Hx Hb. apply dbl_others. destruct (delete_lookup_other _ _ _ _ Hj Hx) as [k Hk'].
  rewrite !elem_of_app. right. right. by eapply elem_of_concat_fmap.
Qed.

Lemma dbl_fp : fp V' zs ≡ₚ tree1 V' z ++ slot_rest V zs (SDbl i).
Proof using Type*.
  destruct dbl_old as [w Hw]. unfold fp. rewrite (tree1_frame V V' (zone_n zs 7)) by apply dbl_single_tree.
  unfold tree2. rewrite (proj2 (Z.eqb_neq _ _) dbl_ne), Hind.
  rewrite (concat_update (tree1 V) (tree1 V') _ _ _ z Hw).
  - cbn [slot_rest]. solve_Permutation.
  - intros j x Hj Hx. apply tree1_frame. intros b. by eapply dbl_other_tree.
Qed.

Lemma dbl_file_ok : file_ok V' zs.
Proof using Type*.
  destruct dbl_old as [w Hw]. destruct Hf as [Hl Hdir Hs1 Hs2 Hnd].
  split; [done|done|eapply wf1_frame; [apply dbl_single_tree|done]| |by rewrite dbl_fp].
  destruct Hs2 as [?|(H1 & H2 & H3)]; [by destruct dbl_ne|]. right. split; [done|]. split; [done|].
  rewrite Hind. apply Forall_lookup. intros j x Hx. destruct (decide (j = Z.to_nat i)) as [->|Hj].
  - rewrite list_lookup_insert_eq in Hx by (by eapply lookup_lt_Some). injection Hx as <-. done.
  - rewrite list_lookup_insert_ne in Hx by done. eapply wf1_frame; [intros b; by eapply dbl_other_tree|].
    by eapply (proj1 (Forall_lookup _ _) H3).
Qed.

Lemma dbl_slot_zone j : 0 <= j < ni -> slot_zone V' zs (SDbl j) = if decide (j = i) then z else slot_zone V zs (SDbl j).
Proof using Type*.
  intros Hj. destruct dbl_old as [w Hw]. destruct Hsl as [Hi _]. cbn [slot_zone]. unfold entry.
  rewrite (proj2 (Z.eqb_neq _ _) dbl_ne), Hind. case_decide as E.
  - subst j. by rewrite list_lookup_insert_eq by (by eapply lookup_lt_Some).
  - by rewrite list_lookup_insert_ne by lia.
Qed.

Lemma set_slot_dbl : slot_set_spec V zs (SDbl i) z V' zs.
Proof using Type*.
  split; [apply dbl_file_ok|]. split; [apply dbl_fp|]. pose proof Hsl as [Hi _].
  split; [by rewrite dbl_slot_zone, decide_True|]. split; [done|]. split; [done|].
  intros n Hn. pose proof (path_of_ok n Hn) as Hp. unfold zone_at_slot, zone_at. destruct (path_of n) as [k|[|j] e]; [done| |].
  - cbn [slot_zone]. rewrite decide_False by done. apply entry_frame. intros Hx. apply dbl_single_tree. by apply tree1_in.
  - destruct Hp as [Hj He]. cbn [slot_ok] in Hj. rewrite dbl_slot_zone by done. destruct (decide (j = i)) as [->|Hji].
    + by rewrite decide_True by done.
    + rewrite decide_False by congruence. apply entry_frame. intros Hx.
      cbn [slot_zone] in *. unfold entry in *. rewrite (proj2 (Z.eqb_neq _ _) dbl_ne) in *.
      destruct (ind V z2 !! Z.to_nat j) as [x|] eqn:Ex; [|done]. change (default 0 (Some x)) with x in *.
      apply (dbl_other_tree (Z.to_nat j) x); [lia|done|by apply tree1_in].
Qed.
End dbl.

(** ** Changing a direct reference *)

Definition direct_rest V zs (k : Z) : list Z :=
  concat (leaf <$> delete (Z.to_nat k) (take 7 zs)) ++ tree1 V (zone_n zs 7) ++ tree2 V (zone_n zs 8).

Lemma direct_lookup V zs k : file_ok V zs -> 0 <= k < 7 -> take 7 zs !! Z.to_nat k = Some (zone_n zs k) /\ zs !! Z.to_nat k = Some (zone_n zs k).
Proof.
  intros Hf Hk. assert (zs !! Z.to_nat k = Some (zone_n zs k)) as E.
  { apply list_lookup_lookup_total_lt. rewrite (f_length _ _ Hf). unfold V2_NR_TZONES. lia. }
  split; [|done]. rewrite lookup_take_lt by lia. done.
Qed.

Lemma fp_direct V zs k : file_ok V zs -> 0 <= k < 7 -> fp V zs ≡ₚ leaf (zone_n zs k) ++ direct_rest V zs k.
Proof.
  intros Hf Hk. destruct (direct_lookup V zs k Hf Hk) as [E _]. unfold fp, direct_rest. rewrite (concat_delete leaf _ _ _ E). solve_Permutation.
Qed.

Lemma set_direct V zs k w : file_ok V zs -> 0 <= k < 7 -> ref_ok w -> NoDup (leaf w ++ direct_rest V zs k) ->
  let zs' := <[Z.to_nat k := w]> zs in
  file_ok V zs' /\ fp V zs' ≡ₚ leaf w ++ direct_rest V zs k /\
  forall n, 0 <= n -> zone_at V zs' n = if decide (n = k) then w else zone_at V zs n.
Proof.
  intros Hf Hk Hw Hnew zs'. destruct (direct_lookup V zs k Hf Hk) as [E _]. destruct Hf as [Hl Hd Hs1 Hs2 Hnd].
  assert (forall j, 0 <= j -> zone_n zs' j = if decide (j = k) then w else zone_n zs j) as En.
  { intros j Hj. apply zone_n_insert; [rewrite Hl; unfold V2_NR_TZONES; lia|lia|done]. }
  assert (take 7 zs' = <[Z.to_nat k := w]> (take 7 zs)) as Et by (unfold zs'; by rewrite take_insert_lt by lia).
  assert (fp V zs' ≡ₚ leaf w ++ direct_rest V zs k) as Hfp.
  { unfold fp. rewrite Et, !En, !decide_False by lia. rewrite (concat_update leaf leaf _ _ _ w E) by done.
    unfold direct_rest. solve_Permutation. }
  split; [|split; [done|]].
  - split; [unfold zs'; by rewrite length_insert|rewrite Et; by apply Forall_insert|by rewrite En, decide_False by lia|
      by rewrite En, decide_False by lia|by rewrite Hfp].
  - intros n Hn. unfold zone_at. destruct (path_of n) as [j|sl e] eqn:Ep.
    + assert (0 <= j /\ n = j) as [Hj ->].
      { unfold path_of in Ep. destruct (n <? 7); [by injection Ep as <-|destruct (_ <? _); done]. }
      by rewrite En.
    + assert (n <> k) as Hne.
      { intros ->. unfold path_of in Ep. replace (k <? 7) with true in Ep by lia. done. }
      rewrite decide_False by done. f_equal. destruct sl; cbn [slot_zone]; by rewrite En, decide_False by lia.
Qed.

(** ** Entries of a single indirect block *)

Definition entry_rest V (z e : Z) : list Z := z :: concat (leaf <$> delete (Z.to_nat e) (ind V z)).

Lemma tree1_entry V z e : z <> 0 -> is_Some (V !! z) -> 0 <= e < ni -> tree1 V z ≡ₚ leaf (entry V z e) ++ entry_rest V z e.
Proof.
  intros Hz [d Hd] He. unfold tree1, entry, entry_rest. rewrite (proj2 (Z.eqb_neq _ _) Hz).
  rewrite (ind_lookup V z e d Hd He). change (default 0 (Some (word d e))) with (word d e).
  rewrite (concat_delete leaf _ _ _ (ind_lookup V z e d Hd He)). solve_Permutation.
Qed.

Lemma tree1_set_entry V V' z e w : z <> 0 -> is_Some (V !! z) -> 0 <= e < ni ->
  ind V' z = <[Z.to_nat e := w]> (ind V z) -> tree1 V' z ≡ₚ leaf w ++ entry_rest V z e.
Proof.
  intros Hz [d Hd] He Hind. unfold tree1, entry_rest. rewrite (proj2 (Z.eqb_neq _ _) Hz), Hind.
  rewrite (concat_update leaf leaf _ _ _ w (ind_lookup V z e d Hd He)) by done. solve_Permutation.
Qed.

Lemma wf1_set_entry V V' z e w : wf1 V z -> is_Some (V' !! z) -> ref_ok w ->
  ind V' z = <[Z.to_nat e := w]> (ind V z) -> wf1 V' z.
Proof.
  intros [->|(Hz & Hk & Hr)] Hk' Hw Hind; [by left|right]. split; [done|]. split; [done|]. rewrite Hind. by apply Forall_insert.
Qed.

Lemma entry_set V V' z e w j : z <> 0 -> is_Some (V !! z) -> 0 <= e < ni -> 0 <= j ->
  ind V' z = <[Z.to_nat e := w]> (ind V z) -> entry V' z j = if decide (j = e) then w else entry V z j.
Proof.
  intros Hz Hk He Hj Hind. unfold entry. rewrite (proj2 (Z.eqb_neq _ _) Hz), Hind. case_decide as E.
  - subst j. by rewrite list_lookup_insert_eq by (rewrite ind_length by done; lia).
  - by rewrite list_lookup_insert_ne by lia.
Qed.

(** ** The double indirect block *)

Definition empty_block V (z : Z) : Prop := z = 0 \/ data_zone G z /\ is_Some (V !! z) /\ Forall (fun w => w = 0) (ind V z).
Definition dbl_rest V zs : list Z := concat (leaf <$> take 7 zs) ++ tree1 V (zone_n zs 7).

Lemma tree2_empty_leaf V z : empty_block V z -> tree2 V z = leaf z.
Proof using Hbs Hfirst.
  intros [->|(Hz & _ & He)]; [done|]. rewrite tree2_empty by (done || by apply data_zone_ne).
  unfold leaf. by rewrite (proj2 (Z.eqb_neq _ _) (data_zone_ne z Hz)).
Qed.

Lemma entry_empty V z i : empty_block V z -> entry V z i = 0.
Proof.
  unfold entry. intros [->|(_ & _ & He)]; [done|]. destruct (z =? 0); [done|].
  destruct (ind V z !! Z.to_nat i) as [x|] eqn:Ex; [|done]. by apply (proj1 (Forall_lookup _ _) He _ _ Ex).
Qed.

Lemma wf2_empty V z : empty_block V z -> wf2 V z.
Proof.
  intros [->|(Hz & Hk & He)]; [by left|right]. split; [done|]. split; [done|]. eapply Forall_impl; [done|]. intros x ->. by left.
Qed.

Lemma fp_dbl V zs : file_ok V zs -> empty_block V (zone_n zs 8) -> fp V zs ≡ₚ leaf (zone_n zs 8) ++ dbl_rest V zs.
Proof using Hbs Hfirst. intros Hf He. unfold fp, dbl_rest. rewrite tree2_empty_leaf by done. solve_Permutation. Qed.

(** A double indirect block without entries comes or goes. *)
Lemma set_dbl V V' zs z : file_ok V zs -> empty_block V (zone_n zs 8) -> empty_block V' z ->
  (forall b, b ∈ dbl_rest V zs -> V' !! b = V !! b) -> NoDup (leaf z ++ dbl_rest V zs) ->
  let zs' := <[8%nat := z]> zs in
  file_ok V' zs' /\ fp V' zs' ≡ₚ leaf z ++ dbl_rest V zs /\ zone_n zs' 8 = z /\ zone_n zs' 0 = zone_n zs 0 /\
  forall n, 0 <= n < max_zones -> zone_at V' zs' n = zone_at V zs n.
Proof using Hbs Hfirst.
  intros Hf He He' Hag Hnew zs'. destruct Hf as [Hl Hd Hs1 Hs2 Hnd].
  assert (forall j, 0 <= j -> zone_n zs' j = if decide (j = 8) then z else zone_n zs j) as En.
  { intros j Hj. apply (zone_n_insert zs 8 j z); [rewrite Hl; unfold V2_NR_TZONES; lia|lia|done]. }
  assert (take 7 zs' = take 7 zs) as Et by (unfold zs'; by rewrite take_insert_ge by lia).
  assert (forall b, b ∈ tree1 V (zone_n zs 7) -> V' !! b = V !! b) as Hag1 by (intros b Hb; apply Hag, elem_of_app; by right).
  assert (fp V' zs' ≡ₚ leaf z ++ dbl_rest V zs) as Hfp.
  { unfold fp. rewrite Et, !En by lia. rewrite decide_False, decide_True by lia.
    rewrite (tree2_empty_leaf V' z He'), (tree1_frame V V') by done. unfold dbl_rest. solve_Permutation. }
  split; [|split; [done|split; [|split]]].
  - split; [unfold zs'; by rewrite length_insert|by rewrite Et| | |by rewrite Hfp].
    + rewrite En, decide_False by lia. by apply (wf1_frame V).
    + rewrite En, decide_True by lia. by apply wf2_empty.
  - by rewrite En, decide_True by lia.
  - by rewrite En, decide_False by lia.
  - intros n Hn. pose proof (path_of_ok n Hn) as Hp. unfold zone_at. destruct (path_of n) as [k|[|i] e].
    + by rewrite En, decide_False by lia.
    + cbn [slot_zone]. rewrite En, decide_False by lia. apply entry_frame. intros Hne. apply Hag1. by apply tree1_in.
    + cbn [slot_zone]. rewrite En, decide_True by lia. by rewrite (entry_empty V' z), (entry_empty V (zone_n zs 8)) by done.
Qed.
(** The two cases of a reference to a single indirect block together. *)
Lemma set_slot V V' zs sl z : file_ok V zs -> slot_there zs sl ->
  (forall i, sl = SDbl i -> is_Some (V' !! zone_n zs 8) /\ ind V' (zone_n zs 8) = <[Z.to_nat i := z]> (ind V (zone_n zs 8))) ->
  (forall b, b ∈ slot_rest V zs sl -> (b = zone_n zs 8 -> sl = SInd) -> V' !! b = V !! b) ->
  wf1 V' z -> NoDup (tree1 V' z ++ slot_rest V zs sl) -> slot_set_spec V zs sl z V' (set_slot_zones zs sl z).
Proof using Hbs Hfirst.
  intros Hf Hsl Hd Hag Hz Hnew. destruct sl as [|i]; cbn [set_slot_zones].
  - apply set_slot_ind; [done..| |done|done]. intros b Hb. by apply Hag.
  - destruct (Hd i eq_refl) as [Hk Hind]. apply set_slot_dbl; [done..| |done|done]. intros b Hb Hne. apply Hag; [done|]. intros ?. done.
Qed.
End tree.
