(* ===== verification/MfsMap.v ===== *)
(** * The map from positions to zones

    The theory of [read_map] and [write_map]: on the tree of zones of [MfsTree] the first
    finds the zone of a position and the second changes one, and no zone is lost or used twice. *)

From S2P Require Import Prelude KTypes BufCache Mfs MfsFile MfsBits MfsZones MfsTree.
#[local] Open Scope Z_scope.

Section map.
Context {C : Type} `{BufCache C} (dev bs : Z) (own : Z -> Prop) `{!BufCacheLaws C dev bs own}.
Context (G : super_block) (HG : sb_ok dev bs own G).
Implicit Types (s : @mfs C) (V : gmap Z (list Z)) (L : list (nat * Z)) (T : gset Z) (rip : nat) (r : inode).
Notation ni := (bs / 4).
Notation zrep := (zrep dev bs own G).

Lemma bs_ok : 4 <= bs < 65536 /\ bs `mod` 4 = 0.
Proof using HG. apply HG. Qed.

Lemma first_pos : 0 < s_firstdatazone G.
Proof using HG. pose proof (zmap_geometry dev bs own G HG). unfold START_BLOCK in *. lia. Qed.

(** ** Rules for the blocks of data zones *)

Lemma bit_block n : 0 <= n < zmap_bits G -> in_zmap G (zmap_start G + n / FS_BITS_PER_BLOCK bs).
Proof using HG.
  intros Hn. pose proof (zone_block_in dev bs own G HG (n + (s_firstdatazone G - 1))) as Hz. unfold zone_bit in Hz.
  rewrite Z.add_simpl_r in Hz. by apply Hz.
Qed.

Lemma map_bit_frame V V' n : 0 <= n < zmap_bits G -> (forall b, in_zmap G b -> V' !! b = V !! b) ->
  map_bit bs V' (zmap_start G) n = map_bit bs V (zmap_start G) n.
Proof using HG. intros Hn Hf. unfold map_bit. by rewrite Hf by by apply bit_block. Qed.

Lemma zrep_step s s' V V' L L' T T' :
  zrep s V L T -> same_inodes s s' -> mrep dev bs own s' V' L' T' ->
  (forall b, in_zmap G b -> V' !! b = V !! b /\ (b ∈ T' -> b ∈ T)) -> zrep s' V' L' T'.
Proof using HG.
  intros [Hc Hsb [Hk HT] H0 Hfull] (Es & _ & _) [Hc' _] Hf. pose proof (zmap_geometry dev bs own G HG) as Hgeo.
  assert (forall b, in_zmap G b -> V' !! b = V !! b) as Hf1 by (intros b Hb; by apply Hf).
  split; [done|by rewrite Es| | |].
  - split.
    + intros b Hb. rewrite Hf1 by done. by apply Hk.
    + intros k Hkk Hin. apply (HT k Hkk). apply Hf; [|done]. unfold in_zmap, zmap_start. cbn [map_blocks] in Hkk. lia.
  - rewrite (map_bit_frame V) by (done || lia). done.
  - rewrite Es. intros m Hm Hmb. rewrite (map_bit_frame V) by (done || lia). by apply Hfull.
Qed.

Lemma data_ne_zmap b b' : data_zone G b -> in_zmap G b' -> b <> b'.
Proof using HG. intros Hb Hb' ->. by apply (data_not_zmap dev bs own G HG b'). Qed.

Lemma data_block b : data_zone G b -> own b.
Proof using HG. intros Hb. apply (sb_own _ _ _ _ HG). right. exact Hb. Qed.

Lemma zrep_mrep' s V L T : zrep s V L T -> mrep dev bs own s V L T.
Proof using HG. by apply zrep_mrep. Qed.

Lemma zwp_get s V L T b mode (Q : nat -> mfs -> Prop) :
  zrep s V L T -> data_zone G b -> (length L < MINBUFS)%nat -> mode <> PREFETCH ->
  (forall bp s' d, same_inodes s s' -> block_ok bs d -> (mode = NORMAL -> forall d0, V !! b = Some d0 -> d = d0) ->
     zrep s' (<[b := d]> V) ((bp, b) :: L) (after_get V T mode b) -> Q bp s') ->
  wp (get_block dev b mode) Q s.
Proof using HG.
  intros Hs Hb HL Hm HQ. eapply wp_get_block; [by apply zrep_mrep'|by apply data_block|done|done|].
  intros bp s' d H1 H2 H3 H4. eapply HQ; [done|exact H2|done|]. eapply zrep_step; [done|done|done|].
  intros b' Hb'. pose proof (data_ne_zmap b b' Hb Hb'). split; [by apply lookup_insert_ne|].
  unfold after_get. destruct (decide _); set_solver.
Qed.

Lemma zwp_get_known s V L T b d (Q : nat -> mfs -> Prop) :
  zrep s V L T -> data_zone G b -> (length L < MINBUFS)%nat -> V !! b = Some d ->
  (forall bp s', same_inodes s s' -> zrep s' V ((bp, b) :: L) T -> Q bp s') -> wp (get_block dev b NORMAL) Q s.
Proof using HG.
  intros Hs Hb HL HV HQ. eapply zwp_get; [done..|]. intros bp s' d' Hsame Hok Heq Hs'.
  rewrite (Heq eq_refl d HV), insert_id in Hs' by done.
  unfold after_get in Hs'. rewrite decide_True in Hs' by (by split). by apply HQ.
Qed.

Lemma zwp_put s V L T bp b ty (Q : unit -> mfs -> Prop) :
  zrep s V ((bp, b) :: L) T -> b ∉ T -> (forall s', same_inodes s s' -> zrep s' V L T -> Q tt s') -> wp (put_block bp ty) Q s.
Proof using HG.
  intros Hs Hb HQ. eapply wp_put_block; [by apply zrep_mrep'|done|]. intros s' H1 H2. apply HQ; [done|].
  by eapply zrep_step.
Qed.

Lemma zwp_put_lost s V L T bp b ty (Q : unit -> mfs -> Prop) :
  zrep s V ((bp, b) :: L) T -> data_zone G b -> b ∈ T -> b ∉ L.*2 ->
  (forall s', same_inodes s s' -> zrep s' (delete b V) L (T ∖ {[b]}) -> Q tt s') -> wp (put_block bp ty) Q s.
Proof using HG.
  intros Hs Hd Hb Hn HQ. eapply wp_put_lost; [by apply zrep_mrep'|done|done|]. intros s' H1 H2. apply HQ; [done|].
  eapply zrep_step; [done..|]. intros b' Hb'. pose proof (data_ne_zmap b b' Hd Hb'). split; [by apply lookup_delete_ne|set_solver].
Qed.

Lemma zwp_set_data s V L T bp b d (Q : unit -> mfs -> Prop) :
  zrep s V L T -> (bp, b) ∈ L -> data_zone G b -> block_ok bs d ->
  (forall s', same_inodes s s' -> zrep s' (<[b := d]> V) L ({[b]} ∪ T) -> Q tt s') -> wp (cached (set_buf_data bp d)) Q s.
Proof using HG.
  intros Hs Hin Hd Hok HQ. eapply wp_set_data; [by apply zrep_mrep'|done|done|]. intros s' H1 H2. apply HQ; [done|].
  eapply zrep_step; [done..|]. intros b' Hb'. pose proof (data_ne_zmap b b' Hd Hb'). split; [by apply lookup_insert_ne|set_solver].
Qed.

Lemma zwp_mark_dirty s V L T bp b (Q : unit -> mfs -> Prop) :
  zrep s V L T -> (bp, b) ∈ L -> (forall s', same_inodes s s' -> zrep s' V L (T ∖ {[b]}) -> Q tt s') -> wp (MARKDIRTY bp) Q s.
Proof using HG.
  intros Hs Hin HQ. eapply wp_mark_dirty; [by apply zrep_mrep'|done|]. intros s' H1 H2. apply HQ; [done|].
  eapply zrep_step; [done..|]. set_solver.
Qed.

Lemma zwp_mark_clean s V L T bp b (Q : unit -> mfs -> Prop) :
  zrep s V L T -> (bp, b) ∈ L -> data_zone G b ->
  (forall s', same_inodes s s' -> zrep s' V L ({[b]} ∪ T) -> Q tt s') -> wp (MARKCLEAN bp) Q s.
Proof using HG.
  intros Hs Hin Hd HQ. eapply wp_mark_clean; [by apply zrep_mrep'|done|]. intros s' H1 H2. apply HQ; [done|].
  eapply zrep_step; [done..|]. intros b' Hb'. pose proof (data_ne_zmap b b' Hd Hb'). split; [done|set_solver].
Qed.

Lemma zrep_blocks s V L T : zrep s V L T -> blocks_ok bs V.
Proof using HG. intros Hs b d Hd. eapply mrep_block; [by apply zrep_mrep'|done]. Qed.

Lemma zwp_zero s V L T bp b (Q : unit -> mfs -> Prop) :
  zrep s V L T -> (bp, b) ∈ L -> data_zone G b -> is_Some (V !! b) ->
  (forall s', same_inodes s s' -> zrep s' (<[b := zeros bs]> V) L (T ∖ {[b]}) -> Q tt s') -> wp (zero_block bp) Q s.
Proof using HG.
  intros Hs Hin Hb [d Hd] HQ. unfold zero_block. apply wp_bind. eapply wp_data; [by apply zrep_mrep'|done|done|].
  pose proof (zrep_blocks s V L T Hs b d Hd) as [Hl _].
  apply wp_bind, wp_assert; [pose proof bs_ok; lia|].
  assert (replicate (length d) 0 = zeros bs) as -> by (unfold zeros; f_equal; lia).
  apply wp_bind. eapply zwp_set_data; [done..|apply zeros_ok, bs_ok|]. intros s1 H1 Hr1.
  eapply zwp_mark_dirty; [done..|]. intros s2 H2 Hr2. apply HQ; [by eapply same_inodes_trans|].
  by replace ((({[b]} ∪ T) ∖ {[b]}) : gset Z) with ((T ∖ {[b]}) : gset Z) in Hr2 by set_solver.
Qed.

(** ** Rules for the entries of indirect blocks *)

Lemma zone_word z : ref_ok G z -> word_ok z.
Proof using HG. pose proof (zmap_geometry dev bs own G HG). pose proof first_pos. unfold ref_ok, data_zone, word_ok. lia. Qed.

Lemma zwp_super s V L T (Q : super_block -> mfs -> Prop) :
  zrep s V L T -> (forall z, 0 <= z -> superblock s = set_s_zsearch z G -> Q (set_s_zsearch z G) s) -> wp (get_super dev) Q s.
Proof using HG.
  intros Hs HQ. eapply wp_get_super; [by apply zrep_mrep'|]. destruct (z_super _ _ _ _ _ _ _ _ Hs) as (z & Hz & E).
  rewrite E. by apply HQ.
Qed.

Lemma zwp_rd_indir s V L T bp b d i (Q : Z -> mfs -> Prop) :
  zrep s V L T -> (bp, b) ∈ L -> V !! b = Some d -> 0 <= i < ni -> ref_ok G (word d i) ->
  Q (word d i) s -> wp (rd_indir (Some bp) i) Q s.
Proof using HG.
  intros Hs Hin Hd Hi Href HQ. unfold rd_indir. apply wp_bind. eapply wp_buf_dev; [by apply zrep_mrep'|done|].
  apply wp_bind. eapply zwp_super; [done|]. intros z Hz Esb. cbn [s_version s_native s_firstdatazone s_zones set_s_zsearch].
  apply wp_bind, wp_assert; [apply Z.eqb_eq, HG|].
  apply wp_bind. eapply wp_rd_word; [by apply zrep_mrep'|done..|].
  rewrite conv4_native, u32_i32 by (apply zone_word, Href || apply HG).
  destruct Href as [E|[H1 H2]]; [rewrite E in HQ |- *; exact HQ|].
  replace (negb (word d i =? NO_ZONE) && ((word d i <? s_firstdatazone G) || (s_zones G <=? word d i))) with false; [done|].
  symmetry. apply andb_false_iff. right. lia.
Qed.

Lemma zwp_wr_indir s V L T bp b d i z (Q : unit -> mfs -> Prop) :
  zrep s V L T -> (bp, b) ∈ L -> data_zone G b -> V !! b = Some d -> 0 <= i < ni -> ref_ok G z ->
  (forall s', same_inodes s s' -> zrep s' (<[b := put_word d i z]> V) L ({[b]} ∪ T) -> Q tt s') -> wp (wr_indir (Some bp) i z) Q s.
Proof using HG.
  intros Hs Hin Hb Hd Hi Href HQ. unfold wr_indir. apply wp_bind. eapply wp_buf_dev; [by apply zrep_mrep'|done|].
  apply wp_bind. eapply zwp_super; [done|]. intros q Hq Esb. cbn [s_version s_native set_s_zsearch].
  apply wp_bind, wp_assert; [apply Z.eqb_eq, HG|].
  rewrite conv4_native, u32_i32 by (apply zone_word, Href || apply HG).
  eapply wp_wr_word; [by apply zrep_mrep'|done..|]. intros s' H1 H2. apply HQ; [done|].
  eapply zrep_step; [done..|]. intros b' Hb'. pose proof (data_ne_zmap b b' Hb Hb'). split; [by apply lookup_insert_ne|set_solver].
Qed.

Lemma zwp_empty_words n s V L T bp b d i (Q : bool -> mfs -> Prop) :
  zrep s V L T -> (bp, b) ∈ L -> V !! b = Some d -> 0 <= i -> i + Z.of_nat n = ni ->
  (forall e, (e = true <-> forall j, i <= j < ni -> word d j = 0) -> Q e s) -> wp (empty_words n bp i) Q s.
Proof using HG.
  intros Hs Hin Hd. revert i. induction n as [|n IH]; intros i Hi Hn HQ; cbn [empty_words].
  { apply wp_ret, HQ. split; [|done]. intros _ j Hj. lia. }
  apply wp_bind. eapply wp_rd_word; [by apply zrep_mrep'|done|done|lia|]. unfold NO_ZONE.
  destruct (Z.eqb_spec (word d i) 0) as [E|E]; cbn [negb].
  - apply IH; [lia|lia|]. intros e He. apply HQ. rewrite He. split.
    + intros Hall j Hj. destruct (decide (j = i)) as [->|]; [done|]. apply Hall. lia.
    + intros Hall j Hj. apply Hall. lia.
  - apply wp_ret, HQ. split; [done|]. intros Hall. destruct E. apply Hall. lia.
Qed.

Lemma zwp_empty s V L T bp b d sb (Q : bool -> mfs -> Prop) :
  zrep s V L T -> (bp, b) ∈ L -> V !! b = Some d -> s_block_size sb = bs ->
  (forall e, (e = true <-> Forall (fun w => w = 0) (ind bs V b)) -> Q e s) -> wp (empty_indir (Some bp) sb) Q s.
Proof using HG.
  intros Hs Hin Hd Esz HQ. unfold empty_indir. apply wp_bind. apply (wp_deref _ bp); [done|].
  pose proof (bs_words bs bs_ok) as Hw. unfold V2_INDIRECTS. rewrite Esz.
  eapply zwp_empty_words; [done..|lia|]. intros e He. apply HQ. rewrite He. unfold ind. rewrite Hd. rewrite Forall_lookup. split.
  - intros Hall j x Hx. pose proof (lookup_lt_Some _ _ _ Hx) as Hlt. rewrite words_length in Hlt.
    rewrite <- (Nat2Z.id j), words_lookup in Hx by lia. injection Hx as <-. apply Hall. lia.
  - intros Hall j Hj. apply (Hall (Z.to_nat j)). apply words_lookup. lia.
Qed.

(** ** Which zones belong to whom *)

(** The zones in use are those of the file [zs] and those of others, [R]; none has two uses. *)
Record owned V (zs : list Z) (R : list Z) : Prop := {
  o_file : file_ok bs G V zs;
  o_nodup : NoDup (fp bs V zs ++ R);
  o_rest : Forall (data_zone G) R;
  o_exact : forall z, data_zone G z -> zone_used bs G V z = true <-> z ∈ fp bs V zs ++ R;
}.

Lemma zone_used_frame V V' z : data_zone G z -> (forall b, in_zmap G b -> V' !! b = V !! b) ->
  zone_used bs G V' z = zone_used bs G V z.
Proof using HG.
  intros Hz Hf. unfold zone_used. apply map_bit_frame; [|done].
  pose proof (zone_bit_range dev bs own G HG z Hz). lia.
Qed.

(** The same zones, perhaps used by another. *)
Lemma owned_move V V' zs zs' R R' :
  owned V zs R -> file_ok bs G V' zs' -> Forall (data_zone G) R' -> fp bs V' zs' ++ R' ≡ₚ fp bs V zs ++ R ->
  (forall b, in_zmap G b -> V' !! b = V !! b) -> owned V' zs' R'.
Proof using HG.
  intros [Hf Hnd HR Hex] Hf' HR' Hp Hz. split; [done|by rewrite Hp|done|].
  intros z Hdz. rewrite (zone_used_frame V V' z Hdz Hz), Hp. by apply Hex.
Qed.

Lemma owned_perm V zs R R' : owned V zs R -> R ≡ₚ R' -> owned V zs R'.
Proof using HG. intros Ho Hp. eapply owned_move; [done|apply Ho|rewrite <- Hp; apply Ho|by rewrite Hp|done]. Qed.

(** Other blocks than those of the file and of the zone map do not matter. *)
Lemma owned_frame V V' zs R : owned V zs R -> (forall b, in_zmap G b \/ b ∈ fp bs V zs -> V' !! b = V !! b) -> owned V' zs R.
Proof using HG.
  intros Ho Hf. eapply owned_move; [done| |apply Ho| |intros b Hb; apply Hf; by left].
  - eapply (file_ok_frame bs bs_ok G first_pos V); [intros b Hb; apply Hf; by right|apply Ho].
  - rewrite (fp_frame bs V V'); [done|]. intros b Hb. apply Hf. by right.
Qed.

Lemma fp_not_zmap V zs b : file_ok bs G V zs -> b ∈ fp bs V zs -> ~ in_zmap G b.
Proof using HG. intros Hf Hb Hz. apply (data_ne_zmap b b); [by apply (fp_data bs G V zs)|done|done]. Qed.

Lemma mark_file s V L T zs z v : zrep s V L T -> data_zone G z -> file_ok bs G V zs ->
  file_ok bs G (mark_zone bs G V z v) zs /\ fp bs (mark_zone bs G V z v) zs = fp bs V zs.
Proof using HG.
  intros Hs Hz Hf. pose proof (zone_bit_range dev bs own G HG z Hz) as Hzb.
  assert (forall b, b ∈ fp bs V zs -> mark_zone bs G V z v !! b = V !! b) as Hfr.
  { intros b Hb. apply (mark_zone_frame dev bs own G HG); [lia|]. by eapply fp_not_zmap. }
  split; [by apply (file_ok_frame bs bs_ok G first_pos V)|by apply fp_frame].
Qed.

(** A zone is put into use by someone, and taken out of use. *)
Lemma owned_alloc s V L T zs R z : zrep s V L T -> data_zone G z -> zone_used bs G V z = false -> owned V zs R ->
  z ∉ fp bs V zs ++ R /\ owned (mark_zone bs G V z true) zs (z :: R).
Proof using HG.
  intros Hs Hz Hfree [Hf Hnd HR Hex]. destruct (mark_file s V L T zs z true Hs Hz Hf) as [Hf' Hfp].
  assert (z ∉ fp bs V zs ++ R) as Hnew by (intros Hin; apply Hex in Hin; [congruence|done]).
  assert (fp bs V zs ++ z :: R ≡ₚ z :: (fp bs V zs ++ R)) as Hp by solve_Permutation.
  split; [done|]. split; [done| |by constructor|].
  - rewrite Hfp, Hp. by constructor.
  - intros x Hx. rewrite (mark_zone_used dev bs own G HG s V L T), Hfp, Hp, elem_of_cons by done.
    case_decide as E; [by split; [left|]|]. rewrite Hex by done. tauto.
Qed.

Lemma owned_free s V L T zs R z : zrep s V L T -> owned V zs (z :: R) -> owned (mark_zone bs G V z false) zs R.
Proof using HG.
  intros Hs [Hf Hnd HR Hex]. apply Forall_cons in HR as [Hz HR]. destruct (mark_file s V L T zs z false Hs Hz Hf) as [Hf' Hfp].
  assert (fp bs V zs ++ z :: R ≡ₚ z :: (fp bs V zs ++ R)) as Hp by solve_Permutation.
  rewrite Hp in Hnd. apply NoDup_cons in Hnd as [Hz1 Hnd]. split; [done|by rewrite Hfp|done|].
  intros x Hx. rewrite (mark_zone_used dev bs own G HG s V L T), Hfp by done. case_decide as E; [subst; split; [done|intros; by destruct Hz1]|].
  rewrite Hex, Hp, elem_of_cons by done. tauto.
Qed.

(** The block of a zone has the same number. *)
Lemma zone_block z : ref_ok G z -> u32 (Z.shiftl z (s_log_zone_size G)) = z.
Proof using HG. intros Hz. rewrite (sb_scale _ _ _ _ HG), Z.shiftl_0_r. by apply u32_small, zone_word. Qed.

Lemma data_ref z : data_zone G z -> ref_ok G z.
Proof. by right. Qed.

Lemma max_zones_bound : 7 <= max_zones bs < 2 ^ 31 /\ 1 <= ni < 16384.
Proof using HG. pose proof (bs_words bs bs_ok). unfold max_zones. nia. Qed.

Lemma entry_known V z e d : V !! z = Some d -> 0 <= e < ni -> z <> 0 -> entry bs V z e = word d e.
Proof. intros Hd He Hz. unfold entry. rewrite (proj2 (Z.eqb_neq _ _) Hz), (ind_lookup bs V z e d) by done. done. Qed.

Lemma wf1_word V z d e : wf1 bs G V z -> z <> 0 -> V !! z = Some d -> 0 <= e < ni -> data_zone G z /\ ref_ok G (word d e).
Proof using HG.
  intros [?|(Hz & _ & Hf)] Hne Hd He; [done|]. split; [done|].
  eapply (proj1 (Forall_lookup _ _) Hf). by apply (ind_lookup bs V z e d).
Qed.

Lemma wf2_word V z d i : wf2 bs G V z -> z <> 0 -> V !! z = Some d -> 0 <= i < ni -> data_zone G z /\ wf1 bs G V (word d i).
Proof using HG.
  intros [?|(Hz & _ & Hf)] Hne Hd He; [done|]. split; [done|].
  eapply (proj1 (Forall_lookup _ _) Hf). by apply (ind_lookup bs V z i d).
Qed.

Lemma wf1_ref V z : wf1 bs G V z -> ref_ok G z.
Proof. intros [?|(Hz & _)]; [by left|by right]. Qed.

Lemma sdiv_ok a b : 0 <= a -> 0 < b -> sdiv a b = Ok (a / b).
Proof using. intros Ha Hb. unfold sdiv. replace (b =? 0) with false by lia. by rewrite Z.quot_div_nonneg. Qed.

Lemma i32_id z : 0 <= z < 2 ^ 31 -> i32 z = z.
Proof using. intros Hz. apply i32_small. unfold INT_MIN, INT_MAX. lia. Qed.

(** What the indices of [read_map] and [write_map] come to. *)
Lemma path_excess n : 7 <= n < max_zones bs ->
  (n - 7 < ni /\ path_of bs n = PVia SInd (n - 7)) \/
  (ni <= n - 7 /\ path_of bs n = PVia (SDbl ((n - 7 - ni) / ni)) ((n - 7 - ni) `mod` ni) /\
   0 <= (n - 7 - ni) / ni < ni /\ 0 <= (n - 7 - ni) `mod` ni < ni).
Proof using HG.
  intros Hn. pose proof (path_of_ok bs bs_ok n ltac:(lia)) as Hp. unfold path_of in *.
  destruct (Z.ltb_spec n 7); [lia|]. destruct (Z.ltb_spec (n - 7) ni); [left; by split|right]. split; [done|]. split; [done|]. exact Hp.
Qed.

Lemma zone_at_ref V zs n : file_ok bs G V zs -> 0 <= n < max_zones bs -> ref_ok G (zone_at bs V zs n).
Proof using HG.
  intros Hf Hn. pose proof (path_of_ok bs bs_ok n Hn) as Hp. unfold zone_at. destruct (path_of bs n) as [k|sl e].
  - destruct (direct_lookup bs G V zs k Hf Hp) as [E _]. by apply (proj1 (Forall_lookup _ _) (f_direct _ _ _ _ Hf) _ _ E).
  - destruct Hp as [Hsl He]. destruct (decide (slot_zone bs V zs sl = 0)) as [E0|Hne]; [unfold entry; rewrite E0; by left|].
    assert (slot_there bs zs sl) as Hth.
    { destruct sl as [|i]; [done|]. split; [done|]. intros E8. destruct Hne. cbn [slot_zone]. unfold entry. by rewrite E8. }
    pose proof (slot_wf bs G V zs sl Hf Hth) as Hw. pose proof Hw as [?|(Hz & [d Hd] & _)]; [done|].
    rewrite (entry_known V _ e d) by done. eapply wf1_word; [exact Hw|done..].
Qed.

(** ** Changes of the tree, and whose zones they take or give *)

(** The file has the same zone for every position. *)
Definition same_at V zs V' zs' : Prop :=
  zone_n zs' 0 = zone_n zs 0 /\ forall n, 0 <= n < max_zones bs -> zone_at bs V' zs' n = zone_at bs V zs n.

Lemma same_at_trans V1 zs1 V2 zs2 V3 zs3 : same_at V1 zs1 V2 zs2 -> same_at V2 zs2 V3 zs3 -> same_at V1 zs1 V3 zs3.
Proof using. intros [H1 H2] [H3 H4]. split; [congruence|]. intros n Hn. by rewrite H4, H2. Qed.

Lemma slot_sep V zs sl R b : owned V zs R -> slot_there bs zs sl ->
  b ∈ tree1 bs V (slot_zone bs V zs sl) ++ R -> b ∉ slot_rest bs V zs sl.
Proof using HG.
  intros Ho Hth Hb Hr. pose proof (o_nodup _ _ _ Ho) as Hnd. rewrite (fp_slot bs G V zs sl (o_file _ _ _ Ho) Hth) in Hnd.
  rewrite (Permutation_app_comm _ (slot_rest _ _ _ _)), <- app_assoc in Hnd. apply NoDup_app in Hnd as (_ & Hnd & _). by apply (Hnd b).
Qed.

Lemma dbl_in_rest V zs i : zone_n zs 8 ∈ slot_rest bs V zs (SDbl i).
Proof using. cbn [slot_rest]. rewrite !elem_of_app, elem_of_cons. tauto. Qed.

Lemma dbl_in_rest_ne V zs sl : zone_n zs 8 <> 0 -> zone_n zs 8 ∈ slot_rest bs V zs sl.
Proof using. intros Hne. destruct sl as [|i]; [|apply dbl_in_rest]. cbn [slot_rest]. apply elem_of_app. right. by apply tree2_in. Qed.

Lemma rest_not_zmap V zs sl b : file_ok bs G V zs -> slot_there bs zs sl -> b ∈ slot_rest bs V zs sl -> ~ in_zmap G b.
Proof using HG.
  intros Hf Hth Hb. apply (fp_not_zmap V zs b Hf). rewrite (fp_slot bs G V zs sl Hf Hth). apply elem_of_app. by right.
Qed.

Lemma owned_slot V V' zs sl z R R' : owned V zs R -> slot_there bs zs sl ->
  (forall i, sl = SDbl i -> is_Some (V' !! zone_n zs 8) /\ ind bs V' (zone_n zs 8) = <[Z.to_nat i := z]> (ind bs V (zone_n zs 8))) ->
  (forall b, b ∈ slot_rest bs V zs sl -> (b = zone_n zs 8 -> sl = SInd) -> V' !! b = V !! b) ->
  wf1 bs G V' z -> Forall (data_zone G) R' -> tree1 bs V' z ++ R' ≡ₚ tree1 bs V (slot_zone bs V zs sl) ++ R ->
  (forall b, in_zmap G b -> V' !! b = V !! b) ->
  owned V' (set_slot_zones zs sl z) R' /\ slot_set_spec bs G V zs sl z V' (set_slot_zones zs sl z).
Proof using HG.
  intros Ho Hth Hd Hag Hw HR' Hp Hz. pose proof (o_file _ _ _ Ho) as Hf. pose proof (fp_slot bs G V zs sl Hf Hth) as Hfp.
  assert (tree1 bs V' z ++ slot_rest bs V zs sl ++ R' ≡ₚ fp bs V zs ++ R) as Hall.
  { rewrite Hfp. rewrite (Permutation_app_comm (slot_rest _ _ _ _) R'), app_assoc, Hp. solve_Permutation. }
  assert (NoDup (tree1 bs V' z ++ slot_rest bs V zs sl)) as Hnd.
  { pose proof (o_nodup _ _ _ Ho) as Hn. rewrite <- Hall, app_assoc in Hn. by apply NoDup_app in Hn as [? _]. }
  pose proof (set_slot bs bs_ok G first_pos V V' zs sl z Hf Hth Hd Hag Hw Hnd) as Hset. split; [|done].
  destruct Hset as (Hf' & Hfp' & _). eapply owned_move; [exact Ho|done|done| |done]. rewrite Hfp', <- app_assoc. exact Hall.
Qed.

(** An entry of a single indirect block changes. *)
Lemma owned_entry V zs sl R R' e w d : owned V zs R -> slot_there bs zs sl -> blocks_ok bs V ->
  slot_zone bs V zs sl <> 0 -> V !! slot_zone bs V zs sl = Some d -> 0 <= e < ni -> ref_ok G w -> Forall (data_zone G) R' ->
  leaf w ++ R' ≡ₚ leaf (word d e) ++ R ->
  let V' := <[slot_zone bs V zs sl := put_word d e w]> V in
  owned V' zs R' /\ slot_zone bs V' zs sl = slot_zone bs V zs sl /\
  forall n, 0 <= n < max_zones bs -> zone_at bs V' zs n = if decide (path_of bs n = PVia sl e) then w else zone_at bs V zs n.
Proof using HG.
  intros Ho Hth Hb Hne Hd He Hw HR' Hp V'. set (z1 := slot_zone bs V zs sl) in *. pose proof (o_file _ _ _ Ho) as Hf.
  pose proof (slot_wf bs G V zs sl Hf Hth) as Hwf. fold z1 in Hwf.
  assert (V' !! z1 = Some (put_word d e w)) as Hd' by apply lookup_insert_eq.
  assert (ind bs V' z1 = <[Z.to_nat e := w]> (ind bs V z1)) as Hind.
  { unfold ind. rewrite Hd', Hd. apply words_put; [by eapply Hb|done|by apply zone_word]. }
  assert (z1 ∉ slot_rest bs V zs sl) as Hnr by (apply (slot_sep V zs sl R); [done|done|]; apply elem_of_app; left; by apply tree1_in).
  assert (set_slot_zones zs sl z1 = zs) as Ezs.
  { destruct sl as [|i]; [|done]. cbn [set_slot_zones]. apply list_insert_id. unfold z1. cbn [slot_zone]. unfold zone_n.
    apply list_lookup_lookup_total_lt. rewrite (f_length _ _ _ _ Hf). unfold V2_NR_TZONES. lia. }
  destruct (owned_slot V V' zs sl z1 R R') as [Ho' Hset]; [done|done| | | |done| | |].
  - intros i ->. pose proof (dbl_in_rest V zs i) as Hin. assert (z1 <> zone_n zs 8) as Hne8 by (intros E; rewrite <- E in Hin; done).
    destruct (slot_entry bs G V zs i (f_double _ _ _ _ Hf) Hth) as (d8 & Hd8 & Ez & El & _).
    unfold V'. rewrite lookup_insert_ne, ind_insert_ne by done. split; [by eexists|].
    symmetry. apply list_insert_id. rewrite El. f_equal. by rewrite <- Ez.
  - intros b Hbr _. apply lookup_insert_ne. by intros <-.
  - eapply wf1_set_entry; [exact Hwf|by eexists|exact Hw|exact Hind].
  - fold z1. rewrite (tree1_set_entry bs V V' z1 e w), (tree1_entry bs V z1 e) by (done || by eexists).
    rewrite (entry_known V z1 e d) by done. rewrite (Permutation_app_comm (leaf w)), (Permutation_app_comm (leaf (word d e))), <- !app_assoc.
    by rewrite Hp.
  - intros b Hz. apply lookup_insert_ne. intros <-. destruct Hwf as [?|(Hz1 & _)]; [done|]. by apply (data_ne_zmap z1 z1).
  - rewrite Ezs in Ho', Hset. destruct Hset as (_ & _ & Hs1 & _ & _ & Hat). split; [done|]. split; [exact Hs1|].
    intros n Hn. rewrite (Hat n Hn). unfold zone_at_slot, zone_at. pose proof (path_of_ok bs bs_ok n Hn) as Hpn.
    destruct (path_of bs n) as [k|sl' e']; [by rewrite decide_False|].
    destruct (decide (sl' = sl)) as [->|Hsl]; [|by rewrite decide_False by congruence].
    rewrite (entry_set bs V V' z1 e w e' Hne) by (done || (by eexists) || lia). fold z1.
    destruct (decide (e' = e)) as [->|He']; [by rewrite decide_True|by rewrite decide_False by congruence].
Qed.

Lemma slot_blocks_ind V zs i z : blocks_ok bs V -> file_ok bs G V zs -> slot_there bs zs (SDbl i) -> ref_ok G z ->
  is_Some (set_slot_blocks V zs (SDbl i) z !! zone_n zs 8) /\
  ind bs (set_slot_blocks V zs (SDbl i) z) (zone_n zs 8) = <[Z.to_nat i := z]> (ind bs V (zone_n zs 8)).
Proof using HG.
  intros Hb Hf Hth Hz. destruct (slot_entry bs G V zs i (f_double _ _ _ _ Hf) Hth) as (d8 & Hd8 & _).
  cbn [set_slot_blocks]. rewrite Hd8. unfold ind. rewrite lookup_insert_eq, Hd8. split; [by eexists|].
  apply words_put; [by eapply Hb|apply Hth|by apply zone_word].
Qed.

Lemma slot_blocks_ne V zs sl z b : (b = zone_n zs 8 -> sl = SInd) -> set_slot_blocks V zs sl z !! b = V !! b.
Proof using.
  intros Hb. destruct sl as [|i]; [done|]. cbn [set_slot_blocks]. destruct (V !! zone_n zs 8); [|done].
  apply lookup_insert_ne. intros <-. by specialize (Hb eq_refl).
Qed.

(** The double indirect block is not a block of the zone map. *)
Lemma dbl_not_zmap V zs sl b : file_ok bs G V zs -> slot_there bs zs sl -> in_zmap G b -> b = zone_n zs 8 -> sl = SInd.
Proof using HG.
  intros Hf Hth Hb ->. destruct sl as [|i]; [done|]. destruct (f_double _ _ _ _ Hf) as [E|(Hz & _)].
  - by destruct Hth.
  - by destruct (data_ne_zmap _ _ Hz Hb).
Qed.

Lemma entry_empty1 V z e : (z <> 0 -> Forall (fun w => w = 0) (ind bs V z)) -> entry bs V z e = 0.
Proof using.
  intros He. unfold entry. destruct (Z.eqb_spec z 0) as [|Hne]; [done|].
  destruct (ind bs V z !! Z.to_nat e) as [x|] eqn:Ex; [|done]. by apply (proj1 (Forall_lookup _ _) (He Hne) _ _ Ex).
Qed.

(** When a single indirect block without entries comes or goes, no position changes its zone. *)
Lemma slot_set_same V zs sl z V' zs' : slot_set_spec bs G V zs sl z V' zs' ->
  (slot_zone bs V zs sl <> 0 -> Forall (fun w => w = 0) (ind bs V (slot_zone bs V zs sl))) ->
  (z <> 0 -> Forall (fun w => w = 0) (ind bs V' z)) -> same_at V zs V' zs'.
Proof using.
  intros (_ & _ & _ & _ & E0 & Hat) He He'. split; [done|]. intros n Hn. rewrite (Hat n Hn). unfold zone_at_slot, zone_at.
  destruct (path_of bs n) as [k|sl' e]; [done|]. destruct (decide (sl' = sl)) as [->|]; [|done].
  by rewrite !entry_empty1.
Qed.

Lemma owned_open V zs sl R z1 : owned V zs (z1 :: R) -> slot_there bs zs sl -> blocks_ok bs V -> slot_zone bs V zs sl = 0 ->
  let V' := <[z1 := zeros bs]> (set_slot_blocks V zs sl z1) in
  let zs' := set_slot_zones zs sl z1 in
  owned V' zs' R /\ slot_zone bs V' zs' sl = z1 /\ zone_n zs' 8 = zone_n zs 8 /\ same_at V zs V' zs'.
Proof using HG.
  intros Ho Hth Hb E0 V' zs'. pose proof (o_file _ _ _ Ho) as Hf. pose proof (o_rest _ _ _ Ho) as HR. apply Forall_cons in HR as [Hz HR].
  pose proof (data_zone_ne bs bs_ok G first_pos z1 Hz) as Hne.
  assert (z1 ∉ slot_rest bs V zs sl) as Hnr by (apply (slot_sep V zs sl (z1 :: R)); [done|done|]; apply elem_of_app; right; left).
  assert (ind bs V' z1 = replicate (Z.to_nat ni) 0) as Hind by (unfold ind, V'; rewrite lookup_insert_eq; apply words_zeros, bs_ok).
  assert (Forall (fun w => w = 0) (ind bs V' z1)) as Hz0 by (rewrite Hind; by apply Forall_replicate).
  destruct (owned_slot V V' zs sl z1 (z1 :: R) R) as [Ho' Hset]; [done|done| | | |done| | |].
  - intros i ->. pose proof (dbl_in_rest V zs i) as Hin. assert (z1 <> zone_n zs 8) as Hne8 by (intros E; rewrite <- E in Hin; done).
    unfold V'. rewrite lookup_insert_ne, ind_insert_ne by done. apply slot_blocks_ind; [done..|by right].
  - intros b Hbr Hb8. unfold V'. rewrite lookup_insert_ne by (by intros <-). by apply slot_blocks_ne.
  - right. split; [done|]. split; [unfold V'; rewrite lookup_insert_eq; by eexists|]. eapply Forall_impl; [exact Hz0|]. intros w ->. by left.
  - by rewrite (tree1_empty bs V' z1), E0 by done.
  - intros b Hbz. unfold V'. rewrite lookup_insert_ne by (by apply data_ne_zmap). apply slot_blocks_ne. by apply (dbl_not_zmap V).
  - split; [done|]. split; [apply Hset|]. split; [apply Hset|]. apply (slot_set_same V zs sl z1); [done|by rewrite E0|done].
Qed.

Lemma owned_close V zs sl R : owned V zs R -> slot_there bs zs sl -> blocks_ok bs V -> slot_zone bs V zs sl <> 0 ->
  Forall (fun w => w = 0) (ind bs V (slot_zone bs V zs sl)) ->
  let V' := set_slot_blocks V zs sl 0 in
  let zs' := set_slot_zones zs sl 0 in
  owned V' zs' (slot_zone bs V zs sl :: R) /\ slot_zone bs V' zs' sl = 0 /\ zone_n zs' 8 = zone_n zs 8 /\ same_at V zs V' zs'.
Proof using HG.
  intros Ho Hth Hb Hne He V' zs'. pose proof (o_file _ _ _ Ho) as Hf. pose proof (slot_wf bs G V zs sl Hf Hth) as Hw.
  destruct (owned_slot V V' zs sl 0 R (slot_zone bs V zs sl :: R)) as [Ho' Hset]; [done|done| | |by left| | | |].
  - intros i ->. apply slot_blocks_ind; [done..|by left].
  - intros b Hbr Hb8. by apply slot_blocks_ne.
  - constructor; [|apply Ho]. by destruct Hw as [?|[? _]].
  - by rewrite (tree1_empty bs V) by done.
  - intros b Hbz. apply slot_blocks_ne. by apply (dbl_not_zmap V).
  - split; [done|]. split; [apply Hset|]. split; [apply Hset|]. apply (slot_set_same V zs sl 0); done.
Qed.

(** A double indirect block without entries comes or goes. *)
Lemma owned_dbl V V' zs z R R' : owned V zs R -> empty_block bs G V (zone_n zs 8) -> empty_block bs G V' z ->
  (forall b, b ∈ dbl_rest bs V zs \/ in_zmap G b -> V' !! b = V !! b) -> Forall (data_zone G) R' ->
  leaf z ++ R' ≡ₚ leaf (zone_n zs 8) ++ R ->
  owned V' (<[8%nat := z]> zs) R' /\ zone_n (<[8%nat := z]> zs) 8 = z /\ zone_n (<[8%nat := z]> zs) 7 = zone_n zs 7 /\
  same_at V zs V' (<[8%nat := z]> zs).
Proof using HG.
  intros Ho He He' Hag HR' Hp. pose proof (o_file _ _ _ Ho) as Hf. pose proof (fp_dbl bs bs_ok G first_pos V zs Hf He) as Hfp.
  assert (leaf z ++ dbl_rest bs V zs ++ R' ≡ₚ fp bs V zs ++ R) as Hall.
  { rewrite Hfp, (Permutation_app_comm (dbl_rest _ _ _) R'), app_assoc, Hp. solve_Permutation. }
  assert (NoDup (leaf z ++ dbl_rest bs V zs)) as Hnd.
  { pose proof (o_nodup _ _ _ Ho) as Hn. rewrite <- Hall, app_assoc in Hn. by apply NoDup_app in Hn as [? _]. }
  destruct (set_dbl bs bs_ok G first_pos V V' zs z Hf He He') as (Hf' & Hfp' & E8 & E0 & Hat); [|done|].
  { intros b Hb. apply Hag. by left. }
  split; [|split; [done|split; [|split; [exact E0|exact Hat]]]].
  - eapply owned_move; [exact Ho|done|done| |]; [by rewrite Hfp', <- app_assoc|]. intros b Hb. apply Hag. by right.
  - apply (zone_n_insert zs 8 7 z); [|lia|lia]. rewrite (f_length _ _ _ _ Hf). unfold V2_NR_TZONES. lia.
Qed.

(** The zone [z] is taken out of use while blocks change as well. *)
Lemma owned_free_at s V L T V' V2 zs R z : zrep s V L T -> owned V' zs (z :: R) ->
  (forall b, in_zmap G b -> V' !! b = V !! b /\ V2 !! b = mark_zone bs G V z false !! b) ->
  (forall b, b ∈ fp bs V' zs -> V2 !! b = V' !! b) -> owned V2 zs R.
Proof using HG.
  intros Hs [Hf Hnd HR Hex] Hz Hfp. apply Forall_cons in HR as [Hdz HR].
  assert (fp bs V' zs ++ z :: R ≡ₚ z :: (fp bs V' zs ++ R)) as Hp by solve_Permutation.
  rewrite Hp in Hnd. apply NoDup_cons in Hnd as [Hz1 Hnd].
  assert (fp bs V2 zs = fp bs V' zs) as Efp by by apply fp_frame.
  split; [by apply (file_ok_frame bs bs_ok G first_pos V')|by rewrite Efp|done|].
  intros x Hx. rewrite (zone_used_frame (mark_zone bs G V z false) V2 x Hx) by (intros b Hb; apply Hz, Hb).
  rewrite (mark_zone_used dev bs own G HG s V L T), Efp by done.
  case_decide as E; [subst; split; [done|intros; by destruct Hz1]|].
  rewrite <- (zone_used_frame V V' x Hx) by (intros b Hb; apply Hz, Hb). rewrite Hex, Hp, elem_of_cons by done. tauto.
Qed.

(** Blocks in use that [write_map] leaves alone. *)
Definition safe (X : Z -> Prop) V0 V zs sl : Prop := forall b, X b ->
  data_zone G b /\ zone_used bs G V b = true /\ b <> zone_n zs 8 /\ b <> slot_zone bs V zs sl /\ V !! b = V0 !! b.

(** A double indirect block is taken into the file. *)
Lemma new_dbl s V L T zs R x X V0 i : zrep s V L T -> owned V zs R -> zone_n zs 8 = 0 -> data_zone G x -> zone_used bs G V x = false ->
  owned (mark_zone bs G V x true) zs (x :: R) -> 0 <= i < ni -> safe X V0 V zs (SDbl i) ->
  let V' := <[x := zeros bs]> (mark_zone bs G V x true) in
  let zs' := <[8%nat := x]> zs in
  owned V' zs' R /\ same_at V zs V' zs' /\ zone_n zs' 8 = x /\ slot_zone bs V' zs' (SDbl i) = 0 /\ safe X V0 V' zs' (SDbl i).
Proof using HG.
  intros Hs Ho E8 Hx Hfree Ho1 Hi HX V' zs'. set (V1 := mark_zone bs G V x true) in *.
  destruct (owned_alloc s V L T zs R x Hs Hx Hfree Ho) as [Hnew _].
  pose proof (zone_bit_range dev bs own G HG x Hx) as Hxb. pose proof (data_zone_ne bs bs_ok G first_pos x Hx) as Hne.
  assert (ind bs V' x = replicate (Z.to_nat ni) 0) as Hind by (unfold ind, V'; rewrite lookup_insert_eq; apply words_zeros, bs_ok).
  destruct (mark_file s V L T zs x true Hs Hx (o_file _ _ _ Ho)) as [Hf1 Hfp1]. fold V1 in Hf1, Hfp1.
  destruct (owned_dbl V1 V' zs x (x :: R) R) as (Ho' & E8' & E7 & Hsame); [done|by left| | |apply Ho| |].
  - right. split; [done|]. split; [unfold V'; rewrite lookup_insert_eq; by eexists|]. rewrite Hind. by apply Forall_replicate.
  - intros b Hb. unfold V'. apply lookup_insert_ne. intros <-. destruct Hb as [Hb|Hb]; [|by apply (data_ne_zmap x x)].
    apply Hnew, elem_of_app. left. rewrite <- Hfp1. unfold dbl_rest in Hb. unfold fp. rewrite elem_of_app in Hb. rewrite !elem_of_app. tauto.
  - rewrite E8. unfold leaf. by rewrite (proj2 (Z.eqb_neq _ _) Hne).
  - assert (same_at V zs V1 zs) as Hs1.
    { split; [done|]. intros m Hm. apply zone_at_frame. intros b Hb. apply (mark_zone_frame dev bs own G HG); [lia|].
      by apply (fp_not_zmap V zs), Hb; apply Ho. }
    assert (slot_zone bs V' zs' (SDbl i) = 0) as Esl.
    { cbn [slot_zone]. fold zs' in E8'. rewrite E8'. apply entry_empty1. intros _. rewrite Hind. by apply Forall_replicate. }
    split; [done|]. split; [by eapply same_at_trans|]. split; [done|]. split; [done|].
    intros b Hb. destruct (HX b Hb) as (Hd & Hu & H8 & Hsl & HV). assert (b <> x) as Hbx by (intros ->; congruence).
    pose proof (data_zone_ne bs bs_ok G first_pos b Hd). split; [done|]. split.
    { rewrite (zone_used_frame V1 V' b Hd) by (intros b' Hb'; apply lookup_insert_ne; by apply data_ne_zmap).
      unfold V1. rewrite (mark_zone_used dev bs own G HG s V L T), decide_False by done. done. }
    split; [by fold zs' in E8'; rewrite E8'|]. split; [by rewrite Esl|].
    unfold V', V1. rewrite lookup_insert_ne by done. rewrite (mark_zone_frame dev bs own G HG); [done|lia|]. intros Hz. by apply (data_ne_zmap b b).
Qed.
Lemma set_slot_id V zs sl : file_ok bs G V zs -> slot_there bs zs sl -> blocks_ok bs V ->
  set_slot_blocks V zs sl (slot_zone bs V zs sl) = V /\ set_slot_zones zs sl (slot_zone bs V zs sl) = zs.
Proof using HG.
  intros Hf Hth Hb. destruct sl as [|i]; cbn [set_slot_blocks set_slot_zones].
  - split; [done|]. apply list_insert_id. cbn [slot_zone]. unfold zone_n.
    apply list_lookup_lookup_total_lt. rewrite (f_length _ _ _ _ Hf). unfold V2_NR_TZONES. lia.
  - destruct (slot_entry bs G V zs i (f_double _ _ _ _ Hf) Hth) as (d & Hd & Ez & _). rewrite Hd, Ez. split; [|done].
    pose proof (Hb _ _ Hd) as Hok. rewrite put_word_id; [by apply insert_id| |apply Hok]. rewrite (block_words bs) by done. apply Hth.
Qed.

(** What [locate_indirect] says about the indirect blocks of the slot [sl]. *)
Record located V zs sl e (w : wmap) L L' : Prop := {
  lo_single : wm_single w = bool_decide (sl = SInd);
  lo_z1 : wm_z1 w = slot_zone bs V zs sl;
  lo_excess : wm_excess w = e;
  lo_old : wm_new_ind w = false;
  lo_dindir : match sl with
    | SInd => wm_dindir w = None /\ L' = L
    | SDbl i => wm_ind_ex w = i /\
        ((wm_dindir w = None /\ L' = L /\ zone_n zs 8 = 0) \/
         (exists bp, wm_dindir w = Some bp /\ L' = (bp, zone_n zs 8) :: L /\ zone_n zs 8 <> 0))
    end;
}.

(** The double indirect block of a slot of the file. *)
Lemma slot_dbl V zs sl : file_ok bs G V zs -> slot_there bs zs sl -> sl <> SInd -> data_zone G (zone_n zs 8) /\ is_Some (V !! zone_n zs 8).
Proof using.
  intros Hf Hth Hsl. destruct sl as [|i]; [done|]. destruct (f_double _ _ _ _ Hf) as [E|(Hz & Hk & _)]; [by destruct Hth|done].
Qed.

Lemma located_pins V zs sl e w L L' : located V zs sl e w L L' -> (length L' <= S (length L))%nat.
Proof using. intros [_ _ _ _ Hd]. destruct sl; [by destruct Hd as [_ ->]; lia|]. destruct Hd as [_ [(_ & -> & _)|(bp & _ & -> & _)]]; cbn; lia. Qed.

(** The zone [z] is entered at position [n]. *)
Lemma owned_enter V zs sl e n R z d : owned V zs (z :: R) -> slot_there bs zs sl -> blocks_ok bs V ->
  slot_zone bs V zs sl <> 0 -> V !! slot_zone bs V zs sl = Some d -> 0 <= n < max_zones bs -> path_of bs n = PVia sl e ->
  zone_at bs V zs n = 0 ->
  let V' := <[slot_zone bs V zs sl := put_word d e z]> V in
  owned V' zs R /\ forall m, 0 <= m < max_zones bs -> zone_at bs V' zs m = if decide (m = n) then z else zone_at bs V zs m.
Proof using HG.
  intros Ho Hth Hb Hne Hd Hn Hp E0 V'. pose proof (path_of_ok bs bs_ok n Hn) as He. rewrite Hp in He. destruct He as [_ He].
  pose proof (o_rest _ _ _ Ho) as HR. apply Forall_cons in HR as [Hz HR]. pose proof (data_zone_ne bs bs_ok G first_pos z Hz) as Hzne.
  unfold zone_at in E0. rewrite Hp, (entry_known V _ e d) in E0 by done.
  destruct (owned_entry V zs sl (z :: R) R e z d) as (Ho' & _ & Hat); [done|done|done|done|done|done|by right|done| |].
  { rewrite E0. unfold leaf. by rewrite (proj2 (Z.eqb_neq _ _) Hzne). }
  split; [done|]. intros m Hm. etransitivity; [exact (Hat m Hm)|]. rewrite <- Hp. destruct (decide (m = n)) as [->|Hmn]; [by rewrite decide_True|].
  rewrite decide_False; [done|]. intros E. apply Hmn. apply (path_of_inj bs bs_ok); [lia|lia|done].
Qed.

Lemma safe_open s V L T zs sl x X V0 : zrep s V L T -> data_zone G x -> zone_used bs G V x = false -> safe X V0 V zs sl ->
  forall b, X b -> b <> x /\ (<[x := zeros bs]> (set_slot_blocks (mark_zone bs G V x true) zs sl x)) !! b = V0 !! b.
Proof using HG.
  intros Hs Hx Hfree HX b Hb. destruct (HX b Hb) as (Hd & Hu & H8 & _ & HV). assert (b <> x) as Hne by (intros ->; congruence).
  split; [done|]. rewrite lookup_insert_ne by done. rewrite slot_blocks_ne by done.
  pose proof (zone_bit_range dev bs own G HG x Hx). rewrite (mark_zone_frame dev bs own G HG); [done|lia|]. intros Hz. by apply (data_ne_zmap b b).
Qed.

Lemma mark_blocks V z v : data_zone G z -> blocks_ok bs V -> blocks_ok bs (mark_zone bs G V z v).
Proof using HG.
  intros Hz Hb b d. unfold mark_zone, set_map_bit. pose proof (zone_bit_range dev bs own G HG z Hz).
  destruct (V !! _) as [d0|] eqn:E; [|apply Hb]. cbv zeta. rewrite lookup_insert_Some. intros [[_ <-]|[_ Hd]]; [|by eapply Hb].
  apply put_word_ok; [by eapply Hb|]. destruct (bit_split bs bs_ok (zone_bit G z)) as (w & i & Hw & Hi & E2); [lia|].
  by destruct (bit_index bs bs_ok _ w i _ Hw Hi E2) as (_ & -> & _).
Qed.

Lemma mark_same s V L T zs z v : zrep s V L T -> data_zone G z -> file_ok bs G V zs -> same_at V zs (mark_zone bs G V z v) zs.
Proof using HG.
  intros Hs Hz Hf. pose proof (zone_bit_range dev bs own G HG z Hz). split; [done|]. intros m Hm. apply zone_at_frame.
  intros b Hb. apply (mark_zone_frame dev bs own G HG); [lia|]. by apply (fp_not_zmap V zs).
Qed.

(** What slots have does not change with the zone map. *)
Lemma mark_slot s V L T zs sl z v : zrep s V L T -> data_zone G z -> file_ok bs G V zs -> slot_there bs zs sl ->
  slot_zone bs (mark_zone bs G V z v) zs sl = slot_zone bs V zs sl.
Proof using HG.
  intros Hs Hz Hf Hth. pose proof (zone_bit_range dev bs own G HG z Hz). destruct sl as [|i]; [done|]. cbn [slot_zone].
  apply entry_frame. intros Hne. apply (mark_zone_frame dev bs own G HG); [lia|]. intros Hzm.
  destruct (slot_dbl V zs (SDbl i) Hf Hth) as [Hd _]; [done|]. by apply (data_ne_zmap _ _ Hd Hzm).
Qed.

Lemma owned_direct V zs k w R R' : owned V zs R -> 0 <= k < 7 -> ref_ok G w -> Forall (data_zone G) R' ->
  leaf w ++ R' ≡ₚ leaf (zone_n zs k) ++ R ->
  owned V (<[Z.to_nat k := w]> zs) R' /\
  forall m, 0 <= m -> zone_at bs V (<[Z.to_nat k := w]> zs) m = if decide (m = k) then w else zone_at bs V zs m.
Proof using HG.
  intros Ho Hk Hw HR' Hp. pose proof (o_file _ _ _ Ho) as Hf. pose proof (fp_direct bs G V zs k Hf Hk) as Hfp.
  assert (leaf w ++ direct_rest bs V zs k ++ R' ≡ₚ fp bs V zs ++ R) as Hall.
  { rewrite Hfp, (Permutation_app_comm (direct_rest _ _ _ _) R'), app_assoc, Hp. solve_Permutation. }
  destruct (set_direct bs G V zs k w Hf Hk Hw) as (Hf' & Hfp' & Hat).
  { pose proof (o_nodup _ _ _ Ho) as Hn. rewrite <- Hall, app_assoc in Hn. by apply NoDup_app in Hn as [? _]. }
  split; [|exact Hat]. eapply owned_move; [exact Ho|exact Hf'|done| |done]. by rewrite Hfp', <- app_assoc.
Qed.

(** The indirect blocks on the way to a position. *)
Definition indirect V zs n b : Prop :=
  match path_of bs n with PDirect _ => False | PVia sl _ => b = zone_n zs 8 \/ b = slot_zone bs V zs sl end.


(** ** Indirect blocks are in use *)

(** The other references to single indirect blocks are the same. *)
Definition others sl V zs V' zs' : Prop := forall sl', slot_ok bs sl' -> sl' <> sl -> slot_zone bs V' zs' sl' = slot_zone bs V zs sl'.
(** The indirect block has an entry. *)
Definition busy V zs sl : Prop := slot_zone bs V zs sl <> 0 -> exists e, 0 <= e < ni /\ entry bs V (slot_zone bs V zs sl) e <> 0.
Definition dbl_busy V zs : Prop := zone_n zs 8 <> 0 -> exists i, 0 <= i < ni /\ slot_zone bs V zs (SDbl i) <> 0.
(** No indirect block of the file is without entries. *)
Definition tight V zs : Prop := (forall sl, slot_ok bs sl -> busy V zs sl) /\ dbl_busy V zs.

Lemma path_of_via sl e : slot_ok bs sl -> 0 <= e < ni -> exists n, 7 <= n < max_zones bs /\ path_of bs n = PVia sl e.
Proof using HG.
  intros Hsl He. pose proof (bs_words bs bs_ok) as Hw. unfold path_of, max_zones. destruct sl as [|i].
  - exists (7 + e). split; [nia|]. rewrite (proj2 (Z.ltb_ge _ _)) by lia. rewrite (proj2 (Z.ltb_lt _ _)) by lia. f_equal. lia.
  - cbn [slot_ok] in Hsl. exists (7 + ni + (i * ni + e)). assert (0 <= i * ni) by (apply Z.mul_nonneg_nonneg; lia).
    split; [nia|]. rewrite !(proj2 (Z.ltb_ge _ _)) by lia. replace (7 + ni + (i * ni + e) - 7 - ni) with (i * ni + e) by lia.
    rewrite Z.div_add_l, Z.div_small, Z.add_0_r by lia. f_equal. rewrite Z.add_comm, Z.mod_add, Z.mod_small by lia. done.
Qed.

Lemma not_empty_entry V z d : V !! z = Some d -> z <> 0 -> ~ Forall (fun w => w = 0) (ind bs V z) ->
  exists e, 0 <= e < ni /\ entry bs V z e <> 0.
Proof using HG.
  intros Hd Hne Hall. apply not_Forall_Exists in Hall; [|apply _]. apply Exists_exists in Hall as (w & Hw & Hw0).
  apply list_elem_of_lookup in Hw as [j Hj]. pose proof (lookup_lt_Some _ _ _ Hj) as Hlt. rewrite (ind_length bs) in Hlt by by eexists.
  exists (Z.of_nat j). split; [lia|]. unfold entry. rewrite (proj2 (Z.eqb_neq _ _) Hne), Nat2Z.id, Hj. done.
Qed.

Lemma slot_zone_set V zs sl z : blocks_ok bs V -> file_ok bs G V zs -> slot_there bs zs sl -> ref_ok G z ->
  others sl V zs (set_slot_blocks V zs sl z) (set_slot_zones zs sl z).
Proof using HG.
  intros Hb Hf Hth Hz sl' Hok Hne. pose proof (f_length _ _ _ _ Hf) as Hlen. unfold V2_NR_TZONES in Hlen. destruct sl as [|i]; cbn [set_slot_blocks set_slot_zones].
  - destruct sl' as [|j]; [done|]. cbn [slot_zone].
    change (<[7%nat := z]> zs) with (<[Z.to_nat 7 := z]> zs). by rewrite zone_n_insert, decide_False by lia.
  - destruct (slot_blocks_ind V zs i z Hb Hf Hth Hz) as [Hk Hind]. destruct sl' as [|j]; [done|]. cbn [slot_zone set_slot_blocks slot_ok] in *.
    unfold entry. destruct (zone_n zs 8 =? 0); [done|]. rewrite Hind. rewrite list_lookup_insert_ne; [done|].
    intros E. apply Hne. f_equal. pose proof (proj1 Hth). lia.
Qed.

Lemma slot_blocks_ext V V' zs sl z b : V' !! b = V !! b -> set_slot_blocks V' zs sl z !! b = set_slot_blocks V zs sl z !! b.
Proof using.
  intros E. destruct sl as [|i]; [done|]. cbn [set_slot_blocks]. destruct (decide (b = zone_n zs 8)) as [->|Hne].
  - rewrite E. destruct (V !! zone_n zs 8) eqn:E8; [by rewrite !lookup_insert_eq|by rewrite E, E8].
  - destruct (V' !! zone_n zs 8), (V !! zone_n zs 8); by rewrite ?lookup_insert_ne by done.
Qed.

Lemma mark_ne V z v b : data_zone G z -> ~ in_zmap G b -> mark_zone bs G V z v !! b = V !! b.
Proof using HG. intros Hz. apply (mark_zone_frame dev bs own G HG). pose proof (zone_bit_range dev bs own G HG z Hz). lia. Qed.

Lemma data_not_map b : data_zone G b -> ~ in_zmap G b.
Proof using HG. intros Hb Hz. by apply (data_ne_zmap b b). Qed.

(** The zone at position [n] is taken from the file and freed. *)
Lemma owned_remove s V L T zs R sl e n d : zrep s V L T -> owned V zs R -> slot_there bs zs sl ->
  slot_zone bs V zs sl <> 0 -> V !! slot_zone bs V zs sl = Some d -> 0 <= n < max_zones bs -> path_of bs n = PVia sl e ->
  word d e <> 0 ->
  let V1 := <[slot_zone bs V zs sl := put_word d e 0]> (mark_zone bs G V (word d e) false) in
  data_zone G (word d e) /\ zone_used bs G V (word d e) = true /\ owned V1 zs R /\
  (forall sl', slot_zone bs V1 zs sl' = slot_zone bs V zs sl') /\
  (forall m, 0 <= m < max_zones bs -> zone_at bs V1 zs m = if decide (m = n) then 0 else zone_at bs V zs m) /\
  (forall b, data_zone G b -> b <> slot_zone bs V zs sl -> V1 !! b = V !! b).
Proof using HG.
  intros Hs Ho Hth Hne Hd Hn Hp Hold V1. pose proof (path_of_ok bs bs_ok n Hn) as He. rewrite Hp in He. destruct He as [_ He].
  pose proof (zrep_blocks _ _ _ _ Hs) as Hb. pose proof (o_file _ _ _ Ho) as Hf. set (z1 := slot_zone bs V zs sl) in *. set (old := word d e) in *.
  pose proof (slot_wf bs G V zs sl Hf Hth) as Hw. fold z1 in Hw. destruct (wf1_word V z1 d e Hw Hne Hd He) as [Hz1 [?|Hdo]]; [done|].
  set (V1' := <[z1 := put_word d e 0]> V).
  destruct (owned_entry V zs sl R (old :: R) e 0 d) as (Ho' & Esl & Hat); [done|done|done|done|done|done|by left|constructor; [done|apply Ho]| |].
  { fold old. unfold leaf. by rewrite (proj2 (Z.eqb_neq _ _) Hold). }
  fold z1 V1' in Ho', Esl, Hat. pose proof (data_not_map z1 Hz1) as Hz1n.
  assert (forall b, in_zmap G b -> V1' !! b = V !! b /\ V1 !! b = mark_zone bs G V old false !! b) as Hzm.
  { intros b Hbz. assert (z1 <> b) by (by intros <-). unfold V1', V1. by rewrite !lookup_insert_ne by done. }
  assert (forall b, data_zone G b -> V1 !! b = V1' !! b) as Hfr.
  { intros b Hbd. unfold V1, V1'. destruct (decide (z1 = b)) as [->|Hbz]; [by rewrite !lookup_insert_eq|].
    rewrite !lookup_insert_ne by done. by apply mark_ne, data_not_map. }
  assert (forall b, b ∈ fp bs V1' zs -> V1 !! b = V1' !! b) as Hfr2.
  { intros b Hbf. apply Hfr. by eapply fp_data; [apply Ho'|]. }
  split; [done|]. split.
  { rewrite <- (zone_used_frame V V1' old Hdo) by (intros b Hbz; by apply Hzm). apply (o_exact _ _ _ Ho'); [done|].
    rewrite elem_of_app, elem_of_cons. tauto. }
  split; [by eapply owned_free_at|]. split; [|split].
  - intros [|j]; [done|]. cbn [slot_zone]. apply entry_frame. intros H8. destruct (f_double _ _ _ _ Hf) as [?|(Hd8 & _)]; [done|].
    rewrite (Hfr _ Hd8). apply lookup_insert_ne. intros E. apply (slot_sep V zs sl R z1 Ho Hth); [apply elem_of_app; left; by apply tree1_in|].
    rewrite E. by apply dbl_in_rest_ne.
  - intros m Hm. rewrite (zone_at_frame bs V1' V1 zs m Hfr2). etransitivity; [exact (Hat m Hm)|]. rewrite <- Hp.
    destruct (decide (m = n)) as [->|Hmn]; [by rewrite decide_True|]. rewrite decide_False; [done|]. intros E. apply Hmn.
    apply (path_of_inj bs bs_ok); [lia|lia|done].
  - intros b Hbd Hbz. rewrite (Hfr b Hbd). by apply lookup_insert_ne, not_eq_sym.
Qed.

(** The single indirect block without entries is taken from the file and freed. *)
Lemma owned_drop s V L T zs R sl : zrep s V L T -> owned V zs R -> slot_there bs zs sl -> slot_zone bs V zs sl <> 0 ->
  Forall (fun w => w = 0) (ind bs V (slot_zone bs V zs sl)) ->
  let z1 := slot_zone bs V zs sl in
  let V1 := delete z1 (set_slot_blocks (mark_zone bs G V z1 false) zs sl 0) in
  let zs1 := set_slot_zones zs sl 0 in
  data_zone G z1 /\ zone_used bs G V z1 = true /\ owned V1 zs1 R /\ zone_n zs1 8 = zone_n zs 8 /\ same_at V zs V1 zs1 /\
  slot_zone bs V1 zs1 sl = 0 /\ others sl V zs V1 zs1 /\
  (forall b, data_zone G b -> b <> z1 -> b <> zone_n zs 8 -> V1 !! b = V !! b).
Proof using HG.
  intros Hs Ho Hth Hne He z1 V1 zs1. pose proof (zrep_blocks _ _ _ _ Hs) as Hb. pose proof (o_file _ _ _ Ho) as Hf.
  destruct (owned_close V zs sl R) as (Ho' & Es0 & E8 & Hsame); [done..|]. fold z1 zs1 in Ho', Es0, E8, Hsame.
  set (Vc := set_slot_blocks V zs sl 0) in *.
  pose proof (o_rest _ _ _ Ho') as HR. apply Forall_cons in HR as [Hz1 _]. pose proof (data_not_map z1 Hz1) as Hz1n.
  assert (forall b, in_zmap G b -> Vc !! b = V !! b /\ V1 !! b = mark_zone bs G V z1 false !! b) as Hzm.
  { intros b Hbz. assert (z1 <> b) by (by intros <-). assert (b = zone_n zs 8 -> sl = SInd) as Hb8 by by apply (dbl_not_zmap V).
    unfold Vc, V1. rewrite lookup_delete_ne by done. by rewrite !slot_blocks_ne. }
  assert (forall b, b ∈ fp bs Vc zs1 -> V1 !! b = Vc !! b) as Hfr2.
  { intros b Hbf. assert (b <> z1) as Hbz.
    { intros ->. pose proof (o_nodup _ _ _ Ho') as Hnd. apply NoDup_app in Hnd as (_ & Hnd & _). apply (Hnd z1 Hbf). left. }
    unfold V1. rewrite lookup_delete_ne by (by apply not_eq_sym). apply slot_blocks_ext, mark_ne; [done|].
    apply data_not_map. by eapply fp_data; [apply Ho'|]. }
  split; [done|]. split.
  { rewrite <- (zone_used_frame V Vc z1 Hz1) by (intros b Hbz; by apply Hzm). apply (o_exact _ _ _ Ho'); [done|].
    rewrite elem_of_app, elem_of_cons. tauto. }
  assert (forall sl', slot_zone bs V1 zs1 sl' = slot_zone bs Vc zs1 sl') as Hsl.
  { intros [|j]; [done|]. cbn [slot_zone]. apply entry_frame. intros H8. apply Hfr2. unfold fp. rewrite !elem_of_app. right. right. by apply tree2_in. }
  split; [by eapply owned_free_at|]. split; [done|]. split; [|split; [|split]].
  - split; [apply Hsame|]. intros m Hm. rewrite (zone_at_frame bs Vc V1 zs1 m Hfr2). by apply Hsame.
  - by rewrite Hsl.
  - intros sl' Hok' Hne'. rewrite Hsl. by apply slot_zone_set; [| | |left|..].
  - intros b Hbd Hbz Hb8. unfold V1. rewrite lookup_delete_ne by (by apply not_eq_sym). rewrite slot_blocks_ne by done.
    by apply mark_ne, data_not_map.
Qed.

(** The double indirect block without entries is taken from the file and freed. *)
Lemma owned_drop_dbl s V L T zs R : zrep s V L T -> owned V zs R -> zone_n zs 8 <> 0 ->
  Forall (fun w => w = 0) (ind bs V (zone_n zs 8)) ->
  let z2 := zone_n zs 8 in
  let V1 := delete z2 (mark_zone bs G V z2 false) in
  let zs1 := <[8%nat := 0]> zs in
  data_zone G z2 /\ zone_used bs G V z2 = true /\ owned V1 zs1 R /\ same_at V zs V1 zs1 /\ zone_n zs1 8 = 0 /\
  (forall sl, slot_zone bs V1 zs1 sl = slot_zone bs V zs sl) /\
  (forall b, data_zone G b -> b <> z2 -> V1 !! b = V !! b).
Proof using HG.
  intros Hs Ho Hne He z2 V1 zs1. pose proof (o_file _ _ _ Ho) as Hf.
  destruct (f_double _ _ _ _ Hf) as [?|(Hz2 & Hk & _)]; [done|]. fold z2 in Hz2, Hk, Hne, He.
  destruct (owned_dbl V V zs 0 R (z2 :: R)) as (Ho' & E8 & E7 & Hsame); [done|by right|by left|done|constructor; [done|apply Ho]| |].
  { fold z2. unfold leaf. by rewrite (proj2 (Z.eqb_neq _ _) Hne). }
  fold zs1 in Ho', E8, E7, Hsame. pose proof (data_not_map z2 Hz2) as Hz2n.
  assert (forall b, b ∈ fp bs V zs1 -> V1 !! b = V !! b) as Hfr2.
  { intros b Hbf. assert (b <> z2) as Hbz.
    { intros ->. pose proof (o_nodup _ _ _ Ho') as Hnd. apply NoDup_app in Hnd as (_ & Hnd & _). apply (Hnd z2 Hbf). left. }
    unfold V1. rewrite lookup_delete_ne by (by apply not_eq_sym). apply mark_ne; [done|]. apply data_not_map. by eapply fp_data; [apply Ho'|]. }
  split; [done|]. split. { apply (o_exact _ _ _ Ho'); [done|]. rewrite elem_of_app, elem_of_cons. tauto. }
  split; [|split; [|split; [|split]]].
  - eapply owned_free_at; [exact Hs|exact Ho'| |exact Hfr2]. intros b Hbz. split; [done|]. unfold V1. apply lookup_delete_ne. by intros <-.
  - split; [apply Hsame|]. intros m Hm. rewrite (zone_at_frame bs V V1 zs1 m Hfr2). by apply Hsame.
  - exact E8.
  - intros [|j]; cbn [slot_zone]; [exact E7|]. rewrite E8. unfold entry at 1. cbn. symmetry. by apply entry_empty1.
  - intros b Hbd Hbz. unfold V1. rewrite lookup_delete_ne by (by apply not_eq_sym). by apply mark_ne, data_not_map.
Qed.


(** What freeing position [n] has done to the file so far: the others keep their zones,
    and no block has changed but the two indirect ones. *)
Definition freed V zs n V' zs' : Prop :=
  (forall m, 0 <= m < max_zones bs -> zone_at bs V' zs' m = if decide (m = n) then 0 else zone_at bs V zs m) /\
  (forall b, data_zone G b -> ~ indirect V zs n b -> V' !! b = V !! b).

Lemma freed_same V zs n V1 zs1 V2 zs2 : freed V zs n V1 zs1 -> same_at V1 zs1 V2 zs2 ->
  (forall b, data_zone G b -> ~ indirect V zs n b -> V2 !! b = V1 !! b) -> freed V zs n V2 zs2.
Proof using.
  intros [H1 H2] [_ H3] H4. split; [intros m Hm; by rewrite H3, H1|]. intros b Hb Hi. by rewrite H4, H2.
Qed.

Lemma freed_busy V zs n V' zs' sl e : tight V zs -> freed V zs n V' zs' -> path_of bs n = PVia sl e -> others sl V zs V' zs' ->
  busy V' zs' sl -> forall sl', slot_ok bs sl' -> busy V' zs' sl'.
Proof using HG.
  intros [Ht _] [Hat _] Hp Ho Hb sl' Hok. destruct (decide (sl' = sl)) as [->|Hne]; [done|]. unfold busy. rewrite (Ho sl' Hok Hne).
  intros Hz. destruct (Ht sl' Hok Hz) as (e' & He' & Hx). exists e'. split; [done|].
  destruct (path_of_via sl' e' Hok He') as (m & Hm & Hpm). specialize (Hat m ltac:(lia)). unfold zone_at in Hat. rewrite Hpm in Hat.
  rewrite (Ho sl' Hok Hne) in Hat. rewrite Hat. destruct (decide (m = n)) as [->|]; [congruence|done].
Qed.

Lemma tight_same V zs V' zs' : tight V zs -> (forall sl, slot_zone bs V' zs' sl = slot_zone bs V zs sl) -> zone_n zs' 8 = zone_n zs 8 ->
  (forall m, 7 <= m < max_zones bs -> zone_at bs V' zs' m = zone_at bs V zs m) -> tight V' zs'.
Proof using HG.
  intros [Ht Hd] Hsl E8 Hat. split.
  - intros sl Hok. unfold busy. rewrite Hsl. intros Hz. destruct (Ht sl Hok Hz) as (e & He & Hx). exists e. split; [done|].
    destruct (path_of_via sl e Hok He) as (m & Hm & Hpm). specialize (Hat m Hm). unfold zone_at in Hat. rewrite Hpm, Hsl in Hat. congruence.
  - unfold dbl_busy. rewrite E8. intros H8. destruct (Hd H8) as (i & Hi & Hx). exists i. by rewrite Hsl.
Qed.

(** ** The inode *)

Section rip.
Context (rip : nat) (r : inode) (l0 : list inode) (Hrip : (rip < length l0)%nat).
Context (Hr : i_ndzones r = 7 /\ i_nindirs r = ni /\ i_dev r = dev).

(** The zones of the inode are [zs], nothing else has changed in the table [l0]. *)
Definition fstate s V L T (zs : list Z) : Prop := zrep s V L T /\ inodes s = <[rip := set_i_zone zs r]> l0.

Lemma fstate_step s s' V V' L L' T T' zs : fstate s V L T zs -> same_inodes s s' -> zrep s' V' L' T' -> fstate s' V' L' T' zs.
Proof using HG. intros [_ Hi] (_ & Hsi & _) Hz. split; [done|congruence]. Qed.

Lemma fwp_inode s V L T zs (Q : inode -> mfs -> Prop) : fstate s V L T zs -> Q (set_i_zone zs r) s -> wp (get_inode_slot rip) Q s.
Proof using Hrip.
  intros [_ Hi] HQ. unfold get_inode_slot. apply wp_bind, wp_gets. eapply wp_deref; [|exact HQ]. rewrite Hi.
  by apply list_lookup_insert_eq.
Qed.

Lemma fwp_get_zone s V L T zs i (Q : Z -> mfs -> Prop) :
  fstate s V L T zs -> 0 <= i < Z.of_nat (length zs) -> Q (zone_n zs i) s -> wp (get_zone rip i) Q s.
Proof using Hrip.
  intros Hs Hi HQ. unfold get_zone. apply wp_bind. eapply fwp_inode; [done|]. cbn [i_zone set_i_zone].
  apply (wp_lift _ (zone_n zs i)); [|done]. apply aget_Ok. split; [lia|]. apply list_lookup_lookup_total_lt. lia.
Qed.

Lemma fwp_set_zone s V L T zs i z (Q : unit -> mfs -> Prop) :
  fstate s V L T zs -> 0 <= i < Z.of_nat (length zs) ->
  (forall s', superblock s' = superblock s -> err_code s' = err_code s ->
     fstate s' V L T (<[Z.to_nat i := z]> zs) -> Q tt s') -> wp (set_zone rip i z) Q s.
Proof using Hrip HG.
  intros Hs Hi HQ. unfold set_zone. apply wp_bind. eapply fwp_inode; [done|]. cbn [i_zone set_i_zone].
  apply wp_bind, (wp_lift _ (<[Z.to_nat i := z]> zs)). { unfold aset. by rewrite decide_True by lia. }
  unfold upd_inode. apply wp_bind. eapply fwp_inode; [done|]. apply wp_modify. apply HQ; [done|done|].
  destruct Hs as [[Hc Hsb Hk H0 Hz] Hin]. split; [by split|]. cbn [inodes with_inodes]. rewrite Hin, list_insert_insert_eq. done.
Qed.

Lemma fwp_alloc s V L T zs R z (Q : Z -> mfs -> Prop) :
  fstate s V L T zs -> owned V zs R -> (length L < MINBUFS)%nat -> 0 <= z < 2 ^ 32 ->
  (forall s', fstate s' V L T zs -> err_code s' = ENOSPC -> (forall x, data_zone G x -> x ∈ fp bs V zs ++ R) -> Q NO_ZONE s') ->
  (forall x s', data_zone G x -> x ∉ fp bs V zs ++ R -> fstate s' (mark_zone bs G V x true) L T zs ->
     owned (mark_zone bs G V x true) zs (x :: R) -> Q x s') ->
  wp (alloc_zone dev z) Q s.
Proof using HG.
  clear Hr. intros [Hs Hi] Ho HL Hz Hfull Hfound. eapply wp_mono; [by apply (alloc_zone_ok dev bs own G HG s V L T z)|].
  intros x s' [Hi' (V1 & Hs' & Hcase)]. destruct Hcase as [(-> & -> & He & Hall)|(Hx & Hfree & ->)].
  - apply Hfull; [split; [done|congruence]|done|]. intros y Hy. apply Ho; [done|]. by apply Hall.
  - destruct (owned_alloc s V L T zs R x Hs Hx Hfree Ho) as [Hn Ho'].
    apply Hfound; [done|done|split; [done|congruence]|done].
Qed.

Lemma fwp_free s V L T zs z (Q : unit -> mfs -> Prop) :
  fstate s V L T zs -> data_zone G z -> zone_used bs G V z = true -> (length L < MINBUFS)%nat ->
  (forall s', fstate s' (mark_zone bs G V z false) L T zs -> Q tt s') ->
  wp (free_zone dev z) Q s.
Proof using HG.
  clear Hr. intros [Hs Hi] Hz Hu HL HQ. eapply wp_mono; [by apply (free_zone_ok dev bs own G HG s V L T z)|].
  intros [] s' (Hi' & _ & Hs'). apply HQ. split; [done|congruence].
Qed.

(** ** Reading the map *)

Lemma fwp_super s V L T zs (Q : super_block -> mfs -> Prop) :
  fstate s V L T zs -> (forall q, 0 <= q -> Q (set_s_zsearch q G) s) -> wp (gets superblock) Q s.
Proof using HG. intros [Hs _] HQ. destruct (z_super _ _ _ _ _ _ _ _ Hs) as (q & Hq & E). apply wp_gets. rewrite E. by apply HQ. Qed.

Lemma fwp_read_indirect s V L zs z d e double (Q : option Z -> mfs -> Prop) :
  fstate s V L ∅ zs -> (length L < MINBUFS)%nat -> data_zone G z -> V !! z = Some d -> 0 <= e < ni -> ref_ok G (word d e) ->
  (forall s', fstate s' V L ∅ zs -> Q (Some (word d e)) s') -> wp (read_indirect rip z e double false) Q s.
Proof using HG Hr Hrip.
  intros Hs HL Hz Hd He Href HQ. unfold read_indirect. apply wp_bind. eapply fwp_inode; [done|]. cbn [i_dev set_i_zone].
  rewrite (proj2 (proj2 Hr)). apply wp_bind. eapply zwp_get_known; [apply Hs|done|done|done|]. intros bp s1 H1 Hz1.
  apply wp_bind. eapply wp_buf_dev; [by apply zrep_mrep'|left|]. cbn [andb]. destruct (sb_dev _ _ _ _ HG) as [_ Hdev].
  assert (forall (Q' : unit -> mfs -> Prop), Q' tt s1 -> wp (when double (c_assert (negb (dev =? NO_DEV));; c_assert (dev =? dev))) Q' s1) as Hck.
  { intros Q' HQ'. apply wp_when; intros _; [|done]. apply wp_bind, wp_assert; [by apply negb_true_iff, Z.eqb_neq|]. by apply wp_assert; [apply Z.eqb_refl|]. }
  apply wp_bind, Hck. apply wp_bind. eapply zwp_rd_indir; [done|left|done|done|done|].
  apply wp_bind. eapply zwp_put; [done|set_solver|]. intros s2 H2 Hz2. apply wp_ret, HQ.
  eapply fstate_step; [exact Hs|by eapply same_inodes_trans|done].
Qed.

Lemma fwp_read_single s V L zs z e (Q : option Z -> mfs -> Prop) :
  fstate s V L ∅ zs -> (length L < MINBUFS)%nat -> wf1 bs G V z -> z <> 0 -> 0 <= e < ni ->
  (forall s', fstate s' V L ∅ zs -> ref_ok G (entry bs V z e) -> Q (Some (entry bs V z e)) s') ->
  wp (read_indirect rip (u32 (Z.shiftl z (s_log_zone_size G))) e false false) Q s.
Proof using HG Hr Hrip.
  intros Hs HL Hw Hne He HQ. rewrite zone_block by by eapply wf1_ref.
  pose proof Hw as [?|(Hz & [d Hd] & Hf)]; [done|]. destruct (wf1_word V z d e Hw Hne Hd He) as [_ Href].
  rewrite (entry_known V z e d) in HQ by done. eapply fwp_read_indirect; [done..|]. intros s' Hs'. by apply HQ.
Qed.
Lemma read_map_ok s V L zs position :
  fstate s V L ∅ zs -> (length L < MINBUFS)%nat -> file_ok bs G V zs -> 0 <= position -> position / bs < max_zones bs ->
  wp (read_map rip position false) (fun b s' => b = zone_at bs V zs (position / bs) /\ fstate s' V L ∅ zs) s.
Proof using HG Hr Hrip.
  intros Hs HL Hf Hpos Hmax. pose proof max_zones_bound as Hmx. pose proof bs_ok as Hb. destruct Hr as (Hr1 & Hr2 & Hr3).
  assert (0 <= position / bs) as Hn0 by (apply Z.div_pos; lia). set (n := position / bs) in *.
  unfold read_map. apply wp_bind. eapply fwp_super; [done|]. intros q Hq. apply wp_bind. eapply fwp_inode; [done|].
  cbn [s_log_zone_size s_block_size set_s_zsearch i_ndzones i_nindirs set_i_zone]. rewrite (sb_size _ _ _ _ HG), Hr1, Hr2.
  apply wp_bind, (wp_lift _ n); [apply sdiv_ok; lia|]. rewrite (u32_small n) by lia.
  replace (Z.shiftr n (s_log_zone_size G)) with n by by rewrite (sb_scale _ _ _ _ HG), Z.shiftr_0_r.
  replace (i32 (n - Z.shiftl n (s_log_zone_size G))) with 0 by by rewrite (sb_scale _ _ _ _ HG), Z.shiftl_0_r, Z.sub_diag.
  pose proof (zone_at_ref V zs n Hf ltac:(lia)) as Href. pose proof (f_length _ _ _ _ Hf) as Hlen. unfold V2_NR_TZONES in Hlen.
  assert (forall z, ref_ok G z -> u32 (Z.shiftl z (s_log_zone_size G) + 0) = z) as Hblk.
  { intros z Hz. rewrite Z.add_0_r, (sb_scale _ _ _ _ HG), Z.shiftl_0_r. by apply u32_small, zone_word. }
  assert (forall z (s' : mfs), z = zone_at bs V zs n -> fstate s' V L ∅ zs ->
    wp (if z =? NO_ZONE then mret NO_BLOCK else mret (u32 (Z.shiftl z (s_log_zone_size G) + 0)))
      (fun b s' => b = zone_at bs V zs n /\ fstate s' V L ∅ zs) s') as Hend.
  { intros z s' -> Hs'. unfold NO_ZONE. destruct (Z.eqb_spec (zone_at bs V zs n) 0) as [E|E]; apply wp_ret; split; try done.
    by apply Hblk. }
  destruct (Z.ltb_spec n 7) as [Hn|Hn].
  { rewrite i32_id by lia. apply wp_bind. eapply fwp_get_zone; [done|lia|]. apply Hend; [|done].
    unfold zone_at, path_of. by rewrite (proj2 (Z.ltb_lt _ _) Hn). }
  rewrite (u32_small (n - 7)) by lia.
  assert (forall sl e (s' : mfs), path_of bs n = PVia sl e -> 0 <= e < ni -> slot_there bs zs sl -> fstate s' V L ∅ zs ->
    wp (if slot_zone bs V zs sl =? NO_ZONE then mret NO_BLOCK
        else o ← read_indirect rip (u32 (Z.shiftl (slot_zone bs V zs sl) (s_log_zone_size G))) (i32 e) false false;
          match o with None => mret NO_BLOCK | Some z => if z =? NO_ZONE then mret NO_BLOCK else mret (u32 (Z.shiftl z (s_log_zone_size G) + 0)) end)
      (fun b s' => b = zone_at bs V zs n /\ fstate s' V L ∅ zs) s') as Hvia.
  { intros sl e s' Hp He Hth Hs'. unfold NO_ZONE at 1. unfold zone_at in *. rewrite Hp in *.
    destruct (Z.eqb_spec (slot_zone bs V zs sl) 0) as [E|E]; [apply wp_ret; split; [by rewrite E|done]|].
    rewrite i32_id by lia. apply wp_bind. eapply fwp_read_single; [done|done|by eapply slot_wf|done|done|].
    intros s2 Hs2 _. by apply Hend. }
  destruct (path_excess n ltac:(lia)) as [[Hlt Hp]|(Hge & Hp & Hi & He)].
  - rewrite (proj2 (Z.ltb_lt _ _) Hlt). apply wp_bind, wp_bind. eapply fwp_get_zone; [done|lia|]. apply wp_ret.
    apply (Hvia SInd (n - 7)); [done|lia|done|done].
  - rewrite (proj2 (Z.ltb_ge _ _) Hge). apply wp_bind, wp_bind. eapply fwp_get_zone; [done|lia|]. change (7 + 1) with 8.
    unfold NO_ZONE at 1. destruct (Z.eqb_spec (zone_n zs 8) 0) as [E8|E8].
    { apply wp_ret, wp_ret. split; [|done]. unfold zone_at. rewrite Hp. cbn [slot_zone]. unfold entry. by rewrite E8. }
    set (x := n - 7 - ni) in *. rewrite (u32_small x) by lia. change (i_dev (set_i_zone zs r)) with (i_dev r). rewrite Hr3. destruct (sb_dev _ _ _ _ HG) as [_ Hdev].
    apply wp_bind, wp_assert; [by apply negb_true_iff, Z.eqb_neq|].
    apply wp_bind, (wp_lift _ (x / ni)); [unfold udiv; by replace (ni =? 0) with false by lia|].
    rewrite (i32_id (x / ni)), (u32_small (x / ni)) by lia. rewrite (proj2 (Z.ltb_ge _ _)) by lia.
    destruct (f_double _ _ _ _ Hf) as [?|(Hz8 & [d8 Hd8] & Hw8)]; [done|].
    apply wp_bind. rewrite zone_block by by right.
    destruct (wf2_word V (zone_n zs 8) d8 (x / ni) (f_double _ _ _ _ Hf) E8 Hd8 Hi) as [_ Hw1].
    eapply fwp_read_indirect; [done|done|done|exact Hd8|done|by eapply wf1_ref|]. intros s1 Hs1.
    apply wp_bind, (wp_lift _ (x `mod` ni)); [unfold umod; by replace (ni =? 0) with false by lia|]. apply wp_ret. cbn [fmap option_fmap option_map].
    assert (word d8 (x / ni) = slot_zone bs V zs (SDbl (x / ni))) as Ez.
    { cbn [slot_zone]. symmetry. by apply entry_known. }
    rewrite Ez. by apply Hvia.
Qed.
(** ** Writing the map *)

(** A block is taken with its contents, or zeroed. *)
Lemma fwp_open_block {A} (k : nat -> M (@mfs C) A) s V L zs z (new : bool) (Q : A -> mfs -> Prop) :
  fstate s V L ∅ zs -> data_zone G z -> (length L < MINBUFS)%nat -> (new = false -> is_Some (V !! z)) ->
  (forall bp s', fstate s' (if new then <[z := zeros bs]> V else V) ((bp, z) :: L) ∅ zs -> wp (k bp) Q s') ->
  wp (bp ← get_block dev z (if new then NO_READ else NORMAL); when new (zero_block bp);; k bp) Q s.
Proof using HG.
  clear Hr Hrip. intros Hs Hz HL Hk HQ. apply wp_bind. destruct new.
  - eapply zwp_get; [apply Hs|done|done|done|]. intros bp s1 d H1 Hok _ Hz1. unfold after_get in Hz1. rewrite decide_False in Hz1 by (intros [? _]; done).
    apply wp_bind, wp_when; [|done]. intros _. eapply zwp_zero; [exact Hz1|left|done|rewrite lookup_insert_eq; by eexists|].
    intros s2 H2 Hz2. rewrite insert_insert_eq in Hz2. apply HQ. eapply fstate_step; [exact Hs|by eapply same_inodes_trans|].
    by replace ((({[z]} ∪ ∅) ∖ {[z]}) : gset Z) with (∅ : gset Z) in Hz2 by set_solver.
  - destruct (Hk eq_refl) as [d Hd]. eapply zwp_get_known; [apply Hs|done|done|done|]. intros bp s1 H1 Hz1.
    apply wp_bind, wp_when; [done|]. intros _. apply HQ. by eapply fstate_step.
Qed.

Lemma fwp_locate_single s V L T zs n op (Q : ecode + wmap -> mfs -> Prop) :
  fstate s V L T zs -> file_ok bs G V zs -> 7 <= n -> path_of bs n = PVia SInd (n - 7) ->
  Q (inr (mk_wmap true (zone_n zs 7) NO_ZONE None 0 (n - 7) false)) s ->
  wp (locate_indirect rip op 7 ni (n - 7)) Q s.
Proof using HG Hr Hrip.
  intros Hs Hf Hn Hp HQ. unfold locate_indirect. apply wp_bind. eapply fwp_super; [done|]. intros q _.
  apply wp_bind. eapply fwp_inode; [done|]. unfold path_of in Hp. destruct (n <? 7); [done|]. destruct (n - 7 <? ni); [|done].
  apply wp_bind. eapply fwp_get_zone; [done|rewrite (f_length _ _ _ _ Hf); unfold V2_NR_TZONES; lia|]. by apply wp_ret.
Qed.

Lemma fwp_dbl_entry s V L zs (new : bool) z2 i e (Q : ecode + wmap -> mfs -> Prop) :
  let V' := if new then <[zone_n zs 8 := zeros bs]> V else V in
  fstate s V L ∅ zs -> (length L < MINBUFS)%nat -> file_ok bs G V' zs -> zone_n zs 8 <> 0 -> 0 <= i < ni ->
  (forall bp s', fstate s' V' ((bp, zone_n zs 8) :: L) ∅ zs ->
     Q (inr (mk_wmap false (slot_zone bs V' zs (SDbl i)) z2 (Some bp) i e false)) s') ->
  wp (bp ← get_block dev (zone_n zs 8) (if new then NO_READ else NORMAL); when new (zero_block bp);;
      z1 ← rd_indir (Some bp) i; mret (inr (mk_wmap false z1 z2 (Some bp) i e false))) Q s.
Proof using HG.
  clear Hr Hrip. intros V' Hs HL Hf Hne Hi HQ.
  destruct (slot_entry bs G V' zs i (f_double _ _ _ _ Hf) (conj Hi Hne)) as (d & Hd & Ez & _ & Hw).
  destruct (f_double _ _ _ _ Hf) as [?|(Hz & _)]; [done|].
  eapply fwp_open_block; [exact Hs|done|done|intros ->; by eexists|]. intros bp s1 Hs1. fold V' in Hs1.
  apply wp_bind. eapply zwp_rd_indir; [apply Hs1|left|exact Hd|done|by eapply wf1_ref|]. apply wp_ret. rewrite <- Ez. by apply HQ.
Qed.

Lemma fwp_locate s V L zs R n sl e op X V0 (Q : ecode + wmap -> mfs -> Prop) :
  fstate s V L ∅ zs -> owned V zs R -> (length L < MINBUFS)%nat -> 7 <= n < max_zones bs -> path_of bs n = PVia sl e ->
  safe X V0 V zs sl ->
  (forall s', is_free op = false -> fstate s' V L ∅ zs -> (forall x, data_zone G x -> x ∈ fp bs V zs ++ R) -> Q (inl ENOSPC) s') ->
  (forall w s' V' zs' L', located V' zs' sl e w L L' -> fstate s' V' L' ∅ zs' -> owned V' zs' R -> safe X V0 V' zs' sl ->
     same_at V zs V' zs' -> (is_free op = false -> slot_there bs zs' sl) ->
     (is_free op = true -> V' = V /\ zs' = zs /\ (sl = SInd \/ wm_z2 w = zone_n zs 8)) -> Q (inr w) s') ->
  wp (locate_indirect rip op 7 ni (n - 7)) Q s.
Proof using HG Hr Hrip.
  intros Hs Ho HL Hn Hp HX Hfull HQ. pose proof max_zones_bound as Hmx. pose proof (o_file _ _ _ Ho) as Hf.
  pose proof (f_length _ _ _ _ Hf) as Hlen. unfold V2_NR_TZONES in Hlen.
  destruct (path_excess n Hn) as [[Hlt Hp']|(Hge & Hp' & Hi & He)]; rewrite Hp' in Hp; injection Hp as <- <-.
  { eapply fwp_locate_single; [done|done|lia|done|]. eapply HQ; [|done|done|done|done|done|]; [by split|]. intros _. split_and!; [done|done|by left]. }
  set (i := (n - 7 - ni) / ni) in *. set (e := (n - 7 - ni) `mod` ni) in *.
  unfold locate_indirect. apply wp_bind. eapply fwp_super; [done|]. intros q _. apply wp_bind. eapply fwp_inode; [done|].
  cbn [s_log_zone_size set_s_zsearch i_dev set_i_zone]. rewrite (proj2 (proj2 Hr)), (proj2 (Z.ltb_ge _ _) Hge).
  apply wp_bind. eapply fwp_get_zone; [done|lia|]. change (7 + 1) with 8.
  assert (forall z (new : bool) (s' : mfs) V' zs', z = zone_n zs' 8 -> fstate s' V' L ∅ zs' -> (z <> 0 -> data_zone G z) ->
     (new = true -> z <> 0) -> (z = 0 -> is_free op = true) ->
     let V2 := if new then <[z := zeros bs]> V' else V' in
     owned V2 zs' R -> safe X V0 V2 zs' (SDbl i) -> same_at V zs V2 zs' -> (is_free op = true -> V2 = V /\ zs' = zs) ->
     wp (let excess := n - 7 - ni in
         q ← lift (sdiv excess ni);
         let ind_ex := i32 q in
         excess ← lift (srem excess ni);
         if ni <=? ind_ex then mret (inl EFBIG)
         else if (z =? NO_ZONE) && is_free op then mret (inr (mk_wmap false NO_ZONE (zone_n zs 8) None ind_ex excess false))
         else
           bp ← get_block dev (u32 (Z.shiftl z (s_log_zone_size G))) (if new then NO_READ else NORMAL);
           when new (zero_block bp);;
           z1 ← rd_indir (Some bp) ind_ex;
           mret (inr (mk_wmap false z1 (zone_n zs 8) (Some bp) ind_ex excess false))) Q s') as Htail.
  { intros z new s' V' zs' -> Hs' Hdz Hnew Hz V2 Ho' HX' Hsame Hfree. cbv zeta.
    apply wp_bind, (wp_lift _ i); [apply sdiv_ok; lia|]. rewrite i32_id by lia.
    apply wp_bind, (wp_lift _ e). { unfold srem. replace (ni =? 0) with false by lia. by rewrite Z.rem_mod_nonneg by lia. }
    rewrite (proj2 (Z.leb_gt _ _)) by lia. unfold NO_ZONE. destruct (Z.eqb_spec (zone_n zs' 8) 0) as [E8|E8]; cbn [andb].
    - specialize (Hz E8). destruct new; [by destruct (Hnew eq_refl)|]. rewrite Hz. apply wp_ret. destruct (Hfree Hz) as [EV ->].
      change V2 with V' in *. subst V'. eapply HQ; [|done..| |].
      + split; [done| |done|done|]; [|cbn; split; [done|by left]]. cbn [slot_zone wm_z1]. unfold entry. by rewrite E8.
      + congruence.
      + intros _. split_and!; [done|done|by right].
    - rewrite zone_block by by right; apply Hdz. eapply fwp_dbl_entry; [exact Hs'|done|apply Ho'|done|done|].
      intros bp s2 Hs2. fold V2 in Hs2 |- *. eapply HQ; [|exact Hs2|done..| |].
      + split; [done..|]. cbn. split; [done|]. right. by eexists.
      + intros _. by split.
      + intros Hop. destruct (Hfree Hop) as [EV ->]. split_and!; [done|done|by right]. }

  unfold NO_ZONE. destruct (Z.eqb_spec (zone_n zs 8) 0) as [E8|E8]; cbn [andb].
  - destruct (is_free op) eqn:Eop; cbn [negb].
    + apply wp_bind, wp_ret. apply (Htail (zone_n zs 8) false s V zs); try done.
    + apply wp_bind, wp_bind. eapply fwp_get_zone; [done|lia|].
      pose proof (direct_lookup bs G V zs 0 Hf ltac:(lia)) as [E0 _].
      apply wp_bind. eapply fwp_alloc; [done|done|done|apply zone_word; by apply (proj1 (Forall_lookup _ _) (f_direct _ _ _ _ Hf) _ _ E0)| |].
      * intros s1 Hs1 Herr Hall. unfold NO_ZONE. cbn [Z.eqb]. apply wp_ret, wp_bind, wp_gets. rewrite Herr. apply wp_ret. by apply Hfull.
      * intros x s1 Hx Hnew Hs1 Ho1. pose proof (data_zone_ne bs bs_ok G first_pos x Hx) as Hne.
        unfold NO_ZONE. rewrite (proj2 (Z.eqb_neq _ _) Hne). apply wp_bind. eapply fwp_set_zone; [done|lia|].
        intros s2 _ _ Hs2. apply wp_ret.
        assert (zone_used bs G V x = false) as Hfree by (apply not_true_is_false; intros Hu; by apply Hnew, (o_exact _ _ _ Ho)).
        destruct (new_dbl s V L ∅ zs R x X V0 i (proj1 Hs) Ho E8 Hx Hfree Ho1 Hi HX) as (Ho2 & Hsame & E8' & _ & HX').
        change (Z.to_nat 8) with 8%nat in Hs2.
        apply (Htail x true s2 (mark_zone bs G V x true) (<[8%nat := x]> zs)); [by symmetry|done|done|done|by intros ->|done|done|done|congruence].
  - apply wp_bind, wp_ret. destruct (f_double _ _ _ _ Hf) as [?|(Hz & _)]; [done|].
    apply (Htail (zone_n zs 8) false s V zs); try done.
Qed.
(** The reference to the single indirect block is written, in the inode or in a buffer that is then not clean. *)
Definition slot_dirt (zs : list Z) (sl : slot) T : gset Z := match sl with SInd => T | SDbl _ => {[zone_n zs 8]} ∪ T end.

Lemma fwp_set_ref s V0 V zs sl e w L L' L1 T z (Q : unit -> mfs -> Prop) :
  fstate s V (L1 ++ L') T zs -> located V0 zs sl e w L L' -> slot_there bs zs sl -> length zs = V2_NR_TZONES -> ref_ok G z ->
  (sl <> SInd -> data_zone G (zone_n zs 8) /\ is_Some (V !! zone_n zs 8)) ->
  (forall s', err_code s' = err_code s -> fstate s' (set_slot_blocks V zs sl z) (L1 ++ L') (slot_dirt zs sl T) (set_slot_zones zs sl z) -> Q tt s') ->
  wp (if wm_single w then set_zone rip 7 z else wr_indir (wm_dindir w) (wm_ind_ex w) z) Q s.
Proof using HG Hrip.
  clear Hr. intros Hs Hlo Hth Hl Hz Hd HQ. rewrite (lo_single _ _ _ _ _ _ _ Hlo). pose proof (lo_dindir _ _ _ _ _ _ _ Hlo) as Hdi.
  destruct sl as [|i]; cbn [bool_decide].
  - rewrite bool_decide_eq_true_2 by done. eapply fwp_set_zone; [done|rewrite Hl; unfold V2_NR_TZONES; lia|].
    intros s' _ He' Hs'. by apply HQ.
  - rewrite bool_decide_eq_false_2 by done. destruct Hdi as [-> [(_ & _ & E8)|(bp & -> & -> & E8)]]; [by destruct (proj2 Hth)|].
    destruct (Hd ltac:(done)) as [Hdz [d8 Hd8]]. eapply zwp_wr_indir; [apply Hs|apply elem_of_app; right; left|done|exact Hd8|apply Hth|done|].
    intros s' H1 Hz'. apply HQ; [apply H1|]. cbn [set_slot_blocks set_slot_zones slot_dirt]. rewrite Hd8. by eapply fstate_step.
Qed.

(** The reference is written, and its buffer marked. *)
Lemma fwp_link {A} (k : M (@mfs C) A) s V0 V zs sl e w L L' T z (Q : A -> mfs -> Prop) :
  fstate s V L' T zs -> located V0 zs sl e w L L' -> slot_there bs zs sl -> length zs = V2_NR_TZONES -> ref_ok G z ->
  (sl <> SInd -> data_zone G (zone_n zs 8) /\ is_Some (V !! zone_n zs 8)) -> zone_n zs 8 ∉ T ->
  (forall s', err_code s' = err_code s -> fstate s' (set_slot_blocks V zs sl z) L' T (set_slot_zones zs sl z) -> wp k Q s') ->
  wp ((if wm_single w then set_zone rip 7 z else wr_indir (wm_dindir w) (wm_ind_ex w) z);;
      match wm_dindir w with Some bp => MARKDIRTY bp | None => skip end;; k) Q s.
Proof using HG Hrip.
  clear Hr. intros Hs Hlo Hth Hl Hz Hd HT HQ. apply wp_bind. eapply (fwp_set_ref s V0 V zs sl e w L L' []); [done..|].
  intros s1 He1 Hs1. apply wp_bind. pose proof (lo_dindir _ _ _ _ _ _ _ Hlo) as Hdi. destruct sl as [|i].
  - destruct Hdi as [-> ->]. by apply HQ.
  - destruct Hdi as [_ [(_ & _ & E8)|(bp & -> & -> & E8)]]; [by destruct (proj2 Hth)|].
    eapply zwp_mark_dirty; [apply Hs1|left|]. intros s2 H2 Hz2. apply HQ; [rewrite <- He1; apply H2|]. eapply fstate_step; [exact Hs1|done|].
    cbn [slot_dirt] in Hz2. by replace ((({[zone_n zs 8]} ∪ T) ∖ {[zone_n zs 8]}) : gset Z) with (T : gset Z) in Hz2 by set_solver.
Qed.
(** The double indirect block is put back. *)
Lemma fwp_put_dindir s V0 zs0 V zs sl e w L L' (Q : unit -> mfs -> Prop) :
  fstate s V L' ∅ zs -> located V0 zs0 sl e w L L' -> (forall s', err_code s' = err_code s -> fstate s' V L ∅ zs -> Q tt s') ->
  wp (put_block_opt (wm_dindir w) INDIRECT_BLOCK) Q s.
Proof using HG.
  clear Hr Hrip. intros Hs Hlo HQ. pose proof (lo_dindir _ _ _ _ _ _ _ Hlo) as Hdi.
  assert (wm_dindir w = None /\ L' = L \/ exists bp b, wm_dindir w = Some bp /\ L' = (bp, b) :: L) as [[-> ->]|(bp & b & -> & ->)].
  { destruct sl; [by left|]. destruct Hdi as [_ [(-> & -> & _)|(bp & -> & -> & _)]]; [by left|right]. by eexists _, _. }
  - by apply HQ.
  - eapply zwp_put; [apply Hs|set_solver|]. intros s' H1 H2. apply HQ; [apply H1|]. by eapply fstate_step.
Qed.

Lemma fwp_create s V zs R sl e w L L' (Q : ecode + wmap -> mfs -> Prop) :
  fstate s V L' ∅ zs -> owned V zs R -> located V zs sl e w L L' -> slot_there bs zs sl -> (S (length L) < MINBUFS)%nat ->
  (wm_z1 w <> 0 -> Q (inr w) s) ->
  (forall s', fstate s' V L ∅ zs -> (forall x, data_zone G x -> x ∈ fp bs V zs ++ R) -> Q (inl ENOSPC) s') ->
  (forall x s', data_zone G x -> zone_used bs G V x = false -> slot_zone bs V zs sl = 0 -> owned (mark_zone bs G V x true) zs (x :: R) ->
     fstate s' (set_slot_blocks (mark_zone bs G V x true) zs sl x) L' ∅ (set_slot_zones zs sl x) ->
     Q (inr (mk_wmap (wm_single w) x (wm_z2 w) (wm_dindir w) (wm_ind_ex w) (wm_excess w) true)) s') ->
  wp (create_indirect rip 0 7 w) Q s.
Proof using HG Hr Hrip.
  intros Hs Ho Hlo Hth HL Hold Hfull Hnew. pose proof (o_file _ _ _ Ho) as Hf. pose proof (f_length _ _ _ _ Hf) as Hlen.
  pose proof (located_pins _ _ _ _ _ _ _ Hlo) as HL'. unfold create_indirect, NO_ZONE.
  destruct (Z.eqb_spec (wm_z1 w) 0) as [E0|E0]; cbn [andb]; [|by apply wp_ret, Hold].
  cbn [is_free anyset Z.land Z.eqb negb]. apply wp_bind. eapply fwp_inode; [done|]. cbn [i_dev set_i_zone]. rewrite (proj2 (proj2 Hr)).
  apply wp_bind. eapply fwp_get_zone; [done|rewrite Hlen; unfold V2_NR_TZONES; lia|].
  pose proof (direct_lookup bs G V zs 0 Hf ltac:(lia)) as [Ez0 _].
  rewrite (lo_z1 _ _ _ _ _ _ _ Hlo) in E0.
  apply wp_bind. eapply fwp_alloc; [done|done|lia|apply zone_word; by apply (proj1 (Forall_lookup _ _) (f_direct _ _ _ _ Hf) _ _ Ez0)| |].
  - intros s1 Hs1 Herr Hall. pose proof (set_slot_id V zs sl Hf Hth (zrep_blocks _ _ _ _ (proj1 Hs))) as [EV Ezs]. rewrite E0 in EV, Ezs.
    eapply fwp_link; [exact Hs1|exact Hlo|done|done|by left|by apply slot_dbl|done|]. unfold NO_ZONE. rewrite EV, Ezs.
    intros s2 He2 Hs2. cbn [Z.eqb]. apply wp_bind. eapply fwp_put_dindir; [exact Hs2|exact Hlo|]. intros s3 He3 Hs3.
    apply wp_bind, wp_gets. rewrite He3, He2, Herr. apply wp_ret. by apply Hfull.
  - intros x s1 Hx Hn Hs1 Ho1. pose proof (data_zone_ne bs bs_ok G first_pos x Hx) as Hne.
    eapply fwp_link; [exact Hs1|exact Hlo|done|done|by right| |done|].
    + intros Hsl. eapply slot_dbl; [apply Ho1|done|done].
    + intros s2 He2 Hs2. rewrite (proj2 (Z.eqb_neq _ _) Hne). apply wp_ret. apply Hnew; [done| |done|done|done].
      apply not_true_is_false. intros Hu. by apply Hn, (o_exact _ _ _ Ho).
Qed.
(** The entry of the new zone is written, into a block that may be new. *)
Lemma fwp_update_set s V zs R sl e w L' z (Q : Z -> mfs -> Prop) :
  let V2 := if wm_new_ind w then <[wm_z1 w := zeros bs]> V else V in
  fstate s V L' ∅ zs -> owned V2 zs (z :: R) -> slot_there bs zs sl -> slot_zone bs V2 zs sl = wm_z1 w -> wm_z1 w <> 0 ->
  (length L' < MINBUFS)%nat -> 0 <= e < ni -> wm_excess w = e ->
  (forall d s', V2 !! wm_z1 w = Some d -> blocks_ok bs V2 -> fstate s' (<[wm_z1 w := put_word d e z]> V2) L' ∅ zs -> Q (wm_z1 w) s') ->
  wp (update_indirect rip 0 7 z w) Q s.
Proof using HG Hr Hrip.
  intros V2 Hs Ho Hth Ez Hne HL He Ee HQ. pose proof max_zones_bound as Hmx.
  pose proof (slot_wf bs G V2 zs sl (o_file _ _ _ Ho) Hth) as Hw. rewrite Ez in Hw.
  destruct Hw as [?|(Hz1 & [d Hd] & _)]; [done|]. pose proof (o_rest _ _ _ Ho) as HR. apply Forall_cons in HR as [Hz _].
  unfold update_indirect. apply wp_bind. eapply fwp_super; [done|]. intros q _. apply wp_bind. eapply fwp_inode; [done|].
  cbn [s_log_zone_size set_s_zsearch i_dev set_i_zone]. rewrite (proj2 (proj2 Hr)), Ee, i32_id by lia. unfold NO_ZONE at 1.
  rewrite (proj2 (Z.eqb_neq _ _) Hne). rewrite zone_block by by right.
  eapply fwp_open_block; [exact Hs|done|done| |].
  { intros Hn. unfold V2 in Hd. rewrite Hn in Hd. by eexists. }
  intros bp s1 Hs1. fold V2 in Hs1. cbn [is_free anyset Z.land Z.eqb negb].
  apply wp_bind, wp_bind. eapply zwp_wr_indir; [apply Hs1|left|done|exact Hd|done|by right|]. intros s2 H2 Hz2. apply wp_ret.
  unfold NO_ZONE. rewrite (proj2 (Z.eqb_neq _ _) Hne).
  apply wp_bind. eapply zwp_mark_dirty; [exact Hz2|left|]. intros s3 H3 Hz3.
  apply wp_bind. eapply zwp_put; [exact Hz3|set_solver|]. intros s4 H4 Hz4. apply wp_ret.
  apply (HQ d); [done|exact (zrep_blocks _ _ _ _ (proj1 Hs1))|].
  eapply fstate_step; [exact Hs1|eapply same_inodes_trans; [exact H2|by eapply same_inodes_trans]|].
  by replace ((({[wm_z1 w]} ∪ ∅) ∖ {[wm_z1 w]}) : gset Z) with (∅ : gset Z) in Hz4 by set_solver.
Qed.

Lemma fwp_release_set s V0 zs0 V zs sl e w w' L L' (Q : unit -> mfs -> Prop) :
  fstate s V L' ∅ zs -> located V0 zs0 sl e w L L' -> wm_dindir w' = wm_dindir w -> wm_z1 w' <> 0 ->
  (forall s', fstate s' V L ∅ zs -> Q tt s') -> wp (release_dindir rip 7 (wm_z1 w') w') Q s.
Proof using HG Hrip.
  clear Hr. intros Hs Hlo Ed Hne HQ. unfold release_dindir. apply wp_bind. eapply fwp_super; [done|]. intros q _.
  apply wp_bind. eapply fwp_inode; [done|]. unfold NO_ZONE. rewrite (proj2 (Z.eqb_neq _ _) Hne). cbn [andb].
  apply wp_bind, wp_ret. rewrite Ed. eapply fwp_put_dindir; [exact Hs|exact Hlo|]. intros s' _. apply HQ.
Qed.
Lemma fwp_set_via s V zs R n sl e w L L' z X V0 (Q : ecode -> mfs -> Prop) :
  fstate s V L' ∅ zs -> owned V zs (z :: R) -> located V zs sl e w L L' -> slot_there bs zs sl -> (S (length L) < MINBUFS)%nat ->
  safe X V0 V zs sl -> 0 <= n < max_zones bs -> path_of bs n = PVia sl e -> zone_at bs V zs n = 0 ->
  (forall s', fstate s' V L ∅ zs -> (forall x, data_zone G x -> x ∈ fp bs V zs ++ z :: R) -> Q ENOSPC s') ->
  (forall s' V' zs', fstate s' V' L ∅ zs' -> owned V' zs' R -> (forall b, X b -> V' !! b = V0 !! b) ->
     (forall m, 0 <= m < max_zones bs -> zone_at bs V' zs' m = if decide (m = n) then z else zone_at bs V zs m) -> Q OK s') ->
  wp (c ← create_indirect rip 0 7 w;
      match c with
      | inl e => mret e
      | inr w => z1 ← update_indirect rip 0 7 z w; release_dindir rip 7 z1 w;; mret OK
      end) Q s.
Proof using HG Hr Hrip.
  intros Hs Ho Hlo Hth HL HX Hn Hp E0 Hfull HQ. pose proof (path_of_ok bs bs_ok n Hn) as He. rewrite Hp in He. destruct He as [_ He].
  pose proof (o_file _ _ _ Ho) as Hf. pose proof (located_pins _ _ _ _ _ _ _ Hlo) as HL'.
  pose proof (lo_z1 _ _ _ _ _ _ _ Hlo) as Ez1. apply wp_bind.
  eapply fwp_create; [exact Hs|exact Ho|exact Hlo|done|done| | |].
  - intros Hne. apply wp_bind. eapply fwp_update_set; rewrite ?(lo_old _ _ _ _ _ _ _ Hlo);
      [exact Hs|exact Ho|exact Hth|by symmetry|done|lia|exact He|exact (lo_excess _ _ _ _ _ _ _ Hlo)|].
    intros d s1 Hd Hb Hs1. rewrite Ez1 in Hne, Hd, Hs1. destruct (owned_enter V zs sl e n R z d) as [Ho' Hat]; [done..|].
    apply wp_bind. eapply (fwp_release_set s1 V zs _ zs sl e w w); [exact Hs1|exact Hlo|done|by rewrite Ez1|].
    intros s2 Hs2. apply wp_ret. eapply HQ; [exact Hs2|done| |done].
    intros b Hb'. destruct (HX b Hb') as (_ & _ & _ & Hsl & HV). rewrite lookup_insert_ne; [done|by apply not_eq_sym].
  - intros s1 Hs1 Hall. by apply wp_ret, Hfull.
  - intros x s1 Hx Hfree Hsl0 Ho1 Hs1. pose proof (data_zone_ne bs bs_ok G first_pos x Hx) as Hne.
    set (V1 := mark_zone bs G V x true) in *. set (V2 := <[x := zeros bs]> (set_slot_blocks V1 zs sl x)).
    set (zs2 := set_slot_zones zs sl x) in *.
    pose proof (mark_slot s V L' ∅ zs sl x true (proj1 Hs) Hx Hf Hth) as Esl. fold V1 in Esl. rewrite Hsl0 in Esl.
    assert (blocks_ok bs V1) as Hb1.
    { apply mark_blocks; [done|]. exact (zrep_blocks _ _ _ _ (proj1 Hs)). }
    destruct (owned_open V1 zs sl (z :: R) x) as (Ho2 & Ez2 & E8 & Hsame); [done|done|done|done|].
    fold V2 zs2 in Ho2, Ez2, E8, Hsame.
    assert (slot_there bs zs2 sl) as Hth2.
    { destruct sl as [|i]; [done|]. cbn [slot_there] in *. by rewrite E8. }
    assert (same_at V zs V2 zs2) as Hsame2.
    { eapply same_at_trans; [|exact Hsame]. eapply mark_same; [apply Hs|done|done]. }
    apply wp_bind. eapply fwp_update_set; cbn [wm_new_ind wm_z1 wm_excess];
      [exact Hs1|exact Ho2|exact Hth2|exact Ez2|done|lia|exact He|exact (lo_excess _ _ _ _ _ _ _ Hlo)|].
    intros d s2 Hd Hb Hs2. fold V2 in Hd, Hb, Hs2. pose proof (owned_enter V2 zs2 sl e n R z d) as Hent.
    rewrite Ez2 in Hent. destruct Hent as [Ho3 Hat]; [done|done|done|done|done|done|done|by rewrite (proj2 Hsame2)|].
    apply wp_bind. eapply (fwp_release_set s2 V zs _ zs2 sl e w); [exact Hs2|exact Hlo|done|done|].
    intros s3 Hs3. apply wp_ret. eapply HQ; [exact Hs3|done| |].
    + intros b Hb'. destruct (safe_open s V L' ∅ zs sl x X V0 (proj1 Hs) Hx Hfree HX b Hb') as [Hbx HV].
      rewrite lookup_insert_ne by (by apply not_eq_sym). exact HV.
    + intros m Hm. etransitivity; [exact (Hat m Hm)|]. by rewrite (proj2 Hsame2).
Qed.
Lemma fwp_markdirty s V L T zs r0 (Q : unit -> mfs -> Prop) :
  zrep s V L T -> inodes s = <[rip := set_i_zone zs r0]> l0 -> r = set_i_dirt IN_DIRTY r0 ->
  (forall s', fstate s' V L T zs -> Q tt s') -> wp (IN_MARKDIRTY rip) Q s.
Proof using HG Hrip.
  clear Hr. intros Hs Hi Er HQ. destruct (z_super _ _ _ _ _ _ _ _ Hs) as (q & Hq & Esb).
  unfold IN_MARKDIRTY. apply wp_bind, wp_gets. rewrite Esb. cbn [s_rd_only set_s_zsearch]. rewrite (sb_rw _ _ _ _ HG). cbn [Z.eqb negb].
  assert (inodes s !! rip = Some (set_i_zone zs r0)) as Hl by (rewrite Hi; by apply list_lookup_insert_eq).
  unfold upd_inode, get_inode_slot. apply wp_bind, wp_bind, wp_gets. eapply wp_deref; [exact Hl|]. apply wp_modify, HQ.
  split; [destruct Hs; by split|]. cbn [inodes with_inodes]. by rewrite Hi, list_insert_insert_eq, Er.
Qed.

(** The start of [write_map]: the number of the zone, and the two ways to it. *)
Lemma fwp_write_map s V L zs r0 position z op (Q : ecode -> mfs -> Prop) :
  zrep s V L ∅ -> inodes s = <[rip := set_i_zone zs r0]> l0 -> r = set_i_dirt IN_DIRTY r0 ->
  0 <= position -> position / bs < max_zones bs -> length zs = V2_NR_TZONES ->
  (position / bs < 7 -> forall s', fstate s' V L ∅ zs -> let k := position / bs in
    wp (if negb (zone_n zs k =? NO_ZONE) && is_free op then free_zone dev (zone_n zs k);; set_zone rip k NO_ZONE;; mret OK
        else set_zone rip k z;; mret OK) Q s') ->
  (7 <= position / bs -> forall s', fstate s' V L ∅ zs ->
    wp (l ← locate_indirect rip op 7 ni (position / bs - 7);
        match l with
        | inl e => mret e
        | inr w =>
            c ← create_indirect rip op 7 w;
            match c with
            | inl e => mret e
            | inr w => z1 ← update_indirect rip op 7 z w; release_dindir rip 7 z1 w;; mret OK
            end
        end) Q s') ->
  wp (write_map rip position z op) Q s.
Proof using HG Hr Hrip.
  intros Hs Hi Er Hpos Hmax Hl Hdir Hvia. pose proof max_zones_bound as Hmx. pose proof bs_ok as Hb.
  assert (0 <= position / bs) as Hn0 by (apply Z.div_pos; lia).
  unfold write_map. apply wp_bind. eapply fwp_markdirty; [exact Hs|exact Hi|exact Er|]. intros s1 Hs1.
  apply wp_bind. eapply fwp_super; [exact Hs1|]. intros q _. apply wp_bind. eapply fwp_inode; [exact Hs1|].
  cbn [s_log_zone_size s_block_size set_s_zsearch i_ndzones i_nindirs i_dev set_i_zone]. rewrite (sb_size _ _ _ _ HG), (sb_scale _ _ _ _ HG).
  destruct Hr as (-> & -> & ->). apply wp_bind, (wp_lift _ (position / bs)); [apply sdiv_ok; lia|].
  rewrite Z.shiftr_0_r, i32_id by lia. destruct (Z.ltb_spec (position / bs) 7) as [Hn|Hn]; [|by apply Hvia].
  apply wp_bind. eapply fwp_get_zone; [exact Hs1|rewrite Hl; unfold V2_NR_TZONES; lia|]. by apply Hdir.
Qed.

Lemma write_map_set s V L zs R z position r0 :
  zrep s V L ∅ -> inodes s = <[rip := set_i_zone zs r0]> l0 -> r = set_i_dirt IN_DIRTY r0 ->
  owned V zs (z :: R) -> (S (length L) < MINBUFS)%nat -> 0 <= position -> position / bs < max_zones bs ->
  zone_at bs V zs (position / bs) = 0 ->
  wp (write_map rip position z 0) (fun e s' => exists V' zs', fstate s' V' L ∅ zs' /\
    (forall b, data_zone G b -> zone_used bs G V b = true -> ~ indirect V zs (position / bs) b -> V' !! b = V !! b) /\
    ((e = OK /\ owned V' zs' R /\
      forall m, 0 <= m < max_zones bs -> zone_at bs V' zs' m = if decide (m = position / bs) then z else zone_at bs V zs m) \/
     (e = ENOSPC /\ owned V' zs' (z :: R) /\ (forall m, 0 <= m < max_zones bs -> zone_at bs V' zs' m = zone_at bs V zs m) /\
      forall x, data_zone G x -> zone_used bs G V' x = true))) s.
Proof using HG Hr Hrip.
  intros Hs Hi Er Ho HL Hpos Hmax E0. set (n := position / bs) in *. pose proof (o_file _ _ _ Ho) as Hf.
  assert (0 <= n) as Hn0 by (apply Z.div_pos; pose proof bs_ok; lia).
  pose proof (o_rest _ _ _ Ho) as HR. apply Forall_cons in HR as [Hz HR].
  assert (forall V' zs', owned V' zs' (z :: R) -> (forall x, data_zone G x -> x ∈ fp bs V' zs' ++ z :: R) ->
    forall x, data_zone G x -> zone_used bs G V' x = true) as Hfull.
  { intros V' zs' Ho' Hall x Hx. apply (o_exact _ _ _ Ho'); [done|]. by apply Hall. }
  eapply fwp_write_map; [exact Hs|exact Hi|exact Er|exact Hpos|exact Hmax|apply Hf| |]; fold n.
  - intros Hn s1 Hs1 k. cbn [is_free anyset Z.land Z.eqb negb]. rewrite andb_false_r. unfold k.
    apply wp_bind. eapply fwp_set_zone; [exact Hs1|rewrite (f_length _ _ _ _ Hf); unfold V2_NR_TZONES; lia|].
    intros s2 _ _ Hs2. apply wp_ret. unfold zone_at, path_of in E0. rewrite (proj2 (Z.ltb_lt _ _) Hn) in E0.
    destruct (owned_direct V zs n z (z :: R) R) as [Ho' Hat]; [done|lia|by right|done| |].
    { rewrite E0. unfold leaf. by rewrite (proj2 (Z.eqb_neq _ _) (data_zone_ne bs bs_ok G first_pos z Hz)). }
    exists V, (<[Z.to_nat n := z]> zs). split; [exact Hs2|]. split; [done|]. left. split; [done|]. split; [exact Ho'|].
    intros m Hm. apply Hat. lia.
  - intros Hn s1 Hs1. destruct (path_of bs n) as [k|sl e] eqn:Hp.
    { unfold path_of in Hp. rewrite (proj2 (Z.ltb_ge _ _) Hn) in Hp. destruct (n - 7 <? ni); done. }
    set (X b := data_zone G b /\ zone_used bs G V b = true /\ ~ indirect V zs n b).
    assert (safe X V V zs sl) as HX.
    { intros b (H1 & H2 & H3). unfold indirect in H3. rewrite Hp in H3. split_and!; [done|done|tauto|tauto|done]. }
    apply wp_bind. eapply fwp_locate; [exact Hs1|exact Ho|lia|lia|exact Hp|exact HX| |].
    + intros s2 _ Hs2 Hall. apply wp_ret. exists V, zs. split; [exact Hs2|]. split; [done|]. right.
      split; [done|]. split; [exact Ho|]. split; [done|]. by apply (Hfull V zs).
    + intros w s2 V1 zs1 L1 Hlo Hs2 Ho1 HX1 Hsame Hth _.
      eapply (fwp_set_via s2 V1 zs1 R n); [exact Hs2|exact Ho1|exact Hlo|by apply Hth|exact HL|exact HX1|lia|exact Hp|by rewrite (proj2 Hsame)| |].
      * intros s3 Hs3 Hall. exists V1, zs1. split; [exact Hs3|]. split; [intros b H1 H2 H3; by apply HX1|].
        right. split; [done|]. split; [exact Ho1|]. split; [apply Hsame|]. by apply (Hfull V1 zs1).
      * intros s3 V2 zs2 Hs3 Ho2 HX2 Hat. exists V2, zs2. split; [exact Hs3|]. split; [intros b H1 H2 H3; by apply HX2|].
        left. split; [done|]. split; [exact Ho2|]. intros m Hm. rewrite (Hat m Hm). case_decide; [done|]. by apply Hsame.
Qed.
(** The reference is taken away in the double indirect block, and its buffer marked. *)
Lemma fwp_unlink s V0 V zs sl e w L L' L1 T (Q : unit -> mfs -> Prop) :
  fstate s V (L1 ++ L') T zs -> located V0 zs sl e w L L' -> slot_there bs zs sl -> length zs = V2_NR_TZONES ->
  (sl <> SInd -> data_zone G (zone_n zs 8) /\ is_Some (V !! zone_n zs 8)) -> (forall i, sl = SDbl i -> zone_n zs 8 ∉ T) ->
  (forall s', fstate s' (set_slot_blocks V zs sl 0) (L1 ++ L') T (set_slot_zones zs sl 0) -> Q tt s') ->
  wp (if wm_single w then set_zone rip 7 NO_ZONE
      else wr_indir (wm_dindir w) (wm_ind_ex w) NO_ZONE;; dp ← deref (wm_dindir w); MARKDIRTY dp) Q s.
Proof using HG Hrip.
  clear Hr. intros Hs Hlo Hth Hl Hd HT HQ. pose proof (lo_single _ _ _ _ _ _ _ Hlo) as Esi. pose proof (lo_dindir _ _ _ _ _ _ _ Hlo) as Hdi.
  assert (forall Q' : unit -> mfs -> Prop,
    (forall s', fstate s' (set_slot_blocks V zs sl 0) (L1 ++ L') (slot_dirt zs sl T) (set_slot_zones zs sl 0) -> Q' tt s') ->
    wp (if wm_single w then set_zone rip 7 0 else wr_indir (wm_dindir w) (wm_ind_ex w) 0) Q' s) as Href.
  { intros Q' HQ'. eapply (fwp_set_ref s V0 V zs sl e w L L' L1); [done..|by left|done|]. intros s' _. apply HQ'. }
  destruct sl as [|i].
  - rewrite bool_decide_eq_true_2 in Esi by done. rewrite Esi in *. by apply Href.
  - rewrite bool_decide_eq_false_2 in Esi by done. rewrite Esi in *. apply wp_bind, Href. intros s1 Hs1.
    destruct Hdi as [_ [(_ & _ & E8)|(dp & Edp & -> & E8)]]; [by destruct (proj2 Hth)|]. rewrite Edp.
    apply wp_bind, (wp_deref _ dp); [done|]. eapply zwp_mark_dirty; [apply Hs1|apply elem_of_app; right; left|].
    intros s2 H2 Hz2. apply HQ. eapply fstate_step; [exact Hs1|done|]. specialize (HT i eq_refl). cbn [slot_dirt] in Hz2.
    by replace (({[zone_n zs 8]} ∪ T) ∖ {[zone_n zs 8]} : gset Z) with (T : gset Z) in Hz2 by set_solver.
Qed.

(** ** Freeing through the map *)

Lemma fwp_free_entry {A} (k : M (@mfs C) A) s V L zs R sl e n d bp (Q : A -> mfs -> Prop) :
  fstate s V ((bp, slot_zone bs V zs sl) :: L) ∅ zs -> owned V zs R -> slot_there bs zs sl -> slot_zone bs V zs sl <> 0 ->
  V !! slot_zone bs V zs sl = Some d -> 0 <= n < max_zones bs -> path_of bs n = PVia sl e -> (S (length L) < MINBUFS)%nat ->
  (forall s' V1 T1, fstate s' V1 ((bp, slot_zone bs V zs sl) :: L) T1 zs -> owned V1 zs R -> T1 ⊆ {[slot_zone bs V zs sl]} ->
     is_Some (V1 !! slot_zone bs V zs sl) -> (forall sl', slot_zone bs V1 zs sl' = slot_zone bs V zs sl') -> freed V zs n V1 zs -> wp k Q s') ->
  wp (old_zone ← rd_indir (Some bp) e;
      when (negb (old_zone =? NO_ZONE)) (free_zone dev old_zone;; wr_indir (Some bp) e NO_ZONE);; k) Q s.
Proof using HG.
  clear Hr Hrip. intros Hs Ho Hth Hne Hd Hn Hp HL HQ. pose proof (path_of_ok bs bs_ok n Hn) as He. rewrite Hp in He. destruct He as [_ He].
  pose proof (slot_wf bs G V zs sl (o_file _ _ _ Ho) Hth) as Hw. destruct (wf1_word V _ d e Hw Hne Hd He) as [Hz1 Href].
  set (z1 := slot_zone bs V zs sl) in *.
  apply wp_bind. eapply zwp_rd_indir; [apply Hs|left|exact Hd|done|done|]. unfold NO_ZONE at 1. apply wp_bind, wp_when.
  - intros Hold%negb_true_iff%Z.eqb_neq. destruct (owned_remove s V _ ∅ zs R sl e n d (proj1 Hs) Ho Hth Hne Hd Hn Hp Hold)
      as (Hdo & Hu & Ho1 & Esl & Hat & Hfr). fold z1 in Ho1, Esl, Hat, Hfr.
    apply wp_bind. eapply fwp_free; [exact Hs|done|done|cbn; lia|]. intros s1 Hs1.
    eapply zwp_wr_indir; [apply Hs1|left|done| |done|by left|].
    { rewrite mark_ne; [exact Hd|done|by apply data_not_map]. }
    intros s2 H2 Hz2. eapply HQ; [eapply fstate_step; [exact Hs1|exact H2|exact Hz2]|exact Ho1|set_solver| |exact Esl|].
    + rewrite lookup_insert_eq. by eexists.
    + split; [exact Hat|]. intros b Hb Hni. apply Hfr; [done|]. intros ->. apply Hni. unfold indirect. rewrite Hp. by right.
  - intros Hold%negb_false_iff%Z.eqb_eq. eapply HQ; [exact Hs|exact Ho|set_solver|by eexists|done|]. split; [|done].
    intros m Hm. case_decide as E; [|done]. subst m. unfold zone_at. rewrite Hp, (entry_known V _ e d) by done. exact Hold.
Qed.

(** The rest of [update_indirect]: the single indirect block is freed with its last entry. *)
Lemma fwp_drop_single s V L L' T zs R sl e V0 w bp sb (Q : Z -> mfs -> Prop) :
  fstate s V ((bp, slot_zone bs V zs sl) :: L') T zs -> owned V zs R -> slot_there bs zs sl -> slot_zone bs V zs sl <> 0 ->
  is_Some (V !! slot_zone bs V zs sl) -> T ⊆ {[slot_zone bs V zs sl]} -> located V0 zs sl e w L L' -> (S (length L') < MINBUFS)%nat ->
  slot_zone bs V zs sl ∉ L.*2 -> s_block_size sb = bs ->
  (forall s' V' zs', fstate s' V' L' ∅ zs' -> owned V' zs' R -> same_at V zs V' zs' -> zone_n zs' 8 = zone_n zs 8 ->
     others sl V zs V' zs' -> busy V' zs' sl ->
     (forall b, data_zone G b -> b <> slot_zone bs V zs sl -> b <> zone_n zs 8 -> V' !! b = V !! b) -> Q (slot_zone bs V' zs' sl) s') ->
  wp (z1 ← (e ← empty_indir (Some bp) sb;
            if (e : bool) then
              free_zone dev (slot_zone bs V zs sl);;
              (if wm_single w then set_zone rip 7 NO_ZONE
               else
                 wr_indir (wm_dindir w) (wm_ind_ex w) NO_ZONE;;
                 dp ← deref (wm_dindir w); MARKDIRTY dp);;
              mret NO_ZONE
            else mret (slot_zone bs V zs sl));
      (if z1 =? NO_ZONE then MARKCLEAN bp else MARKDIRTY bp);;
      put_block bp INDIRECT_BLOCK;;
      mret z1) Q s.
Proof using HG Hrip.
  clear Hr. intros Hs Ho Hth Hne [d Hd] HT Hlo HL HnL Esb HQ. pose proof (o_file _ _ _ Ho) as Hf.
  set (z1 := slot_zone bs V zs sl) in *.
  assert (z1 ∉ L'.*2) as HnL'.
  { pose proof (lo_dindir _ _ _ _ _ _ _ Hlo) as Hdi. destruct sl as [|i]; [by destruct Hdi as [_ ->]|].
    destruct Hdi as [_ [(_ & -> & _)|(dp & _ & -> & _)]]; [done|]. rewrite fmap_cons, not_elem_of_cons. split; [|done]. cbn [snd].
    intros E. apply (slot_sep V zs (SDbl i) R z1 Ho Hth); [|rewrite E; apply dbl_in_rest].
    apply elem_of_app. left. by apply tree1_in. }
  apply wp_bind, wp_bind. eapply zwp_empty; [apply Hs|left|exact Hd|done|]. intros em Hem. destruct em.
  - pose proof (proj1 Hem eq_refl) as Hall.
    destruct (owned_drop s V _ T zs R sl (proj1 Hs) Ho Hth Hne Hall) as (Hz1 & Hu & Ho1 & E8 & Hsame & Es0 & Hoth & Hfr).
    fold z1 in Hz1, Hu, Ho1, E8, Hsame, Es0, Hoth, Hfr.
    apply wp_bind. eapply fwp_free; [exact Hs|done|done|cbn; lia|]. intros s1 Hs1.
    assert (forall Q' : unit -> mfs -> Prop,
      (forall s', fstate s' (set_slot_blocks (mark_zone bs G V z1 false) zs sl 0) ((bp, z1) :: L') T (set_slot_zones zs sl 0) -> Q' tt s') ->
      wp (if wm_single w then set_zone rip 7 NO_ZONE
          else wr_indir (wm_dindir w) (wm_ind_ex w) NO_ZONE;; dp ← deref (wm_dindir w); MARKDIRTY dp) Q' s1) as Hset.
    { intros Q' HQ'. apply (fwp_unlink s1 V0 (mark_zone bs G V z1 false) zs sl e w L L' [(bp, z1)] T); [done|done|done|apply Hf| | |done].
      - intros Hsl. destruct (slot_dbl V zs sl Hf Hth Hsl) as [H8 Hk8]. split; [done|]. by rewrite mark_ne by (done || by apply data_not_map).
      - intros i ->. intros H8. apply HT, elem_of_singleton in H8. apply (slot_sep V zs (SDbl i) R z1 Ho Hth); [|rewrite <- H8; apply dbl_in_rest].
        apply elem_of_app. left. by apply tree1_in. }
    apply wp_bind, Hset. intros s2 Hs2. apply wp_ret. cbn [Z.eqb NO_ZONE].
    apply wp_bind. eapply zwp_mark_clean; [apply Hs2|left|done|]. intros s3 H3 Hz3.
    apply wp_bind. eapply zwp_put_lost; [exact Hz3|done|set_solver|exact HnL'|]. intros s4 H4 Hz4. apply wp_ret.
    refine (eq_ind _ (fun x => Q x s4) _ 0 Es0). eapply HQ; [|exact Ho1|exact Hsame|exact E8|exact Hoth|by intros ?|exact Hfr]. eapply fstate_step; [exact Hs2|by eapply same_inodes_trans|].
    by replace (({[z1]} ∪ T) ∖ {[z1]} : gset Z) with (∅ : gset Z) in Hz4 by set_solver.
  - apply wp_ret. unfold NO_ZONE. rewrite (proj2 (Z.eqb_neq _ _) Hne).
    apply wp_bind. eapply zwp_mark_dirty; [apply Hs|left|]. intros s3 H3 Hz3.
    apply wp_bind. eapply zwp_put; [exact Hz3|set_solver|]. intros s4 H4 Hz4. apply wp_ret.
    eapply HQ; [|exact Ho|done|done|done| |done].
    2:{ intros _. eapply not_empty_entry; [exact Hd|done|]. intros Hall. by apply Hem in Hall. }
    eapply fstate_step; [exact Hs|by eapply same_inodes_trans|].
    by replace (T ∖ {[z1]} : gset Z) with (∅ : gset Z) in Hz4 by set_solver.
Qed.
Lemma fwp_update_free s V zs R n sl e w L L' z (Q : Z -> mfs -> Prop) :
  fstate s V L' ∅ zs -> owned V zs R -> located V zs sl e w L L' -> 0 <= n < max_zones bs -> path_of bs n = PVia sl e ->
  (S (length L') < MINBUFS)%nat -> (forall b, b ∈ L.*2 -> b ∉ fp bs V zs) ->
  (forall s' V' zs', fstate s' V' L' ∅ zs' -> owned V' zs' R -> freed V zs n V' zs' -> zone_n zs' 8 = zone_n zs 8 ->
     others sl V zs V' zs' -> busy V' zs' sl -> Q (slot_zone bs V' zs' sl) s') ->
  wp (update_indirect rip WMAP_FREE 7 z w) Q s.
Proof using HG Hr Hrip.
  intros Hs Ho Hlo Hn Hp HL HnL HQ. pose proof max_zones_bound as Hmx. pose proof (path_of_ok bs bs_ok n Hn) as He. rewrite Hp in He. destruct He as [Hsl He].
  pose proof (o_file _ _ _ Ho) as Hf.
  unfold update_indirect. apply wp_bind. eapply fwp_super; [exact Hs|]. intros q _. apply wp_bind. eapply fwp_inode; [exact Hs|].
  cbn [s_log_zone_size set_s_zsearch i_dev set_i_zone]. rewrite (proj2 (proj2 Hr)).
  rewrite (lo_z1 _ _ _ _ _ _ _ Hlo), (lo_excess _ _ _ _ _ _ _ Hlo), (lo_old _ _ _ _ _ _ _ Hlo), i32_id by lia. unfold NO_ZONE at 1.
  destruct (Z.eqb_spec (slot_zone bs V zs sl) 0) as [E0|Hne].
  { apply wp_ret. eapply HQ; [exact Hs|exact Ho| |done|done|by intros ?]. split; [|done]. intros m Hm. case_decide as E; [|done]. subst m.
    unfold zone_at. rewrite Hp, E0. done. }
  assert (slot_there bs zs sl) as Hth.
  { destruct sl as [|i]; [done|]. split; [exact Hsl|]. intros E8. apply Hne. cbn [slot_zone]. unfold entry. by rewrite E8. }
  pose proof (slot_wf bs G V zs sl Hf Hth) as Hw. destruct Hw as [?|(Hz1 & [d Hd] & _)]; [done|]. rewrite zone_block by by right.
  assert (slot_zone bs V zs sl ∉ L.*2) as HnL1.
  { intros Hin. apply (HnL _ Hin). rewrite (fp_slot bs G V zs sl Hf Hth). apply elem_of_app. left. by apply tree1_in. }
  eapply (fwp_open_block _ s V L' zs _ false); [exact Hs|done|lia|intros _; by eexists|]. intros bp s1 Hs1.
  change (is_free WMAP_FREE) with true. cbv iota.
  change (wp (z1 ← (old_zone ← rd_indir (Some bp) e;
                    when (negb (old_zone =? NO_ZONE)) (free_zone dev old_zone;; wr_indir (Some bp) e NO_ZONE);;
                    (fun e => e) (em ← empty_indir (Some bp) (set_s_zsearch q G);
                    if (em : bool) then
                      free_zone dev (slot_zone bs V zs sl);;
                      (if wm_single w then set_zone rip 7 NO_ZONE
                       else wr_indir (wm_dindir w) (wm_ind_ex w) NO_ZONE;; dp ← deref (wm_dindir w); MARKDIRTY dp);;
                      mret NO_ZONE
                    else mret (slot_zone bs V zs sl)));
              (if z1 =? NO_ZONE then MARKCLEAN bp else MARKDIRTY bp);;
              put_block bp INDIRECT_BLOCK;;
              mret z1) Q s1).
  apply wp_bind. eapply fwp_free_entry; [exact Hs1|exact Ho|exact Hth|done|exact Hd|exact Hn|exact Hp|lia|].
  intros s2 V1 T1 Hs2 Ho1 HT1 Hk1 Esl Hfr. cbv beta. apply wp_bind_inv. rewrite <- (Esl sl) in Hs2, HT1, Hk1, HnL1 |- *.
  eapply (fwp_drop_single s2 V1 L L' T1 zs R sl e V w bp (set_s_zsearch q G));
    [exact Hs2|exact Ho1|exact Hth|by rewrite (Esl sl)|exact Hk1|exact HT1|exact Hlo|exact HL|exact HnL1|apply HG|].
  intros s3 V2 zs2 Hs3 Ho2 Hsame E8 Hoth Hbusy Hfr2. rewrite (Esl sl) in Hfr2.
  eapply HQ; [exact Hs3|exact Ho2| |exact E8|intros sl' H1 H2; by rewrite (Hoth sl' H1 H2)|exact Hbusy].
  eapply freed_same; [exact Hfr|exact Hsame|]. intros b Hb Hni. unfold indirect in Hni. rewrite Hp in Hni. apply Hfr2; tauto.
Qed.

Lemma fwp_release_free s V zs R V0 zs0 sl e w L L' (Q : unit -> mfs -> Prop) :
  fstate s V L' ∅ zs -> owned V zs R -> located V0 zs0 sl e w L L' -> zone_n zs 8 = zone_n zs0 8 ->
  (sl = SInd \/ wm_z2 w = zone_n zs 8) -> (length L' < MINBUFS)%nat -> (zone_n zs 8 <> 0 -> zone_n zs 8 ∉ L.*2) ->
  (forall s' V' zs', fstate s' V' L ∅ zs' -> owned V' zs' R -> same_at V zs V' zs' ->
     (forall b, data_zone G b -> (sl = SInd \/ b <> zone_n zs 8) -> V' !! b = V !! b) ->
     (forall sl', slot_zone bs V' zs' sl' = slot_zone bs V zs sl') -> (forall sl', busy V zs sl' -> busy V' zs' sl') ->
     (sl = SInd -> zone_n zs' 8 = zone_n zs 8) -> (sl <> SInd -> dbl_busy V' zs') -> Q tt s') ->
  slot_ok bs sl -> wp (release_dindir rip 7 (slot_zone bs V zs sl) w) Q s.
Proof using HG Hr Hrip.
  intros Hs Ho Hlo E8 Hz2 HL HnL HQ Hok. pose proof (o_file _ _ _ Ho) as Hf.
  unfold release_dindir. apply wp_bind. eapply fwp_super; [exact Hs|]. intros q _. apply wp_bind. eapply fwp_inode; [exact Hs|].
  cbn [i_dev set_i_zone]. rewrite (proj2 (proj2 Hr)).
  assert ((sl <> SInd -> dbl_busy V zs) -> wp (put_block_opt (wm_dindir w) INDIRECT_BLOCK) Q s) as Hput.
  { intros Hbusy. eapply fwp_put_dindir; [exact Hs|exact Hlo|]. intros s' _ Hs'. by eapply HQ. }
  destruct ((slot_zone bs V zs sl =? NO_ZONE) && negb (wm_single w) && negb (wm_z2 w =? NO_ZONE)) eqn:Eb.
  2:{ apply wp_bind, wp_ret, Hput. intros Hsl. rewrite (lo_single _ _ _ _ _ _ _ Hlo), bool_decide_eq_false_2, andb_true_r in Eb by done.
      destruct Hz2 as [?|Ez2]; [done|]. rewrite Ez2 in Eb. unfold NO_ZONE in Eb. destruct sl as [|i]; [done|]. intros H8. exists i. split; [exact Hok|].
      intros E0. rewrite E0 in Eb. by rewrite (proj2 (Z.eqb_neq _ _) H8) in Eb. }
  apply andb_true_iff in Eb as [Eb Enz]. apply andb_true_iff in Eb as [_ Esi]. apply negb_true_iff in Esi. apply negb_true_iff, Z.eqb_neq in Enz.
  rewrite (lo_single _ _ _ _ _ _ _ Hlo) in Esi. apply bool_decide_eq_false in Esi.
  destruct Hz2 as [?|Ez2]; [done|]. rewrite Ez2 in Enz |- *. unfold NO_ZONE in Enz.
  pose proof (lo_dindir _ _ _ _ _ _ _ Hlo) as Hdi. destruct sl as [|i]; [done|].
  destruct Hdi as [_ [(_ & _ & E0)|(dp & Edp & EL & _)]]; [congruence|]. rewrite <- E8 in EL. rewrite Edp in *. subst L'.
  destruct (f_double _ _ _ _ Hf) as [?|(Hdz & [d8 Hd8] & _)]; [done|].
  apply wp_bind, wp_bind. eapply zwp_empty; [apply Hs|left|exact Hd8|apply HG|]. intros em Hem.
  apply wp_when.
  2:{ intros ->. apply Hput. intros _ _. apply (not_empty_entry V _ d8 Hd8 Enz). intros Hall. by apply Hem in Hall. }
  intros ->. pose proof (proj1 Hem eq_refl) as Hall.
  destruct (owned_drop_dbl s V _ ∅ zs R (proj1 Hs) Ho Enz Hall) as (_ & Hu & Ho1 & Hsame & E80 & Hslots & Hfr).
  apply wp_bind, (wp_deref _ dp); [done|]. apply wp_bind. eapply zwp_mark_clean; [apply Hs|left|done|]. intros s1 H1 Hz1.
  assert (fstate s1 V ((dp, zone_n zs 8) :: L) ({[zone_n zs 8]} ∪ ∅) zs) as Hs1 by by eapply fstate_step.
  apply wp_bind. eapply fwp_free; [exact Hs1|done|done|exact HL|]. intros s2 Hs2.
  eapply fwp_set_zone; [exact Hs2|rewrite (f_length _ _ _ _ Hf); unfold V2_NR_TZONES; lia|]. intros s3 _ _ Hs3.
  eapply zwp_put_lost; [apply Hs3|done|set_solver|by apply HnL|]. intros s4 H4 Hz4.
  eapply HQ; [|exact Ho1|exact Hsame|intros b Hb [?|?]; [done|by apply Hfr]|exact Hslots| |done|intros _ ?; by rewrite E80 in *].
  2:{ intros sl' Hbusy. unfold busy. rewrite Hslots. intros Hne. destruct (Hbusy Hne) as (e' & He' & Hx). exists e'. split; [done|].
      rewrite (entry_frame bs V); [done|]. intros _. destruct sl' as [|j].
      - destruct (f_single _ _ _ _ Hf) as [?|(Hd7 & _)]; [done|]. apply Hfr; [exact Hd7|]. intros E. cbn [slot_zone] in E.
        apply (slot_sep V zs SInd R (zone_n zs 7) Ho I); [apply elem_of_app; left; by apply tree1_in|]. rewrite E. by apply dbl_in_rest_ne.
      - destruct Hne. cbn [slot_zone]. by apply entry_empty1. }
  eapply fstate_step; [exact Hs3|exact H4|]. by replace (({[zone_n zs 8]} ∪ ∅) ∖ {[zone_n zs 8]} : gset Z) with (∅ : gset Z) in Hz4 by set_solver.
Qed.
Lemma fwp_free_direct s V L zs R k (Q : ecode -> mfs -> Prop) :
  fstate s V L ∅ zs -> owned V zs R -> 0 <= k < 7 -> (length L < MINBUFS)%nat ->
  (forall s' V' zs', fstate s' V' L ∅ zs' -> owned V' zs' R -> freed V zs k V' zs' -> (tight V zs -> tight V' zs') -> Q OK s') ->
  wp (if negb (zone_n zs k =? NO_ZONE) && is_free WMAP_FREE then free_zone dev (zone_n zs k);; set_zone rip k NO_ZONE;; mret OK
      else set_zone rip k NO_ZONE;; mret OK) Q s.
Proof using HG Hrip.
  clear Hr. intros Hs Ho Hk HL HQ. pose proof (o_file _ _ _ Ho) as Hf. change (is_free WMAP_FREE) with true. rewrite andb_true_r. unfold NO_ZONE.
  assert (forall m, 0 <= m < max_zones bs -> zone_at bs V (<[Z.to_nat k := 0]> zs) m = if decide (m = k) then 0 else zone_at bs V zs m) as Hat.
  { intros m Hm. destruct (owned_direct V zs k 0 R (leaf (zone_n zs k) ++ R)) as [_ Hat]; [done|lia|by left| |done|apply Hat; lia].
    apply Forall_app. split; [|apply Ho]. unfold leaf. destruct (Z.eqb_spec (zone_n zs k) 0); [constructor|]. constructor; [|constructor].
    destruct (direct_lookup bs G V zs k Hf Hk) as [E _]. by destruct (proj1 (Forall_lookup _ _) (f_direct _ _ _ _ Hf) _ _ E). }
  assert (0 <= k < Z.of_nat (length zs)) as Hkl by (rewrite (f_length _ _ _ _ Hf); unfold V2_NR_TZONES; lia).
  assert (forall V', (forall b, b ∈ fp bs V (<[Z.to_nat k := 0]> zs) -> V' !! b = V !! b) -> tight V zs -> tight V' (<[Z.to_nat k := 0]> zs)) as Htight.
  { intros V' Hfr Ht. assert (forall j, 7 <= j -> zone_n (<[Z.to_nat k := 0]> zs) j = zone_n zs j) as Ej.
    { intros j Hj. by rewrite zone_n_insert, decide_False by lia. }
    apply (tight_same V zs); [done| |apply Ej; lia|].
    - intros [|i]; cbn [slot_zone]; rewrite Ej by lia; [done|]. apply entry_frame. intros H8. apply Hfr. unfold fp.
      rewrite !elem_of_app, !Ej by lia. right. right. by apply tree2_in.
    - intros m Hm. rewrite (zone_at_frame bs V V' _ m Hfr), Hat, decide_False by lia. done. }
  destruct (Z.eqb_spec (zone_n zs k) 0) as [E0|Hne]; cbn [negb].
  - apply wp_bind. eapply fwp_set_zone; [exact Hs|done|]. intros s1 _ _ Hs1. apply wp_ret.
    destruct (owned_direct V zs k 0 R R) as [Ho' _]; [done|lia|by left|apply Ho|by rewrite E0|].
    eapply HQ; [exact Hs1|exact Ho'|by split|by apply Htight].
  - destruct (direct_lookup bs G V zs k Hf Hk) as [E _].
    destruct (proj1 (Forall_lookup _ _) (f_direct _ _ _ _ Hf) _ _ E) as [?|Hz]; [done|].
    destruct (owned_direct V zs k 0 R (zone_n zs k :: R)) as [Ho' _]; [done|lia|by left|constructor; [done|apply Ho]| |].
    { unfold leaf at 2. by rewrite (proj2 (Z.eqb_neq _ _) Hne). }
    apply wp_bind. eapply fwp_free; [exact Hs|done| |done|].
    { apply (o_exact _ _ _ Ho'); [done|]. rewrite elem_of_app, elem_of_cons. tauto. }
    intros s1 Hs1. apply wp_bind. eapply fwp_set_zone; [exact Hs1|done|]. intros s2 _ _ Hs2. apply wp_ret.
    assert (forall b, data_zone G b -> mark_zone bs G V (zone_n zs k) false !! b = V !! b) as Hfr by (intros b Hb; by apply mark_ne, data_not_map).
    assert (forall b, b ∈ fp bs V (<[Z.to_nat k := 0]> zs) -> mark_zone bs G V (zone_n zs k) false !! b = V !! b) as Hfr2.
    { intros b Hb. apply Hfr. by eapply fp_data; [apply Ho'|]. }
    eapply HQ; [exact Hs2| | |by apply Htight].
    + eapply owned_free_at; [exact (proj1 Hs)|exact Ho'| |exact Hfr2]. by intros b Hb.
    + split; [|by intros b Hb _; apply Hfr]. intros m Hm. rewrite (zone_at_frame bs V _ _ m Hfr2). by apply Hat.
Qed.

Lemma write_map_free s V L zs R position r0 :
  zrep s V L ∅ -> inodes s = <[rip := set_i_zone zs r0]> l0 -> r = set_i_dirt IN_DIRTY r0 ->
  owned V zs R -> (S (S (length L)) < MINBUFS)%nat -> (forall b, b ∈ L.*2 -> b ∉ fp bs V zs) ->
  0 <= position -> position / bs < max_zones bs ->
  wp (write_map rip position NO_ZONE WMAP_FREE) (fun e s' => e = OK /\ exists V' zs', fstate s' V' L ∅ zs' /\
    owned V' zs' R /\ freed V zs (position / bs) V' zs' /\ (tight V zs -> tight V' zs')) s.
Proof using HG Hr Hrip.
  intros Hs Hi Er Ho HL HnL Hpos Hmax. set (n := position / bs) in *. pose proof (o_file _ _ _ Ho) as Hf.
  assert (0 <= n) as Hn0 by (apply Z.div_pos; pose proof bs_ok; lia).
  eapply fwp_write_map; [exact Hs|exact Hi|exact Er|exact Hpos|exact Hmax|apply Hf| |]; fold n.
  - intros Hn s1 Hs1 k. eapply fwp_free_direct; [exact Hs1|exact Ho|unfold k; lia|lia|].
    intros s2 V2 zs2 Hs2 Ho2 Hfr Ht. split; [done|]. by exists V2, zs2.
  - intros Hn s1 Hs1. destruct (path_of bs n) as [k|sl e] eqn:Hp.
    { unfold path_of in Hp. rewrite (proj2 (Z.ltb_ge _ _) Hn) in Hp. destruct (n - 7 <? ni); done. }
    apply wp_bind. eapply (fwp_locate s1 V L zs R n sl e WMAP_FREE (fun _ => False) V); [exact Hs1|exact Ho|lia|lia|exact Hp|done|done|].
    intros w s2 V1 zs1 L1 Hlo Hs2 _ _ _ _ Hfree. destruct (Hfree eq_refl) as (-> & -> & Hz2).
    pose proof (located_pins _ _ _ _ _ _ _ Hlo) as HL1. unfold create_indirect. change (is_free WMAP_FREE) with true. rewrite andb_false_r.
    apply wp_bind, wp_ret, wp_bind. eapply (fwp_update_free s2 V zs R n); [exact Hs2|exact Ho|exact Hlo|lia|exact Hp|lia|exact HnL|].
    intros s3 V3 zs3 Hs3 Ho3 Hfr E8 Hoth Hbusy. apply wp_bind.
    assert (slot_ok bs sl) as Hok by (pose proof (path_of_ok bs bs_ok n ltac:(lia)) as He; rewrite Hp in He; apply He).
    eapply fwp_release_free; [exact Hs3|exact Ho3|exact Hlo|exact E8|by rewrite E8|lia| | |exact Hok].
    { intros H8 Hin. rewrite E8 in H8, Hin. apply (HnL _ Hin). unfold fp. rewrite !elem_of_app. right. right. by apply tree2_in. }
    intros s4 V4 zs4 Hs4 Ho4 Hsame Hfr4 Hslots Hbusy4 E84 Hdbl. apply wp_ret. split; [done|]. exists V4, zs4. split; [exact Hs4|]. split; [exact Ho4|]. split.
    2:{ intros Ht. split; [intros sl' Hok'; apply Hbusy4; by eapply freed_busy|]. destruct (decide (sl = SInd)) as [->|Hsl]; [|by apply Hdbl].
        unfold dbl_busy. rewrite E84, E8 by done. intros H8. destruct (proj2 Ht H8) as (i & Hi' & Hx). exists i. split; [done|].
        by rewrite Hslots, Hoth. }
    eapply freed_same; [exact Hfr|exact Hsame|]. intros b Hb Hni. unfold indirect in Hni. rewrite Hp in Hni.
    apply Hfr4; [done|]. right. rewrite E8. tauto.
Qed.
End rip.
End map.
