(* ===== verification/MfsTrunc.v ===== *)
(** * Truncating files of the MINIX file system

    The maps of [MfsMap] for one inode of the table, the blocks with the data of a file,
    and [truncate_inode]: the zones behind the new end are freed, the rest of the last
    block is zeroed, and nothing else changes. *)

From S2P Require Import Prelude KTypes BufCache Mfs MfsFile MfsBits MfsZones MfsTree MfsMap.
#[local] Open Scope Z_scope.

(** ** Data blocks are not indirect blocks *)

Section data.
Context (bs : Z) (Hbs : 4 <= bs < 65536 /\ bs `mod` 4 = 0) (G : super_block) (Hfirst : 0 < s_firstdatazone G).
Implicit Types (V : gmap Z (list Z)) (zs : list Z).
Notation ni := (bs / 4).

(** The indirect blocks of a file. *)
Definition meta V zs b : Prop := b <> 0 /\ (b = zone_n zs 8 \/ exists sl, slot_ok bs sl /\ b = slot_zone bs V zs sl).

Lemma tree1_frame1 V V' z : (z <> 0 -> V' !! z = V !! z) -> tree1 bs V' z = tree1 bs V z.
Proof using.
  clear. intros Hf. unfold tree1, ind. destruct (Z.eqb_spec z 0); [done|]. by rewrite Hf.
Qed.

Lemma wf1_frame1 V V' z : (z <> 0 -> V' !! z = V !! z) -> wf1 bs G V z -> wf1 bs G V' z.
Proof using Hfirst.
  clear Hbs. intros Hf [->|(Hz & Hk & Hr)]; [by left|right]. unfold ind in *. rewrite Hf by (unfold data_zone in Hz; lia). done.
Qed.

Lemma ind_entry V z j x : z <> 0 -> is_Some (V !! z) -> ind bs V z !! j = Some x -> exists i, 0 <= i < ni /\ j = Z.to_nat i /\ x = entry bs V z i.
Proof using.
  clear Hbs Hfirst. intros Hne Hk Hx. pose proof (lookup_lt_Some _ _ _ Hx) as Hlt. rewrite (ind_length bs) in Hlt by done.
  exists (Z.of_nat j). split; [lia|]. split; [lia|]. unfold entry. by rewrite (proj2 (Z.eqb_neq _ _) Hne), Nat2Z.id, Hx.
Qed.

Lemma tree2_frame1 V V' z : (z <> 0 -> is_Some (V !! z) /\ V' !! z = V !! z) ->
  (forall i, 0 <= i < ni -> entry bs V z i <> 0 -> V' !! entry bs V z i = V !! entry bs V z i) -> tree2 bs V' z = tree2 bs V z.
Proof using.
  clear Hbs Hfirst. intros Hf He. unfold tree2. destruct (Z.eqb_spec z 0) as [|Hne]; [done|]. destruct (Hf Hne) as [Hk Hz].
  assert (ind bs V' z = ind bs V z) as -> by (unfold ind; by rewrite Hz). f_equal. f_equal. apply list_fmap_ext.
  intros j x Hx. destruct (ind_entry V z j x Hne Hk Hx) as (i & Hi & -> & ->). apply tree1_frame1. by apply He.
Qed.

(** A file does not change with blocks that are not indirect. *)
Lemma file_data_frame V V' zs : file_ok bs G V zs -> (forall b, meta V zs b -> V' !! b = V !! b) ->
  file_ok bs G V' zs /\ fp bs V' zs = fp bs V zs.
Proof using Hfirst Hbs.
  intros [Hl Hd Hs1 Hs2 Hnd] Hf.
  assert (zone_n zs 7 <> 0 -> V' !! zone_n zs 7 = V !! zone_n zs 7) as H7 by (intros Hne; apply Hf; split; [done|right; by exists SInd]).
  assert (zone_n zs 8 <> 0 -> V' !! zone_n zs 8 = V !! zone_n zs 8) as H8 by (intros Hne; apply Hf; split; [done|by left]).
  assert (forall i, 0 <= i < ni -> entry bs V (zone_n zs 8) i <> 0 -> V' !! entry bs V (zone_n zs 8) i = V !! entry bs V (zone_n zs 8) i) as He
    by (intros i Hi Hne; apply Hf; split; [done|right; by exists (SDbl i)]).
  assert (zone_n zs 8 <> 0 -> is_Some (V !! zone_n zs 8)) as Hk8 by (intros Hne; by destruct Hs2 as [?|(_ & ? & _)]).
  assert (fp bs V' zs = fp bs V zs) as Efp.
  { unfold fp. rewrite (tree1_frame1 V V') by done. by rewrite (tree2_frame1 V V') by (done || by intros; split; auto). }
  split; [|done]. split; [done|done|by eapply wf1_frame1| |by rewrite Efp].
  destruct Hs2 as [E|(Hz & Hk & Hw)]; [by left|right]. assert (zone_n zs 8 <> 0) as Hne by (unfold data_zone in Hz; lia).
  assert (ind bs V' (zone_n zs 8) = ind bs V (zone_n zs 8)) as Ei by (unfold ind; by rewrite H8).
  split; [done|]. split; [by rewrite H8|]. rewrite Ei. apply Forall_lookup. intros j x Hx.
  destruct (ind_entry V _ j x Hne Hk Hx) as (i & Hi & -> & ->). eapply wf1_frame1; [by apply He|]. by eapply (proj1 (Forall_lookup _ _) Hw).
Qed.

Lemma slot_in_rest V zs sl sl' : file_ok bs G V zs -> slot_there bs zs sl -> slot_ok bs sl' -> sl' <> sl -> slot_zone bs V zs sl' <> 0 ->
  slot_zone bs V zs sl' ∈ slot_rest bs V zs sl.
Proof using.
  clear Hbs Hfirst. intros Hf Hth Hok Hne Hz. destruct sl as [|i], sl' as [|j]; [done| | |]; cbn [slot_rest slot_zone slot_ok] in *; rewrite ?elem_of_app, ?elem_of_cons.
  - right. by apply entry_in.
  - right. left. by apply tree1_in.
  - right. right. right. destruct (slot_entry bs G V zs i (f_double _ _ _ _ Hf) Hth) as (d & Hd & _). destruct Hth as [Hi H8].
    assert (j <> i) as Hji by congruence. unfold entry in *. rewrite (proj2 (Z.eqb_neq _ _) H8) in *.
    destruct (ind bs V (zone_n zs 8) !! Z.to_nat j) as [x|] eqn:Ex; [|done]. change (default 0 (Some x)) with x in *.
    destruct (delete_lookup_other _ (Z.to_nat i) (Z.to_nat j) x ltac:(lia) Ex) as [k Hk]. eapply elem_of_concat_fmap; [exact Hk|]. by apply tree1_in.
Qed.

Lemma data_not_meta V zs n : file_ok bs G V zs -> 0 <= n < max_zones bs -> zone_at bs V zs n <> 0 -> ~ meta V zs (zone_at bs V zs n).
Proof using Hfirst Hbs.
  intros Hf Hn Hz [_ Hm]. pose proof (path_of_ok bs Hbs n Hn) as Hp. pose proof (f_distinct _ _ _ _ Hf) as Hnd. unfold zone_at in *.
  destruct (path_of bs n) as [k|sl e].
  - rewrite (fp_direct bs G V zs k Hf Hp) in Hnd. unfold leaf in Hnd. rewrite (proj2 (Z.eqb_neq _ _) Hz) in Hnd.
    apply NoDup_cons in Hnd as [Hnd _]. apply Hnd. unfold direct_rest. rewrite !elem_of_app. right.
    destruct Hm as [E|([|i] & Hok & E)]; [right; rewrite E in Hz |- *; by apply tree2_in|left; rewrite E; cbn; apply tree1_in; by rewrite E in Hz|].
    right. rewrite E. apply entry_in. by rewrite E in Hz.
  - destruct Hp as [Hok He]. assert (slot_zone bs V zs sl <> 0) as Hsl by (intros E; rewrite E in Hz; done).
    assert (slot_there bs zs sl) as Hth.
    { destruct sl as [|i]; [done|]. split; [done|]. intros E8. apply Hsl. cbn [slot_zone]. unfold entry. by rewrite E8. }
    destruct (slot_wf bs G V zs sl Hf Hth) as [?|(_ & Hk & _)]; [done|].
    rewrite (fp_slot bs G V zs sl Hf Hth), (tree1_entry bs V _ e Hsl Hk He) in Hnd. unfold leaf in Hnd. rewrite (proj2 (Z.eqb_neq _ _) Hz) in Hnd.
    cbn [app] in Hnd. apply NoDup_cons in Hnd as [Hnd _]. unfold entry_rest in Hnd. cbn [app] in Hnd. apply not_elem_of_cons in Hnd as [Hne Hnd].
    apply not_elem_of_app in Hnd as [_ Hnd]. apply Hnd. destruct Hm as [E|(sl' & Hok' & E)].
    + rewrite E in Hz |- *. apply dbl_in_rest_ne; done.
    + destruct (decide (sl' = sl)) as [->|Hs]; [by rewrite E in Hne|]. rewrite E in Hz |- *. by apply slot_in_rest.
Qed.
Lemma slot_zone_frame1 V V' zs sl : (forall b, meta V zs b -> V' !! b = V !! b) -> slot_zone bs V' zs sl = slot_zone bs V zs sl.
Proof using.
  clear Hbs Hfirst G. intros Hf. destruct sl as [|i]; [done|]. cbn [slot_zone]. apply entry_frame. intros Hne. apply Hf. split; [done|by left].
Qed.

Lemma zone_at_frame1 V V' zs n : (forall b, meta V zs b -> V' !! b = V !! b) -> 0 <= n < max_zones bs ->
  zone_at bs V' zs n = zone_at bs V zs n.
Proof using Hbs.
  clear Hfirst G. intros Hf Hn. pose proof (path_of_ok bs Hbs n Hn) as Hp. unfold zone_at. destruct (path_of bs n) as [k|sl e]; [done|].
  destruct Hp as [Hok He]. rewrite (slot_zone_frame1 V V') by done. apply entry_frame. intros Hne. apply Hf. split; [done|right; by exists sl].
Qed.

Lemma meta_in_fp V zs b : file_ok bs G V zs -> meta V zs b -> b ∈ fp bs V zs.
Proof using.
  clear Hbs Hfirst. intros Hf [Hne Hm]. unfold fp. rewrite !elem_of_app. destruct Hm as [->|([|i] & Hok & ->)].
  - right. right. by apply tree2_in.
  - right. left. by apply tree1_in.
  - right. right. by apply entry_in.
Qed.

Lemma indirect_meta V zs n b : 0 <= n < max_zones bs -> b <> 0 -> indirect bs V zs n b -> meta V zs b.
Proof using Hbs.
  clear Hfirst G. intros Hn Hne. pose proof (path_of_ok bs Hbs n Hn) as Hp. unfold indirect. destruct (path_of bs n) as [k|sl e]; [done|].
  intros [->| ->]; split; [done|by left|done|right; exists sl; split; [apply Hp|done]].
Qed.
End data.

(** ** A file of the table of inodes *)

Section file.
Context {C : Type} `{BufCache C} (dev bs : Z) (own : Z -> Prop) `{!BufCacheLaws C dev bs own}.
Context (G : super_block) (HG : sb_ok dev bs own G).
Implicit Types (s : @mfs C) (V : gmap Z (list Z)) (L : list (nat * Z)) (R : list Z) (rip : nat) (r : inode).
Notation ni := (bs / 4).
Notation owned := (MfsMap.owned bs G).
Notation tight := (MfsMap.tight bs).
Notation freed := (MfsMap.freed bs G).
Notation data_zone := (data_zone G).

Definition inode_ok r : Prop := i_ndzones r = 7 /\ i_nindirs r = ni /\ i_dev r = dev.

(** The file system with the file of the slot [rip]; the zones [R] are in use elsewhere. *)
Record fs_state s V L rip r R : Prop := {
  fs_rep : zrep dev bs own G s V L ∅;
  fs_slot : inodes s !! rip = Some r;
  fs_inode : inode_ok r;
  fs_owned : owned V (i_zone r) R;
}.

Definition with_file rip r s s' : Prop := inodes s' = <[rip := r]> (inodes s).

Lemma with_file_trans rip r r' s1 s2 s3 : with_file rip r s1 s2 -> with_file rip r' s2 s3 -> with_file rip r' s1 s3.
Proof using. unfold with_file. intros H1 H2. by rewrite H2, H1, list_insert_insert_eq. Qed.

Lemma with_file_refl rip r s : inodes s !! rip = Some r -> with_file rip r s s.
Proof using. intros Hr. unfold with_file. by rewrite list_insert_id. Qed.

Lemma set_zone_id r : set_i_zone (i_zone r) r = r.
Proof using. by destruct r. Qed.

Lemma fs_fstate s V L rip r R : fs_state s V L rip r R -> fstate dev bs own G rip r (inodes s) s V L ∅ (i_zone r).
Proof using. intros [Hs Hr Hok Ho]. split; [done|]. by rewrite set_zone_id, list_insert_id. Qed.

Lemma fs_lt s V L rip r R : fs_state s V L rip r R -> (rip < length (inodes s))%nat.
Proof using. intros [Hs Hr Hok Ho]. by eapply lookup_lt_Some. Qed.

(** After a change of the inode. *)
Lemma fs_step s s' V V' L rip r0 r zs R R' : fs_state s V L rip r0 R -> fstate dev bs own G rip r (inodes s) s' V' L ∅ zs ->
  inode_ok r -> owned V' zs R' -> fs_state s' V' L rip (set_i_zone zs r) R' /\ with_file rip (set_i_zone zs r) s s'.
Proof using.
  intros Hs [Hz Hi] Hok Ho. split; [|done]. split; [done| |done|done]. rewrite Hi. apply list_lookup_insert_eq. by eapply fs_lt.
Qed.

Lemma map_read s V L rip r R position (Q : Z -> mfs -> Prop) :
  fs_state s V L rip r R -> (length L < MINBUFS)%nat -> 0 <= position -> position / bs < max_zones bs ->
  (forall s', fs_state s' V L rip r R -> with_file rip r s s' -> Q (zone_at bs V (i_zone r) (position / bs)) s') ->
  wp (read_map rip position false) Q s.
Proof using HG.
  intros Hs HL Hpos Hmax HQ.
  eapply wp_mono; [apply (read_map_ok dev bs own G HG rip r (inodes s) (fs_lt _ _ _ _ _ _ Hs) (fs_inode _ _ _ _ _ _ Hs) s V L (i_zone r));
    [by eapply fs_fstate|done|apply (fs_owned _ _ _ _ _ _ Hs)|done|done]|].
  intros b s' [-> Hs']. destruct (fs_step s s' V V L rip r r (i_zone r) R R Hs Hs') as [H1 H2]; [apply Hs|apply Hs|].
  rewrite set_zone_id in H1, H2. by apply HQ.
Qed.

Definition dirty r : inode := set_i_dirt IN_DIRTY r.

Lemma map_free s V L rip r R position (Q : ecode -> mfs -> Prop) :
  fs_state s V L rip r R -> (S (S (length L)) < MINBUFS)%nat -> (forall b, b ∈ L.*2 -> b ∉ fp bs V (i_zone r)) ->
  0 <= position -> position / bs < max_zones bs ->
  (forall s' V' zs', fs_state s' V' L rip (set_i_zone zs' (dirty r)) R -> with_file rip (set_i_zone zs' (dirty r)) s s' ->
     freed V (i_zone r) (position / bs) V' zs' -> (tight V (i_zone r) -> tight V' zs') -> Q OK s') ->
  wp (write_map rip position NO_ZONE WMAP_FREE) Q s.
Proof using HG.
  intros Hs HL HnL Hpos Hmax HQ.
  assert (inode_ok (dirty r)) as Hok by apply Hs.
  eapply wp_mono; [apply (write_map_free dev bs own G HG rip (dirty r) (inodes s) (fs_lt _ _ _ _ _ _ Hs) Hok s V L (i_zone r) R position r);
    [apply Hs|rewrite set_zone_id; symmetry; apply list_insert_id, Hs|done|apply Hs|done|done|done|done]|].
  intros e s' (-> & V' & zs' & Hs' & Ho' & Hfr & Ht).
  destruct (fs_step s s' V V' L rip r (dirty r) zs' R R Hs Hs' Hok Ho') as [H1 H2]. by eapply HQ.
Qed.
Notation zone_of V r := (zone_at bs V (i_zone r)).

(** Blocks of other files and data of the file that a change leaves alone. *)
Lemma rest_not_meta V zs R b : owned V zs R -> b ∈ R -> ~ meta bs V zs b /\ data_zone b.
Proof using.
  intros Ho Hb. pose proof (o_nodup _ _ _ _ _ Ho) as Hnd. split.
  - intros Hm. apply (meta_in_fp bs G) in Hm; [|apply Ho]. apply NoDup_app in Hnd as (_ & Hnd & _). by apply (Hnd b).
  - by eapply (proj1 (Forall_forall _ _) (o_rest _ _ _ _ _ Ho)).
Qed.

Definition pins_rest L R : Prop := forall b, b ∈ L.*2 -> b ∈ R.

Lemma pins_not_fp V zs L R : owned V zs R -> pins_rest L R -> forall b, b ∈ L.*2 -> b ∉ fp bs V zs.
Proof using.
  intros Ho HL b Hb Hf. pose proof (o_nodup _ _ _ _ _ Ho) as Hnd. apply NoDup_app in Hnd as (_ & Hnd & _). apply (Hnd b Hf). by apply HL.
Qed.

(** What the inode says but for its zones. *)
Definition attrs r : Z * Z * Z := (i_mode r, i_size r, i_num r).

Lemma free_zones_ok n : forall s V L rip r R p, fs_state s V L rip r R -> pins_rest L R -> (S (S (length L)) < MINBUFS)%nat ->
  0 <= p -> p + Z.of_nat n <= max_zones bs ->
  wp (free_zones n rip p bs) (fun e s' => e = OK /\ exists V' r', fs_state s' V' L rip r' R /\ with_file rip r' s s' /\ attrs r' = attrs r /\
    (forall m, 0 <= m < max_zones bs -> zone_of V' r' m = if decide (p <= m < p + Z.of_nat n) then 0 else zone_of V r m) /\
    (forall b, b ∈ R \/ (exists m, 0 <= m < max_zones bs /\ ~ p <= m < p + Z.of_nat n /\ b = zone_of V r m /\ b <> 0) -> V' !! b = V !! b) /\
    (tight V (i_zone r) -> tight V' (i_zone r'))) s.
Proof using HG.
  pose proof (bs_ok dev bs own G HG) as Hbs. pose proof (first_pos dev bs own G HG) as Hfp.
  induction n as [|n IH]; intros s V L rip r R p Hs Hpin HL Hp Hmax; cbn [free_zones].
  { apply wp_ret. split; [done|]. exists V, r. split; [done|]. split; [apply with_file_refl, Hs|]. split; [done|]. split; [|done].
    intros m Hm. by rewrite decide_False by lia. }
  assert (p * bs / bs = p) as Ep by (apply Z.div_mul; lia).
  apply wp_bind. eapply map_free; [exact Hs|done|by eapply pins_not_fp, Hpin; apply Hs|lia|lia|]. rewrite Ep.
  intros s1 V1 zs1 Hs1 Hw1 [Hat Hfr] Ht. rewrite bool_decide_eq_true_2 by done.
  eapply wp_mono; [apply (IH s1 V1 L rip _ R (p + 1) Hs1 Hpin HL); lia|].
  intros e s' (-> & V' & r' & Hs' & Hw' & Ha & Hat' & Hfr' & Ht'). cbn [i_zone set_i_zone] in *.
  pose proof (o_file _ _ _ _ _ (fs_owned _ _ _ _ _ _ Hs)) as Hf.
  assert (forall b, b <> 0 -> data_zone b -> ~ meta bs V (i_zone r) b -> V1 !! b = V !! b) as Hfr1.
  { intros b Hb Hd Hm. apply Hfr; [done|]. intros Hi. apply Hm. eapply indirect_meta; [done| |done|exact Hi]. lia. }
  split; [done|]. exists V', r'. split; [done|]. split; [by eapply with_file_trans|]. split; [rewrite Ha; done|]. split; [|split; [|tauto]].
  - intros m Hm. rewrite (Hat' m Hm), (Hat m Hm).
    destruct (decide (p + 1 <= m < p + 1 + Z.of_nat n)), (decide (m = p)), (decide (p <= m < p + Z.of_nat (S n))); done || lia.
  - intros b Hb. destruct Hb as [Hb|(m & Hm & Hr & Hbm & Hne)].
    + destruct (rest_not_meta V _ R b (fs_owned _ _ _ _ _ _ Hs) Hb) as [Hm Hd]. rewrite (Hfr' b) by by left.
      apply Hfr1; [|done|done]. by apply (data_zone_ne bs Hbs G).
    + rewrite (Hfr' b).
      * rewrite Hbm in Hne |- *. destruct (zone_at_ref dev bs own G HG V (i_zone r) m Hf Hm) as [?|Hd]; [done|].
        apply Hfr1; [done|done|]. by apply (data_not_meta bs Hbs G Hfp).
      * right. exists m. split; [done|]. split; [lia|]. split; [|done]. rewrite (Hat m Hm), decide_False by lia. done.
Qed.
(** ** The data of a block *)

(** The block [b] of a file gets the contents [d]. *)
Lemma fs_set_data s s' V L rip r R b d : fs_state s V L rip r R -> same_inodes s s' -> data_zone b -> ~ meta bs V (i_zone r) b ->
  zrep dev bs own G s' (<[b := d]> V) L ∅ ->
  fs_state s' (<[b := d]> V) L rip r R /\ with_file rip r s s' /\
  (forall m, 0 <= m < max_zones bs -> zone_of (<[b := d]> V) r m = zone_of V r m) /\
  (tight V (i_zone r) -> tight (<[b := d]> V) (i_zone r)).
Proof using HG.
  intros Hs (_ & Hi & _) Hb Hm Hz. pose proof (bs_ok dev bs own G HG) as Hbs. pose proof (first_pos dev bs own G HG) as Hfp.
  pose proof (fs_owned _ _ _ _ _ _ Hs) as Ho. pose proof (o_file _ _ _ _ _ Ho) as Hf.
  assert (forall b', meta bs V (i_zone r) b' -> <[b := d]> V !! b' = V !! b') as Hfr by (intros b' Hm'; apply lookup_insert_ne; by intros <-).
  destruct (file_data_frame bs Hbs G Hfp V (<[b := d]> V) (i_zone r) Hf Hfr) as [Hf' Efp].
  assert (forall m, 0 <= m < max_zones bs -> zone_of (<[b := d]> V) r m = zone_of V r m) as Hat by (intros m Hmm; by apply zone_at_frame1).
  split; [|split; [|split; [done|]]].
  - split; [done|by rewrite Hi; apply Hs|apply Hs|]. eapply (owned_move dev bs own G HG V); [exact Ho|exact Hf'|apply Ho|by rewrite Efp|].
    intros b' Hb'. apply lookup_insert_ne. intros <-. by apply (data_not_map dev bs own G HG b).
  - unfold with_file. rewrite Hi. symmetry. apply list_insert_id, Hs.
  - intros Ht. apply (tight_same dev bs own G HG V (i_zone r)); [done| |done|intros m Hmm; apply Hat; lia].
    intros sl. by apply slot_zone_frame1.
Qed.

(** [len] bytes from [off] on are zero. *)
Definition zero_bytes (off len : Z) (d : list Z) : list Z := take (Z.to_nat off) d ++ replicate (Z.to_nat len) 0 ++ drop (Z.to_nat (off + len)) d.

Lemma zero_bytes_ok off len d : 0 <= off -> 0 <= len -> off + len <= bs -> block_ok bs d -> block_ok bs (zero_bytes off len d).
Proof using.
  clear. intros H1 H2 H3 [Hl Hb]. unfold zero_bytes. split.
  - rewrite !length_app, length_take, length_replicate, length_drop. lia.
  - rewrite !Forall_app. split; [by apply Forall_take|]. split; [apply Forall_replicate; unfold byte_ok; lia|by apply Forall_drop].
Qed.

(** What zeroing a part of the block of position [n] does: nothing for a hole. *)
Definition zeroed V b off len V' : Prop :=
  if decide (b = 0) then V' = V
  else exists d, block_ok bs d /\ (forall d0, V !! b = Some d0 -> d = d0) /\ V' = <[b := zero_bytes off len d]> V.

Lemma rounddown_div x : 0 <= x -> 0 <= rounddown x bs /\ rounddown x bs / bs = x / bs.
Proof using HG.
  intros Hx. pose proof (bs_ok dev bs own G HG) as Hbs. unfold rounddown. rewrite Z.rem_mod_nonneg by lia.
  pose proof (Z.div_mod x bs ltac:(lia)) as E. replace (x - x `mod` bs) with (x / bs * bs) by lia.
  split; [|apply Z.div_mul; lia]. apply Z.mul_nonneg_nonneg; [apply Z.div_pos; lia|lia].
Qed.

Lemma map_block s V L rip r R position (Q : option nat -> mfs -> Prop) :
  fs_state s V L rip r R -> (length L < MINBUFS)%nat -> i_num r <> VMC_NO_INODE -> 0 <= position -> position / bs < max_zones bs ->
  (zone_of V r (position / bs) = 0 -> forall s', fs_state s' V L rip r R -> with_file rip r s s' -> Q None s') ->
  (forall bp d s0 s', let b := zone_of V r (position / bs) in b <> 0 -> data_zone b -> ~ meta bs V (i_zone r) b -> fs_state s0 V L rip r R -> with_file rip r s s0 ->
     same_inodes s0 s' -> block_ok bs d -> (forall d0, V !! b = Some d0 -> d = d0) ->
     forall T, T ⊆ {[b]} ->
     zrep dev bs own G s' (<[b := d]> V) ((bp, b) :: L) T -> Q (Some bp) s') ->
  wp (get_block_map rip position) Q s.
Proof using HG.
  intros Hs HL Hnum Hpos Hmax Hnone Hsome. pose proof (bs_ok dev bs own G HG) as Hbs. pose proof (first_pos dev bs own G HG) as Hfp.
  pose proof (o_file _ _ _ _ _ (fs_owned _ _ _ _ _ _ Hs)) as Hf. assert (0 <= position / bs) as Hn0 by (apply Z.div_pos; lia).
  unfold get_block_map. apply wp_bind. eapply map_read; [exact Hs|done|done|done|]. intros s1 Hs1 Hw1.
  apply wp_bind. unfold get_inode_slot. apply wp_bind, wp_gets. eapply wp_deref; [apply Hs1|].
  unfold get_block_size. rewrite (proj2 (proj2 (fs_inode _ _ _ _ _ _ Hs1))). rewrite (proj2 (Z.eqb_neq _ _) (proj2 (sb_dev _ _ _ _ HG))).
  apply wp_bind, wp_cached. eapply wp_mono; [apply (size_law _ V L ∅), Hs1|]. intros x c' [-> ->].
  replace (with_cache (fs_cache s1) s1) with s1 by by destruct s1. unfold NO_BLOCK.
  destruct (Z.eqb_spec (zone_of V r (position / bs)) 0) as [E|Hne]; [apply wp_ret; by apply Hnone|].
  apply wp_bind, wp_assert; [by apply negb_true_iff, Z.eqb_neq|]. destruct (zone_at_ref dev bs own G HG V (i_zone r) (position / bs) Hf ltac:(lia)) as [?|Hd]; [done|].
  apply wp_bind, wp_cached.
  eapply wp_mono; [apply (get_law _ V L ∅); [apply Hs1|by apply (data_block dev bs own G HG)|done|done]|].
  intros bp c' (d & Hok & Heq & Hc). apply wp_ret. eapply (Hsome bp d s1); [done|done| |done|done|by split|done|by apply Heq| |].
  3:{ eapply (zrep_step dev bs own G HG s1); [apply Hs1|by split|split; [exact Hc|apply (zrep_mrep dev bs own G HG _ _ _ _ (fs_rep _ _ _ _ _ _ Hs1))]|].
      intros b' Hb'. pose proof (data_ne_zmap dev bs own G HG _ b' Hd Hb'). split; [by apply lookup_insert_ne|].
      unfold after_get. destruct (decide _); set_solver. }
  2:{ unfold after_get. destruct (decide _); set_solver. }
  - apply (data_not_meta bs Hbs G Hfp); [done|lia|done].
Qed.

Lemma zerozone_range_ok s V L rip r R pos len (Q : unit -> mfs -> Prop) :
  fs_state s V L rip r R -> (length L < MINBUFS)%nat -> i_num r <> VMC_NO_INODE -> 0 <= pos -> pos / bs < max_zones bs ->
  0 < len -> pos `mod` bs + len <= bs ->
  (forall s' V', fs_state s' V' L rip r R -> with_file rip r s s' -> zeroed V (zone_of V r (pos / bs)) (pos `mod` bs) len V' ->
     (forall m, 0 <= m < max_zones bs -> zone_of V' r m = zone_of V r m) -> (tight V (i_zone r) -> tight V' (i_zone r)) -> Q tt s') ->
  wp (zerozone_range rip pos len) Q s.
Proof using HG.
  intros Hs HL Hnum Hpos Hmax Hlen Hfit HQ. pose proof (bs_ok dev bs own G HG) as Hbs. destruct (rounddown_div pos Hpos) as [Hrd Erd].
  unfold zerozone_range. rewrite (proj2 (Z.eqb_neq _ _)) by lia. cbn [zerozone_loop]. rewrite (proj2 (Z.ltb_lt _ _) Hlen). cbn [negb].
  destruct (z_super _ _ _ _ _ _ _ _ (fs_rep _ _ _ _ _ _ Hs)) as (q & Hq & Esb). apply wp_bind, wp_gets. rewrite Esb. cbn [s_block_size set_s_zsearch].
  rewrite (sb_size _ _ _ _ HG). apply wp_bind. eapply map_block; [exact Hs|done|done|done|by rewrite Erd| |]; rewrite Erd.
  - intros E0 s1 Hs1 Hw1. apply wp_ret. eapply HQ; [exact Hs1|exact Hw1| |done|done]. unfold zeroed. by rewrite decide_True.
  - intros bp d s0 s1 b Hne Hd Hm Hs0 Hw0 H1 Hok Heq T HT Hz1.
    apply wp_bind, (wp_lift _ (pos `mod` bs)). { unfold srem. replace (bs =? 0) with false by lia. by rewrite Z.rem_mod_nonneg by lia. }
    pose proof (Z.mod_pos_bound pos bs ltac:(lia)) as Hoff.
    replace (if len <? bs - pos `mod` bs then len else bs - pos `mod` bs) with len by (destruct (Z.ltb_spec len (bs - pos `mod` bs)); lia).
    apply wp_bind. eapply wp_data; [by apply (zrep_mrep dev bs own G HG)|left|apply lookup_insert_eq|].
    apply wp_bind. eapply (zwp_set_data dev bs own G HG); [exact Hz1|left|done|apply (zero_bytes_ok (pos `mod` bs) len d); [lia|lia|lia|done]|].
    fold (zero_bytes (pos `mod` bs) len d). intros s2 H2 Hz2. rewrite insert_insert_eq in Hz2.
    apply wp_bind. eapply (zwp_mark_dirty dev bs own G HG); [exact Hz2|left|]. intros s3 H3 Hz3.
    replace (({[b]} ∪ T) ∖ {[b]} : gset Z) with (∅ : gset Z) in Hz3 by set_solver.
    apply wp_bind. eapply (zwp_put dev bs own G HG); [exact Hz3|set_solver|]. intros s4 H4 Hz4.
    rewrite Z.sub_diag. assert (exists f, Z.to_nat len = S f) as [f ->] by (exists (Z.to_nat (len - 1)); lia). cbn [zerozone_loop]. apply wp_ret.
    assert (same_inodes s0 s4) as H04 by (do 3 (eapply same_inodes_trans; [eassumption|]); done).
    destruct (fs_set_data s0 s4 V L rip r R b _ Hs0 H04 Hd Hm Hz4) as (Hs4 & Hw4 & Hat & Ht).
    eapply HQ; [exact Hs4|by eapply with_file_trans| |exact Hat|exact Ht]. unfold zeroed. fold b. rewrite decide_False by done. by exists d.
Qed.
(** Different positions have different zones. *)
Lemma zone_at_in_fp V zs n : file_ok bs G V zs -> 0 <= n < max_zones bs -> zone_at bs V zs n <> 0 -> zone_at bs V zs n ∈ fp bs V zs.
Proof using HG.
  intros Hf Hn Hz. pose proof (path_of_ok bs (bs_ok dev bs own G HG) n Hn) as Hp. unfold zone_at in *. destruct (path_of bs n) as [k|sl e].
  - rewrite (fp_direct bs G V zs k Hf Hp). unfold leaf. rewrite (proj2 (Z.eqb_neq _ _) Hz). left.
  - destruct Hp as [Hok He]. assert (slot_zone bs V zs sl <> 0) as Hsl by (intros E; rewrite E in Hz; done).
    assert (slot_there bs zs sl) as Hth.
    { destruct sl as [|i]; [done|]. split; [done|]. intros E8. apply Hsl. cbn [slot_zone]. unfold entry. by rewrite E8. }
    destruct (slot_wf bs G V zs sl Hf Hth) as [?|(_ & Hk & _)]; [done|].
    rewrite (fp_slot bs G V zs sl Hf Hth), (tree1_entry bs V _ e Hsl Hk He). unfold leaf. rewrite (proj2 (Z.eqb_neq _ _) Hz). left.
Qed.

Lemma zone_at_inj V zs R n m : owned V zs R -> blocks_ok bs V -> 0 <= n < max_zones bs -> 0 <= m < max_zones bs -> n <> m ->
  zone_at bs V zs n <> 0 -> zone_at bs V zs m <> zone_at bs V zs n.
Proof using HG.
  intros Ho Hb Hn Hm Hne Hz E. pose proof (bs_ok dev bs own G HG) as Hbs. pose proof (o_file _ _ _ _ _ Ho) as Hf.
  pose proof (path_of_ok bs Hbs n Hn) as Hp. assert (exists V' zs', owned V' zs' (zone_at bs V zs n :: R) /\ zone_at bs V' zs' m = zone_at bs V zs m) as (V' & zs' & Ho' & Hat).
  { destruct (zone_at_ref dev bs own G HG V zs n Hf Hn) as [?|Hd]; [done|]. assert (Forall data_zone (zone_at bs V zs n :: R)) as HR by (constructor; [done|apply Ho]).
    destruct (path_of bs n) as [k|sl e] eqn:Epath.
    - assert (zone_at bs V zs n = zone_n zs k) as Ek by (unfold zone_at; by rewrite Epath). assert (n = k) as ->.
      { unfold path_of in Epath. destruct (n <? 7); [by injection Epath|destruct (n - 7 <? ni); done]. }
      destruct (owned_direct dev bs own G HG V zs k 0 R (zone_at bs V zs k :: R)) as [Ho' Hat]; [done|lia|by left|done| |].
      { unfold leaf at 2. rewrite <- Ek. by rewrite (proj2 (Z.eqb_neq _ _) Hz). }
      exists V, (<[Z.to_nat k := 0]> zs). split; [done|]. rewrite Hat, decide_False by lia. done.
    - destruct Hp as [Hok He]. assert (zone_at bs V zs n = entry bs V (slot_zone bs V zs sl) e) as En by (unfold zone_at; by rewrite Epath).
      assert (slot_zone bs V zs sl <> 0) as Hsl by (intros E0; rewrite En, E0 in Hz; done).
      assert (slot_there bs zs sl) as Hth.
      { destruct sl as [|i]; [done|]. split; [done|]. intros E8. apply Hsl. cbn [slot_zone]. unfold entry. by rewrite E8. }
      destruct (slot_wf bs G V zs sl Hf Hth) as [?|(_ & [d Hd1] & _)]; [done|]. rewrite (entry_known bs V _ e d) in En by done.
      destruct (owned_entry dev bs own G HG V zs sl R (zone_at bs V zs n :: R) e 0 d) as (Ho' & _ & Hat); [done|done|done|done|done|done|by left|done| |].
      { unfold leaf at 2. rewrite <- En. by rewrite (proj2 (Z.eqb_neq _ _) Hz). }
      eexists _, zs. split; [exact Ho'|]. etransitivity; [exact (Hat m Hm)|]. rewrite <- Epath, decide_False; [done|]. intros Ep. apply Hne. symmetry.
      apply (path_of_inj bs Hbs); [lia|lia|done]. }
  pose proof (o_nodup _ _ _ _ _ Ho') as Hnd. apply NoDup_app in Hnd as (_ & Hnd & _). apply (Hnd (zone_at bs V zs n)); [|left].
  rewrite <- E, <- Hat. apply zone_at_in_fp; [apply Ho'|done|]. by rewrite Hat, E.
Qed.

(** ** Truncating *)

(** The zones that hold [x] bytes. *)
Definition zones_for (x : Z) : Z := (x + bs - 1) / bs.

Lemma zones_for_spec x : 0 <= x -> zones_for x = if x `mod` bs =? 0 then x / bs else x / bs + 1.
Proof using HG.
  intros Hx. pose proof (bs_ok dev bs own G HG) as Hbs. pose proof (Z.div_mod x bs ltac:(lia)) as E. pose proof (Z.mod_pos_bound x bs ltac:(lia)) as Hm.
  unfold zones_for. destruct (Z.eqb_spec (x `mod` bs) 0) as [E0|Hne].
  - symmetry. apply Z.div_unique with (bs - 1); lia.
  - symmetry. apply Z.div_unique with (x `mod` bs - 1); lia.
Qed.

(** What taking the bytes from [start] to [end_] leaves of the file. *)
Definition cut V r start end_ V' r' R : Prop :=
  (forall m, 0 <= m < max_zones bs -> zone_of V' r' m = if decide (zones_for start <= m < zones_for end_) then 0 else zone_of V r m) /\
  (forall b, b ∈ R \/ (exists m, 0 <= m < zones_for start /\ (m = start / bs -> start `mod` bs = 0) /\ b = zone_of V r m /\ b <> 0) -> V' !! b = V !! b) /\
  (start `mod` bs <> 0 -> zone_of V r (start / bs) <> 0 -> exists d, block_ok bs d /\ (forall d0, V !! zone_of V r (start / bs) = Some d0 -> d = d0) /\
     V' !! zone_of V r (start / bs) = Some (zero_bytes (start `mod` bs) (Z.min (end_ - start) (bs - start `mod` bs)) d)).
Definition last_part V r start end_ V1 : Prop :=
  if decide (start `mod` bs = 0) then V1 = V
  else zeroed V (zone_of V r (start / bs)) (start `mod` bs) (Z.min (end_ - start) (bs - start `mod` bs)) V1.

Lemma zones_for_bounds x y : 0 <= x -> x < y -> 0 <= x / bs /\ x / bs < zones_for y /\
  (x `mod` bs <> 0 -> x / bs < zones_for x) /\ zones_for x <= zones_for y /\ 0 <= zones_for x.
Proof using HG.
  intros Hx Hy. pose proof (bs_ok dev bs own G HG) as Hbs. assert (0 <= x / bs) by (apply Z.div_pos; lia).
  pose proof (zones_for_spec x Hx) as Ex. pose proof (Z.div_mod x bs ltac:(lia)). pose proof (Z.mod_pos_bound x bs ltac:(lia)).
  assert (x / bs + 1 <= zones_for y). { unfold zones_for. apply Z.div_le_lower_bound; lia. }
  destruct (Z.eqb_spec (x `mod` bs) 0); lia.
Qed.

Lemma cut_intro s V L rip r R start end_ V1 V' r' : fs_state s V L rip r R -> 0 <= start < end_ -> zones_for end_ <= max_zones bs ->
  last_part V r start end_ V1 ->
  (forall m, 0 <= m < max_zones bs -> zone_of V' r' m = if decide (zones_for start <= m < zones_for end_) then 0 else zone_of V r m) ->
  (forall b, b ∈ R \/ (exists m, 0 <= m < max_zones bs /\ ~ zones_for start <= m < zones_for end_ /\ b = zone_of V r m /\ b <> 0) -> V' !! b = V1 !! b) ->
  cut V r start end_ V' r' R.
Proof using HG.
  intros Hs Hst Hmax Hlast Hat Hfr. pose proof (bs_ok dev bs own G HG) as Hbs. pose proof (fs_owned _ _ _ _ _ _ Hs) as Ho.
  pose proof (o_file _ _ _ _ _ Ho) as Hf. pose proof (zones_for_bounds start end_ ltac:(lia) ltac:(lia)) as Hz.
  assert (blocks_ok bs V) as Hb by apply (zrep_blocks dev bs own G HG _ _ _ _ (fs_rep _ _ _ _ _ _ Hs)).
  assert (forall b, (start `mod` bs <> 0 -> b <> zone_of V r (start / bs) \/ b = 0) -> V1 !! b = V !! b \/ b = 0) as H1.
  { intros b Hne. unfold last_part in Hlast. destruct (decide (start `mod` bs = 0)) as [E|E]; [left; by subst V1|].
    destruct (Hne E) as [Hne'|]; [|by right]. left. unfold zeroed in Hlast.
    destruct (decide _); [by subst V1|]. destruct Hlast as (d & _ & _ & ->). by apply lookup_insert_ne, not_eq_sym. }
  split; [exact Hat|]. split.
  - intros b [Hb'|(m & Hm & Hms & -> & Hne)].
    + rewrite Hfr by by left. destruct (rest_not_meta V _ R b Ho Hb') as [_ Hd].
      destruct (H1 b) as [?|E]; [|done|exfalso; by apply (data_zone_ne bs Hbs G (first_pos dev bs own G HG) b)].
      intros _. destruct (decide (b = 0)) as [|Hb0]; [by right|left]. intros E. pose proof (o_nodup _ _ _ _ _ Ho) as Hnd.
      apply NoDup_app in Hnd as (_ & Hnd & _). apply (Hnd b); [|done]. rewrite E in Hb0 |- *. apply zone_at_in_fp; [done|lia|done].
    + rewrite Hfr. 2:{ right. exists m. split; [lia|]. split; [lia|]. done. }
      destruct (H1 (zone_of V r m)) as [?|?]; [|done|done]. intros Hmod. left. destruct (decide (zone_of V r (start / bs) = 0)) as [E0|E0]; [by rewrite E0|].
      apply (zone_at_inj V (i_zone r) R); [done|done|lia|lia| |done]. intros E. apply Hmod, Hms. by symmetry.
  - intros Hmod Hne. unfold last_part in Hlast. rewrite decide_False in Hlast by done. unfold zeroed in Hlast. rewrite decide_False in Hlast by done.
    destruct Hlast as (d & Hok & Heq & ->). exists d. split; [done|]. split; [done|]. rewrite Hfr; [apply lookup_insert_eq|].
    right. exists (start / bs). split; [lia|]. split; [lia|]. done.
Qed.

Lemma fs_upd s V L rip r R f (Q : unit -> mfs -> Prop) : fs_state s V L rip r R -> i_zone (f r) = i_zone r -> inode_ok (f r) ->
  (forall s', fs_state s' V L rip (f r) R -> with_file rip (f r) s s' -> Q tt s') -> wp (upd_inode rip f) Q s.
Proof using.
  intros Hs Ez Hok HQ. unfold upd_inode, get_inode_slot. apply wp_bind, wp_bind, wp_gets. eapply wp_deref; [apply Hs|].
  apply wp_modify. apply HQ; [|done]. destruct Hs as [[Hc Hsb Hk H0 Hz] Hsl _ Ho]. split; [by split| |done|by rewrite Ez].
  apply list_lookup_insert_eq. by eapply lookup_lt_Some.
Qed.

Lemma fs_markdirty s V L rip r R (Q : unit -> mfs -> Prop) : fs_state s V L rip r R ->
  (forall s', fs_state s' V L rip (dirty r) R -> with_file rip (dirty r) s s' -> Q tt s') -> wp (IN_MARKDIRTY rip) Q s.
Proof using HG.
  intros Hs HQ. destruct (z_super _ _ _ _ _ _ _ _ (fs_rep _ _ _ _ _ _ Hs)) as (q & Hq & Esb).
  unfold IN_MARKDIRTY. apply wp_bind, wp_gets. rewrite Esb. cbn [s_rd_only set_s_zsearch]. rewrite (sb_rw _ _ _ _ HG). cbn [Z.eqb negb].
  eapply fs_upd; [exact Hs|done|apply Hs|exact HQ].
Qed.
(** The part of the zone of [start] that is cut is zeroed. *)
Lemma zero_last_ok s V L rip r R start end_ pos len (Q : unit -> mfs -> Prop) :
  fs_state s V L rip r R -> (length L < MINBUFS)%nat -> i_num r <> VMC_NO_INODE -> 0 <= start < end_ -> zones_for end_ <= max_zones bs ->
  pos = start -> len = Z.min (end_ - start) (bs - start `mod` bs) -> start `mod` bs <> 0 ->
  (forall s' V1, fs_state s' V1 L rip r R -> with_file rip r s s' -> last_part V r start end_ V1 ->
     (forall m, 0 <= m < max_zones bs -> zone_of V1 r m = zone_of V r m) -> (tight V (i_zone r) -> tight V1 (i_zone r)) -> Q tt s') ->
  wp (zerozone_range rip pos len) Q s.
Proof using HG.
  intros Hs HL Hnum Hst Hmax -> -> Hmod HQ. pose proof (bs_ok dev bs own G HG) as Hbs. pose proof (Z.mod_pos_bound start bs ltac:(lia)) as Hoff.
  pose proof (zones_for_bounds start end_ ltac:(lia) ltac:(lia)) as Hz.
  eapply zerozone_range_ok; [exact Hs|done|done|lia|lia|lia|lia|]. intros s1 V1 Hs1 Hw1 Hze Hat Ht.
  apply (HQ s1 V1); [done|done| |done|done]. unfold last_part. by rewrite decide_False.
Qed.

Lemma freesp_ok s V L rip r R start (Q : ecode -> mfs -> Prop) :
  fs_state s V L rip r R -> pins_rest L R -> (S (S (length L)) < MINBUFS)%nat -> i_num r <> VMC_NO_INODE -> 0 <= start < i_size r ->
  zones_for (i_size r) <= max_zones bs ->
  (forall s' V' r', fs_state s' V' L rip r' R -> with_file rip r' s s' -> attrs r' = attrs r -> cut V r start (i_size r) V' r' R ->
     (tight V (i_zone r) -> tight V' (i_zone r')) -> Q OK s') ->
  wp (freesp_inode rip start (i_size r)) Q s.
Proof using HG.
  intros Hs Hpin HL Hnum Hst Hmax HQ. pose proof (bs_ok dev bs own G HG) as Hbs.
  pose proof (zones_for_bounds start (i_size r) ltac:(lia) ltac:(lia)) as Hz. set (size := i_size r) in *.
  pose proof (Z.mod_pos_bound start bs ltac:(lia)) as Hoff. pose proof (Z.div_mod start bs ltac:(lia)) as Edm.
  pose proof (Z.div_mod (size - 1) bs ltac:(lia)) as Edm2. pose proof (Z.mod_pos_bound (size - 1) bs ltac:(lia)) as Hoff2.
  assert (forall k (s1 : mfs) V1 r1, fs_state s1 V1 L rip r1 R -> with_file rip r1 s s1 -> attrs r1 = attrs r -> cut V r start size V1 r1 R ->
    (tight V (i_zone r) -> tight V1 (i_zone r1)) -> k = OK ->
    wp (if bool_decide (k = OK) then
          upd_inode rip (fun r => set_i_update (setf (i_update r) (Z.lor CTIME MTIME)) r);; IN_MARKDIRTY rip;; mret OK
        else mret k) Q s1) as Hend.
  { intros k s1 V1 r1 Hs1 Hw1 Ha Hcut Ht ->. rewrite bool_decide_eq_true_2 by done.
    apply wp_bind. eapply fs_upd; [exact Hs1|done|apply Hs1|]. intros s2 Hs2 Hw2.
    apply wp_bind. eapply fs_markdirty; [exact Hs2|]. intros s3 Hs3 Hw3. apply wp_ret.
    eapply HQ; [exact Hs3|by do 2 (eapply with_file_trans; [eassumption|])|exact Ha|exact Hcut|exact Ht]. }
  unfold freesp_inode. destruct (z_super _ _ _ _ _ _ _ _ (fs_rep _ _ _ _ _ _ Hs)) as (q & Hq & Esb). apply wp_bind, wp_gets. rewrite Esb.
  cbn [s_block_size s_log_zone_size set_s_zsearch]. rewrite (sb_size _ _ _ _ HG), (sb_scale _ _ _ _ HG), Z.shiftl_0_r.
  apply wp_bind. unfold get_inode_slot at 1. apply wp_bind, wp_gets. eapply wp_deref; [apply Hs|]. fold size.
  rewrite Z.ltb_irrefl. rewrite (proj2 (Z.leb_gt _ _)) by lia.
  apply wp_bind, (wp_lift _ bs). { apply int_ok_in. unfold INT_MIN, INT_MAX. lia. }
  assert (forall x, 0 <= x -> srem x bs = Ok (x `mod` bs)) as Esr.
  { intros x Hx. unfold srem. replace (bs =? 0) with false by lia. by rewrite Z.rem_mod_nonneg by lia. }
  apply wp_bind, (wp_lift _ (start `mod` bs)); [apply Esr; lia|]. apply wp_bind, (wp_lift _ (size `mod` bs)); [apply Esr; lia|].
  rewrite (Z.ltb_irrefl size), andb_false_r. apply wp_bind, (wp_lift _ (start / bs)); [apply sdiv_ok; lia|].
  apply wp_bind, (wp_lift _ ((size - 1) / bs)); [apply sdiv_ok; lia|]. rewrite orb_false_r.
  assert (zones_for size = (size - 1) / bs + 1) as Ezs.
  { unfold zones_for. symmetry. apply Z.div_unique with ((size - 1) `mod` bs); lia. }
  apply wp_bind. destruct ((start / bs =? (size - 1) / bs) && negb (start `mod` bs =? 0)) eqn:Eone.
  - apply andb_true_iff in Eone as [Esame Hmod]. apply Z.eqb_eq in Esame. apply negb_true_iff, Z.eqb_neq in Hmod.
    apply wp_bind. eapply (zero_last_ok s V L rip r R start size); [exact Hs|lia|done|lia|done|done| |done|]; [lia|].
    intros s1 V1 Hs1 Hw1 Hlast Hat Ht. apply wp_ret. eapply Hend; [exact Hs1|exact Hw1|done| |exact Ht|done].
    eapply cut_intro; [exact Hs|lia|done|exact Hlast| |done].
    intros m Hm. rewrite decide_False by lia. by apply Hat.
  - assert (forall (s1 : mfs) V1, fs_state s1 V1 L rip r R -> with_file rip r s s1 -> last_part V r start size V1 ->
      (forall m, 0 <= m < max_zones bs -> zone_of V1 r m = zone_of V r m) -> (tight V (i_zone r) -> tight V1 (i_zone r)) ->
      wp (when false (zerozone_half rip size FIRST_HALF bs);;
          q ← lift (sdiv size bs);
          let e := if (size =? size) && negb (size `mod` bs =? 0) then q + 1 else q in
          n ← lift (nextblock start bs);
          p ← lift (sdiv n bs);
          free_zones (Z.to_nat (e - p)) rip p bs)
        (fun e s' => wp (if bool_decide (e = OK) then
          upd_inode rip (fun r => set_i_update (setf (i_update r) (Z.lor CTIME MTIME)) r);; IN_MARKDIRTY rip;; mret OK
        else mret e) Q s') s1) as Hfree.
    { intros s1 V1 Hs1 Hw1 Hlast Hat1 Ht1. apply wp_bind, wp_ret. apply wp_bind, (wp_lift _ (size / bs)); [apply sdiv_ok; lia|].
      rewrite Z.eqb_refl. cbn [andb]. pose proof (zones_for_spec size ltac:(lia)) as Es. pose proof (zones_for_spec start ltac:(lia)) as Est.
      replace (if negb (size `mod` bs =? 0) then size / bs + 1 else size / bs) with (zones_for size) by (rewrite Es; by destruct (size `mod` bs =? 0)).
      apply wp_bind, (wp_lift _ (zones_for start * bs)).
      { unfold nextblock. rewrite sdiv_ok, Esr by lia. cbn [mbind result_bind]. f_equal. rewrite Est. destruct (start `mod` bs =? 0); lia. }
      apply wp_bind, (wp_lift _ (zones_for start)). { rewrite sdiv_ok by lia. f_equal. apply Z.div_mul. lia. }
      eapply wp_mono; [apply (free_zones_ok _ s1 V1 L rip r R (zones_for start) Hs1 Hpin HL); lia|].
      intros e s2 (-> & V2 & r2 & Hs2 & Hw2 & Ha & Hat & Hfr & Ht). rewrite Z2Nat.id in Hat, Hfr by lia.
      replace (zones_for start + (zones_for size - zones_for start)) with (zones_for size) in Hat, Hfr by lia.
      eapply Hend; [exact Hs2|by eapply with_file_trans|exact Ha| |tauto|done].
      eapply cut_intro; [exact Hs|lia|done|exact Hlast| |].
      - intros m Hm. rewrite (Hat m Hm). case_decide; [done|by apply Hat1].
      - intros b [Hb|(m & Hm & Hms & Eb & Hne)]; apply Hfr; [by left|right]. exists m. split; [done|]. split; [done|]. by rewrite Hat1. }
    apply wp_bind. apply wp_when.
    + intros Hmod%negb_true_iff%Z.eqb_neq. rewrite (proj2 (Z.eqb_neq _ _) Hmod), andb_true_r in Eone. apply Z.eqb_neq in Eone.
      unfold zerozone_half. apply wp_bind, (wp_lift _ (start `mod` bs)); [apply Esr; lia|].
      assert (start / bs <= (size - 1) / bs) by lia.
      eapply (zero_last_ok s V L rip r R start size); [exact Hs|lia|done|lia|done|done| |done|].
      { rewrite Z.min_r; [done|]. assert (bs * (start / bs + 1) <= bs * ((size - 1) / bs)) by (apply Z.mul_le_mono_nonneg_l; lia). lia. }
      intros s1 V1 Hs1 Hw1 Hlast Hat Ht. by eapply Hfree.
    + intros Hmod%negb_false_iff%Z.eqb_eq. eapply Hfree; [exact Hs|apply with_file_refl, Hs| |done|done].
      unfold last_part. by rewrite decide_True.
Qed.
Definition special r : bool := (Z.land (i_mode r) I_TYPE =? I_CHAR_SPECIAL) || (Z.land (i_mode r) I_TYPE =? I_BLOCK_SPECIAL).

Lemma truncate_ok s V L rip r R newsize :
  fs_state s V L rip r R -> pins_rest L R -> (S (S (length L)) < MINBUFS)%nat -> i_num r <> VMC_NO_INODE -> special r = false ->
  0 <= newsize <= s_max_size G -> zones_for (i_size r) <= max_zones bs ->
  wp (truncate_inode rip newsize) (fun e s' => e = OK /\ exists V' r', fs_state s' V' L rip r' R /\ with_file rip r' s s' /\
    attrs r' = (i_mode r, newsize, i_num r) /\
    (if decide (newsize < i_size r) then cut V r newsize (i_size r) V' r' R else V' = V /\ i_zone r' = i_zone r) /\
    (tight V (i_zone r) -> tight V' (i_zone r'))) s.
Proof using HG.
  intros Hs Hpin HL Hnum Hsp Hn Hmax. unfold truncate_inode.
  destruct (z_super _ _ _ _ _ _ _ _ (fs_rep _ _ _ _ _ _ Hs)) as (q & Hq & Esb). apply wp_bind, wp_gets. rewrite Esb. cbn [s_max_size set_s_zsearch].
  apply wp_bind. unfold get_inode_slot at 1. apply wp_bind, wp_gets. eapply wp_deref; [apply Hs|]. cbv zeta. fold (special r). rewrite Hsp.
  rewrite (proj2 (Z.ltb_ge _ _)) by lia.
  set (k := fun e : ecode => if bool_decide (e = OK) then
      when (i_size r <? newsize) (clear_zone rip (i_size r) 0);;
      upd_inode rip (fun r => set_i_update (setf (i_update r) (Z.lor CTIME MTIME)) (set_i_size newsize r));;
      IN_MARKDIRTY rip;; mret OK
    else mret e).
  assert (forall (s1 : mfs) V1 r1, fs_state s1 V1 L rip r1 R -> with_file rip r1 s s1 -> attrs r1 = attrs r ->
    (if decide (newsize < i_size r) then cut V r newsize (i_size r) V1 r1 R else V1 = V /\ i_zone r1 = i_zone r) ->
    (tight V (i_zone r) -> tight V1 (i_zone r1)) ->
    wp (k OK) (fun e s' => e = OK /\ exists V' r', fs_state s' V' L rip r' R /\ with_file rip r' s s' /\
      attrs r' = (i_mode r, newsize, i_num r) /\
      (if decide (newsize < i_size r) then cut V r newsize (i_size r) V' r' R else V' = V /\ i_zone r' = i_zone r) /\
      (tight V (i_zone r) -> tight V' (i_zone r'))) s1) as Hend.
  { intros s1 V1 r1 Hs1 Hw1 Ha Hcut Ht. unfold k. rewrite bool_decide_eq_true_2 by done. apply wp_bind.
    assert (forall Q : unit -> mfs -> Prop, Q tt s1 -> wp (when (i_size r <? newsize) (clear_zone rip (i_size r) 0)) Q s1) as Hclear.
    { intros Q HQ. apply wp_when; [|done]. intros _. destruct (z_super _ _ _ _ _ _ _ _ (fs_rep _ _ _ _ _ _ Hs1)) as (q1 & Hq1 & Esb1).
      unfold clear_zone. apply wp_bind, wp_gets. rewrite Esb1. cbn [s_log_zone_size set_s_zsearch]. rewrite (sb_scale _ _ _ _ HG). by apply wp_assert. }
    apply Hclear. apply wp_bind. eapply fs_upd; [exact Hs1|done|apply Hs1|]. intros s2 Hs2 Hw2.
    apply wp_bind. eapply fs_markdirty; [exact Hs2|]. intros s3 Hs3 Hw3. apply wp_ret. split; [done|].
    eexists V1, _. split; [exact Hs3|]. split; [by do 2 (eapply with_file_trans; [eassumption|])|]. split; [|split; [exact Hcut|exact Ht]].
    unfold attrs in *. cbn. congruence. }
  apply wp_bind. destruct (Z.ltb_spec newsize (i_size r)) as [Hlt|Hge].
  - eapply freesp_ok; [exact Hs|done|done|done|lia|done|]. intros s1 V1 r1 Hs1 Hw1 Ha Hcut Ht.
    apply (Hend s1 V1 r1); [done|done|done| |done]. by rewrite decide_True.
  - apply wp_ret, (Hend s V r); [done|apply with_file_refl, Hs|done| |done]. rewrite decide_False by lia. done.
Qed.

(** A file without zones has no indirect blocks either. *)
Lemma tight_empty V zs : file_ok bs G V zs -> tight V zs -> (forall m, 0 <= m < max_zones bs -> zone_at bs V zs m = 0) -> fp bs V zs = [].
Proof using HG.
  intros Hf [Hb Hd] Hat. pose proof (max_zones_bound dev bs own G HG) as Hmx.
  assert (forall sl, slot_ok bs sl -> slot_zone bs V zs sl = 0) as Hsl.
  { intros sl Hok. destruct (decide (slot_zone bs V zs sl = 0)) as [|Hne]; [done|exfalso].
    destruct (Hb sl Hok Hne) as (e & He & Hx). destruct (path_of_via dev bs own G HG sl e Hok He) as (m & Hm & Hp).
    apply Hx. specialize (Hat m ltac:(lia)). unfold zone_at in Hat. by rewrite Hp in Hat. }
  assert (zone_n zs 8 = 0) as E8.
  { destruct (decide (zone_n zs 8 = 0)) as [|Hne]; [done|exfalso]. destruct (Hd Hne) as (i & Hi & Hx). apply Hx. by apply Hsl. }
  pose proof (Hsl SInd I) as E7. cbn [slot_zone] in E7. unfold fp. rewrite E7, E8, leaf_frame_empty; [done|].
  apply Forall_lookup. intros j x Hx. pose proof (lookup_lt_Some _ _ _ Hx) as Hlt. rewrite length_take in Hlt.
  destruct (direct_lookup bs G V zs (Z.of_nat j) Hf ltac:(lia)) as [E _]. rewrite Nat2Z.id in E. assert (x = zone_n zs (Z.of_nat j)) as -> by congruence.
  specialize (Hat (Z.of_nat j) ltac:(lia)). unfold zone_at, path_of in Hat. by rewrite (proj2 (Z.ltb_lt _ _)) in Hat by lia.
Qed.

Lemma truncate_empties s V L rip r R : 
  fs_state s V L rip r R -> pins_rest L R -> (S (S (length L)) < MINBUFS)%nat -> i_num r <> VMC_NO_INODE -> special r = false ->
  0 <= i_size r -> 0 <= s_max_size G -> zones_for (i_size r) <= max_zones bs -> tight V (i_zone r) ->
  (forall m, zones_for (i_size r) <= m < max_zones bs -> zone_of V r m = 0) ->
  wp (truncate_inode rip 0) (fun e s' => e = OK /\ exists V' r', fs_state s' V' L rip r' R /\ with_file rip r' s s' /\ i_size r' = 0 /\
    fp bs V' (i_zone r') = [] /\ (forall b, b ∈ R -> V' !! b = V !! b) /\
    forall z, data_zone z -> zone_used bs G V' z = true <-> z ∈ R) s.
Proof using HG.
  intros Hs Hpin HL Hnum Hsp Hsz Hms Hmax Ht Hbey. pose proof (bs_ok dev bs own G HG) as Hbs. pose proof (max_zones_bound dev bs own G HG) as Hmx.
  assert (zones_for 0 = 0) as Ez0 by (unfold zones_for; apply Z.div_small; lia).
  eapply wp_mono; [by apply (truncate_ok s V L rip r R 0)|]. intros e s' (-> & V' & r' & Hs' & Hw & Ha & Hcut & Ht'). split; [done|].
  assert (forall m, 0 <= m < max_zones bs -> zone_of V' r' m = 0) as Hat.
  { intros m Hm. destruct (decide (0 < i_size r)) as [Hpos|Hzero].
    - destruct Hcut as [Hat _]. rewrite (Hat m Hm), Ez0. case_decide; [done|]. apply Hbey. lia.
    - destruct Hcut as [-> Ez]. rewrite Ez. apply Hbey. replace (i_size r) with 0 by lia. lia. }
  assert (fp bs V' (i_zone r') = []) as Efp by (apply tight_empty; [apply (fs_owned _ _ _ _ _ _ Hs')|by apply Ht'|done]).
  exists V', r'. split; [done|]. split; [done|]. split; [unfold attrs in Ha; congruence|]. split; [done|]. split.
  - intros b Hb. destruct (decide (0 < i_size r)); [|by destruct Hcut as [-> _]]. destruct Hcut as (_ & Hfr & _). apply Hfr. by left.
  - intros z Hz. rewrite (o_exact _ _ _ _ _ (fs_owned _ _ _ _ _ _ Hs') z Hz), Efp. done.
Qed.
End file.
