(* ===== verification/MfsDemo.v ===== *)
(** * A small file system on a disk

    Twenty blocks of 1024 bytes: the boot block, the super block, one block for each bit map, one of inodes and 15 zones. A file has a direct zone,
    a single indirect block and a zone behind it; one more zone is another file's. The invariants of the file system hold for it on the cache. *)

From S2P Require Import Prelude KTypes BufCache Cache CacheFlush CacheStore CacheLaws CacheDemo Mfs MfsFile MfsBits MfsZones MfsTree MfsMap MfsTrunc.
#[local] Open Scope Z_scope.

Module MfsDemo.
Import CacheDemo.

Definition sb0 : super_block := mk_super_block 16 1 1 0 67000000 20 BS 5 DEV 0 1 V3 0 0.
(** The map has the zones 5 to 8; the indirect block has zone 7 as its first entry. *)
Definition zmap0 : list Z := put_word blank 0 31.
Definition ind0 : list Z := put_word blank 0 7.
Definition disk0 : DISK := fun b => if b =? 3 then zmap0 else if b =? 6 then ind0 else blank.
Definition blocks0 : gmap Z (list Z) := <[3 := zmap0]> (<[6 := ind0]> (<[5 := blank]> (<[7 := blank]> {[8 := blank]}))).
Definition r0 : inode := mk_inode 0x8000 8192 [5; 0; 0; 0; 0; 0; 0; 6; 0; 0] DEV 2 7 256 IN_CLEAN 0 0.
Definition cache0 : @cache DISK := cache_on disk0.
#[global] Instance demo_cache : BufCache (@cache DISK) := lmfs_cache fs_sync.
#[global] Instance demo_cache_laws : BufCacheLaws (@cache DISK) DEV BS own := lmfs_laws DEV BS NB own bs_range dev_some nb_range own_nb fs_sync.
Definition fs0 : @mfs (@cache DISK) := mk_mfs cache0 sb0 [r0] OK 4.

Lemma words_blank w : 0 <= w < 2 ^ 32 -> block_ok BS (put_word blank 0 w).
Proof.
  intros Hw. split; [|apply put_word_bytes, blank_ok]. rewrite put_word_length; [apply blank_ok|]. split; [lia|]. vm_compute. done.
Qed.

Lemma disk0_ok b : block_ok BS (disk0 b).
Proof. unfold disk0. destruct (b =? 3); [by apply words_blank|]. destruct (b =? 6); [by apply words_blank|]. apply blank_ok. Qed.

Lemma blocks0_lookup b x : blocks0 !! b = Some x -> b ∈ [3; 5; 6; 7; 8] /\ x = disk0 b.
Proof.
  unfold blocks0. rewrite !lookup_insert_Some. rewrite lookup_singleton_Some.
  intros [[<- <-]|[_ [[<- <-]|[_ [[<- <-]|[_ [[<- <-]|[_ [<- <-]]]]]]]]]; (split; [by apply (bool_decide_unpack _); vm_compute|done]).
Qed.

Lemma sb0_ok : sb_ok DEV BS own sb0.
Proof. by split. Qed.

Lemma cache0_rep : cache_rep cache0 blocks0 [] ∅.
Proof.
  cbn. apply cache_on_inv. intros b x [Hb ->]%blocks0_lookup. split; [|apply norm_id, disk0_ok].
  unfold own, NB. repeat (apply elem_of_cons in Hb; destruct Hb as [->|Hb]; [lia|]). by apply elem_of_nil in Hb.
Qed.

(** A statement about the data zones, by going through them. *)
Lemma data_zones (P : Z -> Prop) : Forall P (seqZ 5 15) -> forall z, data_zone sb0 z -> P z.
Proof. intros HP z Hz. apply (proj1 (Forall_forall _ _) HP). apply elem_of_seqZ. unfold data_zone in Hz. cbn in Hz. lia. Qed.

Lemma zrep0 : zrep DEV BS own sb0 fs0 blocks0 [] ∅.
Proof.
  split.
  - exact cache0_rep.
  - by exists 0.
  - split; [|intros k _; apply not_elem_of_empty]. intros b Hb. cbn in Hb. unfold START_BLOCK in Hb. replace b with 3 by lia. by eexists.
  - vm_compute. done.
  - intros m Hm. cbn in Hm. lia.
Qed.

Lemma ind_6 : ind BS blocks0 6 = 7 :: replicate 255 0.
Proof. vm_compute. done. Qed.

Lemma fp0 : fp BS blocks0 (i_zone r0) = [5; 6; 7].
Proof. vm_compute. done. Qed.

Lemma file0 : file_ok BS sb0 blocks0 (i_zone r0).
Proof.
  split.
  - done.
  - cbn. repeat (apply Forall_cons_2; [first [by left|right; unfold data_zone; cbn; lia]|]). apply Forall_nil_2.
  - right. change (zone_n (i_zone r0) 7) with 6. split; [unfold data_zone; cbn; lia|]. split; [by eexists|]. rewrite ind_6.
    apply Forall_cons_2; [right; unfold data_zone; cbn; lia|]. apply Forall_replicate. by left.
  - by left.
  - rewrite fp0. apply (bool_decide_unpack _). vm_compute. done.
Qed.

Lemma owned0 : owned BS sb0 blocks0 (i_zone r0) [8].
Proof.
  split.
  - exact file0.
  - rewrite fp0. apply (bool_decide_unpack _). vm_compute. done.
  - apply Forall_cons_2; [unfold data_zone; cbn; lia|apply Forall_nil_2].
  - rewrite fp0. apply data_zones. apply Forall_forall. intros z Hz.
    assert (Forall (fun z => bool_decide (zone_used BS sb0 blocks0 z = true <-> z ∈ [5; 6; 7] ++ [8]) = true) (seqZ 5 15)) as HF.
    { apply (bool_decide_unpack _). vm_compute. done. }
    apply (proj1 (Forall_forall _ _) HF) in Hz. by apply bool_decide_eq_true in Hz.
Qed.

Lemma fs0_ok : fs_state DEV BS own sb0 fs0 blocks0 [] 0 r0 [8].
Proof. split; [exact zrep0|done|done|exact owned0]. Qed.

Lemma zone0_beyond m : 8 <= m < max_zones BS -> zone_at BS blocks0 (i_zone r0) m = 0.
Proof.
  intros Hm. unfold zone_at, path_of. rewrite (proj2 (Z.ltb_ge m 7)) by lia. change (BS / 4) with 256.
  destruct (Z.ltb_spec (m - 7) 256) as [Hlt|Hge].
  - cbn [slot_zone]. change (zone_n (i_zone r0) 7) with 6. unfold entry. cbn [Z.eqb]. rewrite ind_6.
    replace (Z.to_nat (m - 7)) with (S (Z.to_nat (m - 8))) by lia. change ((7 :: replicate 255 0) !! S (Z.to_nat (m - 8))) with (replicate 255 0 !! Z.to_nat (m - 8)).
    by rewrite lookup_replicate_2 by lia.
  - unfold entry at 1. cbn [slot_zone]. change (zone_n (i_zone r0) 8) with 0. done.
Qed.

Lemma tight0 : tight BS blocks0 (i_zone r0).
Proof.
  split.
  - intros [|i] _ Hne.
    + exists 0. split; [done|]. change (slot_zone BS blocks0 (i_zone r0) SInd) with 6. unfold entry. cbn [Z.eqb]. rewrite ind_6. done.
    + by destruct Hne.
  - intros Hne. by destruct Hne.
Qed.
End MfsDemo.
