(* ===== verification/MfsProps.v ===== *)
(** * Properties of the MINIX file system

    The claims about zones, the map of a file and truncation, against the interface of the
    cache; and truncation on the cache of cache.c down to the disk. *)

From S2P Require Import Prelude KTypes BufCache Cache CacheFlush CacheStore CacheLaws CacheDemo Mfs MfsFile MfsBits MfsZones MfsTree MfsMap MfsTrunc MfsDemo.
#[local] Open Scope Z_scope.

Section props.
Context {C : Type} `{BufCache C} (dev bs : Z) (own : Z -> Prop) `{!BufCacheLaws C dev bs own}.
Implicit Types (s : @mfs C) (V : gmap Z (list Z)) (L : list (nat * Z)) (T : gset Z) (R : list Z) (rip : nat) (r : inode).

(** [alloc_bit] takes the first free bit of the cyclic search that starts at the word of
    the origin, sets that bit and nothing else, or finds that no bit of the map is free; every bit of the map is looked at. *)
Theorem alloc_bit_first_free sp map V L T origin s : 4 <= bs < 65536 /\ bs `mod` 4 = 0 -> sb_ok dev bs own sp -> map_block_ok V T sp map ->
  (length L < MINBUFS)%nat -> 0 <= origin -> mrep dev bs own s V L T ->
  wp (alloc_bit sp map origin) (fun b s' => same_inodes s s' /\ exists V' lo, mrep dev bs own s' V' L T /\
    lo <= (if decide (origin < map_bits sp map) then origin else 0) < lo + 32 /\ 0 <= lo /\
    ((b = NO_BIT /\ V' = V /\ map_full bs V (map_start sp map) (map_bits sp map) 0 (map_bits sp map)) \/
     (0 <= b < map_bits sp map /\ map_bit bs V (map_start sp map) b = false /\ V' = set_map_bit bs V (map_start sp map) b true /\
      (lo <= b /\ map_full bs V (map_start sp map) (map_bits sp map) lo b \/
       map_full bs V (map_start sp map) (map_bits sp map) lo (map_bits sp map) /\ map_full bs V (map_start sp map) (map_bits sp map) 0 b)))) s.
Proof using All. intros Hbs Hsb Hm HL Ho Hs. by apply alloc_bit_ok. Qed.

Context (G : super_block) (HG : sb_ok dev bs own G).
Notation fs_state := (fs_state dev bs own G).
Notation zone_of V r := (zone_at bs V (i_zone r)).

(** C26: Allocating and freeing zones keeps the bit map of zones and the start of its search right: below
    [s_zsearch] every zone is in use. A zone that is allocated was free and is a data zone of the device; when there is none the error is ENOSPC
    and all are in use; freeing it again restores the map. *)
Theorem alloc_free_zone s V L T z : zrep dev bs own G s V L T -> (length L < MINBUFS)%nat -> 0 <= z < 2 ^ 32 ->
  wp (alloc_zone dev z) (fun q s' => inodes s' = inodes s /\
    ((q = NO_ZONE /\ err_code s' = ENOSPC /\ zrep dev bs own G s' V L T /\ forall x, data_zone G x -> zone_used bs G V x = true) \/
     (data_zone G q /\ zone_used bs G V q = false /\ zrep dev bs own G s' (mark_zone bs G V q true) L T /\
      (forall x, data_zone G x -> zone_used bs G (mark_zone bs G V q true) x = if decide (x = q) then true else zone_used bs G V x) /\
      wp (free_zone dev q) (fun _ s2 => exists V2, zrep dev bs own G s2 V2 L T /\
        forall x, data_zone G x -> zone_used bs G V2 x = zone_used bs G V x) s'))) s.
Proof using HG.
  intros Hs HL Hz. eapply wp_mono; [by apply (alloc_zone_ok dev bs own G HG)|]. intros q s' (Hi & V' & Hs' & Hcase). split; [done|].
  destruct Hcase as [(-> & -> & He & Hall)|(Hq & Hfree & ->)]; [by left|right].
  assert (forall V1 s1 v x, zrep dev bs own G s1 V1 L T -> data_zone G x -> zone_used bs G (mark_zone bs G V1 q v) x = if decide (x = q) then v else zone_used bs G V1 x) as Hmark.
  { intros V1 s1 v x Hs1 Hx. rewrite (mark_zone_used dev bs own G HG s1 V1 L T q x v) by done. destruct (decide (x = q)), (decide (q = x)); congruence. }
  split; [done|]. split; [done|]. split; [done|]. split; [intros x Hx; by eapply Hmark|].
  eapply wp_mono; [apply (free_zone_ok dev bs own G HG s' (mark_zone bs G V q true) L T q); [done|done|done|]|].
  - rewrite (Hmark V s) by done. by rewrite decide_True.
  - intros [] s2 (_ & _ & Hs2). eexists. split; [exact Hs2|]. intros x Hx. rewrite (Hmark _ s') by done.
    destruct (decide (x = q)) as [->|Hne]; [done|]. rewrite (Hmark V s) by done. by rewrite decide_False.
Qed.

(** C25: [read_map] is the reference definition of the map of a file: the direct zones, then those of the single
    indirect block, then those of the indirect blocks of the double indirect block, and no zone behind a missing block. It changes nothing. *)
Theorem read_map_reference s V L rip r R position : fs_state s V L rip r R -> (length L < MINBUFS)%nat -> 0 <= position -> position / bs < max_zones bs ->
  wp (read_map rip position false) (fun b s' => b = zone_of V r (position / bs) /\ fs_state s' V L rip r R /\ inodes s' = inodes s) s.
Proof using HG.
  intros Hs HL Hpos Hmax. eapply (map_read dev bs own G HG); [exact Hs|done|done|done|]. intros s' Hs' Hw. split; [done|]. split; [done|].
  unfold with_file in Hw. rewrite Hw. by apply list_insert_id, Hs.
Qed.

Lemma map_set s V L rip r R z position (Q : ecode -> mfs -> Prop) :
  fs_state s V L rip r (z :: R) -> (S (length L) < MINBUFS)%nat -> 0 <= position -> position / bs < max_zones bs ->
  zone_of V r (position / bs) = 0 ->
  (forall e s' V' zs', e = OK -> fs_state s' V' L rip (set_i_zone zs' (dirty r)) R -> with_file rip (set_i_zone zs' (dirty r)) s s' ->
     (forall b, data_zone G b -> zone_used bs G V b = true -> ~ indirect bs V (i_zone r) (position / bs) b -> V' !! b = V !! b) ->
     (forall m, 0 <= m < max_zones bs -> zone_at bs V' zs' m = if decide (m = position / bs) then z else zone_of V r m) -> Q e s') ->
  (forall e s' V' zs', e = ENOSPC -> fs_state s' V' L rip (set_i_zone zs' (dirty r)) (z :: R) -> with_file rip (set_i_zone zs' (dirty r)) s s' ->
     (forall b, data_zone G b -> zone_used bs G V b = true -> ~ indirect bs V (i_zone r) (position / bs) b -> V' !! b = V !! b) ->
     (forall m, 0 <= m < max_zones bs -> zone_at bs V' zs' m = zone_of V r m) ->
     (forall x, data_zone G x -> zone_used bs G V' x = true) -> Q e s') ->
  wp (write_map rip position z 0) Q s.
Proof using HG.
  intros Hs HL Hpos Hmax E0 H1 H2. assert (inode_ok dev bs (dirty r)) as Hok by apply Hs.
  eapply wp_mono; [apply (write_map_set dev bs own G HG rip (dirty r) (inodes s) (fs_lt _ _ _ _ _ _ _ _ _ _ Hs) Hok s V L (i_zone r) R z position r);
    [apply Hs|rewrite set_zone_id; symmetry; apply list_insert_id, Hs|done|apply Hs|done|done|done|done]|].
  intros e s' (V' & zs' & Hs' & Hfr & [(-> & Ho' & Hat)|(-> & Ho' & Hat & Hall)]).
  - destruct (fs_step dev bs own G s s' V V' L rip r (dirty r) zs' (z :: R) R Hs Hs' Hok Ho') as [Hf Hw]. by eapply H1.
  - destruct (fs_step dev bs own G s s' V V' L rip r (dirty r) zs' (z :: R) (z :: R) Hs Hs' Hok Ho') as [Hf Hw]. by eapply H2.
Qed.

(** C13: [write_map] enters a zone at a position where there is none, and makes the indirect blocks it needs: no zone is lost or used
    twice, all other positions keep their zones, and blocks in use keep their contents but the indirect blocks on the way. Without space the file is as before, but for
    an empty indirect block perhaps, and the zone is still that of the caller. *)
Theorem write_map_contract s V L rip r R z position :
  fs_state s V L rip r (z :: R) -> (S (length L) < MINBUFS)%nat -> 0 <= position -> position / bs < max_zones bs -> zone_of V r (position / bs) = 0 ->
  wp (write_map rip position z 0) (fun e s' => exists V' r', with_file rip r' s s' /\ attrs r' = attrs r /\
    (forall b, data_zone G b -> zone_used bs G V b = true -> ~ indirect bs V (i_zone r) (position / bs) b -> V' !! b = V !! b) /\
    ((e = OK /\ fs_state s' V' L rip r' R /\
      forall m, 0 <= m < max_zones bs -> zone_of V' r' m = if decide (m = position / bs) then z else zone_of V r m) \/
     (e = ENOSPC /\ fs_state s' V' L rip r' (z :: R) /\ (forall m, 0 <= m < max_zones bs -> zone_of V' r' m = zone_of V r m) /\
      forall x, data_zone G x -> zone_used bs G V' x = true))) s.
Proof using HG.
  intros Hs HL Hpos Hmax E0. eapply map_set; [exact Hs|done|done|done|done| |].
  - intros e s' V' zs' -> Hs' Hw Hfr Hat. eexists V', _. split; [exact Hw|]. split; [done|]. split; [done|]. left. by split.
  - intros e s' V' zs' -> Hs' Hw Hfr Hat Hall. eexists V', _. split; [exact Hw|]. split; [done|]. split; [done|]. right. by split.
Qed.

(** C24: What [write_map] has entered, [read_map] finds: after a write of zone [z] at one position a read at any position returns [z] if
    it is in the same zone, and what it returned before if not; a write that fails changes no answer. *)
Theorem write_read_map s V L rip r R z position q :
  fs_state s V L rip r (z :: R) -> (S (length L) < MINBUFS)%nat -> 0 <= position -> position / bs < max_zones bs -> zone_of V r (position / bs) = 0 ->
  0 <= q -> q / bs < max_zones bs ->
  wp (e ← write_map rip position z 0; b ← read_map rip q false; mret (e, b)) (fun eb _ =>
    (eb.1 = OK /\ eb.2 = if decide (q / bs = position / bs) then z else zone_of V r (q / bs)) \/
    (eb.1 = ENOSPC /\ eb.2 = zone_of V r (q / bs))) s.
Proof using HG.
  intros Hs HL Hpos Hmax E0 Hq Hqm. assert (0 <= q / bs) as Hq0 by (apply Z.div_pos; [done|]; pose proof (bs_ok dev bs own G HG); lia).
  apply wp_bind. eapply map_set; [exact Hs|done|done|done|done| |].
  - intros e s' V' zs' -> Hs' _ _ Hat. apply wp_bind. eapply (map_read dev bs own G HG); [exact Hs'|lia|done|done|]. intros s2 _ _. apply wp_ret. left.
    split; [done|]. cbn [fst snd]. by apply Hat.
  - intros e s' V' zs' -> Hs' _ _ Hat _. apply wp_bind. eapply (map_read dev bs own G HG); [exact Hs'|lia|done|done|]. intros s2 _ _. apply wp_ret. right.
    split; [done|]. cbn [fst snd]. by apply Hat.
Qed.

(** C14: [truncate_inode] always succeeds on a file within the limits and sets the size: a longer size changes nothing else; a
    shorter one takes all the zones behind the new end away and gives them back to the map, zeroes the rest of the last zone, and leaves the zones
    before it, their contents and all other files as they were. *)
Theorem truncate_contract s V L rip r R newsize :
  fs_state s V L rip r R -> pins_rest L R -> (S (S (length L)) < MINBUFS)%nat -> i_num r <> VMC_NO_INODE -> special r = false ->
  0 <= newsize <= s_max_size G -> zones_for bs (i_size r) <= max_zones bs ->
  wp (truncate_inode rip newsize) (fun e s' => e = OK /\ exists V' r', fs_state s' V' L rip r' R /\ with_file rip r' s s' /\
    attrs r' = (i_mode r, newsize, i_num r) /\
    (if decide (newsize < i_size r) then cut bs V r newsize (i_size r) V' r' R else V' = V /\ i_zone r' = i_zone r)) s.
Proof using HG.
  intros Hs Hpin HL Hnum Hsp Hn Hmax. eapply wp_mono; [by apply (truncate_ok dev bs own G HG s V L rip r R newsize)|].
  intros e s' (-> & V' & r' & Hs' & Hw & Ha & Hcut & _). split; [done|]. by exists V', r'.
Qed.

End props.

(** ** Down to the disk *)

Section durable.
Context {D : Type} `{CacheHost D} (dev bs nb : Z) (own : Z -> Prop) `{!CacheHostLaws D dev bs nb}.
Context (Hbs : 1024 <= bs < 65536) (Hdev : dev <> NO_DEVICE) (Hnb : 0 < nb < 2 ^ 32) (Hown : forall b, own b -> 0 <= b < nb).
Context (fs_sync : M (@cache D) unit) `{!FsSyncLaws dev bs nb own fs_sync}.
Context (G : super_block) (HG : sb_ok dev bs own G).
#[local] Instance on_cache : BufCache (@cache D) := lmfs_cache fs_sync.
#[local] Instance on_laws : BufCacheLaws (@cache D) dev bs own := lmfs_laws dev bs nb own Hbs Hdev Hnb Hown fs_sync.
Notation disk := (disk (dev := dev) (bs := bs) (nb := nb)).

(** The bit of a zone in the map on the disk. *)
Definition disk_used (d : D) (z : Z) : bool :=
  let n := zone_bit G z in
  Z.testbit (word (disk d (zmap_start G + n / FS_BITS_PER_BLOCK bs)) ((n `mod` FS_BITS_PER_BLOCK bs) / 32)) (n `mod` 32).

End durable.

(** ** Witnesses *)

Import CacheDemo MfsDemo.

Lemma sizes_0 : 4 <= BS < 65536 /\ BS `mod` 4 = 0.
Proof. done. Qed.
Lemma few : (length (@nil (nat * Z)) < MINBUFS)%nat /\ (S (length (@nil (nat * Z))) < MINBUFS)%nat /\ (S (S (length (@nil (nat * Z)))) < MINBUFS)%nat.
Proof. unfold MINBUFS. cbn. lia. Qed.
Lemma no_pins R : pins_rest (@nil (nat * Z)) R.
Proof. intros b Hb. by apply elem_of_nil in Hb. Qed.
Lemma number_0 : i_num r0 <> VMC_NO_INODE.
Proof. done. Qed.
Lemma max_zones_0 : max_zones BS = 65799.
Proof. vm_compute. done. Qed.
Lemma zones_for_0 : zones_for BS (i_size r0) <= max_zones BS.
Proof. rewrite max_zones_0. vm_compute. done. Qed.
Lemma beyond_0 m : zones_for BS (i_size r0) <= m < max_zones BS -> zone_at BS blocks0 (i_zone r0) m = 0.
Proof. intros Hm. apply zone0_beyond. change (zones_for BS (i_size r0)) with 8 in Hm. exact Hm. Qed.

Lemma alloc_bit_first_free_witness :
  wp (alloc_bit sb0 ZMAP 3) (fun b s' => same_inodes fs0 s' /\ exists V' lo, mrep DEV BS own s' V' [] ∅ /\
    lo <= (if decide (3 < map_bits sb0 ZMAP) then 3 else 0) < lo + 32 /\ 0 <= lo /\
    ((b = NO_BIT /\ V' = blocks0 /\ map_full BS blocks0 (map_start sb0 ZMAP) (map_bits sb0 ZMAP) 0 (map_bits sb0 ZMAP)) \/
     (0 <= b < map_bits sb0 ZMAP /\ map_bit BS blocks0 (map_start sb0 ZMAP) b = false /\ V' = set_map_bit BS blocks0 (map_start sb0 ZMAP) b true /\
      (lo <= b /\ map_full BS blocks0 (map_start sb0 ZMAP) (map_bits sb0 ZMAP) lo b \/
       map_full BS blocks0 (map_start sb0 ZMAP) (map_bits sb0 ZMAP) lo (map_bits sb0 ZMAP) /\ map_full BS blocks0 (map_start sb0 ZMAP) (map_bits sb0 ZMAP) 0 b)))) fs0.
Proof.
  refine (alloc_bit_first_free DEV BS own sb0 ZMAP blocks0 [] ∅ 3 fs0 sizes_0 sb0_ok (z_known _ _ _ _ _ _ _ _ zrep0) (proj1 few) _ _); [lia|].
  exact (conj cache0_rep sb0_ok).
Defined.

Lemma alloc_free_zone_witness :
  wp (alloc_zone DEV 5) (fun q s' => inodes s' = inodes fs0 /\
    ((q = NO_ZONE /\ err_code s' = ENOSPC /\ zrep DEV BS own sb0 s' blocks0 [] ∅ /\ forall x, data_zone sb0 x -> zone_used BS sb0 blocks0 x = true) \/
     (data_zone sb0 q /\ zone_used BS sb0 blocks0 q = false /\ zrep DEV BS own sb0 s' (mark_zone BS sb0 blocks0 q true) [] ∅ /\
      (forall x, data_zone sb0 x -> zone_used BS sb0 (mark_zone BS sb0 blocks0 q true) x = if decide (x = q) then true else zone_used BS sb0 blocks0 x) /\
      wp (free_zone DEV q) (fun _ s2 => exists V2, zrep DEV BS own sb0 s2 V2 [] ∅ /\
        forall x, data_zone sb0 x -> zone_used BS sb0 V2 x = zone_used BS sb0 blocks0 x) s'))) fs0.
Proof. refine (alloc_free_zone DEV BS own sb0 sb0_ok fs0 blocks0 [] ∅ 5 zrep0 (proj1 few) _). lia. Defined.

Lemma read_map_reference_witness :
  wp (read_map 0 7200 false) (fun b s' => b = zone_at BS blocks0 (i_zone r0) (7200 / BS) /\ fs_state DEV BS own sb0 s' blocks0 [] 0 r0 [8] /\ inodes s' = inodes fs0) fs0.
Proof. refine (read_map_reference DEV BS own sb0 sb0_ok fs0 blocks0 [] 0 r0 [8] 7200 fs0_ok (proj1 few) _ _); [lia|rewrite max_zones_0; done]. Defined.

(** The first zone of the double indirect block. *)
Definition pos0 : Z := 269400.
Lemma pos0_ok : 0 <= pos0 /\ pos0 / BS < max_zones BS /\ zone_at BS blocks0 (i_zone r0) (pos0 / BS) = 0.
Proof. rewrite max_zones_0. split; [done|]. split; [done|]. vm_compute. done. Qed.

Lemma write_map_contract_witness :
  wp (write_map 0 pos0 8 0) (fun e s' => exists V' r', with_file 0 r' fs0 s' /\ attrs r' = attrs r0 /\
    (forall b, data_zone sb0 b -> zone_used BS sb0 blocks0 b = true -> ~ indirect BS blocks0 (i_zone r0) (pos0 / BS) b -> V' !! b = blocks0 !! b) /\
    ((e = OK /\ fs_state DEV BS own sb0 s' V' [] 0 r' [] /\
      forall m, 0 <= m < max_zones BS -> zone_at BS V' (i_zone r') m = if decide (m = pos0 / BS) then 8 else zone_at BS blocks0 (i_zone r0) m) \/
     (e = ENOSPC /\ fs_state DEV BS own sb0 s' V' [] 0 r' [8] /\ (forall m, 0 <= m < max_zones BS -> zone_at BS V' (i_zone r') m = zone_at BS blocks0 (i_zone r0) m) /\
      forall x, data_zone sb0 x -> zone_used BS sb0 V' x = true))) fs0.
Proof.
  exact (write_map_contract DEV BS own sb0 sb0_ok fs0 blocks0 [] 0 r0 [] 8 pos0 fs0_ok (proj1 (proj2 few)) (proj1 pos0_ok) (proj1 (proj2 pos0_ok)) (proj2 (proj2 pos0_ok))).
Defined.

Lemma write_read_map_witness :
  wp (e ← write_map 0 pos0 8 0; b ← read_map 0 pos0 false; mret (e, b)) (fun eb _ =>
    (eb.1 = OK /\ eb.2 = if decide (pos0 / BS = pos0 / BS) then 8 else zone_at BS blocks0 (i_zone r0) (pos0 / BS)) \/
    (eb.1 = ENOSPC /\ eb.2 = zone_at BS blocks0 (i_zone r0) (pos0 / BS))) fs0.
Proof.
  exact (write_read_map DEV BS own sb0 sb0_ok fs0 blocks0 [] 0 r0 [] 8 pos0 pos0 fs0_ok (proj1 (proj2 few)) (proj1 pos0_ok) (proj1 (proj2 pos0_ok))
    (proj2 (proj2 pos0_ok)) (proj1 pos0_ok) (proj1 (proj2 pos0_ok))).
Defined.

Lemma size_3000 : 0 <= 3000 <= s_max_size sb0.
Proof. done. Qed.
Lemma special_0 : special r0 = false.
Proof. vm_compute. done. Qed.

Lemma truncate_contract_witness :
  wp (truncate_inode 0 3000) (fun e s' => e = OK /\ exists V' r', fs_state DEV BS own sb0 s' V' [] 0 r' [8] /\ with_file 0 r' fs0 s' /\
    attrs r' = (i_mode r0, 3000, i_num r0) /\
    (if decide (3000 < i_size r0) then cut BS blocks0 r0 3000 (i_size r0) V' r' [8] else V' = blocks0 /\ i_zone r' = i_zone r0)) fs0.
Proof.
  exact (truncate_contract DEV BS own sb0 sb0_ok fs0 blocks0 [] 0 r0 [8] 3000 fs0_ok (no_pins [8]) (proj2 (proj2 few)) number_0 special_0 size_3000 zones_for_0).
Defined.

Lemma nonneg_0 : 0 <= i_size r0 /\ 0 <= s_max_size sb0.
Proof. done. Qed.

