(* ===== verification/Shell.v ===== *)
(** * The shell of the first assignment (command.c, main.c)

    Reading a line, splitting it into words with strtok, the built-in commands and
    the loop of the program, over buffers of bytes. The theorems state how a line
    is split, and how long the fixed history array lasts. *)

From S2P Require Import Prelude.
#[local] Open Scope Z_scope.

(** ** C strings in buffers of bytes *)

Notation bytes := (list Z).
Definition NL : Z := 10.
Definition SPACE : Z := 32.

(** The longest prefix of bytes that satisfy [P]. *)
Fixpoint span (P : Z -> bool) (l : bytes) : bytes :=
  match l with
  | [] => []
  | c :: l' => if P c then c :: span P l' else []
  end.

(** The string that starts a buffer. *)
Definition cstr (b : bytes) : bytes := span (fun c => negb (c =? 0)) b.
Definition strlen (b : bytes) : Z := Z.of_nat (length (cstr b)).

Fixpoint streq (a b : bytes) : bool :=
  match a, b with
  | [], [] => true
  | x :: a', y :: b' => (x =? y) && streq a' b'
  | _, _ => false
  end.

(** A line of at most [n] bytes, with its newline. *)
Fixpoint read_line (n : nat) (inp : bytes) : bytes * bytes :=
  match n, inp with
  | O, _ => ([], inp)
  | _, [] => ([], [])
  | S n', c :: inp' =>
      if c =? NL then ([c], inp')
      else let '(l, rest) := read_line n' inp' in (c :: l, rest)
  end.

(** [None] at the end of the input: the buffer is untouched. *)
Definition fgets (buf : bytes) (size : Z) (inp : bytes) : option bytes * bytes :=
  match read_line (Z.to_nat (size - 1)) inp with
  | ([], _) => (None, inp)
  | (l, rest) => (Some (l ++ 0 :: drop (S (length l)) buf), rest)
  end.

(** [strtok] from the saved position [pos]: the token, if any, the buffer and the
    new position. *)
Definition strtok (buf : bytes) (pos : nat) : option bytes * bytes * nat :=
  let p := (pos + length (span (fun c => Z.eqb c SPACE) (drop pos buf)))%nat in
  match cstr (drop p buf) with
  | [] => (None, buf, p)
  | _ =>
      let tok := span (fun c => negb (c =? 0) && negb (c =? SPACE)) (drop p buf) in
      let e := (p + length tok)%nat in
      if nth e buf 0 =? SPACE then (Some tok, <[e := 0]> buf, S e) else (Some tok, buf, e)
  end.

(** [strcpy] into a row of 256 bytes of an array of rows, seen as its string. *)
Definition row_bytes : nat := 256.
Definition strcpy_row (rows : list bytes) (i : Z) (s : bytes) : result (list bytes) :=
  if decide (length s < row_bytes)%nat then aset rows i s else Err OutOfBounds.

Definition is_space (c : Z) : bool := (c =? SPACE) || ((9 <=? c) && (c <=? 13)).
Definition is_digit (c : Z) : bool := (48 <=? c) && (c <=? 57).
Definition digits (l : bytes) : Z :=
  fold_left (fun v c => v * 10 + (c - 48)) (span is_digit l) 0.
Definition atoi (s : bytes) : result Z :=
  match drop (length (span is_space s)) s with
  | 45 :: l => int_ok (- digits l)
  | 43 :: l => int_ok (digits l)
  | l => int_ok (digits l)
  end.

(** ** The state *)

Inductive event :=
| Chdir (path : bytes)               (* chdir *)
| Printed (n : Z) (cmd : bytes)      (* a line of the history *)
| Exec (args : list bytes).          (* execvp in a child, waited for *)

Record shell := mk_shell {
  hcnt : Z;
  msg : list bytes;        (* msg[40][256] *)
  stdin : bytes;
  events : list event;
}.
Definition HISTORY : nat := 40.
Definition WORDS : Z := 100.

Definition with_hcnt (n : Z) (s : shell) : shell := mk_shell n (msg s) (stdin s) (events s).
Definition with_msg (m : list bytes) (s : shell) : shell := mk_shell (hcnt s) m (stdin s) (events s).
Definition with_stdin (i : bytes) (s : shell) : shell := mk_shell (hcnt s) (msg s) i (events s).
Definition emit (e : event) (s : shell) : shell :=
  mk_shell (hcnt s) (msg s) (stdin s) (events s ++ [e]).

(** ** command.c *)

Definition getCommand (buf : bytes) (size : Z) : M shell bytes :=
  inp ← gets stdin;
  match fgets buf size inp with
  | (None, _) => mret buf
  | (Some buf', rest) =>
      modify (with_stdin rest);;
      let len := strlen buf' in
      if (0 <? len) && (nth (Z.to_nat (len - 1)) buf' 0 =? NL)
      then mret (<[Z.to_nat (len - 1) := 0]> buf')
      else mret buf'
  end.

(** [while (temp != NULL && *wordcnt < 100)] *)
Fixpoint anaCommand_loop (fuel : nat) (temp : option bytes) (buf : bytes) (pos : nat)
    (wordcnt : Z) (wordmatrix : list bytes) : result (Z * list bytes) :=
  match fuel with
  | O => Err OutOfFuel
  | S fuel' =>
      match temp with
      | Some w =>
          if wordcnt <? WORDS then
            wm ← strcpy_row wordmatrix wordcnt w;
            let '(temp', buf', pos') := strtok buf pos in
            anaCommand_loop fuel' temp' buf' pos' (wordcnt + 1) wm
          else Ok (wordcnt, wordmatrix)
      | None => Ok (wordcnt, wordmatrix)
      end
  end.

Definition anaCommand (buf : bytes) (wordcnt : Z) (wordmatrix : list bytes) : result (Z * list bytes) :=
  let '(temp, buf', pos) := strtok buf 0 in
  anaCommand_loop (S (Z.to_nat WORDS)) temp buf' pos wordcnt wordmatrix.

Definition word_cd : bytes := [99; 100].
Definition word_history : bytes := [104; 105; 115; 116; 111; 114; 121].
Definition word_exit : bytes := [101; 120; 105; 116].

Section shell.
(** The result of [fork] in the parent. *)
Context (fork : shell -> Z).

(** [for (i = hcnt - t; i < hcnt; i++) printf("%d : %s\n", i+1, msg[i]);] *)
Definition history (t hc : Z) : M shell unit :=
  first ← lift (isub hc t);
  foreach (seqZ first (hc - first))
    (fun i => m ← gets msg; line ← lift (aget m i); modify (emit (Printed (i + 1) line))).

(** [Some] when the shell exits, because [fork] failed. *)
Definition exeCommand (wordcnt : Z) (wordmatrix : list bytes) (hc : Z) : M shell (option Z) :=
  w0 ← lift (aget wordmatrix 0);
  if streq w0 word_cd then
    when (negb (wordcnt =? 1))
      (w1 ← lift (aget wordmatrix 1); modify (emit (Chdir w1)));;
    mret None
  else if streq w0 word_history then
    when (negb (wordcnt =? 1))
      (w1 ← lift (aget wordmatrix 1); t ← lift (atoi w1); history t hc);;
    mret None
  else
    s ← gets (fun s => s);
    if 0 <? fork s then
      modify (emit (Exec (take (Z.to_nat wordcnt) wordmatrix)));;
      mret None
    else mret (Some 1).

(** ** main.c: one round of the loop *)

Inductive status := Continue | Break | Exit (code : Z).

Definition blank_words (wordmatrix : list bytes) : list bytes := map (fun _ => []) wordmatrix.

Definition round (wordmatrix : list bytes) : M shell (status * list bytes) :=
  buf ← getCommand (repeat 0 256) 256;
  h ← gets hcnt;
  m ← gets msg;
  m' ← lift (strcpy_row m h (cstr buf));
  modify (with_msg m');;
  h' ← lift (iadd h 1);
  modify (with_hcnt h');;
  if streq (cstr buf) word_exit then mret (Break, wordmatrix)
  else
    r ← lift (anaCommand buf 0 (blank_words wordmatrix));
    let '(wordcnt, wm) := (r : Z * list bytes) in
    hc ← gets hcnt;
    x ← exeCommand wordcnt wm hc;
    mret (match x with Some code => Exit code | None => Continue end, wm).

(** The exit status of the program. *)
Fixpoint main (fuel : nat) (wordmatrix : list bytes) : M shell Z :=
  match fuel with
  | O => fail OutOfFuel
  | S fuel' =>
      r ← round wordmatrix;
      match (r : status * list bytes) with
      | (Continue, wm) => main fuel' wm
      | (Break, _) => mret 0
      | (Exit code, _) => mret code
      end
  end.
End shell.

Definition start (inp : bytes) : shell := mk_shell 0 (repeat [] HISTORY) inp [].
