(* ===== verification/ShellProps.v ===== *)
(** * Correctness of the shell of the first assignment

    A line is split into its words; a round of the loop records the line and has
    the effect of the command; the history array lasts for forty lines. *)

From S2P Require Import Prelude Shell.
#[local] Open Scope Z_scope.

(** ** Prefixes *)

Lemma span_split P l : exists r, l = span P l ++ r /\ match r with [] => True | c :: _ => P c = false end.
Proof.
  induction l as [|c l (r & E & Hr)]; [by exists []|]. cbn [span]. destruct (P c) eqn:Hc.
  - exists r. split; [simpl; congruence|done].
  - by exists (c :: l).
Qed.

Lemma span_all P l r : Forall (fun c => P c = true) l ->
  match r with [] => True | c :: _ => P c = false end -> span P (l ++ r) = l.
Proof.
  induction 1 as [|c l Hc _ IH]; intros Hr; cbn.
  - destruct r as [|c r]; [done|]. simpl. by rewrite Hr.
  - rewrite Hc. f_equal. by apply IH.
Qed.

Lemma span_app P l r : Forall (fun c => P c = true) l -> span P (l ++ r) = l ++ span P r.
Proof. induction 1 as [|c l Hc _ IH]; cbn; [done|]. rewrite Hc. by f_equal. Qed.

Lemma span_Forall P l : Forall (fun c => P c = true) (span P l).
Proof. induction l as [|c l IH]; cbn; [done|]. destruct (P c) eqn:E; [by constructor|done]. Qed.

Lemma span_length P l : (length (span P l) <= length l)%nat.
Proof. destruct (span_split P l) as (r & E & _). rewrite E at 2. rewrite length_app. lia. Qed.

Lemma span_span P Q l : (forall c, P c = true -> Q c = true) -> span P (span Q l) = span P l.
Proof.
  intros H. induction l as [|c l IH]; cbn; [done|]. destruct (Q c) eqn:EQ; cbn.
  - by rewrite IH.
  - destruct (P c) eqn:EP; [|done]. apply H in EP. congruence.
Qed.

Lemma streq_spec a b : streq a b = true <-> a = b.
Proof.
  revert b. induction a as [|x a IH]; intros [|y b]; simpl; try done.
  rewrite andb_true_iff, Z.eqb_eq, IH. split; [by intros [-> ->]|by intros [= -> ->]].
Qed.

(** ** Words: the reference definition *)

(** The maximal stretches without spaces; [cur] is the stretch being read, in
    reverse. *)
Fixpoint words_from (cur l : bytes) : list bytes :=
  let flush := match cur with [] => [] | _ => [rev cur] end in
  match l with
  | [] => flush
  | c :: l' => if c =? SPACE then flush ++ words_from [] l' else words_from (c :: cur) l'
  end.
Definition words (l : bytes) : list bytes := words_from [] l.

Lemma words_spaces sp l : Forall (fun c => (c =? SPACE) = true) sp -> words (sp ++ l) = words l.
Proof. unfold words. induction 1 as [|c sp Hc _ IH]; simpl; [done|]. by rewrite Hc. Qed.

Lemma words_from_token cur tok l :
  Forall (fun c => (c =? SPACE) = false) tok -> words_from cur (tok ++ l) = words_from (rev tok ++ cur) l.
Proof.
  intros H. revert cur. induction H as [|c tok Hc _ IH]; intros cur; [done|].
  cbn [app words_from rev]. rewrite Hc, IH. by rewrite <- app_assoc.
Qed.

Lemma words_token tok l :
  tok <> [] -> Forall (fun c => (c =? SPACE) = false) tok ->
  match l with [] => True | c :: _ => (c =? SPACE) = true end ->
  words (tok ++ l) = tok :: words l.
Proof.
  intros Hne Ht Hl. unfold words. rewrite words_from_token by done. rewrite app_nil_r.
  assert (rev tok <> []) as Hr by (intros E; apply Hne; by rewrite <- (rev_involutive tok), E).
  destruct l as [|c l]; cbn [words_from].
  - destruct (rev tok) eqn:E; [done|]. by rewrite <- E, rev_involutive.
  - rewrite Hl. destruct (rev tok) eqn:E; [done|]. rewrite <- E, rev_involutive. done.
Qed.

Lemma words_from_length cur l w : w ∈ words_from cur l -> (length w <= length cur + length l)%nat.
Proof.
  revert cur. induction l as [|c l IH]; intros cur; simpl.
  - destruct cur; [by intros ?%elem_of_nil|]. intros ->%list_elem_of_singleton.
    rewrite length_rev. simpl. lia.
  - destruct (c =? SPACE).
    + intros [Hw|Hw]%elem_of_app.
      * destruct cur; [by apply elem_of_nil in Hw|]. apply list_elem_of_singleton in Hw as ->.
        rewrite length_rev. simpl. lia.
      * apply IH in Hw. simpl in Hw. lia.
    + intros Hw%IH. simpl in Hw. lia.
Qed.

(** ** strtok *)

Lemma cstr_app l r : Forall (fun c => (c =? 0) = false) l -> cstr (l ++ r) = l ++ cstr r.
Proof. intros H. unfold cstr. apply span_app. eapply Forall_impl; [exact H|]. by intros c ->. Qed.

(** The delimiters that start a string, and the token after them. *)
Definition is_delim (c : Z) : bool := c =? SPACE.
Definition is_token (c : Z) : bool := negb (c =? 0) && negb (c =? SPACE).

Lemma words_cstr_token d :
  match d with [] => True | c :: _ => is_delim c = false end ->
  cstr d <> [] ->
  span is_token d <> [] /\
  exists d2, d = span is_token d ++ d2 /\ words (cstr d) = span is_token d :: words (cstr d2) /\
    match d2 with [] => True | c :: _ => c = 0 \/ c = SPACE end.
Proof.
  intros Hd Hc. destruct (span_split is_token d) as (d2 & E & Hd2). set (tok := span is_token d) in *.
  pose proof (span_Forall is_token d) as Ht. fold tok in Ht.
  assert (tok <> []) as Hne.
  { unfold tok. destruct d as [|c d]; [by destruct Hc|]. cbn [span]. unfold is_token.
    unfold is_delim in Hd. rewrite Hd. destruct (Z.eqb_spec c 0) as [->|]; [by destruct Hc|done]. }
  split; [done|]. exists d2. split; [done|].
  assert (match d2 with [] => True | c :: _ => c = 0 \/ c = SPACE end) as Hd2'.
  { destruct d2 as [|c d2]; [done|]. unfold is_token in Hd2.
    destruct (Z.eqb_spec c 0); [by left|]. destruct (Z.eqb_spec c SPACE); [by right|done]. }
  split; [|done]. rewrite E at 1. rewrite cstr_app.
  - apply words_token; [done| |].
    + eapply Forall_impl; [exact Ht|]. intros c. unfold is_token. by destruct (c =? SPACE), (c =? 0).
    + destruct d2 as [|c d2]; [done|]. destruct Hd2' as [->| ->]; done.
  - eapply Forall_impl; [exact Ht|]. intros c. unfold is_token. by destruct (c =? SPACE), (c =? 0).
Qed.

(** A step of strtok takes the first word of the rest of the string. *)
Lemma strtok_spec buf pos :
  match words (cstr (drop pos buf)) with
  | [] => exists p, strtok buf pos = (None, buf, p)
  | w :: ws => exists buf' pos', strtok buf pos = (Some w, buf', pos') /\
      words (cstr (drop pos' buf')) = ws
  end.
Proof.
  unfold strtok. fold is_delim is_token. set (d := drop pos buf).
  destruct (span_split is_delim d) as (d1 & Ed & Hd1). set (sp := span is_delim d) in *.
  assert (drop (pos + length sp) buf = d1) as Ep.
  { rewrite <- drop_drop. fold d. rewrite Ed. by rewrite drop_app_length. }
  rewrite Ep. pose proof (span_Forall is_delim d) as Hsp. fold sp in Hsp.
  assert (cstr d = sp ++ cstr d1) as Ec.
  { rewrite Ed at 1. apply cstr_app. eapply Forall_impl; [exact Hsp|]. intros c Hc.
    apply Z.eqb_eq in Hc as ->. done. }
  rewrite Ec, words_spaces by done. set (p := (pos + length sp)%nat) in *.
  destruct (cstr d1) as [|c0 s0] eqn:Es; [by exists p|]. rewrite <- Es.
  destruct (words_cstr_token d1 Hd1 ltac:(by rewrite Es)) as (Hne & d2 & E2 & -> & Hd2).
  set (tok := span is_token d1) in *.
  assert (drop (p + length tok) buf = d2) as Ee.
  { rewrite <- drop_drop, Ep, E2. by rewrite drop_app_length. }
  set (e := (p + length tok)%nat) in *.
  assert (nth e buf 0 = hd 0 d2) as ->.
  { rewrite <- Ee. rewrite <- (Nat.add_0_r e) at 1. rewrite <- nth_skipn. by destruct (drop e buf). }
  destruct d2 as [|c d2]; simpl.
  - exists buf, e. split; [done|]. by rewrite Ee.
  - destruct Hd2 as [->| ->]; simpl.
    + exists buf, e. split; [done|]. by rewrite Ee.
    + exists (<[e := 0]> buf), (S e). split; [done|]. rewrite drop_insert_lt by lia.
      assert (drop (S e) buf = d2) as ->; [|done].
      replace (S e) with (e + 1)%nat by lia. by rewrite <- drop_drop, Ee.
Qed.

(** The words still to come, with the current token. *)
Definition pending (temp : option bytes) (buf : bytes) (pos : nat) (ws : list bytes) : Prop :=
  match temp with
  | None => ws = []
  | Some w => ws = w :: words (cstr (drop pos buf))
  end.

Lemma pending_next buf pos :
  let '(temp, buf', pos') := strtok buf pos in
  pending temp buf' pos' (words (cstr (drop pos buf))).
Proof.
  pose proof (strtok_spec buf pos) as H. destruct (words _) as [|w ws].
  - by destruct H as [p ->].
  - destruct H as (buf' & pos' & -> & <-). done.
Qed.

(** The loop of [anaCommand], with the rows [a] filled and the rows [b] to fill. *)
Lemma anaCommand_loop_spec fuel temp buf pos a b ws :
  pending temp buf pos ws -> Forall (fun w => (length w < row_bytes)%nat) ws ->
  length (a ++ b) = Z.to_nat WORDS -> (length b < fuel)%nat ->
  anaCommand_loop fuel temp buf pos (Z.of_nat (length a)) (a ++ b) =
    Ok (Z.of_nat (length a + min (length b) (length ws)),
        a ++ take (length b) ws ++ drop (length ws) b).
Proof.
  revert temp buf pos a b ws. induction fuel as [|fuel IH]; intros temp buf pos a b ws Hp Hw Hl Hf; [lia|].
  cbn [anaCommand_loop]. rewrite length_app in Hl. destruct temp as [w|]; simpl in Hp; subst ws.
  - apply Forall_cons in Hw as [Hw Hws]. change (Z.to_nat WORDS) with 100%nat in Hl.
    destruct b as [|x b]; simpl in Hl.
    { rewrite (proj2 (Z.ltb_ge _ _)) by (unfold WORDS; lia). simpl. by rewrite Nat.add_0_r. }
    rewrite (proj2 (Z.ltb_lt _ _)) by (unfold WORDS; lia). unfold strcpy_row.
    rewrite decide_True by done. rewrite aset_nat by (rewrite length_app; simpl; lia). rsimpl.
    replace (<[length a := w]> (a ++ x :: b)) with (a ++ w :: b)
      by (by rewrite insert_app_r_alt, Nat.sub_diag by lia).
    pose proof (pending_next buf pos) as Hn. destruct (strtok buf pos) as [[temp' buf'] pos'].
    replace (Z.of_nat (length a) + 1) with (Z.of_nat (length (a ++ [w]))) by (rewrite length_app; simpl; lia).
    replace (a ++ w :: b) with ((a ++ [w]) ++ b) by (by rewrite <- app_assoc).
    rewrite (IH _ _ _ _ _ _ Hn Hws); [|rewrite !length_app; change (Z.to_nat WORDS) with 100%nat; simpl; lia|simpl in Hf; lia].
    rewrite length_app, <- app_assoc. simpl. do 2 f_equal. lia.
  - simpl. rewrite Nat.min_0_r, Nat.add_0_r. by rewrite take_nil.
Qed.

(** ** Reading a line *)

(** What [getCommand] makes of the input: the line up to a newline or a zero
    byte, and the rest of the input. *)
Definition in_line (c : Z) : bool := negb (c =? 0) && negb (c =? NL).
Definition input_line (inp : bytes) : bytes := span in_line (fst (read_line 255 inp)).
Definition input_rest (inp : bytes) : bytes := snd (read_line 255 inp).

(** A newline can only come last. *)
Lemma read_line_shape n inp : exists a, Forall (fun c => c <> NL) a /\ (length a <= n)%nat /\
  (fst (read_line n inp) = a \/ fst (read_line n inp) = a ++ [NL]).
Proof.
  revert inp. induction n as [|n IH]; intros inp; [exists []; split; [constructor|split; [simpl; lia|by left]]|].
  destruct inp as [|c inp]; cbn [read_line]; [exists []; split; [constructor|split; [simpl; lia|by left]]|].
  destruct (Z.eqb_spec c NL) as [->|Hc].
  - exists []. split; [constructor|split; [simpl; lia|by right]].
  - destruct (IH inp) as (a & Ha & Hl & Hr). destruct (read_line n inp) as [l rest]. simpl in *.
    exists (c :: a). split; [by constructor|split; [simpl; lia|]]. destruct Hr as [-> | ->]; auto.
Qed.

Lemma read_line_nil n inp rest : read_line (S n) inp = ([], rest) -> rest = inp.
Proof.
  destruct inp as [|c inp]; cbn [read_line]; [by injection 1|].
  destruct (c =? NL); [done|]. by destruct (read_line n inp).
Qed.

Lemma cstr_terminated l r : cstr (l ++ 0 :: r) = cstr l.
Proof. unfold cstr. induction l as [|c l IH]; cbn; [done|]. destruct (negb _); [by rewrite IH|done]. Qed.

Lemma input_line_length inp : (length (input_line inp) < row_bytes)%nat.
Proof.
  destruct (read_line_shape 255 inp) as (a & Ha & Hl & Hr). unfold input_line, row_bytes.
  assert (span in_line (fst (read_line 255 inp)) = span in_line a) as ->.
  { destruct Hr as [-> | ->]; [done|]. induction a as [|c a IH]; cbn; [done|].
    destruct (in_line c); [|done]. f_equal. apply IH; [by inversion Ha|simpl in Hl; lia]. }
  pose proof (span_length in_line a). lia.
Qed.

(** Without newlines only a zero byte ends the line. *)
Lemma in_line_cstr a : Forall (fun c => c <> NL) a -> span in_line a = cstr a.
Proof.
  unfold cstr, in_line. induction 1 as [|c a Hc _ IH]; cbn; [done|].
  rewrite (proj2 (Z.eqb_neq c NL) Hc), andb_true_r. destruct (negb (c =? 0)); [by rewrite IH|done].
Qed.

Lemma cstr_Forall P a : Forall P a -> Forall P (cstr a).
Proof. intros H. destruct (span_split (fun c => negb (c =? 0)) a) as (r & E & _). rewrite E in H. by apply Forall_app in H as [H _]. Qed.

(** A buffer whose string does not end in a newline is left alone. *)
Lemma last_not_newline buf a :
  cstr buf = a -> Forall (fun c => c <> NL) a ->
  (0 <? strlen buf) && (nth (Z.to_nat (strlen buf - 1)) buf 0 =? NL) = false.
Proof.
  intros Ec Ha. destruct (Z.ltb_spec 0 (strlen buf)) as [Hl|]; [|done]. cbn [andb]. apply Z.eqb_neq.
  destruct (span_split (fun c => negb (c =? 0)) buf) as (r & E & _). fold (cstr buf) in E. rewrite Ec in E.
  unfold strlen in *. rewrite Ec in *. rewrite E.
  rewrite app_nth1 by lia. rewrite Forall_nth in Ha. apply Ha. lia.
Qed.

Lemma getCommand_ok s : exists buf,
  getCommand (repeat 0 256) 256 s = Ok (buf, with_stdin (input_rest (stdin s)) s) /\
  cstr buf = input_line (stdin s).
Proof.
  destruct (read_line_shape 255 (stdin s)) as (a & Ha & Hl & Hr).
  unfold getCommand, gets, mbind, M_bind, fgets, input_rest, input_line.
  change (Z.to_nat (256 - 1)) with 255%nat.
  destruct (read_line 255 (stdin s)) as [l rest] eqn:E. cbn [fst snd] in *.
  destruct l as [|c l].
  { exists (repeat 0 256). split; [|done]. assert (rest = stdin s) as ->; [|by destruct s].
    by apply (read_line_nil 254). }
  set (buf := (c :: l) ++ 0 :: _). cbn [modify].
  assert (cstr buf = cstr (c :: l)) as Ec by apply cstr_terminated.
  destruct Hr as [Hr|Hr].
  - rewrite (last_not_newline buf (cstr a)); [|by rewrite Ec, Hr|by apply cstr_Forall].
    exists buf. split; [done|]. by rewrite Ec, Hr, in_line_cstr.
  - destruct (decide (Forall (fun c => (c =? 0) = false) a)) as [Hz|Hz].
    + assert (cstr buf = a ++ [NL]) as Ec2 by (rewrite Ec, Hr, cstr_app; done).
      assert (strlen buf = Z.of_nat (length a) + 1) as Es
        by (unfold strlen; rewrite Ec2, length_app; simpl; lia).
      rewrite Es. replace (Z.to_nat (Z.of_nat (length a) + 1 - 1)) with (length a) by lia.
      unfold buf. rewrite Hr, <- app_assoc, app_nth2, Nat.sub_diag by lia. cbn [nth app].
      rewrite (proj2 (Z.ltb_lt _ _)) by lia. rewrite Z.eqb_refl. cbn [andb].
      eexists. split; [done|]. rewrite insert_app_r_alt, Nat.sub_diag by lia. cbn [insert list_insert].
      rewrite cstr_terminated. rewrite <- (app_nil_r a) at 1. rewrite cstr_app by done.
      rewrite app_nil_r. symmetry. apply span_all; [|done].
      apply Forall_forall. intros x Hx. unfold in_line.
      rewrite Forall_forall in Ha, Hz. rewrite (Hz x Hx), (proj2 (Z.eqb_neq _ _) (Ha x Hx)). done.
    + assert (cstr (a ++ [NL]) = cstr a /\ span in_line (a ++ [NL]) = span in_line a) as [E1 E2].
      { clear -Hz. unfold cstr. induction a as [|x a IH]; [by destruct Hz|]. cbn.
        destruct (x =? 0) eqn:Hx; unfold in_line; rewrite ?Hx; [done|].
        destruct IH as [IH1 IH2]; [by intros H; apply Hz; constructor|]. cbn. rewrite IH1.
        split; [done|]. destruct (x =? NL); [done|]. cbn. f_equal. exact IH2. }
      rewrite (last_not_newline buf (cstr a)); [|by rewrite Ec, Hr|by apply cstr_Forall].
      exists buf. split; [done|]. by rewrite Ec, Hr, E1, E2, in_line_cstr.
Qed.

(** ** The effect of a command *)

(** What a command does, with [hc] lines of history [h]; [None] when it reads the
    history out of bounds or overflows. [forked] tells whether a child can be
    made. *)
Definition command_effect (forked : bool) (hc : Z) (h : list bytes) (ws : list bytes)
  : option (status * list event) :=
  match ws with
  | w0 :: args =>
      if streq w0 word_cd then
        Some (Continue, match args with w1 :: _ => [Chdir w1] | [] => [] end)
      else if streq w0 word_history then
        match args with
        | [] => Some (Continue, [])
        | w1 :: _ =>
            match atoi w1 with
            | Ok t =>
                if (t <=? hc) && (hc - t <=? INT_MAX)
                then Some (Continue, map (fun i => Printed (i + 1) (nth (Z.to_nat i) h [])) (seqZ (hc - t) t))
                else None
            | Err _ => None
            end
        end
      else Some (if forked then (Continue, [Exec (take 100 ws)]) else (Exit 1, []))
  | [] => Some (if forked then (Continue, [Exec []]) else (Exit 1, []))
  end.

Definition stopped (st : status) : option Z := match st with Exit c => Some c | _ => None end.

(** The rows that [anaCommand] fills. *)
Definition word_rows (ws : list bytes) : list bytes := take 100 ws ++ drop (length ws) (repeat [] 100).

Lemma anaCommand_ok buf wm :
  length wm = 100%nat -> (length (cstr buf) < row_bytes)%nat ->
  anaCommand buf 0 (blank_words wm) =
    Ok (Z.of_nat (min 100 (length (words (cstr buf)))), word_rows (words (cstr buf))).
Proof.
  intros Hwm Hl. unfold anaCommand. pose proof (pending_next buf 0) as Hp.
  destruct (strtok buf 0) as [[temp buf'] pos']. rewrite drop_0 in Hp.
  assert (blank_words wm = repeat [] 100) as ->.
  { clear -Hwm. rewrite <- Hwm. clear Hwm. unfold blank_words. induction wm as [|w wm IH]; [done|]. simpl. by f_equal. }
  pose proof (anaCommand_loop_spec (S (Z.to_nat WORDS)) temp buf' pos' [] (repeat [] 100) _ Hp) as H.
  rewrite repeat_length in H. apply H; [|done|unfold WORDS; lia].
  apply Forall_forall. intros w Hw. apply words_from_length in Hw. simpl in Hw. lia.
Qed.

Lemma history_ok t (s : shell) k :
  length (msg s) = HISTORY -> (k <= HISTORY)%nat -> t <= Z.of_nat k -> Z.of_nat k - t <= INT_MAX ->
  history t (Z.of_nat k) s =
    Ok (tt, mk_shell (hcnt s) (msg s) (stdin s)
      (events s ++ map (fun i => Printed (i + 1) (nth (Z.to_nat i) (msg s) [])) (seqZ (Z.of_nat k - t) t))).
Proof.
  intros Hm Hk Ht Hi. unfold history, isub. unfold HISTORY in *.
  rewrite int_ok_in by (unfold INT_MIN, INT_MAX in *; lia).
  erewrite lift_bind by reflexivity.
  replace (Z.of_nat k - (Z.of_nat k - t)) with t by lia.
  assert (forall i, i ∈ seqZ (Z.of_nat k - t) t -> 0 <= i < 40) as Hin
    by (intros i Hi'%elem_of_seqZ; lia).
  revert s Hm Hin. generalize (seqZ (Z.of_nat k - t) t). induction l as [|i l IH]; intros s Hm Hin.
  { simpl. rewrite app_nil_r. destruct s; reflexivity. }
  cbn [foreach map]. unfold mbind, M_bind, gets, lift, modify. cbn [msg].
  assert (aget (msg s) i = Ok (nth (Z.to_nat i) (msg s) [])) as ->.
  { specialize (Hin i ltac:(left)). apply aget_Ok. split; [lia|]. rewrite nth_lookup.
    destruct (msg s !! Z.to_nat i) eqn:E; [done|]. apply lookup_ge_None in E. lia. }
  rewrite IH; [|done|intros j Hj; apply Hin; by right]. simpl. by rewrite <- app_assoc.
Qed.

(** Lines before the first one are outside the array. *)
Lemma history_before t k s : Z.of_nat k < t -> INT_MIN <= t <= INT_MAX ->
  history t (Z.of_nat k) s = Err OutOfBounds.
Proof.
  intros Ht Hi. unfold history, isub. erewrite lift_bind by (apply int_ok_in; unfold INT_MIN, INT_MAX in *; lia).
  rewrite seqZ_cons by lia. cbn [foreach]. apply err_bind_err.
  rewrite (bind_ok (gets _) _ s _ s eq_refl). apply lift_bind_err. unfold aget. rewrite decide_False; [done|lia].
Qed.

Lemma atoi_cases w : exists v, atoi w = int_ok v.
Proof.
  unfold atoi. destruct (drop _ w) as [|c l]; [by eexists|].
  repeat (destruct c as [|c|c]; try by eexists).
Qed.
Lemma atoi_range w t : atoi w = Ok t -> INT_MIN <= t <= INT_MAX.
Proof. destruct (atoi_cases w) as [v ->]. by intros [-> ?]%int_ok_inv. Qed.
Lemma atoi_err w e : atoi w = Err e -> e = SignedOverflow.
Proof. destruct (atoi_cases w) as [v ->]. unfold int_ok. case_decide; [done|]. by intros [= <-]. Qed.

Lemma aget_word_rows ws n : (n < 100)%nat -> aget (word_rows ws) (Z.of_nat n) = Ok (nth n ws []).
Proof.
  intros Hn. apply aget_nat. unfold word_rows.
  destruct (decide (n < length ws)%nat) as [Hw|Hw].
  - rewrite lookup_app_l by (rewrite length_take; lia). rewrite lookup_take_lt by done.
    rewrite nth_lookup. destruct (ws !! n) eqn:E; [done|]. apply lookup_ge_None in E. lia.
  - apply Nat.nlt_ge in Hw. rewrite (take_ge ws) by lia. rewrite (lookup_app_r ws) by exact Hw. rewrite lookup_drop.
    replace (length ws + (n - length ws))%nat with n by lia.
    rewrite nth_overflow by lia. apply (lookup_replicate_2 100 (A := bytes)). lia.
Qed.

Lemma take_word_rows ws : take (min 100 (length ws)) (word_rows ws) = take 100 ws.
Proof.
  unfold word_rows. rewrite take_app_le by (rewrite length_take; lia).
  rewrite take_take. destruct (Nat.le_gt_cases (length ws) 100).
  - by rewrite !(take_ge ws) by lia.
  - f_equal. lia.
Qed.

Section exe.
Context (fork : shell -> Z).

(** [exeCommand] has that effect, or faults where there is none. *)
Lemma exeCommand_ok ws k s :
  length (msg s) = HISTORY -> (k <= HISTORY)%nat ->
  match command_effect (0 <? fork s) (Z.of_nat k) (msg s) ws with
  | Some (st, evs) =>
      exeCommand fork (Z.of_nat (min 100 (length ws))) (word_rows ws) (Z.of_nat k) s =
        Ok (stopped st, mk_shell (hcnt s) (msg s) (stdin s) (events s ++ evs)) /\ st <> Break
  | None => exists e, e ∈ [OutOfBounds; SignedOverflow] /\
      exeCommand fork (Z.of_nat (min 100 (length ws))) (word_rows ws) (Z.of_nat k) s = Err e
  end.
Proof using Type.
  intros Hm Hk. unfold exeCommand. rewrite (lift_bind _ _ _ _ (aget_word_rows ws 0 ltac:(lia))).
  assert (Z.of_nat (min 100 (length ws)) =? 1 = match ws with [_] => true | _ => false end) as E1.
  { apply eq_true_iff_eq. rewrite Z.eqb_eq. destruct ws as [|w0 [|w1 ws]]; simpl; split; done || lia. }
  rewrite E1. clear E1. pose proof (aget_word_rows ws 1 ltac:(lia)) as H1.
  destruct ws as [|w0 args]; cbn [nth command_effect].
  { change (streq [] word_cd) with false. change (streq [] word_history) with false. cbv iota.
    rewrite (bind_ok (gets _) _ s s s eq_refl). destruct (0 <? fork s); [|by rewrite app_nil_r; destruct s].
    done. }
  destruct (streq w0 word_cd) eqn:Ecd.
  { destruct args as [|w1 args]; cbn [negb when].
    - rewrite app_nil_r. split; [by destruct s|done].
    - split; [|done]. unfold mbind at 1, M_bind at 1. by rewrite (lift_bind _ _ _ _ H1). }
  destruct (streq w0 word_history) eqn:Eh.
  { destruct args as [|w1 args]; cbn [negb when].
    - rewrite app_nil_r. split; [by destruct s|done].
    - cbn [nth] in H1. destruct (atoi w1) as [t|e] eqn:Et.
      + destruct (Z.leb_spec t (Z.of_nat k)) as [Hle|Hgt]; cbn [andb].
        * destruct (Z.leb_spec (Z.of_nat k - t) INT_MAX) as [Hi|Hi].
          -- split; [|done]. unfold mbind at 1, M_bind at 1.
             rewrite (lift_bind _ _ _ _ H1), (lift_bind _ _ _ _ Et), history_ok by done. done.
          -- exists SignedOverflow. split; [right; left|]. apply err_bind_err.
             rewrite (lift_bind _ _ _ _ H1), (lift_bind _ _ _ _ Et). apply lift_bind_err.
             unfold isub, int_ok. rewrite decide_False; [done|lia].
        * exists OutOfBounds. split; [left|]. apply err_bind_err.
          rewrite (lift_bind _ _ _ _ H1), (lift_bind _ _ _ _ Et). apply history_before; [lia|].
          by apply atoi_range in Et.
      + exists SignedOverflow. split; [right; left|]. apply err_bind_err.
        rewrite (lift_bind _ _ _ _ H1). apply lift_bind_err. by rewrite Et, (atoi_err _ _ Et). }
  rewrite (bind_ok (gets _) _ s s s eq_refl). destruct (0 <? fork s); [|by rewrite app_nil_r; destruct s].
  split; [|done]. rewrite Nat2Z.id, take_word_rows. done.
Qed.

(** The state after a line has been recorded in slot [k] of the history. *)
Definition recorded (k : nat) (s : shell) : shell :=
  mk_shell (Z.of_nat k + 1) (<[k := input_line (stdin s)]> (msg s)) (input_rest (stdin s)) (events s).

Definition round_result (k : nat) (s : shell) (wm : list bytes)
  : option (status * list bytes * shell) :=
  let ws := words (input_line (stdin s)) in
  let r := recorded k s in
  if streq (input_line (stdin s)) word_exit then Some (Break, wm, r)
  else
    match command_effect (0 <? fork r) (hcnt r) (msg r) ws with
    | Some (st, evs) => Some (st, word_rows ws, mk_shell (hcnt r) (msg r) (stdin r) (events r ++ evs))
    | None => None
    end.

Lemma round_ok k s wm :
  hcnt s = Z.of_nat k -> (k < HISTORY)%nat -> length (msg s) = HISTORY -> length wm = 100%nat ->
  match round_result k s wm with
  | Some r => round fork wm s = Ok r
  | None => round fork wm s = Err OutOfBounds \/ round fork wm s = Err SignedOverflow
  end.
Proof using Type.
  intros Hk Hlt Hm Hwm. destruct (getCommand_ok s) as (buf & Eb & Ec).
  pose proof (input_line_length (stdin s)) as Hline. unfold round, round_result.
  rewrite (bind_ok _ _ _ _ _ Eb). rewrite !(bind_ok (gets _) _ _ _ _ eq_refl). rewrite Ec. cbn [hcnt msg with_stdin].
  rewrite Hk. unfold strcpy_row. rewrite decide_True by done. rewrite aset_nat by (unfold HISTORY in *; lia).
  rewrite (lift_bind _ _ _ _ eq_refl), (bind_ok (modify _) _ _ _ _ eq_refl). unfold iadd.
  erewrite lift_bind by (apply int_ok_in; unfold INT_MIN, INT_MAX, HISTORY in *; lia).
  rewrite (bind_ok (modify _) _ _ _ _ eq_refl).
  change (with_hcnt _ (with_msg _ (with_stdin _ s))) with (recorded k s).
  destruct (streq (input_line (stdin s)) word_exit); [done|].
  erewrite lift_bind by (rewrite <- Ec in Hline; by apply anaCommand_ok). rewrite Ec.
  rewrite (bind_ok (gets _) _ _ _ _ eq_refl).
  assert (length (msg (recorded k s)) = HISTORY) as Hm' by (simpl; by rewrite length_insert).
  pose proof (exeCommand_ok (words (input_line (stdin s))) (S k) (recorded k s) Hm' Hlt) as He.
  replace (Z.of_nat (S k)) with (hcnt (recorded k s)) in He by (simpl; lia).
  destruct (command_effect _ _ _ _) as [[st evs]|].
  - destruct He as [He Hst]. rewrite (bind_ok _ _ _ _ _ He). destruct st; [done|done|done].
  - destruct He as (e & Hin & He). apply elem_of_cons in Hin as [->|Hin].
    + left. by apply err_bind_err.
    + right. apply list_elem_of_singleton in Hin as ->. by apply err_bind_err.
Qed.

(** With forty lines recorded there is no room for another. *)
Lemma round_full s wm :
  hcnt s = Z.of_nat HISTORY -> length (msg s) = HISTORY -> round fork wm s = Err OutOfBounds.
Proof using Type.
  intros Hk Hm. destruct (getCommand_ok s) as (buf & Eb & Ec). unfold round.
  rewrite (bind_ok _ _ _ _ _ Eb). rewrite !(bind_ok (gets _) _ _ _ _ eq_refl). apply lift_bind_err.
  unfold strcpy_row. rewrite decide_True by (rewrite Ec; apply input_line_length).
  unfold aset. cbn [hcnt msg with_stdin]. rewrite Hk, Hm. by rewrite decide_False by lia.
Qed.

Lemma main_stops n fuel s wm :
  hcnt s = Z.of_nat (HISTORY - n) -> (n <= HISTORY)%nat -> (n < fuel)%nat ->
  length (msg s) = HISTORY -> length wm = 100%nat ->
  wp (main fork fuel wm) (fun _ s' => hcnt s' <= 40) s \/
  main fork fuel wm s = Err OutOfBounds \/ main fork fuel wm s = Err SignedOverflow.
Proof using Type.
  revert fuel s wm. induction n as [|n IH]; intros [|fuel] s wm Hk Hn Hf Hm Hwm; try lia; cbn [main].
  { right. left. apply err_bind_err, round_full; [|done]. rewrite Hk. by rewrite Nat.sub_0_r. }
  assert (HISTORY - S n < HISTORY)%nat as Hlt by (unfold HISTORY in *; lia).
  pose proof (round_ok _ s wm Hk Hlt Hm Hwm) as Hr. unfold round_result in Hr.
  destruct (streq _ _).
  { left. unfold wp. rewrite (bind_ok _ _ _ _ _ Hr). unfold HISTORY in *. simpl. lia. }
  destruct (command_effect _ _ _ _) as [[st evs]|].
  2:{ right. destruct Hr as [Hr|Hr]; [left|right]; by apply err_bind_err. }
  destruct st; unfold wp; rewrite (bind_ok _ _ _ _ _ Hr).
  - apply IH; [simpl; unfold HISTORY in *; lia|lia|lia|simpl; by rewrite length_insert|].
    unfold word_rows. rewrite length_app, length_take, length_drop, repeat_length. lia.
  - left. unfold HISTORY in *. simpl. lia.
  - left. unfold HISTORY in *. simpl. lia.
Qed.
End exe.

(** ** The theorems *)

(** C38 [anaCommand] splits the string of its buffer into its words, the maximal
    stretches without spaces: it counts them and copies them into the rows, up to
    a hundred of them, writing past the end neither of a row nor of the matrix. *)
Theorem anaCommand_words buf wm :
  length wm = 100%nat -> (length (cstr buf) < row_bytes)%nat ->
  let ws := words (cstr buf) in
  anaCommand buf 0 (blank_words wm) =
    Ok (Z.of_nat (min 100 (length ws)), take 100 ws ++ drop (length ws) (repeat [] 100)).
Proof. intros Hwm Hl. by apply anaCommand_ok. Qed.

(** C39 A round of the shell with room in the history reads one line, records it,
    and ends the program for [exit]; otherwise it has the effect of its command:
    [cd] changes the directory, [history n] prints the last [n] lines, anything
    else runs a program with the words of the line as arguments. It faults only
    where [history] asks for more lines than there are. *)
Theorem shell_round fork k s wm :
  hcnt s = Z.of_nat k -> (k < HISTORY)%nat -> length (msg s) = HISTORY -> length wm = 100%nat ->
  match round_result fork k s wm with
  | Some r => round fork wm s = Ok r
  | None => round fork wm s = Err OutOfBounds \/ round fork wm s = Err SignedOverflow
  end.
Proof. intros Hk Hlt Hm Hwm. by apply round_ok. Qed.

(** C40 The shell never runs for more than forty lines: whatever the input, within
    forty-one rounds it has exited or has faulted, at the latest when it records
    the forty-first line past the end of the history array. At the end of the
    input it does not exit: it records empty lines until it faults. *)
Theorem shell_stops fork inp fuel wm :
  (HISTORY < fuel)%nat -> length wm = 100%nat ->
  (wp (main fork fuel wm) (fun _ s' => hcnt s' <= 40) (start inp) \/
   main fork fuel wm (start inp) = Err OutOfBounds \/
   main fork fuel wm (start inp) = Err SignedOverflow) /\
  ((forall s, 0 < fork s) -> main fork fuel wm (start []) = Err OutOfBounds).
Proof.
  intros Hf Hwm. split.
  { apply (main_stops fork HISTORY); done. }
  intros Hfork. assert (forall n fuel s wm, (n <= HISTORY)%nat -> hcnt s = Z.of_nat (HISTORY - n) ->
    (n < fuel)%nat -> length (msg s) = HISTORY -> length wm = 100%nat -> stdin s = [] ->
    main fork fuel wm s = Err OutOfBounds) as H; [|by apply (H HISTORY)].
  clear fuel wm Hf Hwm inp. induction n as [|n IH]; intros [|fuel] s wm Hn Hk Hf Hm Hwm Hin; try lia; cbn [main].
  { apply err_bind_err, round_full; [|done]. rewrite Hk. by rewrite Nat.sub_0_r. }
  assert (HISTORY - S n < HISTORY)%nat as Hlt by (unfold HISTORY in *; lia).
  pose proof (round_ok fork _ s wm Hk Hlt Hm Hwm) as Hr. unfold round_result, recorded in Hr.
  rewrite Hin in Hr. change (streq (input_line []) word_exit) with false in Hr.
  change (words (input_line [])) with (@nil bytes) in Hr. cbn [command_effect] in Hr.
  rewrite (proj2 (Z.ltb_lt _ _)) in Hr by apply Hfork. rewrite (bind_ok _ _ _ _ _ Hr).
  apply IH; [lia|simpl; unfold HISTORY in *; lia|lia|simpl; by rewrite length_insert|done|done].
Qed.

(** ** Instances *)

(** "ls -l", two spaces, "x" *)
Definition demo_line : bytes := [108; 115; 32; 45; 108; 32; 32; 120].

Lemma anaCommand_words_witness :
  anaCommand (demo_line ++ repeat 0 248) 0 (blank_words (repeat [] 100)) =
    Ok (3, [[108; 115]; [45; 108]; [120]] ++ repeat [] 97).
Proof.
  rewrite (anaCommand_words (demo_line ++ repeat 0 248) (repeat [] 100)).
  - reflexivity.
  - reflexivity.
  - vm_compute. lia.
Defined.

Lemma shell_round_witness :
  round (fun _ => 7) (repeat [] 100) (start (demo_line ++ [10])) =
    Ok (Continue, word_rows [[108; 115]; [45; 108]; [120]],
      mk_shell 1 (<[0%nat := demo_line]> (repeat [] HISTORY)) [] [Exec [[108; 115]; [45; 108]; [120]]]).
Proof.
  apply (shell_round (fun _ => 7) 0 (start (demo_line ++ [10])) (repeat [] 100)).
  - reflexivity.
  - unfold HISTORY. lia.
  - reflexivity.
  - reflexivity.
Defined.

Lemma shell_stops_witness : main (fun _ => 7) 41 (repeat [] 100) (start []) = Err OutOfBounds.
Proof.
  apply (shell_stops (fun _ => 7) [] 41 (repeat [] 100)).
  - unfold HISTORY. lia.
  - reflexivity.
  - intros s. reflexivity.
Defined.
